(* ===== verification/_CoqProject ===== *)
-Q . S2P
Prelude.v
Core.v
ByteOrder.v
Checksum.v
Toeplitz.v
Packet.v
PacketFacts.v
PacketSpec.v
TcpSeq.v
PacketMerger.v
TcpHdr.v
Net.v
TcbData.v
Tcb.v
TcbState.v
TcbSend.v
TcbStream.v
TcbRecv.v
TcbFailures.v
Inet.v
Arp.v
Ipv4.v
IpHeader.v
Reassembly.v
FragTable.v
Defrag.v
IpSend.v
Icmp.v
Udp.v
Tcp.v
TcpCsum.v
TcpTable.v
TcpSide.v
TcpPeer.v
TcpLink.v
Dhcp.v
DhcpSpec.v
Interface.v
InterfaceSpec.v
NativeDevice.v
Steering.v
RpcWire.v
RpcWireSpec.v
Rpc.v
RpcSpec.v
RpcMemory.v
RpcNegotiation.v
RpcStream.v
RpcStreamSpec.v
RpcStreamLimits.v
RpcLz4.v
RpcLz4Spec.v
Json.v
JsonSpec.v
Http.v
HttpSpec.v
HttpUrl.v
HttpParser.v
HttpParserSpec.v
HttpReply.v
HttpReplySpec.v
HttpServer.v
HttpServerSpec.v
HttpTransform.v
HttpResponse.v
PosixAccept.v
Virtio.v
VirtioSpec.v
Dns.v
DnsSpec.v
