(* ===== verification/Prelude.v ===== *)
(** * Verification of the actor-network library

    The repository holds the network side of the [nil::actor] runtime: a
    user-space stack (byte order, checksums, packet buffers, Ethernet, ARP, IPv4
    with fragmentation and reassembly, ICMP echo, UDP, TCP, a DHCP client,
    devices and interfaces, drivers for virtio and DPDK), and above it an RPC
    library, an HTTP server and JSON output; beside them adapters to POSIX
    sockets, GnuTLS and c-ares.  This library models the stack from the rings of
    virtio and the byte level up to two TCP ends and the network between them,
    the sharing of POSIX connections among shards, the sockets under the DNS
    resolver, RPC from the frames up to
    calls and streams, and HTTP from the parsers up to the connection that
    serves, and proves what each part promises to the part above it.

    ** Conventions

    - An integer of the program is a [Z] with its wrap-around written out
      ([u8], [u16], [u32], [u64], [s32] below); a byte string is a list of
      integers, bytes where [Forall is_byte] says so.
    - A failed assertion, a null dereference, an access outside a buffer, a
      division by zero or a shift by the width of the type is the result [None].
      What the code does to callers it does not return to - promises it keeps,
      packets it has an address looked up for, datagrams it hands on - is a list
      of events.
    - A future that is ready is the value; a continuation that runs later is a
      definition of its own ([packet_resolved], [icmp_resolved], [udp_resolved],
      [poll_resolved], [close_continuation], [complete_send]).  Where several
      loops run at the same time - the ends of an RPC connection, the two loops
      of an HTTP connection, a sink and a source - each is a step, a future that
      is not ready is a step that is not enabled, and an execution is any order
      of the steps.
    - What is on the other side - the host of a virtio ring, the kernel's queue
      of connections, the network, another shard - is a set of steps that are
      always enabled where the other side is free to take them.  A choice that
      the C++ library leaves open, such as which of several equal keys an
      [unordered_multimap] finds, is a parameter ([pick]).
    - Shared objects ([lw_shared_ptr]) live in a heap, and tables and handles
      hold their addresses: the buffers of packets (Packet.v), the channel
      states of UDP (Udp.v), the control blocks and listeners of TCP (Tcp.v).
    - The runtime is not part of the repository (it is a submodule): what the
      library relies on of timers, semaphores, queues, input streams, temporary
      buffers, [align_up] and the loads and stores of fixed byte order is stated
      as type classes with laws in Core.v, with [StringBuilder] of HttpParser.v
      and [BufferStream] of HttpServer.v for what HTTP alone needs and [Lz4] of
      RpcLz4.v for the compression library; components are parameterised by them,
      and [Core.Impl] (with [Build], [Buffers] and [RpcLz4Spec.Ex]) has an instance
      of each, on which the witnesses evaluate.
    - The host's byte order is an argument ([endian]).

    ** The parts

    - Prelude.v: integers, byte strings, automation.  Core.v: the runtime.
      Net.v, Inet.v: constants, hardware features, addresses, the Ethernet
      header (network/const.hh, net.hh, ethernet.hh, ip.hh).
    - ByteOrder.v (network/byteorder.hh), Checksum.v (network/ip_checksum.hh and
      .cc), Toeplitz.v (network/toeplitz.hh, [forward_hash] of net.hh).
    - Packet.v: class [packet] (network/packet.hh, packet.cc) over a store of
      buffers, with the inline fragment area, headroom and deleters;
      PacketFacts.v and PacketSpec.v: its operations are those of byte strings,
      so the files above it use a packet as its bytes and offload information.
    - TcpSeq.v: [tcp_seq]; PacketMerger.v: [packet_merger] (packet-util.hh) for
      any offset type, used for TCP segments and IP fragments.
    - Arp.v: [arp] and [arp_for<L3>] (network/arp.hh, arp.cc).
    - Ipv4.v: class [ipv4] (network/ip.hh, ip.cc); IpHeader.v, Reassembly.v,
      FragTable.v, Defrag.v, IpSend.v: the header, the fragments of a datagram,
      the table of incomplete datagrams, reassembly, and the way from [send] to
      the receiver.
    - Icmp.v: class [icmp]; Udp.v: class [ipv4_udp], its channels and datagrams
      (network/udp.hh, ip.hh, udp.cc).
    - TcpHdr.v: headers and options (tcp.hh, tcp.cc).  TcbData.v: the state of a
      connection; Tcb.v: every member function of [tcp::tcb], in a state monad
      with failure and events; TcbState.v, TcbSend.v, TcbStream.v, TcbRecv.v,
      TcbFailures.v: its theorems.
    - Tcp.v: class [tcp]: the table of connections, listeners, resets, the poll
      of the control blocks; TcpCsum.v, TcpTable.v: its theorems.  TcpSide.v,
      TcpPeer.v, TcpLink.v: one end of a connection, its peer, and both over a
      network that loses, repeats and reorders.
    - Dhcp.v, DhcpSpec.v: the client (network/dhcp.hh, dhcp.cc).
    - Interface.v, InterfaceSpec.v: [qp], [device], [interface] (network/net.hh,
      net.cc); NativeDevice.v: the queues and redirection tables that the start-up
      gives the shards (network/native-stack.cc, [build_sw_reta] of net.cc), whose
      weights are floating-point numbers of [SpecFloat]; Steering.v: the shard that a
      connection's frames reach.
    - Virtio.v, VirtioSpec.v: the rings of the virtio driver, its free
      descriptors, posting and completing, the headers (network/virtio.cc,
      virtio-interface.hh).
    - PosixAccept.v: [conntrack] and the accepting of connections on several
      shards, the sizes of input buffers (network/posix-stack.hh, posix-stack.cc).
    - Dns.v, DnsSpec.v: the sockets that the resolver gives c-ares, their
      reference counts and continuations, its calls and their timer
      (network/dns.hh, dns.cc).
    - RpcWire.v, RpcWireSpec.v: frames, buffers, the negotiation, marshalling and
      compression; Rpc.v: [connection], [client], [server], with RpcSpec.v,
      RpcMemory.v, RpcNegotiation.v; RpcStream.v: sinks and sources, with
      RpcStreamSpec.v, RpcStreamLimits.v (rpc/rpc.hh, rpc_impl.hh, rpc_types.hh,
      rpc.cc); RpcLz4.v, RpcLz4Spec.v: the compressors and the factory of several
      (rpc/lz4_compressor.cc, lz4_fragmented_compressor.cc,
      multi_algo_compressor_factory.hh).
    - Json.v, JsonSpec.v: the formatter and the elements (json/formatter.hh,
      json_elements.hh and their sources).
    - Http.v, HttpSpec.v: routes, rules and matchers, json paths; HttpUrl.v: query
      parameters; HttpParser.v, HttpParserSpec.v: the request parser; HttpReply.v,
      HttpReplySpec.v: replies, exceptions, redirections, files;
      HttpTransform.v: the files that are rewritten on the way out;
      HttpServer.v, HttpServerSpec.v: the connection; HttpResponse.v: the parser
      of responses (http/ and its headers).

    The parts meet where the code calls across: [ipv4] holds an [arp_for]
    ([ip_arp]) and asks it in [get_l2_dst_address]; [l4packet] carries what ICMP,
    UDP and TCP give to [ipv4_get_packet], which calls [ipv4_send]; [dispatch]
    and [handle_received_packet] deliver to the layer above as [IpDeliver];
    [run_tcb] runs an operation of Tcb.v on the control block at an address and
    carries out in class [tcp] what it emitted; the steering of Interface.v asks
    [forward] of Ipv4.v and Tcp.v.  Rpc.v reads and writes the frames of RpcWire.v,
    and a stream of RpcStream.v is sent over the queue of a connection of Rpc.v;
    its theorems hold for any compressor that is [compressor_ok], and those of
    RpcLz4.v are.
    A connection of HttpServer.v parses with HttpParser.v, takes the parameters
    with HttpUrl.v, finds the handler with Http.v, writes the reply of HttpReply.v,
    and an error's body is text of Json.v; HttpResponse.v reads what HttpReply.v
    writes.

    ** What is shown

    - Streams: two TCP connections that have just opened give to each user a
      prefix of what the other wrote, whatever the network and the timers do
      ([TcpLink.tcp_delivers]).  One end alone: what it sends are the bytes
      written, at their sequence numbers ([TcbStream.tcb_stream],
      [TcbSend.output_one_again]); what it receives is the stream up to the first
      gap ([TcbRecv.tcb_receives_stream], [TcbRecv.segment_acceptable_rfc793],
      [PacketMerger.merge_tcp_segments]).  On a little-endian host with
      several hardware queues its segments reach the shard that opened it, over both
      dispatches ([Steering.connect_replies_arrive]).
    - Datagrams: fragments that one host sends are reassembled by the other to
      the bytes sent, in any order and among other packets
      ([IpSend.fragments_reassembled], as a composition with the
      specification [Defrag.datagram_reassembled]); the table of incomplete
      datagrams is bounded whatever bytes arrive, implausible headers included
      ([FragTable.ipv4_reassembly_bounded]); UDP datagrams are queued where there is
      room, and ICMP echoes arrive ([Udp.udp_send_received], [Icmp.icmp_echo]).
    - States and tables: the TCP state diagram and the timer bounds in every
      execution ([TcbState]), no dangling name in the tables of [tcp] and
      isolation of connections ([TcpTable]), every ARP waiter answered once
      ([Arp.arp_waiters_answered_once], [Arp.arp_resolution]).
    - Interfaces: frames reach the protocol of their type or the shard of their
      hash, at most 1000 are on their way to other shards, and every protocol is
      served in its turn ([InterfaceSpec]).
    - Driver: whatever order the host completes in, it reads the buffers that were
      posted, every chain is completed once, and posting finds a free descriptor
      as long as there are units ([VirtioSpec.vring_completes]); the fragments of
      a received packet are collected in order ([VirtioSpec.received_whole]).
    - POSIX listeners: a connection reaches one caller of [accept], on the shard
      that the load balancing names, and the loads are the numbers of open handles
      ([PosixAccept.posix_connections]); while none closes, the loads of the shards
      differ by at most one ([PosixAccept.posix_connections_even]).
    - The resolver's sockets: in any order of what c-ares calls and the network
      finishes, what waits finds its entry, and an entry is erased when it is
      closed and nothing holds it; reads are the stream in order, and nothing is
      undefined but on connections that were refused or ended
      ([DnsSpec.dns_sockets]).
    - DHCP: the client gets the lease that was acknowledged, as the options say by
      their types, and answers its caller once ([DhcpSpec]).
    - RPC: what is written is read ([RpcWireSpec]); the sides of a connection agree
      on what they negotiate ([RpcNegotiation.rpc_negotiation_agrees]); a call ends
      at most once and runs at most once with its own arguments, and a value that
      it returns is what its handler answered ([RpcSpec.rpc_calls]); the memory of
      requests is conserved ([RpcMemory.rpc_memory_bounded]); streams deliver what
      is put into them and hold a bounded part of it
      ([RpcStreamSpec.rpc_stream_delivers], [RpcStreamLimits.rpc_stream_bounded]).
      The compressors undo what they do, and what LZ4 looks up in the chunks
      before is there at both ends ([RpcLz4Spec.lz4_undone],
      [lz4_fragmented_undone]); sides with several algorithms agree on one
      ([RpcLz4Spec.multi_algo_agree]).
    - HTTP: a request is read back however it is cut
      ([HttpParserSpec.http_request_round_trip]), so are its parameters
      ([HttpUrl.query_round_trip]); the routes answer from the history of
      registrations ([HttpSpec.routes_dispatch]); a client that delimits as RFC
      7230 says, by status, method, chunks and length, reads the reply
      ([HttpReplySpec.http_response_round_trip]), as
      does the parser of responses up to the body
      ([HttpResponse.http_response_parsed]); a file is rewritten alike however
      it is cut ([HttpTransform.content_replaced]); a connection answers in order,
      and ends ([HttpServerSpec.http_connection_serves], [http_connection_ends]).
    - Encodings: headers and options round-trip ([TcpHdr], [IpHeader], [Arp],
      [Udp]), JSON whose strings need no escapes and whose keys are strings is
      read back ([JsonSpec.json_read_back]);
      checksums are, on a big-endian host, those of RFC 1071, do not depend on
      fragmentation, and verify at the receiver ([Checksum], [TcpCsum]); the RSS hash is the xor of key
      windows ([Toeplitz]).
    - Packet buffers: each operation is its counterpart on byte strings and
      never leaves its buffers ([PacketSpec]).
    - Termination: option parsing ([TcpHdr.tcp_options_parse_terminates]), the
      search for a port ([Udp.make_channel_anonymous]), reading the negotiation
      ([RpcWireSpec.rpc_negotiation_terminates]), an HTTP connection.
    - Failures: segments, datagrams, frames and timers that stop the program or
      break its promises ([TcbFailures],
      [FragTable.header_longer_than_datagram_stops],
      [TcpTable.listener_pending_leaks], [IpSend.unaligned_mtu_corrupts],
      [IpSend.datagrams_mix], [Steering.single_queue_misdirects],
      [PacketSpec.trim_back_headroom_overrun],
      [Checksum.get_little_endian_constant], [TcpHdr.tcp_options_overread],
      [DhcpSpec.dhcp_stray_reply_silences], [DhcpSpec.dhcp_timeout_after_success],
      [DhcpSpec.dhcp_second_server_lost], [DhcpSpec.dhcp_pad_swallows],
      [RpcStreamLimits.rpc_stream_frame_behind_end],
      [HttpServerSpec.http_error_reply_lost], [HttpReplySpec.asynchronous_redirect],
      [HttpReplySpec.extension_needs_slash], [HttpUrl.hex_code_not_checked],
      [HttpReplySpec.content_without_body], [JsonSpec.json_quote_not_escaped],
      [JsonSpec.integer_keys_no_json], [JsonSpec.newline_no_json], [HttpTransform.three_braces_cut],
      [HttpResponse.folded_line_unmarked], [VirtioSpec.bunch_wraps],
      [RpcLz4Spec.overlong_last_chunk], [RpcLz4Spec.Ex.chunk_beyond_message],
      [DnsSpec.refused_connection], [DnsSpec.end_of_stream], [DnsSpec.sends_parts]).
      Where a theorem about checksums needs
      a big-endian host, that is why.

    ** Fuel

    [parse] has as much fuel as there are option bytes, of which each round
    consumes one; [find_port] has 65536, the number of ports; [send_frags] has
    the length of the packet, of which each round takes at least one byte; the
    poll of a queue 129 rounds, of which each adds a packet below 128; the DHCP
    options the length of the packet.  RPC reads the rest of a frame with one
    round more than bytes are pending, and allocates chunks, parses features and
    empties a queue with their lengths; a message is compressed in as many rounds as
    it has chunks of 32 KB, and decompressed in at most as many as it has bytes.  Digits are at most one more than the
    logarithm of the number; [set_query_param] has one round more than the url
    has bytes.  The readers that the round trips are stated with, [JsonSpec] and
    [HttpReplySpec], have the length of the text.  Replacing in a buffer takes two
    rounds for a byte and two more; a completion has a round for each element of
    the used ring that it has not seen, and walks a chain for at most the size of
    the ring.  The shards that share a queue
    are found within as many rounds as there are shards.  A free number of a socket is found within as many rounds as there
    are sockets, and a read of the resolver that is given data takes two.  The
    theorems above show that
    none runs out where the code returns.

    ** Bounds and hypotheses

    Stream theorems of TCP are about positions within 2^30 of a base, as sequence
    numbers can only be compared then.  Addresses, ports and fields are of their
    widths.  Timers, semaphores, queues and input streams obey the laws of Core.v.
    What class [tcp] does for a control block ([TcbData.event]) it does when the
    operation returns.  In HTTP the date is one text for a run, an [unordered_map]
    of headers gives any permutation of them, header names are written in the
    case they are looked up in, and what comes on a connection before its end is
    in its stream from the start while the reader may be as late as it likes.
    A table of a queue has been built from its weights: the default weight does on up
    to 64 shards ([NativeDevice.default_weight_fills]), others are tested by
    [fills_table].  DHCP messages have no padding and no option twice.  A fragment
    carries a multiple of eight bytes and, its datagrams all being numbered 0, one
    datagram of a protocol is on its way between two hosts at a time.
    Texts that are rewritten do not have three braces behind one another.  The
    sizes of rings are powers of two up to 2^15, as virtio demands.  Messages that are
    compressed have at most 0x7e000000 bytes, the limit of LZ4.  c-ares uses the
    sockets that it has and has not closed, connects each once and before it uses
    it, and has closed them all when its queries are cancelled; fewer than 2^64
    calls of the resolver are pending.

    ** Not modelled

    - DPDK and TLS: what these files do is to call the libraries DPDK and GnuTLS.
      Of the resolver, the queries, which are c-ares.  Of virtio, the setting up of the vhost device; of the
      POSIX stack, reading, writing and the datagram channels: both are system
      calls.  The generated metrics code, and counting for metrics throughout.
    - The adapters of the native stack to sockets, textual addresses, and reading
      the configuration.
    - The initial sequence number is a parameter ([get_isn]), as it is a digest
      of an external library; IPv6 addresses are not used above ip.hh.
    - RPC: the accept loop and the tables of streams by connection, scheduling
      groups.  Exceptions of compressors, which end a connection.
    - HTTP: the documentation of an api, which copies files, the adapters of
      functions to handlers, the list of connections and the accept loop, the
      clock.
    - JSON: the texts of floating numbers and dates, the futures of the writers to
      streams. *)

From Stdlib Require Import ZArith Lia List Bool.
From stdpp Require Import base numbers list list_numbers gmap.

#[local] Open Scope Z_scope.

Declare Scope net_scope.
Delimit Scope net_scope with net.

Create HintDb wrap.
Create Rewrite HintDb wrap.
Create HintDb zlen.
Create Rewrite HintDb zlen.

(** ** Machine integers: a [w]-bit unsigned value is a [Z] reduced modulo [2^w]. *)

Definition wrap (w : Z) (z : Z) : Z := z mod 2 ^ w.

Abbreviation u8 := (wrap 8).
Abbreviation u16 := (wrap 16).
Abbreviation u32 := (wrap 32).
Abbreviation u64 := (wrap 64).

(** Conversion to [int32_t]: two's complement of the low 32 bits. *)
Definition s32 (z : Z) : Z := if u32 z <? 2 ^ 31 then u32 z else u32 z - 2 ^ 32.

Definition is_uint (w : Z) (z : Z) : Prop := 0 <= z < 2 ^ w.
Abbreviation is_byte := (is_uint 8).

(** Length of a list as an integer, as [size()] and [len()] return it. *)
Definition zlen {A} (l : list A) : Z := Z.of_nat (length l).
Arguments zlen : simpl never.

(** Big-endian value of a byte string, and the [n]-byte big-endian encoding. *)
Fixpoint be_val_acc (acc : Z) (bs : list Z) : Z :=
  match bs with
  | [] => acc
  | b :: bs' => be_val_acc (acc * 256 + b) bs'
  end.
Definition be_val (bs : list Z) : Z := be_val_acc 0 bs.

Fixpoint be_bytes (n : nat) (v : Z) : list Z :=
  match n with
  | O => []
  | S n' => (v / 2 ^ (8 * Z.of_nat n')) mod 256 :: be_bytes n' v
  end.

(** [slice off n l]: the [n] elements from position [off]. *)
Definition slice {A} (off n : Z) (l : list A) : list A :=
  take (Z.to_nat n) (drop (Z.to_nat off) l).

(** [splice off bs l] overwrites [l] from [off] with [bs] (a store of
    [length bs] bytes through a pointer; in range by the caller's check). *)
Definition splice {A} (off : Z) (bs l : list A) : list A :=
  take (Z.to_nat off) l ++ bs ++ drop (Z.to_nat off + length bs) l.

(** ** Tactics *)

Ltac pow2 :=
  change (2 ^ 8) with 256 in *; change (2 ^ 16) with 65536 in *;
  change (2 ^ 31) with 2147483648 in *; change (2 ^ 32) with 4294967296 in *;
  change (2 ^ 64) with 18446744073709551616 in *;
  change (2 ^ 128) with 340282366920938463463374607431768211456 in *.

Ltac zlia := Z.div_mod_to_equations; lia.

(** Unfold the integer-width vocabulary and finish with linear arithmetic. *)
Ltac width_lia := unfold is_uint, zlen, wrap in *; pow2; zlia.

(** Case analysis on every boolean comparison of the goal. *)
Ltac bcase :=
  repeat match goal with
    | |- context [?a <? ?b] => destruct (Z.ltb_spec a b)
    | |- context [?a <=? ?b] => destruct (Z.leb_spec a b)
    | |- context [?a =? ?b] => destruct (Z.eqb_spec a b)
    end.

(** Turn the boolean facts of the context into propositions. *)
Ltac b2p :=
  repeat match goal with
    | H : (_ && _)%bool = true |- _ => apply andb_true_iff in H; destruct H
    | H : (_ || _)%bool = false |- _ => apply orb_false_iff in H; destruct H
    | H : (_ <? _) = true |- _ => apply Z.ltb_lt in H
    | H : (_ <? _) = false |- _ => apply Z.ltb_ge in H
    | H : (_ <=? _) = true |- _ => apply Z.leb_le in H
    | H : (_ <=? _) = false |- _ => apply Z.leb_gt in H
    | H : (_ =? _) = true |- _ => apply Z.eqb_eq in H
    | H : (_ =? _) = false |- _ => apply Z.eqb_neq in H
    | H : negb _ = true |- _ => apply negb_true_iff in H
    | H : negb _ = false |- _ => apply negb_false_iff in H
    end.

(** ** Lemmas on widths *)

Lemma wrap_range w z : 0 <= w -> 0 <= wrap w z < 2 ^ w.
Proof. intros. apply Z.mod_pos_bound. lia. Qed.

Lemma wrap_small w z : 0 <= z < 2 ^ w -> wrap w z = z.
Proof. apply Z.mod_small. Qed.

Lemma wrap_wrap w z : wrap w (wrap w z) = wrap w z.
Proof. apply Zmod_mod. Qed.

Lemma wrap_add_l w a b : wrap w (wrap w a + b) = wrap w (a + b).
Proof. apply Zplus_mod_idemp_l. Qed.

Lemma wrap_add_r w a b : wrap w (a + wrap w b) = wrap w (a + b).
Proof. apply Zplus_mod_idemp_r. Qed.

Lemma wrap_sub_l w a b : wrap w (wrap w a - b) = wrap w (a - b).
Proof. apply Zminus_mod_idemp_l. Qed.

Lemma wrap_sub_r w a b : wrap w (a - wrap w b) = wrap w (a - b).
Proof. apply Zminus_mod_idemp_r. Qed.

#[export] Hint Resolve wrap_small : wrap.
#[export] Hint Rewrite wrap_wrap wrap_add_l wrap_add_r wrap_sub_l wrap_sub_r : wrap.

Lemma s32_range z : - 2 ^ 31 <= s32 z < 2 ^ 31.
Proof.
  unfold s32. pose proof (wrap_range 32 z ltac:(lia)). pow2.
  destruct (Z.ltb_spec (u32 z) 2147483648); lia.
Qed.

(** A difference of less than half the number space survives the wrap. *)
Lemma s32_small z : - 2 ^ 31 <= z < 2 ^ 31 -> s32 z = z.
Proof.
  intros H. unfold s32, wrap. pow2.
  destruct (Z.ltb_spec (z mod 4294967296) 2147483648); zlia.
Qed.

Lemma s32_wrap z : s32 (u32 z) = s32 z.
Proof. unfold s32. rewrite wrap_wrap. done. Qed.

(** ** Lemmas on byte strings *)

Lemma be_val_acc_app a xs ys :
  be_val_acc a (xs ++ ys) = be_val_acc (be_val_acc a xs) ys.
Proof. revert a. induction xs; intros; simpl; auto. Qed.

Lemma be_val_acc_shift a bs :
  be_val_acc a bs = a * 2 ^ (8 * zlen bs) + be_val bs.
Proof.
  unfold be_val, zlen. revert a. induction bs as [|b bs IH]; intros a; simpl be_val_acc.
  - simpl. lia.
  - rewrite IH, (IH (0 * 256 + b)). simpl length.
    replace (8 * Z.of_nat (S (length bs))) with (8 * Z.of_nat (length bs) + 8) by lia.
    rewrite Z.pow_add_r by lia. change (2 ^ 8) with 256. lia.
Qed.

Lemma be_val_app xs ys : be_val (xs ++ ys) = be_val xs * 2 ^ (8 * zlen ys) + be_val ys.
Proof. unfold be_val at 1. rewrite be_val_acc_app. apply be_val_acc_shift. Qed.

Lemma be_val_cons b bs : be_val (b :: bs) = b * 2 ^ (8 * zlen bs) + be_val bs.
Proof. apply (be_val_acc_shift b bs). Qed.

Lemma be_val_range bs :
  Forall is_byte bs -> 0 <= be_val bs < 2 ^ (8 * zlen bs).
Proof.
  induction 1 as [|b bs Hb _ IH].
  - unfold be_val, zlen. simpl. lia.
  - rewrite be_val_cons. unfold zlen in *. simpl length.
    replace (8 * Z.of_nat (S (length bs))) with (8 * Z.of_nat (length bs) + 8) by lia.
    rewrite Z.pow_add_r by lia. unfold is_uint in Hb. change (2 ^ 8) with 256 in *. nia.
Qed.

Lemma length_be_bytes n v : length (be_bytes n v) = n.
Proof. induction n; simpl; auto. Qed.

Lemma be_bytes_range n v : Forall is_byte (be_bytes n v).
Proof.
  induction n; simpl; constructor; auto.
  split; [apply Z.mod_pos_bound; lia|]. apply (Z.mod_pos_bound _ 256). lia.
Qed.

Lemma be_val_be_bytes n v : be_val (be_bytes n v) = v mod 2 ^ (8 * Z.of_nat n).
Proof.
  induction n as [|n IH].
  - simpl. unfold be_val. simpl. symmetry. apply Z.mod_1_r.
  - simpl be_bytes. rewrite be_val_cons, IH. unfold zlen. rewrite length_be_bytes.
    replace (8 * Z.of_nat (S n)) with (8 * Z.of_nat n + 8) by lia.
    rewrite (Z.pow_add_r 2 (8 * Z.of_nat n) 8) by lia. change (2 ^ 8) with 256.
    assert (0 < 2 ^ (8 * Z.of_nat n)) by (apply Z.pow_pos_nonneg; lia).
    rewrite Z.rem_mul_r by lia. lia.
Qed.

Lemma be_bytes_be_val bs : Forall is_byte bs -> be_bytes (length bs) (be_val bs) = bs.
Proof.
  assert (Haux : forall n v k, be_bytes n (k * 2 ^ (8 * Z.of_nat n) + v) = be_bytes n v).
  { induction n as [|n IH]; intros v k; simpl; auto.
    replace (8 * Z.of_nat (S n)) with (8 + 8 * Z.of_nat n) by lia.
    rewrite Z.pow_add_r by lia. rewrite Z.mul_assoc, IH. f_equal.
    assert (0 < 2 ^ (8 * Z.of_nat n)) by (apply Z.pow_pos_nonneg; lia).
    rewrite Z.add_comm, Z.div_add by lia. change (2 ^ 8) with 256.
    rewrite Z.add_comm, Z.add_mod, Z.mod_mul, Z.add_0_l, Zmod_mod by lia. done. }
  induction 1 as [|b bs Hb Hbs IH]; auto.
  rewrite be_val_cons. unfold zlen. simpl length. simpl be_bytes. rewrite Haux, IH. f_equal.
  pose proof (be_val_range bs Hbs) as Hr. unfold zlen in Hr.
  rewrite Z.add_comm, Z.div_add by lia. rewrite Z.div_small by lia.
  rewrite Z.add_0_l. apply Z.mod_small. exact Hb.
Qed.

Lemma be_bytes_inj n v w :
  0 <= v < 2 ^ (8 * Z.of_nat n) -> 0 <= w < 2 ^ (8 * Z.of_nat n) ->
  be_bytes n v = be_bytes n w -> v = w.
Proof.
  intros Hv Hw E. apply (f_equal be_val) in E. rewrite !be_val_be_bytes in E.
  rewrite !Z.mod_small in E; auto.
Qed.

(** ** Lemmas on lists *)

Lemma zlen_nil {A} : zlen (@nil A) = 0.
Proof. done. Qed.

Lemma zlen_cons {A} (x : A) l : zlen (x :: l) = 1 + zlen l.
Proof. unfold zlen. simpl. lia. Qed.

Lemma zlen_app {A} (l1 l2 : list A) : zlen (l1 ++ l2) = zlen l1 + zlen l2.
Proof. unfold zlen. rewrite length_app. lia. Qed.

Lemma zlen_nonneg {A} (l : list A) : 0 <= zlen l.
Proof. unfold zlen. lia. Qed.

Lemma zlen_take {A} (l : list A) n : 0 <= n <= zlen l -> zlen (take (Z.to_nat n) l) = n.
Proof. unfold zlen. intros. rewrite length_take. lia. Qed.

Lemma zlen_drop {A} (l : list A) n : 0 <= n <= zlen l -> zlen (drop (Z.to_nat n) l) = zlen l - n.
Proof. unfold zlen. intros. rewrite length_drop. lia. Qed.

Lemma zlen_0_nil {A} (l : list A) : zlen l = 0 -> l = [].
Proof. destruct l; [done|]. rewrite zlen_cons. pose proof (zlen_nonneg l). lia. Qed.

Lemma zlen_slice {A} (l : list A) off n :
  0 <= off -> 0 <= n -> off + n <= zlen l -> zlen (slice off n l) = n.
Proof. unfold zlen, slice. intros. rewrite length_take, length_drop. lia. Qed.

Lemma zlen_splice {A} (bs l : list A) off :
  0 <= off -> off + zlen bs <= zlen l -> zlen (splice off bs l) = zlen l.
Proof. unfold zlen, splice. intros. rewrite !length_app, length_take, length_drop. lia. Qed.

Lemma slice_all {A} (l : list A) : slice 0 (zlen l) l = l.
Proof. unfold slice, zlen. rewrite drop_0. apply take_ge. lia. Qed.

Lemma slice_splice {A} (bs l : list A) off :
  0 <= off <= zlen l -> slice off (zlen bs) (splice off bs l) = bs.
Proof.
  unfold slice, splice, zlen. intros.
  rewrite drop_app_length' by (rewrite length_take; lia). apply take_app_length'. lia.
Qed.

Lemma slice_slice {A} (l : list A) a n b m :
  0 <= a -> 0 <= b -> b + m <= n -> slice b m (slice a n l) = slice (a + b) m l.
Proof.
  unfold slice. intros. rewrite skipn_firstn_comm, take_take, drop_drop. f_equal; [lia|f_equal; lia].
Qed.

Lemma slice_app_l {A} (l k : list A) n : zlen l = n -> slice 0 n (l ++ k) = l.
Proof. unfold slice, zlen. intros <-. rewrite drop_0. apply take_app_length'. lia. Qed.

Lemma drop_slice {A} (l : list A) off n k :
  0 <= off -> 0 <= k -> drop (Z.to_nat k) (slice off n l) = slice (off + k) (n - k) l.
Proof.
  unfold slice. intros. rewrite skipn_firstn_comm, drop_drop. f_equal; [lia|f_equal; lia].
Qed.

Lemma take_slice {A} (l : list A) off n k :
  0 <= k <= n -> take (Z.to_nat k) (slice off n l) = slice off k l.
Proof. unfold slice. intros. rewrite take_take. f_equal. lia. Qed.

#[export] Hint Rewrite @zlen_nil @zlen_cons @zlen_app : zlen.
#[export] Hint Resolve zlen_nonneg : zlen.

(** A byte string is one, by evaluation. *)
Definition all_bytes (l : list Z) : bool := forallb (fun b => (0 <=? b) && (b <? 256))%bool l.

Lemma all_bytes_ok l : all_bytes l = true -> Forall is_byte l.
Proof.
  unfold all_bytes. induction l as [|b l IH]; cbn [forallb]; [constructor|]. intros H.
  apply andb_true_iff in H as [H1 H2]. b2p. constructor; [split; [done|]|by apply IH]. by change (2 ^ 8) with 256.
Qed.
