(* ===== verification/Core.v ===== *)
(** * Interfaces of the [nil::actor] core runtime

    The network stack calls a runtime whose sources are not part of the
    repository.  What it calls is stated here as type classes: operations with
    the documented behaviour the stack relies on.  Every component that calls
    the runtime is parameterised by these classes; the instances at the end of
    the file are concrete implementations of the interfaces, on which the
    witnesses of the other files evaluate. *)

From S2P Require Import Prelude.
From stdpp Require Import base numbers list.

#[local] Open Scope Z_scope.

(** ** <nil/actor/core/byteorder.hh>: [read_be<T>(p)] and [write_be<T>(p, v)]

    The [n]-byte big-endian load and store ([n = sizeof(T)]).  [consume_be] and
    [produce_be] are the same with the cursor advanced by [n]. *)

Class BeCodec := {
  read_be : nat -> list Z -> Z;
  write_be : nat -> Z -> list Z;
  read_be_spec : forall n bs, (n <= length bs)%nat -> read_be n bs = be_val (take n bs);
  write_be_spec : forall n v, write_be n v = be_bytes n v
}.

(** ** <nil/actor/core/align.hh>: [align_up(v, align)] *)

Class AlignUp := {
  align_up : Z -> Z -> Z;
  align_up_spec : forall v a, 0 <= v -> 0 < a ->
    v <= align_up v a < v + a /\ align_up v a mod a = 0
}.

(** ** <nil/actor/core/timer.hh>: an armed or idle one-shot timer

    [arm]/[rearm] set the expiry, [cancel] disarms, [armed] tells which. *)

Class TimerOps (T : Type) := {
  tm_idle : T;
  tm_armed : T -> bool;
  tm_rearm : Z -> T -> T;
  tm_cancel : T -> T;
  tm_expiry : T -> option Z;
  tm_armed_idle : tm_armed tm_idle = false;
  tm_armed_expiry : forall t, tm_armed t = bool_decide (is_Some (tm_expiry t));
  tm_expiry_rearm : forall z t, tm_expiry (tm_rearm z t) = Some z;
  tm_expiry_cancel : forall t, tm_expiry (tm_cancel t) = None
}.

(** ** <nil/actor/core/semaphore.hh>: a counting semaphore

    [try_wait(n)] takes [n] units when they are available, [signal(n)] returns
    [n] units. *)

Class SemaphoreOps (S : Type) := {
  sem_make : Z -> S;
  sem_units : S -> Z;
  sem_try_wait : S -> Z -> option S;
  sem_signal : S -> Z -> S;
  sem_units_make : forall n, sem_units (sem_make n) = n;
  sem_try_wait_spec : forall s n,
    match sem_try_wait s n with
    | Some s' => n <= sem_units s /\ sem_units s' = sem_units s - n
    | None => sem_units s < n
    end;
  sem_units_signal : forall s n, sem_units (sem_signal s n) = sem_units s + n
}.

(** ** <nil/actor/core/queue.hh>: a bounded queue

    [push] adds an item unless the queue is full (its result says which), [pop]
    takes the oldest, [abort] empties it and fails whoever waits for an item. *)

Class QueueOps (Q A : Type) := {
  q_make : Z -> Q;
  q_items : Q -> list A;
  q_max_size : Q -> Z;
  q_push : A -> Q -> option Q;
  q_pop : Q -> option (A * Q);
  q_abort : Q -> Q;
  q_items_make : forall n, q_items (q_make n) = [];
  q_max_size_make : forall n, q_max_size (q_make n) = n;
  q_push_spec : forall a q,
    match q_push a q with
    | Some q' => zlen (q_items q) < q_max_size q /\ q_items q' = q_items q ++ [a] /\ q_max_size q' = q_max_size q
    | None => q_max_size q <= zlen (q_items q)
    end;
  q_pop_spec : forall q,
    match q_pop q with
    | Some (a, q') => q_items q = a :: q_items q' /\ q_max_size q' = q_max_size q
    | None => q_items q = []
    end;
  q_abort_spec : forall q, q_items (q_abort q) = [] /\ q_max_size (q_abort q) = q_max_size q
}.

(** ** <nil/actor/core/byteorder.hh>: [read_le<T>(p)] and [write_le<T>(p, v)] *)

Class LeCodec := {
  read_le : nat -> list Z -> Z;
  write_le : nat -> Z -> list Z;
  read_le_spec : forall n bs, (n <= length bs)%nat -> read_le n bs = be_val (rev (take n bs));
  write_le_spec : forall n v, write_le n v = rev (be_bytes n v)
}.

(** ** <nil/actor/core/temporary_buffer.hh>: [temporary_buffer<char>(size)]

    The bytes of a new buffer are not initialised. *)

Class TemporaryBuffer := {
  uninit : Z -> list Z;
  uninit_len : forall n, 0 <= n -> zlen (uninit n) = n
}.

(** ** <nil/actor/core/iostream.hh>: [input_stream<char>]

    [in_pending] is what the stream will give until it ends; [in_of_chunks] a
    stream over a data source that gives these buffers.  [read_exactly(n)] gives
    [n] bytes, or what there is before the end; [read_up_to(n)] gives some bytes,
    at most [n], and none at the end or if [n] is zero. *)

Class InputStream (I : Type) := {
  in_pending : I -> list Z;
  in_of_chunks : list (list Z) -> I;
  read_exactly : Z -> I -> list Z * I;
  read_up_to : Z -> I -> list Z * I;
  in_pending_chunks : forall l, in_pending (in_of_chunks l) = concat l;
  read_exactly_spec : forall n i, 0 <= n ->
    fst (read_exactly n i) = take (Z.to_nat n) (in_pending i) /\
    in_pending (snd (read_exactly n i)) = drop (Z.to_nat n) (in_pending i);
  read_up_to_spec : forall n i, 0 < n ->
    fst (read_up_to n i) ++ in_pending (snd (read_up_to n i)) = in_pending i /\
    zlen (fst (read_up_to n i)) <= n /\
    (fst (read_up_to n i) = [] -> in_pending i = []);
  read_up_to_0 : forall i, fst (read_up_to 0 i) = [] /\ in_pending (snd (read_up_to 0 i)) = in_pending i
}.

(** ** Consequences of the interfaces *)

Section BeFacts.
Context {BC : BeCodec}.

Lemma length_write_be n v : length (write_be n v) = n.
Proof. rewrite write_be_spec. apply length_be_bytes. Qed.

Lemma write_be_bytes n v : Forall is_byte (write_be n v).
Proof. rewrite write_be_spec. apply be_bytes_range. Qed.

(** [read_be] at a cursor that points at a stored value. *)
Lemma read_be_write_be n v rest :
  0 <= v < 2 ^ (8 * Z.of_nat n) -> read_be n (write_be n v ++ rest) = v.
Proof.
  intros Hv. rewrite read_be_spec by (rewrite length_app, length_write_be; lia).
  rewrite take_app_le by (rewrite length_write_be; lia).
  rewrite take_ge by (rewrite length_write_be; lia).
  rewrite write_be_spec, be_val_be_bytes. apply Z.mod_small. done.
Qed.

Lemma read_be_range n bs :
  (n <= length bs)%nat -> Forall is_byte bs -> 0 <= read_be n bs < 2 ^ (8 * Z.of_nat n).
Proof.
  intros Hn Hb. rewrite read_be_spec by done.
  pose proof (be_val_range (take n bs) ltac:(by apply Forall_take)) as H.
  unfold zlen in H. rewrite length_take, Nat.min_l in H by lia. done.
Qed.

(** Loading [n] bytes and storing them back gives the bytes. *)
Lemma write_be_read_be n bs :
  (n <= length bs)%nat -> Forall is_byte bs -> write_be n (read_be n bs) = take n bs.
Proof.
  intros Hn Hb. rewrite write_be_spec, read_be_spec by done.
  transitivity (be_bytes (length (take n bs)) (be_val (take n bs))).
  - f_equal. rewrite length_take. lia.
  - apply be_bytes_be_val, Forall_take, Hb.
Qed.

(** The stored bytes by name: with them a header codec evaluates field by field. *)
Lemma be1_bytes v : is_uint 8 v -> exists a, write_be 1 v = [a] /\ forall rest, read_be 1 (a :: rest) = v.
Proof.
  intros Hv. pose proof (length_write_be 1 v) as Hl.
  pose proof (fun rest => read_be_write_be 1 v rest Hv) as Hr.
  destruct (write_be 1 v) as [|a [|]]; try done. eauto.
Qed.

Lemma be2_bytes v :
  is_uint 16 v -> exists a b, write_be 2 v = [a; b] /\ forall rest, read_be 2 (a :: b :: rest) = v.
Proof.
  intros Hv. pose proof (length_write_be 2 v) as Hl.
  pose proof (fun rest => read_be_write_be 2 v rest Hv) as Hr.
  destruct (write_be 2 v) as [|a [|b [|]]]; try done. eauto.
Qed.

Lemma be4_bytes v :
  is_uint 32 v -> exists a b c d, write_be 4 v = [a; b; c; d] /\
    forall rest, read_be 4 (a :: b :: c :: d :: rest) = v.
Proof.
  intros Hv. pose proof (length_write_be 4 v) as Hl.
  pose proof (fun rest => read_be_write_be 4 v rest Hv) as Hr.
  destruct (write_be 4 v) as [|a [|b [|c [|d [|]]]]]; try done. eauto 10.
Qed.

Lemma be2_read a b rest :
  is_byte a -> is_byte b -> write_be 2 (read_be 2 (a :: b :: rest)) = [a; b].
Proof.
  intros Ha Hb. change (a :: b :: rest) with ([a; b] ++ rest).
  rewrite read_be_spec by (rewrite length_app; cbn; lia).
  rewrite write_be_spec. apply (be_bytes_be_val [a; b]). repeat (constructor; [done|]). constructor.
Qed.

Lemma be4_read a b c d rest :
  is_byte a -> is_byte b -> is_byte c -> is_byte d ->
  write_be 4 (read_be 4 (a :: b :: c :: d :: rest)) = [a; b; c; d].
Proof.
  intros Ha Hb Hc Hd. change (a :: b :: c :: d :: rest) with ([a; b; c; d] ++ rest).
  rewrite read_be_spec by (rewrite length_app; cbn; lia).
  rewrite write_be_spec. apply (be_bytes_be_val [a; b; c; d]). repeat (constructor; [done|]). constructor.
Qed.
End BeFacts.

Section TimerFacts.
Context {T : Type} {TM : TimerOps T}.

Lemma tm_armed_rearm z t : tm_armed (tm_rearm z t) = true.
Proof. rewrite tm_armed_expiry, tm_expiry_rearm. apply bool_decide_true. eauto. Qed.

Lemma tm_armed_cancel t : tm_armed (tm_cancel t) = false.
Proof.
  rewrite tm_armed_expiry, tm_expiry_cancel. apply bool_decide_false. intros [? [=]].
Qed.
End TimerFacts.

(** ** Concrete implementations, for evaluation *)

Module Impl.

#[refine] #[export] Instance be_codec : BeCodec := {
  read_be n bs := be_val (take n bs);
  write_be := be_bytes
}.
Proof. all: done. Defined.

#[refine] #[export] Instance align_up_z : AlignUp := {
  align_up v a := (v + a - 1) / a * a
}.
Proof.
  intros v a Hv Ha. split; [|apply Z.mod_mul; lia].
  pose proof (Z.div_mod (v + a - 1) a ltac:(lia)).
  pose proof (Z.mod_pos_bound (v + a - 1) a ltac:(lia)). nia.
Defined.

#[refine] #[export] Instance timer_option : TimerOps (option Z) := {
  tm_idle := None;
  tm_armed t := bool_decide (is_Some t);
  tm_rearm z _ := Some z;
  tm_cancel _ := None;
  tm_expiry t := t
}.
Proof. all: done. Defined.

#[refine] #[export] Instance sem_z : SemaphoreOps Z := {
  sem_make n := n;
  sem_units s := s;
  sem_try_wait s n := if n <=? s then Some (s - n) else None;
  sem_signal s n := s + n
}.
Proof.
  - done.
  - intros s n. destruct (Z.leb_spec n s); lia.
  - done.
Defined.

Definition queue_list (A : Type) : Type := Z * list A.

#[refine] #[export] Instance queue_list_ops (A : Type) : QueueOps (queue_list A) A := {
  q_make n := (n, []);
  q_items := snd;
  q_max_size := fst;
  q_push a q := if zlen (snd q) <? fst q then Some (fst q, snd q ++ [a]) else None;
  q_pop q := match snd q with [] => None | a :: l => Some (a, (fst q, l)) end;
  q_abort q := (fst q, [])
}.
Proof.
  - done.
  - done.
  - intros a [n l]. cbn. destruct (Z.ltb_spec (zlen l) n); [done|lia].
  - intros [n [|a l]]; done.
  - done.
Defined.

#[refine] #[export] Instance le_codec : LeCodec := {
  read_le n bs := be_val (rev (take n bs));
  write_le n v := rev (be_bytes n v)
}.
Proof. all: done. Defined.

#[refine] #[export] Instance zeroed_buffer : TemporaryBuffer := {
  uninit n := repeat 0 (Z.to_nat n)
}.
Proof. intros n Hn. unfold zlen. rewrite repeat_length. lia. Defined.

(** A stream is the buffers that its source still has; [read_up_to] gives from the
    first one that is not empty. *)
Fixpoint take_chunks (n : nat) (l : list (list Z)) : list Z * list (list Z) :=
  match l with
  | [] => ([], [])
  | c :: l =>
      if (n <? length c)%nat then (take n c, drop n c :: l)
      else let '(d, r) := take_chunks (n - length c) l in (c ++ d, r)
  end.

Fixpoint take_first (n : nat) (l : list (list Z)) : list Z * list (list Z) :=
  match l with
  | [] => ([], [])
  | [] :: l => take_first n l
  | c :: l => (take n c, drop n c :: l)
  end.

Lemma take_chunks_spec n l : fst (take_chunks n l) = take n (concat l) /\ concat (snd (take_chunks n l)) = drop n (concat l).
Proof.
  revert n. induction l as [|c l IH]; intros n; cbn [take_chunks]; [by rewrite take_nil, drop_nil || by destruct n|].
  destruct (Nat.ltb_spec n (length c)); cbn [concat fst snd].
  - rewrite take_app_le, drop_app_le by lia. done.
  - destruct (IH (n - length c)%nat) as [H1 H2]. destruct (take_chunks _ l) as [d r]. cbn [fst snd] in *.
    rewrite take_app_ge, drop_app_ge by lia. by rewrite H1, H2.
Qed.

Lemma take_first_spec n l : (0 < n)%nat ->
  fst (take_first n l) ++ concat (snd (take_first n l)) = concat l /\
  (length (fst (take_first n l)) <= n)%nat /\ (fst (take_first n l) = [] -> concat l = []).
Proof.
  intros Hn. induction l as [|[|x c] l IH]; cbn [take_first concat].
  - split_and!; [done|cbn; lia|done].
  - exact IH.
  - cbn [fst snd concat]. split_and!.
    + by rewrite app_assoc, take_drop.
    + rewrite length_take. lia.
    + destruct n; [lia|done].
Qed.

#[refine] #[export] Instance chunk_stream : InputStream (list (list Z)) := {
  in_pending := @concat Z;
  in_of_chunks l := l;
  read_exactly n := take_chunks (Z.to_nat n);
  read_up_to n := take_first (Z.to_nat n)
}.
Proof.
  - done.
  - intros n i _. apply take_chunks_spec.
  - intros n i Hn. destruct (take_first_spec (Z.to_nat n) i) as (H1 & H2 & H3); [lia|].
    split_and!; [done|unfold zlen; lia|done].
  - intros i. induction i as [|[|x c] i IH]; done.
Defined.

End Impl.
