(* ===== verification/ByteOrder.v ===== *)
(** * Byte order: include/nil/actor/network/byteorder.hh

    Host-order loads and stores of [packed<T>] fields on a host of either
    endianness, and the [ntoh]/[hton] overload family.  The header files of the
    protocols ([ip_hdr], [udp_hdr], [eth_hdr], ...) are read by a host-order
    load followed by [ntoh], and written by [hton] followed by a host-order
    store. *)

From S2P Require Import Prelude.
From stdpp Require Import base numbers list.

#[local] Open Scope Z_scope.

Inductive endian := LittleEndian | BigEndian.

(** Load and store of an [n]-byte scalar in the host's byte order. *)
Definition host_load (e : endian) (bs : list Z) : Z :=
  match e with BigEndian => be_val bs | LittleEndian => be_val (rev bs) end.

Definition host_store (e : endian) (n : nat) (v : Z) : list Z :=
  match e with BigEndian => be_bytes n v | LittleEndian => rev (be_bytes n v) end.

(** [__builtin_bswap64] and its narrower versions. *)
Definition bswap (n : nat) (v : Z) : Z := be_val (rev (be_bytes n v)).

(** [ntohq]: nothing to do on a big-endian host, byte swap on a little-endian one. *)
Definition ntohq (e : endian) (v : Z) : Z :=
  match e with
  | BigEndian => v
  | LittleEndian => bswap 8 v
  end.

Definition htonq (e : endian) (v : Z) : Z := ntohq e v.

(** [ntohs]/[htons]/[ntohl]/[htonl] of <arpa/inet.h>. *)
Definition ntohs (e : endian) (v : Z) : Z :=
  match e with BigEndian => v | LittleEndian => bswap 2 v end.
Definition ntohl (e : endian) (v : Z) : Z :=
  match e with BigEndian => v | LittleEndian => bswap 4 v end.
Definition htons := ntohs.
Definition htonl := ntohl.

(** The overloads of [net::ntoh] and [net::hton], selected by the width in
    bytes of the argument's type. *)
Definition ntoh (e : endian) (width : nat) (x : Z) : Z :=
  match width with
  | 1%nat => x
  | 2%nat => ntohs e x
  | 4%nat => ntohl e x
  | 8%nat => ntohq e x
  | _ => x
  end.

Definition hton (e : endian) (width : nat) (x : Z) : Z :=
  match width with
  | 1%nat => x
  | 2%nat => htons e x
  | 4%nat => htonl e x
  | 8%nat => htonq e x
  | _ => x
  end.

(** The widths for which an overload exists. *)
Definition scalar_width (n : nat) : Prop := n = 1%nat \/ n = 2%nat \/ n = 4%nat \/ n = 8%nat.

(** ** Lemmas *)

Lemma ntoh_bswap e n x :
  scalar_width n -> 0 <= x < 2 ^ (8 * Z.of_nat n) ->
  ntoh e n x = match e with BigEndian => x | LittleEndian => bswap n x end.
Proof.
  intros [->|[->|[->| ->]]] Hx; destruct e; try done.
  unfold ntoh, bswap. simpl be_bytes. simpl rev. cbn [app].
  unfold be_val. simpl. rewrite Z.div_1_r. rewrite Z.mod_small by exact Hx. done.
Qed.

Lemma hton_ntoh e n x : hton e n x = ntoh e n x.
Proof. done. Qed.

Lemma bswap_be_val n bs :
  length bs = n -> Forall is_byte bs -> bswap n (be_val bs) = be_val (rev bs).
Proof. intros <- H. unfold bswap. rewrite be_bytes_be_val; done. Qed.

(** Host-order load followed by [ntoh] reads the network-order value on every host. *)
Lemma ntoh_host_load e bs :
  scalar_width (length bs) -> Forall is_byte bs ->
  ntoh e (length bs) (host_load e bs) = be_val bs.
Proof.
  intros Hw Hb. pose proof (be_val_range bs Hb) as Hr.
  assert (Hb' : Forall is_byte (rev bs)) by (apply Forall_rev, Hb).
  pose proof (be_val_range (rev bs) Hb') as Hr'. unfold zlen in *.
  rewrite ?length_rev in *.
  destruct e; unfold host_load; rewrite ntoh_bswap by done; [|done].
  rewrite bswap_be_val by (done || apply length_rev). by rewrite rev_involutive.
Qed.

(** [hton] followed by a host-order store writes network order on every host. *)
Lemma host_store_hton e n v :
  scalar_width n -> 0 <= v < 2 ^ (8 * Z.of_nat n) ->
  host_store e n (hton e n v) = be_bytes n v.
Proof.
  intros Hw Hv. rewrite hton_ntoh, ntoh_bswap by done.
  destruct e; simpl; [|done]. unfold bswap.
  rewrite <- (length_be_bytes n v) at 1. rewrite <- length_rev.
  rewrite be_bytes_be_val by apply Forall_rev, be_bytes_range. apply rev_involutive.
Qed.

Lemma bswap_range n v : 0 <= bswap n v < 2 ^ (8 * Z.of_nat n).
Proof.
  unfold bswap. pose proof (be_val_range (rev (be_bytes n v))) as H.
  unfold zlen in H. rewrite length_rev, length_be_bytes in H.
  apply H, Forall_rev, be_bytes_range.
Qed.

Lemma bswap_bswap n v : 0 <= v < 2 ^ (8 * Z.of_nat n) -> bswap n (bswap n v) = v.
Proof.
  intros Hv. unfold bswap at 2.
  rewrite bswap_be_val by
    (rewrite ?length_rev, ?length_be_bytes; done || apply Forall_rev, be_bytes_range).
  rewrite rev_involutive, be_val_be_bytes. apply Z.mod_small. done.
Qed.

Lemma ntoh_hton e n v :
  scalar_width n -> 0 <= v < 2 ^ (8 * Z.of_nat n) -> ntoh e n (hton e n v) = v.
Proof.
  intros Hw Hv. change (hton e n v) with (ntoh e n v).
  rewrite (ntoh_bswap e n v Hw Hv). destruct e.
  - rewrite (ntoh_bswap _ _ _ Hw (bswap_range n v)). apply bswap_bswap, Hv.
  - apply (ntoh_bswap BigEndian n v Hw Hv).
Qed.
