(* ===== verification/Checksum.v ===== *)
(** * Internet checksum: src/network/ip_checksum.cc, include/nil/actor/network/ip_checksum.hh

    [checksummer] accumulates 64-bit and 16-bit network-order words in a
    128-bit integer and folds it at the end.  The reference is the ones'
    complement sum of the byte string seen as 16-bit big-endian words
    (RFC 1071): everything is stated modulo [65535]. *)

From S2P Require Import Prelude ByteOrder.
From stdpp Require Import base numbers list.

#[local] Open Scope Z_scope.

(** ** The code *)

Record checksummer := Checksummer { csum : Z; odd : bool }.

(** [checksummer cksum;] *)
Definition checksummer_init : checksummer := Checksummer 0 false.

(** [while (len >= 8) { csum += ntoh( *p64++ ); len -= 8; }] *)
Fixpoint sum_p64 (e : endian) (acc : Z) (data : list Z) : Z * list Z :=
  match data with
  | b0 :: b1 :: b2 :: b3 :: b4 :: b5 :: b6 :: b7 :: rest =>
      sum_p64 e (acc + ntoh e 8 (host_load e [b0; b1; b2; b3; b4; b5; b6; b7])) rest
  | _ => (acc, data)
  end.

(** [while (len >= 2) { csum += ntoh( *p16++ ); len -= 2; }] *)
Fixpoint sum_p16 (e : endian) (acc : Z) (data : list Z) : Z * list Z :=
  match data with
  | b0 :: b1 :: rest => sum_p16 e (acc + ntoh e 2 (host_load e [b0; b1])) rest
  | _ => (acc, data)
  end.

(** [checksummer::sum(const char *data, size_t len)] on a buffer of exactly
    [len] bytes.  When a byte is owed ([odd]) the code reads [*data] without
    looking at [len]; with [len = 0] the read is out of bounds and [--len]
    wraps, which is [None] here. *)
Definition sum (e : endian) (c : checksummer) (data : list Z) : option checksummer :=
  let orig_len := zlen data in
  match (if odd c then match data with
                       | [] => None
                       | b :: rest => Some (csum c + b, rest)
                       end
         else Some (csum c, data)) with
  | None => None
  | Some (acc, data1) =>
      let (acc, data2) := sum_p64 e acc data1 in
      let (acc, data3) := sum_p16 e acc data2 in
      let acc := match data3 with [] => acc | b :: _ => acc + Z.shiftl b 8 end in
      Some (Checksummer acc (xorb (odd c) (Z.odd orig_len)))
  end.

(** [checksummer::sum(const packet &p)] on the packet's fragments. *)
Fixpoint sum_packet (e : endian) (c : checksummer) (fragments : list (list Z)) : option checksummer :=
  match fragments with
  | [] => Some c
  | f :: rest =>
      match sum e c f with
      | Some c' => sum_packet e c' rest
      | None => None
      end
  end.

Definition sum_u8 (c : checksummer) (data : Z) : checksummer :=
  if negb (odd c) then Checksummer (csum c + Z.shiftl data 8) (negb (odd c))
  else Checksummer (csum c + data) (negb (odd c)).

Definition sum_u16 (c : checksummer) (data : Z) : checksummer :=
  if odd c then sum_u8 (sum_u8 c (u8 (Z.shiftr data 8))) (u8 data)
  else Checksummer (csum c + data) (odd c).

Definition sum_u32 (c : checksummer) (data : Z) : checksummer :=
  if odd c then sum_u16 (sum_u16 c (u16 data)) (u16 (Z.shiftr data 16))
  else Checksummer (csum c + data) (odd c).

(** The argument list of [sum_many], by the overload each argument selects. *)
Inductive sum_arg := U8 (v : Z) | U16 (v : Z) | U32 (v : Z).

Fixpoint sum_many (c : checksummer) (args : list sum_arg) : checksummer :=
  match args with
  | [] => c
  | U8 v :: rest => sum_many (sum_u8 c v) rest
  | U16 v :: rest => sum_many (sum_u16 c v) rest
  | U32 v :: rest => sum_many (sum_u32 c v) rest
  end.

(** The folding steps of [checksummer::get], up to the complement. *)
Definition get_fold (csum0 : Z) : Z :=
  let csum1 := Z.land csum0 18446744073709551615 + Z.shiftr csum0 64 in
  let s := u64 (Z.land csum1 18446744073709551615 + Z.shiftr csum1 64) in
  let s := Z.land s 65535 + Z.land (Z.shiftr s 16) 65535 +
           Z.land (Z.shiftr s 32) 65535 + Z.shiftr s 48 in
  let s := Z.land s 65535 + Z.shiftr s 16 in
  Z.land s 65535 + Z.shiftr s 16.

(** [return hton(~csum);] -- the local [csum] is a [uint64_t], so the overload
    is [hton(uint64_t)] and the result is converted to [uint16_t]. *)
Definition get (e : endian) (c : checksummer) : Z :=
  u16 (hton e 8 (u64 (Z.lnot (get_fold (csum c))))).

Definition ip_checksum (e : endian) (data : list Z) : option Z :=
  match sum e checksummer_init data with
  | Some c => Some (get e c)
  | None => None
  end.

(** ** The reference: ones' complement sum of 16-bit words *)

(** Weight-alternating sum of the bytes: a byte at an even position of the
    stream is the high byte of a word ([odd] tells where the stream stands). *)
Fixpoint oc_sum (o : bool) (bs : list Z) : Z :=
  match bs with
  | [] => 0
  | b :: rest => (if o then b else b * 256) + oc_sum (negb o) rest
  end.

(** The representative of a ones' complement sum: 0 only for the zero sum. *)
Definition oc_norm (s : Z) : Z := if s =? 0 then 0 else (s - 1) mod 65535 + 1.

Definition congr (a b : Z) : Prop := a mod 65535 = b mod 65535.

(** Two accumulators stand for the same ones' complement sum: congruent modulo
    [65535], and zero together. *)
Definition oc_eq (a b : Z) : Prop :=
  0 <= a /\ 0 <= b /\ congr a b /\ (a = 0 <-> b = 0).

(** ** Lemmas *)

#[export] Instance congr_equiv : Equivalence congr.
Proof. split; unfold congr; repeat intro; congruence. Qed.

#[export] Instance congr_add : Proper (congr ==> congr ==> congr) Z.add.
Proof.
  unfold congr. intros a b H c d H'. rewrite Z.add_mod, H, H', <- Z.add_mod by lia. done.
Qed.

#[export] Instance congr_mul : Proper (congr ==> congr ==> congr) Z.mul.
Proof.
  unfold congr. intros a b H c d H'. rewrite Z.mul_mod, H, H', <- Z.mul_mod by lia. done.
Qed.

Lemma oc_eq_refl a : 0 <= a -> oc_eq a a.
Proof. unfold oc_eq. intros. split_and!; done. Qed.

Lemma oc_eq_add a b c d : oc_eq a b -> oc_eq c d -> oc_eq (a + c) (b + d).
Proof.
  intros (?&?&Hab&?) (?&?&Hcd&?). unfold oc_eq. split_and!; try lia.
  by rewrite Hab, Hcd.
Qed.

Lemma oc_eq_trans a b c : oc_eq a b -> oc_eq b c -> oc_eq a c.
Proof. intros (?&?&Hab&?) (?&?&Hbc&?). split_and!; try tauto. etrans; eauto. Qed.

Lemma oc_eq_sym a b : oc_eq a b -> oc_eq b a.
Proof. intros (?&?&Hab&?). split_and!; try tauto. done. Qed.

Lemma oc_norm_eq a b : oc_eq a b -> oc_norm a = oc_norm b.
Proof.
  intros (?&?&Hab&?). unfold oc_norm. bcase; try lia.
  f_equal. assert (congr (a + -1) (b + -1)) as Hc by (by rewrite Hab). exact Hc.
Qed.

Lemma oc_norm_range s : 0 <= s -> 0 <= oc_norm s <= 65535.
Proof. intros. unfold oc_norm. bcase; zlia. Qed.

Lemma oc_norm_congr s : 0 <= s -> oc_eq (oc_norm s) s.
Proof.
  intros Hs. unfold oc_norm. destruct (Z.eqb_spec s 0) as [->|Hn].
  - by apply oc_eq_refl.
  - unfold oc_eq. pose proof (Z.mod_pos_bound (s - 1) 65535 ltac:(lia)). split_and!; try lia.
    unfold congr. rewrite Zplus_mod_idemp_l. f_equal. lia.
Qed.

Lemma oc_sum_app o xs ys :
  oc_sum o (xs ++ ys) = oc_sum o xs + oc_sum (xorb o (Z.odd (zlen xs))) ys.
Proof.
  revert o. induction xs as [|x xs IH]; intros o; cbn [oc_sum app].
  - by rewrite xorb_false_r.
  - rewrite IH, zlen_cons, Z.odd_add. change (Z.odd 1) with true.
    replace (xorb (negb o) (Z.odd (zlen xs))) with (xorb o (xorb true (Z.odd (zlen xs))))
      by (by destruct o, (Z.odd (zlen xs))). lia.
Qed.

Lemma oc_sum_nonneg o bs : Forall is_byte bs -> 0 <= oc_sum o bs.
Proof.
  intros H. revert o. induction H as [|b bs Hb _ IH]; intros o; simpl; [lia|].
  specialize (IH (negb o)). unfold is_uint in Hb. destruct o; lia.
Qed.

Lemma oc_sum_zero o bs : Forall is_byte bs -> oc_sum o bs = 0 <-> Forall (eq 0) bs.
Proof.
  intros H. revert o. induction H as [|b bs Hb Hbs IH]; intros o; simpl.
  - split; [constructor|done].
  - pose proof (oc_sum_nonneg (negb o) bs Hbs). unfold is_uint in Hb.
    specialize (IH (negb o)). rewrite Forall_cons, <- IH. destruct o; lia.
Qed.

Lemma pow256_congr n :
  congr (2 ^ (8 * Z.of_nat n)) (if Z.odd (Z.of_nat n) then 256 else 1).
Proof.
  induction n as [|n IH]; [done|].
  replace (8 * Z.of_nat (S n)) with (8 * Z.of_nat n + 8) by lia.
  rewrite Z.pow_add_r by lia. change (2 ^ 8) with 256. rewrite IH.
  rewrite Nat2Z.inj_succ, Z.odd_succ, <- Z.negb_odd. by destruct (Z.odd (Z.of_nat n)).
Qed.

(** The big-endian value of a word is the word's contribution. *)
Lemma be_val_oc_sum bs : congr (be_val bs) (oc_sum (Z.odd (zlen bs)) bs).
Proof.
  induction bs as [|b bs IH]; [done|].
  rewrite be_val_cons, IH, zlen_cons, Z.odd_add. cbn [oc_sum]. unfold zlen.
  rewrite (pow256_congr (length bs)).
  destruct (Z.odd (Z.of_nat (length bs))); simpl; rewrite ?Z.mul_1_r; done.
Qed.

Lemma be_val_zero bs : Forall is_byte bs -> be_val bs = 0 <-> Forall (eq 0) bs.
Proof.
  induction 1 as [|b bs Hb Hbs IH]; [split; [constructor|done]|].
  rewrite be_val_cons, Forall_cons, <- IH.
  pose proof (be_val_range bs Hbs) as Hr. unfold is_uint in Hb.
  assert (0 < 2 ^ (8 * zlen bs)) by (apply Z.pow_pos_nonneg; unfold zlen; lia). nia.
Qed.

Lemma word_oc_eq e bs :
  scalar_width (length bs) -> Z.odd (zlen bs) = false -> Forall is_byte bs ->
  oc_eq (ntoh e (length bs) (host_load e bs)) (oc_sum false bs).
Proof.
  intros Hw Ho Hb. rewrite ntoh_host_load by done.
  pose proof (be_val_range bs Hb). pose proof (oc_sum_nonneg false bs Hb).
  split_and!; try lia.
  - rewrite be_val_oc_sum, Ho. done.
  - rewrite be_val_zero, oc_sum_zero; done.
Qed.

(** What a loop over words did: it consumed an even-length prefix and added a
    value standing for the prefix's sum. *)
Definition consumed (data rest : list Z) (acc acc' : Z) : Prop :=
  exists pre v, data = pre ++ rest /\ Z.odd (zlen pre) = false /\ acc' = acc + v /\
    oc_eq v (oc_sum false pre) /\ v <= 2 ^ 61 * zlen pre.

Lemma consumed_nil data acc : consumed data data acc acc.
Proof.
  exists [], 0. split_and!; [done|done|lia|by apply oc_eq_refl|done].
Qed.

Lemma consumed_word e w data rest acc acc' :
  scalar_width (length w) -> Z.odd (zlen w) = false -> Forall is_byte w ->
  consumed data rest (acc + ntoh e (length w) (host_load e w)) acc' ->
  consumed (w ++ data) rest acc acc'.
Proof.
  intros Hw Ho Hb (pre & v & -> & Hp & -> & Hv & Hle).
  exists (w ++ pre), (ntoh e (length w) (host_load e w) + v).
  rewrite zlen_app, Z.odd_add, Ho, Hp, oc_sum_app, Ho, app_assoc. split_and!; try done; try lia.
  - apply oc_eq_add; [by apply word_oc_eq|done].
  - rewrite ntoh_host_load by done. pose proof (be_val_range w Hb) as Hr.
    enough (be_val w <= 2 ^ 61 * zlen w) by lia.
    unfold zlen in *. destruct Hw as [E|[E|[E|E]]]; rewrite E in *; simpl in Hr |- *; lia.
Qed.

Lemma sum_p64_spec e data acc :
  Forall is_byte data ->
  consumed data (snd (sum_p64 e acc data)) acc (fst (sum_p64 e acc data)) /\
  (length (snd (sum_p64 e acc data)) < 8)%nat.
Proof.
  remember (length data) as n eqn:En. revert data En acc.
  induction n as [n IH] using (well_founded_induction lt_wf). intros data -> acc Hb.
  destruct data as [|b0 [|b1 [|b2 [|b3 [|b4 [|b5 [|b6 [|b7 rest]]]]]]]];
    try (split; [apply consumed_nil|simpl; lia]).
  cbn [sum_p64].
  change (b0 :: b1 :: b2 :: b3 :: b4 :: b5 :: b6 :: b7 :: rest)
    with ([b0; b1; b2; b3; b4; b5; b6; b7] ++ rest) in *.
  apply Forall_app in Hb as [Hb Hr].
  edestruct (IH (length rest)) as [H1 H2]; [simpl; lia|done|exact Hr|].
  split; [|exact H2].
  apply (consumed_word e); [cbv; tauto|done|done|exact H1].
Qed.

Lemma sum_p16_spec e data acc :
  Forall is_byte data ->
  consumed data (snd (sum_p16 e acc data)) acc (fst (sum_p16 e acc data)) /\
  (length (snd (sum_p16 e acc data)) < 2)%nat.
Proof.
  remember (length data) as n eqn:En. revert data En acc.
  induction n as [n IH] using (well_founded_induction lt_wf). intros data -> acc Hb.
  destruct data as [|b0 [|b1 rest]]; try (split; [apply consumed_nil|simpl; lia]).
  cbn [sum_p16]. change (b0 :: b1 :: rest) with ([b0; b1] ++ rest) in *.
  apply Forall_app in Hb as [Hb Hr].
  edestruct (IH (length rest)) as [H1 H2]; [simpl; lia|done|exact Hr|].
  split; [|exact H2].
  apply (consumed_word e); [cbv; tauto|done|done|exact H1].
Qed.

(** The part of [sum] after the owed byte: words, then the left-over byte. *)
Lemma sum_words e data acc acc1 data1 acc2 data2 :
  Forall is_byte data ->
  sum_p64 e acc data = (acc1, data1) -> sum_p16 e acc1 data1 = (acc2, data2) ->
  exists v, match data2 with [] => acc2 | b :: _ => acc2 + Z.shiftl b 8 end = acc + v /\
    oc_eq v (oc_sum false data) /\ v <= 2 ^ 61 * zlen data.
Proof.
  intros Hb E1 E2.
  destruct (sum_p64_spec e data acc Hb) as [(pre & v & Ed & Hp & Ha & Hv & Hle) _].
  rewrite E1 in *. cbn [fst snd] in *. subst data acc1. apply Forall_app in Hb as [Hb Hb1].
  destruct (sum_p16_spec e data1 (acc + v) Hb1) as [(pre' & v' & Ed & Hp' & Ha' & Hv' & Hle') Hlen].
  rewrite E2 in *. cbn [fst snd] in *. subst data1 acc2. apply Forall_app in Hb1 as [Hb1 Hb2].
  rewrite !oc_sum_app, !zlen_app, Hp, Hp'. cbn [xorb].
  destruct data2 as [|b [|b' data2]]; [| |simpl in Hlen; lia].
  - exists (v + v'). split_and!; [lia| |rewrite zlen_nil; lia].
    rewrite Z.add_0_r. by apply oc_eq_add.
  - exists (v + (v' + b * 256)). apply Forall_cons in Hb2 as [Hb2 _]. unfold is_uint in Hb2.
    rewrite Z.shiftl_mul_pow2 by lia. change (2 ^ 8) with 256 in *.
    split_and!; [lia| |autorewrite with zlen; lia].
    cbn [oc_sum]. rewrite Z.add_0_r. repeat apply oc_eq_add; try done. apply oc_eq_refl. lia.
Qed.

(** [sum] succeeds exactly when it does not read past the buffer, and then adds
    the ones' complement sum of the buffer at the current parity. *)
Lemma sum_spec e c data :
  Forall is_byte data -> ~ (odd c = true /\ data = []) ->
  exists v, sum e c data = Some (Checksummer (csum c + v) (xorb (odd c) (Z.odd (zlen data)))) /\
    oc_eq v (oc_sum (odd c) data) /\ v <= 2 ^ 61 * zlen data.
Proof.
  intros Hb Hn. unfold sum. destruct (odd c) eqn:Ho.
  - destruct data as [|b rest]; [tauto|]. apply Forall_cons in Hb as [Hb Hr].
    destruct (sum_p64 _ _ rest) as [acc1 data1] eqn:E1.
    destruct (sum_p16 _ _ data1) as [acc2 data2] eqn:E2.
    destruct (sum_words _ _ _ _ _ _ _ Hr E1 E2) as (v & -> & Hv & Hle).
    exists (b + v). rewrite zlen_cons. cbn [oc_sum negb]. unfold is_uint in Hb.
    split_and!; [do 2 f_equal; lia| |change (2 ^ 8) with 256 in *; lia].
    apply oc_eq_add; [apply oc_eq_refl; lia|done].
  - destruct (sum_p64 _ _ data) as [acc1 data1] eqn:E1.
    destruct (sum_p16 _ _ data1) as [acc2 data2] eqn:E2.
    destruct (sum_words _ _ _ _ _ _ _ Hb E1 E2) as (v & -> & Hv & Hle). eauto.
Qed.

Lemma sum_empty_odd e c : odd c = true -> sum e c [] = None.
Proof. intros H. unfold sum. by rewrite H. Qed.

Lemma fold_step k s :
  0 < k -> 0 <= s -> (2 ^ k) mod 65535 = 1 ->
  oc_eq (Z.land s (Z.ones k) + Z.shiftr s k) s.
Proof.
  intros Hk Hs Hm. rewrite Z.land_ones, Z.shiftr_div_pow2 by lia.
  assert (0 < 2 ^ k) by (apply Z.pow_pos_nonneg; lia).
  pose proof (Z.div_mod s (2 ^ k) ltac:(lia)) as Hd.
  pose proof (Z.mod_pos_bound s (2 ^ k) ltac:(lia)).
  assert (0 <= s / 2 ^ k) by (apply Z.div_pos; lia).
  split_and!; try nia. unfold congr. rewrite Hd at 3.
  generalize (s / 2 ^ k) as q. generalize (s mod 2 ^ k) as r. intros r q.
  rewrite (Z.add_comm _ r), (Z.add_mod r (2 ^ k * q)), (Z.mul_mod (2 ^ k) q), Hm by lia.
  rewrite Z.mul_1_l, Zmod_mod, <- Z.add_mod by lia. done.
Qed.

Lemma fold_bound k s b :
  0 < k -> 0 <= s -> s < b * 2 ^ k ->
  0 <= Z.land s (Z.ones k) + Z.shiftr s k < 2 ^ k + b.
Proof.
  intros Hk Hs Hb. rewrite Z.land_ones, Z.shiftr_div_pow2 by lia.
  assert (0 < 2 ^ k) by (apply Z.pow_pos_nonneg; lia).
  pose proof (Z.mod_pos_bound s (2 ^ k) ltac:(lia)).
  assert (0 <= s / 2 ^ k) by (apply Z.div_pos; lia).
  assert (s / 2 ^ k < b) by (apply Z.div_lt_upper_bound; lia). lia.
Qed.

(** The sum of the four 16-bit digits is three folds, each one digit long. *)
Lemma digits_fold s :
  0 <= s < 2 ^ 64 ->
  let d := Z.land s 65535 + Z.land (Z.shiftr s 16) 65535 +
           Z.land (Z.shiftr s 32) 65535 + Z.shiftr s 48 in
  oc_eq d s /\ d < 4 * 2 ^ 16.
Proof.
  intros Hs d. subst d.
  change 65535 with (Z.ones 16). rewrite !Z.land_ones, !Z.shiftr_div_pow2 by lia.
  pose proof (Z.div_mod s (2 ^ 16) ltac:(lia)) as H1.
  pose proof (Z.div_mod (s / 2 ^ 16) (2 ^ 16) ltac:(lia)) as H2.
  pose proof (Z.div_mod (s / 2 ^ 32) (2 ^ 16) ltac:(lia)) as H3.
  rewrite Z.div_div in H2 by lia. change (2 ^ 16 * 2 ^ 16) with (2 ^ 32) in H2.
  rewrite Z.div_div in H3 by lia. change (2 ^ 32 * 2 ^ 16) with (2 ^ 48) in H3.
  pose proof (Z.mod_pos_bound s (2 ^ 16) ltac:(lia)).
  pose proof (Z.mod_pos_bound (s / 2 ^ 16) (2 ^ 16) ltac:(lia)).
  pose proof (Z.mod_pos_bound (s / 2 ^ 32) (2 ^ 16) ltac:(lia)).
  assert (0 <= s / 2 ^ 48 < 2 ^ 16) by
    (split; [apply Z.div_pos; lia|apply Z.div_lt_upper_bound; lia]).
  split; [|lia]. change (2 ^ 16) with 65536 in *. unfold oc_eq. split_and!; try lia.
  unfold congr. Z.div_mod_to_equations. lia.
Qed.

Lemma oc_norm_unique r s : 0 <= r <= 65535 -> oc_eq r s -> r = oc_norm s.
Proof.
  intros Hr Hrs. rewrite <- (oc_norm_eq _ _ Hrs). unfold oc_norm. bcase; [done|].
  rewrite Z.mod_small by lia. lia.
Qed.

(** The folding steps compute the ones' complement sum. *)
Lemma get_fold_spec s : 0 <= s < 2 ^ 127 -> get_fold s = oc_norm s.
Proof.
  intros Hs. unfold get_fold. change 18446744073709551615 with (Z.ones 64).
  pose proof (fold_step 64 s ltac:(lia) ltac:(lia) eq_refl) as E1.
  pose proof (fold_bound 64 s (2 ^ 63) ltac:(lia) ltac:(lia) ltac:(lia)) as B1.
  set (s1 := Z.land s (Z.ones 64) + Z.shiftr s 64) in *.
  pose proof (fold_step 64 s1 ltac:(lia) ltac:(lia) eq_refl) as E2.
  assert (0 <= Z.land s1 (Z.ones 64) + Z.shiftr s1 64 < 2 ^ 64) as B2.
  { rewrite Z.land_ones, Z.shiftr_div_pow2 by lia. zlia. }
  set (s2 := Z.land s1 (Z.ones 64) + Z.shiftr s1 64) in *.
  rewrite (wrap_small 64 s2 B2). destruct (digits_fold s2 B2) as [E3 B3].
  cbn zeta in E3, B3.
  set (s3 := Z.land s2 65535 + Z.land (Z.shiftr s2 16) 65535 +
             Z.land (Z.shiftr s2 32) 65535 + Z.shiftr s2 48) in *.
  assert (0 <= s3) by apply E3. change 65535 with (Z.ones 16) in *.
  pose proof (fold_step 16 s3 ltac:(lia) ltac:(lia) eq_refl) as E4.
  pose proof (fold_bound 16 s3 4 ltac:(lia) ltac:(lia) ltac:(lia)) as B4.
  set (s4 := Z.land s3 (Z.ones 16) + Z.shiftr s3 16) in *.
  pose proof (fold_step 16 s4 ltac:(lia) ltac:(lia) eq_refl) as E5.
  apply oc_norm_unique.
  - rewrite Z.land_ones, Z.shiftr_div_pow2 by lia. zlia.
  - eapply oc_eq_trans; [exact E5|]. eapply oc_eq_trans; [exact E4|].
    eapply oc_eq_trans; [exact E3|]. eapply oc_eq_trans; [exact E2|exact E1].
Qed.

Lemma get_value e c :
  0 <= csum c < 2 ^ 127 ->
  get e c = match e with BigEndian => 65535 - oc_norm (csum c) | LittleEndian => 65535 end.
Proof.
  intros Hc. unfold get. rewrite get_fold_spec by done.
  pose proof (oc_norm_range (csum c) ltac:(lia)) as Hr. set (n := oc_norm (csum c)) in *.
  assert (Hn : u64 (Z.lnot n) = 2 ^ 64 - 1 - n).
  { unfold wrap, Z.lnot. symmetry. apply Z.mod_unique with (q := -1); lia. }
  rewrite Hn. destruct e; cbn [hton htonq ntohq].
  - unfold bswap. set (w := 2 ^ 64 - 1 - n).
    assert (E : be_bytes 8 w = repeat 255 6 ++ be_bytes 2 w).
    { subst w. simpl be_bytes. simpl repeat. cbn [app]. repeat f_equal; simpl; zlia. }
    rewrite E. rewrite rev_app_distr, be_val_app. unfold wrap.
    change (rev (repeat 255 6)) with (repeat 255 4 ++ [255; 255]).
    rewrite be_val_app. change (be_val [255; 255]) with 65535.
    unfold zlen at 1. rewrite length_app. cbn [length repeat]. unfold zlen. cbn [length].
    change (2 ^ (8 * Z.of_nat (4 + 2))) with (2 ^ 32 * 2 ^ 16).
    change (2 ^ (8 * Z.of_nat 2)) with (2 ^ 16). rewrite Z.mul_assoc, Z.add_assoc.
    rewrite <- Z.mul_add_distr_r, Z.add_comm, Z_mod_plus_full. done.
  - unfold wrap. change (2 ^ 16) with 65536.
    symmetry. apply Z.mod_unique with (q := 2 ^ 48 - 1); lia.
Qed.

Lemma sum_packet_spec e frags c :
  Forall (Forall is_byte) frags -> Forall (fun f => f <> []) frags ->
  exists v, sum_packet e c frags =
      Some (Checksummer (csum c + v) (xorb (odd c) (Z.odd (zlen (concat frags))))) /\
    oc_eq v (oc_sum (odd c) (concat frags)) /\ v <= 2 ^ 61 * zlen (concat frags).
Proof.
  revert c. induction frags as [|f frags IH]; intros c Hb Hn; cbn [sum_packet concat].
  - exists 0. rewrite Z.add_0_r, zlen_nil, xorb_false_r. destruct c. split_and!; [done| |lia].
    by apply oc_eq_refl.
  - apply Forall_cons in Hb as [Hb Hbs]. apply Forall_cons in Hn as [Hn Hns].
    destruct (sum_spec e c f Hb ltac:(tauto)) as (v & -> & Hv & Hle).
    edestruct IH as (v' & -> & Hv' & Hle'); [done|done|]. cbn [csum odd] in *.
    exists (v + v'). rewrite zlen_app, Z.odd_add, oc_sum_app, <- xorb_assoc.
    split_and!; [do 2 f_equal; lia|by apply oc_eq_add|lia].
Qed.

Lemma concat_bytes (frags : list (list Z)) :
  Forall (Forall is_byte) frags -> Forall is_byte (concat frags).
Proof. induction 1; simpl; [constructor|]. by apply Forall_app. Qed.

Lemma ip_checksum_value data :
  Forall is_byte data -> zlen data < 2 ^ 60 ->
  ip_checksum BigEndian data = Some (65535 - oc_norm (oc_sum false data)).
Proof.
  intros Hb Hl. unfold ip_checksum.
  destruct (sum_spec BigEndian checksummer_init data Hb ltac:(by intros [[=] _]))
    as (v & -> & Hv & Hle).
  pose proof (zlen_nonneg data). assert (0 <= v) by apply Hv.
  rewrite get_value by (simpl; nia). do 2 f_equal. by apply oc_norm_eq.
Qed.

(** ** Properties *)

(** C39. [ip_checksum] of a buffer on a big-endian host is the Internet checksum
    of RFC 1071: the complement of the ones' complement sum of the buffer's
    16-bit words, the last one padded with a zero byte. *)
Theorem ip_checksum_rfc1071 data :
  Forall is_byte data -> zlen data < 2 ^ 60 ->
  ip_checksum BigEndian data = Some (65535 - oc_norm (oc_sum false data)).
Proof. apply ip_checksum_value. Qed.

Lemma ip_checksum_rfc1071_witness :
  Forall is_byte [69; 0; 0; 20; 1] /\ ip_checksum BigEndian [69; 0; 0; 20; 1] = Some 47595.
Proof.
  assert (Hb : Forall is_byte [69; 0; 0; 20; 1]) by (repeat constructor; done).
  split; [exact Hb|]. rewrite (ip_checksum_rfc1071 _ Hb); [vm_compute; done|done].
Defined.

(** How a packet is split into (non-empty) fragments does not change its
    checksum: summing the fragments gives the same value as summing the bytes. *)
Theorem sum_packet_fragmentation e c frags :
  Forall (Forall is_byte) frags -> Forall (fun f => f <> []) frags ->
  0 <= csum c < 2 ^ 120 -> zlen (concat frags) < 2 ^ 60 -> frags <> [] ->
  exists c1 c2, sum_packet e c frags = Some c1 /\ sum e c (concat frags) = Some c2 /\
    odd c1 = odd c2 /\ oc_norm (csum c1) = oc_norm (csum c2) /\ get e c1 = get e c2.
Proof.
  intros Hb Hn Hc Hl Hne.
  assert (concat frags <> []) as Hcat.
  { destruct frags as [|[|b f] frags]; simpl; try done. by apply Forall_cons in Hn as [? _]. }
  destruct (sum_packet_spec e frags c Hb Hn) as (v & -> & Hv & Hle).
  destruct (sum_spec e c (concat frags) (concat_bytes _ Hb) ltac:(tauto)) as (w & -> & Hw & Hle').
  pose proof (zlen_nonneg (concat frags)). assert (0 <= v /\ 0 <= w) as [] by (split; [apply Hv|apply Hw]).
  assert (oc_norm (csum c + v) = oc_norm (csum c + w)) as En.
  { apply oc_norm_eq, oc_eq_add; [apply oc_eq_refl; lia|].
    eapply oc_eq_trans; [exact Hv|]. by apply oc_eq_sym. }
  do 2 eexists. split_and!; [done|done|done|exact En|].
  rewrite !get_value by (simpl; nia). cbn [csum]. by rewrite En.
Qed.

Lemma sum_packet_fragmentation_witness :
  exists c1 c2, sum_packet LittleEndian checksummer_init [[1; 2; 3]; [4]; [5; 6]] = Some c1 /\
    sum LittleEndian checksummer_init [1; 2; 3; 4; 5; 6] = Some c2 /\
    odd c1 = odd c2 /\ oc_norm (csum c1) = oc_norm (csum c2) /\
    get LittleEndian c1 = get LittleEndian c2.
Proof.
  apply (sum_packet_fragmentation LittleEndian checksummer_init [[1; 2; 3]; [4]; [5; 6]]);
    try done; repeat constructor; done.
Defined.

(** The complement of the sum, stored into the two zero bytes at an even
    offset, makes the sum verify, whatever [s0] was summed before. *)
Lemma stored_complement s0 pre post :
  0 <= s0 -> Forall is_byte pre -> Forall is_byte post -> Z.odd (zlen pre) = false ->
  oc_norm (s0 + oc_sum false (pre ++
    host_store BigEndian 2 (65535 - oc_norm (s0 + oc_sum false (pre ++ [0; 0] ++ post))) ++ post)) = 65535.
Proof.
  intros H0 Hpre Hpost Ho. assert (Hz : Forall is_byte [0; 0]) by (repeat constructor; done).
  set (s := s0 + oc_sum false (pre ++ [0; 0] ++ post)).
  pose proof (oc_sum_nonneg false (pre ++ [0; 0] ++ post) ltac:(by repeat apply Forall_app_2)) as Hs'.
  assert (0 <= s) as Hs by lia. clear Hs'. pose proof (oc_norm_range s Hs) as Hr.
  pose proof (oc_norm_congr s Hs) as (_ & _ & Hc & Hzero). set (n := oc_norm s) in *.
  assert (s0 + oc_sum false (pre ++ host_store BigEndian 2 (65535 - n) ++ post) = s + (65535 - n)) as ->.
  { subst s. rewrite !oc_sum_app, Ho. cbn [host_store be_bytes oc_sum]. simpl.
    unfold zlen. simpl. zlia. }
  unfold oc_norm. destruct (Z.eqb_spec (s + (65535 - n)) 0) as [|_]; [lia|].
  unfold congr in Hc. clear - Hc Hr Hs. zlia.
Qed.

(** The same with the checksum object: what was summed before is the pseudo header. *)
Lemma seeded_checksum_verifies c pre post :
  odd c = false -> 0 <= csum c < 2 ^ 120 ->
  Forall is_byte pre -> Forall is_byte post -> Z.odd (zlen pre) = false ->
  zlen (pre ++ [0; 0] ++ post) < 2 ^ 60 ->
  exists c1 c2, sum BigEndian c (pre ++ [0; 0] ++ post) = Some c1 /\ is_uint 16 (get BigEndian c1) /\
    sum BigEndian c (pre ++ host_store BigEndian 2 (get BigEndian c1) ++ post) = Some c2 /\ get BigEndian c2 = 0.
Proof.
  intros Hodd Hc Hpre Hpost Ho Hl. assert (Hz : Forall is_byte [0; 0]) by (repeat constructor; done).
  pose proof (zlen_nonneg (pre ++ [0; 0] ++ post)) as Hn.
  destruct (sum_spec BigEndian c (pre ++ [0; 0] ++ post)) as (v & E1 & Hv & Hle);
    [by repeat apply Forall_app_2|by rewrite Hodd; intros [[=] _]|].
  assert (0 <= v) as Hv0 by apply Hv. rewrite E1. eexists _. cbn.
  assert (get BigEndian (Checksummer (csum c + v) (xorb (odd c) (Z.odd (zlen (pre ++ [0; 0] ++ post))))) =
    65535 - oc_norm (csum c + oc_sum false (pre ++ [0; 0] ++ post))) as Eg.
  { rewrite get_value by (simpl; nia). cbn. f_equal. apply oc_norm_eq. rewrite Hodd in Hv.
    apply oc_eq_add; [apply oc_eq_refl; lia|exact Hv]. }
  cbn in Eg. rewrite Eg. set (k := 65535 - _).
  pose proof (oc_sum_nonneg false (pre ++ [0; 0] ++ post) ltac:(by repeat apply Forall_app_2)) as Hs.
  pose proof (oc_norm_range (csum c + oc_sum false (pre ++ [0; 0] ++ post)) ltac:(lia)) as Hr.
  assert (is_uint 16 k) as Hk by (unfold is_uint; cbn in *; lia).
  assert (Forall is_byte (pre ++ be_bytes 2 k ++ post)) as Hb by (repeat apply Forall_app_2; try done; apply be_bytes_range).
  destruct (sum_spec BigEndian c (pre ++ be_bytes 2 k ++ post)) as (w & E2 & Hw & Hlw);
    [done|by rewrite Hodd; intros [[=] _]|].
  assert (0 <= w) as Hw0 by apply Hw.
  assert (zlen (pre ++ be_bytes 2 k ++ post) = zlen (pre ++ [0; 0] ++ post)) as El by by rewrite !zlen_app.
  eexists. split; [done|]. split; [done|]. split; [exact E2|].
  rewrite get_value by (simpl; nia). cbn [csum].
  rewrite (oc_norm_eq _ (csum c + oc_sum false (pre ++ be_bytes 2 k ++ post))).
  2: { rewrite Hodd in Hw. apply oc_eq_add; [apply oc_eq_refl; lia|exact Hw]. }
  assert (oc_norm (csum c + oc_sum false (pre ++ be_bytes 2 k ++ post)) = 65535) as ->; [|done].
  apply (stored_complement (csum c) pre post); [lia|done|done|done].
Qed.

Lemma stored_checksum_verifies pre post cks :
  Forall is_byte pre -> Forall is_byte post -> Z.odd (zlen pre) = false ->
  zlen (pre ++ [0; 0] ++ post) < 2 ^ 60 ->
  ip_checksum BigEndian (pre ++ [0; 0] ++ post) = Some cks ->
  ip_checksum BigEndian (pre ++ host_store BigEndian 2 cks ++ post) = Some 0.
Proof.
  intros Hpre Hpost Ho Hl Hcks.
  assert (Hz : Forall is_byte [0; 0]) by (repeat constructor; done).
  rewrite ip_checksum_value in Hcks; [|by repeat apply Forall_app_2|done].
  injection Hcks as <-.
  rewrite ip_checksum_value;
    [|repeat apply Forall_app_2; try done; apply be_bytes_range
     |rewrite !zlen_app in *; exact Hl].
  f_equal. match goal with |- _ - ?x = 0 => assert (x = 65535) as ->; [|done] end.
  apply (stored_complement 0 pre post); [lia|done|done|done].
Qed.

(** Storing the checksum of a packet whose checksum field is zero into that
    field makes the packet verify: its checksum is then zero (big-endian host). *)
Theorem ip_checksum_verifies pre post cks :
  Forall is_byte pre -> Forall is_byte post -> Z.odd (zlen pre) = false ->
  zlen (pre ++ [0; 0] ++ post) < 2 ^ 60 ->
  ip_checksum BigEndian (pre ++ [0; 0] ++ post) = Some cks ->
  ip_checksum BigEndian (pre ++ host_store BigEndian 2 cks ++ post) = Some 0.
Proof. apply stored_checksum_verifies. Qed.

Lemma ip_checksum_verifies_witness :
  ip_checksum BigEndian [69; 0; 0; 20; 0; 0; 7] = Some 46059 /\
  ip_checksum BigEndian ([69; 0; 0; 20] ++ host_store BigEndian 2 46059 ++ [7]) = Some 0.
Proof.
  assert (E : ip_checksum BigEndian ([69; 0; 0; 20] ++ [0; 0] ++ [7]) = Some 46059)
    by (vm_compute; done).
  split; [exact E|].
  refine (ip_checksum_verifies [69; 0; 0; 20] [7] 46059 _ _ _ _ E).
  - repeat constructor; done.
  - repeat constructor; done.
  - done.
  - done.
Defined.

(** On a little-endian host [checksummer::get] returns 0xffff for every
    sum: the 64-bit byte swap moves the folded value out of the 16 bits that
    the conversion to [uint16_t] keeps. *)
Theorem get_little_endian_constant c :
  0 <= csum c < 2 ^ 127 -> get LittleEndian c = 65535.
Proof. apply (get_value LittleEndian c). Qed.

Lemma get_little_endian_constant_witness :
  get LittleEndian (Checksummer 17684 false) = 65535 /\
  get BigEndian (Checksummer 17684 false) = 47851.
Proof.
  split; [|vm_compute; done]. apply get_little_endian_constant. split; done.
Defined.
