(* ===== verification/Toeplitz.v ===== *)
(** * RSS hashing: include/nil/actor/network/toeplitz.hh and [forward_hash] of net.hh

    The Toeplitz hash of a byte string, the 64-byte buffer that packets are
    hashed from, and the reference: the exclusive or, over the set bits of the
    data, of the 32-bit windows of the key that start at those bits. *)

From S2P Require Import Prelude ByteOrder.
From stdpp Require Import base numbers list.

#[local] Open Scope Z_scope.

(** ** toeplitz.hh *)

Definition default_rsskey_40bytes : list Z :=
  [ 0xd1; 0x81; 0xc6; 0x2c; 0xf7; 0xf4; 0xdb; 0x5b; 0x19; 0x83; 0xa2; 0xfc; 0x94; 0x3e;
    0x1a; 0xdb; 0xd9; 0x38; 0x9e; 0x6b; 0xd1; 0x03; 0x9c; 0x2c; 0xa7; 0x44; 0x99; 0xad;
    0x59; 0x3d; 0x56; 0xd9; 0xf3; 0x25; 0x3c; 0x06; 0x2a; 0xdc; 0x1f; 0xfc ].

Definition default_rsskey_52bytes : list Z :=
  [ 0x44; 0x39; 0x79; 0x6b; 0xb5; 0x4c; 0x50; 0x23; 0xb6; 0x75; 0xea; 0x5b; 0x12; 0x4f; 0x9f; 0x30; 0xb8; 0xa2;
    0xc0; 0x3d; 0xdf; 0xdc; 0x4d; 0x02; 0xa0; 0x8c; 0x9b; 0x33; 0x4a; 0xf6; 0x4a; 0x4c; 0x05; 0xc6; 0xfa; 0x34;
    0x39; 0x58; 0xd8; 0x55; 0x7d; 0x99; 0x58; 0x3a; 0xe1; 0x38; 0xc9; 0x2e; 0x81; 0x15; 0x03; 0x66 ].

(** [key[i]] (in range at every use). *)
Definition key_at (key : list Z) (i : nat) : Z := nth i key 0.

(** One iteration of the inner loop, for bit [b] of byte [i]. *)
Definition toeplitz_bit (key : list Z) (i : nat) (byte : Z) (b : nat) (st : Z * Z) : Z * Z :=
  let '(hash, v) := st in
  let mask := Z.shiftl 1 (7 - Z.of_nat b) in
  let hash := if negb (Z.land byte mask =? 0) then Z.lxor hash v else hash in
  let v := u32 (Z.shiftl v 1) in
  let v := if ((i + 4 <? length key)%nat && negb (Z.land (key_at key (i + 4)) mask =? 0))%bool
           then Z.lor v 1 else v in
  (hash, v).

(** [for (b = 0; b < 8; b++)] *)
Definition toeplitz_byte (key : list Z) (i : nat) (byte : Z) (st : Z * Z) : Z * Z :=
  fold_left (fun st b => toeplitz_bit key i byte b st) (seq 0 8) st.

(** [for (i = 0; i < data.size(); i++)] *)
Fixpoint toeplitz_loop (key : list Z) (i : nat) (data : list Z) (st : Z * Z) : Z * Z :=
  match data with
  | [] => st
  | byte :: rest => toeplitz_loop key (S i) rest (toeplitz_byte key i byte st)
  end.

Definition toeplitz_hash (key data : list Z) : Z :=
  let v := u32 (Z.shiftl (key_at key 0) 24 + Z.shiftl (key_at key 1) 16 +
                Z.shiftl (key_at key 2) 8 + key_at key 3) in
  fst (toeplitz_loop key 0 data (0, v)).

(** ** [forward_hash] (net.hh): a buffer of at most 64 bytes

    [push_back] past the end fails its assertion, which is [None]. *)

Definition forward_hash := list Z.

Definition push_back_u8 (h : forward_hash) (b : Z) : option forward_hash :=
  if zlen h <? 64 then Some (h ++ [u8 b]) else None.

Definition push_back_u16 (h : forward_hash) (b : Z) : option forward_hash :=
  match push_back_u8 h (u8 b) with
  | Some h => push_back_u8 h (u8 (Z.shiftr b 8))
  | None => None
  end.

Definition push_back_u32 (h : forward_hash) (b : Z) : option forward_hash :=
  match push_back_u16 h (u16 b) with
  | Some h => push_back_u16 h (u16 (Z.shiftr b 16))
  | None => None
  end.

(** ** Reference: windows of the key's bit stream *)

(** Bit [j] of a byte string, most significant bit of the first byte first;
    past the end the stream is zero. *)
Definition stream_bit (bs : list Z) (j : nat) : bool :=
  Z.testbit (nth (j / 8) bs 0) (7 - Z.of_nat (j mod 8)).

(** The [n]-bit window of the key starting at bit [k]. *)
Fixpoint window (key : list Z) (n k : nat) : Z :=
  match n with
  | O => 0
  | S n' => 2 * window key n' k + Z.b2z (stream_bit key (k + n'))
  end.

(** The exclusive or of the windows [w] at the set bits of [bits], which start
    at stream position [k]. *)
Fixpoint xor_windows (w : nat -> Z) (k : nat) (bits : list bool) : Z :=
  match bits with
  | [] => 0
  | b :: rest => Z.lxor (if b then w k else 0) (xor_windows w (S k) rest)
  end.

Definition byte_bits (b : Z) : list bool :=
  map (fun i => Z.testbit b (7 - Z.of_nat i)) (seq 0 8).

Definition stream_bits (data : list Z) : list bool := concat (map byte_bits data).

(** ** Lemmas *)

Lemma window_last key n k :
  window key (S n) k = 2 * window key n k + Z.b2z (stream_bit key (k + n)).
Proof. done. Qed.

Lemma window_front key n k :
  window key (S n) k = Z.b2z (stream_bit key k) * 2 ^ Z.of_nat n + window key n (S k).
Proof.
  induction n as [|n IH].
  - cbn [window]. rewrite Nat.add_0_r. simpl. lia.
  - rewrite window_last, IH. cbn [window]. rewrite Nat2Z.inj_succ, Z.pow_succ_r by lia.
    replace (k + S n)%nat with (S k + n)%nat by lia. lia.
Qed.

Lemma window_range key n k : 0 <= window key n k < 2 ^ Z.of_nat n.
Proof.
  induction n as [|n IH]; [simpl; lia|]. cbn [window].
  rewrite Nat2Z.inj_succ, Z.pow_succ_r by lia. destruct (stream_bit key (k + n)); simpl; lia.
Qed.

Lemma lor_double_1 a : 0 <= a -> Z.lor (2 * a) 1 = 2 * a + 1.
Proof. intros Ha. destruct a as [|p|p]; [done|done|lia]. Qed.

(** Shifting the window left by one and appending the next key bit. *)
Lemma window_shift key k :
  window key 32 (S k) =
  (let v := u32 (Z.shiftl (window key 32 k) 1) in
   if stream_bit key (k + 32) then Z.lor v 1 else v).
Proof.
  cbv zeta. pose proof (window_range key 31 (S k)) as Hr.
  assert (E : u32 (Z.shiftl (window key 32 k) 1) = 2 * window key 31 (S k)).
  { rewrite (window_front key 31 k), Z.shiftl_mul_pow2 by lia. unfold wrap.
    change (2 ^ Z.of_nat 31) with 2147483648 in *. change (2 ^ 32) with 4294967296.
    change (2 ^ 1) with 2. generalize dependent (window key 31 (S k)). intros w Hr.
    symmetry. apply Z.mod_unique with (q := Z.b2z (stream_bit key k)); lia. }
  rewrite E, (window_last key 31 (S k)).
  replace (S k + 31)%nat with (k + 32)%nat by lia.
  destruct (stream_bit key (k + 32)); simpl Z.b2z; [|lia].
  by rewrite lor_double_1 by lia.
Qed.

(** The mask test of the loops is a bit test. *)
Lemma mask_test byte b :
  (b < 8)%nat ->
  negb (Z.land byte (Z.shiftl 1 (7 - Z.of_nat b)) =? 0) = Z.testbit byte (7 - Z.of_nat b).
Proof.
  intros Hb. set (n := 7 - Z.of_nat b). assert (0 <= n) by lia.
  rewrite Z.shiftl_1_l. destruct (Z.testbit byte n) eqn:E.
  - apply negb_true_iff, Z.eqb_neq. intros H0.
    assert (Z.testbit (Z.land byte (2 ^ n)) n = true) as Ht
      by (rewrite Z.land_spec, E, Z.pow2_bits_true; done).
    rewrite H0, Z.bits_0 in Ht. done.
  - apply negb_false_iff, Z.eqb_eq. apply Z.bits_inj_0. intros m.
    rewrite Z.land_spec. destruct (Z.eq_dec m n) as [->|Hne]; [by rewrite E|].
    by rewrite Z.pow2_bits_false, andb_false_r by congruence.
Qed.

Lemma stream_bit_byte bs i b :
  (b < 8)%nat -> stream_bit bs (8 * i + b) = Z.testbit (nth i bs 0) (7 - Z.of_nat b).
Proof.
  intros Hb. unfold stream_bit. rewrite Nat.mul_comm.
  rewrite Nat.div_add_l by lia. rewrite (Nat.div_small b 8), Nat.add_0_r by done.
  rewrite Nat.add_comm, Nat.Div0.mod_add, Nat.mod_small by done. done.
Qed.

(** The loops, over any sequence of windows that shifts as the code shifts [v]. *)
Section Loops.
Variable key : list Z.
Variable w : nat -> Z.
Hypothesis w_shift : forall k,
  w (S k) = (let v := u32 (Z.shiftl (w k) 1) in
             if stream_bit key (k + 32) then Z.lor v 1 else v).

(** One bit of the loop, on a state whose [v] is the current window. *)
Lemma toeplitz_bit_spec i byte b h :
  (b < 8)%nat ->
  toeplitz_bit key i byte b (h, w (8 * i + b)%nat) =
  (Z.lxor h (if Z.testbit byte (7 - Z.of_nat b) then w (8 * i + b)%nat else 0),
   w (8 * i + S b)%nat).
Proof.
  intros Hb. unfold toeplitz_bit. rewrite !mask_test by done. f_equal.
  - destruct (Z.testbit _ _); [done|]. by rewrite Z.lxor_0_r.
  - replace (8 * i + S b)%nat with (S (8 * i + b)) by lia. rewrite w_shift. cbv zeta.
    replace (8 * i + b + 32)%nat with (8 * (i + 4) + b)%nat by lia.
    rewrite stream_bit_byte by done. unfold key_at.
    destruct (Nat.ltb_spec (i + 4) (length key)); cbn [andb]; [done|].
    rewrite (nth_overflow key) by lia. by rewrite Z.bits_0.
Qed.

Lemma toeplitz_bits_spec i byte n b h :
  (b + n <= 8)%nat ->
  fold_left (fun st b => toeplitz_bit key i byte b st) (seq b n) (h, w (8 * i + b)%nat) =
  (Z.lxor h (xor_windows w (8 * i + b)
     (map (fun j => Z.testbit byte (7 - Z.of_nat j)) (seq b n))), w (8 * i + b + n)%nat).
Proof.
  revert b h. induction n as [|n IH]; intros b h Hb; cbn [seq fold_left map xor_windows].
  - by rewrite Z.lxor_0_r, Nat.add_0_r.
  - rewrite toeplitz_bit_spec, IH by lia. rewrite Z.lxor_assoc.
    replace (8 * i + S b)%nat with (S (8 * i + b)) by lia.
    f_equal. f_equal. lia.
Qed.

Lemma toeplitz_byte_spec i byte h :
  toeplitz_byte key i byte (h, w (8 * i)%nat) =
  (Z.lxor h (xor_windows w (8 * i) (byte_bits byte)), w (8 * S i)%nat).
Proof.
  unfold toeplitz_byte, byte_bits. pose proof (toeplitz_bits_spec i byte 8 0 h) as E.
  rewrite Nat.add_0_r in E. replace (8 * S i)%nat with (8 * i + 8)%nat by lia.
  apply E. lia.
Qed.

Lemma xor_windows_app k xs ys :
  xor_windows w k (xs ++ ys) = Z.lxor (xor_windows w k xs) (xor_windows w (k + length xs) ys).
Proof.
  revert k. induction xs as [|x xs IH]; intros k; cbn [xor_windows app length].
  - by rewrite Z.lxor_0_l, Nat.add_0_r.
  - rewrite IH, Z.lxor_assoc. do 3 f_equal. lia.
Qed.

Lemma toeplitz_loop_spec data i h :
  fst (toeplitz_loop key i data (h, w (8 * i)%nat)) =
  Z.lxor h (xor_windows w (8 * i) (stream_bits data)).
Proof.
  revert i h. induction data as [|byte data IH]; intros i h; cbn [toeplitz_loop].
  - by rewrite Z.lxor_0_r.
  - rewrite toeplitz_byte_spec, IH. unfold stream_bits. cbn [map concat].
    rewrite xor_windows_app, Z.lxor_assoc. do 3 f_equal. simpl length. lia.
Qed.
End Loops.

Lemma window_app key m n k :
  window key (m + n) k = window key m k * 2 ^ Z.of_nat n + window key n (k + m).
Proof.
  induction n as [|n IH].
  - rewrite Nat.add_0_r. simpl. lia.
  - rewrite Nat.add_succ_r, !window_last, IH, Nat2Z.inj_succ, Z.pow_succ_r, Nat.add_assoc by lia.
    lia.
Qed.

Lemma window_byte key i :
  (i < length key)%nat -> Forall is_byte key -> window key 8 (8 * i) = key_at key i.
Proof.
  intros Hi Hb. assert (is_byte (nth i key 0)) as Hk by (by apply (proj1 (Forall_nth _ 0 key) Hb)).
  unfold key_at, is_uint in *. change (2 ^ 8) with 256 in Hk.
  cbn [window]. rewrite !stream_bit_byte by lia. simpl (7 - _).
  rewrite !Z.testbit_spec' by lia. simpl (2 ^ _). zlia.
Qed.

(** The first window is the first four bytes of the key. *)
Lemma window_first key :
  (4 <= length key)%nat -> Forall is_byte key ->
  window key 32 0 = u32 (Z.shiftl (key_at key 0) 24 + Z.shiftl (key_at key 1) 16 +
                         Z.shiftl (key_at key 2) 8 + key_at key 3).
Proof.
  intros Hl Hb. change 32%nat with (8 + (8 + (8 + 8)))%nat. rewrite !window_app.
  assert (Hw : forall i, (i < 4)%nat -> window key 8 (8 * i) = key_at key i)
    by (intros i Hi; apply window_byte; [lia|done]).
  pose proof (Hw 0%nat ltac:(lia)) as E0. pose proof (Hw 1%nat ltac:(lia)) as E1.
  pose proof (Hw 2%nat ltac:(lia)) as E2. pose proof (Hw 3%nat ltac:(lia)) as E3.
  change (8 * 0)%nat with 0%nat in E0. change (8 * 1)%nat with (0 + 8)%nat in E1.
  change (8 * 2)%nat with (0 + 8 + 8)%nat in E2. change (8 * 3)%nat with (0 + 8 + 8 + 8)%nat in E3.
  rewrite E0, E1, E2, E3. clear Hw E0 E1 E2 E3.
  assert (Hk : forall i, (i < 4)%nat -> 0 <= key_at key i < 256).
  { intros i Hi. unfold key_at. apply (proj1 (Forall_nth _ 0 key) Hb). lia. }
  pose proof (Hk 0%nat ltac:(lia)). pose proof (Hk 1%nat ltac:(lia)).
  pose proof (Hk 2%nat ltac:(lia)). pose proof (Hk 3%nat ltac:(lia)).
  rewrite !Z.shiftl_mul_pow2 by lia. simpl (2 ^ _). rewrite wrap_small by (simpl (2 ^ _); lia). lia.
Qed.

(** *** The forwarding buffer *)

Lemma push_back_u8_ok h b : zlen h < 64 -> push_back_u8 h b = Some (h ++ [u8 b]).
Proof. intros H. unfold push_back_u8. by destruct (Z.ltb_spec (zlen h) 64); [|lia]. Qed.

Lemma push_back_u16_ok h b :
  zlen h < 63 -> push_back_u16 h b = Some (h ++ rev (be_bytes 2 b)).
Proof.
  intros H. unfold push_back_u16. rewrite push_back_u8_ok by lia.
  rewrite push_back_u8_ok by (autorewrite with zlen; lia). rewrite <- app_assoc. do 2 f_equal.
  unfold wrap. rewrite Z.shiftr_div_pow2 by lia. simpl. rewrite Z.div_1_r, !Zmod_mod. done.
Qed.

Lemma push_back_u32_ok h b :
  zlen h < 61 -> push_back_u32 h b = Some (h ++ rev (be_bytes 4 b)).
Proof.
  intros H. unfold push_back_u32. rewrite push_back_u16_ok by lia.
  rewrite push_back_u16_ok by (rewrite zlen_app; unfold zlen at 2; simpl; lia).
  rewrite <- app_assoc. do 2 f_equal. unfold wrap. rewrite !Z.shiftr_div_pow2 by lia.
  cbn [be_bytes rev app]. change (2 ^ (8 * Z.of_nat 0)) with 1. change (2 ^ (8 * Z.of_nat 1)) with 256.
  change (2 ^ (8 * Z.of_nat 2)) with 65536. change (2 ^ (8 * Z.of_nat 3)) with 16777216.
  change (2 ^ 16) with 65536. rewrite !Z.div_1_r.
  assert (b mod 65536 mod 256 = b mod 256) as -> by zlia.
  assert (b mod 65536 / 256 mod 256 = b / 256 mod 256) as -> by zlia.
  assert ((b / 65536) mod 65536 mod 256 = b / 65536 mod 256) as -> by zlia.
  assert ((b / 65536) mod 65536 / 256 mod 256 = b / 16777216 mod 256) as -> by zlia.
  done.
Qed.

(** ** Properties *)

(** C38. [toeplitz_hash] computes the Toeplitz hash: the exclusive or, over the
    set bits of the data, of the 32-bit windows of the key at those positions,
    for every data length (the key is extended with zeros). *)
Theorem toeplitz_hash_windows key data :
  (4 <= length key)%nat -> Forall is_byte key ->
  toeplitz_hash key data = xor_windows (window key 32) 0 (stream_bits data).
Proof.
  intros Hl Hb. unfold toeplitz_hash. rewrite <- window_first by done.
  exact (toeplitz_loop_spec key _ (window_shift key) data 0 0).
Qed.

(** The published RSS verification vector (66.9.149.187:2794 to
    161.142.100.80:1766 under the reference key) hashes to 0x51ccc178. *)
Lemma toeplitz_hash_windows_witness :
  let key := [0x6d; 0x5a; 0x56; 0xda; 0x25; 0x5b; 0x0e; 0xc2; 0x41; 0x67; 0x25; 0x3d; 0x43; 0xa3;
              0x8f; 0xb0; 0xd0; 0xca; 0x2b; 0xcb; 0xae; 0x7b; 0x30; 0xb4; 0x77; 0xcb; 0x2d; 0xa3;
              0x80; 0x30; 0xf2; 0x0c; 0x6a; 0x42; 0xb7; 0x3b; 0xbe; 0xac; 0x01; 0xfa] in
  let data := [66; 9; 149; 187; 161; 142; 100; 80; 10; 234; 6; 230] in
  toeplitz_hash key data = 0x51ccc178 /\
  toeplitz_hash key data = xor_windows (window key 32) 0 (stream_bits data).
Proof.
  intros key data. split; [vm_compute; done|].
  apply toeplitz_hash_windows; [simpl; lia|repeat constructor; done].
Defined.
