(* ===== verification/Packet.v ===== *)
(** * Packets: include/nil/actor/network/packet.hh, src/network/packet.cc

    A packet is a list of fragments that point into shared buffers.  The store
    of buffers is explicit: fragments of different packets may point into the
    same buffer ([share]), and the header area [_data] of a packet's [impl] is a
    buffer of its own.  Operations run in the option monad: [None] is a failed
    assertion or an access outside a buffer. *)

From S2P Require Import Prelude.
From stdpp Require Import base numbers option gmap list.

#[local] Open Scope Z_scope.

(** ** The store of buffers *)

Definition block_id := nat.

Record store := Store { blocks : gmap nat (list Z); next : block_id }.

(** [char *base; size_t size;] -- [base] is a buffer and an offset in it. *)
Record fragment := Fragment { fblk : block_id; foff : Z; fsize : Z }.

Definition in_range (bs : list Z) (off n : Z) : bool :=
  (0 <=? off) && (0 <=? n) && (off + n <=? zlen bs).

(** Reading and writing [n] bytes through a pointer. *)
Definition st_read (st : store) (b : block_id) (off n : Z) : option (list Z) :=
  match blocks st !! b with
  | Some bs => if in_range bs off n then Some (slice off n bs) else None
  | None => None
  end.

Definition st_write (st : store) (b : block_id) (off : Z) (bytes : list Z) : option store :=
  match blocks st !! b with
  | Some bs => if in_range bs off (zlen bytes)
               then Some (Store (<[b := splice off bytes bs]> (blocks st)) (next st))
               else None
  | None => None
  end.

Definition read_frag (st : store) (f : fragment) : option (list Z) :=
  st_read st (fblk f) (foff f) (fsize f).

(** ** <nil/actor/core/deleter.hh>: which buffers a deleter keeps alive *)

Class DeleterOps (D : Type) := {
  dl_empty : D;
  dl_free : block_id -> D;
  dl_append : D -> D -> D;
  dl_share : D -> D;
  dl_keeps : D -> gset nat;
  dl_keeps_empty : dl_keeps dl_empty = ∅;
  dl_keeps_free : forall b, dl_keeps (dl_free b) = {[b]};
  dl_keeps_append : forall d e, dl_keeps (dl_append d e) = dl_keeps d ∪ dl_keeps e;
  dl_keeps_share : forall d, dl_keeps (dl_share d) = dl_keeps d
}.

(** [struct offload_info] *)
Record offload_info := OffloadInfo {
  protocol : Z; needs_csum : bool; ip_hdr_len : Z; tcp_hdr_len : Z; udp_hdr_len : Z;
  needs_ip_csum : bool; reassembled : bool; tso_seg_size : Z; vlan_tci : option Z }.

Definition offload_info_default : offload_info :=
  OffloadInfo 255 false 20 20 8 false false 0 None.

Definition internal_data_size : Z := 128 - 16.
Definition default_nr_frags : Z := 4.

(** The internal buffers hold arbitrary bytes until they are written. *)
Definition uninit (garbage : block_id -> nat -> Z) (b : block_id) (n : Z) : list Z :=
  map (garbage b) (seq 0 (Z.to_nat n)).

Section Packet.
Context {D : Type} {DL : DeleterOps D}.
Variable garbage : block_id -> nat -> Z.

(** [struct impl]: [_nr_frags] is the length of [frags]; [data_blk] is the
    buffer [_data]. *)
Record impl := Impl {
  deleter : D; len : Z; allocated_frags : Z; oi : offload_info;
  rss_hash : option Z; data_blk : block_id; headroom : Z; frags : list fragment }.

Definition nr_frags (p : impl) : Z := zlen (frags p).

Definition with_frags (p : impl) (fs : list fragment) : impl :=
  Impl (deleter p) (len p) (allocated_frags p) (oi p) (rss_hash p) (data_blk p) (headroom p) fs.
Definition with_len (p : impl) (l : Z) : impl :=
  Impl (deleter p) l (allocated_frags p) (oi p) (rss_hash p) (data_blk p) (headroom p) (frags p).
Definition with_deleter (p : impl) (d : D) : impl :=
  Impl d (len p) (allocated_frags p) (oi p) (rss_hash p) (data_blk p) (headroom p) (frags p).
Definition with_headroom (p : impl) (h : Z) : impl :=
  Impl (deleter p) (len p) (allocated_frags p) (oi p) (rss_hash p) (data_blk p) h (frags p).
Definition set_offload_info (p : impl) (o : offload_info) : impl :=
  Impl (deleter p) (len p) (allocated_frags p) o (rss_hash p) (data_blk p) (headroom p) (frags p).
Definition set_rss_hash (p : impl) (h : Z) : impl :=
  Impl (deleter p) (len p) (allocated_frags p) (oi p) (Some h) (data_blk p) (headroom p) (frags p).

(** [malloc(n)] / [new char[n]] *)
Definition malloc (st : store) (n : Z) : store * block_id :=
  (Store (<[next st := uninit garbage (next st) n]> (blocks st)) (S (next st)), next st).

(** [impl::allocate]; [operator new] asserts that the count fits 16 bits. *)
Definition allocate (st : store) (nr : Z) : option (store * impl) :=
  let nr := Z.max nr default_nr_frags in
  if nr =? u16 nr then
    let (st, b) := malloc st internal_data_size in
    Some (st, Impl dl_empty 0 nr offload_info_default None b internal_data_size [])
  else None.

(** [impl::using_internal_data] *)
Definition using_internal_data (p : impl) : bool :=
  match frags p with
  | f :: _ => Nat.eqb (fblk f) (data_blk p) && (0 <=? foff f) && (foff f <? internal_data_size)
  | [] => false
  end.

(** [impl::copy_internal_fragment_to] *)
Definition copy_internal_fragment_to (st : store) (p to : impl) : option (store * impl) :=
  if negb (using_internal_data p) then Some (st, to)
  else match frags p, frags to with
       | f :: _, g :: gs =>
           let g := Fragment (data_blk to) (headroom p) (fsize g) in
           bytes ← read_frag st f;
           st ← st_write st (fblk g) (foff g) bytes;
           Some (st, with_frags to (g :: gs))
       | _, _ => None
       end.

(** [impl::copy(old, nr)] *)
Definition impl_copy (st : store) (old : impl) (nr : Z) : option (store * impl) :=
  '(st, n) ← allocate st nr;
  let n := Impl (deleter old) (len old) (allocated_frags n) (oi old) (rss_hash old)
                (data_blk n) (headroom old) (frags old) in
  copy_internal_fragment_to st old n.

(** [impl::allocate_if_needed] *)
Definition allocate_if_needed (st : store) (old : impl) (extra_frags : Z) : option (store * impl) :=
  if nr_frags old + extra_frags <=? allocated_frags old then Some (st, old)
  else impl_copy st old (Z.max (nr_frags old + extra_frags) (2 * nr_frags old)).

(** [impl::unuse_internal_data] *)
Definition unuse_internal_data (st : store) (p : impl) : option (store * impl) :=
  if negb (using_internal_data p) then Some (st, p)
  else match frags p with
       | f :: fs =>
           let (st, buf) := malloc st (fsize f) in
           bytes ← read_frag st f;
           st ← st_write st buf 0 bytes;
           Some (st, with_headroom
                       (with_deleter (with_frags p (Fragment buf 0 (fsize f) :: fs))
                                     (dl_append (dl_free buf) (deleter p)))
                       internal_data_size)
       | [] => None
       end.

(** *** Constructors *)

(** [packet()] and [packet(nr_frags)] *)
Definition packet_empty (st : store) : option (store * impl) := allocate st 1.
Definition packet_sized (st : store) (nr : Z) : option (store * impl) := allocate st nr.

(** [impl(fragment, nr_frags)] with the default [nr_frags]: copy data into a packet. *)
Definition packet_copying (st : store) (frag : fragment) : option (store * impl) :=
  '(st, p) ← allocate st default_nr_frags;
  let p := with_len p (u32 (fsize frag)) in
  if fsize frag <=? internal_data_size then
    let h := headroom p - fsize frag in
    bytes ← read_frag st frag;
    st ← st_write st (data_blk p) h bytes;
    Some (st, with_frags (with_headroom p h) [Fragment (data_blk p) h (fsize frag)])
  else
    let (st, buf) := malloc st (fsize frag) in
    bytes ← read_frag st frag;
    st ← st_write st buf 0 bytes;
    Some (st, with_frags (with_deleter p (dl_append (deleter p) (dl_free buf)))
                         [Fragment buf 0 (fsize frag)]).

(** [packet(fragment, deleter)]: zero-copy single fragment. *)
Definition packet_zero_copy (st : store) (frag : fragment) (d : D) : option (store * impl) :=
  '(st, p) ← allocate st 1;
  Some (st, with_len (with_frags (with_deleter p d) [frag]) (u32 (fsize frag))).

Definition total_size (fs : list fragment) : Z := foldr (fun f a => fsize f + a) 0 fs.

(** [packet(std::vector<fragment>, deleter)]: zero-copy multiple fragments. *)
Definition packet_of_frags (st : store) (fs : list fragment) (d : D) : option (store * impl) :=
  '(st, p) ← allocate st (zlen fs);
  Some (st, with_len (with_frags (with_deleter p d) fs) (u32 (total_size fs))).

(** [packet(packet&&, fragment)]: append, copying. *)
Definition append_copying (st : store) (x : impl) (frag : fragment) : option (store * impl) :=
  '(st, p) ← allocate_if_needed st x 1;
  let (st, buf) := malloc st (fsize frag) in
  bytes ← read_frag st frag;
  st ← st_write st buf 0 bytes;
  Some (st, with_deleter (with_frags (with_len p (u32 (len p + fsize frag)))
                                     (frags p ++ [Fragment buf 0 (fsize frag)]))
                         (dl_append (deleter p) (dl_free buf))).

(** [packet(packet&&, fragment, deleter)]: append, zero-copy. *)
Definition append_zero_copy (st : store) (x : impl) (frag : fragment) (d : D) : option (store * impl) :=
  '(st, p) ← allocate_if_needed st x 1;
  Some (st, with_deleter (with_frags (with_len p (u32 (len p + fsize frag))) (frags p ++ [frag]))
                         (dl_append d (deleter p))).

(** [packet(packet&&, deleter)] *)
Definition append_deleter (x : impl) (d : D) : impl := with_deleter x (dl_append (deleter x) d).

(** [packet::allocate_headroom] *)
Definition allocate_headroom (st : store) (p : impl) (size : Z) : option (store * impl * bool) :=
  if size <=? headroom p then
    let p := with_len p (u32 (len p + size)) in
    '(st, p) ← (if negb (using_internal_data p) then
                  '(st, p) ← allocate_if_needed st p 1;
                  Some (st, with_frags p (Fragment (data_blk p) internal_data_size 0 :: frags p))
                else Some (st, p));
    match frags p with
    | f :: fs =>
        let p := with_headroom p (headroom p - size) in
        Some (st, with_frags p (Fragment (fblk f) (foff f - size) (fsize f + size) :: fs), true)
    | [] => None
    end
  else Some (st, p, false).

(** The new first fragment when there is no room: a buffer of its own. *)
Definition push_front_buffer (st : store) (p : impl) (size : Z) : option (store * impl) :=
  let p := with_len p (u32 (len p + size)) in
  '(st, p) ← allocate_if_needed st p 1;
  let (st, buf) := malloc st size in
  Some (st, with_deleter (with_frags p (Fragment buf 0 size :: frags p))
                         (dl_append (deleter p) (dl_free buf))).

(** [packet(fragment, packet&&)]: prepend, copying, with header optimization. *)
Definition prepend_copying (st : store) (frag : fragment) (x : impl) : option (store * impl) :=
  '(st, p, done) ← allocate_headroom st x (fsize frag);
  if (done : bool) then
    match frags p with
    | f :: _ =>
        bytes ← read_frag st frag;
        st ← st_write st (fblk f) (foff f) bytes;
        Some (st, p)
    | [] => None
    end
  else
    '(st, p) ← unuse_internal_data st p;
    '(st, p) ← push_front_buffer st p (fsize frag);
    match frags p with
    | f :: _ =>
        bytes ← read_frag st frag;
        st ← st_write st (fblk f) 0 bytes;
        Some (st, p)
    | [] => None
    end.

(** [packet::prepend_uninitialized_header]: the packet and the address of its
    first fragment. *)
Definition prepend_uninitialized_header (st : store) (p : impl) (size : Z)
    : option (store * impl * (block_id * Z)) :=
  '(st, p) ← (
    '(st, p, done) ← allocate_headroom st p size;
    if (done : bool) then Some (st, p)
    else
      '(st, p) ← unuse_internal_data st p;
      '(st, p, done) ← allocate_headroom st p size;
      if (done : bool) then Some (st, p) else push_front_buffer st p size);
  match frags p with
  | f :: _ => Some (st, p, (fblk f, foff f))
  | [] => None
  end.

(** [packet::append] *)
Definition packet_append (st : store) (x p : impl) : option (store * impl) :=
  if len x =? 0 then Some (st, p)
  else
    '(st, x) ← allocate_if_needed st x (nr_frags p);
    '(st, p) ← unuse_internal_data st p;
    Some (st, with_deleter (with_frags (with_len x (u32 (len x + len p))) (frags x ++ frags p))
                           (dl_append (deleter p) (deleter x))).

(** *** Trimming *)

(** [while (how_much && how_much >= _frags[i].size) how_much -= _frags[i++].size;] *)
Fixpoint skip_frags (how_much : Z) (fs : list fragment) : Z * list fragment :=
  match fs with
  | f :: fs' =>
      if negb (how_much =? 0) && (fsize f <=? how_much)
      then skip_frags (how_much - fsize f) fs' else (how_much, fs)
  | [] => (how_much, [])
  end.

Definition trim_front (p : impl) (how_much : Z) : option impl :=
  if how_much <=? len p then
    let p := with_len p (len p - how_much) in
    let (how_much, fs) := skip_frags how_much (frags p) in
    let p := with_frags p fs in
    let p := if negb (using_internal_data p) then with_headroom p internal_data_size else p in
    if negb (how_much =? 0) then
      let p := if using_internal_data p then with_headroom p (headroom p + how_much) else p in
      match frags p with
      | f :: fs => Some (with_frags p (Fragment (fblk f) (foff f + how_much) (fsize f - how_much) :: fs))
      | [] => None
      end
    else Some p
  else None.

Definition trim_back (p : impl) (how_much : Z) : option impl :=
  if how_much <=? len p then
    let p := with_len p (len p - how_much) in
    let (how_much, rfs) := skip_frags how_much (rev (frags p)) in
    let p := with_frags p (rev rfs) in
    if negb (how_much =? 0) then
      match rfs with
      | f :: before =>
          let p := with_frags p (rev (Fragment (fblk f) (foff f) (fsize f - how_much) :: before)) in
          Some (match before with
                | [] => if using_internal_data p then with_headroom p (headroom p + how_much) else p
                | _ => p
                end)
      | [] => None
      end
    else Some p
  else None.

(** *** Linearization *)

(** The scan of [linearize]: how many of [fs] make up at least [desired] bytes,
    and their size. *)
Fixpoint scan_frags (accum desired : Z) (fs : list fragment) : option (nat * Z) :=
  if accum <? desired then
    match fs with
    | f :: fs' =>
        '(n, total) ← scan_frags (accum + fsize f) desired fs';
        Some (S n, total)
    | [] => None
    end
  else Some (O, accum).

Fixpoint read_frags (st : store) (fs : list fragment) : option (list Z) :=
  match fs with
  | [] => Some []
  | f :: fs' =>
      bs ← read_frag st f;
      bs' ← read_frags st fs';
      Some (bs ++ bs')
  end.

(** [packet::linearize(at_frag, desired_size)] *)
Definition linearize (st : store) (p : impl) (at_frag : nat) (desired_size : Z) : option (store * impl) :=
  '(st, p) ← unuse_internal_data st p;
  let before := take at_frag (frags p) in
  let rest := drop at_frag (frags p) in
  '(n, accum_size) ← scan_frags 0 desired_size rest;
  let (st, buf) := malloc st accum_size in
  bytes ← read_frags st (take n rest);
  st ← st_write st buf 0 bytes;
  let p := with_frags p (before ++ Fragment buf 0 accum_size :: drop n rest) in
  if negb (nr_frags p <=? allocated_frags p) then None else
  Some (st, if (Nat.eqb at_frag 0 && (desired_size =? len p))%bool
            then with_deleter p (dl_free buf)
            else with_deleter p (dl_append (deleter p) (dl_free buf))).

(** [linearize()] *)
Definition linearize_all (st : store) (p : impl) : option (store * impl) := linearize st p 0 (len p).

(** [while (i != _nr_frags && offset >= _frags[i].size) offset -= _frags[i++].size;] *)
Fixpoint find_frag (offset : Z) (i : nat) (fs : list fragment) : option (Z * nat * fragment) :=
  match fs with
  | f :: fs' => if fsize f <=? offset then find_frag (offset - fsize f) (S i) fs' else Some (offset, i, f)
  | [] => None
  end.

(** [packet::get_header(offset, size)]: the outer option is failure, the inner
    one the null pointer. *)
Definition get_header (st : store) (p : impl) (offset size : Z)
    : option (store * impl * option (block_id * Z)) :=
  if len p <? offset + size then Some (st, p, None)
  else match find_frag offset 0 (frags p) with
       | None => Some (st, p, None)
       | Some (offset, i, f) =>
           '(st, p) ← (if fsize f <? offset + size then linearize st p i (offset + size)
                       else Some (st, p));
           match frags p !! i with
           | Some f => Some (st, p, Some (fblk f, foff f + offset))
           | None => None
           end
       end.

(** *** Sharing *)

Fixpoint seek_frags (offset : Z) (fs : list fragment) : option (Z * list fragment) :=
  if (0 <? offset) then
    match fs with
    | f :: fs' => if fsize f <=? offset then seek_frags (offset - fsize f) fs' else Some (offset, fs)
    | [] => None
    end
  else Some (offset, fs).

(** [while (n._impl->_len < len)]: the fragments of the share. *)
Fixpoint share_frags (offset remaining : Z) (fs : list fragment) : option (list fragment) :=
  if 0 <? remaining then
    match fs with
    | f :: fs' =>
        let sz := Z.min remaining (fsize f - offset) in
        rest ← share_frags 0 (remaining - sz) fs';
        Some (Fragment (fblk f) (foff f + offset) sz :: rest)
    | [] => None
    end
  else Some [].

(** [packet::share(offset, len)]: the packet (whose internal data is moved out)
    and the share. *)
Definition share (st : store) (p : impl) (offset length : Z) : option (store * impl * impl) :=
  '(st, p) ← unuse_internal_data st p;
  '(st, n) ← packet_empty st;
  '(st, n) ← allocate_if_needed st n (nr_frags p);
  '(offset, rest) ← seek_frags offset (frags p);
  fs ← share_frags offset length rest;
  Some (st, p,
        Impl (dl_share (deleter p)) (u32 (total_size fs)) (allocated_frags n) (oi p) (rss_hash n)
             (data_blk n) (headroom n) fs).

(** [packet::reserve(n_frags)] *)
Definition reserve (st : store) (p : impl) (n_frags : Z) : option (store * impl) :=
  if nr_frags p <? n_frags then allocate_if_needed st p (n_frags - nr_frags p) else Some (st, p).

(** [packet::free_on_cpu]: the same packet with a deleter that runs the old one
    on the origin cpu. *)
Definition free_on_cpu (st : store) (p : impl) : option (store * impl) :=
  impl_copy st p (nr_frags p).

(** ** Specification *)

(** The bytes of a packet. *)
Definition contents (st : store) (p : impl) : option (list Z) := read_frags st (frags p).

(** Buffers that live for ever ([from_static_data]). *)
Variable static : gset nat.

Definition store_ok (st : store) : Prop := forall b, (next st <= b)%nat -> blocks st !! b = None.

Definition frag_ok (st : store) (f : fragment) : Prop :=
  exists bs, blocks st !! fblk f = Some bs /\ 0 <= foff f /\ 0 <= fsize f /\ foff f + fsize f <= zlen bs.

Definition frag_bytes (st : store) (f : fragment) : list Z :=
  slice (foff f) (fsize f) (default [] (blocks st !! fblk f)).

Definition bytes_of (st : store) (fs : list fragment) : list Z := concat (map (frag_bytes st) fs).

#[local] Arguments bytes_of : simpl never.

(** Only the first fragment may point into the packet's own header area, and
    then the recorded headroom is really free. *)
Definition own_data_first (p : impl) : Prop :=
  match frags p with
  | [] => True
  | f :: fs => (fblk f = data_blk p -> headroom p <= foff f < internal_data_size) /\
               Forall (fun g => fblk g <> data_blk p) fs
  end.

(** Every fragment that has bytes is kept alive by the packet itself, its
    deleter, or for ever. *)
Definition live (own : block_id) (d : D) (f : fragment) : Prop :=
  fsize f = 0 \/ fblk f = own \/ fblk f ∈ dl_keeps d \/ fblk f ∈ static.

(** A well-formed packet whose bytes are [bs]. *)
Record pkt_ok (st : store) (p : impl) (bs : list Z) : Prop := PktOk {
  ok_store : store_ok st;
  ok_data : exists d, blocks st !! data_blk p = Some d /\ zlen d = internal_data_size;
  ok_frags : Forall (frag_ok st) (frags p);
  ok_bytes : bytes_of st (frags p) = bs;
  ok_len : len p = zlen bs /\ zlen bs < 2 ^ 32;
  ok_alloc : nr_frags p <= allocated_frags p < 65536 /\ default_nr_frags <= allocated_frags p;
  ok_headroom : 0 <= headroom p <= internal_data_size;
  ok_own : own_data_first p;
  ok_live : Forall (live (data_blk p) (deleter p)) (frags p) }.

(** What an operation of a packet with header area [own] does to the store: it
    may allocate buffers and write into [own]; nothing else changes. *)
Definition evolves (st st' : store) (own : block_id) : Prop :=
  store_ok st' /\ (next st <= next st')%nat /\
  forall b bs, blocks st !! b = Some bs ->
    exists bs', blocks st' !! b = Some bs' /\ zlen bs' = zlen bs /\ (b <> own -> bs' = bs).

(** ** Lemmas: the store *)

Lemma evolves_refl st own : store_ok st -> evolves st st own.
Proof. intros H. split_and!; [done|done|]. eauto. Qed.

Lemma evolves_trans st1 st2 st3 own own' :
  evolves st1 st2 own -> evolves st2 st3 own' ->
  own' = own \/ blocks st1 !! own' = None -> evolves st1 st3 own.
Proof.
  intros (H1 & H2 & H3) (H4 & H5 & H6) Ho. split_and!; [done|lia|].
  intros b bs Hb. destruct (H3 b bs Hb) as (bs2 & Hb2 & Hl2 & He2).
  destruct (H6 b bs2 Hb2) as (bs3 & Hb3 & Hl3 & He3). exists bs3.
  split_and!; [done|congruence|]. intros Hne. rewrite He3, He2; [done|done|].
  destruct Ho as [->|Ho]; [done|congruence].
Qed.

Lemma evolves_fresh st st' own own' :
  evolves st st' own -> blocks st !! own = None -> evolves st st' own'.
Proof.
  intros (H1 & H2 & H3) Ho. split_and!; [done|done|]. intros b bs Hb.
  destruct (H3 b bs Hb) as (bs' & ? & ? & He). exists bs'. split_and!; [done|done|].
  intros _. apply He. congruence.
Qed.

Lemma store_ok_next st : store_ok st -> blocks st !! next st = None.
Proof. intros H. by apply H. Qed.

Lemma zlen_uninit b n : 0 <= n -> zlen (uninit garbage b n) = n.
Proof. intros. unfold zlen, uninit. rewrite length_map, length_seq. lia. Qed.

Lemma malloc_spec st n :
  store_ok st -> 0 <= n ->
  exists st', malloc st n = (st', next st) /\ evolves st st' (next st) /\
    blocks st' !! next st = Some (uninit garbage (next st) n) /\ blocks st !! next st = None.
Proof.
  intros Hs Hn. unfold malloc. eexists. split; [done|]. cbn [blocks next].
  pose proof (store_ok_next st Hs) as Hf. split_and!; [| |done].
  - split_and!.
    + intros b Hb. cbn [blocks next] in *. rewrite lookup_insert_ne by lia. apply Hs. lia.
    + simpl. lia.
    + intros b bs Hb. exists bs. cbn [blocks]. rewrite lookup_insert_ne by congruence. done.
  - apply lookup_insert_eq.
Qed.

Lemma in_range_true bs off n :
  in_range bs off n = true <-> 0 <= off /\ 0 <= n /\ off + n <= zlen bs.
Proof. unfold in_range. rewrite !andb_true_iff, !Z.leb_le. tauto. Qed.

Lemma st_write_spec st b off bytes bs :
  store_ok st -> blocks st !! b = Some bs -> 0 <= off -> off + zlen bytes <= zlen bs ->
  exists st', st_write st b off bytes = Some st' /\ evolves st st' b /\
    next st' = next st /\ blocks st' !! b = Some (splice off bytes bs).
Proof.
  intros Hs Hb Ho Hr. unfold st_write. rewrite Hb.
  rewrite (proj2 (in_range_true bs off (zlen bytes))) by (pose proof (zlen_nonneg bytes); lia).
  eexists. split; [done|]. cbn [blocks next]. split_and!; [|done|apply lookup_insert_eq].
  split_and!.
  - intros c Hc. cbn [blocks next] in *. rewrite lookup_insert_ne; [by apply Hs|].
    intros ->. rewrite Hs in Hb by done. done.
  - done.
  - intros c cs Hc. cbn [blocks]. destruct (decide (c = b)) as [->|Hne].
    + rewrite lookup_insert_eq. exists (splice off bytes bs).
      split_and!; [done| |done]. rewrite zlen_splice by done. congruence.
    + rewrite lookup_insert_ne by done. eauto.
Qed.

(** Allocating a buffer and filling it. *)
Lemma malloc_write st bytes :
  store_ok st ->
  exists st1 st2, malloc st (zlen bytes) = (st1, next st) /\
    st_write st1 (next st) 0 bytes = Some st2 /\
    evolves st st1 (next st) /\ evolves st st2 (next st) /\
    blocks st2 !! next st = Some bytes /\ blocks st !! next st = None.
Proof.
  intros Hs. destruct (malloc_spec st (zlen bytes) Hs (zlen_nonneg _)) as (st1 & E & Hev & Hb & Hn).
  pose proof (zlen_uninit (next st) (zlen bytes) (zlen_nonneg _)) as Hl.
  destruct (st_write_spec st1 (next st) 0 bytes _ ltac:(apply Hev) Hb ltac:(lia) ltac:(lia))
    as (st2 & E2 & Hev2 & _ & Hb2).
  exists st1, st2. split_and!; try done.
  - eapply evolves_trans; [done|done|by left].
  - rewrite Hb2. f_equal. unfold splice. change (Z.to_nat 0) with 0%nat. rewrite take_0.
    cbn [app Nat.add]. unfold zlen in *. rewrite drop_ge by lia.
    apply app_nil_r.
Qed.

(** *** Fragments *)

Lemma frag_ok_evolves st st' own f : evolves st st' own -> frag_ok st f -> frag_ok st' f.
Proof.
  intros (_ & _ & H) (bs & Hb & ? & ? & ?).
  destruct (H _ _ Hb) as (bs' & Hb' & Hl & _). exists bs'. rewrite Hl. done.
Qed.

Lemma frags_ok_evolves st st' own fs :
  evolves st st' own -> Forall (frag_ok st) fs -> Forall (frag_ok st') fs.
Proof. intros He Hf. eapply Forall_impl; [exact Hf|]. intros f. by apply (frag_ok_evolves st st' own). Qed.

Lemma frag_bytes_evolves st st' own f :
  evolves st st' own -> frag_ok st f -> fblk f <> own -> frag_bytes st' f = frag_bytes st f.
Proof.
  intros (_ & _ & H) (bs & Hb & _) Hne. unfold frag_bytes.
  destruct (H _ _ Hb) as (bs' & Hb' & _ & He). rewrite Hb, Hb', He; done.
Qed.

Lemma bytes_of_evolves st st' own fs :
  evolves st st' own -> Forall (frag_ok st) fs -> Forall (fun f => fblk f <> own) fs ->
  bytes_of st' fs = bytes_of st fs.
Proof.
  intros He Hok Hne. unfold bytes_of. f_equal. apply map_ext_Forall.
  rewrite Forall_forall in *. intros f Hf. eapply frag_bytes_evolves; eauto.
Qed.

Lemma frag_ok_not_fresh st f : store_ok st -> frag_ok st f -> fblk f <> next st.
Proof. intros Hs (bs & Hb & _) E. rewrite E, store_ok_next in Hb; done. Qed.

Lemma frags_not_fresh st fs :
  store_ok st -> Forall (frag_ok st) fs -> Forall (fun f => fblk f <> next st) fs.
Proof. intros Hs Hf. eapply Forall_impl; [exact Hf|]. intros f. by apply frag_ok_not_fresh. Qed.

Lemma zlen_frag_bytes st f : frag_ok st f -> zlen (frag_bytes st f) = fsize f.
Proof.
  intros (bs & Hb & ? & ? & ?). unfold frag_bytes. rewrite Hb. by apply zlen_slice.
Qed.

Lemma read_frag_ok st f : frag_ok st f -> read_frag st f = Some (frag_bytes st f).
Proof.
  intros (bs & Hb & ? & ? & ?). unfold read_frag, st_read, frag_bytes. rewrite Hb.
  by rewrite (proj2 (in_range_true bs (foff f) (fsize f))) by done.
Qed.

Lemma read_frags_ok st fs : Forall (frag_ok st) fs -> read_frags st fs = Some (bytes_of st fs).
Proof.
  induction 1 as [|f fs Hf _ IH]; [done|]. cbn [read_frags]. rewrite read_frag_ok by done.
  cbn. by rewrite IH.
Qed.

Lemma bytes_of_app st fs gs : bytes_of st (fs ++ gs) = bytes_of st fs ++ bytes_of st gs.
Proof. unfold bytes_of. by rewrite map_app, concat_app. Qed.

Lemma bytes_of_cons st f fs : bytes_of st (f :: fs) = frag_bytes st f ++ bytes_of st fs.
Proof. done. Qed.

Lemma zlen_bytes_of st fs : Forall (frag_ok st) fs -> zlen (bytes_of st fs) = total_size fs.
Proof.
  induction 1 as [|f fs Hf _ IH]; [done|].
  rewrite bytes_of_cons, zlen_app, zlen_frag_bytes, IH by done. done.
Qed.

Lemma using_internal_spec p :
  using_internal_data p = true <->
  exists f fs, frags p = f :: fs /\ fblk f = data_blk p /\ 0 <= foff f < internal_data_size.
Proof.
  unfold using_internal_data. destruct (frags p) as [|f fs].
  - split; [done|]. intros (? & ? & ? & _). done.
  - rewrite !andb_true_iff, Nat.eqb_eq, Z.leb_le, Z.ltb_lt. split.
    + intros [[? ?] ?]. eauto 10.
    + intros (f' & fs' & [= <- <-] & ? & ?). tauto.
Qed.

(** A well-formed packet that does not use its header area has no fragment in it. *)
Lemma not_using_foreign st p bs :
  pkt_ok st p bs -> using_internal_data p = false ->
  Forall (fun f => fblk f <> data_blk p) (frags p).
Proof.
  intros Hok Hu. pose proof (ok_own _ _ _ Hok) as Ho. pose proof (ok_frags _ _ _ Hok) as Hf.
  unfold own_data_first in Ho. destruct (frags p) as [|f fs] eqn:E; [constructor|].
  destruct Ho as [Ho1 Ho2]. constructor; [|done]. intros Hb.
  enough (using_internal_data p = true) by congruence.
  apply using_internal_spec. apply Forall_cons in Hf as [(b & _ & Hoff & _) _].
  exists f, fs. specialize (Ho1 Hb). split_and!; try done; lia.
Qed.

End Packet.
