(* ===== verification/PacketFacts.v ===== *)
(** * Packet operations refine operations on byte strings

    For every operation of [Packet]: on well-formed packets it does not fail
    (no access outside a buffer, no failed assertion), it keeps packets well
    formed, it changes the bytes the way its specification on byte strings
    says, and it leaves every buffer that is not the packet's own untouched. *)

From S2P Require Import Prelude Packet.
From stdpp Require Import base numbers option gmap list.

#[local] Open Scope Z_scope.

#[local] Arguments bytes_of : simpl never.
#[local] Arguments Packet.malloc : simpl never.

Section PacketFacts.
Context {D : Type} {DL : DeleterOps D}.
Variable garbage : block_id -> nat -> Z.
Variable static : gset nat.

Abbreviation impl := (@Packet.impl D).
Abbreviation pkt_ok := (pkt_ok static).
Abbreviation evolves := evolves.
Abbreviation malloc := (malloc garbage).

(** How many fragments a packet may have for every operation to fit the 16-bit
    count of the fragment array (the array is doubled when it is full). *)
Definition few_frags (n : Z) : Prop := 0 <= n <= 16000.

Lemma few_frags_16 n : few_frags n -> (n =? u16 n) = true.
Proof. unfold few_frags. intros. rewrite wrap_small by (pow2; lia). apply Z.eqb_refl. Qed.

Lemma fits_16 n : 0 <= n < 65536 -> (n =? u16 n) = true.
Proof. intros. rewrite wrap_small by (pow2; lia). apply Z.eqb_refl. Qed.

Lemma nr_frags_nonneg (p : impl) : 0 <= nr_frags p.
Proof. apply zlen_nonneg. Qed.

Lemma allocate_spec st nr :
  store_ok st -> Z.max nr 4 < 65536 ->
  exists st' (p : impl), allocate garbage st nr = Some (st', p) /\ evolves st st' (next st) /\
    pkt_ok st' p [] /\ data_blk p = next st /\ frags p = [] /\
    allocated_frags p = Z.max nr 4 /\ headroom p = internal_data_size /\
    deleter p = dl_empty /\ len p = 0 /\ blocks st !! next st = None.
Proof.
  intros Hs Hn. unfold allocate, default_nr_frags. rewrite fits_16 by lia.
  destruct (malloc_spec garbage st internal_data_size Hs ltac:(done)) as (st' & -> & Hev & Hb & Hf).
  do 2 eexists. split_and!; try reflexivity; try assumption. constructor; cbn.
  - apply Hev.
  - rewrite Hb. eexists. split; [done|]. by apply zlen_uninit.
  - constructor.
  - done.
  - done.
  - unfold nr_frags, default_nr_frags. cbn. rewrite zlen_nil. lia.
  - done.
  - done.
  - constructor.
Qed.

Lemma using_internal_with (p q : impl) :
  frags q = frags p -> data_blk q = data_blk p -> using_internal_data q = using_internal_data p.
Proof. unfold using_internal_data. by intros -> ->. Qed.

(** Moving a packet that does not use its header area to a new store. *)
Lemma pkt_ok_evolves st st' own p bs :
  pkt_ok st p bs -> evolves st st' own ->
  Forall (fun f => fblk f <> own) (frags p) -> pkt_ok st' p bs.
Proof.
  intros [] Hev Hne. constructor; try done.
  - apply Hev.
  - destruct ok_data as (d & Hd & Hl). destruct Hev as (_ & _ & Hb).
    destruct (Hb _ _ Hd) as (d' & ? & ? & _). exists d'. split; congruence.
  - by eapply frags_ok_evolves.
  - by rewrite (bytes_of_evolves st st' own) by done.
Qed.

(** A fragment outside the header area does not depend on which one it is. *)
Lemma live_foreign own own' (d : D) fs :
  Forall (live static own d) fs -> Forall (fun g => fblk g <> own) fs ->
  Forall (live static own' d) fs.
Proof.
  rewrite !Forall_forall. intros Hl Hne g Hg. specialize (Hne g Hg). unfold live in *.
  destruct (Hl g Hg) as [?|[?|[?|?]]]; tauto.
Qed.

Lemma live_mono own (d d' : D) fs :
  dl_keeps d ⊆ dl_keeps d' -> Forall (live static own d) fs -> Forall (live static own d') fs.
Proof.
  intros Hs Hl. eapply Forall_impl; [exact Hl|]. unfold live. intros g [?|[?|[?|?]]]; auto.
Qed.

(** A copy has the same fragments, the internal one moved to the new header area. *)
Lemma impl_copy_ok st (p : impl) bs nr :
  pkt_ok st p bs -> nr_frags p <= Z.max nr 4 < 65536 ->
  exists st' p', impl_copy garbage st p nr = Some (st', p') /\ pkt_ok st' p' bs /\
    evolves st st' (next st) /\ data_blk p' = next st /\ allocated_frags p' = Z.max nr 4 /\
    headroom p' = headroom p /\ using_internal_data p' = using_internal_data p /\
    map fsize (frags p') = map fsize (frags p).
Proof.
  intros Hok Hn.
  destruct (allocate_spec st nr (ok_store _ _ _ _ Hok) ltac:(lia)) as
    (st1 & n & Ea & Hev & Hnok & Hblk & _ & Hal & _ & _ & _ & Hfr).
  unfold impl_copy. rewrite Ea. cbn [mbind option_bind].
  pose proof (frags_ok_evolves _ _ _ _ Hev (ok_frags _ _ _ _ Hok)) as Hf1.
  pose proof (frags_not_fresh st _ (ok_store _ _ _ _ Hok) (ok_frags _ _ _ _ Hok)) as Hnf.
  pose proof (bytes_of_evolves _ _ _ _ Hev (ok_frags _ _ _ _ Hok) Hnf) as Hby.
  destruct (ok_data _ _ _ _ Hnok) as (dn & Hdn & Hldn).
  rewrite Hblk in *. clear Hfr. unfold copy_internal_fragment_to.
  destruct (using_internal_data p) eqn:Hu; cbn [negb].
  - apply using_internal_spec in Hu as (f & fs & Efs & Hfb & Hoff).
    destruct p as [d l a o r blk h fs0]. cbn in Efs, Hfb, Hoff. subst fs0.
    destruct Hok as [Hs Hd Hf Hb Hl Ha Hh [Ho1 Ho2] Hlv]. cbn in *. specialize (Ho1 Hfb).
    apply Forall_cons in Hf1 as [Hf1 Hfs1], Hnf as [Hnf Hnfs], Hlv as [Hlv Hlvs], Hf as [Hf Hfs].
    rewrite (read_frag_ok st1 f Hf1). cbn [mbind option_bind].
    pose proof (zlen_frag_bytes st1 f Hf1) as Hlf.
    assert (0 <= h + fsize f <= internal_data_size) as Hhf.
    { destruct Hf as (bs0 & Hbs0 & ? & ? & ?), Hd as (d0 & Hd0 & Hl0). simplify_eq. lia. }
    destruct (st_write_spec st1 (next st) h (frag_bytes st1 f) dn) as
      (st2 & E2 & Hev2 & _ & Hb2); [apply Hev|done|lia|lia|].
    cbn [fblk foff data_blk frags headroom fsize]. rewrite E2. cbn [mbind option_bind].
    assert (Hev' : evolves st st2 (next st)) by (eapply evolves_trans; [done|done|by left]).
    do 2 eexists. split; [done|]. split; [|split_and!; try done].
    2: { unfold using_internal_data. cbn. rewrite Nat.eqb_refl, !andb_true_iff, Z.ltb_lt, Z.leb_le.
         split_and!; done || lia. }
    assert (Hg : frag_ok st2 (Fragment (next st) h (fsize f))).
    { exists (splice h (frag_bytes st1 f) dn). cbn. split_and!; try done; try lia.
      - destruct Hf as (? & _ & ? & ? & _). done.
      - rewrite zlen_splice; lia. }
    constructor; cbn; try done.
    + apply Hev'.
    + exists (splice h (frag_bytes st1 f) dn). split; [done|]. rewrite zlen_splice; lia.
    + constructor; [done|]. eapply frags_ok_evolves; [exact Hev'|done].
    + rewrite bytes_of_cons, (bytes_of_evolves st st2 (next st)) by done.
      rewrite <- Hb, bytes_of_cons. f_equal.
      rewrite <- (frag_bytes_evolves st st1 (next st) f) by done.
      unfold frag_bytes at 1. cbn. rewrite Hb2. cbn [default].
      rewrite <- Hlf. apply slice_splice. by rewrite Hldn.
    + unfold nr_frags, default_nr_frags in *. cbn in *. rewrite zlen_cons in *. lia.
    + split; [intros _; cbn; lia|exact Hnfs].
    + constructor; [by right; left|]. by apply (live_foreign blk).
  - do 2 eexists. split; [done|]. pose proof (not_using_foreign _ _ _ _ Hok Hu) as Hfor.
    destruct p as [d l a o r blk h fs0]. destruct Hok as [Hs Hd Hf Hb Hl Ha Hh Ho Hlv].
    cbn in *. split; [|split_and!; try done].
    + constructor; cbn; try done.
      * apply Hev.
      * eauto.
      * by rewrite Hby.
      * unfold nr_frags, default_nr_frags in *. cbn in *. lia.
      * unfold own_data_first. cbn. destruct fs0 as [|g fs0]; [done|].
        apply Forall_cons in Hnf as [? ?]. split; [congruence|done].
      * by apply (live_foreign blk).
    + unfold using_internal_data. cbn. destruct fs0 as [|g fs0]; [done|].
      apply Forall_cons in Hnf as [Hg _]. by destruct (Nat.eqb_spec (fblk g) (next st)).
Qed.

(** *** Steps of one packet *)

(** The store evolves in the packet's header area only, and the packet's header
    area stays the same or is a new one. *)
Definition steps (st : store) (p : impl) (st' : store) (p' : impl) : Prop :=
  evolves st st' (data_blk p) /\ (data_blk p' = data_blk p \/ blocks st !! data_blk p' = None).

Lemma steps_refl st p : store_ok st -> steps st p st p.
Proof. split; [by apply evolves_refl|by left]. Qed.

Lemma steps_fresh st p st' p' :
  store_ok st -> evolves st st' (next st) -> data_blk p' = data_blk p \/ data_blk p' = next st ->
  steps st p st' p'.
Proof.
  intros Hs He Hd. split; [by eapply evolves_fresh, store_ok_next|].
  destruct Hd as [->| ->]; [by left|right; by apply store_ok_next].
Qed.

Lemma evolves_none st st' own (b : block_id) : evolves st st' own -> blocks st' !! b = None -> blocks st !! b = None.
Proof.
  intros (_ & _ & H) Hb. destruct (blocks st !! b) eqn:E; [|done].
  destruct (H _ _ E) as (? & ? & _). congruence.
Qed.

Lemma steps_trans st1 p1 st2 p2 st3 p3 :
  steps st1 p1 st2 p2 -> steps st2 p2 st3 p3 -> steps st1 p1 st3 p3.
Proof.
  intros [He1 Hd1] [He2 Hd2]. split; [by eapply evolves_trans|].
  destruct Hd2 as [->|Hd2]; [done|]. right. by eapply evolves_none.
Qed.

Lemma allocate_if_needed_ok st p bs extra :
  pkt_ok st p bs -> 0 <= extra -> nr_frags p + extra <= 32767 ->
  exists st' p', allocate_if_needed garbage st p extra = Some (st', p') /\ pkt_ok st' p' bs /\
    steps st p st' p' /\ nr_frags p + extra <= allocated_frags p' /\
    headroom p' = headroom p /\ using_internal_data p' = using_internal_data p /\
    map fsize (frags p') = map fsize (frags p).
Proof.
  intros Hok He Hn. unfold allocate_if_needed. pose proof (ok_store _ _ _ _ Hok) as Hs.
  pose proof (nr_frags_nonneg p). destruct (Z.leb_spec (nr_frags p + extra) (allocated_frags p)).
  - exists st, p. split_and!; try done. by apply steps_refl.
  - destruct (impl_copy_ok st p bs (Z.max (nr_frags p + extra) (2 * nr_frags p)) Hok ltac:(lia))
      as (st' & p' & E & Hok' & Hev & Hb & Ha & Hh & Hu & Hm).
    exists st', p'. split_and!; try done; [|lia]. apply steps_fresh; auto.
Qed.

Lemma nr_frags_map (p q : impl) :
  map fsize (frags p) = map fsize (frags q) -> nr_frags p = nr_frags q.
Proof. intros E. apply (f_equal length) in E. rewrite !length_map in E. unfold nr_frags, zlen. lia. Qed.

(** A packet that has its internal data moved out does not use its header area. *)
Lemma unuse_ok st p bs :
  pkt_ok st p bs ->
  exists st' p', unuse_internal_data garbage st p = Some (st', p') /\ pkt_ok st' p' bs /\
    evolves st st' (next st) /\ data_blk p' = data_blk p /\ using_internal_data p' = false /\
    map fsize (frags p') = map fsize (frags p) /\ allocated_frags p' = allocated_frags p /\
    oi p' = oi p /\ (headroom p' = internal_data_size \/ p' = p).
Proof.
  intros Hok. unfold unuse_internal_data. pose proof (ok_store _ _ _ _ Hok) as Hs.
  destruct (using_internal_data p) eqn:Hu; cbn [negb].
  2: { exists st, p. split_and!; try done; [by apply evolves_refl|by right]. }
  apply using_internal_spec in Hu as (f & fs & Efs & Hfb & Hoff). rewrite Efs.
  destruct p as [d l a o r blk h fs0]. cbn in Efs, Hfb, Hoff. subst fs0.
  destruct Hok as [_ Hd Hf Hb Hl Ha Hh [_ Ho2] Hlv]. cbn in *.
  pose proof (frags_not_fresh st _ Hs Hf) as Hnf.
  apply Forall_cons in Hf as [Hf Hfs], Hlv as [Hlv Hlvs], Hnf as [Hnf Hnfs].
  destruct (malloc_write garbage st (frag_bytes st f) Hs) as (st1 & st2 & Em & Ew & Hev1 & Hev2 & Hb2 & Hn).
  rewrite zlen_frag_bytes in Em by done. rewrite Em.
  rewrite (read_frag_ok st1 f) by (by eapply frag_ok_evolves).
  rewrite (frag_bytes_evolves st st1 (next st)) by done.
  cbn [mbind option_bind]. rewrite Ew. cbn [mbind option_bind].
  assert (blk <> next st) as Hblk.
  { intros ->. destruct Hd as (? & ? & _). congruence. }
  assert (Hne : Nat.eqb (next st) blk = false) by (by apply Nat.eqb_neq).
  do 2 eexists. split; [reflexivity|]. split; [|split_and!; try done].
  2: { unfold using_internal_data. cbn. by rewrite Hne. }
  2: by left.
  assert (0 <= fsize f) by (destruct Hf as (? & _ & _ & ? & _); done).
  constructor; cbn; try done.
  - apply Hev2.
  - destruct Hd as (x & Hx & Hxl), Hev2 as (_ & _ & He). destruct (He _ _ Hx) as (y & ? & ? & _).
    exists y. split; congruence.
  - constructor; [|by eapply frags_ok_evolves]. exists (frag_bytes st f). cbn.
    rewrite zlen_frag_bytes by done. split_and!; done || lia.
  - rewrite bytes_of_cons, (bytes_of_evolves st st2 (next st)), <- Hb, bytes_of_cons by done.
    f_equal. unfold frag_bytes at 1. cbn. rewrite Hb2. cbn.
    rewrite <- (zlen_frag_bytes st f) by done. apply slice_all.
  - constructor.
    + right. right. left. cbn. rewrite dl_keeps_append, dl_keeps_free.
      by apply elem_of_union_l, elem_of_singleton.
    + eapply live_mono; [|done]. rewrite dl_keeps_append. apply union_subseteq_r.
Qed.

(** *** Prepending *)

(** The first fragment of [p] is a slot of [size] bytes that belongs to the
    packet alone. *)
Definition front_slot (p : impl) (size : Z) : Prop :=
  exists f fs, frags p = f :: fs /\ size <= fsize f /\ Forall (fun g => fblk g <> fblk f) fs.

Lemma slice_front {A} (l : list A) off n size :
  0 <= size -> size <= n -> 0 <= off -> off + n <= zlen l ->
  slice off n l = slice off size l ++ slice (off + size) (n - size) l.
Proof.
  unfold slice, zlen. intros. replace (Z.to_nat n) with (Z.to_nat size + Z.to_nat (n - size))%nat by lia.
  rewrite <- take_take_drop, drop_drop. do 3 f_equal. lia.
Qed.

Lemma splice_front {A} (bs l : list A) off n :
  zlen bs <= n -> 0 <= off -> off + n <= zlen l ->
  slice off n (splice off bs l) = bs ++ slice (off + zlen bs) (n - zlen bs) l.
Proof.
  intros. pose proof (zlen_nonneg bs).
  rewrite (slice_front _ _ _ (zlen bs)) by (rewrite ?zlen_splice; lia).
  rewrite slice_splice by lia. f_equal. unfold slice, splice, zlen in *. f_equal.
  rewrite app_assoc, drop_app_length' by (rewrite length_app, length_take; lia).
  f_equal. lia.
Qed.

(** Writing a header into the slot. *)
Lemma write_front st p junk bs hdr :
  pkt_ok st p (junk ++ bs) -> front_slot p (zlen junk) -> zlen hdr = zlen junk ->
  exists f fs st', frags p = f :: fs /\ st_write st (fblk f) (foff f) hdr = Some st' /\
    pkt_ok st' p (hdr ++ bs) /\ evolves st st' (fblk f).
Proof.
  intros Hok (f & fs & Efs & Hsz & Hne) Hh. exists f, fs.
  destruct p as [d l a o r blk h fs0]. cbn in Efs. subst fs0.
  destruct Hok as [Hs Hd Hf Hb Hl Ha Hhr Ho Hlv]. cbn in *.
  apply Forall_cons in Hf as [(x & Hx & Hx1 & Hx2 & Hx3) Hfs].
  destruct (st_write_spec st (fblk f) (foff f) hdr x Hs Hx Hx1 ltac:(lia)) as (st' & E & Hev & _ & Hb').
  exists st'. split_and!; [done|done| |done].
  assert (Hf' : frag_ok st' f).
  { exists (splice (foff f) hdr x). split; [done|]. rewrite zlen_splice by lia. done. }
  constructor; cbn; try done.
  - apply Hev.
  - destruct Hd as (y & Hy & Hyl), Hev as (_ & _ & He). destruct (He _ _ Hy) as (z & ? & ? & _).
    exists z. split; congruence.
  - constructor; [done|]. by eapply frags_ok_evolves.
  - rewrite bytes_of_cons in *. rewrite (bytes_of_evolves st st' (fblk f)) by done.
    unfold frag_bytes in *. rewrite Hx in Hb. rewrite Hb'. cbn in *.
    rewrite splice_front by lia. rewrite (slice_front _ _ _ (zlen hdr)) in Hb by
      (pose proof (zlen_nonneg hdr); lia).
    rewrite <- app_assoc in *. apply app_inj_1 in Hb as [_ <-]; [done|].
    apply Nat2Z.inj. change (zlen (slice (foff f) (zlen hdr) x) = zlen junk).
    rewrite zlen_slice by (pose proof (zlen_nonneg hdr); lia). done.
  - rewrite !zlen_app, Hh in *. done.
Qed.

Lemma allocate_headroom_no st (p : impl) size :
  headroom p < size -> allocate_headroom garbage st p size = Some (st, p, false).
Proof. intros. unfold allocate_headroom. by destruct (Z.leb_spec size (headroom p)); [lia|]. Qed.

(** Dropping leading fragments. *)
Lemma pkt_ok_suffix st p bs pre fs :
  pkt_ok st p bs -> frags p = pre ++ fs ->
  pkt_ok st (with_len (with_frags p fs) (zlen bs - total_size pre)) (bytes_of st fs) /\
  zlen bs = total_size pre + zlen (bytes_of st fs) /\
  bs = bytes_of st pre ++ bytes_of st fs /\ Forall (frag_ok st) pre /\
  (pre <> [] -> Forall (fun g => fblk g <> data_blk p) fs).
Proof.
  intros [Hs Hd Hf Hb Hl Ha Hh Ho Hlv] E. rewrite E in *.
  apply Forall_app in Hf as [Hf1 Hf2], Hlv as [_ Hlv].
  rewrite bytes_of_app in Hb. subst bs. rewrite zlen_app, (zlen_bytes_of st pre) in * by done.
  pose proof (zlen_nonneg (bytes_of st pre)) as Hp. rewrite zlen_bytes_of in Hp by done.
  assert (Hne : pre <> [] -> Forall (fun g => fblk g <> data_blk p) fs).
  { intros Hpre. unfold own_data_first in Ho. rewrite E in Ho. destruct pre as [|x pre]; [done|].
    destruct Ho as [_ Ho]. by apply Forall_app in Ho as [_ Ho]. }
  split_and!; try done. constructor; cbn; try done.
  - lia.
  - unfold nr_frags in *. cbn in *. rewrite E, zlen_app in Ha.
    pose proof (zlen_nonneg pre). lia.
  - unfold own_data_first. destruct pre as [|x pre]; [by unfold own_data_first in Ho; rewrite E in Ho|].
    destruct fs as [|g fs]; [done|]. cbn. specialize (Hne ltac:(done)).
    apply Forall_cons in Hne as [? ?]. done.
Qed.

(** Growing the fragment in the header area downwards. *)
Lemma grow_front st p fs bs f size :
  pkt_ok st (with_len (with_frags p fs) (zlen bs)) bs ->
  Forall (fun g => fblk g <> data_blk p) fs -> frag_ok st f -> fblk f = data_blk p ->
  headroom p <= foff f -> foff f <= internal_data_size -> 0 < size <= headroom p ->
  1 + zlen fs <= allocated_frags p -> len p = zlen bs + fsize f + size -> len p < 2 ^ 32 ->
  exists junk, zlen junk = size /\
    pkt_ok st (with_frags (with_headroom p (headroom p - size))
                 (Fragment (fblk f) (foff f - size) (fsize f + size) :: fs))
           (junk ++ frag_bytes st f ++ bs).
Proof.
  intros [Hs Hd Hf Hb Hl Ha Hh Ho Hlv] Hfs (x & Hx & Hx1 & Hx2 & Hx3) Hblk H1 H2 H3 H4 H5 H6.
  cbn in *. exists (slice (foff f - size) size x).
  assert (zlen (slice (foff f - size) size x) = size) as Hz by (apply zlen_slice; lia).
  split; [done|]. constructor; cbn; try done.
  - constructor; [|done]. exists x. cbn. split_and!; done || lia.
  - rewrite bytes_of_cons, Hb, app_assoc. f_equal. unfold frag_bytes. cbn. rewrite Hx. cbn.
    rewrite (slice_front _ _ _ size) by lia. f_equal. f_equal; lia.
  - rewrite !zlen_app, Hz. unfold frag_bytes. rewrite Hx. cbn. rewrite zlen_slice by lia. lia.
  - unfold nr_frags in *. cbn in *. rewrite zlen_cons. lia.
  - lia.
  - split; [|done]. intros _. cbn. lia.
  - constructor; [|done]. right. by left.
Qed.

Lemma allocate_if_needed_with_len st (p : impl) l extra :
  allocate_if_needed garbage st (with_len p l) extra =
  ('(st, q) ← allocate_if_needed garbage st p extra; Some (st, with_len q l)).
Proof.
  unfold allocate_if_needed, nr_frags. cbn. destruct (_ <=? _); [done|].
  unfold impl_copy. destruct (allocate _ _ _) as [[st' n]|]; [|done]. cbn.
  unfold copy_internal_fragment_to, using_internal_data. cbn.
  destruct (frags p) as [|f fs]; [done|]. destruct (negb _); [done|].
  destruct (read_frag _ _); [|done]. cbn. by destruct (st_write _ _ _ _).
Qed.

(** There is room: the header becomes part of the first fragment. *)
Lemma allocate_headroom_yes st p bs size :
  pkt_ok st p bs -> 0 < size <= headroom p -> nr_frags p + 1 <= 32767 -> zlen bs + size < 2 ^ 32 ->
  exists st' p' junk, allocate_headroom garbage st p size = Some (st', p', true) /\
    steps st p st' p' /\ zlen junk = size /\ pkt_ok st' p' (junk ++ bs) /\ front_slot p' size /\
    (forall f fs, frags p' = f :: fs -> fblk f = data_blk p').
Proof.
  intros Hok Hs Hn Hl. unfold allocate_headroom. destruct (Z.leb_spec size (headroom p)); [|lia].
  destruct (ok_len _ _ _ _ Hok) as [Hlen _]. rewrite Hlen, (wrap_small 32) by
    (pose proof (zlen_nonneg bs); lia).
  rewrite (using_internal_with p) by done. destruct (using_internal_data p) eqn:Hu; cbn [negb].
  - apply using_internal_spec in Hu as (f & fs & Efs & Hfb & Hoff). cbn. rewrite Efs. cbn.
    destruct (pkt_ok_suffix st p bs [f] fs Hok Efs) as (Hok' & Hz & Hbs & Hf & Hne).
    apply Forall_cons in Hf as [Hf _]. specialize (Hne ltac:(done)).
    pose proof (ok_own _ _ _ _ Hok) as Ho. unfold own_data_first in Ho. rewrite Efs in Ho.
    pose proof (ok_alloc _ _ _ _ Hok) as Ha. unfold nr_frags in Ha. rewrite Efs, zlen_cons in Ha.
    destruct Ho as [Ho _]. specialize (Ho Hfb).
    destruct (grow_front st (with_len p (zlen bs + size)) fs (bytes_of st fs) f size) as
      (junk & Hj & Hg); cbn in *; try done || lia.
    { by replace (zlen (bytes_of st fs)) with (zlen bs - (fsize f + 0)) by lia. }
    do 3 eexists. split; [done|]. split; [split; [apply evolves_refl, Hok|by left]|].
    split; [exact Hj|]. rewrite bytes_of_cons, app_nil_r in Hbs.
    rewrite <- Hbs in Hg. split; [exact Hg|].
    pose proof (zlen_frag_bytes st f Hf). pose proof (zlen_nonneg (frag_bytes st f)). split.
    + do 2 eexists. split; [reflexivity|]. cbn. split; [lia|]. by rewrite Hfb.
    + intros f' fs' [= <- <-]. done.
  - rewrite allocate_if_needed_with_len.
    destruct (allocate_if_needed_ok st p bs 1 Hok ltac:(lia) Hn) as
      (st' & q & -> & Hok' & Hst & Ha & Hh & Hu' & Hm). cbn.
    rewrite Hu in Hu'. pose proof (not_using_foreign _ _ _ _ Hok' Hu') as Hne.
    destruct (ok_data _ _ _ _ Hok') as (x & Hx & Hxl).
    set (f := Fragment (data_blk q) internal_data_size 0).
    assert (frag_ok st' f) as Hf by (exists x; cbn; rewrite Hxl; done).
    destruct (grow_front st' (with_len q (zlen bs + size)) (frags q) bs f size) as
      (junk & Hj & Hg); cbn; try done || lia.
    { rewrite <- (proj1 (ok_len _ _ _ _ Hok')). by destruct q. }
    { rewrite Hh. apply Hok. }
    { rewrite <- (nr_frags_map _ _ Hm) in Ha. unfold nr_frags in Ha. lia. }
    do 3 eexists. split; [done|]. split; [exact Hst|]. split; [exact Hj|]. 
    replace (frag_bytes st' f) with (@nil Z) in Hg by done. split; [exact Hg|]. split.
    + do 2 eexists. split; [reflexivity|]. cbn. split; [lia|done].
    + by intros f' fs' [= <- <-].
Qed.

(** No room: the header gets a buffer of its own. *)
Lemma push_front_buffer_ok st p bs size :
  pkt_ok st p bs -> using_internal_data p = false -> 0 < size -> nr_frags p + 1 <= 32767 ->
  zlen bs + size < 2 ^ 32 ->
  exists st' p' junk, push_front_buffer garbage st p size = Some (st', p') /\
    steps st p st' p' /\ zlen junk = size /\ pkt_ok st' p' (junk ++ bs) /\ front_slot p' size /\
    (forall f fs, frags p' = f :: fs -> foff f = 0 /\ blocks st !! fblk f = None).
Proof.
  intros Hok Hu Hsz Hn Hl. unfold push_front_buffer. rewrite allocate_if_needed_with_len.
  destruct (allocate_if_needed_ok st p bs 1 Hok ltac:(lia) Hn) as
    (st1 & q & -> & Hok1 & Hst & Ha & Hh & Hu' & Hm). cbn [mbind option_bind].
  rewrite Hu in Hu'. pose proof (not_using_foreign _ _ _ _ Hok1 Hu') as Hne.
  pose proof (ok_store _ _ _ _ Hok1) as Hs1.
  destruct (malloc_spec garbage st1 size Hs1 ltac:(lia)) as (st2 & Em & Hev & Hb & Hfr).
  rewrite Em.
  rewrite <- (nr_frags_map _ _ Hm) in Ha. pose proof (ok_len _ _ _ _ Hok) as [Hlen Hl'].
  pose proof (zlen_nonneg bs). rewrite Hlen, wrap_small by lia.
  set (junk := uninit garbage (next st1) size) in *.
  assert (zlen junk = size) as Hj by (apply zlen_uninit; lia).
  do 2 eexists. exists junk. split; [reflexivity|].
  destruct (ok_data _ _ _ _ Hok1) as (x & Hx & Hxl).
  assert (data_blk q <> next st1) as Hblk by (intros E; rewrite E in Hx; congruence).
  destruct q as [d l a o r blk h fs]. destruct Hok1 as [_ _ Hf Hby Hl1 Ha1 Hh1 _ Hlv].
  pose proof (frags_not_fresh st1 _ Hs1 Hf) as Hnf. cbn in *.
  split; [|split_and!; try done].
  - eapply steps_trans; [exact Hst|]. apply steps_fresh; [done|done|by left].
  - constructor; cbn; try done.
    + apply Hev.
    + destruct Hev as (_ & _ & He). destruct (He _ _ Hx) as (y & ? & ? & _). exists y. split; congruence.
    + constructor; [|by eapply frags_ok_evolves]. exists junk. cbn. rewrite Hj. split_and!; done || lia.
    + rewrite bytes_of_cons, (bytes_of_evolves st1 st2 (next st1)), Hby by done. f_equal.
      unfold frag_bytes. cbn. rewrite Hb. cbn. rewrite <- Hj at 1. apply slice_all.
    + rewrite zlen_app, Hj. lia.
    + unfold nr_frags in *. cbn in *. rewrite zlen_cons. lia.
    + constructor.
      * right. right. left. cbn. rewrite dl_keeps_append, dl_keeps_free.
        by apply elem_of_union_r, elem_of_singleton.
      * eapply live_mono; [|done]. rewrite dl_keeps_append. apply union_subseteq_l.
  - do 2 eexists. split; [reflexivity|]. cbn. split; [lia|done].
  - intros f fs' [= <- <-]. cbn. split; [done|]. by eapply evolves_none, Hfr; apply Hst.
Qed.

(** After an operation that made room, the header can be written. *)
Lemma fill_front st p st' p' junk bs hdr :
  steps st p st' p' -> pkt_ok st' p' (junk ++ bs) -> front_slot p' (zlen junk) ->
  (forall f fs, frags p' = f :: fs -> fblk f = data_blk p' \/ blocks st !! fblk f = None) ->
  zlen hdr = zlen junk ->
  exists f fs st'', frags p' = f :: fs /\ st_write st' (fblk f) (foff f) hdr = Some st'' /\
    pkt_ok st'' p' (hdr ++ bs) /\ steps st p st'' p'.
Proof.
  intros [Hev Hd] Hok Hfs Hown Hh.
  destruct (write_front st' p' junk bs hdr Hok Hfs Hh) as (f & fs & st'' & E & Hw & Hok' & Hev').
  exists f, fs, st''. split_and!; try done. split; [|done]. eapply evolves_trans; [done|done|].
  destruct (Hown f fs E) as [->|?]; [done|by right].
Qed.

Lemma unuse_steps st p st' p' bs :
  pkt_ok st p bs -> evolves st st' (next st) -> data_blk p' = data_blk p -> steps st p st' p'.
Proof. intros Hok He Hd. apply steps_fresh; [apply Hok|done|by left]. Qed.

(** [prepend_uninitialized_header] makes room for [size] bytes in front of the
    packet: whatever header is then written at the returned address, the packet
    is well formed and its bytes are the header and the old bytes. *)
Lemma prepend_header_ok st p bs size :
  pkt_ok st p bs -> 0 < size -> nr_frags p + 1 <= 32767 -> zlen bs + size < 2 ^ 32 ->
  exists st' p' b off, prepend_uninitialized_header garbage st p size = Some (st', p', (b, off)) /\
    steps st p st' p' /\
    forall hdr, zlen hdr = size -> exists st'', st_write st' b off hdr = Some st'' /\
      pkt_ok st'' p' (hdr ++ bs) /\ steps st p st'' p'.
Proof.
  intros Hok Hsz Hn Hl. unfold prepend_uninitialized_header.
  assert (Hfin : forall st' p' junk, steps st p st' p' -> zlen junk = size ->
    pkt_ok st' p' (junk ++ bs) -> front_slot p' size ->
    (forall f fs, frags p' = f :: fs -> fblk f = data_blk p' \/ blocks st !! fblk f = None) ->
    exists b off, match frags p' with f :: _ => Some (st', p', (fblk f, foff f)) | [] => None end
                  = Some (st', p', (b, off)) /\
      forall hdr, zlen hdr = size -> exists st'', st_write st' b off hdr = Some st'' /\
        pkt_ok st'' p' (hdr ++ bs) /\ steps st p st'' p').
  { intros st' p' junk Hst <- Hok' Hfs Hown. pose proof Hfs as (f & fs & E & _). rewrite E.
    do 2 eexists. split; [done|]. intros hdr Hh.
    destruct (fill_front st p st' p' junk bs hdr Hst Hok' Hfs Hown Hh) as (g & gs & st'' & E' & Hw & ? & ?).
    rewrite E in E'. injection E' as <- <-. eauto. }
  destruct (Z.le_gt_cases size (headroom p)) as [Hroom|Hroom].
  - destruct (allocate_headroom_yes st p bs size Hok ltac:(lia) Hn Hl) as
      (st' & p' & junk & -> & Hst & Hj & Hok' & Hfs & Hown). cbn [mbind option_bind].
    destruct (Hfin st' p' junk Hst Hj Hok' Hfs) as (b & off & E & Hw); [eauto|].
    exists st', p', b, off. done.
  - rewrite allocate_headroom_no by done. cbn [mbind option_bind].
    destruct (unuse_ok st p bs Hok) as (st1 & p1 & -> & Hok1 & Hev1 & Hb1 & Hu1 & Hm1 & Ha1 & _ & _).
    cbn [mbind option_bind]. pose proof (unuse_steps st p st1 p1 bs Hok Hev1 Hb1) as Hst1.
    rewrite <- (nr_frags_map _ _ Hm1) in Hn.
    destruct (Z.le_gt_cases size (headroom p1)) as [Hroom1|Hroom1].
    + destruct (allocate_headroom_yes st1 p1 bs size Hok1 ltac:(lia) Hn Hl) as
        (st' & p' & junk & -> & Hst & Hj & Hok' & Hfs & Hown). cbn [mbind option_bind].
      destruct (Hfin st' p' junk) as (b & off & E & Hw); try done; [by eapply steps_trans|eauto|].
      exists st', p', b, off. split_and!; [done|by eapply steps_trans|done].
    + rewrite allocate_headroom_no by done. cbn [mbind option_bind].
      destruct (push_front_buffer_ok st1 p1 bs size Hok1 Hu1 Hsz Hn Hl) as
        (st' & p' & junk & -> & Hst & Hj & Hok' & Hfs & Hown). cbn [mbind option_bind].
      destruct (Hfin st' p' junk) as (b & off & E & Hw); try done; [by eapply steps_trans| |].
      { intros f fs E. right. eapply evolves_none; [exact Hev1|]. by eapply Hown. }
      exists st', p', b, off. split_and!; [done|by eapply steps_trans|done].
Qed.

(** [packet(fragment, packet&&)]: the fragment's bytes in front. *)
Lemma prepend_copying_ok st p bs frag :
  pkt_ok st p bs -> frag_ok st frag -> fblk frag <> data_blk p -> 0 < fsize frag ->
  nr_frags p + 1 <= 32767 -> zlen bs + fsize frag < 2 ^ 32 ->
  exists st' p', prepend_copying garbage st frag p = Some (st', p') /\
    pkt_ok st' p' (frag_bytes st frag ++ bs) /\ steps st p st' p'.
Proof.
  intros Hok Hfr Hne Hsz Hn Hl. unfold prepend_copying.
  pose proof (zlen_frag_bytes st frag Hfr) as Hz.
  assert (Hrd : forall st', evolves st st' (data_blk p) -> read_frag st' frag = Some (frag_bytes st frag)).
  { intros st' He. rewrite read_frag_ok by (by eapply frag_ok_evolves).
    by rewrite (frag_bytes_evolves st st' (data_blk p)). }
  destruct (Z.le_gt_cases (fsize frag) (headroom p)) as [Hroom|Hroom].
  - destruct (allocate_headroom_yes st p bs (fsize frag) Hok ltac:(lia) Hn Hl) as
      (st' & p' & junk & -> & Hst & Hj & Hok' & Hfs & Hown). cbn [mbind option_bind].
    rewrite <- Hj in Hfs. destruct (fill_front st p st' p' junk bs (frag_bytes st frag) Hst Hok' Hfs) as
      (g & gs & st'' & -> & Hw & ? & ?); [eauto|lia|].
    rewrite Hrd by apply Hst. cbn [mbind option_bind]. rewrite Hw. cbn. eauto.
  - rewrite allocate_headroom_no by done. cbn [mbind option_bind].
    destruct (unuse_ok st p bs Hok) as (st1 & p1 & -> & Hok1 & Hev1 & Hb1 & Hu1 & Hm1 & Ha1 & _ & _).
    cbn [mbind option_bind]. pose proof (unuse_steps st p st1 p1 bs Hok Hev1 Hb1) as Hst1.
    rewrite <- (nr_frags_map _ _ Hm1) in Hn.
    destruct (push_front_buffer_ok st1 p1 bs (fsize frag) Hok1 Hu1 Hsz Hn Hl) as
      (st' & p' & junk & -> & Hst & Hj & Hok' & Hfs & Hown). cbn [mbind option_bind].
    pose proof (steps_trans _ _ _ _ _ _ Hst1 Hst) as Hst'. rewrite <- Hj in Hfs.
    destruct (fill_front st p st' p' junk bs (frag_bytes st frag) Hst' Hok' Hfs) as
      (g & gs & st'' & Eg & Hw & ? & ?); [|lia|].
    { intros f fs E. right. eapply evolves_none; [exact Hev1|]. by eapply Hown. }
    rewrite Eg, Hrd by apply Hst'. cbn [mbind option_bind].
    destruct (Hown g gs Eg) as [Eo _]. rewrite Eo in Hw. rewrite Hw. cbn. eauto.
Qed.

(** *** Trimming *)

Lemma total_size_cons f fs : total_size (f :: fs) = fsize f + total_size fs.
Proof. done. Qed.

Lemma total_size_nil : total_size [] = 0.
Proof. done. Qed.

Lemma total_size_app fs gs : total_size (fs ++ gs) = total_size fs + total_size gs.
Proof.
  induction fs as [|f fs IH]; [done|]. cbn [app]. rewrite !total_size_cons, IH. lia.
Qed.

Lemma total_size_rev fs : total_size (rev fs) = total_size fs.
Proof.
  induction fs as [|f fs IH]; [done|]. cbn [rev].
  rewrite total_size_app, !total_size_cons, total_size_nil, IH. lia.
Qed.

Lemma frag_size_nonneg st f : frag_ok st f -> 0 <= fsize f.
Proof. by intros (? & _ & _ & ? & _). Qed.

Lemma total_size_nonneg st fs : Forall (frag_ok st) fs -> 0 <= total_size fs.
Proof.
  induction 1 as [|f fs Hf _ IH]; [done|]. pose proof (frag_size_nonneg st f Hf).
  rewrite total_size_cons. lia.
Qed.

Lemma skip_frags_spec st k fs :
  Forall (frag_ok st) fs -> 0 <= k <= total_size fs ->
  exists pre k' fs', skip_frags k fs = (k', fs') /\ fs = pre ++ fs' /\ k = total_size pre + k' /\
    0 <= k' /\ (k' = 0 \/ exists f fs'', fs' = f :: fs'' /\ k' < fsize f).
Proof.
  intros Hf. revert k. induction Hf as [|f fs Hf Hfs IH]; intros k Hk.
  - exists [], k, []. cbn in *. split_and!; done || lia.
  - cbn [skip_frags]. pose proof (frag_size_nonneg st f Hf).
    rewrite total_size_cons in Hk.
    destruct (negb (k =? 0) && (fsize f <=? k))%bool eqn:E.
    + b2p. destruct (IH (k - fsize f) ltac:(lia)) as (pre & k' & fs' & -> & -> & ? & ? & ?).
      exists (f :: pre), k', fs'. split_and!; try done.
      rewrite total_size_cons. lia.
    + exists [], k, (f :: fs). split_and!; try done; try (cbn; lia).
      apply andb_false_iff in E as [E|E]; b2p; [by left|right]. eauto.
Qed.

(** Narrowing the first fragment. *)
Lemma shrink_front st f k bs :
  frag_ok st f -> 0 <= k <= fsize f ->
  frag_ok st (Fragment (fblk f) (foff f + k) (fsize f - k)) /\
  frag_bytes st (Fragment (fblk f) (foff f + k) (fsize f - k)) ++ bs =
  drop (Z.to_nat k) (frag_bytes st f ++ bs).
Proof.
  intros Hf Hk. pose proof (zlen_frag_bytes st f Hf) as Hz.
  destruct Hf as (x & Hx & H1 & H2 & H3). split.
  - exists x. cbn. split_and!; done || lia.
  - rewrite drop_app. unfold zlen in Hz. replace (Z.to_nat k - length (frag_bytes st f))%nat with O by lia.
    rewrite drop_0. f_equal. unfold frag_bytes. cbn. by rewrite drop_slice by lia.
Qed.

Lemma headroom_fix_ok st (p : impl) bs :
  pkt_ok st p bs ->
  pkt_ok st (if negb (using_internal_data p) then with_headroom p internal_data_size else p) bs /\
  using_internal_data (if negb (using_internal_data p) then with_headroom p internal_data_size else p)
  = using_internal_data p.
Proof.
  intros Hok. destruct (using_internal_data p) eqn:Hu; cbn [negb]; [done|].
  pose proof (not_using_foreign _ _ _ _ Hok Hu) as Hne. split; [|done].
  destruct Hok. constructor; cbn; try done. unfold own_data_first in *. cbn.
  destruct (frags p); [done|]. apply Forall_cons in Hne as [? ?]. done.
Qed.

(** Cutting into the first fragment, with the headroom following it. *)
Lemma cut_front_ok st p bs f fs k :
  pkt_ok st p bs -> frags p = f :: fs -> 0 < k < fsize f ->
  pkt_ok st (with_frags (with_headroom (with_len p (zlen bs - k))
                           (if using_internal_data p then headroom p + k else headroom p))
               (Fragment (fblk f) (foff f + k) (fsize f - k) :: fs)) (drop (Z.to_nat k) bs).
Proof.
  intros Hok Efs Hk. pose proof Hok as [Hs (y & Hy & Hyl) Hf Hb [Hl Hl2] Ha Hh Ho Hlv].
  assert (using_internal_data p = true <-> fblk f = data_blk p) as Hu.
  { destruct (using_internal_data p) eqn:Hu.
    - apply using_internal_spec in Hu as (g & gs & E & ? & _). rewrite Efs in E. by injection E as <- <-.
    - pose proof (not_using_foreign _ _ _ _ Hok Hu) as Hne. rewrite Efs in Hne.
      apply Forall_cons in Hne as [? _]. done. }
  unfold own_data_first, nr_frags in *. rewrite Efs in *. destruct Ho as [Ho1 Ho2].
  apply Forall_cons in Hf as [Hf Hfs], Hlv as [Hlv Hlvs]. rewrite bytes_of_cons in Hb.
  destruct (shrink_front st f k (bytes_of st fs) Hf ltac:(lia)) as [Hf' Hby].
  assert (fsize f <= zlen bs) as Hz.
  { rewrite <- Hb, zlen_app, zlen_frag_bytes by done. pose proof (zlen_nonneg (bytes_of st fs)). lia. }
  assert (fblk f = data_blk p -> foff f + fsize f <= internal_data_size) as Hfx.
  { destruct Hf as (x & Hx & ? & ? & ?). intros E. rewrite E in Hx. simplify_eq. lia. }
  constructor; cbn; try done.
  - eauto.
  - by constructor.
  - by rewrite bytes_of_cons, Hby, Hb.
  - rewrite zlen_drop by lia. lia.
  - destruct (using_internal_data p) eqn:E; [|done]. destruct Hu as [Hu _]. specialize (Hu eq_refl).
    specialize (Ho1 Hu). specialize (Hfx Hu). lia.
  - split; [|done]. cbn. intros E. specialize (Ho1 E). specialize (Hfx E).
    rewrite (proj2 Hu E). lia.
  - constructor; [|done]. destruct Hlv as [?|[?|?]]; [lia|by right; left|by right; right].
Qed.

(** [trim_front] drops the first bytes. *)
Lemma trim_front_spec st p bs k :
  pkt_ok st p bs -> 0 <= k <= zlen bs ->
  exists p', trim_front p k = Some p' /\ pkt_ok st p' (drop (Z.to_nat k) bs) /\
    data_blk p' = data_blk p /\ deleter p' = deleter p /\ oi p' = oi p /\ nr_frags p' <= nr_frags p.
Proof.
  intros Hok Hk. unfold trim_front. destruct (ok_len _ _ _ _ Hok) as [Hl Hl32].
  destruct (Z.leb_spec k (len p)); [|lia]. cbn [frags with_len].
  pose proof (zlen_bytes_of st (frags p) (ok_frags _ _ _ _ Hok)) as Hz.
  rewrite (ok_bytes _ _ _ _ Hok) in Hz.
  destruct (skip_frags_spec st k (frags p) (ok_frags _ _ _ _ Hok) ltac:(lia)) as
    (pre & k' & fs & -> & Efs & -> & Hk' & Hor).
  destruct (pkt_ok_suffix st p bs pre fs Hok Efs) as (Hok1 & Hz1 & Hbs & Hpre & _).
  assert (Hnr : zlen fs <= nr_frags p).
  { unfold nr_frags. rewrite Efs, zlen_app. pose proof (zlen_nonneg pre). lia. }
  assert (Hdrop : drop (Z.to_nat (total_size pre + k')) bs = drop (Z.to_nat k') (bytes_of st fs)).
  { rewrite Hbs. pose proof (zlen_bytes_of st pre Hpre) as Hzp. pose proof (total_size_nonneg st pre Hpre).
    rewrite Z2Nat.inj_add, <- drop_drop by done.
    f_equal. apply drop_app_length'. unfold zlen in Hzp. lia. }
  rewrite Hl, Hdrop. destruct (headroom_fix_ok st _ _ Hok1) as [Hok2 Hu2].
  change (with_frags (with_len p (zlen bs - (total_size pre + k'))) fs)
    with (with_len (with_frags p fs) (zlen bs - (total_size pre + k'))).
  set (q := with_len (with_frags p fs) (zlen bs - total_size pre)) in *.
  change (using_internal_data (with_len (with_frags p fs) _)) with (using_internal_data q).
  destruct (Z.eqb_spec k' 0) as [->|Hk0]; cbn [negb].
  - eexists. split; [done|]. change (Z.to_nat 0) with O. rewrite drop_0, Z.add_0_r.
    split; [exact Hok2|]. by destruct (negb _).
  - destruct Hor as [?|(f & fs' & -> & Hkf)]; [lia|].
    replace (zlen bs - (total_size pre + k')) with (zlen (bytes_of st (f :: fs')) - k') by lia.
    destruct (using_internal_data q) eqn:Hu; cbn [negb] in *.
    + pose proof (cut_front_ok _ _ _ f fs' k' Hok2 eq_refl ltac:(lia)) as Hcut. rewrite Hu in Hcut.
      eexists. split; [|split; [exact Hcut|done]].
      replace (using_internal_data _) with (using_internal_data q) by done. by rewrite Hu.
    + pose proof (cut_front_ok _ _ _ f fs' k' Hok2 eq_refl ltac:(lia)) as Hcut. rewrite Hu2 in Hcut.
      eexists. split; [|split; [exact Hcut|done]].
      replace (using_internal_data _) with (using_internal_data q) by done. by rewrite Hu.
Qed.

(** *** [trim_back] *)

(** Keeping leading fragments, the last one narrowed. *)
Lemma pkt_ok_prefix st p bs pre f post k :
  pkt_ok st p bs -> frags p = pre ++ f :: post -> 0 <= k <= fsize f ->
  pkt_ok st (with_len (with_frags p (pre ++ [Fragment (fblk f) (foff f) (fsize f - k)]))
                      (total_size pre + fsize f - k))
         (take (Z.to_nat (total_size pre + fsize f - k)) bs).
Proof.
  intros [Hs Hd Hf Hb Hl Ha Hh Ho Hlv] E Hk. unfold own_data_first, nr_frags in *. rewrite E in *.
  apply Forall_app in Hf as [Hf1 Hf2], Hlv as [Hlv1 Hlv2].
  apply Forall_cons in Hf2 as [Hf2 Hf3], Hlv2 as [Hlv2 _].
  rewrite bytes_of_app, bytes_of_cons in Hb.
  pose proof (total_size_nonneg st pre Hf1) as Hp.
  pose proof (zlen_bytes_of st pre Hf1) as Hzp. pose proof (zlen_frag_bytes st f Hf2) as Hzf.
  pose proof (zlen_nonneg (bytes_of st post)).
  assert (zlen bs = total_size pre + fsize f + zlen (bytes_of st post)) as Hz.
  { rewrite <- Hb, !zlen_app. lia. }
  constructor; cbn; try done.
  - apply Forall_app. split; [done|]. apply Forall_cons. split; [|done].
    destruct Hf2 as (x & ? & ? & ? & ?). exists x. cbn. split_and!; done || lia.
  - rewrite bytes_of_app, bytes_of_cons. change (bytes_of st []) with (@nil Z). rewrite app_nil_r, <- Hb.
    rewrite take_app. unfold zlen in Hzp, Hzf.
    rewrite (take_ge (bytes_of st pre)) by lia. f_equal.
    rewrite take_app_le by lia.
    replace (_ - _)%nat with (Z.to_nat (fsize f - k)) by lia.
    unfold frag_bytes. cbn. rewrite take_slice by lia. done.
  - rewrite zlen_take by lia. lia.
  - unfold nr_frags. cbn. rewrite zlen_app, zlen_cons in Ha |- *.
    pose proof (zlen_nonneg post). rewrite zlen_nil. lia.
  - destruct pre as [|g pre]; cbn in *; [by split; [apply Ho|]|]. destruct Ho as [Ho1 Ho2]. split; [done|].
    apply Forall_app in Ho2 as [? Ho2]. apply Forall_app. split; [done|].
    apply Forall_cons in Ho2 as [? _]. by constructor.
  - apply Forall_app. split; [done|]. constructor; [|done]. cbn.
    destruct Hlv2 as [?|[?|?]]; [left; cbn; lia|by right; left|by right; right].
Qed.

(** What is left by [trim_back] is not a part of a header fragment. *)
Definition trim_back_safe (p : impl) (k : Z) : Prop :=
  using_internal_data p = false \/ k = len p \/ k <= total_size (tail (frags p)).

Lemma pkt_ok_nil st p bs : pkt_ok st p bs -> pkt_ok st (with_frags (with_len p 0) []) [].
Proof.
  intros []. constructor; cbn; try done. unfold nr_frags. cbn. rewrite zlen_nil.
  pose proof (zlen_nonneg (frags p)). unfold nr_frags in *. lia.
Qed.

(** [trim_back] drops the last bytes. *)
Lemma trim_back_spec st p bs k :
  pkt_ok st p bs -> 0 <= k <= zlen bs -> trim_back_safe p k ->
  exists p', trim_back p k = Some p' /\ pkt_ok st p' (take (Z.to_nat (zlen bs - k)) bs) /\
    data_blk p' = data_blk p /\ deleter p' = deleter p /\ oi p' = oi p /\ nr_frags p' <= nr_frags p.
Proof.
  intros Hok Hk Hsafe. unfold trim_back. destruct (ok_len _ _ _ _ Hok) as [Hl Hl32].
  destruct (Z.leb_spec k (len p)); [|lia]. cbn [frags with_len].
  pose proof (zlen_bytes_of st (frags p) (ok_frags _ _ _ _ Hok)) as Hz.
  rewrite (ok_bytes _ _ _ _ Hok) in Hz.
  destruct (skip_frags_spec st k (rev (frags p))) as (pre & k' & rfs & -> & Efs & Ek & Hk' & Hor).
  { apply Forall_rev, Hok. }
  { rewrite total_size_rev. lia. }
  apply (f_equal (@rev _)) in Efs. rewrite rev_involutive, rev_app_distr in Efs.
  pose proof (total_size_rev pre) as Erev. rewrite Efs, total_size_app, Erev in Hz.
  destruct rfs as [|f before].
  - assert (k' = 0) as -> by (by destruct Hor as [?|(? & ? & ? & _)]).
    cbn [rev app] in *. rewrite Z.eqb_refl. cbn [negb]. rewrite total_size_nil in Hz.
    eexists. split; [done|]. replace (zlen bs - k) with 0 by lia.
    replace (len p - k) with 0 by lia. split; [by apply (pkt_ok_nil st p bs)|].
    split_and!; try done. apply nr_frags_nonneg.
  - cbn [rev] in Efs, Hz. rewrite <- app_assoc in Efs. cbn [app] in Efs.
    rewrite total_size_app, total_size_cons, total_size_nil in Hz.
    assert (0 <= fsize f) as Hf0.
    { pose proof (ok_frags _ _ _ _ Hok) as Hf. rewrite Efs in Hf. apply Forall_app in Hf as [_ Hf].
      apply Forall_cons in Hf as [Hf _]. by eapply frag_size_nonneg. }
    assert (k' = 0 \/ k' < fsize f) by (destruct Hor as [?|(? & ? & [= <- <-] & ?)]; lia).
    pose proof (pkt_ok_prefix st p bs (rev before) f (rev pre) k' Hok Efs ltac:(lia)) as Hp.
    assert (Hnr : zlen (rev before ++ [f]) <= nr_frags p).
    { unfold nr_frags. rewrite Efs, !zlen_app, !zlen_cons. pose proof (zlen_nonneg (rev pre)).
      rewrite zlen_nil. lia. }
    replace (zlen bs - k) with (total_size (rev before) + fsize f - k') by lia.
    replace (len p - k) with (total_size (rev before) + fsize f - k') by lia.
    destruct (Z.eqb_spec k' 0) as [->|Hk0]; cbn [negb].
    + replace (Fragment (fblk f) (foff f) (fsize f - 0)) with f in Hp by
        (destruct f; cbn; by rewrite Z.sub_0_r).
      eexists. split; [done|]. split; [exact Hp|done].
    + assert (Hnr' : zlen (rev before ++ [Fragment (fblk f) (foff f) (fsize f - k')]) <= nr_frags p).
      { rewrite zlen_app, zlen_cons, zlen_nil in *. lia. }
      destruct before as [|g before].
      * replace (using_internal_data _) with (using_internal_data p).
        2: { unfold using_internal_data. rewrite Efs. done. }
        unfold trim_back_safe in Hsafe. rewrite Efs in Hsafe.
        cbn [rev app tail] in *. rewrite total_size_nil in *. rewrite Erev in Hsafe.
        destruct Hsafe as [->|[?|?]]; [|lia|lia].
        eexists. split; [done|]. split; [exact Hp|done].
      * eexists. split; [done|]. split; [exact Hp|done].
Qed.

(** *** Appending *)

(** Appending fragments that live outside the header area. *)
Lemma extend_ok st (x : impl) xs gs gbs (d : D) :
  pkt_ok st x xs -> Forall (frag_ok st) gs -> bytes_of st gs = gbs ->
  Forall (fun g => fblk g <> data_blk x) gs -> nr_frags x + zlen gs <= allocated_frags x ->
  zlen xs + zlen gbs < 2 ^ 32 -> dl_keeps (deleter x) ⊆ dl_keeps d ->
  Forall (live static (data_blk x) d) gs ->
  pkt_ok st (with_deleter (with_frags (with_len x (zlen xs + zlen gbs)) (frags x ++ gs)) d) (xs ++ gbs).
Proof.
  intros [Hs Hd Hf Hb Hl Ha Hh Ho Hlv] Hgs Hgb Hgne Hn Hlen Hsub Hglv.
  constructor; cbn; try done.
  - by apply Forall_app.
  - by rewrite bytes_of_app, Hb, Hgb.
  - by rewrite zlen_app.
  - unfold nr_frags in *. cbn in *. rewrite zlen_app. lia.
  - unfold own_data_first in *. cbn. destruct (frags x) as [|f fs]; cbn.
    + destruct gs as [|g gs]; [done|]. apply Forall_cons in Hgne as [? ?]. done.
    + destruct Ho as [? ?]. split; [done|]. by apply Forall_app.
  - apply Forall_app. split; [by eapply live_mono|done].
Qed.

(** A packet whose fragments avoid the header area of the packet that steps. *)
Lemma pkt_ok_steps st x st' x' p ps :
  steps st x st' x' -> pkt_ok st p ps -> Forall (fun g => fblk g <> data_blk x) (frags p) ->
  pkt_ok st' p ps /\ Forall (fun g => fblk g <> data_blk x') (frags p).
Proof.
  intros [Hev Hd] Hp Hsep. split; [by eapply pkt_ok_evolves|].
  destruct Hd as [->|Hd]; [done|]. pose proof (ok_frags _ _ _ _ Hp) as Hf.
  rewrite Forall_forall in *. intros g Hg E. destruct (Hf g Hg) as (y & Hy & _). congruence.
Qed.

Lemma unuse_frags st p st' p' bs (b : block_id) :
  pkt_ok st p bs -> unuse_internal_data garbage st p = Some (st', p') -> b <> next st ->
  Forall (fun g => fblk g <> b) (frags p) -> Forall (fun g => fblk g <> b) (frags p').
Proof.
  intros Hok. unfold unuse_internal_data. destruct (using_internal_data p); cbn [negb].
  - destruct (frags p) as [|f fs] eqn:E; [done|]. unfold Packet.malloc.
    destruct (read_frag _ _); [|done]. cbn [mbind option_bind].
    destruct (st_write _ _ _ _); [|done]. cbn. intros [= _ <-] Hb Hf. cbn.
    apply Forall_cons in Hf as [? ?]. constructor; done.
  - intros [= _ <-]. done.
Qed.

(** [append] concatenates. *)
Lemma packet_append_spec st x p xs ps :
  pkt_ok st x xs -> pkt_ok st p ps -> Forall (fun g => fblk g <> data_blk x) (frags p) ->
  nr_frags x + nr_frags p <= 32767 -> zlen xs + zlen ps < 2 ^ 32 ->
  exists st' r, packet_append garbage st x p = Some (st', r) /\ pkt_ok st' r (xs ++ ps) /\
    evolves st st' (data_blk x).
Proof.
  intros Hx Hp Hsep Hn Hl. unfold packet_append. destruct (ok_len _ _ _ _ Hx) as [Hlx _].
  pose proof (nr_frags_nonneg p). destruct (Z.eqb_spec (len x) 0) as [E|E].
  { rewrite (zlen_0_nil xs) by lia. exists st, p. split_and!; try done. apply evolves_refl, Hx. }
  destruct (allocate_if_needed_ok st x xs (nr_frags p) Hx ltac:(done) Hn) as
    (st1 & x1 & -> & Hx1 & Hst1 & Ha1 & _ & _ & Hm1). cbn [mbind option_bind].
  destruct (pkt_ok_steps _ _ _ _ p ps Hst1 Hp Hsep) as [Hp1 Hsep1].
  destruct (unuse_ok st1 p ps Hp1) as (st2 & p2 & Eu & Hp2 & Hev2 & Hb2 & Hu2 & Hm2 & _ & _ & _).
  rewrite Eu. cbn [mbind option_bind]. pose proof (ok_store _ _ _ _ Hx1) as Hs1.
  assert (data_blk x1 <> next st1) as Hne.
  { destruct (ok_data _ _ _ _ Hx1) as (y & Hy & _). intros E'. rewrite E', store_ok_next in Hy; done. }
  pose proof (unuse_frags _ _ _ _ _ _ Hp1 Eu Hne Hsep1) as Hsep2.
  assert (Hx2 : pkt_ok st2 x1 xs).
  { eapply pkt_ok_evolves; [done|exact Hev2|]. apply frags_not_fresh; [done|apply Hx1]. }
  rewrite <- (nr_frags_map _ _ Hm1), <- (nr_frags_map _ _ Hm2) in Ha1.
  destruct (ok_len _ _ _ _ Hx1) as [-> _], (ok_len _ _ _ _ Hp2) as [-> _].
  rewrite wrap_small by (pose proof (zlen_nonneg xs); pose proof (zlen_nonneg ps); lia).
  do 2 eexists. split; [done|]. split.
  - apply extend_ok; try done; try (by apply Hp2).
    + rewrite dl_keeps_append. apply union_subseteq_r.
    + eapply live_mono; [|eapply live_foreign; [apply Hp2|by eapply not_using_foreign]].
      rewrite dl_keeps_append. apply union_subseteq_l.
  - eapply evolves_trans; [apply Hst1|exact Hev2|]. right.
    eapply evolves_none; [apply Hst1|by apply store_ok_next].
Qed.

(** *** Linearization *)

Lemma scan_frags_spec st acc desired fs :
  Forall (frag_ok st) fs -> desired <= acc + total_size fs ->
  exists n, scan_frags acc desired fs = Some (n, acc + total_size (take n fs)) /\
    (n <= length fs)%nat /\ desired <= acc + total_size (take n fs) /\ (acc < desired -> n <> O).
Proof.
  intros Hf. revert acc. induction Hf as [|f fs Hf Hfs IH]; intros acc Hd.
  - rewrite total_size_nil in Hd. exists O. cbn [scan_frags take]. rewrite total_size_nil.
    destruct (Z.ltb_spec acc desired); [lia|]. rewrite Z.add_0_r in *. split_and!; done || lia.
  - rewrite total_size_cons in Hd. cbn [scan_frags]. destruct (Z.ltb_spec acc desired) as [H|H].
    + destruct (IH (acc + fsize f) ltac:(lia)) as (n & -> & Hn & Hd' & _). exists (S n).
      cbn [take length]. rewrite total_size_cons. cbn. rewrite Z.add_assoc. split_and!; done || lia.
    + exists O. cbn [take]. rewrite total_size_nil, Z.add_0_r. split_and!; done || lia.
Qed.

(** Replacing a run of fragments by one buffer that holds their bytes. *)
Lemma coalesce_ok st st' (p : impl) bs pre mid post (d : D) :
  pkt_ok st p bs -> using_internal_data p = false -> frags p = pre ++ mid ++ post -> mid <> [] ->
  evolves st st' (next st) -> blocks st' !! next st = Some (bytes_of st mid) ->
  next st ∈ dl_keeps d -> Forall (live static (data_blk p) d) (pre ++ post) ->
  pkt_ok st' (with_deleter (with_frags p (pre ++ Fragment (next st) 0 (total_size mid) :: post)) d) bs.
Proof.
  intros Hok Hu E Hmid Hev Hb Hk Hlv. pose proof (not_using_foreign _ _ _ _ Hok Hu) as Hfor.
  destruct (ok_data _ _ _ _ Hok) as (x & Hx & Hxl). pose proof (ok_store _ _ _ _ Hok) as Hs.
  assert (data_blk p <> next st) as Hne by (intros E'; rewrite E', store_ok_next in Hx; done).
  pose proof (frags_not_fresh st _ Hs (ok_frags _ _ _ _ Hok)) as Hnf.
  destruct Hok as [_ _ Hf Hby Hl Ha Hh _ _]. unfold nr_frags in Ha. rewrite E in *.
  apply Forall_app in Hf as [Hf1 Hf2], Hfor as [Hr1 Hr2], Hnf as [Hn1 Hn2].
  apply Forall_app in Hf2 as [Hf2 Hf3], Hr2 as [_ Hr3], Hn2 as [_ Hn3].
  rewrite !bytes_of_app in Hby. pose proof (zlen_bytes_of st mid Hf2) as Hz.
  pose proof (total_size_nonneg st mid Hf2).
  assert (Hfr : frag_ok st' (Fragment (next st) 0 (total_size mid))).
  { exists (bytes_of st mid). cbn. rewrite Hz. split_and!; done || lia. }
  constructor; cbn; try done.
  - apply Hev.
  - destruct Hev as (_ & _ & He). destruct (He _ _ Hx) as (y & ? & ? & _). exists y. split; congruence.
  - apply Forall_app. split; [by eapply frags_ok_evolves|].
    constructor; [done|by eapply frags_ok_evolves].
  - rewrite bytes_of_app, bytes_of_cons, !(bytes_of_evolves st st' (next st)) by done.
    rewrite <- Hby. f_equal. f_equal. unfold frag_bytes. cbn. rewrite Hb. cbn.
    rewrite <- Hz. apply slice_all.
  - unfold nr_frags. cbn. rewrite !zlen_app in *. rewrite zlen_cons.
    destruct mid as [|g mid]; [done|]. rewrite zlen_cons in Ha. pose proof (zlen_nonneg mid). lia.
  - unfold own_data_first. cbn. destruct pre as [|g pre]; cbn.
    + split; [by intros ?; destruct Hne|done].
    + apply Forall_cons in Hr1 as [? ?]. split; [done|]. apply Forall_app. split; [done|].
      by constructor; [apply not_eq_sym|].
  - apply Forall_app in Hlv as [? ?]. apply Forall_app. split; [done|]. constructor; [|done].
    right. right. by left.
Qed.

(** Nothing but empty fragments is left once the sizes of the others add up. *)
Lemma rest_empty st fs : Forall (frag_ok st) fs -> total_size fs <= 0 -> Forall (fun f => fsize f = 0) fs.
Proof.
  induction 1 as [|f fs Hf Hfs IH]; [constructor|]. rewrite total_size_cons. intros H.
  pose proof (frag_size_nonneg st f Hf). pose proof (total_size_nonneg st fs Hfs).
  constructor; [lia|]. apply IH. lia.
Qed.

(** [linearize(at_frag, desired)]: the fragments from [at_frag] on that make up
    [desired] bytes become one fragment; the bytes of the packet stay. *)
Lemma linearize_ok st p bs i desired :
  pkt_ok st p bs -> (i < length (frags p))%nat -> 0 < desired -> desired <= total_size (drop i (frags p)) ->
  exists st' p', linearize garbage st p i desired = Some (st', p') /\ pkt_ok st' p' bs /\
    steps st p st' p' /\ oi p' = oi p /\
    exists f, frags p' !! i = Some f /\ foff f = 0 /\ desired <= fsize f /\
      take i (map fsize (frags p')) = take i (map fsize (frags p)).
Proof.
  intros Hok Hi Hd Htot. unfold linearize.
  destruct (unuse_ok st p bs Hok) as (st1 & p1 & -> & Hok1 & Hev1 & Hb1 & Hu1 & Hm1 & Ha1 & Hoi & _).
  cbn [mbind option_bind]. pose proof (ok_frags _ _ _ _ Hok1) as Hf1.
  assert (length (frags p1) = length (frags p)) as Hlen by
    (apply (f_equal length) in Hm1; by rewrite !length_map in Hm1).
  assert (Htot1 : total_size (drop i (frags p1)) = total_size (drop i (frags p))).
  { assert (forall fs, total_size fs = foldr Z.add 0 (map fsize fs)) as Ht by
      (intros fs; induction fs; cbn; f_equal; done).
    rewrite !Ht, <- !skipn_map. by rewrite Hm1. }
  pose proof (take_drop i (frags p1)) as Esplit.
  assert (Hdr : Forall (frag_ok st1) (drop i (frags p1))) by by apply Forall_drop.
  destruct (scan_frags_spec st1 0 desired (drop i (frags p1)) Hdr ltac:(lia)) as (n & -> & Hn & Hdn & Hn0).
  cbn [mbind option_bind]. rewrite Z.add_0_l in *.
  set (mid := take n (drop i (frags p1))) in *. set (post := drop n (drop i (frags p1))).
  assert (Emid : frags p1 = take i (frags p1) ++ mid ++ post).
  { unfold mid, post. by rewrite !take_drop. }
  assert (Hmid : Forall (frag_ok st1) mid) by by apply Forall_take.
  assert (Hmid0 : mid <> []).
  { intros E. rewrite E, total_size_nil in Hdn. lia. }
  destruct (malloc_write garbage st1 (bytes_of st1 mid) (ok_store _ _ _ _ Hok1)) as
    (st2 & st3 & Em & Ew & Hev2 & Hev3 & Hb3 & Hfr).
  rewrite zlen_bytes_of in Em by done. rewrite Em, (read_frags_ok st2) by (by eapply frags_ok_evolves).
  rewrite (bytes_of_evolves st1 st2 (next st1)) by
    (done || (apply frags_not_fresh; [apply Hok1|done])).
  cbn [mbind option_bind]. rewrite Ew. cbn [mbind option_bind].
  assert (Hst : steps st p st3 p1).
  { eapply steps_trans; [by eapply unuse_steps|]. apply steps_fresh; [apply Hok1|done|by left]. }
  assert (Hco : forall d, next st1 ∈ dl_keeps d ->
    Forall (live static (data_blk p1) d) (take i (frags p1) ++ post) ->
    pkt_ok st3 (with_deleter (with_frags p1 (take i (frags p1) ++ Fragment (next st1) 0 (total_size mid) :: post)) d) bs).
  { intros d Hk Hlv. by apply (coalesce_ok st1). }
  set (p2 := with_frags p1 (take i (frags p1) ++ Fragment (next st1) 0 (total_size mid) :: post)).
  assert (Hbound : nr_frags p2 <= allocated_frags p2).
  { pose proof (ok_alloc _ _ _ _ Hok1) as [Ha _]. unfold nr_frags in *. cbn. rewrite Emid in Ha at 1.
    rewrite !zlen_app in *. rewrite zlen_cons.
    destruct mid as [|g mid']; [done|]. rewrite zlen_cons in Ha. pose proof (zlen_nonneg mid'). lia. }
  apply Z.leb_le in Hbound. rewrite Hbound. cbn [negb].
  assert (Hlv : Forall (live static (data_blk p1) (deleter p1)) (take i (frags p1) ++ post)).
  { pose proof (ok_live _ _ _ _ Hok1) as Hlv. rewrite Emid in Hlv. apply Forall_app in Hlv as [? Hlv].
    apply Forall_app in Hlv as [_ ?]. by apply Forall_app. }
  do 2 eexists. split; [reflexivity|]. split; [|split; [|split]].
  - destruct (Nat.eqb_spec i 0) as [->|]; [destruct (Z.eqb_spec desired (len p2)) as [->|]|]; cbn [andb].
    + apply Hco; [rewrite dl_keeps_free; by apply elem_of_singleton|]. cbn [take app].
      eapply Forall_impl; [apply (rest_empty st1)|by left]; [by apply Forall_drop|].
      assert (len p2 = zlen bs) as E by apply Hok1.
      pose proof (zlen_bytes_of st1 (frags p1) Hf1) as Hz. rewrite (ok_bytes _ _ _ _ Hok1), Emid in Hz.
      change (take 0 (frags p1)) with (@nil fragment) in Hz |- *.
      rewrite !app_nil_l in *. rewrite total_size_app in Hz. lia.
    + apply Hco; [rewrite dl_keeps_append, dl_keeps_free; by apply elem_of_union_r, elem_of_singleton|].
      eapply live_mono; [|exact Hlv]. rewrite dl_keeps_append. apply union_subseteq_l.
    + apply Hco; [rewrite dl_keeps_append, dl_keeps_free; by apply elem_of_union_r, elem_of_singleton|].
      eapply live_mono; [|exact Hlv]. rewrite dl_keeps_append. apply union_subseteq_l.
  - destruct (Nat.eqb i 0 && _)%bool; exact Hst.
  - destruct (Nat.eqb i 0 && _)%bool; exact Hoi.
  - assert (length (take i (frags p1)) = i) as Hti by (rewrite length_take; lia).
    exists (Fragment (next st1) 0 (total_size mid)).
    replace (frags (if (_ && _)%bool then _ else _)) with (frags p2) by (by destruct (Nat.eqb i 0 && _)%bool).
    unfold p2. cbn [frags with_frags]. split_and!; try done.
    + by rewrite list_lookup_middle.
    + rewrite map_app, take_app_length' by (by rewrite length_map).
      by rewrite <- skipn_O, <- firstn_map, Hm1.
Qed.

(** *** Header access *)

(** A range inside one fragment is the range of the packet's bytes. *)
Lemma frag_read st p bs i f o n :
  pkt_ok st p bs -> frags p !! i = Some f -> 0 <= o -> 0 <= n -> o + n <= fsize f ->
  st_read st (fblk f) (foff f + o) n = Some (slice (total_size (take i (frags p)) + o) n bs).
Proof.
  intros Hok Hi Ho Hn Hr. pose proof (ok_frags _ _ _ _ Hok) as Hf.
  rewrite <- (ok_bytes _ _ _ _ Hok). rewrite <- (take_drop_middle _ _ _ Hi) in Hf.
  rewrite <- (take_drop_middle _ _ _ Hi) at 2. apply Forall_app in Hf as [Hf1 Hf2].
  apply Forall_cons in Hf2 as [Hf2 _].
  pose proof (zlen_bytes_of st _ Hf1) as Hz. pose proof (total_size_nonneg st _ Hf1).
  pose proof (zlen_frag_bytes st f Hf2) as Hzf.
  rewrite bytes_of_app, bytes_of_cons. destruct Hf2 as (x & Hx & H1 & H2 & H3).
  unfold st_read. rewrite Hx, (proj2 (in_range_true _ _ _)) by lia. f_equal.
  unfold slice at 2. unfold zlen in Hz, Hzf.
  rewrite drop_app, (drop_ge (bytes_of st (take i (frags p)))) by lia.
  replace (_ - _)%nat with (Z.to_nat o) by lia. cbn [app].
  rewrite drop_app_le, take_app_le by (rewrite ?length_drop; lia).
  change (slice (foff f + o) n x = slice o n (frag_bytes st f)).
  unfold frag_bytes. rewrite Hx. cbn. by rewrite slice_slice by lia.
Qed.

Lemma find_frag_spec st offset i fs :
  Forall (frag_ok st) fs -> 0 <= offset < total_size fs ->
  exists o j f, find_frag offset i fs = Some (o, (i + j)%nat, f) /\ fs !! j = Some f /\
    0 <= o < fsize f /\ offset = total_size (take j fs) + o.
Proof.
  intros Hf. revert offset i. induction Hf as [|f fs Hf Hfs IH]; intros offset i Ho.
  { rewrite total_size_nil in Ho. lia. }
  rewrite total_size_cons in Ho. cbn [find_frag]. pose proof (frag_size_nonneg st f Hf).
  destruct (Z.leb_spec (fsize f) offset).
  - destruct (IH (offset - fsize f) (S i) ltac:(lia)) as (o & j & g & -> & Hj & ? & E).
    exists o, (S j), g. cbn [take]. rewrite total_size_cons. split_and!; try done; try lia.
    do 3 f_equal. lia.
  - exists offset, O, f. rewrite Nat.add_0_r. cbn [take]. rewrite total_size_nil.
    split_and!; done || lia.
Qed.

Lemma total_size_take_map i (fs gs : list fragment) :
  take i (map fsize fs) = take i (map fsize gs) -> total_size (take i fs) = total_size (take i gs).
Proof.
  assert (forall l, total_size l = foldr Z.add 0 (map fsize l)) as Ht by
    (intros l; induction l; cbn; f_equal; done).
  rewrite !Ht, !firstn_map. congruence.
Qed.

Lemma get_header_null st p bs offset size :
  pkt_ok st p bs -> zlen bs < offset + size -> get_header garbage st p offset size = Some (st, p, None).
Proof.
  intros Hok H. unfold get_header. destruct (ok_len _ _ _ _ Hok) as [-> _].
  by destruct (Z.ltb_spec (zlen bs) (offset + size)); [|lia].
Qed.

(** [get_header(offset, size)] makes the range contiguous and returns its address. *)
Lemma get_header_spec st p bs offset size :
  pkt_ok st p bs -> 0 <= offset -> 0 < size -> offset + size <= zlen bs ->
  exists st' p' b off, get_header garbage st p offset size = Some (st', p', Some (b, off)) /\
    pkt_ok st' p' bs /\ steps st p st' p' /\ oi p' = oi p /\
    st_read st' b off size = Some (slice offset size bs).
Proof.
  intros Hok Ho Hs Hr. unfold get_header. destruct (ok_len _ _ _ _ Hok) as [Hl _]. rewrite Hl.
  destruct (Z.ltb_spec (zlen bs) (offset + size)); [lia|].
  pose proof (ok_frags _ _ _ _ Hok) as Hf.
  pose proof (zlen_bytes_of st _ Hf) as Hz. rewrite (ok_bytes _ _ _ _ Hok) in Hz.
  destruct (find_frag_spec st offset 0 (frags p) Hf ltac:(lia)) as (o & i & f & -> & Hi & Hof & ->).
  cbn [Nat.add]. destruct (Z.ltb_spec (fsize f) (o + size)) as [Hc|Hc].
  - pose proof (lookup_lt_Some _ _ _ Hi) as Hlt.
    destruct (linearize_ok st p bs i (o + size) Hok Hlt ltac:(lia)) as
      (st' & p' & -> & Hok' & Hst & Hoi & g & Hg & Hg0 & Hgs & Hm).
    { pose proof (take_drop i (frags p)) as E. apply (f_equal total_size) in E.
      rewrite total_size_app in E. lia. }
    cbn [mbind option_bind]. rewrite Hg. exists st', p', (fblk g), (foff g + o).
    split_and!; try done. rewrite (frag_read st' p' bs i g o size) by (done || lia).
    by rewrite (total_size_take_map _ _ _ Hm).
  - cbn [mbind option_bind]. rewrite Hi. exists st, p, (fblk f), (foff f + o).
    split_and!; try done; [by apply steps_refl, Hok|]. apply (frag_read st p bs i f); done || lia.
Qed.

(** *** Sharing *)

Lemma seek_frags_spec st offset fs :
  Forall (frag_ok st) fs -> 0 <= offset <= total_size fs ->
  exists o pre rest, seek_frags offset fs = Some (o, rest) /\ fs = pre ++ rest /\ 0 <= o /\
    offset = total_size pre + o /\ (0 < o -> exists f fs', rest = f :: fs' /\ o < fsize f).
Proof.
  intros Hf. revert offset. induction Hf as [|f fs Hf Hfs IH]; intros offset Ho.
  - rewrite total_size_nil in Ho. exists offset, [], []. cbn [seek_frags].
    destruct (Z.ltb_spec 0 offset); [lia|]. rewrite total_size_nil. split_and!; done || lia.
  - rewrite total_size_cons in Ho. cbn [seek_frags]. destruct (Z.ltb_spec 0 offset).
    + destruct (Z.leb_spec (fsize f) offset).
      * destruct (IH (offset - fsize f) ltac:(lia)) as (o & pre & rest & -> & -> & ? & ? & ?).
        exists o, (f :: pre), rest. rewrite total_size_cons. split_and!; done || lia.
      * exists offset, [], (f :: fs). rewrite total_size_nil. split_and!; try done; try lia.
        intros _. eauto.
    + exists offset, [], (f :: fs). rewrite total_size_nil. split_and!; done || lia.
Qed.

(** A fragment narrowed to a range of it. *)
Lemma narrow_ok st f o n :
  frag_ok st f -> 0 <= o -> 0 <= n -> o + n <= fsize f ->
  frag_ok st (Fragment (fblk f) (foff f + o) n) /\
  frag_bytes st (Fragment (fblk f) (foff f + o) n) = slice o n (frag_bytes st f).
Proof.
  intros (x & Hx & ? & ? & ?) Ho Hn Hr. split.
  - exists x. cbn. split_and!; done || lia.
  - unfold frag_bytes. cbn. rewrite Hx. cbn. by rewrite slice_slice by lia.
Qed.

Lemma slice_app_split {A} (l k : list A) o n :
  0 <= o <= zlen l -> zlen l <= o + n ->
  slice o n (l ++ k) = slice o (zlen l - o) l ++ slice 0 (n - (zlen l - o)) k.
Proof.
  unfold slice, zlen. intros. rewrite drop_app_le, take_app by lia.
  rewrite !(take_ge (drop _ l)) by (rewrite length_drop; lia).
  rewrite length_drop, drop_0. do 2 f_equal. lia.
Qed.

Lemma share_frags_spec st (Q : fragment -> Prop) o n fs :
  (forall f o n, 0 <= o -> 0 <= n -> o + n <= fsize f -> Q f -> Q (Fragment (fblk f) (foff f + o) n)) ->
  Forall (frag_ok st) fs -> Forall Q fs -> 0 <= o -> 0 <= n -> o + n <= total_size fs ->
  (0 < o -> exists f fs', fs = f :: fs' /\ o < fsize f) ->
  exists gs, share_frags o n fs = Some gs /\ Forall (frag_ok st) gs /\ Forall Q gs /\
    bytes_of st gs = slice o n (bytes_of st fs) /\ (length gs <= length fs)%nat.
Proof.
  intros HQ Hf. revert o n. induction Hf as [|f fs Hf Hfs IH]; intros o n HQs Ho Hn Hr Hin.
  - rewrite total_size_nil in Hr. exists []. cbn [share_frags]. destruct (Z.ltb_spec 0 n); [lia|].
    replace n with 0 by lia. split_and!; done.
  - apply Forall_cons in HQs as [HQf HQs]. rewrite total_size_cons in Hr. cbn [share_frags].
    destruct (Z.ltb_spec 0 n) as [H|H].
    2: { exists []. replace n with 0 by lia. split_and!; try done. cbn. lia. }
    assert (o <= fsize f) as Hof.
    { pose proof (frag_size_nonneg st f Hf). destruct (Z.eq_dec o 0); [lia|].
      destruct (Hin ltac:(lia)) as (? & ? & [= <- <-] & ?). lia. }
    pose proof (total_size_nonneg st fs Hfs).
    remember (Z.min n (fsize f - o)) as sz eqn:Esz.
    destruct (IH 0 (n - sz) HQs ltac:(lia) ltac:(lia) ltac:(lia) ltac:(lia)) as
      (gs & -> & Hg & HQg & Hb & Hl). cbn [mbind option_bind].
    destruct (narrow_ok st f o sz Hf ltac:(lia) ltac:(lia) ltac:(lia)) as [Hf' Hb'].
    eexists. split; [done|]. pose proof (zlen_frag_bytes st f Hf) as Hz. split_and!.
    + by constructor.
    + constructor; [apply HQ; done || lia|done].
    + rewrite !bytes_of_cons, Hb', Hb. destruct (Z.le_gt_cases (fsize f - o) n).
      * rewrite (slice_app_split (frag_bytes st f)) by lia. rewrite Hz.
        by rewrite Esz, Z.min_r by lia.
      * rewrite Esz, Z.min_l, Z.sub_diag by lia. unfold slice.
        change (Z.to_nat 0) with O. rewrite take_0, app_nil_r.
        unfold zlen in Hz. by rewrite drop_app_le, take_app_le by (rewrite ?length_drop; lia).
    + cbn. lia.
Qed.

(** A fresh packet filled with fragments that live elsewhere. *)
Lemma filled_ok st (n : impl) gs gbs (d : D) o :
  pkt_ok st n [] -> Forall (frag_ok st) gs -> bytes_of st gs = gbs -> zlen gbs < 2 ^ 32 ->
  zlen gs <= allocated_frags n -> Forall (fun g => fblk g <> data_blk n) gs ->
  Forall (live static (data_blk n) d) gs ->
  pkt_ok st (Impl d (u32 (total_size gs)) (allocated_frags n) o (rss_hash n) (data_blk n) (headroom n) gs) gbs.
Proof.
  intros [Hs Hd Hf Hb Hl Ha Hh Ho Hlv] Hgs Hgb Hlen Hn Hne Hglv.
  pose proof (zlen_bytes_of st gs Hgs) as Hz. rewrite Hgb in Hz. pose proof (zlen_nonneg gbs).
  constructor; cbn; try done.
  - rewrite wrap_small by lia. done.
  - unfold nr_frags in *. cbn in *. lia.
  - unfold own_data_first. cbn. destruct gs as [|g gs]; [done|].
    apply Forall_cons in Hne as [? ?]. done.
Qed.

(** [share(offset, len)]: a packet with that range of the bytes; the original
    keeps its bytes, and its buffers are now shared. *)
Lemma share_spec st p bs offset n :
  pkt_ok st p bs -> 0 <= offset -> 0 <= n -> offset + n <= zlen bs -> nr_frags p <= 32767 ->
  exists st' p' q, share garbage st p offset n = Some (st', p', q) /\
    pkt_ok st' p' bs /\ pkt_ok st' q (slice offset n bs) /\ oi q = oi p /\
    evolves st st' (next st) /\
    Forall (fun g => fblk g <> data_blk p' /\ fblk g <> data_blk q) (frags p' ++ frags q).
Proof.
  intros Hok Ho Hn Hr Hnr. unfold share. pose proof (ok_store _ _ _ _ Hok) as Hs.
  destruct (unuse_ok st p bs Hok) as (st1 & p1 & -> & Hok1 & Hev1 & Hb1 & Hu1 & Hm1 & Ha1 & Hoi & _).
  rewrite <- (nr_frags_map _ _ Hm1) in Hnr. pose proof (ok_store _ _ _ _ Hok1) as Hs1.
  cbn [mbind option_bind]. unfold packet_empty.
  destruct (allocate_spec st1 1 Hs1 ltac:(lia)) as
    (st2 & n2 & -> & Hev2 & Hn2 & Hbn & Hfn & Han & Hhn & _ & _ & Hfr).
  cbn [mbind option_bind]. pose proof (nr_frags_nonneg p1).
  assert (nr_frags n2 = 0) as Hn20 by (unfold nr_frags; by rewrite Hfn).
  destruct (allocate_if_needed_ok st2 n2 [] (nr_frags p1) Hn2 ltac:(done) ltac:(lia)) as
    (st3 & n3 & -> & Hn3 & Hst3 & Ha3 & _ & _ & Hm3). cbn [mbind option_bind].
  pose proof (frags_not_fresh st1 _ Hs1 (ok_frags _ _ _ _ Hok1)) as Hnf.
  assert (Hok2 : pkt_ok st2 p1 bs) by (by eapply pkt_ok_evolves).
  rewrite <- Hbn in Hnf. destruct (pkt_ok_steps _ _ _ _ _ _ Hst3 Hok2 Hnf) as [Hok3 Hnf3].
  pose proof (not_using_foreign _ _ _ _ Hok3 Hu1) as Hfor.
  pose proof (ok_frags _ _ _ _ Hok3) as Hf3. pose proof (zlen_bytes_of st3 _ Hf3) as Hz.
  rewrite (ok_bytes _ _ _ _ Hok3) in Hz.
  destruct (seek_frags_spec st3 offset (frags p1) Hf3 ltac:(lia)) as
    (o & pre & rest & -> & Efs & Ho' & -> & Hin). cbn [mbind option_bind].
  assert (Hpre : bs = bytes_of st3 pre ++ bytes_of st3 rest /\ zlen (bytes_of st3 pre) = total_size pre /\
     Forall (frag_ok st3) rest).
  { rewrite Efs in Hf3. apply Forall_app in Hf3 as [Hf3 Hf3'].
    by rewrite <- bytes_of_app, <- Efs, (ok_bytes _ _ _ _ Hok3), (zlen_bytes_of st3). }
  destruct Hpre as (Hbs & Hzp & Hrest).
  set (Q := fun f => (fblk f <> data_blk p1 /\ fblk f <> data_blk n3) /\
                     live static (data_blk p1) (deleter p1) f).
  assert (HQ : Forall Q (frags p1)).
  { unfold Q. rewrite !Forall_and. split_and!; try done. apply Hok3. }
  rewrite Efs in HQ, Hz. apply Forall_app in HQ as [_ HQ]. rewrite total_size_app in Hz.
  destruct (share_frags_spec st3 Q o n rest) as (gs & -> & Hg & HQg & Hgb & Hgl); try done; try lia.
  { unfold Q, live. cbn. intros f o' n' ? ? ? [? [?|[?|?]]]; split; auto. left. lia. }
  cbn [mbind option_bind]. exists st3, p1. eexists. split; [done|].
  unfold Q in HQg. rewrite Forall_and in HQg. destruct HQg as [HQ1 HQ2].
  assert (Hsl : slice (total_size pre + o) n bs = slice o n (bytes_of st3 rest)).
  { pose proof (total_size_nonneg st3 pre). rewrite Hbs at 1. unfold slice, zlen in *.
    rewrite drop_app, (drop_ge (bytes_of st3 pre)) by lia. cbn [app]. do 2 f_equal. lia. }
  destruct (ok_len _ _ _ _ Hok) as [_ Hl32].
  split_and!; try done.
  - rewrite Hsl. apply filled_ok; try done.
    + rewrite <- Hsl. rewrite zlen_slice by lia. lia.
    + unfold nr_frags in *. rewrite Hfn, zlen_nil in Ha3. rewrite Efs, zlen_app in Ha3.
      pose proof (zlen_nonneg pre). unfold zlen in *. lia.
    + eapply Forall_impl; [exact HQ1|by intros g []].
    + apply (live_mono _ (deleter p1)); [by rewrite dl_keeps_share|].
      eapply live_foreign; [exact HQ2|]. eapply Forall_impl; [exact HQ1|by intros g []].
  - assert (evolves st1 st3 (next st1)) as Hev13.
    { eapply evolves_trans; [exact Hev2|apply Hst3|by left]. }
    eapply evolves_trans; [exact Hev1|exact Hev13|right].
    eapply evolves_none; [exact Hev1|by apply store_ok_next].
  - apply Forall_app. split; [by apply Forall_and|exact HQ1].
Qed.

(** *** Construction *)

(** [packet(fragment, deleter)]: the caller's buffer becomes the packet. *)
Lemma packet_zero_copy_spec st frag (d : D) :
  store_ok st -> frag_ok st frag -> fsize frag < 2 ^ 32 -> live static (next st) d frag ->
  exists st' p, packet_zero_copy garbage st frag d = Some (st', p) /\
    pkt_ok st' p (frag_bytes st frag) /\ evolves st st' (next st) /\ data_blk p = next st.
Proof.
  intros Hs Hf Hsz Hl. unfold packet_zero_copy.
  destruct (allocate_spec st 1 Hs ltac:(lia)) as (st1 & n & -> & Hev & Hn & Hb & Hfr & Ha & Hh & _ & _ & _).
  cbn [mbind option_bind]. do 2 eexists. split; [done|]. split_and!; try done.
  pose proof (frag_ok_not_fresh st frag Hs Hf) as Hnf.
  pose proof (filled_ok st1 n [frag] (frag_bytes st frag) d (oi n) Hn) as H.
  cbn in H. rewrite Z.add_0_r in H. unfold with_len, with_frags, with_deleter. cbn.
  apply H; clear H.
  - constructor; [by eapply frag_ok_evolves|done].
  - rewrite bytes_of_cons. change (bytes_of st1 []) with (@nil Z). rewrite app_nil_r.
    by apply (frag_bytes_evolves st st1 (next st)).
  - by rewrite zlen_frag_bytes.
  - rewrite Ha, zlen_cons, zlen_nil. lia.
  - constructor; [by rewrite Hb|done].
  - rewrite Hb. by constructor.
Qed.

(** [packet(fragment)]: small data goes to the end of the header area, so that
    headers can be put in front of it; larger data to a buffer of its own. *)
Lemma packet_copying_spec st frag :
  store_ok st -> frag_ok st frag -> 0 < fsize frag < 2 ^ 32 ->
  exists st' p, packet_copying garbage st frag = Some (st', p) /\
    pkt_ok st' p (frag_bytes st frag) /\ evolves st st' (next st) /\ data_blk p = next st /\
    nr_frags p = 1.
Proof.
  intros Hs Hf Hsz. unfold packet_copying, default_nr_frags.
  destruct (allocate_spec st 4 Hs ltac:(lia)) as (st1 & n & -> & Hev & Hn & Hb & Hfr & Ha & Hh & Hdl & _ & _).
  cbn [mbind option_bind]. pose proof (frag_ok_not_fresh st frag Hs Hf) as Hnf.
  pose proof (frag_ok_evolves _ _ _ _ Hev Hf) as Hf1. pose proof (zlen_frag_bytes st frag Hf) as Hz.
  pose proof (frag_bytes_evolves _ _ _ _ Hev Hf Hnf) as Hfb. pose proof (ok_store _ _ _ _ Hn) as Hs1.
  destruct (ok_data _ _ _ _ Hn) as (x & Hx & Hxl).
  destruct (Z.leb_spec (fsize frag) internal_data_size) as [Hc|Hc].
  - rewrite (read_frag_ok st1 frag Hf1), Hfb. cbn [mbind option_bind headroom with_len data_blk].
    rewrite Hh. destruct (st_write_spec st1 (data_blk n) (internal_data_size - fsize frag)
      (frag_bytes st frag) x Hs1 Hx ltac:(lia) ltac:(lia)) as (st2 & -> & Hev2 & _ & Hb2).
    cbn [mbind option_bind]. do 2 eexists. split; [done|].
    rewrite Hb in Hev2. split; [|split_and!; try done; eapply evolves_trans; [exact Hev|exact Hev2|by left]].
    destruct Hn as [_ _ _ _ _ Han _ _ _]. constructor; cbn; try done.
    + apply Hev2.
    + eexists. split; [exact Hb2|]. rewrite zlen_splice by lia. done.
    + constructor; [|done]. eexists. cbn. split; [exact Hb2|].
      rewrite zlen_splice by lia. lia.
    + rewrite bytes_of_cons. change (bytes_of st2 []) with (@nil Z). rewrite app_nil_r.
      unfold frag_bytes at 1. cbn. rewrite Hb2. cbn. rewrite <- Hz. apply slice_splice. lia.
    + rewrite wrap_small by lia. lia.
    + unfold nr_frags, default_nr_frags. cbn. rewrite Ha, zlen_cons, zlen_nil. lia.
    + lia.
    + split; [|done]. intros _. cbn. lia.
    + constructor; [by right; left|done].
  - destruct (malloc_write garbage st1 (frag_bytes st frag) Hs1) as
      (st2 & st3 & Em & Ew & Hev2 & Hev3 & Hb3 & _).
    rewrite Hz in Em. rewrite Em, (read_frag_ok st2) by (by eapply frag_ok_evolves).
    rewrite (frag_bytes_evolves st1 st2 (next st1)), Hfb by (done || by apply frag_ok_not_fresh).
    cbn [mbind option_bind]. rewrite Ew. cbn [mbind option_bind].
    do 2 eexists. split; [done|].
    split; [|split_and!; try done; eapply evolves_trans; [exact Hev|exact Hev3|
      right; eapply evolves_none; [exact Hev|by apply store_ok_next]]].
    assert (Hn3 : pkt_ok st3 n []).
    { eapply pkt_ok_evolves; [done|exact Hev3|]. by rewrite Hfr. }
    pose proof (filled_ok st3 n [Fragment (next st1) 0 (fsize frag)] (frag_bytes st frag)
      (dl_append (deleter n) (dl_free (next st1))) (oi n) Hn3) as H.
    cbn in H. rewrite Z.add_0_r in H. unfold with_len, with_frags, with_deleter. cbn.
    assert (data_blk n <> next st1) as Hne by (intros E; rewrite E, store_ok_next in Hx; done).
    apply H; clear H; try done.
    + constructor; [|done]. exists (frag_bytes st frag). cbn. split_and!; done || lia.
    + rewrite bytes_of_cons. change (bytes_of st3 []) with (@nil Z). rewrite app_nil_r.
      unfold frag_bytes at 1. cbn. rewrite Hb3. cbn. rewrite <- Hz. apply slice_all.
    + lia.
    + rewrite Ha, zlen_cons, zlen_nil. lia.
    + constructor; [by apply not_eq_sym|done].
    + constructor; [|done]. right. right. left. rewrite dl_keeps_append, dl_keeps_free.
      by apply elem_of_union_r, elem_of_singleton.
Qed.

End PacketFacts.
