(* ===== verification/PacketSpec.v ===== *)
(** * What a packet promises to the layers above it

    The operations of [Packet] as operations on byte strings, with concrete
    packets on which each theorem applies, and the two places where the code
    does not keep its promise. *)

From S2P Require Import Prelude Packet PacketFacts.
From stdpp Require Import base numbers option gmap list.

#[local] Open Scope Z_scope.

(** A deleter is the set of buffers that it keeps. *)
#[export, refine] Instance set_deleter : DeleterOps (gset nat) := {
  dl_empty := ∅;
  dl_free b := {[b]};
  dl_append d e := d ∪ e;
  dl_share d := d;
  dl_keeps d := d }.
Proof. all: done. Defined.

(** ** A concrete store: two header areas and a buffer of ten bytes *)

Definition ex_garbage : block_id -> nat -> Z := fun b i => Z.of_nat b.
Definition ex_store : store :=
  Store (<[0%nat := repeat 7 112]> (<[1%nat := repeat 8 112]> (<[2%nat := [1;2;3;4;5;6;7;8;9;10]]> ∅))) 3%nat.

(** A packet of twelve bytes in its header area and four in the buffer, and one
    of the other six bytes of the buffer. *)
Definition ex_x : @Packet.impl (gset nat) :=
  Impl {[2%nat]} 16 4 offload_info_default None 0%nat 100 [Fragment 0%nat 100 12; Fragment 2%nat 0 4].
Definition ex_p : @Packet.impl (gset nat) :=
  Impl {[2%nat]} 6 4 offload_info_default None 1%nat 112 [Fragment 2%nat 4 6].
Definition ex_small : @Packet.impl (gset nat) :=
  Impl ∅ 10 4 offload_info_default None 0%nat 102 [Fragment 0%nat 102 10].
Definition ex_xs : list Z := repeat 7 12 ++ [1;2;3;4].

Lemma ex_store_ok : store_ok ex_store.
Proof.
  intros b Hb. cbn in Hb. unfold ex_store. cbn [blocks].
  rewrite !lookup_insert_ne by lia. apply lookup_empty.
Qed.

Ltac ex_frag := eexists; split; [vm_compute; reflexivity|vm_compute; split_and!; congruence].
Ltac ex_live :=
  first [right; left; reflexivity | right; right; left; cbn; by apply elem_of_singleton].
Ltac ex_own := split; [intros _; vm_compute; split; congruence|repeat constructor; done].

Ltac ex_pkt :=
  constructor;
  [ exact ex_store_ok
  | eexists; split; vm_compute; reflexivity
  | repeat (constructor; [ex_frag|]); constructor
  | vm_compute; reflexivity
  | split; vm_compute; reflexivity
  | split; [split|]; vm_compute; congruence
  | split; vm_compute; congruence
  | first [ex_own | split; [done|constructor]]
  | repeat (constructor; [ex_live|]); constructor ].

Lemma ex_x_ok : pkt_ok ∅ ex_store ex_x ex_xs.
Proof. ex_pkt. Qed.

Lemma ex_p_ok : pkt_ok ∅ ex_store ex_p [5;6;7;8;9;10].
Proof. ex_pkt. Qed.

Lemma ex_small_ok : pkt_ok ∅ ex_store ex_small (repeat 7 10).
Proof. ex_pkt. Qed.

(** ** The packet operations *)

Section Spec.
Context {D : Type} {DL : DeleterOps D} (garbage : block_id -> nat -> Z) (static : gset nat).

(** [packet::prepend_uninitialized_header] on a well-formed packet: it
    succeeds, and whatever [size] header bytes are then stored at the address it
    returns, the store stays inside its buffers and the packet is well formed
    with the header in front of its old bytes; no buffer other than the packet's
    own header area changes.  (All three cases: room in the header area, room
    after moving internal data out, a new buffer.) *)
Theorem prepend_uninitialized_header_spec st (p : @Packet.impl D) bs size :
  pkt_ok static st p bs -> 0 < size -> nr_frags p + 1 <= 32767 -> zlen bs + size < 2 ^ 32 ->
  exists st' p' b off,
    prepend_uninitialized_header garbage st p size = Some (st', p', (b, off)) /\
    steps st p st' p' /\
    forall hdr, zlen hdr = size -> exists st'', st_write st' b off hdr = Some st'' /\
      pkt_ok static st'' p' (hdr ++ bs) /\ steps st p st'' p'.
Proof. intros. by apply prepend_header_ok. Qed.

(** [packet::append] concatenates: appending a packet whose buffers are not
    the header area of the other gives a well-formed packet with the bytes of
    both, kept alive by both deleters; no assertion fails and no other buffer
    changes. *)
Theorem packet_append_concat st (x p : @Packet.impl D) xs ps :
  pkt_ok static st x xs -> pkt_ok static st p ps ->
  Forall (fun g => fblk g <> data_blk x) (frags p) ->
  nr_frags x + nr_frags p <= 32767 -> zlen xs + zlen ps < 2 ^ 32 ->
  exists st' r, packet_append garbage st x p = Some (st', r) /\ pkt_ok static st' r (xs ++ ps) /\
    evolves st st' (data_blk x).
Proof. intros. by apply packet_append_spec. Qed.

(** [packet::trim_front] and [packet::trim_back] drop bytes at the ends and
    keep packets well formed, provided that [trim_back] does not cut into a
    fragment of the header area. *)
Theorem packet_trim st (p : @Packet.impl D) bs front back :
  pkt_ok static st p bs -> 0 <= front -> 0 <= back -> front + back <= zlen bs ->
  trim_back_safe p back ->
  exists p1 p2, trim_back p back = Some p1 /\ trim_front p1 front = Some p2 /\
    pkt_ok static st p2 (slice front (zlen bs - front - back) bs) /\ deleter p2 = deleter p.
Proof.
  intros Hok Hf Hb Hfb Hs.
  destruct (trim_back_spec static st p bs back Hok ltac:(lia) Hs) as (p1 & E1 & Hok1 & _ & Hd1 & _).
  destruct (trim_front_spec static st p1 _ front Hok1) as (p2 & E2 & Hok2 & _ & Hd2 & _).
  { rewrite zlen_take by lia. lia. }
  exists p1, p2. split_and!; try done; [|congruence].
  replace (slice front (zlen bs - front - back) bs) with
    (drop (Z.to_nat front) (take (Z.to_nat (zlen bs - back)) bs)); [done|].
  unfold slice. rewrite skipn_firstn_comm. f_equal. lia.
Qed.

(** [packet::get_header(offset, size)]: the returned address holds the
    [size] bytes at [offset], contiguously, even when they cross fragments (then
    the packet is linearized from there); the packet keeps its bytes.  Beyond
    the end the null pointer is returned and nothing changes. *)
Theorem packet_get_header st (p : @Packet.impl D) bs offset size :
  pkt_ok static st p bs -> 0 <= offset -> 0 < size ->
  if zlen bs <? offset + size then get_header garbage st p offset size = Some (st, p, None)
  else exists st' p' b off, get_header garbage st p offset size = Some (st', p', Some (b, off)) /\
    pkt_ok static st' p' bs /\ steps st p st' p' /\
    st_read st' b off size = Some (slice offset size bs).
Proof.
  intros Hok Ho Hs. destruct (Z.ltb_spec (zlen bs) (offset + size)).
  - by eapply get_header_null.
  - destruct (get_header_spec garbage static st p bs offset size Hok Ho Hs ltac:(lia))
      as (st' & p' & b & off & ? & ? & ? & _ & ?). eauto 10.
Qed.

(** [packet::share(offset, len)]: the share is a well-formed packet with
    that range of the bytes and the offload information of the original, the
    original keeps its bytes, existing buffers are untouched, and neither packet
    points into the header area of either, so that later headers of one never
    show in the other. *)
Theorem packet_share st (p : @Packet.impl D) bs offset n :
  pkt_ok static st p bs -> 0 <= offset -> 0 <= n -> offset + n <= zlen bs -> nr_frags p <= 32767 ->
  exists st' p' q, share garbage st p offset n = Some (st', p', q) /\
    pkt_ok static st' p' bs /\ pkt_ok static st' q (slice offset n bs) /\ oi q = oi p /\
    evolves st st' (next st) /\
    Forall (fun g => fblk g <> data_blk p' /\ fblk g <> data_blk q) (frags p' ++ frags q).
Proof. intros. by apply share_spec. Qed.

(** A copied packet can take a header: constructing a packet from up to
    [2^32 - 1] bytes and prepending [size] bytes gives the two in order. *)
Theorem packet_copy_then_prepend st frag hdr :
  store_ok st -> frag_ok st frag -> 0 < fsize frag -> 0 < zlen hdr ->
  zlen hdr + fsize frag < 2 ^ 32 ->
  exists st1 (p1 : @Packet.impl D) st2 p2 b off st3, packet_copying garbage st frag = Some (st1, p1) /\
    prepend_uninitialized_header garbage st1 p1 (zlen hdr) = Some (st2, p2, (b, off)) /\
    st_write st2 b off hdr = Some st3 /\ contents st3 p2 = Some (hdr ++ frag_bytes st frag).
Proof.
  intros Hs Hf H1 H2 H3. pose proof (zlen_nonneg hdr).
  destruct (packet_copying_spec garbage static st frag Hs Hf ltac:(lia)) as
    (st1 & p1 & E1 & Hok1 & _ & _ & Hn).
  pose proof (zlen_frag_bytes st frag Hf) as Hz.
  destruct (prepend_header_ok garbage static st1 p1 _ (zlen hdr) Hok1 H2 ltac:(lia) ltac:(lia)) as
    (st2 & p2 & b & off & E2 & _ & Hw).
  destruct (Hw hdr eq_refl) as (st3 & E3 & Hok3 & _).
  exists st1, p1, st2, p2, b, off, st3. split_and!; try done.
  unfold contents. rewrite read_frags_ok by apply Hok3. f_equal. apply Hok3.
Qed.

(** [packet::trim_back] overstates the headroom: after cutting [k] bytes off
    a packet of one fragment in the header area, [_headroom] is [k] more than
    the bytes before the fragment, and a header of a size between the two is
    placed before the start of [_data]: whatever is stored there is an access
    outside the buffer. *)
Theorem trim_back_headroom_overrun st (p : @Packet.impl D) bs f k size :
  pkt_ok static st p bs -> frags p = [f] -> fblk f = data_blk p -> headroom p = foff f ->
  0 < k < len p -> foff f < size <= foff f + k ->
  exists p' st' p'' b off, trim_back p k = Some p' /\ headroom p' = foff f + k /\
    prepend_uninitialized_header garbage st p' size = Some (st', p'', (b, off)) /\
    b = data_blk p /\ off < 0 /\
    forall hdr, st_write st' b off hdr = None.
Proof.
  intros Hok Ef Hb Hh Hk Hsz. pose proof (ok_frags _ _ _ _ Hok) as Hf. rewrite Ef in Hf.
  apply Forall_cons in Hf as [Hf _]. destruct (ok_len _ _ _ _ Hok) as [Hl _].
  assert (zlen bs = fsize f) as Hz.
  { rewrite <- (ok_bytes _ _ _ _ Hok), Ef, bytes_of_cons. change (bytes_of st []) with (@nil Z).
    rewrite app_nil_r. by apply zlen_frag_bytes. }
  pose proof (ok_own _ _ _ _ Hok) as Ho. unfold own_data_first in Ho. rewrite Ef in Ho.
  destruct Ho as [Ho _]. specialize (Ho Hb).
  assert (0 <= foff f) as H0 by (destruct Hf as (? & _ & ? & _); done).
  assert (forall q : @Packet.impl D, frags q = [Fragment (fblk f) (foff f) (fsize f - k)] -> data_blk q = data_blk p ->
    using_internal_data q = true) as Hu.
  { intros q Eq Ed. apply using_internal_spec. do 2 eexists. split; [exact Eq|]. cbn. rewrite Ed.
    split_and!; done || lia. }
  unfold trim_back. destruct (Z.leb_spec k (len p)); [|lia]. cbn [frags with_len with_frags].
  rewrite Ef. cbn [rev app skip_frags]. destruct (Z.eqb_spec k 0); [lia|]. cbn [negb andb].
  destruct (Z.leb_spec (fsize f) k); [lia|]. cbn [negb]. destruct (Z.eqb_spec k 0); [lia|].
  cbn [negb]. rewrite Hu by done. do 5 eexists. split; [reflexivity|].
  cbn [headroom with_frags with_len with_headroom]. split; [lia|].
  unfold prepend_uninitialized_header, allocate_headroom.
  cbn [headroom with_frags with_len with_headroom data_blk len].
  destruct (Z.leb_spec size (headroom p + k)); [|lia].
  rewrite Hu by done. cbn. split; [done|]. rewrite Hb. split_and!; [done|lia|].
  intros hdr. unfold st_write. destruct (blocks st !! _); [|done].
  destruct (in_range l (foff f - size) (zlen hdr)) eqn:E; [|done].
  apply in_range_true in E. lia.
Qed.

End Spec.

(** ** Witnesses *)

Lemma prepend_uninitialized_header_spec_witness :
  exists st' p' b off,
    prepend_uninitialized_header ex_garbage ex_store ex_x 20 = Some (st', p', (b, off)) /\
    steps ex_store ex_x st' p' /\
    forall hdr, zlen hdr = 20 -> exists st'', st_write st' b off hdr = Some st'' /\
      pkt_ok ∅ st'' p' (hdr ++ ex_xs) /\ steps ex_store ex_x st'' p'.
Proof.
  apply (prepend_uninitialized_header_spec ex_garbage ∅ ex_store ex_x ex_xs 20 ex_x_ok);
    vm_compute; congruence.
Defined.

Lemma packet_append_concat_witness :
  exists st' r, packet_append ex_garbage ex_store ex_x ex_p = Some (st', r) /\
    pkt_ok ∅ st' r (repeat 7 12 ++ [1;2;3;4;5;6;7;8;9;10]) /\ evolves ex_store st' 0%nat.
Proof.
  apply (packet_append_concat ex_garbage ∅ ex_store ex_x ex_p ex_xs [5;6;7;8;9;10] ex_x_ok ex_p_ok).
  - repeat constructor; done.
  - vm_compute; congruence.
  - vm_compute; congruence.
Defined.

Lemma packet_trim_witness :
  exists p1 p2, trim_back ex_x 3 = Some p1 /\ trim_front p1 11 = Some p2 /\
    pkt_ok ∅ ex_store p2 [7; 1] /\ deleter p2 = deleter ex_x.
Proof.
  apply (packet_trim ∅ ex_store ex_x ex_xs 11 3 ex_x_ok); try (vm_compute; congruence).
  right. right. vm_compute. congruence.
Defined.

Lemma packet_get_header_witness :
  exists st' p' b off, get_header ex_garbage ex_store ex_x 10 4 = Some (st', p', Some (b, off)) /\
    pkt_ok ∅ st' p' ex_xs /\ steps ex_store ex_x st' p' /\
    st_read st' b off 4 = Some [7; 7; 1; 2].
Proof.
  exact (packet_get_header ex_garbage ∅ ex_store ex_x ex_xs 10 4 ex_x_ok ltac:(done) ltac:(done)).
Defined.

Lemma packet_share_witness :
  exists st' p' q, share ex_garbage ex_store ex_x 10 4 = Some (st', p', q) /\
    pkt_ok ∅ st' p' ex_xs /\ pkt_ok ∅ st' q [7; 7; 1; 2] /\ oi q = oi ex_x /\
    evolves ex_store st' 3%nat /\
    Forall (fun g => fblk g <> data_blk p' /\ fblk g <> data_blk q) (frags p' ++ frags q).
Proof.
  apply (packet_share ex_garbage ∅ ex_store ex_x ex_xs 10 4 ex_x_ok); vm_compute; congruence.
Defined.

Lemma packet_copy_then_prepend_witness :
  exists st1 (p1 : @Packet.impl (gset nat)) st2 p2 b off st3,
    packet_copying ex_garbage ex_store (Fragment 2%nat 0 10) = Some (st1, p1) /\
    prepend_uninitialized_header ex_garbage st1 p1 2 = Some (st2, p2, (b, off)) /\
    st_write st2 b off [69; 0] = Some st3 /\
    contents st3 p2 = Some [69; 0; 1;2;3;4;5;6;7;8;9;10].
Proof.
  apply (packet_copy_then_prepend ex_garbage ∅ ex_store (Fragment 2%nat 0 10) [69; 0] ex_store_ok);
    [ex_frag|vm_compute; congruence..].
Defined.

Lemma trim_back_headroom_overrun_witness :
  exists p' st' p'' b off, trim_back ex_small 4 = Some p' /\ headroom p' = 106 /\
    prepend_uninitialized_header ex_garbage ex_store p' 104 = Some (st', p'', (b, off)) /\
    b = 0%nat /\ off < 0 /\ forall hdr, st_write st' b off hdr = None.
Proof.
  apply (trim_back_headroom_overrun ex_garbage ∅ ex_store ex_small (repeat 7 10) (Fragment 0%nat 102 10) 4 104
    ex_small_ok); vm_compute; done.
Defined.
