(* ===== verification/TcpSeq.v ===== *)
(** * Sequence numbers: include/nil/actor/network/tcp.hh, [tcp_seq]

    A sequence number is a 32-bit value; differences are signed, so that the
    comparisons are those of the distance between two numbers. *)

From S2P Require Import Prelude.
From stdpp Require Import base numbers list.

#[local] Open Scope Z_scope.

(** [struct tcp_seq { uint32_t raw; };] *)
Record tcp_seq := make_seq { raw : Z }.

#[export] Instance tcp_seq_eq_dec : EqDecision tcp_seq.
Proof. solve_decision. Defined.

(** The arithmetic is on [uint32_t]; a difference is converted to [int32_t]. *)
Definition seq_add (s : tcp_seq) (n : Z) : tcp_seq := make_seq (u32 (raw s + n)).
Definition seq_sub (s : tcp_seq) (n : Z) : tcp_seq := make_seq (u32 (raw s - n)).
Definition seq_diff (s q : tcp_seq) : Z := s32 (raw s - raw q).
Definition seq_eqb (s q : tcp_seq) : bool := raw s =? raw q.
Definition seq_neb (s q : tcp_seq) : bool := negb (seq_eqb s q).
Definition seq_ltb (s q : tcp_seq) : bool := seq_diff s q <? 0.
Definition seq_gtb (s q : tcp_seq) : bool := seq_ltb q s.
Definition seq_leb (s q : tcp_seq) : bool := negb (seq_gtb s q).
Definition seq_geb (s q : tcp_seq) : bool := negb (seq_ltb s q).

Declare Scope seq_scope.
Delimit Scope seq_scope with seq.
Notation "s + n" := (seq_add s n) : seq_scope.
Notation "s <? q" := (seq_ltb s q) : seq_scope.
Notation "s <=? q" := (seq_leb s q) : seq_scope.
Notation "s >? q" := (seq_gtb s q) : seq_scope.
Notation "s >=? q" := (seq_geb s q) : seq_scope.
Notation "s =? q" := (seq_eqb s q) : seq_scope.

(** ** The number line seen from a base *)

(** The position of [s] relative to [base]. *)
Definition seq_pos (base s : tcp_seq) : Z := seq_diff s base.

(** [s] lies less than [2^30] away from [base]. *)
Definition near (base s : tcp_seq) : Prop := - 2 ^ 30 <= seq_pos base s < 2 ^ 30.

(** Sequence numbers are values of [uint32_t]. *)
Definition seq_ok (s : tcp_seq) : Prop := is_uint 32 (raw s).

Lemma s32_cong a : exists k, s32 a = a + k * 2 ^ 32.
Proof.
  unfold s32, wrap. pow2. destruct (_ <? _); [exists (- (a / 4294967296))|exists (- (a / 4294967296) - 1)]; zlia.
Qed.

Lemma s32_eq a b : (exists k, a = b + k * 2 ^ 32) -> s32 a = s32 b.
Proof. intros [k ->]. unfold s32, wrap. by rewrite Z.mod_add by lia. Qed.

Lemma seq_diff_pos base s q :
  near base s -> near base q -> seq_diff s q = seq_pos base s - seq_pos base q.
Proof.
  unfold near, seq_pos, seq_diff. intros Hs Hq.
  destruct (s32_cong (raw s - raw base)) as [k1 E1], (s32_cong (raw q - raw base)) as [k2 E2].
  rewrite <- (s32_small (s32 (raw s - raw base) - s32 (raw q - raw base))).
  - apply s32_eq. exists (k2 - k1). lia.
  - change (2 ^ 30) with 1073741824 in *. pow2. lia.
Qed.

Section Window.
Variable base : tcp_seq.
Abbreviation pos := (seq_pos base).
Abbreviation near := (near base).

(** Inside the window the comparisons are those of the positions. *)
Lemma seq_ltb_pos s q : near s -> near q -> seq_ltb s q = (pos s <? pos q).
Proof. intros. unfold seq_ltb. rewrite (seq_diff_pos base) by done. bcase; lia. Qed.

Lemma seq_gtb_pos s q : near s -> near q -> seq_gtb s q = (pos q <? pos s).
Proof. intros. unfold seq_gtb. by apply seq_ltb_pos. Qed.

Lemma seq_leb_pos s q : near s -> near q -> seq_leb s q = (pos s <=? pos q).
Proof. intros. unfold seq_leb. rewrite seq_gtb_pos by done. bcase; cbn; lia. Qed.

Lemma seq_geb_pos s q : near s -> near q -> seq_geb s q = (pos q <=? pos s).
Proof. intros. unfold seq_geb. rewrite seq_ltb_pos by done. bcase; cbn; lia. Qed.

Lemma seq_add_pos s n : - 2 ^ 31 <= pos s + n < 2 ^ 31 -> pos (seq_add s n) = pos s + n.
Proof.
  unfold seq_pos, seq_diff. intros H. cbn [raw seq_add].
  rewrite <- (s32_small (s32 (raw s - raw base) + n)) by done.
  destruct (s32_cong (raw s - raw base)) as [k E]. apply s32_eq. rewrite E.
  exists (- ((raw s + n) / 2 ^ 32) - k). unfold wrap. pow2. zlia.
Qed.

Lemma seq_sub_add s n : seq_sub s n = seq_add s (- n).
Proof. unfold seq_sub, seq_add. by rewrite Z.sub_opp_r || (do 2 f_equal; lia). Qed.

Lemma seq_pos_inj s q : seq_ok s -> seq_ok q -> pos s = pos q -> s = q.
Proof.
  unfold seq_pos, seq_diff, seq_ok, is_uint. destruct s as [s], q as [q], base as [b]. cbn.
  intros Hs Hq E. destruct (s32_cong (s - b)) as [k1 E1], (s32_cong (q - b)) as [k2 E2].
  f_equal. pow2. nia.
Qed.

Lemma seq_eqb_pos s q : seq_ok s -> seq_ok q -> seq_eqb s q = (pos s =? pos q).
Proof.
  intros. unfold seq_eqb. destruct (Z.eqb_spec (pos s) (pos q)) as [E|E].
  - apply seq_pos_inj in E; [|done|done]. rewrite E. apply Z.eqb_refl.
  - apply Z.eqb_neq. intros E'. apply E. destruct s, q. cbn in E'. by rewrite E'.
Qed.

End Window.

Lemma seq_pos_base s : seq_pos s s = 0.
Proof. unfold seq_pos, seq_diff. by rewrite Z.sub_diag. Qed.

Lemma near_base s : near s s.
Proof. unfold near. rewrite seq_pos_base. lia. Qed.

Lemma seq_add_ok s n : seq_ok (seq_add s n).
Proof. unfold seq_ok, is_uint. cbn. apply wrap_range. lia. Qed.

Lemma seq_add_add s n m : seq_add (seq_add s n) m = seq_add s (n + m).
Proof. unfold seq_add. cbn. by rewrite wrap_add_l, Z.add_assoc. Qed.

Lemma seq_add_0 s : seq_ok s -> seq_add s 0 = s.
Proof. destruct s. unfold seq_ok, seq_add, is_uint. cbn. intros. by rewrite Z.add_0_r, wrap_small. Qed.
