(* ===== verification/PacketMerger.v ===== *)
(** * Merging out-of-order segments: include/nil/actor/network/packet-util.hh

    [packet_merger<Offset, Tag>] is used with [uint32_t] offsets for IP
    fragments and with sequence numbers for TCP segments.  The model is generic
    in the offsets; a segment's packet is its byte string. *)

From Stdlib Require Import Sorting.Sorted.
From S2P Require Import Prelude TcpSeq.
From stdpp Require Import base numbers option list.

#[local] Open Scope Z_scope.

(** The operators of [Offset] that the class uses. *)
Class OffsetOps (O : Type) := {
  o_add : O -> Z -> O;
  o_sub : O -> O -> Z;
  o_lt : O -> O -> bool;
  o_le : O -> O -> bool
}.

#[export] Instance uint32_offset : OffsetOps Z := {
  o_add a n := u32 (a + n);
  o_sub a b := u32 (a - b);
  o_lt := Z.ltb;
  o_le := Z.leb }.

#[export] Instance tcp_seq_offset : OffsetOps tcp_seq := {
  o_add := seq_add;
  o_sub := seq_diff;
  o_lt := seq_ltb;
  o_le := seq_leb }.

Section Merger.
Context {O : Type} {OO : OffsetOps O}.

(** [std::map<Offset, packet> map], in key order. *)
Definition seg_map := list (O * list Z).

(** [p.trim_front(n)]: asserts that [n] is at most the length. *)
Definition trim (n : Z) (p : list Z) : option (list Z) :=
  if (0 <=? n) && (n <=? zlen p) then Some (drop (Z.to_nat n) p) else None.

(** How the scan of the first loop ends. *)
Inductive scan :=
  | Covered                              (* case 1: [return] *)
  | Inserting (m : seg_map) (p : list Z) (* [insert]: the remaining map, the packet *)
  | Kept (m : seg_map).                  (* case 4: the old segment is kept *)

Definition scan_cons (s : O * list Z) (r : scan) : scan :=
  match r with
  | Covered => Covered
  | Inserting m p => Inserting (s :: m) p
  | Kept m => Kept (s :: m)
  end.

(** The first loop of [merge]. *)
Fixpoint merge_scan (beg : O) (p : list Z) (m : seg_map) : option scan :=
  match m with
  | [] => Some (Inserting [] p)
  | (seg_beg, seg_pkt) :: m' =>
      let end_ := o_add beg (zlen p) in
      let seg_end := o_add seg_beg (zlen seg_pkt) in
      if o_le seg_beg beg && o_le end_ seg_end then Some Covered
      else if o_le beg seg_beg && o_le seg_end end_ then Some (Inserting m' p)
      else if o_lt beg seg_beg && o_le seg_beg end_ && o_le end_ seg_end then
        rest ← trim (o_sub end_ seg_beg) seg_pkt;
        Some (Inserting m' (p ++ rest))
      else if o_le seg_beg beg && o_le beg seg_end && o_lt seg_end end_ then
        rest ← trim (o_sub seg_end beg) p;
        Some (Kept ((seg_beg, seg_pkt ++ rest) :: m'))
      else
        r ← merge_scan beg p m';
        Some (scan_cons (seg_beg, seg_pkt) r)
  end.

(** [map.emplace(beg, p)]: nothing happens when the key exists. *)
Fixpoint emplace (beg : O) (p : list Z) (m : seg_map) : seg_map :=
  match m with
  | [] => [(beg, p)]
  | (b, q) :: m' =>
      if o_lt beg b then (beg, p) :: m
      else if o_lt b beg then (b, q) :: emplace beg p m' else m
  end.

(** The second loop: [seg] is the segment under the iterator.  [None] is
    [abort()] or a failed assertion. *)
Fixpoint merge_adjacent (seg_beg : O) (seg_pkt : list Z) (rest : seg_map) : option seg_map :=
  match rest with
  | [] => Some [(seg_beg, seg_pkt)]
  | (beg, p) :: rest' =>
      let seg_end := o_add seg_beg (zlen seg_pkt) in
      let end_ := o_add beg (zlen p) in
      if o_le seg_beg beg && o_le beg seg_end && o_lt seg_end end_ then
        q ← trim (o_sub seg_end beg) p;
        merge_adjacent seg_beg (seg_pkt ++ q) rest'
      else if o_le end_ seg_end then merge_adjacent seg_beg seg_pkt rest'
      else if o_lt seg_end beg then
        m ← merge_adjacent beg p rest';
        Some ((seg_beg, seg_pkt) :: m)
      else None
  end.

(** [packet_merger::merge]: the map and how many linearizations it took. *)
Definition merge (beg : O) (p : list Z) (m : seg_map) : option (seg_map * Z) :=
  r ← merge_scan beg p m;
  match r with
  | Covered => Some (m, 0)
  | Inserting m p =>
      match emplace beg p m with
      | (b, q) :: rest => m ← merge_adjacent b q rest; Some (m, 1)
      | [] => Some ([], 1)
      end
  | Kept ((b, q) :: rest) => m ← merge_adjacent b q rest; Some (m, 1)
  | Kept [] => Some ([], 1)
  end.

End Merger.
Arguments seg_map : clear implicits.
Arguments scan : clear implicits.

(** The keys of the result are keys of the map, or the new one. *)
Section Keys.
Context {O : Type} {OO : OffsetOps O} (P : O -> Prop).
Abbreviation keys m := (Forall (fun s : O * list Z => P (fst s)) m).

Lemma merge_scan_keys b p m r :
  P b -> keys m -> merge_scan b p m = Some r ->
  match r with Covered => True | Inserting m' _ => keys m' | Kept m' => keys m' end.
Proof.
  intros Hb. revert r. induction m as [|[c q] m IH]; intros r Hm; cbn [merge_scan].
  { intros [= <-]. constructor. }
  apply Forall_cons in Hm as [Hc Hm].
  destruct (_ && _)%bool; [by intros [= <-]|]. destruct (_ && _)%bool; [by intros [= <-]|].
  destruct (_ && _)%bool.
  { destruct (trim _ _); [|done]. by intros [= <-]. }
  destruct (_ && _)%bool.
  { destruct (trim _ _); [|done]. intros [= <-]. by constructor. }
  destruct (merge_scan b p m) as [r'|]; [|done]. intros [= <-]. specialize (IH _ Hm eq_refl).
  destruct r'; [done|by constructor|by constructor].
Qed.

Lemma emplace_keys b p m : P b -> keys m -> keys (emplace b p m).
Proof.
  intros Hb Hm. induction Hm as [|[c q] m Hc Hm IH]; cbn [emplace]; [by constructor|].
  destruct (o_lt b c); [by constructor; [|constructor]|]. destruct (o_lt c b); by constructor.
Qed.

Lemma merge_adjacent_keys b p m m' : P b -> keys m -> merge_adjacent b p m = Some m' -> keys m'.
Proof.
  intros Hb Hm. revert b p m' Hb. induction Hm as [|[c q] m Hc Hm IH]; intros b p m' Hb; cbn [merge_adjacent].
  { intros [= <-]. by constructor. }
  destruct (_ && _)%bool; [destruct (trim _ _); [by apply IH|done]|]. destruct (o_le _ _); [by apply IH|].
  destruct (o_lt _ _); [|done]. destruct (merge_adjacent c q m) as [l|] eqn:E; [|done]. intros [= <-].
  constructor; [done|]. exact (IH _ _ _ Hc E).
Qed.

Lemma merge_keys b p m m' n : P b -> keys m -> merge b p m = Some (m', n) -> keys m'.
Proof.
  intros Hb Hm. unfold merge. destruct (merge_scan b p m) as [r|] eqn:E; [|done]. cbn.
  pose proof (merge_scan_keys _ _ _ _ Hb Hm E) as Hr.
  assert (Hadj : forall l, keys l -> match l with [] => Some ([], 1) | (c, q) :: rest =>
     x ← merge_adjacent c q rest; Some (x, 1) end = Some (m', n) -> keys m').
  { intros [|[c q] l] Hl; [intros [= <- _]; constructor|]. apply Forall_cons in Hl as [? ?].
    destruct (merge_adjacent c q l) eqn:Ea; [|done]. intros [= <- _]. by eapply merge_adjacent_keys. }
  destruct r as [|m1 p1|m1]; [by intros [= <- _]|apply Hadj, emplace_keys; done|by apply Hadj].
Qed.
End Keys.

(** ** Specification *)

(** The bytes [a, a + n) of a stream. *)
Definition range (d : Z -> Z) (a n : Z) : list Z := map (fun i => d (a + Z.of_nat i)) (seq 0 (Z.to_nat n)).

Lemma zlen_range d a n : 0 <= n -> zlen (range d a n) = n.
Proof. intros. unfold zlen, range. rewrite length_map, length_seq. lia. Qed.

Lemma range_app d a n m : 0 <= n -> 0 <= m -> range d a n ++ range d (a + n) m = range d a (n + m).
Proof.
  intros. unfold range. rewrite Z2Nat.inj_add, seq_app, map_app by lia. f_equal.
  rewrite Nat.add_0_l, <- (Nat.add_0_r (Z.to_nat n)) at 1.
  rewrite <- fmap_add_seq, <- list_fmap_compose. apply map_ext. intros i. cbn. f_equal. lia.
Qed.

Lemma drop_range d a n k : 0 <= k <= n -> drop (Z.to_nat k) (range d a n) = range d (a + k) (n - k).
Proof.
  intros. replace n with (k + (n - k)) at 1 by lia. rewrite <- range_app by lia.
  apply drop_app_length'. pose proof (zlen_range d a k ltac:(lia)) as E. unfold zlen in E. lia.
Qed.

(** A class of offsets is a window of the integers: inside it, the operators are
    those of the positions. *)
Class OffsetWindow {O} (OO : OffsetOps O) (pos : O -> Z) (inw : O -> Prop) (hi : Z) := {
  w_add : forall a n, inw a -> 0 <= n -> pos a + n <= hi -> inw (o_add a n) /\ pos (o_add a n) = pos a + n;
  w_sub : forall a b, inw a -> inw b -> pos b <= pos a -> o_sub a b = pos a - pos b;
  w_lt : forall a b, inw a -> inw b -> o_lt a b = (pos a <? pos b);
  w_le : forall a b, inw a -> inw b -> o_le a b = (pos a <=? pos b)
}.

Section Spec.
Context {O : Type} {OO : OffsetOps O} {pos : O -> Z} {inw : O -> Prop} {hi : Z}.
Context {W : OffsetWindow OO pos inw hi}.

(** The stream whose bytes arrive. *)
Variable d : Z -> Z.

Definition seg_end (s : O * list Z) : Z := pos (fst s) + zlen (snd s).

(** A segment of the stream, inside the window. *)
Definition seg_ok (s : O * list Z) : Prop :=
  inw (fst s) /\ seg_end s <= hi /\ snd s = range d (pos (fst s)) (zlen (snd s)).

Definition starts_before (s t : O * list Z) : Prop := pos (fst s) <= pos (fst t).
Definition apart (s t : O * list Z) : Prop := seg_end s < pos (fst t).

(** Segments of the stream, in order, with a gap between any two of them. *)
Definition merged (m : seg_map O) : Prop := Forall seg_ok m /\ StronglySorted apart m.

Definition in_seg (x : Z) (s : O * list Z) : Prop := pos (fst s) <= x < seg_end s.
Definition covers (m : seg_map O) (x : Z) : Prop := Exists (in_seg x) m.

Lemma seg_end_window s : seg_ok s -> inw (o_add (fst s) (zlen (snd s))) /\
  pos (o_add (fst s) (zlen (snd s))) = seg_end s.
Proof. intros (H1 & H2 & _). apply w_add; [done|apply zlen_nonneg|exact H2]. Qed.

Lemma seg_ok_range b n : inw b -> 0 <= n -> pos b + n <= hi -> seg_ok (b, range d (pos b) n).
Proof. intros. unfold seg_ok, seg_end. cbn. rewrite zlen_range by done. done. Qed.

(** Extending a segment by the part of an overlapping one that reaches further. *)
Lemma extend_seg b p c q n :
  seg_ok (b, p) -> seg_ok (c, q) -> pos b <= pos c <= seg_end (b, p) ->
  seg_end (b, p) < seg_end (c, q) \/ seg_end (b, p) = seg_end (c, q) -> n = seg_end (b, p) - pos c ->
  exists r, trim n q = Some r /\ p ++ r = range d (pos b) (seg_end (c, q) - pos b).
Proof.
  intros (Hb1 & Hb2 & Hb3) (Hc1 & Hc2 & Hc3) Hle Hend ->. unfold seg_end in *. cbn [fst snd] in *.
  pose proof (zlen_nonneg p). pose proof (zlen_nonneg q). unfold trim.
  destruct (Z.leb_spec 0 (pos b + zlen p - pos c)); [|lia].
  destruct (Z.leb_spec (pos b + zlen p - pos c) (zlen q)); [|lia]. cbn [andb].
  eexists. split; [done|]. 
  transitivity (range d (pos b) (zlen p) ++
    drop (Z.to_nat (pos b + zlen p - pos c)) (range d (pos c) (zlen q))); [by rewrite <- Hb3, <- Hc3|].
  rewrite drop_range by lia.
  replace (pos c + (pos b + zlen p - pos c)) with (pos b + zlen p) by lia.
  rewrite range_app by lia. f_equal. lia.
Qed.

Lemma seg_ok_extend b p c q :
  seg_ok (b, p) -> seg_ok (c, q) -> pos b <= seg_end (c, q) ->
  seg_ok (b, range d (pos b) (seg_end (c, q) - pos b)) /\
  seg_end (b, range d (pos b) (seg_end (c, q) - pos b)) = seg_end (c, q).
Proof.
  intros (Hb1 & _) (_ & Hc2 & _) Hle. split.
  - apply seg_ok_range; [done|lia|lia].
  - unfold seg_end at 1. cbn. rewrite zlen_range by lia. lia.
Qed.

Lemma covers_cons s m x : covers (s :: m) x <-> in_seg x s \/ covers m x.
Proof. apply Exists_cons. Qed.

Lemma covers_nil x : ~ covers [] x.
Proof. intros H. by apply Exists_nil in H. Qed.

(** The second loop merges any list of segments that is ordered by start. *)
Lemma merge_adjacent_spec b p rest :
  seg_ok (b, p) -> Forall seg_ok rest -> StronglySorted starts_before ((b, p) :: rest) ->
  exists out, merge_adjacent b p rest = Some out /\ merged out /\
    (forall x, covers out x <-> covers ((b, p) :: rest) x) /\
    Forall (fun t => pos b <= pos (fst t)) out.
Proof.
  revert b p. induction rest as [|[c q] rest IH]; intros b p Hb Hr Hs.
  { exists [(b, p)]. split_and!; [done| |done|].
    - split; [by constructor|repeat constructor].
    - constructor; [cbn; lia|done]. }
  apply Forall_cons in Hr as [Hc Hr]. apply StronglySorted_inv in Hs as [Hs Hbs].
  apply Forall_cons in Hbs as [Hbc Hbs]. unfold starts_before in Hbc. cbn [fst] in Hbc.
  destruct (seg_end_window _ Hb) as [Wb Eb], (seg_end_window _ Hc) as [Wc Ec]. cbn [fst snd] in *.
  pose proof Hb as (Ib & _ & _). pose proof Hc as (Ic & _ & _). cbn [fst] in *.
  assert (pos b <= seg_end (b, p)) by (unfold seg_end; cbn; pose proof (zlen_nonneg p); lia).
  assert (pos c <= seg_end (c, q)) by (unfold seg_end; cbn; pose proof (zlen_nonneg q); lia).
  apply StronglySorted_inv in Hs as [Hs Hcs].
  cbn [merge_adjacent]. rewrite !w_le, !w_lt by done. rewrite !Eb, !Ec.
  destruct ((pos b <=? pos c) && (pos c <=? seg_end (b, p)) && (seg_end (b, p) <? seg_end (c, q)))%bool eqn:E1.
  - b2p. rewrite w_sub, Eb by (done || lia).
    destruct (extend_seg b p c q _ Hb Hc ltac:(lia) ltac:(lia) eq_refl) as (r & -> & Er).
    cbn [mbind option_bind]. rewrite Er.
    destruct (seg_ok_extend b p c q Hb Hc ltac:(lia)) as [Hok Eend].
    destruct (IH b _ Hok Hr) as (out & Eo & Hm & Hcv & Hf); [by constructor|].
    exists out. split_and!; try done. intros x. rewrite Hcv, !covers_cons. unfold in_seg. rewrite Eend.
    cbn [fst]. assert (pos b <= x < seg_end (c, q) <->
      pos b <= x < seg_end (b, p) \/ pos c <= x < seg_end (c, q)) by lia. tauto.
  - destruct (Z.leb_spec (seg_end (c, q)) (seg_end (b, p))).
    + destruct (IH b p Hb Hr) as (out & Eo & Hm & Hcv & Hf); [by constructor|].
      exists out. split_and!; try done. intros x. rewrite Hcv, !covers_cons. unfold in_seg. cbn [fst].
      assert (pos c <= x < seg_end (c, q) -> pos b <= x < seg_end (b, p)) by lia. tauto.
    + assert (seg_end (b, p) < pos c) as Hgap.
      { destruct (Z.leb_spec (pos b) (pos c)); [|lia]. destruct (Z.leb_spec (pos c) (seg_end (b, p))); [|lia].
        destruct (Z.ltb_spec (seg_end (b, p)) (seg_end (c, q))); [done|lia]. }
      destruct (Z.ltb_spec (seg_end (b, p)) (pos c)); [|lia].
      destruct (IH c q Hc Hr) as (out & -> & [Hm1 Hm2] & Hcv & Hf); [by constructor|].
      cbn [mbind option_bind]. exists ((b, p) :: out). split_and!; [done| | |].
      * split; [by constructor|]. constructor; [done|]. eapply Forall_impl; [exact Hf|].
        intros t Ht. unfold apart. cbn in *. lia.
      * intros x. rewrite !covers_cons, Hcv, covers_cons. tauto.
      * constructor; [cbn; lia|]. eapply Forall_impl; [exact Hf|]. cbn. lia.
Qed.

(** Where the new segment goes. *)
Lemma emplace_spec b p m :
  seg_ok (b, p) -> Forall seg_ok m -> StronglySorted starts_before m ->
  Forall (fun t => pos (fst t) <> pos b) m ->
  Forall seg_ok (emplace b p m) /\ StronglySorted starts_before (emplace b p m) /\
  (forall x, covers (emplace b p m) x <-> in_seg x (b, p) \/ covers m x) /\
  (forall P : O * list Z -> Prop, P (b, p) -> Forall P m -> Forall P (emplace b p m)).
Proof.
  intros Hb. induction m as [|[c q] m IH]; intros Hm Hs Hne.
  { cbn [emplace]. split_and!; [by constructor|by repeat constructor| |].
    - intros x. apply covers_cons.
    - intros P HP _. by constructor. }
  apply Forall_cons in Hm as [Hc Hm], Hne as [Hbc Hne]. cbn [fst] in Hbc.
  pose proof Hb as (Ib & _ & _). pose proof Hc as (Ic & _ & _). cbn [fst] in Ib, Ic.
  cbn [emplace]. rewrite !w_lt by done. apply StronglySorted_inv in Hs as [Hs Hcs].
  destruct (Z.ltb_spec (pos b) (pos c)).
  - split_and!.
    + constructor; [done|by constructor].
    + constructor; [by constructor|]. constructor; [unfold starts_before; cbn; lia|].
      eapply Forall_impl; [exact Hcs|]. unfold starts_before. cbn. lia.
    + intros x. by rewrite covers_cons.
    + intros P HP HPm. by constructor.
  - destruct (Z.ltb_spec (pos c) (pos b)); [|lia].
    destruct (IH Hm Hs Hne) as (H1 & H2 & H3 & H4). split_and!.
    + by constructor.
    + constructor; [done|]. apply H4; [unfold starts_before; cbn; lia|done].
    + intros x. rewrite !covers_cons, H3. tauto.
    + intros P HP HPm. apply Forall_cons in HPm as [? ?]. constructor; [done|]. by apply H4.
Qed.

Lemma merged_sorted m : Forall seg_ok m -> StronglySorted apart m -> StronglySorted starts_before m.
Proof.
  intros Hok Hs. induction Hs as [|s m Hs IH Hf]; [constructor|].
  apply Forall_cons in Hok as [_ Hok]. constructor; [by apply IH|]. eapply Forall_impl; [exact Hf|].
  intros t Ht. unfold apart, starts_before, seg_end in *. pose proof (zlen_nonneg (snd s)). lia.
Qed.

(** What the first loop leaves, by the way it ends. *)
Definition scan_ok (b : O) (p : list Z) (m : seg_map O) (r : scan O) : Prop :=
  match r with
  | Covered => forall x, in_seg x (b, p) -> covers m x
  | Inserting m' p' =>
      seg_ok (b, p') /\ Forall seg_ok m' /\ StronglySorted starts_before m' /\
      Forall (fun t => pos (fst t) <> pos b) m' /\
      forall x, in_seg x (b, p') \/ covers m' x <-> in_seg x (b, p) \/ covers m x
  | Kept m' =>
      m' <> [] /\ Forall seg_ok m' /\ StronglySorted starts_before m' /\
      forall x, covers m' x <-> in_seg x (b, p) \/ covers m x
  end.

Lemma merge_scan_spec b p m :
  seg_ok (b, p) -> merged m ->
  exists r, merge_scan b p m = Some r /\ scan_ok b p m r /\
    (forall s, Forall (starts_before s) m ->
       match r with Covered => True | Inserting m' _ | Kept m' => Forall (starts_before s) m' end).
Proof.
  intros Hb. induction m as [|[c q] m IH]; intros [Hok Hs].
  { exists (Inserting [] p). split_and!; [done| |done]. cbn. split_and!; done || constructor. }
  pose proof (merged_sorted _ Hok Hs) as Hss.
  apply Forall_cons in Hok as [Hc Hok]. apply StronglySorted_inv in Hs as [Hs Hgap].
  apply StronglySorted_inv in Hss as [Hss Hcs].
  destruct (seg_end_window _ Hb) as [Wb Eb], (seg_end_window _ Hc) as [Wc Ec]. cbn [fst snd] in *.
  pose proof Hb as (Ib & _ & _). pose proof Hc as (Ic & _ & _). cbn [fst] in *.
  assert (pos b <= seg_end (b, p)) by (unfold seg_end; cbn; pose proof (zlen_nonneg p); lia).
  assert (pos c <= seg_end (c, q)) by (unfold seg_end; cbn; pose proof (zlen_nonneg q); lia).
  assert (Hlater : forall z, z <= seg_end (c, q) -> Forall (fun t => pos (fst t) <> z) m).
  { intros z Hz. eapply Forall_impl; [exact Hgap|]. unfold apart. intros t Ht. lia. }
  cbn [merge_scan]. rewrite !w_le, !w_lt by done. rewrite Eb, Ec.
  destruct ((pos c <=? pos b) && (seg_end (b, p) <=? seg_end (c, q)))%bool eqn:E1.
  { b2p. exists Covered. split_and!; [done| |done]. intros x Hx. apply covers_cons. left.
    unfold in_seg in *. cbn [fst] in *. lia. }
  destruct ((pos b <=? pos c) && (seg_end (c, q) <=? seg_end (b, p)))%bool eqn:E2.
  { b2p. exists (Inserting m p). split_and!; [done| |by intros s [_ ?]%Forall_cons].
    cbn. split_and!; try done; [apply Hlater; lia|]. intros x. rewrite covers_cons.
    unfold in_seg. cbn [fst].
    assert (pos c <= x < seg_end (c, q) -> pos b <= x < seg_end (b, p)) by lia. tauto. }
  destruct ((pos b <? pos c) && (pos c <=? seg_end (b, p)) && (seg_end (b, p) <=? seg_end (c, q)))%bool eqn:E3.
  { b2p. rewrite w_sub, Eb by (done || lia).
    destruct (extend_seg b p c q _ Hb Hc ltac:(lia) ltac:(lia) eq_refl) as (r & -> & Er).
    destruct (seg_ok_extend b p c q Hb Hc ltac:(lia)) as [Hbr Eend].
    cbn [mbind option_bind]. rewrite Er. eexists. split_and!; [done| |by intros s [_ ?]%Forall_cons].
    cbn. split_and!; try done; [apply Hlater; lia|]. intros x. rewrite covers_cons.
    unfold in_seg. rewrite Eend. cbn [fst]. assert (pos b <= x < seg_end (c, q) <->
      pos b <= x < seg_end (b, p) \/ pos c <= x < seg_end (c, q)) by lia. tauto. }
  destruct ((pos c <=? pos b) && (pos b <=? seg_end (c, q)) && (seg_end (c, q) <? seg_end (b, p)))%bool eqn:E4.
  { b2p. rewrite w_sub, Ec by (done || lia).
    destruct (extend_seg c q b p _ Hc Hb ltac:(lia) ltac:(lia) eq_refl) as (r & -> & Er).
    destruct (seg_ok_extend c q b p Hc Hb ltac:(lia)) as [Hbr Eend].
    cbn [mbind option_bind]. rewrite Er. eexists. split_and!; [done| |].
    - cbn. split_and!; [done|by constructor|by constructor|]. intros x. rewrite !covers_cons.
      unfold in_seg. rewrite Eend. cbn [fst]. assert (pos c <= x < seg_end (b, p) <->
        pos c <= x < seg_end (c, q) \/ pos b <= x < seg_end (b, p)) by lia. tauto.
    - intros s [? ?]%Forall_cons. by constructor. }
  assert (seg_end (c, q) < pos b \/ seg_end (b, p) < pos c) as Hapart.
  { clear - E1 E2 E3 E4 H H0.
    destruct (Z.ltb_spec (seg_end (c, q)) (pos b)); [by left|right].
    destruct (Z.ltb_spec (seg_end (b, p)) (pos c)); [done|exfalso].
    destruct (Z.leb_spec (pos c) (pos b)), (Z.leb_spec (seg_end (b, p)) (seg_end (c, q))); cbn in *; try done.
    - destruct (Z.leb_spec (pos b) (seg_end (c, q))), (Z.ltb_spec (seg_end (c, q)) (seg_end (b, p))); done || lia.
    - destruct (Z.ltb_spec (pos b) (pos c)), (Z.leb_spec (pos c) (seg_end (b, p))); done || lia.
    - destruct (Z.leb_spec (pos b) (pos c)), (Z.leb_spec (seg_end (c, q)) (seg_end (b, p))); done || lia. }
  destruct (IH (conj Hok Hs)) as (r & -> & Hr & Hpre). cbn [mbind option_bind].
  exists (scan_cons (c, q) r). split; [done|].
  specialize (Hpre (c, q) Hcs) as Hpre'. destruct r as [|m' p'|m']; cbn in *.
  - split; [|done]. intros x Hx. apply covers_cons. right. by apply Hr.
  - destruct Hr as (H1 & H2 & H3 & H4 & H5). split.
    + split_and!; [done|by constructor|by constructor| |].
      * constructor; [cbn; lia|done].
      * intros x. rewrite !covers_cons. specialize (H5 x). tauto.
    + intros s [? ?]%Forall_cons. constructor; [done|]. by apply Hpre.
  - destruct Hr as (H1 & H2 & H3 & H4). split.
    + split_and!; [done|by constructor|by constructor|].
      intros x. rewrite !covers_cons. specialize (H4 x). tauto.
    + intros s [? ?]%Forall_cons. constructor; [done|]. by apply Hpre.
Qed.

(** Merging a part of the stream into merged parts of it. *)
Lemma merge_spec b n m :
  inw b -> 0 <= n -> pos b + n <= hi -> merged m ->
  exists m' lin, merge b (range d (pos b) n) m = Some (m', lin) /\ merged m' /\
    forall x, covers m' x <-> pos b <= x < pos b + n \/ covers m x.
Proof.
  intros Hb Hn Hhi [Hok Hs]. pose proof (seg_ok_range b n Hb Hn Hhi) as Hseg.
  assert (Hin : forall x, in_seg x (b, range d (pos b) n) <-> pos b <= x < pos b + n).
  { intros x. unfold in_seg, seg_end. cbn. by rewrite zlen_range. }
  destruct (merge_scan_spec _ _ m Hseg (conj Hok Hs)) as (r & E & Hr & _).
  unfold merge. rewrite E. cbn [mbind option_bind].
  assert (Hadj : forall l, l <> [] -> Forall seg_ok l -> StronglySorted starts_before l ->
    exists m', match l with (c, q) :: rest => m ← merge_adjacent c q rest; Some (m, 1) | [] => Some ([], 1) end
               = Some (m', 1) /\ merged m' /\ forall x, covers m' x <-> covers l x).
  { intros [|[c q] l] Hne Hl Hls; [done|]. apply Forall_cons in Hl as Hl'. destruct Hl' as [Hc Hl'].
    destruct (merge_adjacent_spec c q l Hc Hl' Hls) as (out & -> & Hm & Hcv & _). eauto. }
  destruct r as [|m1 p1|m1]; cbn in Hr.
  - exists m, 0. split_and!; try done. intros x. rewrite <- Hin. specialize (Hr x). tauto.
  - destruct Hr as (H1 & H2 & H3 & H4 & H5). destruct (emplace_spec b p1 m1 H1 H2 H3 H4) as (G1 & G2 & G3 & _).
    assert (emplace b p1 m1 <> []) as Hne.
    { intros E0. specialize (G3 (pos b)). rewrite E0 in G3.
      destruct m1 as [|[c q] m1]; cbn in E0; [done|]. destruct (o_lt b c); [done|]. by destruct (o_lt c b). }
    destruct (Hadj _ Hne G1 G2) as (m' & Em & Hm & Hcv). exists m', 1. split; [exact Em|]. split; [done|].
    intros x. rewrite Hcv, G3, H5, Hin. done.
  - destruct Hr as (H1 & H2 & H3 & H4). destruct (Hadj _ H1 H2 H3) as (m' & Em & Hm & Hcv).
    exists m', 1. split; [exact Em|]. split; [done|]. intros x. by rewrite Hcv, H4, Hin.
Qed.

(** A packet is complete when one segment covers the stream from the start. *)
Lemma merged_single m a n :
  merged m -> 0 < n -> (forall x, covers m x <-> a <= x < a + n) -> 
  (forall s, s ∈ m -> snd s <> []) ->
  exists b, m = [(b, range d a n)] /\ pos b = a.
Proof.
  intros [Hok Hs] Hn Hcv Hne. destruct m as [|[b p] m].
  { destruct (covers_nil a). apply Hcv. lia. }
  apply Forall_cons in Hok as [(Hb1 & Hb2 & Hb3) Hok]. apply StronglySorted_inv in Hs as [Hs Hf].
  assert (0 < zlen p) as Hp.
  { specialize (Hne (b, p) ltac:(left)). cbn in Hne. destruct p; [done|]. rewrite zlen_cons.
    pose proof (zlen_nonneg p). lia. }
  unfold seg_end in *. cbn [fst snd] in *.
  assert (forall x, pos b <= x < pos b + zlen p -> a <= x < a + n) as H1.
  { intros x Hx. apply Hcv. apply covers_cons. by left. }
  assert (forall x, covers m x -> pos b + zlen p < x) as Hgt.
  { intros x Hx. apply Exists_exists in Hx as ([c q] & Hc & Hx). rewrite Forall_forall in Hf.
    specialize (Hf _ Hc). unfold apart, in_seg, seg_end in *. cbn in *. lia. }
  assert (pos b = a) as Ea.
  { pose proof (H1 (pos b) ltac:(lia)). destruct (Z.eq_dec (pos b) a); [done|].
    assert (covers ((b, p) :: m) a) as Ha by (apply Hcv; lia). apply covers_cons in Ha as [Ha|Ha].
    - unfold in_seg, seg_end in Ha. cbn in Ha. lia.
    - apply Hgt in Ha. lia. }
  assert (zlen p = n) as En.
  { pose proof (H1 (pos b + zlen p - 1) ltac:(lia)). destruct (Z.eq_dec (zlen p) n); [done|].
    assert (covers ((b, p) :: m) (pos b + zlen p)) as Ha by (apply Hcv; lia).
    apply covers_cons in Ha as [Ha|Ha].
    - unfold in_seg, seg_end in Ha. cbn in Ha. lia.
    - apply Hgt in Ha. lia. }
  exists b. split; [|done]. destruct m as [|[c q] m]; [by rewrite Hb3, En, Ea|exfalso].
  specialize (Hne (c, q) ltac:(right; left)). cbn in Hne. destruct q as [|y q]; [done|].
  assert (covers ((c, y :: q) :: m) (pos c)) as Hc.
  { apply covers_cons. left. unfold in_seg, seg_end. cbn. rewrite zlen_cons. pose proof (zlen_nonneg q). lia. }
  pose proof (Hgt _ Hc). assert (covers ((b, p) :: (c, y :: q) :: m) (pos c)) as Hc' by
    (apply covers_cons; by right). apply Hcv in Hc'. lia.
Qed.

End Spec.

(** ** The two kinds of offsets *)

#[export] Instance uint32_window : OffsetWindow uint32_offset (fun a => a) (is_uint 32) (2 ^ 32 - 1).
Proof.
  unfold is_uint. split; cbn; intros; try done.
  - rewrite wrap_small by lia. lia.
  - apply wrap_small. lia.
Qed.

#[export] Instance tcp_seq_window base :
  OffsetWindow tcp_seq_offset (seq_pos base) (near base) (2 ^ 30 - 1).
Proof.
  split; cbn; intros.
  - assert (seq_pos base (seq_add a n) = seq_pos base a + n) as E.
    { apply seq_add_pos. unfold near in *. change (2 ^ 30) with 1073741824 in *. pow2. lia. }
    unfold near in *. rewrite E. lia.
  - by apply seq_diff_pos.
  - by apply seq_ltb_pos.
  - by apply seq_leb_pos.
Qed.

(** ** The properties *)

(** IP fragments: merging the bytes [[off, off + n)] of a datagram [d] into
    segments of it never aborts or fails an assertion, and leaves segments of
    [d], in order and with gaps between them, which cover exactly what was
    covered before and the new bytes. *)
Theorem merge_ip_fragments d off n (m : seg_map Z) :
  0 <= off -> 0 <= n -> off + n < 2 ^ 32 -> merged (pos := fun a => a) (inw := is_uint 32) (hi := 2 ^ 32 - 1) d m ->
  exists m' lin, merge off (range d off n) m = Some (m', lin) /\
    merged (pos := fun a => a) (inw := is_uint 32) (hi := 2 ^ 32 - 1) d m' /\
    forall x, covers (pos := fun a => a) m' x <-> off <= x < off + n \/ covers (pos := fun a => a) m x.
Proof.
  intros H1 H2 H3 Hm. apply (merge_spec (pos := fun a => a) (inw := is_uint 32) d off n m); try done.
  - unfold is_uint. lia.
  - lia.
Qed.

(** C37. TCP segments: the same for sequence numbers within [2^30] of some base,
    across the wrap of the 32-bit numbers. *)
Theorem merge_tcp_segments base d s n (m : seg_map tcp_seq) :
  near base s -> 0 <= n -> seq_pos base s + n < 2 ^ 30 ->
  merged (pos := seq_pos base) (inw := near base) (hi := 2 ^ 30 - 1) d m ->
  exists m' lin, merge s (range d (seq_pos base s) n) m = Some (m', lin) /\
    merged (pos := seq_pos base) (inw := near base) (hi := 2 ^ 30 - 1) d m' /\
    forall x, covers (pos := seq_pos base) m' x <->
      seq_pos base s <= x < seq_pos base s + n \/ covers (pos := seq_pos base) m x.
Proof. intros. apply (merge_spec (pos := seq_pos base) (inw := near base)); done || lia. Qed.

Lemma merge_ip_fragments_witness :
  exists m' lin, merge 4 (range (fun i => i) 4 6) [(0, [0;1;2;3]); (8, [8;9;10;11]); (20, [20])] = Some (m', lin) /\
    merged (pos := fun a => a) (inw := is_uint 32) (hi := 2 ^ 32 - 1) (fun i => i) m' /\
    forall x, covers (pos := fun a => a) m' x <-> 4 <= x < 10 \/
      covers (pos := fun a => a) [(0, [0;1;2;3]); (8, [8;9;10;11]); (20, [20])] x.
Proof.
  apply (merge_ip_fragments (fun i => i) 4 6); try lia. split.
  - repeat (constructor; [split; [split; vm_compute; congruence|split; [vm_compute; congruence|reflexivity]]|]).
    constructor.
  - repeat constructor.
Defined.

Lemma merge_tcp_segments_witness :
  exists m' lin, merge (make_seq 4294967294) (range (fun i => i) (-2) 6) [(make_seq 2, [2;3;4;5])] = Some (m', lin) /\
    merged (pos := seq_pos (make_seq 0)) (inw := near (make_seq 0)) (hi := 2 ^ 30 - 1) (fun i => i) m' /\
    forall x, covers (pos := seq_pos (make_seq 0)) m' x <-> -2 <= x < 4 \/
      covers (pos := seq_pos (make_seq 0)) [(make_seq 2, [2;3;4;5])] x.
Proof.
  apply (merge_tcp_segments (make_seq 0) (fun i => i) (make_seq 4294967294) 6); try done. split.
  - repeat (constructor; [split; [split; vm_compute; congruence|split; [vm_compute; congruence|reflexivity]]|]).
    constructor.
  - repeat constructor.
Defined.

(** Six bytes fill the gap between two segments across the wrap of the numbers. *)
Example merge_across_wrap :
  merge (make_seq 4294967294) [1;2;3;4;5;6] [(make_seq 4294967290, [7;8;9;10]); (make_seq 3, [6;11])] =
  Some ([(make_seq 4294967290, [7;8;9;10;1;2;3;4;5;6;11])], 1).
Proof. reflexivity. Qed.
