(* ===== verification/TcpHdr.v ===== *)
(** * TCP headers and options: include/nil/actor/network/tcp.hh, src/network/tcp.cc

    [tcp_hdr::read] and [tcp_hdr::write], [tcp_option::parse], [fill] and
    [get_size]. *)

From S2P Require Import Prelude Core TcpSeq.
From stdpp Require Import base numbers option list.

#[local] Open Scope Z_scope.

(** ** The header *)

(** [struct tcp_hdr]: the bit fields are values of their widths. *)
Record tcp_hdr := TcpHdr {
  src_port : Z; dst_port : Z; h_seq : tcp_seq; h_ack : tcp_seq;
  rsvd1 : Z; data_offset : Z;
  f_fin : bool; f_syn : bool; f_rst : bool; f_psh : bool; f_ack : bool; f_urg : bool; rsvd2 : Z;
  window : Z; checksum : Z; urgent : Z }.

Definition tcp_hdr_len : Z := 20.

(** [tcp_hdr tcp_hdr{}]: value initialisation. *)
Definition tcp_hdr_zero : tcp_hdr :=
  TcpHdr 0 0 (make_seq 0) (make_seq 0) 0 0 false false false false false false 0 0 0 0.

(** [p[i]] as a [uint8_t]; the caller provides at least 20 bytes. *)
Definition byte_at (p : list Z) (i : nat) : Z := nth i p 0.

(** [(v >> n) & 1], stored into a one-bit field. *)
Definition bit_at (v n : Z) : bool := Z.odd (Z.shiftr v n).

Section Codec.
Context {BC : BeCodec}.

(** [tcp_hdr::read] *)
Definition tcp_hdr_read (p : list Z) : tcp_hdr :=
  let b12 := byte_at p 12 in
  let b13 := byte_at p 13 in
  TcpHdr (read_be 2 p) (read_be 2 (drop 2 p))
         (make_seq (read_be 4 (drop 4 p))) (make_seq (read_be 4 (drop 8 p)))
         (Z.land b12 15) (Z.shiftr b12 4)
         (bit_at b13 0) (bit_at b13 1) (bit_at b13 2) (bit_at b13 3) (bit_at b13 4) (bit_at b13 5)
         (Z.land (Z.shiftr b13 6) 3)
         (read_be 2 (drop 14 p)) (read_be 2 (drop 16 p)) (read_be 2 (drop 18 p)).

(** [p[12]] and [p[13]] as [write] computes them. *)
Definition offset_byte (h : tcp_hdr) : Z := Z.lor (rsvd1 h) (Z.shiftl (data_offset h) 4).
Definition flags_byte (h : tcp_hdr) : Z :=
  let f (b : bool) n := Z.shiftl (Z.b2z b) n in
  Z.lor (Z.lor (Z.lor (Z.lor (Z.lor (Z.lor (f (f_fin h) 0) (f (f_syn h) 1)) (f (f_rst h) 2))
    (f (f_psh h) 3)) (f (f_ack h) 4)) (f (f_urg h) 5)) (Z.shiftl (rsvd2 h) 6).

(** [tcp_hdr::write]: the 20 bytes stored at [p]. *)
Definition tcp_hdr_write (h : tcp_hdr) : list Z :=
  write_be 2 (src_port h) ++ write_be 2 (dst_port h) ++
  write_be 4 (raw (h_seq h)) ++ write_be 4 (raw (h_ack h)) ++
  [u8 (offset_byte h); u8 (flags_byte h)] ++
  write_be 2 (window h) ++ write_be 2 (checksum h) ++ write_be 2 (urgent h).

(** [tcp_hdr::write_nbo_checksum]: the two bytes of the value as they lie in memory. *)
Definition write_nbo_checksum (mem : list Z) (p : list Z) : list Z := splice 16 (take 2 mem) p.

(** ** The options *)

(** [struct tcp_option] *)
Record tcp_option := TcpOption {
  mss_received : bool; win_scale_received : bool; timestamps_received : bool; sack_received : bool;
  remote_mss : Z; local_mss : Z; remote_win_scale : Z; local_win_scale : Z }.

(** The default member initialisers; [_local_mss] is set by the owner. *)
Definition tcp_option_init (local : Z) : tcp_option :=
  TcpOption false false false false 536 local 0 0.

Definition kind_mss : Z := 2.
Definition kind_win_scale : Z := 3.
Definition kind_sack : Z := 4.
Definition kind_nop : Z := 1.
Definition kind_eol : Z := 0.
Definition len_mss : Z := 4.
Definition len_win_scale : Z := 3.
Definition len_sack : Z := 2.
Definition len_nop : Z := 1.
Definition len_eol : Z := 1.

Definition set_mss (o : tcp_option) (m : Z) : tcp_option :=
  TcpOption true (win_scale_received o) (timestamps_received o) (sack_received o)
            m (local_mss o) (remote_win_scale o) (local_win_scale o).
Definition set_win_scale (o : tcp_option) (shift : Z) : tcp_option :=
  TcpOption (mss_received o) true (timestamps_received o) (sack_received o)
            (remote_mss o) (local_mss o) shift 7.
Definition set_sack (o : tcp_option) : tcp_option :=
  TcpOption (mss_received o) (win_scale_received o) (timestamps_received o) true
            (remote_mss o) (local_mss o) (remote_win_scale o) (local_win_scale o).

(** How [parse] ends. *)
Inductive parsed :=
  | Parsed (o : tcp_option)
  | Overread            (* a load beyond the memory *)
  | OutOfFuel.

(** Reading the bytes [i, i + n) of the memory at [beg]. *)
Definition load (mem : list Z) (i n : nat) : option (list Z) :=
  if Nat.leb (i + n) (length mem) then Some (take n (drop i mem)) else None.

(** [tcp_option::parse(beg, end)]: [mem] is the memory from [beg] on, of which
    the first [n] bytes are the options. *)
Fixpoint parse (fuel : nat) (mem : list Z) (n : Z) (o : tcp_option) : parsed :=
  if n <=? 0 then Parsed o
  else match fuel with
  | O => OutOfFuel
  | S fuel =>
      match load mem 0 1 with
      | Some [kind] =>
          let continue len o := parse fuel (drop (Z.to_nat len) mem) (n - len) o in
          let body :=
            if kind =? kind_mss then
              match load mem 2 2 with
              | Some v => continue len_mss (set_mss o (read_be 2 v))
              | None => Overread
              end
            else if kind =? kind_win_scale then
              match load mem 2 1 with
              | Some [v] => continue len_win_scale (set_win_scale o v)
              | _ => Overread
              end
            else if kind =? kind_sack then continue len_sack (set_sack o)
            else if kind =? kind_nop then continue len_nop o
            else if kind =? kind_eol then Parsed o
            else match load mem 1 1 with
                 | Some [len] => if len =? 0 then Parsed o else continue len o
                 | _ => Overread
                 end in
          if negb (kind =? kind_nop) && negb (kind =? kind_eol) then
            match load mem 1 1 with
            | Some [len] => if n <? len then Parsed o else body
            | _ => Overread
            end
          else body
      | _ => Overread
      end
  end.

Context {AU : AlignUp}.

(** [tcp_option::get_size] *)
Definition get_size (o : tcp_option) (syn_on ack_on : bool) : Z :=
  let size :=
    if syn_on then
      (if mss_received o || negb ack_on then len_mss else 0) +
      (if win_scale_received o || negb ack_on then len_win_scale else 0)
    else 0 in
  if 0 <? size then u8 (align_up (u8 (size + len_eol)) 4) else size.

(** [while (size < size_max - 1)]: the padding with no-operations. *)
Definition fill_nops (size size_max : Z) : list Z := repeat kind_nop (Z.to_nat (size_max - len_eol - size)).

(** [tcp_option::fill]: the bytes stored behind the header; [None] is the failed
    assertion. *)
Definition fill (o : tcp_option) (syn_on ack_on : bool) (options_size : Z) : option (list Z) :=
  let mss := if syn_on && (mss_received o || negb ack_on)
             then [kind_mss; len_mss] ++ write_be 2 (local_mss o) else [] in
  let ws := if syn_on && (win_scale_received o || negb ack_on)
            then [kind_win_scale; len_win_scale; local_win_scale o] else [] in
  let body := mss ++ ws in
  let size := zlen body in
  let all := if 0 <? size
             then body ++ fill_nops size (align_up (u8 (size + 1)) 4) ++ [kind_eol]
             else body in
  if zlen all =? options_size then Some all else None.
End Codec.

(** ** Lemmas *)

Definition hdr_ok (h : tcp_hdr) : Prop :=
  is_uint 16 (src_port h) /\ is_uint 16 (dst_port h) /\ is_uint 32 (raw (h_seq h)) /\
  is_uint 32 (raw (h_ack h)) /\ is_uint 4 (rsvd1 h) /\ is_uint 4 (data_offset h) /\
  is_uint 2 (rsvd2 h) /\ is_uint 16 (window h) /\ is_uint 16 (checksum h) /\ is_uint 16 (urgent h).

(** The fields of a byte, for every value of them. *)
Lemma byte_forall (P : Z -> bool) n :
  forallb P (seqZ 0 n) = true -> forall z, 0 <= z < n -> P z = true.
Proof.
  intros H z Hz. rewrite forallb_forall in H. apply H. apply list_elem_of_In, elem_of_seqZ. lia.
Qed.

Lemma offset_byte_fields h :
  is_uint 4 (rsvd1 h) -> is_uint 4 (data_offset h) ->
  Z.land (u8 (offset_byte h)) 15 = rsvd1 h /\ Z.shiftr (u8 (offset_byte h)) 4 = data_offset h.
Proof.
  unfold is_uint, offset_byte. generalize (rsvd1 h) (data_offset h). intros r d Hr Hd.
  apply (byte_forall (fun r => forallb (fun d => (Z.land (u8 (Z.lor r (Z.shiftl d 4))) 15 =? r) &&
    (Z.shiftr (u8 (Z.lor r (Z.shiftl d 4))) 4 =? d)) (seqZ 0 16)) 16) in Hr; [|by vm_compute].
  eapply byte_forall in Hr; [|exact Hd]. b2p. done.
Qed.

Lemma flags_byte_fields h :
  is_uint 2 (rsvd2 h) ->
  let b := u8 (flags_byte h) in
  bit_at b 0 = f_fin h /\ bit_at b 1 = f_syn h /\ bit_at b 2 = f_rst h /\ bit_at b 3 = f_psh h /\
  bit_at b 4 = f_ack h /\ bit_at b 5 = f_urg h /\ Z.land (Z.shiftr b 6) 3 = rsvd2 h.
Proof.
  destruct h as [? ? ? ? ? ? fi sy rs ps ac ur r ? ? ?]. unfold is_uint, flags_byte. cbn. intros Hr.
  assert (r = 0 \/ r = 1 \/ r = 2 \/ r = 3) as Hcases by lia.
  destruct Hcases as [->|[->|[->| ->]]]; destruct fi, sy, rs, ps, ac, ur; vm_compute; auto 10.
Qed.

Lemma offset_byte_read b :
  is_byte b -> u8 (Z.lor (Z.land b 15) (Z.shiftl (Z.shiftr b 4) 4)) = b.
Proof.
  intros Hb. apply (byte_forall (fun b => u8 (Z.lor (Z.land b 15) (Z.shiftl (Z.shiftr b 4) 4)) =? b) 256) in Hb;
    [by b2p|by vm_compute].
Qed.

Lemma flags_byte_read b h :
  is_byte b ->
  f_fin h = bit_at b 0 -> f_syn h = bit_at b 1 -> f_rst h = bit_at b 2 -> f_psh h = bit_at b 3 ->
  f_ack h = bit_at b 4 -> f_urg h = bit_at b 5 -> rsvd2 h = Z.land (Z.shiftr b 6) 3 ->
  u8 (flags_byte h) = b.
Proof.
  intros Hb E0 E1 E2 E3 E4 E5 E6. unfold flags_byte. rewrite E0, E1, E2, E3, E4, E5, E6.
  set (f := fun b : Z => u8 (Z.lor (Z.lor (Z.lor (Z.lor (Z.lor (Z.lor
    (Z.shiftl (Z.b2z (bit_at b 0)) 0) (Z.shiftl (Z.b2z (bit_at b 1)) 1))
    (Z.shiftl (Z.b2z (bit_at b 2)) 2)) (Z.shiftl (Z.b2z (bit_at b 3)) 3))
    (Z.shiftl (Z.b2z (bit_at b 4)) 4)) (Z.shiftl (Z.b2z (bit_at b 5)) 5))
    (Z.shiftl (Z.land (Z.shiftr b 6) 3) 6)) =? b).
  enough (f b = true) as H by (unfold f in H; by b2p).
  apply (byte_forall f 256); [by vm_compute|done].
Qed.

Section Facts.
Context {BC : BeCodec} {AU : AlignUp}.

Lemma length_tcp_hdr_write h : length (tcp_hdr_write h) = 20%nat.
Proof. unfold tcp_hdr_write. rewrite !length_app, !length_write_be. done. Qed.

Lemma tcp_read_write h rest : hdr_ok h -> tcp_hdr_read (tcp_hdr_write h ++ rest) = h.
Proof.
  intros (H1 & H2 & H3 & H4 & H5 & H6 & H7 & H8 & H9 & H10).
  destruct (offset_byte_fields h H5 H6) as [F1 F2].
  destruct (flags_byte_fields h H7) as (G1 & G2 & G3 & G4 & G5 & G6 & G7).
  destruct (be2_bytes _ H1) as (? & ? & E1 & R1), (be2_bytes _ H2) as (? & ? & E2 & R2),
    (be4_bytes _ H3) as (? & ? & ? & ? & E3 & R3), (be4_bytes _ H4) as (? & ? & ? & ? & E4 & R4),
    (be2_bytes _ H8) as (? & ? & E8 & R8), (be2_bytes _ H9) as (? & ? & E9 & R9),
    (be2_bytes _ H10) as (? & ? & E10 & R10).
  unfold tcp_hdr_write. rewrite E1, E2, E3, E4, E8, E9, E10. unfold tcp_hdr_read, byte_at.
  cbn [app drop nth]. rewrite R1, R2, R3, R4, R8, R9, R10, F1, F2, G1, G2, G3, G4, G5, G6, G7.
  by destruct h as [? ? [] [] ? ? ? ? ? ? ? ? ? ? ? ?].
Qed.

(** A TCP header read from the bytes that [write] stores is the header, for
    all field values of the bit widths, whatever follows it. *)
Theorem tcp_hdr_read_write h rest : hdr_ok h -> tcp_hdr_read (tcp_hdr_write h ++ rest) = h.
Proof. apply tcp_read_write. Qed.

(** Storing a header that was read gives its bytes back. *)
Lemma tcp_hdr_write_read bs :
  length bs = 20%nat -> Forall is_byte bs -> tcp_hdr_write (tcp_hdr_read bs) = bs.
Proof.
  intros Hl Hb. do 20 (destruct bs as [|? bs]; [done|apply Forall_cons in Hb as [? Hb]]).
  destruct bs; [|done]. unfold tcp_hdr_write, tcp_hdr_read, byte_at. cbn [drop nth src_port dst_port h_seq h_ack raw window checksum urgent].
  rewrite !be2_read, !be4_read by done. cbn [app]. 
  erewrite (flags_byte_read _ _); try reflexivity; try done.
  unfold offset_byte. cbn [rsvd1 data_offset]. by rewrite offset_byte_read.
Qed.

(** *** Options *)

Lemma load_1 mem i b : load mem i 1 = Some b -> exists x, b = [x] /\ nth_error mem i = Some x.
Proof.
  unfold load. destruct (Nat.leb_spec (i + 1) (length mem)); [|done]. intros [= <-].
  destruct (nth_error mem i) as [x|] eqn:E; [|apply nth_error_None in E; lia].
  exists x. split; [|done]. apply nth_error_split in E as (l1 & l2 & -> & <-).
  by rewrite drop_app_length.
Qed.

Lemma nth_error_byte mem i x : Forall is_byte mem -> nth_error mem i = Some x -> is_byte x.
Proof. intros H E. apply nth_error_In in E. rewrite Forall_forall in H. apply H. by apply list_elem_of_In. Qed.

(** Every round consumes an option: the loop ends within as many rounds as
    there are option bytes. *)
Lemma parse_fuel fuel mem n o : Forall is_byte mem -> n <= Z.of_nat fuel -> parse fuel mem n o <> OutOfFuel.
Proof.
  revert mem n o. induction fuel as [|fuel IH]; intros mem n o Hm Hn.
  - cbn [parse]. destruct (Z.leb_spec n 0); [done|lia].
  - assert (Hnext : forall len o, 0 < len -> parse fuel (drop (Z.to_nat len) mem) (n - len) o <> OutOfFuel).
    { intros len o' Hlen. apply IH; [by apply Forall_drop|lia]. }
    cbn [parse]. destruct (Z.leb_spec n 0); [done|].
    destruct (load mem 0 1) as [[|kind [|? ?]]|]; try done.
    assert (Hbody : forall b, (b = true -> exists len, load mem 1 1 = Some [len] /\ is_byte len) ->
      (if kind =? kind_mss then match load mem 2 2 with
         | Some v => parse fuel (drop (Z.to_nat len_mss) mem) (n - len_mss) (set_mss o (read_be 2 v)) | None => Overread end
       else if kind =? kind_win_scale then match load mem 2 1 with
         | Some [v] => parse fuel (drop (Z.to_nat len_win_scale) mem) (n - len_win_scale) (set_win_scale o v) | _ => Overread end
       else if kind =? kind_sack then parse fuel (drop (Z.to_nat len_sack) mem) (n - len_sack) (set_sack o)
       else if kind =? kind_nop then parse fuel (drop (Z.to_nat len_nop) mem) (n - len_nop) o
       else if kind =? kind_eol then Parsed o
       else match load mem 1 1 with
            | Some [len] => if len =? 0 then Parsed o else parse fuel (drop (Z.to_nat len) mem) (n - len) o
            | _ => Overread end) <> OutOfFuel).
    { intros _ _. repeat match goal with |- context [if ?a =? ?b then _ else _] => destruct (Z.eqb_spec a b) end;
        try done; try (by apply Hnext).
      - destruct (load mem 2 2); [by apply Hnext|done].
      - destruct (load mem 2 1) as [[|v [|? ?]]|]; try done. by apply Hnext.
      - destruct (load mem 1 1) as [l|] eqn:E; [|done]. destruct (load_1 _ _ _ E) as (len & -> & Hx).
        pose proof (nth_error_byte _ _ _ Hm Hx) as [? _]. destruct (Z.eqb_spec len 0); [done|].
        apply Hnext. lia. }
    specialize (Hbody false ltac:(done)).
    destruct (negb (kind =? kind_nop) && negb (kind =? kind_eol))%bool; [|done].
    destruct (load mem 1 1) as [[|len [|? ?]]|]; try done. by destruct (n <? len).
Qed.

(** One round of [parse] on each kind of option that [fill] stores. *)
Lemma parse_done fuel mem o : parse fuel mem 0 o = Parsed o.
Proof. by destruct fuel. Qed.

Lemma parse_mss fuel a b mem n o :
  4 <= n -> parse (S fuel) (kind_mss :: len_mss :: a :: b :: mem) n o =
            parse fuel mem (n - 4) (set_mss o (read_be 2 [a; b])).
Proof.
  intros Hn. cbn [parse]. rewrite (proj2 (Z.leb_gt n 0)) by lia.
  change (load (kind_mss :: len_mss :: a :: b :: mem) 0 1) with (Some [kind_mss]).
  change (load (kind_mss :: len_mss :: a :: b :: mem) 1 1) with (Some [len_mss]).
  change (load (kind_mss :: len_mss :: a :: b :: mem) 2 2) with (Some [a; b]).
  cbn beta iota. unfold len_mss. by rewrite (proj2 (Z.ltb_ge n 4)) by lia.
Qed.

Lemma parse_win_scale fuel v mem n o :
  3 <= n -> parse (S fuel) (kind_win_scale :: len_win_scale :: v :: mem) n o =
            parse fuel mem (n - 3) (set_win_scale o v).
Proof.
  intros Hn. cbn [parse]. rewrite (proj2 (Z.leb_gt n 0)) by lia.
  change (load (kind_win_scale :: len_win_scale :: v :: mem) 0 1) with (Some [kind_win_scale]).
  change (load (kind_win_scale :: len_win_scale :: v :: mem) 1 1) with (Some [len_win_scale]).
  change (load (kind_win_scale :: len_win_scale :: v :: mem) 2 1) with (Some [v]).
  cbn beta iota. unfold len_win_scale. by rewrite (proj2 (Z.ltb_ge n 3)) by lia.
Qed.

Lemma parse_nop fuel mem n o : 1 <= n -> parse (S fuel) (kind_nop :: mem) n o = parse fuel mem (n - 1) o.
Proof. intros Hn. cbn [parse]. by rewrite (proj2 (Z.leb_gt n 0)) by lia. Qed.

Lemma parse_eol fuel mem n o : 1 <= n -> parse (S fuel) (kind_eol :: mem) n o = Parsed o.
Proof. intros Hn. cbn [parse]. by rewrite (proj2 (Z.leb_gt n 0)) by lia. Qed.

Lemma align_up_4 v : 0 <= v -> align_up v 4 = (v + 3) / 4 * 4.
Proof. intros Hv. destruct (align_up_spec v 4 Hv ltac:(lia)) as [[? ?] ?]. Z.div_mod_to_equations. lia. Qed.

(** The options that [fill] stores: no option, or 4 or 8 bytes. *)
Lemma fill_cases o syn_on ack_on :
  let sm := (syn_on && (mss_received o || negb ack_on))%bool in
  let sw := (syn_on && (win_scale_received o || negb ack_on))%bool in
  fill o syn_on ack_on (get_size o syn_on ack_on) = Some
    (if sm then [kind_mss; len_mss] ++ write_be 2 (local_mss o) ++
       (if sw then [kind_win_scale; len_win_scale; local_win_scale o; kind_eol]
        else [kind_nop; kind_nop; kind_nop; kind_eol])
     else if sw then [kind_win_scale; len_win_scale; local_win_scale o; kind_eol] else []) /\
  get_size o syn_on ack_on = if sm then 8 else if sw then 4 else 0.
Proof.
  unfold get_size, fill. pose proof (length_write_be 2 (local_mss o)) as Hl.
  destruct (write_be 2 (local_mss o)) as [|a [|b [|]]]; try done.
  destruct syn_on; cbn [andb]; [|done].
  destruct (mss_received o || negb ack_on)%bool, (win_scale_received o || negb ack_on)%bool;
    rewrite ?align_up_4 by done; done.
Qed.
End Facts.

(** TCP options: [get_size] is the size of what [fill] stores (the assertion
    holds), for every negotiation state; it is a multiple of four and at most 8,
    and a peer that parses the stored bytes learns the segment size and window
    scale that were announced, and nothing else. *)
Theorem tcp_options_round_trip {BC : BeCodec} {AU : AlignUp} o peer syn_on ack_on rest fuel :
  is_uint 16 (local_mss o) -> 8 <= Z.of_nat fuel ->
  let sm := (syn_on && (mss_received o || negb ack_on))%bool in
  let sw := (syn_on && (win_scale_received o || negb ack_on))%bool in
  exists bs, fill o syn_on ack_on (get_size o syn_on ack_on) = Some bs /\
    zlen bs = get_size o syn_on ack_on /\ zlen bs <= 8 /\ zlen bs mod 4 = 0 /\
    parse fuel (bs ++ rest) (zlen bs) peer =
      Parsed (let p := if sm then set_mss peer (local_mss o) else peer in
              if sw then set_win_scale p (local_win_scale o) else p).
Proof.
  intros Hm Hf. destruct (fill_cases o syn_on ack_on) as [-> ->]. cbv zeta.
  do 8 (destruct fuel as [|fuel]; [lia|]). clear Hf.
  destruct (be2_bytes _ Hm) as (a & b & E & R). rewrite E. eexists. split; [done|].
  destruct (syn_on && _)%bool, (syn_on && (win_scale_received _ || _))%bool; cbn [app];
    (split; [done|]; split; [done|]; split; [done|]);
    rewrite ?parse_mss, ?parse_win_scale, ?parse_nop, ?parse_eol, ?parse_done, ?R by done; try reflexivity.
Qed.

(** Parsing options terminates: as many rounds as there are option bytes
    are enough, for all input. *)
Theorem tcp_options_parse_terminates {BC : BeCodec} mem n o :
  Forall is_byte mem -> parse (Z.to_nat n) mem n o <> OutOfFuel.
Proof. intros. apply parse_fuel; [done|lia]. Qed.

(** The length check of [parse] does not protect the fixed-size options: an
    MSS option whose declared length is at most 2, as the last two bytes of the
    options, is accepted, and the segment size is taken from the two bytes behind
    the options; and a kind in the last byte makes it load a length from behind
    the options. *)
Theorem tcp_options_overread {BC : BeCodec} len a b rest o kind fuel :
  0 <= len <= 2 -> kind <> kind_nop -> kind <> kind_eol -> (1 <= fuel)%nat ->
  parse fuel (kind_mss :: len :: a :: b :: rest) 2 o = Parsed (set_mss o (read_be 2 [a; b])) /\
  parse fuel [kind_mss; len] 2 o = Overread /\
  parse fuel [kind] 1 o = Overread.
Proof.
  intros Hlen Hk1 Hk2 Hf. destruct fuel as [|fuel]; [lia|].
  assert (2 <? len = false) as E by (apply Z.ltb_ge; lia).
  split_and!.
  - cbn -[read_be Z.ltb]. rewrite E. cbn -[read_be]. by destruct fuel.
  - cbn -[Z.ltb]. by rewrite E.
  - cbn. destruct (Z.eqb_spec kind kind_nop); [done|]. destruct (Z.eqb_spec kind kind_eol); [done|]. done.
Qed.

(** ** Witnesses *)

Import Core.Impl.

Definition ex_hdr : tcp_hdr :=
  TcpHdr 80 49152 (make_seq 4294967295) (make_seq 7) 0 5 false true false false true false 0 29200 0 0.

Lemma tcp_hdr_read_write_witness : tcp_hdr_read (tcp_hdr_write ex_hdr ++ [1; 2; 3]) = ex_hdr.
Proof. apply (tcp_hdr_read_write ex_hdr [1; 2; 3]). unfold hdr_ok, is_uint. cbn. lia. Defined.

Lemma tcp_options_round_trip_witness :
  exists bs, fill (tcp_option_init 1460) true false (get_size (tcp_option_init 1460) true false) = Some bs /\
    zlen bs = get_size (tcp_option_init 1460) true false /\ zlen bs <= 8 /\ zlen bs mod 4 = 0 /\
    parse 8 (bs ++ [1; 2]) (zlen bs) (tcp_option_init 9000) =
      Parsed (set_win_scale (set_mss (tcp_option_init 9000) 1460) 0).
Proof.
  apply (tcp_options_round_trip (tcp_option_init 1460) (tcp_option_init 9000) true false [1; 2] 8);
    [unfold is_uint; cbn; lia|lia].
Defined.

Lemma tcp_options_parse_terminates_witness :
  parse (Z.to_nat 3) [1; 253; 0] 3 (tcp_option_init 1460) <> OutOfFuel.
Proof.
  apply (tcp_options_parse_terminates [1; 253; 0] 3).
  repeat (constructor; [split; vm_compute; congruence|]). constructor.
Defined.

Lemma tcp_options_overread_witness :
  parse 2 (kind_mss :: 2 :: 71 :: 69 :: [84]) 2 (tcp_option_init 1460) =
    Parsed (set_mss (tcp_option_init 1460) (read_be 2 [71; 69])) /\
  parse 2 [kind_mss; 2] 2 (tcp_option_init 1460) = Overread /\
  parse 2 [8] 1 (tcp_option_init 1460) = Overread.
Proof. apply (tcp_options_overread 2 71 69 [84] (tcp_option_init 1460) 8 2); (done || lia). Defined.
