(* ===== verification/Net.v ===== *)
(** * Network vocabulary: include/nil/actor/network/const.hh, net.hh

    The constants and the features of a network interface, and packets as the
    protocol layers see them: [PacketSpec] shows that the operations of the
    packet class are those of byte strings, so above it a packet is its bytes
    and its offload information. *)

From S2P Require Import Prelude Packet.
From stdpp Require Import base numbers option list.

#[local] Open Scope Z_scope.

(** [enum class ip_protocol_num] and [enum class eth_protocol_num] *)
Definition ip_proto_icmp : Z := 1.
Definition ip_proto_tcp : Z := 6.
Definition ip_proto_udp : Z := 17.
Definition ip_proto_unused : Z := 255.

Definition eth_proto_ipv4 : Z := 2048.
Definition eth_proto_arp : Z := 2054.
Definition eth_proto_ipv6 : Z := 34525.

Definition eth_hdr_len : Z := 14.
Definition tcp_hdr_len_min : Z := 20.
Definition ipv4_hdr_len_min : Z := 20.
Definition ip_packet_len_max : Z := 65535.

(** [struct hw_features] *)
Record hw_features := HwFeatures {
  tx_csum_ip_offload : bool; tx_csum_l4_offload : bool; rx_csum_offload : bool;
  rx_lro : bool; tx_tso : bool; tx_ufo : bool; mtu : Z; max_packet_len : Z }.

Definition hw_features_default : hw_features :=
  HwFeatures false false false false false false 1500 (ip_packet_len_max - eth_hdr_len).

(** A packet: its bytes and its offload information. *)
Record packet := Pkt { bytes : list Z; info : offload_info }.

Definition pkt (bs : list Z) : packet := Pkt bs offload_info_default.
Definition plen (p : packet) : Z := zlen (bytes p).

(** [trim_front(n)] and [trim_back(n)]: the assertion that [n] is at most the
    length fails as [None]. *)
Definition drop_front (n : Z) (bs : list Z) : option (list Z) :=
  if (0 <=? n) && (n <=? zlen bs) then Some (drop (Z.to_nat n) bs) else None.
Definition drop_back (n : Z) (bs : list Z) : option (list Z) :=
  if (0 <=? n) && (n <=? zlen bs) then Some (take (Z.to_nat (zlen bs - n)) bs) else None.

(** [share(off, n)] within the packet. *)
Definition share_bytes (off n : Z) (bs : list Z) : option (list Z) :=
  if (0 <=? off) && (0 <=? n) && (off + n <=? zlen bs) then Some (slice off n bs) else None.

(** [get_header(off, n)]: the null pointer beyond the end. *)
Definition header_at (off n : Z) (bs : list Z) : option (list Z) :=
  if zlen bs <? off + n then None else Some (slice off n bs).

Lemma slice_mid (pre m post : list Z) n : zlen m = n -> slice (zlen pre) n (pre ++ m ++ post) = m.
Proof.
  intros <-. unfold slice, zlen. by rewrite !Nat2Z.id, drop_app_length, take_app_length.
Qed.

Lemma header_mid (pre m post : list Z) n : zlen m = n -> header_at (zlen pre) n (pre ++ m ++ post) = Some m.
Proof.
  intros H. unfold header_at. rewrite slice_mid by done. rewrite !zlen_app. pose proof (zlen_nonneg post).
  by destruct (Z.ltb_spec (zlen pre + (zlen m + zlen post)) (zlen pre + n)); [lia|].
Qed.

Lemma header_at_app n pre b : 0 <= n <= zlen b -> header_at (zlen pre) n (pre ++ b) = Some (take (Z.to_nat n) b).
Proof.
  intros H. unfold header_at. rewrite zlen_app. destruct (Z.ltb_spec (zlen pre + zlen b) (zlen pre + n)); [lia|].
  unfold slice. f_equal. f_equal. apply drop_app_length'. unfold zlen. lia.
Qed.

Lemma drop_front_ok n bs : 0 <= n <= zlen bs -> drop_front n bs = Some (drop (Z.to_nat n) bs).
Proof. intros. unfold drop_front. by rewrite (proj2 (Z.leb_le 0 n)), (proj2 (Z.leb_le n (zlen bs))) by lia. Qed.

Lemma drop_front_bad n bs : zlen bs < n -> drop_front n bs = None.
Proof. intros. unfold drop_front. by rewrite (proj2 (Z.leb_gt n (zlen bs))), andb_false_r by lia. Qed.

Lemma drop_front_inv n bs r : drop_front n bs = Some r -> 0 <= n <= zlen bs /\ r = drop (Z.to_nat n) bs.
Proof.
  unfold drop_front. destruct (_ && _)%bool eqn:E; [|done]. intros [= <-]. b2p. done.
Qed.

Lemma share_bytes_ok off n bs :
  0 <= off -> 0 <= n -> off + n <= zlen bs -> share_bytes off n bs = Some (slice off n bs).
Proof.
  intros. unfold share_bytes.
  by rewrite (proj2 (Z.leb_le 0 off)), (proj2 (Z.leb_le 0 n)), (proj2 (Z.leb_le (off + n) _)) by lia.
Qed.

Lemma share_front n (bs : list Z) : slice 0 n bs = take (Z.to_nat n) bs.
Proof. unfold slice. by rewrite drop_0. Qed.
