(* ===== verification/TcbData.v ===== *)
(** * The TCP control block: include/nil/actor/network/tcp.hh, [tcp<InetTraits>::tcb]

    The state of a connection and every operation of it, for
    [InetTraits = ipv4_traits].  An operation is a step of a state monad with
    failure: it reads and writes the control block, and emits what the code
    calls outside it ([poll_tcb], [respond_with_reset], [remove_from_tcbs],
    [add_connected_tcb], the promises).  [None] is a failed assertion or an
    undefined operation (division by zero, a shift by 32 bits or more, a load
    outside a buffer).  The clock is read once per operation ([now]). *)

From S2P Require Import Prelude Core ByteOrder Checksum Packet Net TcpSeq TcpHdr PacketMerger.
From stdpp Require Import base numbers option list.

#[local] Open Scope Z_scope.

(** ** Data *)

(** [enum class tcp_state] *)
Inductive tcp_state :=
  | CLOSED | LISTEN | SYN_SENT | SYN_RECEIVED | ESTABLISHED | FIN_WAIT_1 | FIN_WAIT_2
  | CLOSE_WAIT | CLOSING | LAST_ACK | TIME_WAIT.

#[export] Instance tcp_state_eq_dec : EqDecision tcp_state.
Proof. solve_decision. Defined.

(** The bit of a state in the 16-bit masks. *)
Definition state_bit (s : tcp_state) : Z :=
  match s with
  | CLOSED => 0 | LISTEN => 1 | SYN_SENT => 2 | SYN_RECEIVED => 3 | ESTABLISHED => 4 | FIN_WAIT_1 => 5
  | FIN_WAIT_2 => 6 | CLOSE_WAIT => 7 | CLOSING => 8 | LAST_ACK => 9 | TIME_WAIT => 10
  end.

(** [s1 | s2 | ...] *)
Definition state_mask (l : list tcp_state) : Z := foldr (fun s m => Z.lor (Z.shiftl 1 (state_bit s)) m) 0 l.

(** [struct unacked_segment] *)
Record unacked_segment := Unacked { seg_p : list Z; data_len : Z; nr_transmits : Z; tx_time : Z }.

(** [tcp_reset_error], [tcp_connect_error], [tcp_refused_error], ECONNABORTED
    of [abort_reader], and [arp_timeout_error]. *)
Inductive error := ResetError | ConnectError | RefusedError | AbortedError | ArpTimeoutError.
Inductive result := Ok | Err (e : error).

(** What an operation does outside the control block. *)
Inductive event :=
  | EvPoll (to : Z)                 (* _tcp.poll_tcb(_foreign_ip, this) *)
  | EvRespondReset (th : tcp_hdr)   (* _tcp.respond_with_reset(th, _local_ip, _foreign_ip) *)
  | EvRemove                        (* _tcp._tcbs.erase(id) *)
  | EvAddConnected (port : Z)       (* _tcp.add_connected_tcb(this, _local_port) *)
  | EvConnectDone (r : result)
  | EvDataReceived (r : result)
  | EvAllDataAcked (r : result)
  | EvSendAvailable (r : result).

(** [struct send]: the promises are whether a waiter holds the future. *)
Record send := Send {
  unacknowledged : tcp_seq;
  snd_next : tcp_seq;
  snd_window : Z;
  snd_window_scale : Z;
  snd_mss : Z;
  snd_urgent : tcp_seq;
  wl1 : tcp_seq;
  wl2 : tcp_seq;
  snd_initial : tcp_seq;
  snd_data : list unacked_segment;
  unsent : list (list Z);
  unsent_len : Z;
  closed : bool;
  all_data_acked_promise : bool;
  max_queue_space : Z;
  current_queue_space : Z;
  send_available_promise : bool;
  rttvar : Z;
  srtt : Z;
  first_rto_sample : bool;
  syn_tx_time : Z;
  cwnd : Z;
  ssthresh : Z;
  dupacks : Z;
  syn_retransmit : Z;
  fin_retransmit : Z;
  limited_transfer : Z;
  partial_ack : Z;
  recover : tcp_seq;
  window_probe : bool;
  zero_window_probing_out : Z }.

(** [struct receive] *)
Record receive := Receive {
  rcv_next : tcp_seq;
  rcv_window : Z;
  rcv_window_scale : Z;
  rcv_mss : Z;
  rcv_urgent : tcp_seq;
  rcv_initial : tcp_seq;
  rcv_data : list (list Z);
  data_size : Z;
  out_of_order : seg_map tcp_seq;
  data_received_promise : bool;
  max_receive_buf_size : Z }.

Section Tcb.
Context {BC : BeCodec} {AU : AlignUp} {T : Type} {TM : TimerOps T}.

(** [class tcb] *)
Record tcb := Tcb {
  state : tcp_state;
  local_ip : Z;
  foreign_ip : Z;
  local_port : Z;
  foreign_port : Z;
  snd : send;
  rcv : receive;
  option_ : tcp_option;
  delayed_ack : T;
  rto : Z;
  persist_time_out : Z;
  retransmit_timer : T;
  persist_timer : T;
  nr_full_seg_received : Z;
  packetq : list packet;
  poll_active : bool }.

(** *** Assignments to the members *)

Definition set_unacknowledged (v : tcp_seq) (s : send) : send :=
  Send v (snd_next s) (snd_window s) (snd_window_scale s) (snd_mss s) (snd_urgent s) (wl1 s)
    (wl2 s) (snd_initial s) (snd_data s) (unsent s) (unsent_len s) (closed s)
    (all_data_acked_promise s) (max_queue_space s) (current_queue_space s)
    (send_available_promise s) (rttvar s) (srtt s) (first_rto_sample s) (syn_tx_time s) (cwnd s)
    (ssthresh s) (dupacks s) (syn_retransmit s) (fin_retransmit s) (limited_transfer s)
    (partial_ack s) (recover s) (window_probe s) (zero_window_probing_out s).
Definition set_snd_next (v : tcp_seq) (s : send) : send :=
  Send (unacknowledged s) v (snd_window s) (snd_window_scale s) (snd_mss s) (snd_urgent s) (wl1
    s) (wl2 s) (snd_initial s) (snd_data s) (unsent s) (unsent_len s) (closed s)
    (all_data_acked_promise s) (max_queue_space s) (current_queue_space s)
    (send_available_promise s) (rttvar s) (srtt s) (first_rto_sample s) (syn_tx_time s) (cwnd s)
    (ssthresh s) (dupacks s) (syn_retransmit s) (fin_retransmit s) (limited_transfer s)
    (partial_ack s) (recover s) (window_probe s) (zero_window_probing_out s).
Definition set_snd_window (v : Z) (s : send) : send :=
  Send (unacknowledged s) (snd_next s) v (snd_window_scale s) (snd_mss s) (snd_urgent s) (wl1 s)
    (wl2 s) (snd_initial s) (snd_data s) (unsent s) (unsent_len s) (closed s)
    (all_data_acked_promise s) (max_queue_space s) (current_queue_space s)
    (send_available_promise s) (rttvar s) (srtt s) (first_rto_sample s) (syn_tx_time s) (cwnd s)
    (ssthresh s) (dupacks s) (syn_retransmit s) (fin_retransmit s) (limited_transfer s)
    (partial_ack s) (recover s) (window_probe s) (zero_window_probing_out s).
Definition set_snd_window_scale (v : Z) (s : send) : send :=
  Send (unacknowledged s) (snd_next s) (snd_window s) v (snd_mss s) (snd_urgent s) (wl1 s) (wl2
    s) (snd_initial s) (snd_data s) (unsent s) (unsent_len s) (closed s) (all_data_acked_promise
    s) (max_queue_space s) (current_queue_space s) (send_available_promise s) (rttvar s) (srtt
    s) (first_rto_sample s) (syn_tx_time s) (cwnd s) (ssthresh s) (dupacks s) (syn_retransmit s)
    (fin_retransmit s) (limited_transfer s) (partial_ack s) (recover s) (window_probe s)
    (zero_window_probing_out s).
Definition set_snd_mss (v : Z) (s : send) : send :=
  Send (unacknowledged s) (snd_next s) (snd_window s) (snd_window_scale s) v (snd_urgent s) (wl1
    s) (wl2 s) (snd_initial s) (snd_data s) (unsent s) (unsent_len s) (closed s)
    (all_data_acked_promise s) (max_queue_space s) (current_queue_space s)
    (send_available_promise s) (rttvar s) (srtt s) (first_rto_sample s) (syn_tx_time s) (cwnd s)
    (ssthresh s) (dupacks s) (syn_retransmit s) (fin_retransmit s) (limited_transfer s)
    (partial_ack s) (recover s) (window_probe s) (zero_window_probing_out s).
Definition set_snd_urgent (v : tcp_seq) (s : send) : send :=
  Send (unacknowledged s) (snd_next s) (snd_window s) (snd_window_scale s) (snd_mss s) v (wl1 s)
    (wl2 s) (snd_initial s) (snd_data s) (unsent s) (unsent_len s) (closed s)
    (all_data_acked_promise s) (max_queue_space s) (current_queue_space s)
    (send_available_promise s) (rttvar s) (srtt s) (first_rto_sample s) (syn_tx_time s) (cwnd s)
    (ssthresh s) (dupacks s) (syn_retransmit s) (fin_retransmit s) (limited_transfer s)
    (partial_ack s) (recover s) (window_probe s) (zero_window_probing_out s).
Definition set_wl1 (v : tcp_seq) (s : send) : send :=
  Send (unacknowledged s) (snd_next s) (snd_window s) (snd_window_scale s) (snd_mss s)
    (snd_urgent s) v (wl2 s) (snd_initial s) (snd_data s) (unsent s) (unsent_len s) (closed s)
    (all_data_acked_promise s) (max_queue_space s) (current_queue_space s)
    (send_available_promise s) (rttvar s) (srtt s) (first_rto_sample s) (syn_tx_time s) (cwnd s)
    (ssthresh s) (dupacks s) (syn_retransmit s) (fin_retransmit s) (limited_transfer s)
    (partial_ack s) (recover s) (window_probe s) (zero_window_probing_out s).
Definition set_wl2 (v : tcp_seq) (s : send) : send :=
  Send (unacknowledged s) (snd_next s) (snd_window s) (snd_window_scale s) (snd_mss s)
    (snd_urgent s) (wl1 s) v (snd_initial s) (snd_data s) (unsent s) (unsent_len s) (closed s)
    (all_data_acked_promise s) (max_queue_space s) (current_queue_space s)
    (send_available_promise s) (rttvar s) (srtt s) (first_rto_sample s) (syn_tx_time s) (cwnd s)
    (ssthresh s) (dupacks s) (syn_retransmit s) (fin_retransmit s) (limited_transfer s)
    (partial_ack s) (recover s) (window_probe s) (zero_window_probing_out s).
Definition set_snd_initial (v : tcp_seq) (s : send) : send :=
  Send (unacknowledged s) (snd_next s) (snd_window s) (snd_window_scale s) (snd_mss s)
    (snd_urgent s) (wl1 s) (wl2 s) v (snd_data s) (unsent s) (unsent_len s) (closed s)
    (all_data_acked_promise s) (max_queue_space s) (current_queue_space s)
    (send_available_promise s) (rttvar s) (srtt s) (first_rto_sample s) (syn_tx_time s) (cwnd s)
    (ssthresh s) (dupacks s) (syn_retransmit s) (fin_retransmit s) (limited_transfer s)
    (partial_ack s) (recover s) (window_probe s) (zero_window_probing_out s).
Definition set_snd_data (v : list unacked_segment) (s : send) : send :=
  Send (unacknowledged s) (snd_next s) (snd_window s) (snd_window_scale s) (snd_mss s)
    (snd_urgent s) (wl1 s) (wl2 s) (snd_initial s) v (unsent s) (unsent_len s) (closed s)
    (all_data_acked_promise s) (max_queue_space s) (current_queue_space s)
    (send_available_promise s) (rttvar s) (srtt s) (first_rto_sample s) (syn_tx_time s) (cwnd s)
    (ssthresh s) (dupacks s) (syn_retransmit s) (fin_retransmit s) (limited_transfer s)
    (partial_ack s) (recover s) (window_probe s) (zero_window_probing_out s).
Definition set_unsent (v : list (list Z)) (s : send) : send :=
  Send (unacknowledged s) (snd_next s) (snd_window s) (snd_window_scale s) (snd_mss s)
    (snd_urgent s) (wl1 s) (wl2 s) (snd_initial s) (snd_data s) v (unsent_len s) (closed s)
    (all_data_acked_promise s) (max_queue_space s) (current_queue_space s)
    (send_available_promise s) (rttvar s) (srtt s) (first_rto_sample s) (syn_tx_time s) (cwnd s)
    (ssthresh s) (dupacks s) (syn_retransmit s) (fin_retransmit s) (limited_transfer s)
    (partial_ack s) (recover s) (window_probe s) (zero_window_probing_out s).
Definition set_unsent_len (v : Z) (s : send) : send :=
  Send (unacknowledged s) (snd_next s) (snd_window s) (snd_window_scale s) (snd_mss s)
    (snd_urgent s) (wl1 s) (wl2 s) (snd_initial s) (snd_data s) (unsent s) v (closed s)
    (all_data_acked_promise s) (max_queue_space s) (current_queue_space s)
    (send_available_promise s) (rttvar s) (srtt s) (first_rto_sample s) (syn_tx_time s) (cwnd s)
    (ssthresh s) (dupacks s) (syn_retransmit s) (fin_retransmit s) (limited_transfer s)
    (partial_ack s) (recover s) (window_probe s) (zero_window_probing_out s).
Definition set_closed (v : bool) (s : send) : send :=
  Send (unacknowledged s) (snd_next s) (snd_window s) (snd_window_scale s) (snd_mss s)
    (snd_urgent s) (wl1 s) (wl2 s) (snd_initial s) (snd_data s) (unsent s) (unsent_len s) v
    (all_data_acked_promise s) (max_queue_space s) (current_queue_space s)
    (send_available_promise s) (rttvar s) (srtt s) (first_rto_sample s) (syn_tx_time s) (cwnd s)
    (ssthresh s) (dupacks s) (syn_retransmit s) (fin_retransmit s) (limited_transfer s)
    (partial_ack s) (recover s) (window_probe s) (zero_window_probing_out s).
Definition set_all_data_acked_promise (v : bool) (s : send) : send :=
  Send (unacknowledged s) (snd_next s) (snd_window s) (snd_window_scale s) (snd_mss s)
    (snd_urgent s) (wl1 s) (wl2 s) (snd_initial s) (snd_data s) (unsent s) (unsent_len s)
    (closed s) v (max_queue_space s) (current_queue_space s) (send_available_promise s) (rttvar
    s) (srtt s) (first_rto_sample s) (syn_tx_time s) (cwnd s) (ssthresh s) (dupacks s)
    (syn_retransmit s) (fin_retransmit s) (limited_transfer s) (partial_ack s) (recover s)
    (window_probe s) (zero_window_probing_out s).
Definition set_max_queue_space (v : Z) (s : send) : send :=
  Send (unacknowledged s) (snd_next s) (snd_window s) (snd_window_scale s) (snd_mss s)
    (snd_urgent s) (wl1 s) (wl2 s) (snd_initial s) (snd_data s) (unsent s) (unsent_len s)
    (closed s) (all_data_acked_promise s) v (current_queue_space s) (send_available_promise s)
    (rttvar s) (srtt s) (first_rto_sample s) (syn_tx_time s) (cwnd s) (ssthresh s) (dupacks s)
    (syn_retransmit s) (fin_retransmit s) (limited_transfer s) (partial_ack s) (recover s)
    (window_probe s) (zero_window_probing_out s).
Definition set_current_queue_space (v : Z) (s : send) : send :=
  Send (unacknowledged s) (snd_next s) (snd_window s) (snd_window_scale s) (snd_mss s)
    (snd_urgent s) (wl1 s) (wl2 s) (snd_initial s) (snd_data s) (unsent s) (unsent_len s)
    (closed s) (all_data_acked_promise s) (max_queue_space s) v (send_available_promise s)
    (rttvar s) (srtt s) (first_rto_sample s) (syn_tx_time s) (cwnd s) (ssthresh s) (dupacks s)
    (syn_retransmit s) (fin_retransmit s) (limited_transfer s) (partial_ack s) (recover s)
    (window_probe s) (zero_window_probing_out s).
Definition set_send_available_promise (v : bool) (s : send) : send :=
  Send (unacknowledged s) (snd_next s) (snd_window s) (snd_window_scale s) (snd_mss s)
    (snd_urgent s) (wl1 s) (wl2 s) (snd_initial s) (snd_data s) (unsent s) (unsent_len s)
    (closed s) (all_data_acked_promise s) (max_queue_space s) (current_queue_space s) v (rttvar
    s) (srtt s) (first_rto_sample s) (syn_tx_time s) (cwnd s) (ssthresh s) (dupacks s)
    (syn_retransmit s) (fin_retransmit s) (limited_transfer s) (partial_ack s) (recover s)
    (window_probe s) (zero_window_probing_out s).
Definition set_rttvar (v : Z) (s : send) : send :=
  Send (unacknowledged s) (snd_next s) (snd_window s) (snd_window_scale s) (snd_mss s)
    (snd_urgent s) (wl1 s) (wl2 s) (snd_initial s) (snd_data s) (unsent s) (unsent_len s)
    (closed s) (all_data_acked_promise s) (max_queue_space s) (current_queue_space s)
    (send_available_promise s) v (srtt s) (first_rto_sample s) (syn_tx_time s) (cwnd s)
    (ssthresh s) (dupacks s) (syn_retransmit s) (fin_retransmit s) (limited_transfer s)
    (partial_ack s) (recover s) (window_probe s) (zero_window_probing_out s).
Definition set_srtt (v : Z) (s : send) : send :=
  Send (unacknowledged s) (snd_next s) (snd_window s) (snd_window_scale s) (snd_mss s)
    (snd_urgent s) (wl1 s) (wl2 s) (snd_initial s) (snd_data s) (unsent s) (unsent_len s)
    (closed s) (all_data_acked_promise s) (max_queue_space s) (current_queue_space s)
    (send_available_promise s) (rttvar s) v (first_rto_sample s) (syn_tx_time s) (cwnd s)
    (ssthresh s) (dupacks s) (syn_retransmit s) (fin_retransmit s) (limited_transfer s)
    (partial_ack s) (recover s) (window_probe s) (zero_window_probing_out s).
Definition set_first_rto_sample (v : bool) (s : send) : send :=
  Send (unacknowledged s) (snd_next s) (snd_window s) (snd_window_scale s) (snd_mss s)
    (snd_urgent s) (wl1 s) (wl2 s) (snd_initial s) (snd_data s) (unsent s) (unsent_len s)
    (closed s) (all_data_acked_promise s) (max_queue_space s) (current_queue_space s)
    (send_available_promise s) (rttvar s) (srtt s) v (syn_tx_time s) (cwnd s) (ssthresh s)
    (dupacks s) (syn_retransmit s) (fin_retransmit s) (limited_transfer s) (partial_ack s)
    (recover s) (window_probe s) (zero_window_probing_out s).
Definition set_syn_tx_time (v : Z) (s : send) : send :=
  Send (unacknowledged s) (snd_next s) (snd_window s) (snd_window_scale s) (snd_mss s)
    (snd_urgent s) (wl1 s) (wl2 s) (snd_initial s) (snd_data s) (unsent s) (unsent_len s)
    (closed s) (all_data_acked_promise s) (max_queue_space s) (current_queue_space s)
    (send_available_promise s) (rttvar s) (srtt s) (first_rto_sample s) v (cwnd s) (ssthresh s)
    (dupacks s) (syn_retransmit s) (fin_retransmit s) (limited_transfer s) (partial_ack s)
    (recover s) (window_probe s) (zero_window_probing_out s).
Definition set_cwnd (v : Z) (s : send) : send :=
  Send (unacknowledged s) (snd_next s) (snd_window s) (snd_window_scale s) (snd_mss s)
    (snd_urgent s) (wl1 s) (wl2 s) (snd_initial s) (snd_data s) (unsent s) (unsent_len s)
    (closed s) (all_data_acked_promise s) (max_queue_space s) (current_queue_space s)
    (send_available_promise s) (rttvar s) (srtt s) (first_rto_sample s) (syn_tx_time s) v
    (ssthresh s) (dupacks s) (syn_retransmit s) (fin_retransmit s) (limited_transfer s)
    (partial_ack s) (recover s) (window_probe s) (zero_window_probing_out s).
Definition set_ssthresh (v : Z) (s : send) : send :=
  Send (unacknowledged s) (snd_next s) (snd_window s) (snd_window_scale s) (snd_mss s)
    (snd_urgent s) (wl1 s) (wl2 s) (snd_initial s) (snd_data s) (unsent s) (unsent_len s)
    (closed s) (all_data_acked_promise s) (max_queue_space s) (current_queue_space s)
    (send_available_promise s) (rttvar s) (srtt s) (first_rto_sample s) (syn_tx_time s) (cwnd s)
    v (dupacks s) (syn_retransmit s) (fin_retransmit s) (limited_transfer s) (partial_ack s)
    (recover s) (window_probe s) (zero_window_probing_out s).
Definition set_dupacks (v : Z) (s : send) : send :=
  Send (unacknowledged s) (snd_next s) (snd_window s) (snd_window_scale s) (snd_mss s)
    (snd_urgent s) (wl1 s) (wl2 s) (snd_initial s) (snd_data s) (unsent s) (unsent_len s)
    (closed s) (all_data_acked_promise s) (max_queue_space s) (current_queue_space s)
    (send_available_promise s) (rttvar s) (srtt s) (first_rto_sample s) (syn_tx_time s) (cwnd s)
    (ssthresh s) v (syn_retransmit s) (fin_retransmit s) (limited_transfer s) (partial_ack s)
    (recover s) (window_probe s) (zero_window_probing_out s).
Definition set_syn_retransmit (v : Z) (s : send) : send :=
  Send (unacknowledged s) (snd_next s) (snd_window s) (snd_window_scale s) (snd_mss s)
    (snd_urgent s) (wl1 s) (wl2 s) (snd_initial s) (snd_data s) (unsent s) (unsent_len s)
    (closed s) (all_data_acked_promise s) (max_queue_space s) (current_queue_space s)
    (send_available_promise s) (rttvar s) (srtt s) (first_rto_sample s) (syn_tx_time s) (cwnd s)
    (ssthresh s) (dupacks s) v (fin_retransmit s) (limited_transfer s) (partial_ack s) (recover
    s) (window_probe s) (zero_window_probing_out s).
Definition set_fin_retransmit (v : Z) (s : send) : send :=
  Send (unacknowledged s) (snd_next s) (snd_window s) (snd_window_scale s) (snd_mss s)
    (snd_urgent s) (wl1 s) (wl2 s) (snd_initial s) (snd_data s) (unsent s) (unsent_len s)
    (closed s) (all_data_acked_promise s) (max_queue_space s) (current_queue_space s)
    (send_available_promise s) (rttvar s) (srtt s) (first_rto_sample s) (syn_tx_time s) (cwnd s)
    (ssthresh s) (dupacks s) (syn_retransmit s) v (limited_transfer s) (partial_ack s) (recover
    s) (window_probe s) (zero_window_probing_out s).
Definition set_limited_transfer (v : Z) (s : send) : send :=
  Send (unacknowledged s) (snd_next s) (snd_window s) (snd_window_scale s) (snd_mss s)
    (snd_urgent s) (wl1 s) (wl2 s) (snd_initial s) (snd_data s) (unsent s) (unsent_len s)
    (closed s) (all_data_acked_promise s) (max_queue_space s) (current_queue_space s)
    (send_available_promise s) (rttvar s) (srtt s) (first_rto_sample s) (syn_tx_time s) (cwnd s)
    (ssthresh s) (dupacks s) (syn_retransmit s) (fin_retransmit s) v (partial_ack s) (recover s)
    (window_probe s) (zero_window_probing_out s).
Definition set_partial_ack (v : Z) (s : send) : send :=
  Send (unacknowledged s) (snd_next s) (snd_window s) (snd_window_scale s) (snd_mss s)
    (snd_urgent s) (wl1 s) (wl2 s) (snd_initial s) (snd_data s) (unsent s) (unsent_len s)
    (closed s) (all_data_acked_promise s) (max_queue_space s) (current_queue_space s)
    (send_available_promise s) (rttvar s) (srtt s) (first_rto_sample s) (syn_tx_time s) (cwnd s)
    (ssthresh s) (dupacks s) (syn_retransmit s) (fin_retransmit s) (limited_transfer s) v
    (recover s) (window_probe s) (zero_window_probing_out s).
Definition set_recover (v : tcp_seq) (s : send) : send :=
  Send (unacknowledged s) (snd_next s) (snd_window s) (snd_window_scale s) (snd_mss s)
    (snd_urgent s) (wl1 s) (wl2 s) (snd_initial s) (snd_data s) (unsent s) (unsent_len s)
    (closed s) (all_data_acked_promise s) (max_queue_space s) (current_queue_space s)
    (send_available_promise s) (rttvar s) (srtt s) (first_rto_sample s) (syn_tx_time s) (cwnd s)
    (ssthresh s) (dupacks s) (syn_retransmit s) (fin_retransmit s) (limited_transfer s)
    (partial_ack s) v (window_probe s) (zero_window_probing_out s).
Definition set_window_probe (v : bool) (s : send) : send :=
  Send (unacknowledged s) (snd_next s) (snd_window s) (snd_window_scale s) (snd_mss s)
    (snd_urgent s) (wl1 s) (wl2 s) (snd_initial s) (snd_data s) (unsent s) (unsent_len s)
    (closed s) (all_data_acked_promise s) (max_queue_space s) (current_queue_space s)
    (send_available_promise s) (rttvar s) (srtt s) (first_rto_sample s) (syn_tx_time s) (cwnd s)
    (ssthresh s) (dupacks s) (syn_retransmit s) (fin_retransmit s) (limited_transfer s)
    (partial_ack s) (recover s) v (zero_window_probing_out s).
Definition set_zero_window_probing_out (v : Z) (s : send) : send :=
  Send (unacknowledged s) (snd_next s) (snd_window s) (snd_window_scale s) (snd_mss s)
    (snd_urgent s) (wl1 s) (wl2 s) (snd_initial s) (snd_data s) (unsent s) (unsent_len s)
    (closed s) (all_data_acked_promise s) (max_queue_space s) (current_queue_space s)
    (send_available_promise s) (rttvar s) (srtt s) (first_rto_sample s) (syn_tx_time s) (cwnd s)
    (ssthresh s) (dupacks s) (syn_retransmit s) (fin_retransmit s) (limited_transfer s)
    (partial_ack s) (recover s) (window_probe s) v.

Definition set_rcv_next (v : tcp_seq) (r : receive) : receive :=
  Receive v (rcv_window r) (rcv_window_scale r) (rcv_mss r) (rcv_urgent r) (rcv_initial r)
    (rcv_data r) (data_size r) (out_of_order r) (data_received_promise r) (max_receive_buf_size
    r).
Definition set_rcv_window (v : Z) (r : receive) : receive :=
  Receive (rcv_next r) v (rcv_window_scale r) (rcv_mss r) (rcv_urgent r) (rcv_initial r)
    (rcv_data r) (data_size r) (out_of_order r) (data_received_promise r) (max_receive_buf_size
    r).
Definition set_rcv_window_scale (v : Z) (r : receive) : receive :=
  Receive (rcv_next r) (rcv_window r) v (rcv_mss r) (rcv_urgent r) (rcv_initial r) (rcv_data r)
    (data_size r) (out_of_order r) (data_received_promise r) (max_receive_buf_size r).
Definition set_rcv_mss (v : Z) (r : receive) : receive :=
  Receive (rcv_next r) (rcv_window r) (rcv_window_scale r) v (rcv_urgent r) (rcv_initial r)
    (rcv_data r) (data_size r) (out_of_order r) (data_received_promise r) (max_receive_buf_size
    r).
Definition set_rcv_urgent (v : tcp_seq) (r : receive) : receive :=
  Receive (rcv_next r) (rcv_window r) (rcv_window_scale r) (rcv_mss r) v (rcv_initial r)
    (rcv_data r) (data_size r) (out_of_order r) (data_received_promise r) (max_receive_buf_size
    r).
Definition set_rcv_initial (v : tcp_seq) (r : receive) : receive :=
  Receive (rcv_next r) (rcv_window r) (rcv_window_scale r) (rcv_mss r) (rcv_urgent r) v
    (rcv_data r) (data_size r) (out_of_order r) (data_received_promise r) (max_receive_buf_size
    r).
Definition set_rcv_data (v : list (list Z)) (r : receive) : receive :=
  Receive (rcv_next r) (rcv_window r) (rcv_window_scale r) (rcv_mss r) (rcv_urgent r)
    (rcv_initial r) v (data_size r) (out_of_order r) (data_received_promise r)
    (max_receive_buf_size r).
Definition set_data_size (v : Z) (r : receive) : receive :=
  Receive (rcv_next r) (rcv_window r) (rcv_window_scale r) (rcv_mss r) (rcv_urgent r)
    (rcv_initial r) (rcv_data r) v (out_of_order r) (data_received_promise r)
    (max_receive_buf_size r).
Definition set_out_of_order (v : seg_map tcp_seq) (r : receive) : receive :=
  Receive (rcv_next r) (rcv_window r) (rcv_window_scale r) (rcv_mss r) (rcv_urgent r)
    (rcv_initial r) (rcv_data r) (data_size r) v (data_received_promise r) (max_receive_buf_size
    r).
Definition set_data_received_promise (v : bool) (r : receive) : receive :=
  Receive (rcv_next r) (rcv_window r) (rcv_window_scale r) (rcv_mss r) (rcv_urgent r)
    (rcv_initial r) (rcv_data r) (data_size r) (out_of_order r) v (max_receive_buf_size r).
Definition set_max_receive_buf_size (v : Z) (r : receive) : receive :=
  Receive (rcv_next r) (rcv_window r) (rcv_window_scale r) (rcv_mss r) (rcv_urgent r)
    (rcv_initial r) (rcv_data r) (data_size r) (out_of_order r) (data_received_promise r) v.

Definition set_state (v : tcp_state) (t : tcb) : tcb :=
  Tcb v (local_ip t) (foreign_ip t) (local_port t) (foreign_port t) (snd t) (rcv t) (option_ t)
    (delayed_ack t) (rto t) (persist_time_out t) (retransmit_timer t) (persist_timer t)
    (nr_full_seg_received t) (packetq t) (poll_active t).
Definition set_local_ip (v : Z) (t : tcb) : tcb :=
  Tcb (state t) v (foreign_ip t) (local_port t) (foreign_port t) (snd t) (rcv t) (option_ t)
    (delayed_ack t) (rto t) (persist_time_out t) (retransmit_timer t) (persist_timer t)
    (nr_full_seg_received t) (packetq t) (poll_active t).
Definition set_foreign_ip (v : Z) (t : tcb) : tcb :=
  Tcb (state t) (local_ip t) v (local_port t) (foreign_port t) (snd t) (rcv t) (option_ t)
    (delayed_ack t) (rto t) (persist_time_out t) (retransmit_timer t) (persist_timer t)
    (nr_full_seg_received t) (packetq t) (poll_active t).
Definition set_local_port (v : Z) (t : tcb) : tcb :=
  Tcb (state t) (local_ip t) (foreign_ip t) v (foreign_port t) (snd t) (rcv t) (option_ t)
    (delayed_ack t) (rto t) (persist_time_out t) (retransmit_timer t) (persist_timer t)
    (nr_full_seg_received t) (packetq t) (poll_active t).
Definition set_foreign_port (v : Z) (t : tcb) : tcb :=
  Tcb (state t) (local_ip t) (foreign_ip t) (local_port t) v (snd t) (rcv t) (option_ t)
    (delayed_ack t) (rto t) (persist_time_out t) (retransmit_timer t) (persist_timer t)
    (nr_full_seg_received t) (packetq t) (poll_active t).
Definition set_snd (v : send) (t : tcb) : tcb :=
  Tcb (state t) (local_ip t) (foreign_ip t) (local_port t) (foreign_port t) v (rcv t) (option_
    t) (delayed_ack t) (rto t) (persist_time_out t) (retransmit_timer t) (persist_timer t)
    (nr_full_seg_received t) (packetq t) (poll_active t).
Definition set_rcv (v : receive) (t : tcb) : tcb :=
  Tcb (state t) (local_ip t) (foreign_ip t) (local_port t) (foreign_port t) (snd t) v (option_
    t) (delayed_ack t) (rto t) (persist_time_out t) (retransmit_timer t) (persist_timer t)
    (nr_full_seg_received t) (packetq t) (poll_active t).
Definition set_option_ (v : tcp_option) (t : tcb) : tcb :=
  Tcb (state t) (local_ip t) (foreign_ip t) (local_port t) (foreign_port t) (snd t) (rcv t) v
    (delayed_ack t) (rto t) (persist_time_out t) (retransmit_timer t) (persist_timer t)
    (nr_full_seg_received t) (packetq t) (poll_active t).
Definition set_delayed_ack (v : T) (t : tcb) : tcb :=
  Tcb (state t) (local_ip t) (foreign_ip t) (local_port t) (foreign_port t) (snd t) (rcv t)
    (option_ t) v (rto t) (persist_time_out t) (retransmit_timer t) (persist_timer t)
    (nr_full_seg_received t) (packetq t) (poll_active t).
Definition set_rto (v : Z) (t : tcb) : tcb :=
  Tcb (state t) (local_ip t) (foreign_ip t) (local_port t) (foreign_port t) (snd t) (rcv t)
    (option_ t) (delayed_ack t) v (persist_time_out t) (retransmit_timer t) (persist_timer t)
    (nr_full_seg_received t) (packetq t) (poll_active t).
Definition set_persist_time_out (v : Z) (t : tcb) : tcb :=
  Tcb (state t) (local_ip t) (foreign_ip t) (local_port t) (foreign_port t) (snd t) (rcv t)
    (option_ t) (delayed_ack t) (rto t) v (retransmit_timer t) (persist_timer t)
    (nr_full_seg_received t) (packetq t) (poll_active t).
Definition set_retransmit_timer (v : T) (t : tcb) : tcb :=
  Tcb (state t) (local_ip t) (foreign_ip t) (local_port t) (foreign_port t) (snd t) (rcv t)
    (option_ t) (delayed_ack t) (rto t) (persist_time_out t) v (persist_timer t)
    (nr_full_seg_received t) (packetq t) (poll_active t).
Definition set_persist_timer (v : T) (t : tcb) : tcb :=
  Tcb (state t) (local_ip t) (foreign_ip t) (local_port t) (foreign_port t) (snd t) (rcv t)
    (option_ t) (delayed_ack t) (rto t) (persist_time_out t) (retransmit_timer t) v
    (nr_full_seg_received t) (packetq t) (poll_active t).
Definition set_nr_full_seg_received (v : Z) (t : tcb) : tcb :=
  Tcb (state t) (local_ip t) (foreign_ip t) (local_port t) (foreign_port t) (snd t) (rcv t)
    (option_ t) (delayed_ack t) (rto t) (persist_time_out t) (retransmit_timer t) (persist_timer
    t) v (packetq t) (poll_active t).
Definition set_packetq (v : list packet) (t : tcb) : tcb :=
  Tcb (state t) (local_ip t) (foreign_ip t) (local_port t) (foreign_port t) (snd t) (rcv t)
    (option_ t) (delayed_ack t) (rto t) (persist_time_out t) (retransmit_timer t) (persist_timer
    t) (nr_full_seg_received t) v (poll_active t).
Definition set_poll_active (v : bool) (t : tcb) : tcb :=
  Tcb (state t) (local_ip t) (foreign_ip t) (local_port t) (foreign_port t) (snd t) (rcv t)
    (option_ t) (delayed_ack t) (rto t) (persist_time_out t) (retransmit_timer t) (persist_timer
    t) (nr_full_seg_received t) (packetq t) v.

Definition upd_snd (f : send -> send) (t : tcb) : tcb := set_snd (f (snd t)) t.
Definition upd_rcv (f : receive -> receive) (t : tcb) : tcb := set_rcv (f (rcv t)) t.

End Tcb.
