(* ===== verification/Tcb.v ===== *)
(** * The operations of the TCP control block: include/nil/actor/network/tcp.hh

    One definition per member function of [tcp<InetTraits>::tcb], composed the
    way the code composes them. *)

From S2P Require Import Prelude Core ByteOrder Checksum Packet Net TcpSeq TcpHdr PacketMerger TcbData.
From stdpp Require Import base numbers option list.

#[local] Open Scope Z_scope.

Section Tcb.
Context {BC : BeCodec} {AU : AlignUp} {T : Type} {TM : TimerOps T}.
Abbreviation tcb := (@TcbData.tcb T).

(** The byte order of the host, the features of the interface, [clock_type::now()]
    in milliseconds during the operation, and [get_isn()] (an MD5 digest and the
    clock). *)
Variable e : endian.
Variable hw : hw_features.
Variable now : Z.
Variable get_isn : tcb -> Z -> tcp_seq.

(** ** The monad *)

Definition M (A : Type) : Type := tcb -> option (A * tcb * list event).

#[global] Instance M_ret : MRet M := fun A x t => Some (x, t, []).
#[global] Instance M_bind : MBind M := fun A B f m t =>
  match m t with
  | Some (x, t', es) =>
      match f x t' with
      | Some (y, t'', es') => Some (y, t'', es ++ es')
      | None => None
      end
  | None => None
  end.

Definition get_tcb : M tcb := fun t => Some (t, t, []).
Definition modify (f : tcb -> tcb) : M () := fun t => Some ((), f t, []).
Definition modify_snd (f : send -> send) : M () := modify (upd_snd f).
Definition modify_rcv (f : receive -> receive) : M () := modify (upd_rcv f).
Definition emit (ev : event) : M () := fun t => Some ((), t, [ev]).
Definition lift {A} (o : option A) : M A := fun t => match o with Some x => Some (x, t, []) | None => None end.
Definition skip : M () := mret ().
Definition when (b : bool) (m : M ()) : M () := if b then m else skip.

(** [v << s] on [int], converted to [uint32_t]; undefined from 32 bits on. *)
Definition shl32 (v s : Z) : option Z := if s <? 32 then Some (u32 (Z.shiftl v s)) else None.

(** ** Small members *)

Definition tcb_in_state (l : list tcp_state) (t : tcb) : bool :=
  negb (Z.land (Z.shiftl 1 (state_bit (state t))) (state_mask l) =? 0).

Definition get_default_receive_window_size (t : tcb) : Z := u32 (Z.shiftl 29200 (rcv_window_scale (rcv t))).

Definition get_modified_receive_window_size (t : tcb) : Z :=
  let left := if max_receive_buf_size (rcv t) <? data_size (rcv t) then 0
              else u32 (max_receive_buf_size (rcv t) - data_size (rcv t)) in
  Z.min left (get_default_receive_window_size t).

Definition local_mss_ : Z := u16 (mtu hw - tcp_hdr_len_min - ipv4_hdr_len_min).

Definition syn_needs_on (t : tcb) : bool := tcb_in_state [SYN_SENT; SYN_RECEIVED] t.
Definition fin_needs_on (t : tcb) : bool :=
  tcb_in_state [FIN_WAIT_1; CLOSING; LAST_ACK] t && closed (snd t) && (unsent_len (snd t) =? 0).
Definition ack_needs_on (t : tcb) : bool := negb (tcb_in_state [CLOSED; LISTEN; SYN_SENT] t).
Definition foreign_will_not_send (t : tcb) : bool :=
  tcb_in_state [CLOSING; TIME_WAIT; CLOSE_WAIT; LAST_ACK; CLOSED] t.

(** [output()]: ask to be polled, once. *)
Definition output : M () :=
  t ← get_tcb;
  if poll_active t then skip
  else modify (set_poll_active true);; emit (EvPoll (foreign_ip t)).

Definition start_retransmit_timer : M () :=
  modify (fun t => set_retransmit_timer (tm_rearm (now + rto t) (retransmit_timer t)) t).
Definition stop_retransmit_timer : M () :=
  modify (fun t => set_retransmit_timer (tm_cancel (retransmit_timer t)) t).
Definition start_persist_timer : M () :=
  modify (fun t => set_persist_timer (tm_rearm (now + persist_time_out t) (persist_timer t)) t).
Definition stop_persist_timer : M () :=
  modify (fun t => set_persist_timer (tm_cancel (persist_timer t)) t).
Definition clear_delayed_ack : M () :=
  modify (fun t => set_delayed_ack (tm_cancel (delayed_ack t)) t).

(** [flight_size()]: a [uint32_t] sum over the retransmission queue. *)
Definition flight_size_of (s : send) : Z :=
  fold_left (fun size seg => u32 (size + zlen (seg_p seg))) (snd_data s) 0.

(** [can_send()], which counts what limited transfer allows. *)
Definition can_send : M Z :=
  t ← get_tcb;
  let s := snd t in
  if window_probe s then mret 1
  else if snd_window s =? 0 then mret 0
  else
    let window_used := u32 (seq_diff (snd_next s) (unacknowledged s)) in
    if snd_window s <? window_used then mret 0
    else
      let x := Z.min (u32 (snd_window s - window_used)) (unsent_len s) in
      let x := Z.min (cwnd s) x in
      if (dupacks s =? 1) || (dupacks s =? 2) then
        let flight := flight_size_of s in
        let max := u32 (cwnd s + 2 * snd_mss s) in
        let x := if flight <=? max then Z.min x (u32 (max - flight)) else 0 in
        modify_snd (fun s => set_limited_transfer (u32 (limited_transfer s + x)) s);;
        mret x
      else if 3 <=? dupacks s then mret (Z.min (snd_mss s) x)
      else mret x.

Definition queue_packet (p : packet) : M () := modify (fun t => set_packetq (packetq t ++ [p]) t).

Definition signal_data_received : M () :=
  t ← get_tcb;
  when (data_received_promise (rcv t))
    (emit (EvDataReceived Ok);; modify_rcv (set_data_received_promise false)).

Definition signal_all_data_acked : M () :=
  t ← get_tcb;
  when (all_data_acked_promise (snd t) && (unsent_len (snd t) =? 0))
    (emit (EvAllDataAcked Ok);; modify_snd (set_all_data_acked_promise false)).

Definition signal_send_available : M () :=
  t ← get_tcb;
  when (send_available_promise (snd t) && (current_queue_space (snd t) <? max_queue_space (snd t)))
    (emit (EvSendAvailable Ok);; modify_snd (set_send_available_promise false)).

Definition exit_fast_recovery : M () :=
  modify_snd (fun s => set_dupacks 0 (set_limited_transfer 0 (set_partial_ack 0 s))).

(** [cleanup()] *)
Definition cleanup : M () :=
  modify_snd (fun s => set_unsent [] s);;
  modify_snd (fun s => set_snd_data [] s);;
  modify_rcv (fun r => set_out_of_order [] r);;
  modify_rcv (fun r => set_data_size 0 r);;
  modify_rcv (fun r => set_rcv_data [] r);;
  stop_retransmit_timer;;
  clear_delayed_ack;;
  emit EvRemove.

(** [update_rto(tx_time)]: RFC 6298. *)
Definition rto_clk_granularity : Z := 1.
Definition rto_min : Z := 1000.
Definition rto_max : Z := 60000.
Definition max_nr_retransmit : Z := 5.

Definition update_rto (tx : Z) : M () :=
  let R := now - tx in
  t ← get_tcb;
  (if first_rto_sample (snd t) then
     modify_snd (fun s => set_first_rto_sample false (set_rttvar (Z.quot R 2) (set_srtt R s)))
   else
     modify_snd (fun s =>
       let delta := if R <? srtt s then srtt s - R else R - srtt s in
       let s := set_rttvar (Z.quot (rttvar s * 3) 4 + Z.quot delta 4) s in
       set_srtt (Z.quot (srtt s * 7) 8 + Z.quot R 8) s));;
  modify (fun t =>
    let r := srtt (snd t) + Z.max rto_clk_granularity (4 * rttvar (snd t)) in
    let r := Z.max r rto_min in
    set_rto (Z.min r rto_max) t).

(** [update_cwnd(acked_bytes)]: the division is undefined for a zero window. *)
Definition update_cwnd (acked_bytes : Z) : M () :=
  t ← get_tcb;
  let s := snd t in
  let smss := snd_mss s in
  if cwnd s <? ssthresh s then modify_snd (fun s => set_cwnd (u32 (cwnd s + Z.min acked_bytes smss)) s)
  else if cwnd s =? 0 then lift None
  else modify_snd (fun s => set_cwnd (u32 (cwnd s + Z.max 1 (u32 (smss * smss) / cwnd s))) s).

Definition do_syn_sent : M () :=
  modify (set_state SYN_SENT);; modify_snd (set_syn_tx_time now);; output.

Definition do_syn_received : M () :=
  modify (set_state SYN_RECEIVED);; modify_snd (set_syn_tx_time now);; output.

Definition do_established : M () :=
  modify (set_state ESTABLISHED);;
  t ← get_tcb;
  update_rto (syn_tx_time (snd t));;
  emit (EvConnectDone Ok).

Definition do_reset : M () :=
  modify (set_state CLOSED);;
  cleanup;;
  t ← get_tcb;
  when (data_received_promise (rcv t))
    (emit (EvDataReceived (Err ResetError));; modify_rcv (set_data_received_promise false));;
  when (all_data_acked_promise (snd t))
    (emit (EvAllDataAcked (Err ResetError));; modify_snd (set_all_data_acked_promise false));;
  when (send_available_promise (snd t))
    (emit (EvSendAvailable (Err ResetError));; modify_snd (set_send_available_promise false)).

Definition do_time_wait : M () := modify (set_state TIME_WAIT);; cleanup.
Definition do_closed : M () := modify (set_state CLOSED);; cleanup.

Definition do_setup_isn : M () :=
  t ← get_tcb;
  let isn := get_isn t now in
  modify_snd (fun s => set_snd_initial isn (set_unacknowledged isn
                        (set_snd_next (seq_add isn 1) (set_recover isn s)))).

Definition do_local_fin_acked : M () :=
  modify_snd (fun s => set_unacknowledged (seq_add (unacknowledged s) 1)
                         (set_snd_next (seq_add (snd_next s) 1) s)).

Definition respond_with_reset (th : tcp_hdr) : M () := emit (EvRespondReset th).

(** ** Acknowledgments *)

(** The loop of [data_segment_acked]: segments that are acknowledged in full. *)
Fixpoint ack_full_segments (seg_ack : tcp_seq) (data : list unacked_segment) (total : Z) : M Z :=
  match data with
  | [] => mret total
  | seg :: data' =>
      t ← get_tcb;
      let acked_bytes := zlen (seg_p seg) in
      if seq_leb (seq_add (unacknowledged (snd t)) acked_bytes) seg_ack then
        modify_snd (fun s => set_unacknowledged (seq_add (unacknowledged s) acked_bytes) s);;
        when (nr_transmits seg =? 0) (update_rto (tx_time seg));;
        update_cwnd acked_bytes;;
        modify_snd (fun s => set_current_queue_space (u64 (current_queue_space s - data_len seg)) s);;
        signal_send_available;;
        modify_snd (set_snd_data data');;
        ack_full_segments seg_ack data' (u32 (total + acked_bytes))
      else mret total
  end.

(** [data_segment_acked(seg_ack)] *)
Definition data_segment_acked (seg_ack : tcp_seq) : M Z :=
  t ← get_tcb;
  total ← ack_full_segments seg_ack (snd_data (snd t)) 0;
  t ← get_tcb;
  if seq_ltb (unacknowledged (snd t)) seg_ack then
    let acked_bytes := seq_diff seg_ack (unacknowledged (snd t)) in
    match snd_data (snd t) with
    | [] => skip
    | seg :: data' =>
        q ← lift (drop_front acked_bytes (seg_p seg));
        modify_snd (set_snd_data (Unacked q (data_len seg) (nr_transmits seg) (tx_time seg) :: data'))
    end;;
    modify_snd (set_unacknowledged seg_ack);;
    update_cwnd (u32 acked_bytes);;
    mret (u32 (total + acked_bytes))
  else mret total.

(** [segment_acceptable(seg_seq, seg_len)] *)
Definition segment_acceptable (r : receive) (seg_seq : tcp_seq) (seg_len : Z) : bool :=
  let right := seq_add (rcv_next r) (rcv_window r) in
  if (seg_len =? 0) && (rcv_window r =? 0) then seq_eqb seg_seq (rcv_next r)
  else if (seg_len =? 0) && (0 <? rcv_window r) then
    seq_leb (rcv_next r) seg_seq && seq_ltb seg_seq right
  else if (0 <? seg_len) && (0 <? rcv_window r) then
    let x := seq_leb (rcv_next r) seg_seq && seq_ltb seg_seq right in
    let last := seq_sub (seq_add seg_seq seg_len) 1 in
    let y := seq_leb (rcv_next r) last && seq_ltb last right in
    x || y
  else false.

(** ** Segments in LISTEN and SYN_SENT *)

(** The congestion window of a new connection. *)
Definition initial_cwnd (mss : Z) : Z :=
  if 2190 <? mss then 2 * mss
  else if (1095 <? mss) && (mss <=? 2190) then 3 * mss
  else 4 * mss.

(** [init_from_options(th, opt_start, opt_end)]: [mem] is the memory from
    [opt_start] on. *)
Definition init_from_options (th : tcp_hdr) (mem : list Z) (opt_len : Z) : M () :=
  t ← get_tcb;
  o ← lift (match parse (Z.to_nat opt_len) mem opt_len (option_ t) with Parsed o => Some o | _ => None end);
  modify (set_option_ o);;
  modify_snd (set_snd_window_scale (remote_win_scale o));;
  modify_rcv (set_rcv_window_scale (local_win_scale o));;
  modify_snd (set_snd_mss (remote_mss o));;
  modify (set_option_ (TcpOption (mss_received o) (win_scale_received o) (timestamps_received o)
    (sack_received o) (remote_mss o) local_mss_ (remote_win_scale o) (local_win_scale o)));;
  modify_rcv (set_rcv_mss local_mss_);;
  modify (fun t => upd_rcv (set_rcv_window (get_default_receive_window_size t)) t);;
  w ← lift (shl32 (window th) (remote_win_scale o));
  modify_snd (set_snd_window w);;
  modify_snd (set_wl1 (h_seq th));;
  modify_snd (set_wl2 (h_ack th));;
  modify_snd (fun s => set_cwnd (initial_cwnd (snd_mss s)) s);;
  modify_snd (set_ssthresh w).

(** The options of a received segment: [get_header(0, data_offset * 4) + len].
    A packet shorter than its header has the null pointer there, which is
    dereferenced or rejected by the assertion of [trim_front]. *)
Definition option_memory (th : tcp_hdr) (p : list Z) : option (list Z) :=
  match header_at 0 (data_offset th * 4) p with
  | Some _ => Some (drop 20 p)
  | None => None
  end.

(** [input_handle_listen_state(th, p)] *)
Definition input_handle_listen_state (th : tcp_hdr) (p : list Z) : M () :=
  let opt_len := data_offset th * 4 - tcp_hdr_len in
  mem ← lift (option_memory th p);
  q ← lift (drop_front (data_offset th * 4) p);
  let seg_seq := h_seq th in
  modify_rcv (set_rcv_next (seq_add seg_seq 1));;
  modify_rcv (set_rcv_initial seg_seq);;
  do_setup_isn;;
  modify_rcv (fun r => set_rcv_urgent (rcv_next r) r);;
  init_from_options th mem opt_len;;
  do_syn_received.

(** [input_handle_syn_sent_state(th, p)] *)
Definition input_handle_syn_sent_state (th : tcp_hdr) (p : list Z) : M () :=
  let opt_len := data_offset th * 4 - tcp_hdr_len in
  mem ← lift (option_memory th p);
  q ← lift (drop_front (data_offset th * 4) p);
  let seg_seq := h_seq th in
  let seg_ack := h_ack th in
  t ← get_tcb;
  let s := snd t in
  if f_ack th && (seq_leb seg_ack (snd_initial s) || seq_gtb seg_ack (snd_next s)) then respond_with_reset th
  else
    let acceptable := f_ack th && seq_leb (unacknowledged s) seg_ack && seq_leb seg_ack (snd_next s) in
    if f_rst th then (if acceptable then do_reset else skip)
    else if f_syn th then
      modify_rcv (set_rcv_next (seq_add seg_seq 1));;
      modify_rcv (set_rcv_initial seg_seq);;
      when (f_ack th) (modify_snd (set_unacknowledged seg_ack));;
      t ← get_tcb;
      if seq_gtb (unacknowledged (snd t)) (snd_initial (snd t)) then
        init_from_options th mem opt_len;;
        do_established;;
        output
      else do_syn_received
    else skip.

(** ** Output *)

(** The part of [get_transmit_packet] that merges packets: [p] so far, the
    bytes that may still be sent, the queue. *)
Fixpoint merge_unsent (p : list Z) (can : Z) (q : list (list Z)) : option (list Z * list (list Z)) :=
  match q with
  | [] => Some (p, [])
  | f :: q' =>
      if zlen f <=? can then merge_unsent (p ++ f) (can - zlen f) q'
      else if can =? 0 then Some (p, q)
      else
        x ← share_bytes 0 can f;
        y ← drop_front can f;
        Some (p ++ x, y :: q')
  end.

(** [get_transmit_packet()] on the queue, for [can] sendable bytes. *)
Definition take_unsent (can : Z) (q : list (list Z)) : option (list Z * list (list Z)) :=
  match q with
  | [] => Some ([], [])
  | [f] => if zlen f <=? can then Some (f, [])
           else x ← share_bytes 0 can f; y ← drop_front can f; Some (x, [y])
  | f :: q' =>
      if can <? zlen f then x ← share_bytes 0 can f; y ← drop_front can f; Some (x, y :: q')
      else merge_unsent f (can - zlen f) q'
  end.

Definition max_segment_len (s : send) : Z :=
  if tx_tso hw then u32 (max_packet_len hw - tcp_hdr_len_min - ipv4_hdr_len_min)
  else Z.min (u16 (mtu hw - tcp_hdr_len_min - ipv4_hdr_len_min)) (snd_mss s).

(** [get_transmit_packet()] *)
Definition get_transmit_packet : M (list Z) :=
  t ← get_tcb;
  match unsent (snd t) with
  | [] => mret []
  | _ =>
      can ← can_send;
      t ← get_tcb;
      let can := Z.min can (max_segment_len (snd t)) in
      '(p, q) ← lift (take_unsent can (unsent (snd t)));
      modify_snd (set_unsent q);;
      modify_snd (fun s => set_unsent_len (u32 (unsent_len s - zlen p)) s);;
      mret p
  end.

(** [tcp_pseudo_header_checksum(csum, src, dst, len)] *)
Definition tcp_pseudo_header_checksum (src dst len : Z) : checksummer :=
  sum_many checksummer_init [U32 src; U32 dst; U8 0; U8 ip_proto_tcp; U16 len].

(** The checksum field: [hdr] is the header and options, [payload] the data. *)
Definition tcp_checksum (src dst seg_len : Z) (pkt_bytes : list Z) : option Z :=
  let csum := tcp_pseudo_header_checksum src dst seg_len in
  if tx_csum_l4_offload hw then Some (u16 (Z.lnot (get e csum)))
  else c ← sum e csum pkt_bytes; Some (get e c).

(** The header of a segment. *)
Definition output_header (t : tcb) (seq : tcp_seq) (syn_on ack_on fin_on : bool) (options_size : Z) : tcp_hdr :=
  TcpHdr (local_port t) (foreign_port t) seq (rcv_next (rcv t)) 0 ((tcp_hdr_len + options_size) / 4)
    fin_on syn_on false false ack_on false 0
    (u16 (Z.shiftr (rcv_window (rcv t)) (rcv_window_scale (rcv t)))) 0 0.

(** The rest of [output_one] once the payload is known. *)
Definition output_segment (data_retransmit : bool) (payload : list Z) : M () :=
  t ← get_tcb;
  let len := u16 (zlen payload) in
  let syn_on := syn_needs_on t in
  let ack_on := ack_needs_on t in
  let options_size := get_size (option_ t) syn_on ack_on in
  when ack_on clear_delayed_ack;;
  t ← get_tcb;
  let seq := if data_retransmit then unacknowledged (snd t)
             else if syn_on then snd_initial (snd t) else snd_next (snd t) in
  when (negb data_retransmit) (modify_snd (fun s => set_snd_next (seq_add (snd_next s) len) s));;
  t ← get_tcb;
  let fin_on := fin_needs_on t in
  let h := output_header t seq syn_on ack_on fin_on options_size in
  opts ← lift (fill (option_ t) syn_on ack_on options_size);
  let oi_tso := tx_csum_l4_offload hw && tx_tso hw && (snd_mss (snd t) <? len) in
  let pseudo_hdr_seg_len := if oi_tso then 0 else u16 (tcp_hdr_len + options_size + len) in
  let p := tcp_hdr_write h ++ opts ++ payload in
  checksum ← lift (tcp_checksum (local_ip t) (foreign_ip t) pseudo_hdr_seg_len p);
  let p := write_nbo_checksum (host_store e 2 checksum) p in
  let oi := OffloadInfo ip_proto_tcp (tx_csum_l4_offload hw) 20 (u8 (tcp_hdr_len + options_size)) 8
                        false false (if oi_tso then snd_mss (snd t) else 0) None in
  when (negb data_retransmit && (negb (len =? 0) || syn_on || fin_on))
    (when (negb (len =? 0))
       (modify_snd (fun s => set_snd_data (snd_data s ++ [Unacked payload len 0 now]) s));;
     t ← get_tcb;
     when (negb (tm_armed (retransmit_timer t))) start_retransmit_timer);;
  t ← get_tcb;
  if (0 <? snd_window (snd t)) || ((snd_window (snd t) =? 0) && (len <=? 1))
  then queue_packet (Pkt p oi)
  else lift None.

(** [output_one(data_retransmit)] *)
Definition output_one (data_retransmit : bool) : M () :=
  t ← get_tcb;
  if tcb_in_state [CLOSED] t then skip
  else
    payload ← (if data_retransmit
               then lift (match snd_data (snd t) with seg :: _ => Some (seg_p seg) | [] => None end)
               else get_transmit_packet);
    output_segment data_retransmit payload.

Definition retransmit_one : M () := output_one true.

(** [fast_retransmit()] *)
Definition fast_retransmit : M () :=
  t ← get_tcb;
  match snd_data (snd t) with
  | [] => skip
  | seg :: data' =>
      modify_snd (set_snd_data (Unacked (seg_p seg) (data_len seg) (nr_transmits seg + 1) (tx_time seg) :: data'));;
      retransmit_one;;
      output
  end.

(** ** Segments in the synchronised states *)

(** The lambda [update_window]. *)
Definition update_window (th : tcp_hdr) (seg_seq seg_ack : tcp_seq) : M () :=
  t ← get_tcb;
  w ← lift (shl32 (window th) (snd_window_scale (snd t)));
  modify_snd (set_snd_window w);;
  modify_snd (set_wl1 seg_seq);;
  modify_snd (set_wl2 seg_ack);;
  modify_snd (set_zero_window_probing_out 0);;
  if w =? 0 then
    modify (fun t => set_persist_time_out (rto t) t);;
    start_persist_timer
  else stop_persist_timer.

(** The lambda [set_retransmit_timer]. *)
Definition reset_retransmit_timer : M () :=
  t ← get_tcb;
  match snd_data (snd t) with
  | [] => stop_retransmit_timer;; signal_all_data_acked
  | _ => start_retransmit_timer
  end.

(** SND.UNA < SEG.ACK =< SND.NXT *)
Definition ack_new_data (th : tcp_hdr) (seg_seq seg_ack : tcp_seq) : M () :=
  acked_bytes ← data_segment_acked seg_ack;
  t ← get_tcb;
  let s := snd t in
  when (seq_ltb (wl1 s) seg_seq || (seq_eqb (wl1 s) seg_seq && seq_leb (wl2 s) seg_ack))
    (update_window th seg_seq seg_ack);;
  t ← get_tcb;
  let s := snd t in
  if 3 <=? dupacks s then
    let smss := snd_mss s in
    if seq_gtb seg_ack (recover s) then
      modify_snd (fun s => set_cwnd (Z.min (ssthresh s) (u32 (Z.max (flight_size_of s) smss + smss))) s);;
      exit_fast_recovery;;
      reset_retransmit_timer
    else
      fast_retransmit;;
      modify_snd (fun s => set_cwnd (u32 (cwnd s - acked_bytes)) s);;
      when (smss <=? acked_bytes) (modify_snd (fun s => set_cwnd (u32 (cwnd s + smss)) s));;
      modify_snd (fun s => set_partial_ack (u32 (partial_ack s + 1)) s);;
      t ← get_tcb;
      when (partial_ack (snd t) =? 1) start_retransmit_timer
  else
    exit_fast_recovery;;
    reset_retransmit_timer.

(** A duplicate acknowledgment; the result is whether to send more data. *)
Definition ack_duplicate (seg_ack : tcp_seq) : M bool :=
  modify_snd (fun s => set_dupacks (u16 (dupacks s + 1)) s);;
  t ← get_tcb;
  let s := snd t in
  let smss := snd_mss s in
  if (dupacks s =? 1) || (dupacks s =? 2) then mret true
  else if dupacks s =? 3 then
    when (seq_gtb (seq_sub seg_ack 1) (recover s))
      (modify_snd (fun s => set_recover (seq_sub (snd_next s) 1) s);;
       modify_snd (fun s => set_ssthresh
         (Z.max (u32 (flight_size_of s - limited_transfer s) / 2) (u32 (2 * smss))) s);;
       fast_retransmit);;
    modify_snd (fun s => set_cwnd (u32 (ssthresh s + 3 * smss)) s);;
    mret false
  else if 3 <? dupacks s then
    modify_snd (fun s => set_cwnd (u32 (cwnd s + smss)) s);;
    mret true
  else mret false.

(** How the processing of the acknowledgment ends: [return], or going on with
    [do_output_data]. *)
Inductive ack_result := AckReturn | AckContinue (do_output_data : bool).

(** The last cases: an acknowledgment of data not sent, and a window update. *)
Definition ack_other (th : tcp_hdr) (seg_seq seg_ack : tcp_seq) : M ack_result :=
  t ← get_tcb;
  let s := snd t in
  if seq_gtb seg_ack (snd_next s) then output;; mret AckReturn
  else if (snd_window s =? 0) && (0 <? window th) then
    update_window th seg_seq seg_ack;; mret (AckContinue true)
  else mret (AckContinue false).

(** 4.5 in ESTABLISHED and CLOSE_WAIT. *)
Definition ack_established (th : tcp_hdr) (seg_seq seg_ack : tcp_seq) (seg_len : Z) : M ack_result :=
  t ← get_tcb;
  let s := snd t in
  let packets_out := s32 (seq_diff (snd_next s) (unacknowledged s) - zero_window_probing_out s) in
  if seq_ltb (unacknowledged s) seg_ack && seq_leb seg_ack (snd_next s) then
    ack_new_data th seg_seq seg_ack;; mret (AckContinue true)
  else if (0 <? packets_out) && negb (match snd_data s with [] => true | _ => false end) && (seg_len =? 0) &&
          negb (f_fin th) && negb (f_syn th) && seq_eqb (h_ack th) (unacknowledged s) then
    w ← lift (shl32 (window th) (snd_window_scale s));
    if w =? snd_window s then more ← ack_duplicate seg_ack; mret (AckContinue more)
    else ack_other th seg_seq seg_ack
  else ack_other th seg_seq seg_ack.

(** 4.5, the acknowledgment field. *)
Definition process_ack (th : tcp_hdr) (seg_seq seg_ack : tcp_seq) (seg_len : Z) : M ack_result :=
  t ← get_tcb;
  let s := snd t in
  if tcb_in_state [SYN_RECEIVED] t && negb (seq_leb (unacknowledged s) seg_ack && seq_leb seg_ack (snd_next s))
  then respond_with_reset th;; mret AckReturn
  else
    when (tcb_in_state [SYN_RECEIVED] t) (do_established;; emit (EvAddConnected (local_port t)));;
    t ← get_tcb;
    r ← (if tcb_in_state [ESTABLISHED; CLOSE_WAIT] t then ack_established th seg_seq seg_ack seg_len
         else mret (AckContinue false));
    match r with
    | AckReturn => mret AckReturn
    | AckContinue more =>
        t ← get_tcb;
        let fin_acked := seq_eqb seg_ack (seq_add (snd_next (snd t)) 1) in
        when (tcb_in_state [FIN_WAIT_1] t && fin_acked) (modify (set_state FIN_WAIT_2);; do_local_fin_acked);;
        if tcb_in_state [CLOSING] t then
          when fin_acked (do_local_fin_acked;; do_time_wait);; mret AckReturn
        else if tcb_in_state [LAST_ACK] t && fin_acked then
          do_local_fin_acked;; do_closed;; mret AckReturn
        else mret (AckContinue more)
    end.

(** [should_send_ack(seg_len)], with [seg_len] converted to [uint16_t]. *)
Definition should_send_ack (seg_len : Z) : M bool :=
  t ← get_tcb;
  let mss := rcv_mss (rcv t) in
  if mss <? seg_len then
    modify (set_nr_full_seg_received 0);; clear_delayed_ack;; mret true
  else
    second ← (if seg_len =? mss then
                modify (fun t => set_nr_full_seg_received (u16 (nr_full_seg_received t + 1)) t);;
                mret (1 <=? nr_full_seg_received t)
              else mret false);
    if (second : bool) then modify (set_nr_full_seg_received 0);; clear_delayed_ack;; mret true
    else
      when (negb (tm_armed (delayed_ack t))) (modify (fun t => set_delayed_ack (tm_rearm (now + 200) (delayed_ack t)) t));;
      mret false.

(** The loop of [merge_out_of_order()] over the segments in order. *)
Fixpoint merge_segments (m : seg_map tcp_seq) (r : receive) (merged : bool) : option (receive * bool) :=
  match m with
  | [] => Some (set_out_of_order [] r, merged)
  | (seg_beg, p) :: m' =>
      let seg_end := seq_add seg_beg (zlen p) in
      if seq_leb seg_beg (rcv_next r) && seq_ltb (rcv_next r) seg_end then
        q ← drop_front (seq_diff (rcv_next r) seg_beg) p;
        let r := set_rcv_next (seq_add (rcv_next r) (zlen q)) r in
        let r := set_data_size (u64 (data_size r + zlen q)) r in
        merge_segments m' (set_rcv_data (rcv_data r ++ [q]) r) true
      else if seq_geb (rcv_next r) seg_end then merge_segments m' r merged
      else Some (set_out_of_order m r, merged)
  end.

(** [merge_out_of_order()] *)
Definition merge_out_of_order : M bool :=
  t ← get_tcb;
  '(r, merged) ← lift (merge_segments (out_of_order (rcv t)) (rcv t) false);
  modify (set_rcv r);;
  mret merged.

(** [insert_out_of_order(seg, p)] *)
Definition insert_out_of_order (seg : tcp_seq) (p : list Z) : M () :=
  t ← get_tcb;
  '(m, _) ← lift (PacketMerger.merge seg p (out_of_order (rcv t)));
  modify_rcv (set_out_of_order m).

(** 4.7, the segment text: whether to send an acknowledgment. *)
Definition process_text (p : list Z) (seg_len : Z) : M bool :=
  if zlen p =? 0 then mret false
  else
    modify_rcv (fun r => set_data_size (u64 (data_size r + zlen p)) r);;
    modify_rcv (fun r => set_rcv_data (rcv_data r ++ [p]) r);;
    modify_rcv (fun r => set_rcv_next (seq_add (rcv_next r) seg_len) r);;
    merged ← merge_out_of_order;
    modify (fun t => upd_rcv (set_rcv_window (get_modified_receive_window_size t)) t);;
    signal_data_received;;
    if (merged : bool) then mret true else should_send_ack (u16 seg_len).

(** 4.8, the FIN bit: [None] is [return], otherwise whether [do_output] stays set. *)
Definition process_fin (th : tcp_hdr) (seg_seq : tcp_seq) (seg_len : Z) (do_output : bool) : M (option bool) :=
  if negb (f_fin th) then mret (Some do_output)
  else
    t ← get_tcb;
    if tcb_in_state [CLOSED; LISTEN; SYN_SENT] t then mret None
    else
      let fin_seq := seq_add seg_seq seg_len in
      if negb (seq_eqb fin_seq (rcv_next (rcv t))) then mret (Some do_output)
      else
        modify_rcv (set_rcv_next (seq_add fin_seq 1));;
        signal_data_received;;
        clear_delayed_ack;;
        output;;
        when (tcb_in_state [SYN_RECEIVED; ESTABLISHED] t) (modify (set_state CLOSE_WAIT));;
        when (tcb_in_state [FIN_WAIT_1] t) (modify (set_state CLOSING));;
        if tcb_in_state [FIN_WAIT_2] t then do_time_wait;; mret None
        else mret (Some false).

(** The end of the handler: [if (do_output || (do_output_data && can_send()))] *)
Definition final_output (do_output do_output_data : bool) : M () :=
  b ← (if do_output then mret true
       else if do_output_data then n ← can_send; mret (negb (n =? 0))
       else mret false);
  when b (clear_delayed_ack;; output).

(** 4.2, the RST bit: whether the handler returns. *)
Definition process_rst : M bool :=
  t ← get_tcb;
  if tcb_in_state [SYN_RECEIVED] t then emit (EvConnectDone (Err RefusedError));; do_reset;; mret true
  else if tcb_in_state [ESTABLISHED; FIN_WAIT_1; FIN_WAIT_2; CLOSE_WAIT] t then do_reset;; mret true
  else if tcb_in_state [CLOSING; LAST_ACK; TIME_WAIT] t then do_closed;; mret true
  else mret false.

(** 4.5 to the end, for the in-order segment. *)
Definition process_segment (th : tcp_hdr) (p : list Z) (seg_seq : tcp_seq) (seg_len : Z) : M () :=
  r ← process_ack th seg_seq (h_ack th) seg_len;
  match r with
  | AckReturn => skip
  | AckContinue do_output_data =>
      t ← get_tcb;
      if tcb_in_state [CLOSE_WAIT; CLOSING; LAST_ACK; TIME_WAIT] t then skip
      else
        do_output ← (if tcb_in_state [ESTABLISHED; FIN_WAIT_1; FIN_WAIT_2] t
                     then process_text p seg_len else mret false);
        f ← process_fin th seg_seq seg_len do_output;
        match f with
        | None => skip
        | Some do_output => final_output do_output do_output_data
        end
  end.

(** [input_handle_other_state(th, p)] *)
Definition input_handle_other_state (th : tcp_hdr) (p : list Z) : M () :=
  p ← lift (drop_front (data_offset th * 4) p);
  t ← get_tcb;
  let seg_seq := h_seq th in
  let seg_len := zlen p in
  let next := rcv_next (rcv t) in
  if negb (segment_acceptable (rcv t) seg_seq seg_len) then output
  else
    let dup := if seq_ltb seg_seq next then Z.min (u32 (seq_diff next seg_seq)) seg_len else 0 in
    p ← lift (drop_front dup p);
    let seg_len := seg_len - dup in
    let seg_seq := seq_add seg_seq dup in
    if negb (seq_eqb seg_seq next) then insert_out_of_order seg_seq p;; output
    else
      stop ← (if f_rst th then process_rst else mret false);
      if (stop : bool) then skip
      else if f_syn th then respond_with_reset th;; do_reset
      else if negb (f_ack th) then skip
      else process_segment th p seg_seq seg_len.

(** ** The user's calls *)

(** [wait_for_data()]: whether the future is ready. *)
Definition wait_for_data : M bool :=
  t ← get_tcb;
  if negb (match rcv_data (rcv t) with [] => true | _ => false end) || foreign_will_not_send t then mret true
  else modify_rcv (set_data_received_promise true);; mret false.

(** [abort_reader()] *)
Definition abort_reader : M () :=
  t ← get_tcb;
  when (data_received_promise (rcv t))
    (emit (EvDataReceived (Err AbortedError));; modify_rcv (set_data_received_promise false)).

(** [wait_for_all_data_acked()] *)
Definition wait_for_all_data_acked : M bool :=
  t ← get_tcb;
  if (match snd_data (snd t) with [] => true | _ => false end) && (unsent_len (snd t) =? 0) then mret true
  else modify_snd (set_all_data_acked_promise true);; mret false.

(** [connect()] *)
Definition connect : M () :=
  do_setup_isn;;
  modify_rcv (set_rcv_window_scale 7);;
  modify (fun t => let o := option_ t in
    set_option_ (TcpOption (mss_received o) (win_scale_received o) (timestamps_received o) (sack_received o)
                           (remote_mss o) local_mss_ (remote_win_scale o) 7) t);;
  modify_rcv (set_rcv_mss local_mss_);;
  modify (fun t => upd_rcv (set_rcv_window (get_default_receive_window_size t)) t);;
  do_syn_sent.

(** [read()] *)
Definition read : M (list Z) :=
  t ← get_tcb;
  modify_rcv (set_data_size 0);;
  modify_rcv (set_rcv_data []);;
  modify (fun t => upd_rcv (set_rcv_window (get_default_receive_window_size t)) t);;
  mret (concat (rcv_data (rcv t))).

(** [wait_send_available()] *)
Definition wait_send_available : M bool :=
  t ← get_tcb;
  if current_queue_space (snd t) <? max_queue_space (snd t) then mret true
  else modify_snd (set_send_available_promise true);; mret false.

(** [send(p)]: the error, or whether the future is ready. *)
Definition send_packet (p : list Z) : M (error + bool) :=
  t ← get_tcb;
  if closed (snd t) || tcb_in_state [CLOSED] t then mret (inl ResetError)
  else
    let len := zlen p in
    modify_snd (fun s => set_current_queue_space (u64 (current_queue_space s + len)) s);;
    modify_snd (fun s => set_unsent_len (u32 (unsent_len s + len)) s);;
    modify_snd (fun s => set_unsent (unsent s ++ [p]) s);;
    n ← can_send;
    when (0 <? n) output;;
    b ← wait_send_available;
    mret (inr b).

(** The continuation of [close()], run when all data is acknowledged. *)
Definition close_continuation : M () :=
  modify_snd (set_closed true);;
  t ← get_tcb;
  (if tcb_in_state [CLOSE_WAIT] t then modify (set_state LAST_ACK)
   else if tcb_in_state [ESTABLISHED] t then modify (set_state FIN_WAIT_1)
   else skip);;
  output_one false;;
  output.

(** [close()]: whether the continuation runs now. *)
Definition close : M bool :=
  t ← get_tcb;
  if tcb_in_state [CLOSED] t || closed (snd t) then mret false
  else
    ready ← wait_for_all_data_acked;
    when ready close_continuation;;
    mret ready.

(** [connection::shutdown_connect()] and [connection::~connection()] *)
Definition shutdown_connect : M () :=
  t ← get_tcb;
  if syn_needs_on t then emit (EvConnectDone (Err RefusedError));; cleanup
  else abort_reader;; close;; skip.
Definition connection_destroyed : M () := abort_reader;; close;; skip.

(** ** Timers and polling *)

(** The callback of [_delayed_ack]. *)
Definition delayed_ack_expired : M () := modify (set_nr_full_seg_received 0);; output.

(** [persist()] *)
Definition persist : M () :=
  modify_snd (set_window_probe true);;
  modify_snd (fun s => set_zero_window_probing_out (u8 (zero_window_probing_out s + 1)) s);;
  output_one false;;
  modify_snd (set_window_probe false);;
  output;;
  modify (fun t => set_persist_time_out (Z.min (persist_time_out t * 2) rto_max) t);;
  start_persist_timer.

(** The lambda [output_update_rto]. *)
Definition output_update_rto : M () :=
  output;;
  modify (fun t => set_rto (Z.min (rto t * 2) rto_max) t);;
  start_retransmit_timer.

(** Retransmission of the SYN or the FIN: whether [retransmit] goes on. *)
Definition retransmit_control : M bool :=
  t ← get_tcb;
  go ← (if syn_needs_on t then
          modify_snd (fun s => set_syn_retransmit (u32 (syn_retransmit s + 1)) s);;
          if syn_retransmit (snd t) <? max_nr_retransmit then output_update_rto;; mret true
          else emit (EvConnectDone (Err ConnectError));; cleanup;; mret false
        else mret true);
  if negb go then mret false
  else
    t ← get_tcb;
    if fin_needs_on t then
      modify_snd (fun s => set_fin_retransmit (u32 (fin_retransmit s + 1)) s);;
      if fin_retransmit (snd t) <? max_nr_retransmit then output_update_rto;; mret true
      else cleanup;; mret false
    else mret true.

(** [retransmit()] *)
Definition retransmit : M () :=
  go ← retransmit_control;
  if negb go then skip
  else
    t ← get_tcb;
    match snd_data (snd t) with
    | [] => skip
    | seg :: data' =>
        let smss := snd_mss (snd t) in
        when (nr_transmits seg =? 0)
          (modify_snd (fun s => set_ssthresh (Z.max (flight_size_of s / 2) (u32 (2 * smss))) s));;
        modify_snd (fun s => set_recover (seq_sub (snd_next s) 1) s);;
        modify_snd (set_cwnd smss);;
        exit_fast_recovery;;
        if nr_transmits seg <? max_nr_retransmit then
          modify_snd (set_snd_data (Unacked (seg_p seg) (data_len seg) (nr_transmits seg + 1) (tx_time seg) :: data'));;
          retransmit_one;;
          output_update_rto
        else do_reset
    end.

(** The exceptions of [poll_tcb] that [output] handles. *)
Definition poll_failed_queue_full : M () := modify (set_poll_active false);; start_retransmit_timer.
Definition poll_failed_timeout : M () :=
  t ← get_tcb;
  when (tcb_in_state [SYN_SENT] t) (emit (EvConnectDone (Err ArpTimeoutError));; cleanup).

(** [get_packet()]: the packet for the address [_foreign_ip]. *)
Definition get_packet : M (option (Z * packet)) :=
  modify (set_poll_active false);;
  t ← get_tcb;
  when (match packetq t with [] => true | _ => false end) (output_one false);;
  t ← get_tcb;
  if tcb_in_state [CLOSED] t then mret None
  else
    match packetq t with
    | [] => lift None
    | p :: q =>
        modify (set_packetq q);;
        more ← (match q with
                | [] => if dupacks (snd t) <? 3
                        then n ← can_send; mret ((0 <? n) && (0 <? snd_window (snd t)))
                        else mret false
                | _ => mret true
                end);
        when more output;;
        mret (Some (foreign_ip t, p))
    end.

(** ** Construction *)

(** [tcb(t, id)]: the members without an initialiser hold whatever the memory
    holds ([junk]). *)
Definition tcb_init (junk_snd : send) (junk_rcv : receive) (local_mss_junk local foreign lport fport : Z) : tcb :=
  let s := set_snd_data [] (set_unsent [] (set_unsent_len 0 (set_closed false
             (set_all_data_acked_promise false (set_max_queue_space 212992 (set_current_queue_space 0
             (set_send_available_promise false (set_first_rto_sample true (set_dupacks 0
             (set_syn_retransmit 0 (set_fin_retransmit 0 (set_limited_transfer 0 (set_partial_ack 0
             (set_window_probe false (set_zero_window_probing_out 0 junk_snd))))))))))))))) in
  let r := set_rcv_data [] (set_data_size 0 (set_out_of_order [] (set_data_received_promise false
             (set_max_receive_buf_size 3737600 junk_rcv)))) in
  Tcb CLOSED local foreign lport fport s r (tcp_option_init local_mss_junk) tm_idle 1000 1000
      tm_idle tm_idle 0 [] false.
End Tcb.
