(* ===== verification/TcbState.v ===== *)
(** * The connection state machine and the timer bounds

    Every operation of the control block moves the connection state along the
    arrows of the TCP state diagram, and keeps the retransmission and persist
    timeouts within their bounds. *)

From S2P Require Import Prelude Core ByteOrder Checksum Packet Net TcpSeq TcpHdr PacketMerger TcbData Tcb.
From stdpp Require Import base numbers option relations list.

#[local] Open Scope Z_scope.

(** ** Operations as steps *)

(** What can happen to a control block: segments, the user's calls, timers,
    polling. *)
Inductive tcb_op :=
  | OpListen (th : tcp_hdr) (p : list Z) | OpSynSent (th : tcp_hdr) (p : list Z)
  | OpOther (th : tcp_hdr) (p : list Z)
  | OpConnect | OpSend (p : list Z) | OpRead | OpClose | OpCloseContinuation | OpShutdownConnect
  | OpWaitForData | OpAbortReader
  | OpDelayedAck | OpPersist | OpRetransmit | OpGetPacket | OpPollQueueFull | OpPollTimeout.

Section State.
Context {BC : BeCodec} {AU : AlignUp} {T : Type} {TM : TimerOps T}.
Abbreviation tcb := (@TcbData.tcb T).
Abbreviation M := (@Tcb.M T).
Variable e : endian.
Variable hw : hw_features.
Variable get_isn : tcb -> Z -> tcp_seq.

Definition exec (now : Z) (op : tcb_op) : M () :=
  match op with
  | OpListen th p => input_handle_listen_state hw now get_isn th p
  | OpSynSent th p => input_handle_syn_sent_state hw now th p
  | OpOther th p => input_handle_other_state e hw now th p
  | OpConnect => connect hw now get_isn
  | OpSend p => send_packet p;; skip
  | OpRead => Tcb.read;; skip
  | OpClose => close e hw now;; skip
  | OpCloseContinuation => close_continuation e hw now
  | OpShutdownConnect => shutdown_connect e hw now
  | OpWaitForData => wait_for_data;; skip
  | OpAbortReader => abort_reader
  | OpDelayedAck => delayed_ack_expired
  | OpPersist => persist e hw now
  | OpRetransmit => retransmit e hw now
  | OpGetPacket => get_packet e hw now;; skip
  | OpPollQueueFull => poll_failed_queue_full now
  | OpPollTimeout => poll_failed_timeout
  end.

(** When [tcp<InetTraits>] calls an operation: a new control block listens or
    connects, and a segment goes to the handler of the state. *)
Definition enabled (op : tcb_op) (t : tcb) : Prop :=
  match op with
  | OpListen _ _ | OpConnect => state t = CLOSED
  | OpSynSent _ _ => state t = SYN_SENT
  | OpOther _ _ => state t <> SYN_SENT
  | _ => True
  end.

(** *** A calculus for "whenever the operation returns" *)

Definition holds {A} (m : M A) (Q : A -> tcb -> Prop) (t : tcb) : Prop :=
  forall x t' es, m t = Some (x, t', es) -> Q x t'.

Lemma holds_ret {A} (x : A) Q t : Q x t -> holds (mret x) Q t.
Proof. by intros H ? ? ? [= <- <- _]. Qed.

Lemma holds_bind {A B} (m : M A) (f : A -> M B) Q t :
  holds m (fun x t' => holds (f x) Q t') t -> holds (m ≫= f) Q t.
Proof.
  intros H y t'' es E. unfold mbind, M_bind in E. destruct (m t) as [[[x t'] es1]|] eqn:Em; [|done].
  destruct (f x t') as [[[y' t1] es2]|] eqn:Ef; [|done]. injection E as -> -> _.
  by eapply H; [exact Em|exact Ef].
Qed.

Lemma holds_get Q t : Q t t -> holds get_tcb Q t.
Proof. by intros H ? ? ? [= <- <- _]. Qed.

Lemma holds_modify f Q t : Q () (f t) -> holds (modify f) Q t.
Proof. by intros H [] ? ? [= <- _]. Qed.

Lemma holds_emit ev Q t : Q () t -> holds (emit ev) Q t.
Proof. by intros H [] ? ? [= <- _]. Qed.

Lemma holds_lift {A} (o : option A) Q t : (forall x, o = Some x -> Q x t) -> holds (lift o) Q t.
Proof. intros H x t' es. unfold lift. destruct o; [|done]. intros [= <- <- _]. by apply H. Qed.

Lemma holds_when b m Q t : (b = true -> holds m Q t) -> (b = false -> Q () t) -> holds (when b m) Q t.
Proof. intros H1 H2. destruct b; [by apply H1|]. by apply holds_ret, H2. Qed.

Lemma holds_mono {A} (m : M A) (Q Q' : A -> tcb -> Prop) t :
  holds m Q t -> (forall x t', Q x t' -> Q' x t') -> holds m Q' t.
Proof. intros H HQ x t' es E. by eapply HQ, H. Qed.

(** A relation that every part of an operation respects. *)
Definition respects {A} (R : tcb -> tcb -> Prop) (m : M A) : Prop := forall t, holds m (fun _ => R t) t.

Section Respects.
Context (R : tcb -> tcb -> Prop) {HR : PreOrder R}.

Lemma respects_ret {A} (x : A) : respects R (mret x).
Proof. intros t. apply holds_ret. reflexivity. Qed.

Lemma respects_skip : respects R skip.
Proof. apply respects_ret. Qed.

Lemma respects_bind {A B} (m : M A) (f : A -> M B) :
  respects R m -> (forall x, respects R (f x)) -> respects R (m ≫= f).
Proof.
  intros Hm Hf t. apply holds_bind. eapply holds_mono; [apply Hm|]. cbn. intros x t1 H1.
  eapply holds_mono; [apply Hf|]. cbn. intros y t2 H2. by transitivity t1.
Qed.

Lemma respects_get : respects R get_tcb.
Proof. intros t. apply holds_get. reflexivity. Qed.

Lemma respects_modify f : (forall t, R t (f t)) -> respects R (modify f).
Proof. intros H t. apply holds_modify, H. Qed.

Lemma respects_emit ev : respects R (emit ev).
Proof. intros t. apply holds_emit. reflexivity. Qed.

Lemma respects_lift {A} (o : option A) : respects R (lift o).
Proof. intros t. apply holds_lift. reflexivity. Qed.

Lemma respects_when b m : respects R m -> respects R (when b m).
Proof. intros H t. apply holds_when; [intros; apply H|reflexivity]. Qed.

(** Reading the control block: the continuation may depend on it. *)
Lemma respects_read {B} (f : tcb -> M B) :
  (forall t, holds (f t) (fun _ => R t) t) -> respects R (get_tcb ≫= f).
Proof. intros H t. apply holds_bind, holds_get, H. Qed.

End Respects.

(** *** The state masks *)

Lemma state_bit_inj s s' : state_bit s = state_bit s' -> s = s'.
Proof. by destruct s, s'. Qed.

Lemma state_bit_nonneg s : 0 <= state_bit s.
Proof. by destruct s. Qed.

Lemma testbit_mask l s : Z.testbit (state_mask l) (state_bit s) = bool_decide (s ∈ l).
Proof.
  induction l as [|s' l IH]; cbn [state_mask foldr].
  - rewrite Z.bits_0. by destruct s.
  - change (foldr _ 0 l) with (state_mask l). pose proof (state_bit_nonneg s).
    pose proof (state_bit_nonneg s'). rewrite Z.lor_spec, IH, Z.shiftl_1_l, Z.pow2_bits_eqb by done.
    destruct (Z.eqb_spec (state_bit s') (state_bit s)) as [E|E]; cbn [orb].
    + apply state_bit_inj in E as ->. by rewrite bool_decide_true by set_solver.
    + apply bool_decide_ext. rewrite elem_of_cons. split; [by right|].
      intros [->|?]; [done|done].
Qed.

Lemma in_state_spec l (t : tcb) : tcb_in_state l t = bool_decide (state t ∈ l).
Proof.
  unfold tcb_in_state. pose proof (state_bit_nonneg (state t)). rewrite <- testbit_mask.
  rewrite Z.shiftl_1_l. destruct (Z.testbit (state_mask l) (state_bit (state t))) eqn:E.
  - apply negb_true_iff, Z.eqb_neq. intros E0. apply (f_equal (fun z => Z.testbit z (state_bit (state t)))) in E0.
    by rewrite Z.land_spec, E, Z.pow2_bits_true, Z.bits_0 in E0 by done.
  - apply negb_false_iff, Z.eqb_eq. apply Z.bits_inj'. intros n Hn.
    rewrite Z.land_spec, Z.bits_0, Z.pow2_bits_eqb by done.
    destruct (Z.eqb_spec (state_bit (state t)) n) as [<-|]; [by rewrite E|done].
Qed.

(** *** Timeouts *)

Definition timeouts_ok (t : tcb) : Prop :=
  rto_min <= rto t <= rto_max /\ rto_min <= persist_time_out t <= rto_max.

Lemma in_state_eq l (t : tcb) s :
  state t = s -> tcb_in_state l t = negb (Z.land (Z.shiftl 1 (state_bit s)) (state_mask l) =? 0).
Proof. by intros <-. Qed.

(** What the operations that do not touch the state keep. *)
Definition keeps (t t' : tcb) : Prop := state t' = state t /\ (timeouts_ok t -> timeouts_ok t').

#[export] Instance keeps_preorder : PreOrder keeps.
Proof.
  split; [by intros t|]. intros t1 t2 t3 [E1 H1] [E2 H2]. split; [congruence|]. auto.
Qed.

(** The arrows of the state diagram, but for the two that open a connection. *)
Inductive arrow : tcp_state -> tcp_state -> Prop :=
  | simultaneous_open : arrow SYN_SENT SYN_RECEIVED
  | syn_acked : arrow SYN_SENT ESTABLISHED
  | handshake_done : arrow SYN_RECEIVED ESTABLISHED
  | fin_received : arrow ESTABLISHED CLOSE_WAIT
  | close_sent : arrow ESTABLISHED FIN_WAIT_1
  | fin_acked : arrow FIN_WAIT_1 FIN_WAIT_2
  | both_closing : arrow FIN_WAIT_1 CLOSING
  | fin_wait_done : arrow FIN_WAIT_2 TIME_WAIT
  | closing_done : arrow CLOSING TIME_WAIT
  | last_close : arrow CLOSE_WAIT LAST_ACK
  | reset s : s <> CLOSED -> arrow s CLOSED.

Lemma to_closed s : rtc arrow s CLOSED.
Proof. destruct s; [reflexivity|by apply rtc_once, reset..]. Qed.

(** Zero or more arrows, with the timeouts kept in bounds. *)
Definition moves (t t' : tcb) : Prop :=
  rtc arrow (state t) (state t') /\ (timeouts_ok t -> timeouts_ok t').

#[export] Instance moves_preorder : PreOrder moves.
Proof.
  split; [by intros t|]. intros t1 t2 t3 [E1 H1] [E2 H2]. split; [by etransitivity|]. auto.
Qed.

Lemma keeps_moves t t' : keeps t t' -> moves t t'.
Proof. intros [E H]. split; [by rewrite E|done]. Qed.

Lemma respects_moves {A} (m : M A) : respects keeps m -> respects moves m.
Proof. intros H t. eapply holds_mono; [apply H|]. intros x t'. apply keeps_moves. Qed.

(** Moving on after a part that keeps the state. *)
Lemma holds_bind_keeps {A B} (m : M A) (f : A -> M B) t :
  respects keeps m ->
  (forall x t', state t' = state t -> holds (f x) (fun _ => moves t') t') ->
  holds (m ≫= f) (fun _ => moves t) t.
Proof.
  intros Hm Hf. apply holds_bind. eapply holds_mono; [apply Hm|]. cbn. intros x t1 [E1 H1].
  eapply holds_mono; [by apply Hf|]. cbn. intros y t2 [H2 H3]. split; [by rewrite <- E1|auto].
Qed.

Lemma holds_bind_moves {A B} (m : M A) (f : A -> M B) t :
  holds m (fun _ => moves t) t -> (forall x, respects moves (f x)) -> holds (m ≫= f) (fun _ => moves t) t.
Proof.
  intros Hm Hf. apply holds_bind. eapply holds_mono; [apply Hm|]. cbn. intros x t1 H1.
  eapply holds_mono; [apply Hf|]. cbn. intros y t2 H2. by transitivity t1.
Qed.

Lemma holds_set_state s (t : tcb) : arrow (state t) s -> holds (modify (set_state s)) (fun _ => moves t) t.
Proof. intros H. apply holds_modify. split; [by apply rtc_once|]. by intros [? ?]. Qed.
End State.

Create HintDb respects.
#[export] Hint Resolve respects_ret respects_skip respects_get respects_emit respects_lift : respects.

(** Decompose an operation into its parts; [solve_mod] is for the assignments. *)
Ltac respects_step solve_mod :=
  match goal with
  | |- respects _ (mret _) => apply respects_ret; exact _
  | |- respects _ skip => apply respects_skip; exact _
  | |- respects _ get_tcb => apply respects_get; exact _
  | |- respects _ (emit _) => apply respects_emit; exact _
  | |- respects _ (lift _) => apply respects_lift; exact _
  | |- respects _ (when _ _) => apply respects_when; [exact _|]
  | |- respects _ (modify_snd _) => unfold modify_snd
  | |- respects _ (modify_rcv _) => unfold modify_rcv
  | |- respects _ (modify _) => apply respects_modify; [solve_mod]
  | |- respects _ (_ ≫= _) => apply respects_bind; [exact _| |let x := fresh "x" in intros x]
  | |- respects _ (if ?b then _ else _) => destruct b
  | |- respects _ (let '(_, _) := ?x in _) => destruct x
  | |- respects _ (match ?x with _ => _ end) => destruct x
  | |- respects _ _ => solve [eauto with respects]
  end.
Ltac respects_tac solve_mod := cbv zeta; repeat (respects_step solve_mod).

(** Evaluate the state tests of a control block whose state is known. *)
Ltac eval_in_state Es :=
  repeat match goal with
  | |- context [tcb_in_state ?l ?t] => rewrite (in_state_eq l t _ Es)
  end;
  repeat match goal with
  | |- context [negb (Z.land ?a ?b =? 0)] =>
      let v := eval vm_compute in (negb (Z.land a b =? 0)) in change (negb (Z.land a b =? 0)) with v
  end.

Section Timeouts.
Context {BC : BeCodec} {AU : AlignUp} {T : Type} {TM : TimerOps T}.
Abbreviation tcb := (@TcbData.tcb T).
Variable e : endian.
Variable hw : hw_features.
Variable now : Z.
Variable get_isn : tcb -> Z -> tcp_seq.

Ltac mod_keeps := intros ?; split; [reflexivity|by intros [? ?]].
Ltac go := respects_tac mod_keeps.

Abbreviation ok := (@respects T _ (@keeps T)).

Lemma output_keeps : ok output. Proof. unfold output. go. Qed.
#[local] Hint Resolve output_keeps : respects.
Lemma can_send_keeps : ok can_send. Proof. unfold can_send. go. Qed.
#[local] Hint Resolve can_send_keeps : respects.
Lemma start_retransmit_keeps : ok (start_retransmit_timer now).
Proof. unfold start_retransmit_timer. go. Qed.
Lemma stop_retransmit_keeps : ok stop_retransmit_timer.
Proof. unfold stop_retransmit_timer. go. Qed.
Lemma start_persist_keeps : ok (start_persist_timer now).
Proof. unfold start_persist_timer. go. Qed.
Lemma stop_persist_keeps : ok stop_persist_timer.
Proof. unfold stop_persist_timer. go. Qed.
Lemma clear_delayed_ack_keeps : ok clear_delayed_ack.
Proof. unfold clear_delayed_ack. go. Qed.
#[local] Hint Resolve start_retransmit_keeps stop_retransmit_keeps start_persist_keeps
  stop_persist_keeps clear_delayed_ack_keeps : respects.
Lemma cleanup_keeps : ok cleanup. Proof. unfold cleanup. go. Qed.
#[local] Hint Resolve cleanup_keeps : respects.

Lemma update_rto_keeps tx : ok (update_rto now tx).
Proof.
  unfold update_rto. respects_tac ltac:(first [mod_keeps|idtac]).
  intros t. split; [done|]. intros [_ Hp]. split; [|exact Hp]. cbn. unfold rto_min, rto_max. lia.
Qed.
#[local] Hint Resolve update_rto_keeps : respects.
Lemma update_cwnd_keeps n : ok (update_cwnd n). Proof. unfold update_cwnd. go. Qed.
Lemma signal_data_received_keeps : ok signal_data_received. Proof. unfold signal_data_received. go. Qed.
Lemma signal_all_data_acked_keeps : ok signal_all_data_acked. Proof. unfold signal_all_data_acked. go. Qed.
Lemma signal_send_available_keeps : ok signal_send_available. Proof. unfold signal_send_available. go. Qed.
Lemma exit_fast_recovery_keeps : ok exit_fast_recovery. Proof. unfold exit_fast_recovery. go. Qed.
Lemma do_setup_isn_keeps : ok (do_setup_isn now get_isn). Proof. unfold do_setup_isn. go. Qed.
Lemma do_local_fin_acked_keeps : ok do_local_fin_acked. Proof. unfold do_local_fin_acked. go. Qed.
Lemma respond_with_reset_keeps th : ok (respond_with_reset th). Proof. unfold respond_with_reset. go. Qed.
Lemma queue_packet_keeps p : ok (queue_packet p). Proof. unfold queue_packet. go. Qed.
#[local] Hint Resolve update_cwnd_keeps signal_data_received_keeps signal_all_data_acked_keeps
  signal_send_available_keeps exit_fast_recovery_keeps do_setup_isn_keeps do_local_fin_acked_keeps
  respond_with_reset_keeps queue_packet_keeps : respects.

Lemma ack_full_segments_keeps seg_ack data total : ok (ack_full_segments now seg_ack data total).
Proof.
  revert total. induction data as [|seg data IH]; intros total; cbn [ack_full_segments]; go.
Qed.
#[local] Hint Resolve ack_full_segments_keeps : respects.
Lemma data_segment_acked_keeps seg_ack : ok (data_segment_acked now seg_ack).
Proof. unfold data_segment_acked. go. Qed.
Lemma init_from_options_keeps th mem n : ok (init_from_options hw th mem n).
Proof. unfold init_from_options. go. Qed.
Lemma get_transmit_packet_keeps : ok (get_transmit_packet hw).
Proof. unfold get_transmit_packet. go. Qed.
#[local] Hint Resolve data_segment_acked_keeps init_from_options_keeps get_transmit_packet_keeps : respects.
Lemma output_segment_keeps b p : ok (output_segment e hw now b p).
Proof. unfold output_segment. go. Qed.
#[local] Hint Resolve output_segment_keeps : respects.

Lemma output_one_keeps b : ok (output_one e hw now b).
Proof. unfold output_one. go. Qed.
#[local] Hint Resolve output_one_keeps : respects.
Lemma fast_retransmit_keeps : ok (fast_retransmit e hw now).
Proof. unfold fast_retransmit, retransmit_one. go. Qed.
Lemma reset_retransmit_timer_keeps : ok (reset_retransmit_timer now).
Proof. unfold reset_retransmit_timer. go. Qed.
Lemma update_window_keeps th a b : ok (update_window now th a b).
Proof. unfold update_window. go. Qed.
#[local] Hint Resolve fast_retransmit_keeps reset_retransmit_timer_keeps update_window_keeps : respects.
Lemma ack_new_data_keeps th a b : ok (ack_new_data e hw now th a b).
Proof. unfold ack_new_data. go. Qed.
Lemma ack_duplicate_keeps a : ok (ack_duplicate e hw now a).
Proof. unfold ack_duplicate. go. Qed.
Lemma ack_other_keeps th a b : ok (ack_other now th a b).
Proof. unfold ack_other. go. Qed.
#[local] Hint Resolve ack_new_data_keeps ack_duplicate_keeps ack_other_keeps : respects.
Lemma ack_established_keeps th a b n : ok (ack_established e hw now th a b n).
Proof. unfold ack_established. go. Qed.
Lemma should_send_ack_keeps n : ok (should_send_ack now n).
Proof. unfold should_send_ack. go. Qed.
Lemma merge_out_of_order_keeps : ok merge_out_of_order.
Proof. unfold merge_out_of_order. go. Qed.
Lemma insert_out_of_order_keeps a p : ok (insert_out_of_order a p).
Proof. unfold insert_out_of_order. go. Qed.
#[local] Hint Resolve ack_established_keeps should_send_ack_keeps merge_out_of_order_keeps
  insert_out_of_order_keeps : respects.
Lemma process_text_keeps p n : ok (process_text now p n).
Proof. unfold process_text. go. Qed.
Lemma final_output_keeps a b : ok (final_output a b).
Proof. unfold final_output. go. Qed.
Lemma wait_for_data_keeps : ok wait_for_data. Proof. unfold wait_for_data. go. Qed.
Lemma abort_reader_keeps : ok abort_reader. Proof. unfold abort_reader. go. Qed.
Lemma wait_for_all_data_acked_keeps : ok wait_for_all_data_acked.
Proof. unfold wait_for_all_data_acked. go. Qed.
Lemma read_keeps : ok Tcb.read. Proof. unfold Tcb.read. go. Qed.
Lemma wait_send_available_keeps : ok wait_send_available. Proof. unfold wait_send_available. go. Qed.
#[local] Hint Resolve process_text_keeps final_output_keeps wait_for_data_keeps abort_reader_keeps
  wait_for_all_data_acked_keeps read_keeps wait_send_available_keeps : respects.
Lemma send_packet_keeps p : ok (send_packet p). Proof. unfold send_packet. go. Qed.
Lemma delayed_ack_expired_keeps : ok delayed_ack_expired. Proof. unfold delayed_ack_expired. go. Qed.
Lemma output_update_rto_keeps : ok (output_update_rto now).
Proof.
  unfold output_update_rto. respects_tac ltac:(first [mod_keeps|idtac]).
  intros t. split; [done|]. intros [H Hp]. split; [|exact Hp]. cbn. unfold rto_min, rto_max in *. lia.
Qed.
Lemma persist_keeps : ok (persist e hw now).
Proof.
  unfold persist. respects_tac ltac:(first [mod_keeps|idtac]).
  intros t. split; [done|]. intros [H Hp]. split; [exact H|]. cbn. unfold rto_min, rto_max in *. lia.
Qed.
#[local] Hint Resolve send_packet_keeps delayed_ack_expired_keeps output_update_rto_keeps persist_keeps : respects.
Lemma retransmit_control_keeps : ok (retransmit_control now).
Proof. unfold retransmit_control. go. Qed.
Lemma poll_failed_queue_full_keeps : ok (poll_failed_queue_full now).
Proof. unfold poll_failed_queue_full. go. Qed.
Lemma poll_failed_timeout_keeps : ok poll_failed_timeout.
Proof. unfold poll_failed_timeout. go. Qed.
Lemma get_packet_keeps : ok (get_packet e hw now).
Proof. unfold get_packet. go. Qed.
#[local] Hint Resolve retransmit_control_keeps poll_failed_queue_full_keeps poll_failed_timeout_keeps
  get_packet_keeps : respects.

(** *** Operations that move the state *)

Abbreviation mv := (@respects T _ (@moves T)).

Ltac weaken := apply respects_moves; solve [eauto with respects | go].

Lemma do_reset_moves : mv do_reset.
Proof.
  unfold do_reset. apply respects_bind; [exact _| |intros _; weaken].
  apply respects_modify. intros t. split; [apply to_closed|by intros [? ?]].
Qed.

Lemma do_closed_moves : mv do_closed.
Proof.
  unfold do_closed. apply respects_bind; [exact _| |intros _; weaken].
  apply respects_modify. intros t. split; [apply to_closed|by intros [? ?]].
Qed.
#[local] Hint Resolve do_reset_moves do_closed_moves : respects.

Lemma do_time_wait_moves (t : tcb) :
  arrow (state t) TIME_WAIT -> holds do_time_wait (fun _ => moves t) t.
Proof.
  intros H. unfold do_time_wait. apply holds_bind_moves; [by apply holds_set_state|].
  intros _. weaken.
Qed.

Lemma do_established_moves (t : tcb) :
  arrow (state t) ESTABLISHED -> holds (do_established now) (fun _ => moves t) t.
Proof.
  intros H. unfold do_established. apply holds_bind_moves; [by apply holds_set_state|].
  intros _. weaken.
Qed.

(** Opening: the state becomes [s]. *)
Definition opened (s : tcp_state) (t t' : tcb) : Prop := state t' = s /\ (timeouts_ok t -> timeouts_ok t').

Lemma holds_bind_opened {A B} (m : Tcb.M A) (f : A -> Tcb.M B) s t :
  respects keeps m -> (forall x t', holds (f x) (fun _ => opened s t') t') ->
  holds (m ≫= f) (fun _ => opened s t) t.
Proof.
  intros Hm Hf. apply holds_bind. eapply holds_mono; [apply Hm|]. cbn. intros x t1 [E1 H1].
  eapply holds_mono; [by apply Hf|]. cbn. intros y t2 [H2 H3]. split; [done|auto].
Qed.

Lemma holds_set_opened {B} s (f : () -> Tcb.M B) (t : tcb) :
  (forall x, respects keeps (f x)) -> holds (modify (set_state s) ≫= f) (fun _ => opened s t) t.
Proof.
  intros Hf. apply holds_bind, holds_modify. eapply holds_mono; [apply Hf|]. cbn. intros y t2 [E H].
  split; [done|]. intros [? ?]. by apply H.
Qed.

Lemma do_syn_received_moves (t : tcb) :
  arrow (state t) SYN_RECEIVED -> holds (do_syn_received now) (fun _ => moves t) t.
Proof.
  intros H. unfold do_syn_received. apply holds_bind_moves; [by apply holds_set_state|].
  intros _. weaken.
Qed.

(** A guarded part whose arrow follows from the guard. *)
Lemma holds_when_moves b (m : Tcb.M ()) (t : tcb) :
  (b = true -> holds m (fun _ => moves t) t) -> holds (when b m) (fun _ => moves t) t.
Proof. intros H. apply holds_when; [done|]. reflexivity. Qed.

Ltac in_state := rewrite ?in_state_spec in *; b2p;
  repeat match goal with H : bool_decide _ = true |- _ => apply bool_decide_eq_true in H end;
  rewrite ?elem_of_cons, ?elem_of_nil in *.

Lemma process_rst_moves : mv process_rst.
Proof. unfold process_rst. go; eauto with respects; weaken. Qed.

Lemma moves_bool {A} (b : bool) (m1 m2 : @Tcb.M T A) (t : tcb) :
  (b = true -> holds m1 (fun _ => moves t) t) -> (b = false -> holds m2 (fun _ => moves t) t) ->
  holds (if b then m1 else m2) (fun _ => moves t) t.
Proof. destruct b; auto. Qed.

Lemma respects_holds {A} (m : @Tcb.M T A) t : mv m -> holds m (fun _ => moves t) t.
Proof. intros H. apply H. Qed.

Lemma keeps_holds {A} (m : @Tcb.M T A) t : ok m -> holds m (fun _ => moves t) t.
Proof. intros H. by apply respects_holds, respects_moves. Qed.

Lemma process_ack_moves th a b n : mv (process_ack e hw now th a b n).
Proof.
  unfold process_ack. apply respects_read. intros t. cbv zeta. apply moves_bool; intros _.
  { apply keeps_holds. go. }
  apply holds_bind_moves.
  { apply holds_when_moves. intros H. apply holds_bind_moves.
    - apply do_established_moves. in_state. destruct H as [->|[]]. constructor.
    - intros _. weaken. }
  intros _. apply respects_bind; [exact _|weaken|]. intros t1.
  apply respects_bind; [exact _|weaken|]. intros [|more]; [weaken|].
  apply respects_read. intros t2. cbv zeta. destruct (tcb_in_state [CLOSING] t2) eqn:Hc.
  { assert (state t2 = CLOSING) as Hs by (in_state; by destruct Hc as [?|[]]).
    assert (tcb_in_state [FIN_WAIT_1] t2 = false) as -> by (rewrite in_state_spec, Hs; done).
    cbn [andb when]. apply holds_bind_keeps; [go|]. intros _ t3 E3. apply holds_bind_moves; [|intros _; weaken].
    apply holds_when_moves. intros _. apply holds_bind_keeps; [go|]. intros _ t4 E4.
    apply do_time_wait_moves. rewrite E4, E3, Hs. constructor. }
  apply holds_bind_moves.
  { apply holds_when_moves. intros H. in_state. destruct H as [H|[]].
    apply holds_bind_moves; [apply holds_set_state; rewrite H; constructor|]. intros _. weaken. }
  intros _. destruct (tcb_in_state [LAST_ACK] t2 && _)%bool; [|weaken].
  apply respects_bind; [exact _|weaken|intros _]. apply respects_bind; [exact _| |intros _; weaken].
  eauto with respects.
Qed.

Lemma process_fin_moves th a n b : mv (process_fin th a n b).
Proof.
  unfold process_fin. destruct (negb (f_fin th)); [weaken|]. apply respects_read. intros t.
  apply moves_bool; [intros _; by apply keeps_holds; go|]. intros Hn. cbv zeta.
  apply moves_bool; [intros _; by apply keeps_holds; go|]. intros _.
  apply holds_bind_keeps; [solve [go]|]; intros [] t1 E1. apply holds_bind_keeps; [solve [go]|]; intros [] t2 E2.
  apply holds_bind_keeps; [solve [go]|]; intros [] t3 E3. apply holds_bind_keeps; [solve [go]|]; intros [] t4 E4.
  assert (state t4 = state t) as E by congruence. clear Hn.
  destruct (state t) eqn:Es; eval_in_state Es; cbn [when];
    first [ apply holds_bind_keeps; [solve [go]|intros [] t5 E5]
          | apply holds_bind_moves; [apply holds_modify; split; [|by intros [? ?]];
              rewrite E; cbn; eauto using rtc_l, rtc_once, arrow|intros _; weaken] ];
    first [ apply holds_bind_keeps; [solve [go]|intros [] t6 E6]
          | apply holds_bind_moves; [apply holds_set_state; rewrite E5, E; constructor|intros _; weaken] ];
    first [ apply keeps_holds; solve [go] | idtac ].
  apply holds_bind_moves; [|intros _; weaken]. apply do_time_wait_moves. rewrite E6, E5, E. constructor.
Qed.

Lemma process_segment_moves th p a n : mv (process_segment e hw now th p a n).
Proof.
  unfold process_segment. apply respects_bind; [exact _|apply process_ack_moves|]. intros [|more]; [weaken|].
  apply respects_bind; [exact _|weaken|]. intros t. destruct (tcb_in_state _ t); [weaken|].
  apply respects_bind; [exact _|destruct (tcb_in_state _ t); weaken|]. intros o.
  apply respects_bind; [exact _|apply process_fin_moves|]. intros [o'|]; weaken.
Qed.

Lemma input_handle_other_state_moves th p : mv (input_handle_other_state e hw now th p).
Proof.
  unfold input_handle_other_state. apply respects_bind; [exact _|weaken|]. intros q.
  apply respects_bind; [exact _|weaken|]. intros t. cbv zeta. destruct (negb _); [weaken|].
  apply respects_bind; [exact _|weaken|]. intros q'. destruct (negb _); [weaken|].
  apply respects_bind; [exact _|destruct (f_rst th); [apply process_rst_moves|weaken]|].
  intros [|]; [weaken|]. destruct (f_syn th).
  - apply respects_bind; [exact _|weaken|]. intros _. eauto with respects.
  - destruct (negb _); [weaken|]. apply process_segment_moves.
Qed.

Lemma input_handle_listen_state_opens th p (t : tcb) :
  holds (input_handle_listen_state hw now get_isn th p) (fun _ => opened SYN_RECEIVED t) t.
Proof.
  unfold input_handle_listen_state. cbv zeta. repeat (apply holds_bind_opened; [solve [go]|intros ? ?]).
  unfold do_syn_received. apply holds_set_opened. intros _. go.
Qed.

Lemma input_handle_syn_sent_state_moves th p (t : tcb) :
  state t = SYN_SENT -> holds (input_handle_syn_sent_state hw now th p) (fun _ => moves t) t.
Proof.
  intros Es. unfold input_handle_syn_sent_state. cbv zeta.
  do 2 (apply holds_bind_keeps; [solve [go]|intros ? ? ?]).
  apply holds_bind_keeps; [solve [go]|intros t1 t2 ?].
  apply moves_bool; intros _; [apply keeps_holds; go|].
  apply moves_bool; intros _.
  { apply respects_holds. destruct (_ && _)%bool; [eauto with respects|weaken]. }
  apply moves_bool; intros _; [|apply keeps_holds; go].
  do 3 (apply holds_bind_keeps; [solve [go]|intros ? ? ?]). apply holds_bind_keeps; [solve [go]|intros t3 t4 ?].
  assert (state t4 = SYN_SENT) as E by congruence. apply moves_bool; intros _.
  - apply holds_bind_keeps; [solve [go]|intros ? t5 E5]. apply holds_bind_moves; [|intros _; weaken].
    apply do_established_moves. rewrite E5, E. constructor.
  - apply do_syn_received_moves. rewrite E. constructor.
Qed.

Lemma connect_opens (t : tcb) : holds (connect hw now get_isn) (fun _ => opened SYN_SENT t) t.
Proof.
  unfold connect. do 5 (apply holds_bind_opened; [solve [go]|intros ? ?]).
  unfold do_syn_sent. apply holds_set_opened. intros _. go.
Qed.

Lemma close_continuation_moves : mv (close_continuation e hw now).
Proof.
  unfold close_continuation. apply respects_bind; [exact _|weaken|intros _].
  apply respects_read. intros t. apply holds_bind_moves; [|intros _; weaken].
  apply moves_bool; intros H1; [|apply moves_bool; intros H2; [|apply keeps_holds; go]].
  - in_state. destruct H1 as [H1|[]]. apply holds_set_state. rewrite H1. constructor.
  - apply holds_set_state. rewrite in_state_spec in H2. apply bool_decide_eq_true in H2.
    rewrite elem_of_cons, elem_of_nil in H2. destruct H2 as [H2|[]]. rewrite H2. constructor.
Qed.

Lemma close_moves : mv (close e hw now).
Proof.
  unfold close. apply respects_bind; [exact _|weaken|intros t]. destruct (_ || _)%bool; [weaken|].
  apply respects_bind; [exact _|weaken|intros ready]. apply respects_bind; [exact _| |intros _; weaken].
  apply respects_when; [exact _|]. apply close_continuation_moves.
Qed.

Lemma retransmit_moves : mv (retransmit e hw now).
Proof.
  unfold retransmit. apply respects_bind; [exact _|weaken|intros go_on]. destruct (negb go_on); [weaken|].
  apply respects_bind; [exact _|weaken|intros t]. destruct (snd_data (snd t)) as [|seg data']; [weaken|].
  cbv zeta. do 4 (apply respects_bind; [exact _|weaken|intros _]).
  destruct (_ <? _); [|eauto with respects]. unfold retransmit_one. weaken.
Qed.

(** What an operation does to the state. *)
Definition follows (op : tcb_op) (s s' : tcp_state) : Prop :=
  match op with
  | OpListen _ _ => s' = SYN_RECEIVED
  | OpConnect => s' = SYN_SENT
  | _ => rtc arrow s s'
  end.

Lemma exec_moves op t : enabled op t ->
  holds (exec e hw get_isn now op) (fun _ t' => follows op (state t) (state t') /\ (timeouts_ok t -> timeouts_ok t')) t.
Proof.
  destruct op; cbn [enabled exec]; intros H.
  - apply input_handle_listen_state_opens.
  - by apply input_handle_syn_sent_state_moves.
  - apply respects_holds, input_handle_other_state_moves.
  - apply connect_opens.
  - apply keeps_holds. go.
  - apply keeps_holds. go.
  - apply holds_bind_moves; [apply respects_holds, close_moves|intros _; weaken].
  - apply respects_holds, close_continuation_moves.
  - apply respects_holds. unfold shutdown_connect. apply respects_bind; [exact _|weaken|intros t0].
    destruct (syn_needs_on t0); [weaken|]. do 2 (apply respects_bind; [exact _|first [weaken|apply close_moves]|intros _]). weaken.
  - apply keeps_holds. go.
  - apply keeps_holds. eauto with respects.
  - apply keeps_holds. eauto with respects.
  - apply keeps_holds. eauto with respects.
  - apply respects_holds, retransmit_moves.
  - apply keeps_holds. go.
  - apply keeps_holds. eauto with respects.
  - apply keeps_holds. eauto with respects.
Qed.
End Timeouts.

(** ** Properties *)

Section Properties.
Context {BC : BeCodec} {AU : AlignUp} {T : Type} {TM : TimerOps T}.
Variable e : endian.
Variable hw : hw_features.
Variable get_isn : @TcbData.tcb T -> Z -> tcp_seq.

(** Executions: operations at any times, each enabled where it runs. *)
Inductive execution : @TcbData.tcb T -> @TcbData.tcb T -> Prop :=
  | exec_done t : execution t t
  | exec_step now op t t' t'' u es :
      enabled op t -> exec e hw get_isn now op t = Some (u, t', es) -> execution t' t'' -> execution t t''.

(** C9. Connection states: a connection opens into SYN_SENT or SYN_RECEIVED; and
    then, whatever segments arrive, whatever the user calls and whatever timers
    fire, an operation takes its state along arrows of the TCP state diagram (one
    segment may take several, as a FIN with the last acknowledgment does) or to
    CLOSED, which it does not leave again. *)
Theorem tcb_state_diagram now op t u t' es :
  enabled op t -> exec e hw get_isn now op t = Some (u, t', es) -> follows op (state t) (state t').
Proof. intros H E. apply (exec_moves e hw now get_isn op t H u t' es E). Qed.

(** C16. Timer bounds: in every execution from a new control block, the
    retransmission timeout and the persist timeout stay between one second and
    sixty seconds, under back-off and whatever round-trip times are measured. *)
Theorem tcb_timeouts_bounded js jr m l f lp fp t :
  execution (tcb_init js jr m l f lp fp) t -> timeouts_ok t.
Proof.
  intros H. assert (timeouts_ok (tcb_init js jr m l f lp fp)) as H0 by (split; cbn; unfold rto_min, rto_max; lia).
  induction H as [|now op t t' t'' u es Hop E _ IH]; [done|].
  apply IH. by apply (exec_moves e hw now get_isn op t Hop u t' es E).
Qed.
End Properties.

(** ** A concrete connection *)

Module Ex.
Import Core.Impl.

Definition isn : @TcbData.tcb (option Z) -> Z -> tcp_seq := fun _ now => make_seq (u32 (now * 250)).

(** The uninitialised members, all zero. *)
Definition junk_snd : send :=
  let z := make_seq 0 in
  Send z z 0 0 0 z z z z [] [] 0 false false 0 0 false 0 0 false 0 0 0 0 0 0 0 0 z false 0.
Definition junk_rcv : receive := let z := make_seq 0 in Receive z 0 0 0 z z [] 0 [] false 0.

Definition tcb0 : @TcbData.tcb (option Z) := tcb_init junk_snd junk_rcv 0 167772161 167772162 80 49152.

Definition run (now : Z) (op : tcb_op) (t : @TcbData.tcb (option Z)) : option (@TcbData.tcb (option Z) * list event) :=
  match exec BigEndian hw_features_default isn now op t with Some (_, t', es) => Some (t', es) | None => None end.

Fixpoint runs (ops : list (Z * tcb_op)) (t : @TcbData.tcb (option Z)) : option (@TcbData.tcb (option Z)) :=
  match ops with
  | [] => Some t
  | (now, op) :: ops => match run now op t with Some (t', _) => runs ops t' | None => None end
  end.

(** A SYN without options from the peer, its acknowledgment of our SYN, and data. *)
Definition hdr (sq ak : Z) (syn ack fin rst : bool) (win : Z) : tcp_hdr :=
  TcpHdr 49152 80 (make_seq sq) (make_seq ak) 0 5 fin syn rst false ack false 0 win 0 0.
Definition seg (h : tcp_hdr) (data : list Z) : list Z := tcp_hdr_write h ++ data.
Definition syn : tcb_op := let h := hdr 1000 0 true false false false 4096 in OpListen h (seg h []).
Definition ack : tcb_op := let h := hdr 1001 251 false true false false 4096 in OpOther h (seg h []).

Definition established : @TcbData.tcb (option Z) := default tcb0 (runs [(1, syn); (2, ack)] tcb0).
Definition data_sent : @TcbData.tcb (option Z) :=
  default tcb0 (runs [(3, OpSend [1;2;3;4;5]); (3, OpGetPacket); (3, OpGetPacket)] established).

Example established_state : state established = ESTABLISHED. Proof. vm_compute. reflexivity. Qed.

Example data_sent_queue : map seg_p (snd_data (snd data_sent)) = [[1;2;3;4;5]].
Proof. vm_compute. reflexivity. Qed.

End Ex.

Import Core.Impl.

Lemma tcb_state_diagram_witness :
  rtc arrow SYN_RECEIVED (state Ex.established).
Proof.
  refine (tcb_state_diagram BigEndian hw_features_default Ex.isn 2 Ex.ack
    (default Ex.tcb0 (Ex.runs [(1, Ex.syn)] Ex.tcb0)) () Ex.established [EvConnectDone Ok; EvAddConnected 80] _ _).
  - vm_compute. congruence.
  - vm_compute. reflexivity.
Defined.

Lemma tcb_timeouts_bounded_witness : timeouts_ok Ex.established.
Proof.
  apply (tcb_timeouts_bounded BigEndian hw_features_default Ex.isn
    Ex.junk_snd Ex.junk_rcv 0 167772161 167772162 80 49152).
  eapply (exec_step _ _ _ 1 Ex.syn); [reflexivity|vm_compute; reflexivity|].
  eapply (exec_step _ _ _ 2 Ex.ack); [discriminate|vm_compute; reflexivity|].
  apply exec_done.
Defined.
