(* ===== verification/TcbSend.v ===== *)
(** * The sending side of a connection

    The bytes a connection has accepted and not seen acknowledged are those of
    the retransmission queue followed by those of the send queue.  The
    operations of the control block keep that stream: an acknowledgment drops
    its front, [send] extends its end, and every segment that leaves carries
    the bytes of the stream at its sequence number. *)

From S2P Require Import Prelude Core ByteOrder Checksum Packet Net TcpSeq TcpHdr PacketMerger TcbData Tcb TcbState.
From stdpp Require Import base numbers option list.

#[local] Open Scope Z_scope.

(** ** The stream *)

Definition in_flight (s : send) : list Z := concat (map seg_p (snd_data s)).
Definition flight (s : send) : Z := zlen (in_flight s).

(** The send state holds the unacknowledged stream [rest]. *)
Record send_ok (rest : list Z) (s : send) : Prop := SendOk {
  so_una : seq_ok (unacknowledged s);
  so_stream : in_flight s ++ concat (unsent s) = rest;
  so_next : seq_diff (snd_next s) (unacknowledged s) = flight s;
  so_flight : flight s < 2 ^ 30;
  so_unsent_len : unsent_len s = zlen (concat (unsent s)) /\ unsent_len s < 2 ^ 32;
  so_segs : Forall (fun seg => 0 < zlen (seg_p seg) < 65536) (snd_data s) }.

(** The congestion window holds a segment, and [n] more can be added to it. *)
Definition cwnd_ok (n : Z) (s : send) : Prop :=
  0 < snd_mss s < 65536 /\ snd_mss s <= cwnd s /\ cwnd s + 65536 * n <= 2 ^ 32.

(** ** Lemmas *)

Lemma in_flight_cons seg data s :
  snd_data s = seg :: data -> in_flight s = seg_p seg ++ concat (map seg_p data).
Proof. unfold in_flight. by intros ->. Qed.

Lemma seq_diff_add s n : - 2 ^ 31 <= n < 2 ^ 31 -> seq_diff (seq_add s n) s = n.
Proof.
  intros H. unfold seq_diff, seq_add. cbn. rewrite <- (s32_small n) at 2 by done.
  apply s32_eq. exists (- ((raw s + n) / 2 ^ 32)). unfold wrap. pow2. zlia.
Qed.

(** Moving the lower end of a distance. *)
Lemma seq_diff_shift a b n k :
  seq_diff a b = k -> - 2 ^ 31 <= k - n < 2 ^ 31 -> seq_diff a (seq_add b n) = k - n.
Proof.
  unfold seq_diff, seq_add. cbn. intros E H. rewrite <- (s32_small (k - n)) by done.
  destruct (s32_cong (raw a - raw b)) as [j Ej]. rewrite E in Ej.
  apply s32_eq. exists (((raw b + n) / 2 ^ 32) - j). unfold wrap. pow2. zlia.
Qed.

Lemma seq_diff_shift_l a b n k :
  seq_diff a b = k -> - 2 ^ 31 <= k + n < 2 ^ 31 -> seq_diff (seq_add a n) b = k + n.
Proof.
  unfold seq_diff, seq_add. cbn. intros E H. rewrite <- (s32_small (k + n)) by done.
  destruct (s32_cong (raw a - raw b)) as [j Ej]. rewrite E in Ej.
  apply s32_eq. exists (- ((raw a + n) / 2 ^ 32) - j). unfold wrap. pow2. zlia.
Qed.

Lemma seq_diff_neg a b k : seq_diff a b = k -> - 2 ^ 31 < k -> seq_diff b a = - k.
Proof.
  unfold seq_diff. intros E H. pose proof (s32_range (raw a - raw b)) as Hr. rewrite E in Hr.
  rewrite <- (s32_small (- k)) by (pow2; lia). destruct (s32_cong (raw a - raw b)) as [j Ej].
  rewrite E in Ej. apply s32_eq. exists (j). lia.
Qed.

(** A pair of numbers determines the second by its distance. *)
Lemma seq_add_diff a b : seq_ok a -> seq_add b (seq_diff a b) = a.
Proof.
  destruct a as [a], b as [b]. unfold seq_ok, is_uint, seq_add, seq_diff. cbn. intros Ha. f_equal.
  destruct (s32_cong (a - b)) as [k ->]. unfold wrap.
  replace (b + (a - b + k * 2 ^ 32)) with (a + k * 2 ^ 32) by lia.
  rewrite Z.mod_add by lia. by apply Z.mod_small.
Qed.

Section Send.
Context {BC : BeCodec} {AU : AlignUp} {T : Type} {TM : TimerOps T}.
Abbreviation tcb := (@TcbData.tcb T).
Abbreviation M := (@Tcb.M T).
Variable e : endian.
Variable hw : hw_features.
Variable now : Z.

(** Running a composite operation. *)
Lemma bind_eq {A B} (m : M A) (f : A -> M B) t x t' es :
  m t = Some (x, t', es) -> (m ≫= f) t = match f x t' with Some (y, t'', es') => Some (y, t'', es ++ es') | None => None end.
Proof. intros E. unfold mbind, M_bind. by rewrite E. Qed.

Lemma bind_none {A B} (m : M A) (f : A -> M B) t : m t = None -> (m ≫= f) t = None.
Proof. intros E. unfold mbind, M_bind. by rewrite E. Qed.

(** "Returns, and then": total correctness. *)
Definition returns {A} (m : M A) (t : tcb) (Q : A -> tcb -> Prop) : Prop :=
  exists x t' es, m t = Some (x, t', es) /\ Q x t'.

Lemma returns_ret {A} (x : A) t Q : Q x t -> returns (mret x) t Q.
Proof. intros H. by exists x, t, []. Qed.

Lemma returns_bind {A B} (m : M A) (f : A -> M B) t Q :
  returns m t (fun x t' => returns (f x) t' Q) -> returns (m ≫= f) t Q.
Proof.
  intros (x & t' & es & E & y & t'' & es' & E' & H). exists y, t'', (es ++ es').
  split; [|done]. rewrite (bind_eq _ _ _ _ _ _ E). by rewrite E'.
Qed.

Lemma returns_get t (Q : tcb -> tcb -> Prop) : Q t t -> returns get_tcb t Q.
Proof. intros H. by exists t, t, []. Qed.

Lemma returns_modify f t (Q : () -> tcb -> Prop) : Q () (f t) -> returns (modify f) t Q.
Proof. intros H. by exists (), (f t), []. Qed.

Lemma returns_modify_snd f t (Q : () -> tcb -> Prop) : Q () (upd_snd f t) -> returns (modify_snd f) t Q.
Proof. apply returns_modify. Qed.

Lemma returns_modify_rcv f t (Q : () -> tcb -> Prop) : Q () (upd_rcv f t) -> returns (modify_rcv f) t Q.
Proof. apply returns_modify. Qed.

Lemma returns_emit ev t (Q : () -> tcb -> Prop) : Q () t -> returns (emit ev) t Q.
Proof. intros H. by exists (), t, [ev]. Qed.

Lemma returns_lift {A} (o : option A) x t (Q : A -> tcb -> Prop) :
  o = Some x -> Q x t -> returns (lift o) t Q.
Proof. intros -> H. by exists x, t, []. Qed.

Lemma returns_when b m t (Q : () -> tcb -> Prop) :
  (b = true -> returns m t Q) -> (b = false -> Q () t) -> returns (when b m) t Q.
Proof. intros H1 H2. destruct b; [by apply H1|]. by apply returns_ret, H2. Qed.

Lemma returns_mono {A} (m : M A) t (Q Q' : A -> tcb -> Prop) :
  returns m t Q -> (forall x t', Q x t' -> Q' x t') -> returns m t Q'.
Proof. intros (x & t' & es & E & H) HQ. exists x, t', es. eauto. Qed.

(** What timers, estimates and promises leave alone. *)
Record frame (t t' : tcb) : Prop := Frame {
  fr_state : state t' = state t;
  fr_local : local_port t' = local_port t;
  fr_foreign : foreign_port t' = foreign_port t;
  fr_closed : closed (snd t') = closed (snd t);
  fr_rcv : rcv t' = rcv t;
  fr_packetq : packetq t' = packetq t;
  fr_una : unacknowledged (snd t') = unacknowledged (snd t);
  fr_next : snd_next (snd t') = snd_next (snd t);
  fr_data : snd_data (snd t') = snd_data (snd t);
  fr_unsent : unsent (snd t') = unsent (snd t);
  fr_unsent_len : unsent_len (snd t') = unsent_len (snd t);
  fr_window : snd_window (snd t') = snd_window (snd t);
  fr_mss : snd_mss (snd t') = snd_mss (snd t);
  fr_cwnd : cwnd (snd t') = cwnd (snd t);
  fr_ssthresh : ssthresh (snd t') = ssthresh (snd t) }.

Lemma frame_refl t : frame t t.
Proof. by split. Qed.

Lemma update_rto_frame tx t : returns (update_rto now tx) t (fun _ => frame t).
Proof.
  unfold update_rto. apply returns_bind, returns_get, returns_bind.
  destruct (first_rto_sample (snd t)); apply returns_modify_snd, returns_modify; by split.
Qed.

Lemma signal_send_available_frame t : returns signal_send_available t (fun _ => frame t).
Proof.
  unfold signal_send_available. apply returns_bind, returns_get, returns_when; intros _; [|by split].
  apply returns_bind, returns_emit, returns_modify_snd. by split.
Qed.

Lemma div_mul_le a b c : 0 < c -> 0 <= a -> a <= c -> 0 <= b -> a * b / c <= b.
Proof. intros. apply Z.div_le_upper_bound; nia. Qed.

(** The window grows by at most a segment. *)
Lemma update_cwnd_returns n k t :
  cwnd_ok (k + 1) (snd t) -> 0 <= k -> 0 <= n ->
  returns (update_cwnd n) t (fun _ t' => cwnd_ok k (snd t') /\ frame (upd_snd (set_cwnd (cwnd (snd t'))) t) t').
Proof.
  intros (Hm & Hc & Hb) Hk Hn. unfold update_cwnd. apply returns_bind, returns_get. cbv zeta. pow2.
  destruct (Z.ltb_spec (cwnd (snd t)) (ssthresh (snd t))); [|destruct (Z.eqb_spec (cwnd (snd t)) 0); [lia|]];
    apply returns_modify_snd; unfold cwnd_ok; cbn; (split; [|by split]).
  - rewrite wrap_small by (pow2; lia). pow2. lia.
  - rewrite (wrap_small 32 (_ * _)) by (pow2; nia).
    pose proof (div_mul_le (snd_mss (snd t)) (snd_mss (snd t)) (cwnd (snd t)) ltac:(lia) ltac:(lia) ltac:(lia) ltac:(lia)).
    pose proof (Z.div_pos (snd_mss (snd t) * snd_mss (snd t)) (cwnd (snd t)) ltac:(nia) ltac:(lia)).
    rewrite wrap_small by (pow2; lia). pow2. lia.
Qed.

Definition same_connection (t t' : tcb) : Prop :=
  local_port t' = local_port t /\ foreign_port t' = foreign_port t /\ snd_mss (snd t') = snd_mss (snd t) /\
  closed (snd t') = closed (snd t).

Lemma same_connection_trans t1 t2 t3 : same_connection t1 t2 -> same_connection t2 t3 -> same_connection t1 t3.
Proof. intros (?&?&?&?) (?&?&?&?). unfold same_connection. split_and!; congruence. Qed.

Lemma frame_connection t t' : frame t t' -> same_connection t t'.
Proof. by intros []. Qed.

(** What an acknowledgment of [n] bytes does to the stream. *)
Definition acked (n : Z) (t t' : tcb) : Prop :=
  unacknowledged (snd t') = seq_add (unacknowledged (snd t)) n /\
  in_flight (snd t') = drop (Z.to_nat n) (in_flight (snd t)) /\
  Forall (fun seg => 0 < zlen (seg_p seg) < 65536) (snd_data (snd t')) /\
  state t' = state t /\ rcv t' = rcv t /\ packetq t' = packetq t /\
  snd_next (snd t') = snd_next (snd t) /\ unsent (snd t') = unsent (snd t) /\
  unsent_len (snd t') = unsent_len (snd t) /\ snd_window (snd t') = snd_window (snd t) /\
  same_connection t t'.

Lemma acked_0 t : seq_ok (unacknowledged (snd t)) ->
  Forall (fun seg => 0 < zlen (seg_p seg) < 65536) (snd_data (snd t)) -> acked 0 t t.
Proof. intros H Hs. unfold acked. rewrite seq_add_0 by done. done. Qed.

Lemma acked_trans n m t1 t2 t3 : 0 <= n -> 0 <= m -> acked n t1 t2 -> acked m t2 t3 -> acked (n + m) t1 t3.
Proof.
  intros Hn Hm (A1 & A2 & A3 & A4 & A5 & A6 & A7 & A8 & A9 & A10 & A11) (B1 & B2 & B3 & B4 & B5 & B6 & B7 & B8 & B9 & B10 & B11).
  unfold acked. split_and!; try congruence; try done.
  - by rewrite B1, A1, seq_add_add.
  - rewrite B2, A2, drop_drop. f_equal. lia.
  - by eapply same_connection_trans.
Qed.

Lemma acked_seq_ok n t t' : acked n t t' -> seq_ok (unacknowledged (snd t')).
Proof. intros (-> & _). apply seq_add_ok. Qed.

Lemma update_rto_when b tx t : returns (when b (update_rto now tx)) t (fun _ => frame t).
Proof. apply returns_when; intros _; [apply update_rto_frame|apply frame_refl]. Qed.

Lemma cwnd_ok_mono n m s : m <= n -> cwnd_ok n s -> cwnd_ok m s.
Proof. unfold cwnd_ok. pow2. lia. Qed.

(** One segment acknowledged in full. *)
Lemma ack_one_segment seg data t (f : M Z) Q n :
  snd_data (snd t) = seg :: data -> Forall (fun seg => 0 < zlen (seg_p seg) < 65536) (snd_data (snd t)) ->
  cwnd_ok (n + 1) (snd t) -> 0 <= n ->
  (forall t', acked (zlen (seg_p seg)) t t' -> snd_data (snd t') = data -> cwnd_ok n (snd t') ->
     snd_mss (snd t') = snd_mss (snd t) -> returns f t' Q) ->
  returns (modify_snd (fun s => set_unacknowledged (seq_add (unacknowledged s) (zlen (seg_p seg))) s);;
    when (nr_transmits seg =? 0) (update_rto now (tx_time seg));;
    update_cwnd (zlen (seg_p seg));;
    modify_snd (fun s => set_current_queue_space (u64 (current_queue_space s - data_len seg)) s);;
    signal_send_available;;
    modify_snd (set_snd_data data);;
    f) t Q.
Proof.
  intros Ed Hsegs Hc Hn Hf. apply returns_bind, returns_modify_snd, returns_bind.
  eapply returns_mono; [apply update_rto_when|]. cbv beta. intros _ t2 F2. apply returns_bind.
  eapply returns_mono; [apply (update_cwnd_returns _ n)|].
  { destruct F2. unfold cwnd_ok in *. rewrite fr_mss0, fr_cwnd0. exact Hc. }
  { done. }
  { apply zlen_nonneg. }
  cbv beta. intros _ t3 [Hc3 F3]. apply returns_bind, returns_modify_snd, returns_bind.
  eapply returns_mono; [apply signal_send_available_frame|]. cbv beta. intros _ t5 F5.
  apply returns_bind, returns_modify_snd. destruct F2, F3, F5. cbn in *. apply Hf; cbn.
  - unfold acked, in_flight. cbn. rewrite Ed in *. split_and!; try congruence.
    + cbn. rewrite drop_app_length'; [done|unfold zlen; lia].
    + by apply Forall_cons in Hsegs as [_ ?].
    + unfold same_connection. cbn. split_and!; congruence.
  - done.
  - unfold cwnd_ok in *. cbn. congruence.
  - congruence.
Qed.

(** The loop over the segments that are acknowledged in full, of the [k] bytes
    that are acknowledged. *)
Lemma ack_full_segments_spec seg_ack data total c t k :
  snd_data (snd t) = data -> Forall (fun seg => 0 < zlen (seg_p seg) < 65536) data ->
  seq_ok (unacknowledged (snd t)) ->
  seq_diff seg_ack (unacknowledged (snd t)) = k -> 0 <= k <= zlen (concat (map seg_p data)) ->
  zlen (concat (map seg_p data)) < 2 ^ 30 ->
  cwnd_ok (Z.of_nat (length data) + 1 + c) (snd t) -> 0 <= c -> 0 <= total -> total + k < 2 ^ 32 ->
  returns (ack_full_segments now seg_ack data total) t (fun r t' =>
    exists m, 0 <= m <= k /\ r = total + m /\ acked m t t' /\ cwnd_ok (Z.of_nat (length (snd_data (snd t'))) + 1 + c) (snd t') /\
      snd_mss (snd t') = snd_mss (snd t) /\
      match snd_data (snd t') with [] => m = k | seg :: _ => k - m < zlen (seg_p seg) end).
Proof.
  revert total t k. induction data as [|seg data IH]; intros total t k Ed Hsegs Hok Ek Hk Hb Hc Hc0 Ht Htk.
  { apply returns_ret. exists 0. rewrite Ed. change (0 <= k <= 0) in Hk.
    split_and!; try done; try lia. apply acked_0; [done|]. by rewrite Ed. }
  cbn [ack_full_segments]. apply returns_bind, returns_get. cbv zeta.
  cbn [map concat] in Hk, Hb. rewrite zlen_app in Hk, Hb.
  pose proof (proj1 (proj1 (Forall_cons _ _ _) Hsegs)) as Hseg.
  assert (Htest : seq_leb (seq_add (unacknowledged (snd t)) (zlen (seg_p seg))) seg_ack = (zlen (seg_p seg) <=? k)).
  { change (2 ^ 30) with 1073741824 in *.
    unfold seq_leb, seq_gtb, seq_ltb. rewrite (seq_diff_shift _ _ _ k) by (done || (pow2; lia)). bcase; cbn; lia. }
  rewrite Htest. destruct (Z.leb_spec (zlen (seg_p seg)) k).
  - eapply (ack_one_segment seg data t _ _ (Z.of_nat (length data) + 1 + c)); [done|by rewrite Ed| |lia|].
    { eapply cwnd_ok_mono; [|exact Hc]. cbn. lia. }
    intros t' Ha Ed' Hc' Hm'. rewrite wrap_small by (pow2; lia).
    eapply returns_mono; [apply (IH _ t' (k - zlen (seg_p seg)))|]; try done; try lia.
    + by apply Forall_cons in Hsegs as [_ ?].
    + by eapply acked_seq_ok.
    + destruct Ha as (-> & _). apply seq_diff_shift; [done|]. change (2 ^ 30) with 1073741824 in *. pow2. lia.
    + cbn. intros r t'' (m & Hm & -> & Ha' & Hc'' & Hmss & Hlast). exists (zlen (seg_p seg) + m).
      split_and!; try lia; try congruence; try done.
      * apply (acked_trans _ _ t t' t''); [lia|lia|done|done].
      * destruct (snd_data (snd t'')); lia.
  - apply returns_ret. exists 0. rewrite Ed. split_and!; try done; try lia.
    + apply acked_0; [done|by rewrite Ed].
Qed.

(** The end of the stream after an acknowledgment. *)
Lemma acked_send_ok rest k t t' :
  send_ok rest (snd t) -> 0 <= k <= flight (snd t) -> acked k t t' ->
  send_ok (drop (Z.to_nat k) rest) (snd t').
Proof.
  intros [Hu Hst Hn Hfl Hul Hsegs] Hk (A1 & A2 & A3 & _ & _ & _ & A7 & A8 & A9 & _).
  unfold flight in *. change (2 ^ 30) with 1073741824 in *. constructor; unfold flight; rewrite ?A8, ?A9; try done.
  - rewrite A1. apply seq_add_ok.
  - rewrite A2, <- Hst, drop_app_le; [done|]. unfold zlen in *. lia.
  - rewrite A1, A2, A7, zlen_drop by lia. apply seq_diff_shift; [done|]. pow2. lia.
  - rewrite A2, zlen_drop by lia. change (2 ^ 30) with 1073741824. lia.
Qed.

(** [data_segment_acked] drops the acknowledged bytes, whole segments and part
    of one, and returns how many they are. *)
Lemma data_segment_acked_spec rest seg_ack c t k :
  send_ok rest (snd t) -> seq_ok seg_ack -> seq_diff seg_ack (unacknowledged (snd t)) = k ->
  0 <= k <= flight (snd t) -> cwnd_ok (Z.of_nat (length (snd_data (snd t))) + 1 + c) (snd t) -> 0 <= c ->
  returns (data_segment_acked now seg_ack) t (fun r t' =>
    r = k /\ send_ok (drop (Z.to_nat k) rest) (snd t') /\ unacknowledged (snd t') = seg_ack /\
    acked k t t' /\ cwnd_ok (Z.of_nat (length (snd_data (snd t'))) + c) (snd t')).
Proof.
  intros [Hu Hst Hn Hfl Hul Hsegs] Hao Ek Hk Hc Hc0. unfold data_segment_acked.
  change (2 ^ 30) with 1073741824 in *. unfold flight in *.
  apply returns_bind, returns_get, returns_bind.
  eapply returns_mono; [apply (ack_full_segments_spec seg_ack _ 0 c t k)|]; try done; try lia.
  cbn. intros r t1 (m & Hm & -> & Ha & Hc1 & Hm1 & Hlast). apply returns_bind, returns_get.
  assert (Hd1 : seq_diff seg_ack (unacknowledged (snd t1)) = k - m).
  { destruct Ha as (-> & _). apply seq_diff_shift; [done|]. pow2. lia. }
  assert (Hlt : seq_ltb (unacknowledged (snd t1)) seg_ack = (m <? k)).
  { unfold seq_ltb. rewrite (seq_diff_neg _ _ _ Hd1) by (pow2; lia). bcase; lia. }
  rewrite Hlt, Hd1. destruct (Z.ltb_spec m k) as [Hmk|Hmk].
  - destruct (snd_data (snd t1)) as [|seg data'] eqn:Ed1; [lia|].
    pose proof Ha as (A1 & A2 & A3 & A4 & A5 & A6 & A7 & A8 & A9 & A10 & A11). rewrite Ed1 in A3.
    apply Forall_cons in A3 as [A3 A3'].
    apply returns_bind, returns_bind. eapply returns_lift; [apply drop_front_ok; lia|].
    apply returns_modify_snd, returns_bind, returns_modify_snd, returns_bind.
    eapply returns_mono; [apply (update_cwnd_returns _ (Z.of_nat (length (seg :: data')) + c))|]; [eapply cwnd_ok_mono; [|exact Hc1]; lia|lia|apply wrap_range; lia|].
    cbv beta. intros _ t4 [Hc4 F4]. apply returns_ret.
    assert (Hfin : acked k t t4).
    { destruct F4. cbn in *. replace k with (m + (k - m)) by lia.
      apply (acked_trans _ _ t t1 t4); [lia|lia|done|]. unfold acked, in_flight.
      rewrite fr_data0, Ed1. cbn [map concat]. split_and!; try congruence; try done.
      - rewrite fr_una0. rewrite <- Hd1. by rewrite seq_add_diff.
      - rewrite drop_app_le by (unfold zlen in *; lia). done.
      - constructor; [|done]. cbn. rewrite zlen_drop by lia. lia. }
    split_and!; [rewrite wrap_small by (pow2; lia); lia| | |done|].
    + by apply (acked_send_ok _ _ t).
    + by destruct F4.
    + destruct F4. cbn in *. by rewrite fr_data0.
  - assert (m = k) as -> by lia. apply returns_ret. split_and!; [lia| | |done|eapply cwnd_ok_mono; [|exact Hc1]; lia].
    + by apply (acked_send_ok _ _ t).
    + destruct Ha as (-> & _). rewrite <- Ek. by apply seq_add_diff.
Qed.

(** *** What may be sent *)

(** The value of [can_send()]: the congestion window is a bound on what is sent
    now, whatever is in flight. *)
Definition can_send_value (s : send) : Z :=
  if window_probe s then 1
  else if snd_window s =? 0 then 0
  else if snd_window s <? u32 (seq_diff (snd_next s) (unacknowledged s)) then 0
  else
    let x := Z.min (cwnd s) (Z.min (u32 (snd_window s - u32 (seq_diff (snd_next s) (unacknowledged s)))) (unsent_len s)) in
    if (dupacks s =? 1) || (dupacks s =? 2) then
      let max := u32 (cwnd s + 2 * snd_mss s) in
      if flight_size_of s <=? max then Z.min x (u32 (max - flight_size_of s)) else 0
    else if 3 <=? dupacks s then Z.min (snd_mss s) x
    else x.

Lemma can_send_returns t :
  returns can_send t (fun n t' => n = can_send_value (snd t) /\ frame t t' /\
    retransmit_timer t' = retransmit_timer t /\ option_ t' = option_ t /\ closed (snd t') = closed (snd t)).
Proof.
  unfold can_send, can_send_value. apply returns_bind, returns_get. cbv zeta.
  destruct (window_probe (snd t)); [by apply returns_ret|].
  destruct (snd_window (snd t) =? 0); [by apply returns_ret|].
  destruct (_ <? _); [by apply returns_ret|].
  destruct ((dupacks (snd t) =? 1) || (dupacks (snd t) =? 2))%bool.
  - apply returns_bind, returns_modify_snd, returns_ret. by split.
  - destruct (3 <=? _); by apply returns_ret.
Qed.

(** Unsigned fields. *)
Definition unsigned (s : send) : Prop :=
  0 <= cwnd s /\ 0 <= snd_mss s < 65536 /\ is_uint 32 (snd_window s) /\ 0 <= unsent_len s.

(** What may be sent fits the send window, but for a window probe. *)
Lemma can_send_window rest s :
  send_ok rest s -> unsigned s ->
  0 <= can_send_value s /\ (can_send_value s <= 1 \/ flight s + can_send_value s <= snd_window s).
Proof.
  intros [Hu Hst Hn Hfl [Hul Hul2] Hsegs] (H1 & H2 & H3 & H4). unfold can_send_value. rewrite Hn.
  pose proof (zlen_nonneg (in_flight s)). unfold flight, is_uint in *. pow2. change (2 ^ 30) with 1073741824 in *.
  rewrite (wrap_small 32 (zlen (in_flight s))) by (pow2; lia).
  destruct (window_probe s); [lia|]. destruct (Z.eqb_spec (snd_window s) 0); [lia|].
  destruct (Z.ltb_spec (snd_window s) (zlen (in_flight s))); [lia|].
  rewrite (wrap_small 32 (snd_window s - _)) by (pow2; lia).
  destruct ((dupacks s =? 1) || (dupacks s =? 2))%bool; [|destruct (Z.leb_spec 3 (dupacks s)); lia].
  destruct (_ <=? _); [|lia].
  pose proof (wrap_range 32 (u32 (cwnd s + 2 * snd_mss s) - flight_size_of s) ltac:(lia)). lia.
Qed.

Lemma merge_unsent_spec q p can :
  0 <= can ->
  exists p' q', merge_unsent p can q = Some (p', q') /\ p' ++ concat q' = p ++ concat q /\
    zlen p <= zlen p' <= zlen p + can.
Proof.
  revert p can. induction q as [|f q IH]; intros p can Hc; cbn [merge_unsent].
  - exists p, []. split_and!; done || lia.
  - pose proof (zlen_nonneg f). destruct (Z.leb_spec (zlen f) can).
    + destruct (IH (p ++ f) (can - zlen f) ltac:(lia)) as (p' & q' & -> & E & Hb).
      exists p', q'. rewrite zlen_app in Hb. split_and!; [done| |lia|lia].
      rewrite E. cbn. by rewrite app_assoc.
    + destruct (Z.eqb_spec can 0) as [->|]; [exists p, (f :: q); split_and!; done || lia|].
      rewrite share_bytes_ok, drop_front_ok by lia. cbn [mbind option_bind].
      do 2 eexists. split; [done|]. rewrite share_front. split.
      * cbn. rewrite <- app_assoc. f_equal. rewrite app_assoc. f_equal. apply take_drop.
      * rewrite zlen_app, zlen_take by lia. lia.
Qed.

Lemma take_unsent_spec can q :
  0 <= can ->
  exists p q', take_unsent can q = Some (p, q') /\ p ++ concat q' = concat q /\ zlen p <= can.
Proof.
  intros Hc. destruct q as [|f q]; cbn [take_unsent].
  { exists [], []. rewrite zlen_nil. split_and!; done || lia. }
  assert (Hsplit : forall q0, zlen f > can -> exists p q',
    (x ← share_bytes 0 can f; y ← drop_front can f; Some (x, y :: q0)) = Some (p, q') /\
    p ++ concat q' = concat (f :: q0) /\ zlen p <= can).
  { intros q0 Hf. rewrite share_bytes_ok, drop_front_ok by lia. cbn [mbind option_bind].
    do 2 eexists. split; [done|]. rewrite share_front. split.
    - cbn. rewrite app_assoc. f_equal. apply take_drop.
    - rewrite zlen_take by lia. lia. }
  destruct q as [|g q].
  - destruct (Z.leb_spec (zlen f) can); [|apply Hsplit; lia].
    exists f, []. cbn. split_and!; done || lia.
  - destruct (Z.ltb_spec can (zlen f)); [apply Hsplit; lia|].
    destruct (merge_unsent_spec (g :: q) f (can - zlen f) ltac:(lia)) as (p' & q' & -> & E & Hb).
    exists p', q'. split_and!; [done|done|lia].
Qed.

(** The interface allows segments. *)
Definition hw_ok : Prop := 40 <= mtu hw < 65536 /\ 40 <= max_packet_len hw < 65536.

Lemma max_segment_len_bound s :
  hw_ok -> unsigned s -> 0 <= max_segment_len hw s < 65536.
Proof.
  intros [H1 H2] (_ & H3 & _). unfold max_segment_len, tcp_hdr_len_min, ipv4_hdr_len_min.
  destruct (tx_tso hw).
  - rewrite wrap_small by (pow2; lia). lia.
  - rewrite wrap_small by (pow2; lia). lia.
Qed.

(** *** The segment that leaves *)

(** In the states between the handshake and the end, a segment carries no
    options and acknowledges. *)
Definition synchronised (t : tcb) : Prop :=
  state t ∈ [ESTABLISHED; FIN_WAIT_1; FIN_WAIT_2; CLOSE_WAIT; CLOSING; LAST_ACK; TIME_WAIT].

Lemma synchronised_flags t :
  synchronised t -> syn_needs_on t = false /\ ack_needs_on t = true /\ tcb_in_state [CLOSED] t = false.
Proof.
  unfold synchronised, syn_needs_on, ack_needs_on, tcb_in_state. intros H.
  repeat (apply elem_of_cons in H as [->|H]; [done|]). by apply elem_of_nil in H.
Qed.

Lemma host_store_bytes n v : Forall is_byte (host_store e n v).
Proof. destruct e; cbn; [apply Forall_rev|]; apply be_bytes_range. Qed.

Lemma length_host_store n v : length (host_store e n v) = n.
Proof. destruct e; cbn; rewrite ?length_rev; apply length_be_bytes. Qed.

Definition with_checksum (c : Z) (h : tcp_hdr) : tcp_hdr :=
  TcpHdr (src_port h) (dst_port h) (h_seq h) (h_ack h) (rsvd1 h) (data_offset h) (f_fin h) (f_syn h)
    (f_rst h) (f_psh h) (f_ack h) (f_urg h) (rsvd2 h) (window h) c (urgent h).

(** Storing the checksum changes that field of the header and nothing else. *)
Lemma write_nbo_checksum_write v h rest :
  write_nbo_checksum (host_store e 2 v) (tcp_hdr_write h ++ rest) =
  tcp_hdr_write (with_checksum (read_be 2 (host_store e 2 v)) h) ++ rest.
Proof.
  pose proof (host_store_bytes 2 v) as Hb. pose proof (length_host_store 2 v) as Hl.
  destruct (host_store e 2 v) as [|a [|b [|? ?]]]; try done.
  unfold write_nbo_checksum, tcp_hdr_write. cbn [with_checksum src_port dst_port h_seq h_ack window checksum urgent].
  rewrite (write_be_read_be 2 [a; b]) by (done || cbn; lia).
  change (offset_byte (with_checksum _ h)) with (offset_byte h).
  change (flags_byte (with_checksum _ h)) with (flags_byte h).
  repeat match goal with
    | |- context [write_be ?n ?v] =>
        pose proof (length_write_be n v); destruct (write_be n v) as [|? [|? [|? [|? [|? ?]]]]]; try done
    end.
Qed.

(** The header of the segment: no options, and the acknowledgment. *)
Definition segment_hdr (t : tcb) (seq : tcp_seq) : tcp_hdr := output_header t seq false true (fin_needs_on t) 0.

(** [p] is the segment at [seq] with [payload]. *)
Definition carries (t : tcb) (seq : tcp_seq) (payload : list Z) (p : packet) : Prop :=
  (exists c, tcp_hdr_read (bytes p) = with_checksum c (segment_hdr t seq)) /\
  drop 20 (bytes p) = payload /\ Forall is_byte (bytes p) /\ zlen (bytes p) = 20 + zlen payload.

Definition ports_ok (t : tcb) : Prop := is_uint 16 (local_port t) /\ is_uint 16 (foreign_port t).

Lemma segment_hdr_ok t seq : ports_ok t -> seq_ok seq -> seq_ok (rcv_next (rcv t)) -> hdr_ok (segment_hdr t seq).
Proof.
  intros [H1 H2] Hs Hr. unfold hdr_ok. cbn. split_and!; try done; try by apply wrap_range.
Qed.

Lemma tcp_checksum_returns src dst len data :
  Forall is_byte data -> exists c, tcp_checksum e hw src dst len data = Some c.
Proof.
  intros Hb. unfold tcp_checksum. destruct (tx_csum_l4_offload hw); [by eexists|].
  destruct (sum_spec e (tcp_pseudo_header_checksum src dst len) data Hb) as (v & -> & _); [|by eexists].
  by intros [? _].
Qed.

Lemma tcp_hdr_write_bytes h : Forall is_byte (tcp_hdr_write h).
Proof.
  unfold tcp_hdr_write. rewrite !Forall_app. split_and!; try apply write_be_bytes.
  repeat (constructor; [by apply wrap_range|]). constructor.
Qed.

Lemma carries_segment t seq payload v oi :
  ports_ok t -> seq_ok seq -> seq_ok (rcv_next (rcv t)) -> Forall is_byte payload ->
  carries t seq payload
    (Pkt (write_nbo_checksum (host_store e 2 v) (tcp_hdr_write (segment_hdr t seq) ++ payload)) oi).
Proof.
  intros Hp Hs Hr Hb. rewrite write_nbo_checksum_write. unfold carries. cbn [bytes]. split_and!.
  - eexists. rewrite tcp_read_write; [done|].
    pose proof (segment_hdr_ok _ _ Hp Hs Hr) as (? & ? & ? & ? & ? & ? & ? & ? & ? & ?).
    unfold hdr_ok. cbn. split_and!; try done.
    pose proof (read_be_range 2 (host_store e 2 v) ltac:(by rewrite length_host_store) (host_store_bytes _ _)). done.
  - rewrite drop_app_length'; [done|]. by rewrite length_tcp_hdr_write.
  - apply Forall_app_2; [apply tcp_hdr_write_bytes|done].
  - rewrite zlen_app. unfold zlen at 1. by rewrite length_tcp_hdr_write.
Qed.

(** What sending a segment leaves alone. *)
Record quiet (t t' : tcb) : Prop := Quiet {
  qt_state : state t' = state t;
  qt_rcv : rcv t' = rcv t;
  qt_una : unacknowledged (snd t') = unacknowledged (snd t);
  qt_unsent : unsent (snd t') = unsent (snd t);
  qt_unsent_len : unsent_len (snd t') = unsent_len (snd t);
  qt_window : snd_window (snd t') = snd_window (snd t);
  qt_mss : snd_mss (snd t') = snd_mss (snd t);
  qt_cwnd : cwnd (snd t') = cwnd (snd t);
  qt_conn : same_connection t t' }.

(** A queued segment: its payload, if any, goes to the retransmission queue. *)
Definition queued (payload : list Z) : list unacked_segment :=
  if zlen payload =? 0 then [] else [Unacked payload (zlen payload) 0 now].

Lemma length_queued payload : (length (queued payload) <= 1)%nat.
Proof. unfold queued. destruct (_ =? _); cbn; lia. Qed.

Definition sent (t : tcb) (payload : list Z) (t' : tcb) : Prop :=
  quiet t t' /\ snd_next (snd t') = seq_add (snd_next (snd t)) (zlen payload) /\
  snd_data (snd t') = snd_data (snd t) ++ queued payload /\
  exists p, packetq t' = packetq t ++ [p] /\ carries t (snd_next (snd t)) payload p.

Definition window_allows (n : Z) (s : send) : Prop := 0 < snd_window s \/ snd_window s = 0 /\ n <= 1.

Lemma window_allows_test n s :
  window_allows n s -> ((0 <? snd_window s) || (snd_window s =? 0) && (n <=? 1))%bool = true.
Proof. intros [H|[-> H]]; [|destruct (Z.leb_spec n 1); [done|lia]]. by rewrite (proj2 (Z.ltb_lt _ _)). Qed.

Lemma output_segment_new t payload :
  synchronised t -> ports_ok t -> seq_ok (snd_next (snd t)) -> seq_ok (rcv_next (rcv t)) ->
  Forall is_byte payload -> zlen payload < 65536 -> window_allows (zlen payload) (snd t) ->
  returns (output_segment e hw now false payload) t (fun _ => sent t payload).
Proof.
  intros Hsync Hp Hs Hr Hb Hl Hw. destruct (synchronised_flags t Hsync) as (Hsyn & Hack & _).
  unfold output_segment. apply returns_bind, returns_get. cbv zeta. rewrite Hsyn, Hack.
  rewrite (wrap_small 16 (zlen payload)) by (pow2; pose proof (zlen_nonneg payload); lia).
  change (get_size (option_ t) false true) with 0. cbn [negb andb orb].
  apply returns_bind, returns_modify, returns_bind, returns_get, returns_bind, returns_modify_snd.
  apply returns_bind, returns_get, returns_bind.
  apply (returns_lift _ []); [done|]. apply returns_bind. cbn [app].
  match goal with |- context [output_header ?t' ?s _ _ _ _] =>
    change (output_header t' s _ _ _ _) with (segment_hdr t (snd_next (snd t))) end.
  match goal with |- context [tcp_checksum _ _ ?s ?d ?l ?bs] =>
    destruct (tcp_checksum_returns s d l bs) as [c Ec] end.
  { apply Forall_app_2; [apply tcp_hdr_write_bytes|done]. }
  eapply returns_lift; [exact Ec|]. apply returns_bind.
  match goal with |- returns (when _ ?m) ?t1 _ => set (m1 := m); set (t1' := t1) end.
  eapply (returns_mono _ _ (fun _ t2 => quiet t1' t2 /\ packetq t2 = packetq t1' /\ snd_next (snd t2) = snd_next (snd t1') /\
    snd_data (snd t2) = snd_data (snd t1') ++ queued payload)).
  - assert (Hfin : forall t2 (Q : () -> tcb -> Prop), (forall t3, quiet t2 t3 -> packetq t3 = packetq t2 ->
        snd_next (snd t3) = snd_next (snd t2) -> snd_data (snd t3) = snd_data (snd t2) -> Q () t3) ->
      returns (t ← get_tcb; when (negb (tm_armed (retransmit_timer t))) (start_retransmit_timer now)) t2 Q).
    { intros t2 Q HQ. apply returns_bind, returns_get, returns_when; intros _.
      - apply returns_modify, HQ; by split. - apply HQ; by split. }
    unfold m1, queued. destruct (Z.eqb_spec (zlen payload) 0) as [E|E]; cbn [negb orb].
    + apply returns_when; intros _; [|rewrite app_nil_r; done].
      apply returns_bind, returns_when; [done|intros _]. apply Hfin. intros. rewrite app_nil_r. done.
    + apply returns_bind, returns_modify_snd, Hfin. intros t3 [] ? ? ?. done.
  - cbv beta. intros _ t2 ([] & E2 & E3 & E4). apply returns_bind, returns_get.
    cbn in *. rewrite window_allows_test by (unfold window_allows in *; congruence).
    apply returns_modify. split_and!; try done.
    eexists. split; [by rewrite <- E2|]. by apply carries_segment.
Qed.

(** A segment sent again. *)
Definition resent (t : tcb) (payload : list Z) (t' : tcb) : Prop :=
  quiet t t' /\ snd_next (snd t') = snd_next (snd t) /\ snd_data (snd t') = snd_data (snd t) /\
  exists p, packetq t' = packetq t ++ [p] /\ carries t (unacknowledged (snd t)) payload p.

Lemma output_segment_again t payload :
  synchronised t -> ports_ok t -> seq_ok (unacknowledged (snd t)) -> seq_ok (rcv_next (rcv t)) ->
  Forall is_byte payload -> zlen payload < 65536 -> window_allows (zlen payload) (snd t) ->
  returns (output_segment e hw now true payload) t (fun _ => resent t payload).
Proof.
  intros Hsync Hp Hs Hr Hb Hl Hw. destruct (synchronised_flags t Hsync) as (Hsyn & Hack & _).
  unfold output_segment. apply returns_bind, returns_get. cbv zeta. rewrite Hsyn, Hack.
  rewrite (wrap_small 16 (zlen payload)) by (pow2; pose proof (zlen_nonneg payload); lia).
  change (get_size (option_ t) false true) with 0. cbn [negb andb orb].
  apply returns_bind, returns_modify, returns_bind, returns_get, returns_bind, returns_ret.
  apply returns_bind, returns_get, returns_bind.
  apply (returns_lift _ []); [done|]. apply returns_bind. cbn [app].
  match goal with |- context [output_header ?t' ?s _ _ _ _] =>
    change (output_header t' s _ _ _ _) with (segment_hdr t (unacknowledged (snd t))) end.
  match goal with |- context [tcp_checksum _ _ ?s ?d ?l ?bs] =>
    destruct (tcp_checksum_returns s d l bs) as [c Ec] end.
  { apply Forall_app_2; [apply tcp_hdr_write_bytes|done]. }
  eapply returns_lift; [exact Ec|]. apply returns_bind, returns_ret, returns_bind, returns_get.
  cbn. rewrite window_allows_test by done. apply returns_modify. split_and!; try done.
  eexists. split; [done|]. by apply carries_segment.
Qed.

(** *** Taking the payload off the send queue *)

Lemma get_transmit_packet_spec rest t :
  hw_ok -> send_ok rest (snd t) -> unsigned (snd t) ->
  returns (get_transmit_packet hw) t (fun p t' =>
    frame (upd_snd (fun s => set_unsent (unsent (snd t')) (set_unsent_len (unsent_len s - zlen p) s)) t) t' /\
    closed (snd t') = closed (snd t) /\ retransmit_timer t' = retransmit_timer t /\ option_ t' = option_ t /\
    p ++ concat (unsent (snd t')) = concat (unsent (snd t)) /\
    zlen p < 65536 /\ (unsent (snd t) = [] \/ zlen p <= can_send_value (snd t))).
Proof.
  intros Hhw Hok Hun. destruct (can_send_window rest (snd t) Hok Hun) as [Hc0 _].
  pose proof (max_segment_len_bound _ Hhw Hun) as Hm. destruct Hok as [_ _ _ _ [Hul Hul2] _].
  unfold get_transmit_packet. apply returns_bind, returns_get. destruct (unsent (snd t)) as [|f q] eqn:Eq.
  { apply returns_ret. rewrite Eq. split_and!; try done; [|by left]. split; cbn; try done. change (zlen []) with 0. lia. }
  apply returns_bind. eapply returns_mono; [apply can_send_returns|]. cbv beta.
  intros n t1 (-> & F1 & Er & Eo & Ec). apply returns_bind, returns_get. cbv zeta.
  pose proof (fr_unsent _ _ F1) as Eu. pose proof (fr_mss _ _ F1) as Em.
  replace (max_segment_len hw (snd t1)) with (max_segment_len hw (snd t)) by (unfold max_segment_len; by rewrite Em).
  destruct (take_unsent_spec (Z.min (can_send_value (snd t)) (max_segment_len hw (snd t))) (unsent (snd t1)))
    as (p & q' & Et & Ep & Hp); [lia|].
  apply returns_bind. eapply returns_lift; [exact Et|].
  apply returns_bind, returns_modify_snd, returns_bind, returns_modify_snd, returns_ret. cbn.
  rewrite Eu, Eq in Ep. pose proof (f_equal zlen Ep) as El. rewrite zlen_app in El.
  pose proof (zlen_nonneg (concat q')). pose proof (zlen_nonneg p). destruct F1.
  split_and!; try done; [|lia|by right; lia].
  split; cbn; try congruence. rewrite wrap_small; [congruence|]. rewrite fr_unsent_len0, Hul. pow2. cbn in *. lia.
Qed.

(** *** Sending new data, and sending again *)

(** The fields have the ranges of their types. *)
Record fields_ok (t : tcb) : Prop := FieldsOk {
  fo_ports : ports_ok t;
  fo_next : seq_ok (snd_next (snd t));
  fo_rcv : seq_ok (rcv_next (rcv t));
  fo_send : unsigned (snd t) }.

Lemma sent_send_ok rest (t : tcb) payload (t' : tcb) :
  send_ok rest (snd t) -> zlen rest < 2 ^ 30 ->
  concat (unsent (snd t)) = payload ++ concat (unsent (snd t')) -> zlen payload < 65536 ->
  unacknowledged (snd t') = unacknowledged (snd t) ->
  snd_next (snd t') = seq_add (snd_next (snd t)) (zlen payload) ->
  snd_data (snd t') = snd_data (snd t) ++ queued payload ->
  unsent_len (snd t') = unsent_len (snd t) - zlen payload ->
  send_ok rest (snd t').
Proof.
  intros [Hu Hst Hn Hfl [Hul Hul2] Hsegs] Hr Ec Hl E1 E2 E3 E4. change (2 ^ 30) with 1073741824 in *.
  pose proof (zlen_nonneg payload). pose proof (zlen_nonneg (in_flight (snd t))).
  assert (Ef : in_flight (snd t') = in_flight (snd t) ++ payload).
  { unfold in_flight. rewrite E3, map_app, concat_app. f_equal. unfold queued.
    destruct (Z.eqb_spec (zlen payload) 0) as [E|_]; [by rewrite (zlen_0_nil _ E)|apply app_nil_r]. }
  rewrite <- Hst, Ec, !zlen_app in Hr. pose proof (zlen_nonneg (concat (unsent (snd t')))).
  unfold flight in *. constructor; unfold flight; rewrite ?E1, ?E2, ?Ef, ?zlen_app; try done.
  - by rewrite <- Hst, Ec, app_assoc.
  - apply seq_diff_shift_l; [done|pow2; lia].
  - change (2 ^ 30) with 1073741824. lia.
  - rewrite E4, Hul, Ec, zlen_app. rewrite Hul, Ec, zlen_app in Hul2. pow2. lia.
  - rewrite E3. apply Forall_app_2; [done|]. unfold queued. destruct (Z.eqb_spec (zlen payload) 0); [done|].
    constructor; [|done]. cbn. lia.
Qed.

(** What [output_one(false)] achieves: the segment at SND.NXT carries the next
    bytes of the stream. *)
Definition sends_next (rest : list Z) (t t' : tcb) : Prop :=
  send_ok rest (snd t') /\
  exists n p, 0 <= n <= Z.min 65535 (can_send_value (snd t)) /\
    packetq t' = packetq t ++ [p] /\
    carries (upd_snd (set_unsent_len (unsent_len (snd t) - n)) t) (snd_next (snd t)) (slice (flight (snd t)) n rest) p /\
    flight (snd t') = flight (snd t) + n /\ snd_next (snd t') = seq_add (snd_next (snd t)) n /\
    state t' = state t /\ rcv t' = rcv t /\ unacknowledged (snd t') = unacknowledged (snd t) /\
    snd_window (snd t') = snd_window (snd t) /\ cwnd (snd t') = cwnd (snd t) /\ same_connection t t' /\
    (length (snd_data (snd t')) <= S (length (snd_data (snd t))))%nat.

Lemma output_one_new rest t :
  send_ok rest (snd t) -> Forall is_byte rest -> zlen rest < 2 ^ 30 ->
  synchronised t -> fields_ok t -> hw_ok ->
  returns (output_one e hw now false) t (fun _ => sends_next rest t).
Proof.
  intros Hok Hb Hr Hsync [Hp Hn Hrn Hun] Hhw. unfold output_one. apply returns_bind, returns_get.
  rewrite (proj2 (proj2 (synchronised_flags t Hsync))). apply returns_bind.
  eapply returns_mono; [by apply (get_transmit_packet_spec rest)|]. cbv beta.
  intros payload t1 (F & Ecl & _ & _ & Ec & Hl & Hcan). pose proof (zlen_nonneg payload) as H0.
  destruct (can_send_window rest _ Hok Hun) as [Hc0 Hcw].
  assert (Hu : zlen payload <= can_send_value (snd t)).
  { destruct Hcan as [E|?]; [|lia]. rewrite E in Ec. destruct payload; [exact Hc0|done]. }
  assert (Hw : window_allows (zlen payload) (snd t1)).
  { destruct F. cbn in *. unfold window_allows. rewrite fr_window0.
    destruct Hun as (_ & _ & [? ?] & _). pose proof (zlen_nonneg (in_flight (snd t))). unfold flight in Hcw. lia. }
  pose proof (so_stream _ _ Hok) as Hst.
  assert (Hpl : payload = slice (flight (snd t)) (zlen payload) rest).
  { rewrite <- Hst, <- Ec. unfold slice, flight, zlen. rewrite !Nat2Z.id, drop_app_length, take_app_length. done. }
  eapply returns_mono; [apply output_segment_new|].
  all: try (destruct F; cbn in *; unfold synchronised, ports_ok in *;
    rewrite ?fr_state0, ?fr_rcv0, ?fr_next0, ?fr_local0, ?fr_foreign0; done).
  { rewrite Hpl. by apply Forall_take, Forall_drop. }
  cbv beta. intros _ t' (Q & En & Ed & p & Eq & Hcar). destruct F, Q. cbn in *.
  assert (Hok' : send_ok rest (snd t')).
  { eapply (sent_send_ok rest t payload); try done; try congruence. }
  split; [done|]. exists (zlen payload), p. split_and!; try congruence; try lia.
  - rewrite <- Hpl. unfold carries, segment_hdr, output_header, fin_needs_on, tcb_in_state in *. cbn.
    rewrite fr_next0, fr_state0, fr_local0, fr_foreign0, fr_rcv0, Ecl, fr_unsent_len0 in Hcar. done.
  - pose proof (so_next _ _ Hok') as E'. pose proof (so_next _ _ Hok) as E0.
    pose proof (so_flight _ _ Hok'). pose proof (so_flight _ _ Hok). change (2 ^ 30) with 1073741824 in *.
    rewrite En, fr_next0, qt_una0, fr_una0 in E'. rewrite <- E'. apply seq_diff_shift_l; [done|].
    pose proof (zlen_nonneg (in_flight (snd t))). unfold flight in *. pow2. lia.
  - apply (same_connection_trans _ t1); [|done]. unfold same_connection. cbn. by split_and!.
  - rewrite Ed, fr_data0, length_app. pose proof (length_queued payload). lia.
Qed.

(** *** Sending again *)

(** [output_one(true)] sends the front of the retransmission queue, the first
    unacknowledged bytes of the stream, at SND.UNA. *)
Definition sends_again (rest : list Z) (t t' : tcb) : Prop :=
  send_ok rest (snd t') /\ quiet t t' /\ snd_next (snd t') = snd_next (snd t) /\
  exists n p, 0 < n < 65536 /\ n <= flight (snd t) /\ packetq t' = packetq t ++ [p] /\
    carries t (unacknowledged (snd t)) (take (Z.to_nat n) rest) p.

Lemma output_one_again_spec rest t seg data :
  send_ok rest (snd t) -> Forall is_byte rest -> synchronised t -> fields_ok t ->
  snd_data (snd t) = seg :: data -> window_allows (zlen (seg_p seg)) (snd t) ->
  returns (output_one e hw now true) t (fun _ => sends_again rest t).
Proof.
  intros Hok Hb Hsync [Hp Hn Hrn Hun] Ed Hw. unfold output_one. apply returns_bind, returns_get.
  rewrite (proj2 (proj2 (synchronised_flags t Hsync))). apply returns_bind. rewrite Ed.
  eapply returns_lift; [done|]. pose proof Hok as [Hu Hst Hnx Hfl Hul Hsegs].
  assert (Hseg : 0 < zlen (seg_p seg) < 65536) by (rewrite Ed in Hsegs; by apply Forall_cons in Hsegs as [? _]).
  assert (Hpl : seg_p seg = take (Z.to_nat (zlen (seg_p seg))) rest).
  { rewrite <- Hst, (in_flight_cons _ _ _ Ed), <- app_assoc. unfold zlen. by rewrite Nat2Z.id, take_app_length. }
  eapply returns_mono; [apply output_segment_again; try done; [|lia]|].
  { rewrite Hpl. by apply Forall_take. }
  cbv beta. intros _ t' (Q & En & Ed' & p & Eq & Hcar). destruct Q.
  split; [|split; [by split|split; [done|]]].
  - constructor; unfold in_flight, flight, in_flight; rewrite ?En, ?Ed', ?qt_una0, ?qt_unsent0, ?qt_unsent_len0; done.
  - exists (zlen (seg_p seg)), p. rewrite <- Hpl. split_and!; try done; try lia.
    unfold flight. rewrite (in_flight_cons _ _ _ Ed), zlen_app. pose proof (zlen_nonneg (concat (map seg_p data))). lia.
Qed.

(** Retransmission: [retransmit_one] sends the front of the retransmission
    queue - the first unacknowledged bytes of the stream - at SND.UNA, and leaves
    the stream as it is. *)
Theorem output_one_again rest t seg data :
  send_ok rest (snd t) -> Forall is_byte rest -> synchronised t -> fields_ok t ->
  snd_data (snd t) = seg :: data -> window_allows (zlen (seg_p seg)) (snd t) ->
  returns (output_one e hw now true) t (fun _ => sends_again rest t).
Proof. apply output_one_again_spec. Qed.
End Send.

Import Core.Impl.

Lemma output_one_again_witness :
  returns (output_one BigEndian hw_features_default 5 true) Ex.data_sent
    (fun _ => sends_again [1;2;3;4;5] Ex.data_sent).
Proof.
  apply (output_one_again BigEndian hw_features_default 5 [1;2;3;4;5] Ex.data_sent (Unacked [1;2;3;4;5] 5 0 3) []).
  - constructor; try (by vm_compute). vm_compute. constructor; [by split|constructor].
  - repeat (constructor; [done|]). constructor.
  - vm_compute. constructor.
  - constructor; by vm_compute.
  - by vm_compute.
  - left. by vm_compute.
Defined.
