(* ===== verification/TcbStream.v ===== *)
(** * The byte stream of a connection

    What the sending side promises to its user: whatever is written, transmitted
    and acknowledged, in any order and at any times, every segment carries the
    bytes of the written stream that its sequence number names. *)

From S2P Require Import Prelude Core ByteOrder Checksum Packet Net TcpSeq TcpHdr PacketMerger TcbData Tcb TcbState TcbSend.
From stdpp Require Import base numbers option list.

#[local] Open Scope Z_scope.

Section Stream.
Context {BC : BeCodec} {AU : AlignUp} {T : Type} {TM : TimerOps T}.
Abbreviation tcb := (@TcbData.tcb T).
Variable e : endian.
Variable hw : hw_features.

(** A connection whose user has written [written] since SND.UNA was [base]; the
    first [k] bytes are acknowledged. *)
Record stream (base : tcp_seq) (written : list Z) (k : Z) (t : tcb) : Prop := Stream {
  st_send : send_ok (drop (Z.to_nat k) written) (snd t);
  st_una : unacknowledged (snd t) = seq_add base k;
  st_k : 0 <= k <= zlen written;
  st_bytes : Forall is_byte written;
  st_sync : synchronised t;
  st_fields : fields_ok t;
  st_open : closed (snd t) = false }.

(** The segment [p] carries bytes of [written] at its sequence number. *)
Definition segment_of (base : tcp_seq) (written : list Z) (p : packet) : Prop :=
  exists off n, 0 <= off /\ 0 <= n /\ off + n <= zlen written /\
    h_seq (tcp_hdr_read (bytes p)) = seq_add base off /\ drop 20 (bytes p) = slice off n written.

(** The steps of a connection, each at its time. *)
Inductive stream_op := Write (p : list Z) | Transmit | Acked (a : tcp_seq).

Definition stream_exec (now : Z) (op : stream_op) : @Tcb.M T () :=
  match op with
  | Write p => send_packet p;; mret ()
  | Transmit => output_one e hw now false
  | Acked a => data_segment_acked now a;; mret ()
  end.

(** Acknowledgments are those of bytes in flight. *)
Definition stream_enabled (op : stream_op) (t : tcb) : Prop :=
  match op with
  | Write p => Forall is_byte p
  | Transmit => True
  | Acked a => seq_ok a /\ 0 <= seq_diff a (unacknowledged (snd t)) <= flight (snd t)
  end.

Definition written_by (op : stream_op) : list Z := match op with Write p => p | _ => [] end.

(** A run: the bytes written, and how many steps. *)
Inductive stream_run : tcb -> list Z -> nat -> tcb -> Prop :=
  | run_done t : stream_run t [] 0 t
  | run_step now op t t' t'' es w n :
      stream_enabled op t -> stream_exec now op t = Some ((), t', es) -> stream_run t' w n t'' ->
      stream_run t (written_by op ++ w) (S n) t''.

(** The room the congestion window has, for the segments in the queue and [n]
    more steps. *)
Definition room (n : nat) (t : tcb) : Prop :=
  cwnd_ok (Z.of_nat (length (snd_data (snd t))) + Z.of_nat n) (snd t).

(** One step. *)
Definition stream_next (base : tcp_seq) (written : list Z) (n : nat) (t t' : tcb) : Prop :=
  (exists k, stream base written k t') /\ room n t' /\
  exists ps, packetq t' = packetq t ++ ps /\ Forall (segment_of base written) ps.

Lemma send_packet_spec p (t : tcb) :
  closed (snd t) = false -> synchronised t ->
  returns (send_packet p) t (fun _ (t' : tcb) =>
    frame (upd_snd (fun s => set_unsent (unsent s ++ [p]) (set_unsent_len (u32 (unsent_len s + zlen p)) s)) t) t').
Proof.
  intros Hc Hs. unfold send_packet. apply returns_bind, returns_get. rewrite Hc.
  rewrite (proj2 (proj2 (synchronised_flags t Hs))). cbn [orb]. cbv zeta.
  do 3 apply returns_bind, returns_modify_snd. apply returns_bind.
  eapply returns_mono; [apply can_send_returns|]. cbv beta. intros n t1 (_ & F1 & _).
  apply returns_bind. eapply (returns_mono _ _ (fun _ => frame t1)).
  { apply returns_when; intros _; [|apply frame_refl]. unfold output. apply returns_bind, returns_get.
    destruct (poll_active t1); [apply returns_ret, frame_refl|]. apply returns_bind, returns_modify, returns_emit. by split. }
  cbv beta. intros _ t2 F2. apply returns_bind. eapply (returns_mono _ _ (fun _ => frame t2)).
  { unfold wait_send_available. apply returns_bind, returns_get. destruct (_ <? _); [apply returns_ret, frame_refl|].
    apply returns_bind, returns_modify_snd, returns_ret. by split. }
  cbv beta. intros b t3 F3. apply returns_ret. destruct F1, F2, F3. cbn in *. split; cbn; congruence.
Qed.

Lemma slice_app_le {A} off n (l k : list A) : 0 <= off -> 0 <= n -> off + n <= zlen l -> slice off n (l ++ k) = slice off n l.
Proof.
  intros. unfold slice. unfold zlen in *. rewrite drop_app_le by lia. rewrite take_app_le; [done|].
  rewrite length_drop. lia.
Qed.

Lemma segment_of_mono base written w p : segment_of base written p -> segment_of base (written ++ w) p.
Proof.
  intros (off & n & H1 & H2 & H3 & H4 & H5). exists off, n. pose proof (zlen_nonneg w).
  rewrite zlen_app, slice_app_le by done. split_and!; done || lia.
Qed.

Lemma room_frame n (t t' : tcb) : frame t t' -> room n t -> room n t'.
Proof. intros []. unfold room, cwnd_ok. congruence. Qed.

Lemma room_S n (t : tcb) : room (S n) t -> room n t.
Proof. unfold room. apply cwnd_ok_mono. lia. Qed.

Lemma write_step base written k n p t :
  stream base written k t -> Forall is_byte p -> zlen (written ++ p) < 2 ^ 30 -> room (S n) t ->
  returns (send_packet p;; mret ()) t (fun _ => stream_next base (written ++ p) n t).
Proof.
  intros [Hok Hu Hk Hb Hs [Hp Hn Hr Hun] Ho] Hpb Hl Hroom. apply returns_bind.
  eapply returns_mono; [by apply send_packet_spec|]. cbv beta. intros _ t' F. apply returns_ret.
  change (2 ^ 30) with 1073741824 in *. rewrite zlen_app in Hl.
  destruct Hok as [Hu0 Hst Hnx Hfl [Hul Hul2] Hsegs]. pose proof (zlen_nonneg p) as Hp0.
  assert (Hle : zlen (concat (unsent (snd t))) <= zlen written).
  { pose proof (f_equal zlen Hst) as E. rewrite zlen_app, zlen_drop in E by lia.
    pose proof (zlen_nonneg (in_flight (snd t))). lia. }
  assert (Hwrap : u32 (unsent_len (snd t) + zlen p) = unsent_len (snd t) + zlen p).
  { apply wrap_small. rewrite Hul. pose proof (zlen_nonneg (concat (unsent (snd t)))). pow2. lia. }
  split; [exists k|split; [|exists []; by rewrite app_nil_r; destruct F]].
  - destruct F. cbn in *. constructor; try congruence.
    + constructor; unfold flight, in_flight; rewrite ?fr_una, ?fr_next, ?fr_data, ?fr_unsent, ?fr_unsent_len; try done.
      * rewrite concat_app, app_assoc. cbn [concat]. rewrite app_nil_r. unfold in_flight in Hst. rewrite Hst.
        rewrite drop_app_le; [done|unfold zlen in *; lia].
      * rewrite Hwrap, concat_app, zlen_app, Hul. cbn [concat]. rewrite app_nil_r. pow2. lia.
    + rewrite zlen_app. lia.
    + by apply Forall_app_2.
    + unfold synchronised. by rewrite fr_state.
    + constructor; unfold ports_ok, unsigned in *; rewrite ?fr_local, ?fr_foreign, ?fr_next, ?fr_rcv; try done.
      rewrite fr_cwnd, fr_mss, fr_window, fr_unsent_len, Hwrap. unfold is_uint in *. pow2. lia.
  - apply room_S. eapply room_frame; [exact F|]. exact Hroom.
Qed.

(** The stream, the flight and what is left. *)
Lemma send_ok_lengths rest s : send_ok rest s -> 0 <= flight s <= zlen rest /\ unsent_len s = zlen rest - flight s.
Proof.
  intros [_ Hst _ _ [Hul _] _]. rewrite <- Hst, zlen_app, Hul. unfold flight.
  pose proof (zlen_nonneg (concat (unsent s))). pose proof (zlen_nonneg (in_flight s)). lia.
Qed.

Lemma carries_segment_of base written k (t t0 : tcb) n p :
  stream base written k t -> 0 <= n -> flight (snd t) + n <= zlen written - k ->
  carries t0 (snd_next (snd t)) (slice (flight (snd t)) n (drop (Z.to_nat k) written)) p ->
  segment_of base written p.
Proof.
  intros [Hok Hu Hk Hb Hs [Hp Hn Hr Hun] Ho] H0 Hn' ([c Hh] & Hd & _).
  destruct (send_ok_lengths _ _ Hok) as [[Hf0 _] _]. exists (k + flight (snd t)), n.
  split_and!; [lia|done|lia| |].
  - rewrite Hh. cbn [with_checksum h_seq segment_hdr output_header].
    rewrite <- (seq_add_diff _ (unacknowledged (snd t)) Hn), (so_next _ _ Hok), Hu. by rewrite seq_add_add.
  - rewrite Hd. unfold slice. rewrite drop_drop. do 2 f_equal. lia.
Qed.

Lemma transmit_step now base written k n t :
  hw_ok hw -> stream base written k t -> zlen written < 2 ^ 30 -> room (S n) t ->
  returns (output_one e hw now false) t (fun _ => stream_next base written n t).
Proof.
  intros Hhw Hst Hl Hroom. pose proof Hst as [Hok Hu Hk Hb Hs Hf Ho].
  eapply returns_mono; [apply (output_one_new e hw now (drop (Z.to_nat k) written))|]; try done.
  - by apply Forall_drop.
  - rewrite zlen_drop by lia. lia.
  - cbv beta. intros _ t' (Hok' & m & p & Hm & Eq & Hc & Ef & En & E1 & E2 & E3 & E4 & E5 & E6 & Hlen).
    destruct (send_ok_lengths _ _ Hok') as [Hf' Hul']. rewrite zlen_drop in Hf', Hul' by lia.
    destruct E6 as (El & Efo & Em & Ecl).
    split; [exists k|split; [|exists [p]; split; [done|]]].
    + constructor; try congruence; try done.
      * unfold synchronised. by rewrite E1.
      * destruct Hf as [[? ?] ? ? (? & ? & ? & ?)].
        constructor; unfold ports_ok, unsigned; rewrite ?El, ?Efo, ?E2, ?E5, ?Em, ?E4; try done.
        { rewrite En. apply seq_add_ok. }
        { split_and!; done || lia. }
    + unfold room in *. eapply (cwnd_ok_mono (Z.of_nat (length (snd_data (snd t))) + Z.of_nat (S n))); [lia|].
      unfold cwnd_ok in *. congruence.
    + constructor; [|done]. refine (carries_segment_of _ _ _ _ _ _ _ Hst _ _ Hc); lia.
Qed.

Lemma ack_step now base written k n a t :
  stream base written k t -> room (S n) t -> seq_ok a ->
  0 <= seq_diff a (unacknowledged (snd t)) <= flight (snd t) ->
  returns (data_segment_acked now a;; mret ()) t (fun _ => stream_next base written n t).
Proof.
  intros [Hok Hu Hk Hb Hs Hf Ho] Hroom Ha Hd. destruct (send_ok_lengths _ _ Hok) as [Hfl _].
  rewrite zlen_drop in Hfl by lia. apply returns_bind.
  eapply returns_mono; [apply (data_segment_acked_spec now (drop (Z.to_nat k) written) a (Z.of_nat n))|]; try done; try lia.
  { unfold room in Hroom. eapply cwnd_ok_mono; [|exact Hroom]. lia. }
  cbv beta. intros _ t' (_ & Hok' & Eu & (A1 & A2 & A3 & A4 & A5 & A6 & A7 & A8 & A9 & A10 & El & Efo & Em & Ecl) & Hc).
  apply returns_ret. set (d := seq_diff a (unacknowledged (snd t))) in *.
  split; [exists (k + d)|split; [done|exists []; by rewrite app_nil_r]].
  constructor; try congruence; try done.
  - rewrite drop_drop in Hok'. by rewrite Z2Nat.inj_add by lia.
  - by rewrite A1, Hu, seq_add_add.
  - lia.
  - unfold synchronised. by rewrite A4.
  - destruct Hf as [[? ?] ? ? (? & ? & ? & ?)].
    constructor; unfold ports_ok, unsigned; rewrite ?El, ?Efo, ?A5, ?A7, ?A9, ?A10, ?Em; try done.
    destruct Hc as (? & ? & ?). split_and!; done || lia.
Qed.

Lemma stream_step now base written k n op t :
  hw_ok hw -> stream base written k t -> zlen (written ++ written_by op) < 2 ^ 30 -> room (S n) t ->
  stream_enabled op t ->
  returns (stream_exec now op) t (fun _ => stream_next base (written ++ written_by op) n t).
Proof.
  intros Hhw Hst Hl Hroom He. destruct op as [p| |a]; cbn in *; rewrite ?app_nil_r in *.
  - by eapply write_step.
  - by eapply transmit_step.
  - destruct He. by eapply ack_step.
Qed.

Lemma run_stream base t w n t' :
  hw_ok hw -> stream_run t w n t' -> forall written k,
  stream base written k t -> room (S n) t -> zlen (written ++ w) < 2 ^ 30 ->
  stream_next base (written ++ w) 1 t t'.
Proof.
  intros Hhw. induction 1 as [t|now op t t' t'' es w n He E H IH]; intros written k Hst Hroom Hl.
  { rewrite app_nil_r. split_and!; [by exists k|done|]. exists []. by rewrite app_nil_r. }
  rewrite app_assoc in Hl |- *.
  destruct (stream_step now base written k (S n) op t) as (u & t1 & es1 & E1 & [k1 Hst1] & Hr1 & ps & Eq1 & Hps); try done.
  { rewrite zlen_app in Hl. pose proof (zlen_nonneg w). lia. }
  rewrite E in E1. injection E1 as <- <- <-.
  destruct (IH _ _ Hst1 Hr1 Hl) as (Hk & Hr & qs & Eq & Hqs). split_and!; [done|done|].
  exists (ps ++ qs). rewrite Eq, Eq1, app_assoc. split; [done|]. apply Forall_app_2; [|done].
  eapply Forall_impl; [exact Hps|]. intros p. apply segment_of_mono.
Qed.

(** C2. The byte stream of a connection: after any sequence of writes,
    transmissions and acknowledgments, at whatever times, every segment the
    connection has queued carries exactly the bytes of the written stream at the
    offset its sequence number names, and the unacknowledged rest of the stream
    is what the retransmission queue and the send queue hold; and no enabled
    operation fails an assertion there.  (Less than 2^30 bytes are written; the
    congestion window is not so large that it wraps.) *)
Theorem tcb_stream base written k t w n t' :
  hw_ok hw -> stream base written k t -> room (S n) t -> stream_run t w n t' -> zlen (written ++ w) < 2 ^ 30 ->
  (exists k', stream base (written ++ w) k' t') /\
  (exists ps, packetq t' = packetq t ++ ps /\ Forall (segment_of base (written ++ w)) ps) /\
  (forall now op, stream_enabled op t' -> zlen ((written ++ w) ++ written_by op) < 2 ^ 30 ->
     is_Some (stream_exec now op t')).
Proof.
  intros Hhw Hst Hroom Hrun Hl.
  destruct (run_stream _ _ _ _ _ Hhw Hrun _ _ Hst Hroom Hl) as ([k' Hst'] & Hr & Hps). split_and!; [by exists k'|done|].
  intros now op He Hlo. destruct (stream_step now base (written ++ w) k' 0 op t') as (u & t1 & es1 & -> & _); done.
Qed.
End Stream.

Import Core.Impl.

Lemma tcb_stream_witness :
  exists t', stream_run BigEndian hw_features_default Ex.established [1;2;3;4;5;6] 5 t' /\
    map (drop 20) (map bytes (packetq t')) = map (drop 20) (map bytes (packetq Ex.established)) ++ [[1;2;3;4]; [5;6]] /\
    exists k, stream (unacknowledged (snd Ex.established)) [1;2;3;4;5;6] k t'.
Proof.
  eexists. match goal with |- ?P /\ _ => assert (H : P) end.
  { eapply (run_step _ _ 3 (Write [1;2;3;4]) _ _ _ _ [5;6] 4); [|vm_compute; reflexivity|].
    { repeat (constructor; [done|]). constructor. }
    eapply (run_step _ _ 4 Transmit _ _ _ _ [5;6] 3); [done|vm_compute; reflexivity|].
    eapply (run_step _ _ 5 (Acked (make_seq 253)) _ _ _ _ [5;6] 2); [by vm_compute|vm_compute; reflexivity|].
    eapply (run_step _ _ 6 (Write [5;6]) _ _ _ _ [] 1); [|vm_compute; reflexivity|].
    { repeat (constructor; [done|]). constructor. }
    eapply (run_step _ _ 7 Transmit _ _ _ _ [] 0); [done|vm_compute; reflexivity|]. constructor. }
  split; [exact H|]. split; [vm_compute; reflexivity|].
  refine (proj1 (tcb_stream BigEndian hw_features_default _ [] 0 _ [1;2;3;4;5;6] 5 _ _ _ _ H _)).
  - split; split; by vm_compute.
  - constructor; try done; try (by vm_compute).
    all: constructor; try done; by vm_compute.
  - by vm_compute.
  - done.
Defined.
