(* ===== verification/TcbRecv.v ===== *)
(** * The receiving side of a connection

    Segments arrive in any order, more than once, and overlapping.  The set of
    stream bytes a connection has received is the union of those that arrived
    in its window, and what the user reads is the longest prefix without a gap. *)

From Stdlib Require Import Sorting.Sorted.
From S2P Require Import Prelude Core ByteOrder Checksum Packet Net TcpSeq TcpHdr PacketMerger TcbData Tcb TcbState TcbSend.
From stdpp Require Import base numbers option list.

#[local] Open Scope Z_scope.

Section Recv.
Context {BC : BeCodec} {AU : AlignUp} {T : Type} {TM : TimerOps T}.
Abbreviation tcb := (@TcbData.tcb T).
Variable e : endian.
Variable hw : hw_features.
Variable now : Z.

(** The peer's stream, by position from the sequence number [base]. *)
Variable base : tcp_seq.
Variable d : Z -> Z.
Abbreviation pos := (seq_pos base).
Abbreviation merged := (PacketMerger.merged (pos := seq_pos base) (inw := near base) (hi := 2 ^ 30 - 1) d).
Abbreviation covers := (PacketMerger.covers (pos := seq_pos base)).

(** The bytes before position [n] have been received, those from [lo] on have
    not been read, and the out-of-order segments lie beyond a gap. *)
Record recv_ok (lo n : Z) (r : receive) : Prop := RecvOk {
  ro_near : near base (rcv_next r);
  ro_next : pos (rcv_next r) = n;
  ro_seq : seq_ok (rcv_next r);
  ro_lo : - 2 ^ 30 <= lo <= n;
  ro_data : concat (rcv_data r) = range d lo (n - lo);
  ro_size : data_size r = n - lo;
  ro_map : merged (out_of_order r);
  ro_ahead : Forall (fun s => n < pos (fst s)) (out_of_order r) }.

(** The bytes that have been received. *)
Definition received (n : Z) (m : seg_map tcp_seq) (x : Z) : Prop := x < n \/ covers m x.

Lemma covers_cons' s m x : covers (s :: m) x <-> in_seg (pos := seq_pos base) x s \/ covers m x.
Proof. unfold PacketMerger.covers. by rewrite Exists_cons. Qed.

Lemma merged_inv s m : merged (s :: m) ->
  seg_ok (pos := seq_pos base) (inw := near base) (hi := 2 ^ 30 - 1) d s /\ merged m /\
  Forall (apart (pos := seq_pos base) s) m.
Proof.
  intros [H1 H2]. apply Forall_cons in H1 as [H1 H1']. apply StronglySorted_inv in H2 as [H2 H2'].
  split_and!; try done.
Qed.

(** The loop of [merge_out_of_order] delivers up to the next gap. *)
Lemma merge_segments_spec lo m : forall n r flag,
  near base (rcv_next r) -> pos (rcv_next r) = n -> seq_ok (rcv_next r) -> - 2 ^ 30 <= lo <= n ->
  concat (rcv_data r) = range d lo (n - lo) -> data_size r = n - lo -> merged m ->
  exists r' n' flag', merge_segments m r flag = Some (r', flag') /\ recv_ok lo n' r' /\ n <= n' /\
    (forall x, received n' (out_of_order r') x <-> received n m x).
Proof.
  induction m as [|[c q] m IH]; intros n r flag Hnr Hn Hsq Hlo Hd Hsz Hm; cbn [merge_segments].
  { exists (set_out_of_order [] r), n, flag. split_and!; [done| |lia|done].
    constructor; cbn; try done. }
  apply merged_inv in Hm as (Hc & Hm & Hap). pose proof Hc as (Hcn & Hce & Hq). unfold seg_end in Hce. cbn [fst Datatypes.snd] in *.
  destruct (seg_end_window _ _ Hc) as [He1 He2]. cbn [fst Datatypes.snd o_add tcp_seq_offset] in He1, He2. unfold seg_end in He2. cbn [fst Datatypes.snd] in He2.
  pose proof (zlen_nonneg q) as Hq0.
  rewrite (seq_leb_pos base), (seq_ltb_pos base), (seq_geb_pos base), He2, Hn by done.
  assert (Hin : forall x, in_seg (pos := seq_pos base) x (c, q) <-> pos c <= x < pos c + zlen q) by done.
  destruct (Z.leb_spec (pos c) n) as [H1|H1]; [destruct (Z.ltb_spec n (pos c + zlen q)) as [H2|H2]|]; cbn [andb].
  - rewrite (seq_diff_pos base), Hn, drop_front_ok by (done || lia). cbn [mbind option_bind].
    assert (El : zlen (drop (Z.to_nat (n - pos c)) q) = pos c + zlen q - n) by (rewrite zlen_drop by lia; lia).
    assert (Ed : drop (Z.to_nat (n - pos c)) q = range d n (pos c + zlen q - n)).
    { rewrite Hq at 1. rewrite drop_range by lia. f_equal; lia. }
    rewrite El, Ed. unfold near in *. change (2 ^ 30) with 1073741824 in *.
    assert (Ep : pos (seq_add (rcv_next r) (pos c + zlen q - n)) = pos c + zlen q).
    { rewrite seq_add_pos by (pow2; lia). lia. }
    eassert (IHr := IH (pos c + zlen q) _ true _ _ _ _ _ _ Hm).
    destruct IHr as (r' & n' & flag' & E1 & E2 & E3 & E4).
    exists r', n', flag'. split_and!; [exact E1|done|lia|]. intros x. rewrite E4. unfold received.
    rewrite covers_cons', Hin. intuition lia.
  - destruct (Z.leb_spec (pos c + zlen q) n); [|lia].
    destruct (IH n r flag) as (r' & n' & flag' & E1 & E2 & E3 & E4); try done.
    exists r', n', flag'. split_and!; [exact E1|done|lia|]. intros x. rewrite E4. unfold received.
    rewrite covers_cons', Hin. intuition lia.
  - destruct (Z.leb_spec (pos c + zlen q) n); [lia|].
    eexists _, n, flag. split_and!; [done| |lia|cbn; done]. constructor; cbn; try done.
    + split; [constructor; [done|by apply Hm]|]. constructor; [by apply Hm|done].
    + constructor; [done|]. eapply Forall_impl; [exact Hap|]. unfold apart, seg_end. cbn. lia.
  Unshelve.
  all: cbn [rcv_next set_rcv_data set_data_size set_rcv_next rcv_data data_size]; try done.
  { unfold near. change (2 ^ 30) with 1073741824. lia. }
  { apply seq_add_ok. }
  { lia. }
  { rewrite concat_app, Hd. cbn [concat]. rewrite app_nil_r.
    replace n with (lo + (n - lo)) at 2 by lia. rewrite range_app by lia. f_equal. lia. }
  { rewrite Hsz, wrap_small by (pow2; lia). lia. }
Qed.

(** *** The window *)

(** The acceptability test of RFC 793, 3.3, on positions. *)
Definition in_window (n wnd a len : Z) : bool :=
  if len =? 0 then (if wnd =? 0 then a =? n else (n <=? a) && (a <? n + wnd))
  else if wnd =? 0 then false
  else ((n <=? a) && (a <? n + wnd)) || ((n <=? a + len - 1) && (a + len - 1 <? n + wnd)).

Lemma near_add s n : near base s -> - 2 ^ 30 <= pos s + n < 2 ^ 30 ->
  near base (seq_add s n) /\ pos (seq_add s n) = pos s + n.
Proof.
  unfold near. change (2 ^ 30) with 1073741824. intros Hs Hn.
  rewrite seq_add_pos by (pow2; lia). done.
Qed.

Lemma segment_acceptable_pos r s len :
  near base (rcv_next r) -> seq_ok (rcv_next r) -> near base s -> seq_ok s -> 0 <= len -> 0 <= rcv_window r ->
  pos s + len < 2 ^ 30 -> pos (rcv_next r) + rcv_window r < 2 ^ 30 ->
  segment_acceptable r s len = in_window (pos (rcv_next r)) (rcv_window r) (pos s) len.
Proof.
  intros Hn Hno Hs Hso Hl Hw Hb1 Hb2. unfold segment_acceptable, in_window.
  destruct (near_add (rcv_next r) (rcv_window r) Hn) as [Hr Er]; [unfold near in Hn; lia|].
  assert (Hlast : 0 < len -> near base (seq_sub (seq_add s len) 1) /\ pos (seq_sub (seq_add s len) 1) = pos s + len - 1).
  { intros. rewrite seq_sub_add, seq_add_add. destruct (near_add s (len + Z.opp 1) Hs) as [H1 H2]; [unfold near in Hs; lia|].
    split; [done|lia]. }
  destruct (Z.eqb_spec len 0) as [->|Hl0]; cbn [andb].
  - destruct (Z.eqb_spec (rcv_window r) 0); [by apply seq_eqb_pos|].
    destruct (Z.ltb_spec 0 (rcv_window r)); [|lia]. by rewrite (seq_leb_pos base), (seq_ltb_pos base), Er.
  - destruct (Z.ltb_spec 0 len); [|lia]. destruct Hlast as [Hl1 Hl2]; [lia|].
    destruct (Z.eqb_spec (rcv_window r) 0) as [->|]; cbn [andb]; [done|].
    destruct (Z.ltb_spec 0 (rcv_window r)); [|lia]. by rewrite !(seq_leb_pos base), !(seq_ltb_pos base), Er, Hl2.
Qed.

(** *** Text in order, and out of order *)

(** The parts of the control block the receiving side of a segment leaves alone. *)
Definition same_state (t t' : tcb) : Prop := state t' = state t /\ rcv t' = rcv t.

Lemma clear_delayed_ack_returns (t : tcb) : returns clear_delayed_ack t (fun _ => same_state t).
Proof. by apply returns_modify. Qed.

Lemma output_returns (t : tcb) : returns output t (fun _ => same_state t).
Proof.
  unfold output. apply returns_bind, returns_get. destruct (poll_active t); [by apply returns_ret|].
  by apply returns_bind, returns_modify, returns_emit.
Qed.

Lemma should_send_ack_returns n (t : tcb) : returns (should_send_ack now n) t (fun _ => same_state t).
Proof.
  unfold should_send_ack. apply returns_bind, returns_get. cbv zeta. destruct (_ <? _).
  { by apply returns_bind, returns_modify, returns_bind, returns_modify, returns_ret. }
  apply returns_bind. eapply (returns_mono _ _ (fun _ => same_state t)).
  { destruct (_ =? _); [|by apply returns_ret]. by apply returns_bind, returns_modify, returns_ret. }
  cbv beta. intros b t1 H1. destruct b.
  - by apply returns_bind, returns_modify, returns_bind, returns_modify, returns_ret.
  - apply returns_bind, returns_when; intros _; [by apply returns_modify, returns_ret|by apply returns_ret].
Qed.

(** The receiving state after the bytes [a, a + len) arrived. *)
Definition receives (lo n a len : Z) (m : seg_map tcp_seq) (r' : receive) : Prop :=
  exists n', recv_ok lo n' r' /\ n <= n' /\
    forall x, received n' (out_of_order r') x <-> received n m x \/ a <= x < a + len.

Lemma recv_ok_window lo n w r : recv_ok lo n r -> recv_ok lo n (set_rcv_window w r).
Proof. by intros []. Qed.

Lemma recv_ok_promise lo n b r : recv_ok lo n r -> recv_ok lo n (set_data_received_promise b r).
Proof. by intros []. Qed.

Lemma process_text_returns lo n len (t : tcb) :
  recv_ok lo n (rcv t) -> 0 <= len -> n + len < 2 ^ 30 ->
  returns (process_text now (range d n len) len) t (fun _ t' =>
    state t' = state t /\ receives lo n n len (out_of_order (rcv t)) (rcv t')).
Proof.
  intros [Hn Hp Hs Hlo Hd Hsz Hm Ha] Hl Hb. unfold process_text. rewrite zlen_range by done.
  destruct (Z.eqb_spec len 0) as [->|Hl0].
  { apply returns_ret. split; [done|]. exists n. split_and!; [by split|done|]. intros x. unfold received. intuition lia. }
  do 3 apply returns_bind, returns_modify_rcv. apply returns_bind. unfold merge_out_of_order.
  apply returns_bind, returns_get, returns_bind. cbn.
  destruct (near_add (rcv_next (rcv t)) len Hn) as [Hn' Hp']; [unfold near in Hn; change (2 ^ 30) with 1073741824 in *; lia|].
  destruct (merge_segments_spec lo (out_of_order (rcv t)) (n + len)
    (set_rcv_next (seq_add (rcv_next (rcv t)) len) (set_rcv_data (rcv_data (rcv t) ++ [range d n len])
       (set_data_size (u64 (data_size (rcv t) + len)) (rcv t)))) false) as (r' & n' & fl & E & Hr & Hle & Hc);
    cbn; try done.
  { lia. }
  { apply seq_add_ok. }
  { lia. }
  { rewrite concat_app, Hd. cbn [concat]. rewrite app_nil_r.
    replace n with (lo + (n - lo)) at 2 by lia. rewrite range_app by lia. f_equal. lia. }
  { rewrite Hsz, wrap_small by (unfold near in Hn'; change (2 ^ 30) with 1073741824 in *; pow2; lia). lia. }
  eapply returns_lift; [exact E|]. cbv beta iota. apply returns_bind, returns_modify, returns_ret.
  apply returns_bind, returns_modify, returns_bind.
  assert (Hfin : forall r1, recv_ok lo n' r1 -> out_of_order r1 = out_of_order r' ->
    receives lo n n len (out_of_order (rcv t)) r1).
  { intros r1 H1 Eo. exists n'. split_and!; [done|lia|]. intros x. rewrite Eo, Hc. unfold received. intuition lia. }
  eapply (returns_mono _ _ (fun _ t' => state t' = state t /\ receives lo n n len (out_of_order (rcv t)) (rcv t'))).
  - unfold signal_data_received. apply returns_bind, returns_get, returns_when; intros _.
    + apply returns_bind, returns_emit, returns_modify_rcv. split; [done|].
      apply Hfin; [by apply recv_ok_promise, recv_ok_window|done].
    + split; [done|]. apply Hfin; [by apply recv_ok_window|done].
  - cbv beta. intros _ t2 [S2 R2]. destruct fl; [by apply returns_ret|].
    eapply returns_mono; [apply should_send_ack_returns|]. cbv beta. intros _ t3 [S3 E3].
    rewrite S3, E3. done.
Qed.

(** Out of order: a segment beyond [n]. *)
Lemma insert_out_of_order_returns lo n s len (t : tcb) :
  recv_ok lo n (rcv t) -> near base s -> n < pos s -> 0 <= len -> pos s + len < 2 ^ 30 ->
  returns (insert_out_of_order s (range d (pos s) len)) t (fun _ t' =>
    state t' = state t /\ receives lo n (pos s) len (out_of_order (rcv t)) (rcv t')).
Proof.
  intros [Hn Hp Hs Hlo Hd Hsz Hm Ha] Hns Hlt Hl Hb. unfold insert_out_of_order.
  apply returns_bind, returns_get, returns_bind.
  destruct (merge_spec (pos := seq_pos base) (inw := near base) (hi := 2 ^ 30 - 1) d s len (out_of_order (rcv t)))
    as (m' & lin & E & Hm' & Hc); try done; [lia|].
  eapply returns_lift; [exact E|]. apply returns_modify_rcv. split; [done|].
  exists n. split_and!; [|done|].
  - constructor; cbn; try done. by eapply (merge_keys (fun q => n < pos q)).
  - intros x. cbn. unfold received. rewrite Hc. tauto.
Qed.

(** *** The acknowledgment of a data segment *)

(** A segment that acknowledges nothing new. *)
Definition old_ack (th : tcp_hdr) (t : tcb) : Prop :=
  seq_ltb (unacknowledged (snd t)) (h_ack th) = false /\ seq_gtb (h_ack th) (snd_next (snd t)) = false /\
  snd_window_scale (snd t) < 32.

Lemma update_window_returns th a b (t : tcb) :
  snd_window_scale (snd t) < 32 -> returns (update_window now th a b) t (fun _ => same_state t).
Proof.
  intros Hw. unfold update_window, shl32. apply returns_bind, returns_get, returns_bind.
  rewrite (proj2 (Z.ltb_lt _ _) Hw). eapply returns_lift; [done|].
  do 4 apply returns_bind, returns_modify_snd. destruct (_ =? 0); [apply returns_bind, returns_modify|]; by apply returns_modify.
Qed.

Lemma process_ack_returns th a len (t : tcb) :
  state t = ESTABLISHED -> old_ack th t -> 0 < len ->
  returns (process_ack e hw now th a (h_ack th) len) t (fun r t' => (exists b, r = AckContinue b) /\ same_state t t').
Proof.
  intros Es (H1 & H2 & H3) Hl. unfold process_ack. apply returns_bind, returns_get. cbv zeta.
  eval_in_state Es. cbn [andb]. apply returns_bind, returns_ret, returns_bind, returns_get. eval_in_state Es.
  apply returns_bind.
  eapply (returns_mono _ _ (fun r t' => (exists b, r = AckContinue b) /\ same_state t t')).
  - unfold ack_established. apply returns_bind, returns_get. cbv zeta. rewrite H1. cbn [andb].
    replace (len =? 0) with false by (symmetry; apply Z.eqb_neq; lia). rewrite andb_false_r. cbn [andb].
    unfold ack_other. apply returns_bind, returns_get. cbv zeta. rewrite H2.
    destruct (_ && _)%bool.
    + apply returns_bind. eapply returns_mono; [by apply update_window_returns|]. cbv beta. intros _ t1 S1.
      apply returns_ret. eauto.
    + apply returns_ret. split; [eauto|done].
  - cbv beta. intros r t1 ((b & ->) & [S1 R1]). assert (Es1 : state t1 = ESTABLISHED) by congruence.
    apply returns_bind, returns_get. cbv zeta. eval_in_state Es1. cbn [andb].
    apply returns_bind, returns_ret. apply returns_ret. split; [eauto|done].
Qed.

(** *** The handler *)

(** A plain data segment: no flags but ACK, acknowledging nothing new. *)
Definition plain (th : tcp_hdr) : Prop :=
  f_rst th = false /\ f_syn th = false /\ f_fin th = false /\ f_ack th = true.

Lemma final_output_returns a b (t : tcb) : returns (final_output a b) t (fun _ => same_state t).
Proof.
  unfold final_output. apply returns_bind. eapply (returns_mono _ _ (fun _ => same_state t)).
  - destruct a; [by apply returns_ret|]. destruct b; [|by apply returns_ret].
    apply returns_bind. eapply returns_mono; [apply can_send_returns|]. cbv beta. intros n t1 (_ & [] & _).
    by apply returns_ret.
  - cbv beta. intros c t1 [S1 R1]. apply returns_when; intros _; [|done].
    apply returns_bind, returns_modify. eapply returns_mono; [apply output_returns|].
    cbv beta. intros _ t2 [S2 R2]. unfold same_state. cbn in *. by rewrite S2, R2.
Qed.

Lemma process_segment_returns lo n s len th (t : tcb) :
  state t = ESTABLISHED -> recv_ok lo n (rcv t) -> plain th -> old_ack th t -> 0 < len -> n + len < 2 ^ 30 ->
  returns (process_segment e hw now th (range d n len) s len) t (fun _ t' =>
    state t' = ESTABLISHED /\ receives lo n n len (out_of_order (rcv t)) (rcv t')).
Proof.
  intros Es Hr (_ & _ & Hfin & _) Ha Hl Hb. unfold process_segment. apply returns_bind.
  eapply returns_mono; [by apply process_ack_returns|]. cbv beta. intros r t1 ((b & ->) & [S1 R1]).
  assert (Es1 : state t1 = ESTABLISHED) by congruence.
  apply returns_bind, returns_get. eval_in_state Es1. apply returns_bind.
  eapply returns_mono; [apply (process_text_returns lo n len)|]; [by rewrite R1|lia|done|].
  cbv beta. intros o t2 [S2 R2]. apply returns_bind. unfold process_fin. rewrite Hfin. apply returns_ret.
  eapply returns_mono; [apply final_output_returns|]. cbv beta. intros _ t3 [S3 R3].
  rewrite S3, R3, S2. by rewrite R1 in R2.
Qed.

Lemma bind_lift {A B} (x : A) (f : A -> M B) (t : tcb) : (lift (Some x) ≫= f) t = f x t.
Proof. rewrite (bind_eq _ _ t x t []) by done. by destruct (f x t) as [[[]]|]. Qed.

Lemma bind_get {B} (f : tcb -> M B) (t : tcb) : (get_tcb ≫= f) t = f t t.
Proof. rewrite (bind_eq _ _ t t t []) by done. by destruct (f t t) as [[[]]|]. Qed.

Lemma bind_ret {A B} (x : A) (f : A -> M B) (t : tcb) : (mret x ≫= f) t = f x t.
Proof. apply bind_lift. Qed.

(** The handler of a plain segment: the window test, the trimming of what has
    arrived before, and the two ways on. *)
Lemma input_trimmed lo n a th h len (t : tcb) :
  recv_ok lo n (rcv t) -> plain th -> zlen h = data_offset th * 4 ->
  near base (h_seq th) -> seq_ok (h_seq th) -> pos (h_seq th) = a ->
  0 <= len -> a + len < 2 ^ 30 -> 0 <= rcv_window (rcv t) -> n + rcv_window (rcv t) < 2 ^ 30 ->
  input_handle_other_state e hw now th (h ++ range d a len) t =
  (if in_window n (rcv_window (rcv t)) a len
   then if a <=? n then process_segment e hw now th (range d n (a + len - n)) (rcv_next (rcv t)) (a + len - n)
        else insert_out_of_order (h_seq th) (range d a len);; output
   else output) t.
Proof.
  intros [Hn Hp Hsq Hlo _ _ _ _] Hpl Hh Hns Hso Epos Hl Hb Hw0 Hwb. unfold input_handle_other_state.
  rewrite drop_front_ok, bind_lift, bind_get by (rewrite zlen_app; pose proof (zlen_nonneg h); pose proof (zlen_nonneg (range d a len)); lia).
  cbv zeta. rewrite drop_app_length' by (unfold zlen in Hh; lia).
  rewrite zlen_range, segment_acceptable_pos by (done || lia). rewrite Hp, Epos.
  destruct (in_window n (rcv_window (rcv t)) a len) eqn:Ew; cbn [negb]; [|done].
  rewrite (seq_ltb_pos base), (seq_diff_pos base), Hp, Epos by done.
  assert (Hna : a < n -> n < a + len).
  { unfold in_window in Ew. destruct (Z.eqb_spec len 0); [destruct (rcv_window (rcv t) =? 0); b2p; lia|].
    destruct (rcv_window (rcv t) =? 0); [done|]. intros. apply orb_true_iff in Ew as [Ew|Ew]; b2p; lia. }
  set (dup := if a <? n then u32 (n - a) `min` len else 0).
  assert (Hdup : dup = Z.max 0 (n - a)).
  { unfold dup, near in *. change (2 ^ 30) with 1073741824 in *. destruct (Z.ltb_spec a n); [|lia].
    rewrite wrap_small by (pow2; lia). lia. }
  clearbody dup. destruct (near_add (h_seq th) dup Hns) as [Hns' Hp']; [unfold near in *; lia|]. rewrite Epos in Hp'.
  rewrite drop_front_ok, bind_lift by (rewrite zlen_range; lia). rewrite drop_range by lia.
  rewrite (seq_eqb_pos base), Hp', Hp by (done || apply seq_add_ok).
  destruct (Z.eqb_spec (a + dup) n) as [E|E]; cbn [negb].
  - destruct Hpl as (Hrst & Hsyn & Hfin & Hack). rewrite Hrst, Hsyn, Hack, bind_ret. cbn [negb].
    destruct (Z.leb_spec a n); [|lia]. rewrite E. replace (len - dup) with (a + len - n) by lia.
    f_equal. apply (seq_pos_inj base); [apply seq_add_ok|done|lia].
  - destruct (Z.leb_spec a n); [lia|]. replace dup with 0 by lia. by rewrite seq_add_0, Z.add_0_r, Z.sub_0_r.
Qed.

Lemma receives_overlap lo n a len m r :
  receives lo n n (a + len - n) m r -> a <= n -> receives lo n a len m r.
Proof.
  intros (n' & H1 & H2 & H3) Ha. exists n'. split_and!; [done|done|]. intros x. rewrite H3. unfold received. intuition lia.
Qed.

Lemma returns_eq {A} (m m' : @Tcb.M T A) t Q : m t = m' t -> returns m' t Q -> returns m t Q.
Proof. unfold returns. by intros ->. Qed.

(** C3. Receiving: an ESTABLISHED connection takes every plain data segment of
    the peer's stream without failing, wherever it lies and whatever arrived
    before.  A segment that RFC 793 finds acceptable adds its bytes to the bytes
    received - the set becomes the union - and the connection delivers the
    stream in order up to the first byte that is missing; any other segment
    leaves the receiving state as it is. *)
Theorem tcb_receives_stream lo n a th h len (t : tcb) :
  state t = ESTABLISHED -> recv_ok lo n (rcv t) -> plain th -> old_ack th t ->
  zlen h = data_offset th * 4 -> near base (h_seq th) -> seq_ok (h_seq th) -> pos (h_seq th) = a ->
  0 < len -> a + len < 2 ^ 30 -> 0 <= rcv_window (rcv t) -> n + rcv_window (rcv t) < 2 ^ 30 ->
  returns (input_handle_other_state e hw now th (h ++ range d a len)) t (fun _ t' =>
    state t' = ESTABLISHED /\
    if in_window n (rcv_window (rcv t)) a len
    then receives lo n a len (out_of_order (rcv t)) (rcv t')
    else rcv t' = rcv t).
Proof.
  intros Es Hr Hpl Ha Hh Hns Hso Epos Hl Hb Hw0 Hwb.
  eapply returns_eq; [apply (input_trimmed lo n a); try done; lia|].
  destruct (in_window n (rcv_window (rcv t)) a len) eqn:Ew.
  2: { eapply returns_mono; [apply output_returns|]. cbv beta. intros _ t' [S R]. by rewrite S, R. }
  destruct (Z.leb_spec a n) as [E|E].
  - assert (0 < a + len - n).
    { unfold in_window in Ew. destruct (Z.eqb_spec len 0); [lia|]. destruct (rcv_window (rcv t) =? 0); [done|].
      apply orb_true_iff in Ew as [Ew|Ew]; b2p; lia. }
    eapply returns_mono; [apply (process_segment_returns lo n)|]; try done; try lia.
    cbv beta. intros _ t' [S R]. split; [done|]. by apply receives_overlap.
  - apply returns_bind. subst a.
    eapply returns_mono; [apply (insert_out_of_order_returns lo n)|]; try done; try lia.
    cbv beta. intros _ t1 [S1 R1]. eapply returns_mono; [apply output_returns|].
    cbv beta. intros _ t2 [S2 R2]. rewrite S2, R2, S1. done.
Qed.

(** The receive window: the test of the code on 32-bit sequence numbers is
    the acceptability test of RFC 793 on positions, across the wrap. *)
Theorem segment_acceptable_rfc793 r s len :
  near base (rcv_next r) -> seq_ok (rcv_next r) -> near base s -> seq_ok s -> 0 <= len -> 0 <= rcv_window r ->
  pos s + len < 2 ^ 30 -> pos (rcv_next r) + rcv_window r < 2 ^ 30 ->
  segment_acceptable r s len = in_window (pos (rcv_next r)) (rcv_window r) (pos s) len.
Proof. apply segment_acceptable_pos. Qed.
End Recv.

Import Core.Impl.

(** The peer's stream counts from 1001, after its SYN. *)
Lemma tcb_receives_stream_witness :
  let th := Ex.hdr 1004 251 false true false false 4096 in
  returns (input_handle_other_state BigEndian hw_features_default 3 th
    (tcp_hdr_write th ++ range (fun i => i mod 256) 3 2)) Ex.established (fun _ t' =>
    state t' = ESTABLISHED /\
    if in_window 0 (rcv_window (rcv Ex.established)) 3 2
    then receives (make_seq 1001) (fun i => i mod 256) 0 0 3 2 (out_of_order (rcv Ex.established)) (rcv t')
    else rcv t' = rcv Ex.established).
Proof.
  refine (tcb_receives_stream BigEndian hw_features_default 3 (make_seq 1001) (fun i => i mod 256) 0 0 3
    (Ex.hdr 1004 251 false true false false 4096) (tcp_hdr_write (Ex.hdr 1004 251 false true false false 4096)) 2 Ex.established _ _ _ _ _ _ _ _ _ _ _ _).
  1: reflexivity.
  1: { assert (E : rcv Ex.established = Receive (make_seq 1001) 29200 0 1460 (make_seq 1001) (make_seq 1000)
         [] 0 [] false 3737600) by (vm_compute; reflexivity).
       rewrite E. constructor; [by vm_compute|by vm_compute|by vm_compute|by vm_compute| | | |];
         [vm_compute; reflexivity|vm_compute; reflexivity|split; constructor|constructor]. }
  1: by vm_compute.
  1: by vm_compute.
  1: by vm_compute.
  all: by vm_compute.
Defined.

Lemma segment_acceptable_rfc793_witness :
  segment_acceptable (rcv Ex.established) (make_seq 1000) 2 =
  in_window 0 (rcv_window (rcv Ex.established)) (-1) 2.
Proof.
  refine (segment_acceptable_rfc793 (make_seq 1001) (rcv Ex.established) (make_seq 1000) 2 _ _ _ _ _ _ _ _); by vm_compute.
Defined.
