(* ===== verification/TcbFailures.v ===== *)
(** * Segments and timers that stop the program

    Assertions of the code that a peer can make fail, and a division that it can
    make by zero: [None] is the failed assertion or the undefined operation. *)

From S2P Require Import Prelude Core ByteOrder Checksum Packet Net TcpSeq TcpHdr PacketMerger TcbData Tcb TcbState TcbSend TcbStream.
From stdpp Require Import base numbers option list.

#[local] Open Scope Z_scope.

Section Failures.
Context {BC : BeCodec} {AU : AlignUp} {T : Type} {TM : TimerOps T}.
Abbreviation tcb := (@TcbData.tcb T).
Variable e : endian.
Variable hw : hw_features.
Variable get_isn : tcb -> Z -> tcp_seq.

(** [m] does not return from [t]. *)
Definition stops {A} (m : @Tcb.M T A) (t : tcb) : Prop := m t = None.

Lemma stops_bind {A B} (m : @Tcb.M T A) (f : A -> @Tcb.M T B) t :
  (forall x t' es, m t = Some (x, t', es) -> stops (f x) t') -> stops (m ≫= f) t.
Proof.
  intros H. unfold stops, mbind, M_bind. destruct (m t) as [[[x t'] es]|] eqn:E; [|done].
  by rewrite (H x t' es eq_refl).
Qed.

Lemma stops_get {B} (f : tcb -> @Tcb.M T B) t : stops (f t) t -> stops (get_tcb ≫= f) t.
Proof. intros H. apply stops_bind. by intros x t' es [= <- <- _]. Qed.

Lemma stops_modify {B} g (f : () -> @Tcb.M T B) t : stops (f ()) (g t) -> stops (modify g ≫= f) t.
Proof. intros H. apply stops_bind. by intros [] t' es [= <- _]. Qed.

Lemma stops_lift {A B} (o : option A) (f : A -> @Tcb.M T B) t :
  (forall x, o = Some x -> stops (f x) t) -> stops (lift o ≫= f) t.
Proof. intros H. apply stops_bind. unfold lift. intros x t' es. destruct o; [|done]. intros [= <- <- _]. by apply H. Qed.

(** The window is zero and the segment is longer than a probe. *)
Lemma output_segment_stops now payload t :
  snd_window (snd t) = 0 -> 1 < zlen payload < 65536 -> stops (output_segment e hw now true payload) t.
Proof.
  intros Hw Hl. unfold output_segment. apply stops_get. cbv zeta. cbn [negb andb].
  apply stops_bind. intros x t1 es E1.
  assert (Hw1 : snd_window (snd t1) = 0).
  { unfold when, clear_delayed_ack in E1. destruct (ack_needs_on t); by injection E1 as _ <- _. }
  clear E1. apply stops_get, stops_bind. intros y t2 es' [= _ <- _]. apply stops_get.
  apply stops_lift. intros opts _. apply stops_lift. intros c _.
  apply stops_bind. intros z t3 es3 [= _ <- _]. apply stops_get. rewrite Hw1.
  rewrite wrap_small by (pow2; lia). destruct (Z.leb_spec (zlen payload) 1); [lia|done].
Qed.

(** Retransmission and a closed window: when the peer has closed its window
    while a segment of more than one byte is in flight, the retransmission timer
    does not resend it but fails the assertion of [output_one], whose comment
    calls anything but a one-byte probe a bug. *)
Theorem retransmit_zero_window_stops now seg data t :
  synchronised t -> fin_needs_on t = false -> snd_window (snd t) = 0 ->
  snd_data (snd t) = seg :: data -> 1 < zlen (seg_p seg) < 65536 -> nr_transmits seg < max_nr_retransmit ->
  retransmit e hw now t = None.
Proof.
  intros Hs Hf Hw Ed Hl Hn. destruct (synchronised_flags t Hs) as (Hsyn & _ & Hcl).
  unfold retransmit. apply stops_bind. intros go t0 es0 E0.
  assert (go = true /\ t0 = t) as [-> ->].
  { revert E0. unfold retransmit_control. unfold mbind, M_bind. cbn. rewrite Hsyn. cbn. rewrite Hf. cbn. by intros [= <- <- _]. }
  cbn [negb]. apply stops_get. rewrite Ed. cbv zeta. apply stops_bind. intros x t1 es1 E1.
  assert (tcb_in_state [CLOSED] t1 = false /\ snd_window (snd t1) = 0) as [Hcl1 Hw1].
  { destruct (nr_transmits seg =? 0); by injection E1 as _ <- _. }
  do 2 apply stops_modify. apply stops_modify.
  destruct (Z.ltb_spec (nr_transmits seg) max_nr_retransmit); [|lia].
  apply stops_modify, stops_bind. intros y t2 es2 E2. exfalso. revert E2.
  enough (stops (retransmit_one e hw now) _) as Hst by (rewrite Hst; done).
  unfold retransmit_one, output_one. apply stops_get. cbn [state set_snd upd_snd].
  change (tcb_in_state [CLOSED] _) with (tcb_in_state [CLOSED] t1). rewrite Hcl1.
  apply stops_lift. cbn. intros p [= <-]. by apply output_segment_stops.
Qed.

(** The data offset: a segment whose header length field reaches beyond the
    segment stops the program, whichever handler it comes to. *)
Theorem data_offset_stops now th p t :
  zlen p < data_offset th * 4 ->
  input_handle_listen_state hw now get_isn th p t = None /\
  input_handle_syn_sent_state hw now th p t = None /\
  input_handle_other_state e hw now th p t = None.
Proof.
  intros Hl. assert (Hd : drop_front (data_offset th * 4) p = None) by (apply drop_front_bad; lia).
  unfold input_handle_listen_state, input_handle_syn_sent_state, input_handle_other_state. rewrite Hd.
  split_and!; [apply stops_lift; intros ? _; by apply stops_lift..|by apply stops_lift].
Qed.
End Failures.

Import Core.Impl Ex.

(** A peer whose SYN offers a zero window and a maximum segment size of zero. *)
Definition syn_mss0 : tcb_op :=
  let h := TcpHdr 49152 80 (make_seq 1000) (make_seq 0) 0 6 false true false false false false 0 0 0 0 in
  OpListen h (tcp_hdr_write h ++ [2; 4; 0; 0]).
Definition ack_window0 : tcb_op := let h := hdr 1001 251 false true false false 0 in OpOther h (seg h []).

(** A peer that acknowledges two of five bytes and closes its window. *)
Definition ack_shrink : tcb_op := let h := hdr 1001 253 false true false false 0 in OpOther h (seg h []).

(** Two peers that stop the program: the acknowledgment of a SYN with a zero
    MSS and a zero window divides by the congestion window, which is zero; and a
    window closed behind the bytes in flight makes the retransmission timer fail
    its assertion.  In both executions all operations before return. *)
Theorem remote_stops :
  is_Some (runs [(1, syn_mss0)] tcb0) /\ runs [(1, syn_mss0); (2, ack_window0)] tcb0 = None /\
  is_Some (runs [(4, ack_shrink)] data_sent) /\ runs [(4, ack_shrink); (1010, OpRetransmit)] data_sent = None.
Proof. split_and!; [by eexists; vm_compute|by vm_compute|by eexists; vm_compute|by vm_compute]. Qed.

(** The congestion window: [can_send] allows a congestion window of new data
    whatever is already in flight, so a connection that never saw a duplicate
    acknowledgment can have more in flight than its congestion window. *)
Theorem flight_exceeds_cwnd :
  let write := (3, OpSend (repeat 0 2144)) in
  let get := repeat (3, OpGetPacket) 6 in
  exists t, runs ([write] ++ get ++ [write] ++ get) established = Some t /\ state t = ESTABLISHED /\
    dupacks (snd t) = 0 /\ cwnd (snd t) < flight_size_of (snd t).
Proof. eexists. split; [vm_compute; reflexivity|]. by vm_compute. Qed.

Lemma retransmit_zero_window_stops_witness :
  retransmit BigEndian hw_features_default 1010 (default tcb0 (runs [(4, ack_shrink)] data_sent)) = None.
Proof.
  apply (retransmit_zero_window_stops BigEndian hw_features_default 1010 (Unacked [3;4;5] 5 0 3) []).
  1: { vm_compute. constructor. }
  all: by vm_compute.
Defined.

Lemma data_offset_stops_witness :
  let th := TcpHdr 49152 80 (make_seq 1001) (make_seq 251) 0 15 false false false false true false 0 100 0 0 in
  input_handle_other_state BigEndian hw_features_default 3 th (tcp_hdr_write th) established = None.
Proof.
  cbv zeta. set (th := TcpHdr _ _ _ _ _ _ _ _ _ _ _ _ _ _ _ _).
  apply (data_offset_stops BigEndian hw_features_default isn 3 th (tcp_hdr_write th)). by vm_compute.
Defined.
