(* ===== verification/Inet.v ===== *)
(** * Addresses and frames: include/nil/actor/network/ethernet.hh, ip.hh, net.hh

    Ethernet addresses are their six bytes, IPv4 addresses the value of their
    [uint32_t].  [L3Proto] is what the template parameter of [arp_for] provides. *)

From S2P Require Import Prelude Core Net.
From stdpp Require Import base numbers option list.

#[local] Open Scope Z_scope.

(** [struct ethernet_address] *)
Definition mac := list Z.
Definition mac_ok (m : mac) : Prop := length m = 6%nat.
Definition eth_broadcast : mac := [255; 255; 255; 255; 255; 255].
Definition arp_hardware_type : Z := 1.
Definition mac_size : Z := 6.

(** [ethernet_address::read] and [write]: six bytes copied. *)
Definition mac_read (p : list Z) : mac := take 6 p.
Definition mac_write (m : mac) : list Z := m.

(** [struct ipv4_address], by value *)
Definition ipv4_address := Z.
Definition is_unspecified (a : ipv4_address) : bool := a =? 0.

(** A packet for the device: protocol, destination, bytes. *)
Record l3packet := L3Packet { l3_proto : Z; l3_to : mac; l3_p : packet }.

Section Codec.
Context {BC : BeCodec}.

Definition ipv4_read (p : list Z) : ipv4_address := read_be 4 p.
Definition ipv4_write (a : ipv4_address) : list Z := write_be 4 a.

(** [struct eth_hdr] in network byte order *)
Record eth_hdr := EthHdr { dst_mac : mac; src_mac : mac; eth_proto : Z }.
Definition eth_hdr_read (p : list Z) : eth_hdr :=
  EthHdr (mac_read p) (mac_read (drop 6 p)) (read_be 2 (drop 12 p)).
Definition eth_hdr_write (h : eth_hdr) : list Z := mac_write (dst_mac h) ++ mac_write (src_mac h) ++ write_be 2 (eth_proto h).
End Codec.

(** The class that [arp_for] is a template over. *)
Class L3Proto (A : Type) := {
  l3_size : nat;
  l3_read : list Z -> A;
  l3_write : A -> list Z;
  l3_broadcast : A;
  l3_arp_type : Z;
  l3_ok : A -> Prop;
  l3_write_length : forall a, length (l3_write a) = l3_size;
  l3_read_write : forall a rest, l3_ok a -> l3_read (l3_write a ++ rest) = a;
  l3_arp_type_ok : is_uint 16 l3_arp_type;
  l3_size_ok : is_uint 8 (Z.of_nat l3_size)
}.

(** [ipv4::broadcast_address()] and [ipv4::arp_protocol_type()] *)
Definition ipv4_broadcast : ipv4_address := 4294967295.
Definition ipv4_arp_type : Z := eth_proto_ipv4.

Lemma ipv4_read_write {BC : BeCodec} a rest : is_uint 32 a -> ipv4_read (ipv4_write a ++ rest) = a.
Proof.
  intros H. unfold ipv4_read, ipv4_write. destruct (be4_bytes a H) as (? & ? & ? & ? & -> & E).
  apply E.
Qed.

#[export] Program Instance ipv4_l3 {BC : BeCodec} : L3Proto ipv4_address := {
  l3_size := 4; l3_read := ipv4_read; l3_write := ipv4_write; l3_broadcast := ipv4_broadcast;
  l3_arp_type := ipv4_arp_type; l3_ok := is_uint 32 }.
Next Obligation. intros. apply length_write_be. Qed.
Next Obligation. intros. by apply ipv4_read_write. Qed.
Next Obligation. done. Qed.
Next Obligation. done. Qed.

Lemma eth_hdr_read_write {BC : BeCodec} h rest :
  mac_ok (dst_mac h) -> mac_ok (src_mac h) -> is_uint 16 (eth_proto h) ->
  eth_hdr_read (eth_hdr_write h ++ rest) = h.
Proof.
  destruct h as [d s p]. unfold mac_ok, eth_hdr_read, eth_hdr_write, mac_read, mac_write. cbn. intros Hd Hs Hp.
  destruct (be2_bytes p Hp) as (? & ? & -> & E).
  do 6 (destruct d as [|? d]; [done|]). destruct d; [|done].
  do 6 (destruct s as [|? s]; [done|]). destruct s; [|done]. cbn. by rewrite E.
Qed.
