(* ===== verification/Arp.v ===== *)
(** * Address resolution: include/nil/actor/network/arp.hh, src/network/arp.cc

    [arp] dispatches ARP packets to the protocols that registered, and queues
    what they send; [arp_for<L3>] resolves the addresses of one protocol. *)

From S2P Require Import Prelude Core Net Inet.
From stdpp Require Import base numbers option gmap list.

#[local] Open Scope Z_scope.

(** ** Class [arp] *)

Section Dispatch.
Context {BC : BeCodec}.

(** The registered protocols, [P] for their handlers, and the queue. *)
Record arp (P : Type) := Arp { arp_for_protocol : gmap Z P; arp_packetq : list l3packet }.
Arguments Arp {P}.
Arguments arp_for_protocol {P}.
Arguments arp_packetq {P}.

Definition arp_add {P} (proto_num : Z) (afp : P) (a : arp P) : arp P :=
  Arp (<[proto_num := afp]> (arp_for_protocol a)) (arp_packetq a).
Definition arp_del {P} (proto_num : Z) (a : arp P) : arp P :=
  Arp (delete proto_num (arp_for_protocol a)) (arp_packetq a).

Definition arp_get_packet {P} (a : arp P) : option l3packet * arp P :=
  match arp_packetq a with
  | [] => (None, a)
  | p :: q => (Some p, Arp (arp_for_protocol a) q)
  end.

(** [arp_hdr::read]: hardware and protocol type. *)
Definition arp_types (p : list Z) : Z * Z := (read_be 2 p, read_be 2 (drop 2 p)).

(** [process_packet]: the handler the packet goes to. *)
Definition arp_process_packet {P} (p : list Z) (a : arp P) : option P :=
  match header_at 0 4 p with
  | None => None
  | Some h => arp_for_protocol a !! (Datatypes.snd (arp_types h))
  end.

(** [forward]: the handler that decides, [Some None] when there is none; [None] is
    the null pointer that is dereferenced for a short packet. *)
Definition arp_forward {P} (p : list Z) (off : Z) (a : arp P) : option (option P) :=
  match header_at off 4 p with
  | None => None
  | Some h => Some (arp_for_protocol a !! (Datatypes.snd (arp_types h)))
  end.

(** [arp_for_protocol::forward], which [arp_for] does not override. *)
Definition arp_for_forward : bool := false.
End Dispatch.
Arguments Arp {P}.
Arguments arp_for_protocol {P}.
Arguments arp_packetq {P}.

(** ** Class [arp_for] *)

Definition max_waiters : nat := 512.
Definition op_request : Z := 1.
Definition op_reply : Z := 2.

Section ArpFor.
Context {BC : BeCodec} {A : Type} {EqA : EqDecision A} {CA : Countable A} {L3 : L3Proto A}.
Context {T : Type} {TM : Core.TimerOps T}.
(** The promises of those who wait. *)
Context {W : Type}.

(** [struct arp_hdr] *)
Record arp_hdr := ArpHdr {
  htype : Z; ptype : Z; hlen : Z; arp_plen : Z; oper : Z;
  sender_hwaddr : mac; sender_paddr : A; target_hwaddr : mac; target_paddr : A }.

Definition arp_hdr_size : Z := 8 + 2 * (mac_size + Z.of_nat l3_size).

Definition arp_hdr_read (p : list Z) : arp_hdr :=
  let n := l3_size in
  ArpHdr (read_be 2 p) (read_be 2 (drop 2 p)) (read_be 1 (drop 4 p)) (read_be 1 (drop 5 p)) (read_be 2 (drop 6 p))
    (mac_read (drop 8 p)) (l3_read (drop 14 p)) (mac_read (drop (14 + n) p)) (l3_read (drop (20 + n) p)).

Definition arp_hdr_write (h : arp_hdr) : list Z :=
  write_be 2 (htype h) ++ write_be 2 (ptype h) ++ write_be 1 (hlen h) ++ write_be 1 (arp_plen h) ++
  write_be 2 (oper h) ++ mac_write (sender_hwaddr h) ++ l3_write (sender_paddr h) ++
  mac_write (target_hwaddr h) ++ l3_write (target_paddr h).

(** [struct resolution] *)
Record resolution := Resolution { res_waiters : list W; timeout_timer : T }.

Record arp_for := ArpFor {
  l3self : A;
  table : gmap A mac;
  in_progress : gmap A resolution }.

(** What the operations do outside the object. *)
Inductive arp_event :=
  | ArpSend (to : mac) (p : list Z)       (* [_arp._packetq.push_back] *)
  | ArpLearn (l2 : mac) (l3 : A)          (* [arp_learn], on every shard *)
  | ArpReady (w : W) (l2 : mac)           (* [set_value] *)
  | ArpTimeout (w : W).                   (* [set_exception(arp_timeout_error())] *)

(** [arp_for(arp &)] *)
Definition arp_for_init : arp_for := ArpFor l3_broadcast {[ l3_broadcast := eth_broadcast ]} ∅.

(** The address of the interface. *)
Variable l2self : mac.

Definition set_self_addr (addr : A) (s : arp_for) : arp_for :=
  ArpFor addr (<[addr := l2self]> (delete (l3self s) (table s))) (in_progress s).

Definition make_query_packet (paddr : A) (s : arp_for) : list Z :=
  arp_hdr_write (ArpHdr arp_hardware_type l3_arp_type mac_size (Z.of_nat l3_size) op_request
                        l2self (l3self s) eth_broadcast paddr).

Definition send_query (paddr : A) (s : arp_for) : list arp_event :=
  [ArpSend eth_broadcast (make_query_packet paddr s)].

Inductive lookup_result := LookupReady (l2 : mac) | LookupWaiting | LookupQueueFull.

(** [lookup(paddr)]: [w] is the promise of the future it returns. *)
Definition arp_lookup (now : Z) (w : W) (paddr : A) (s : arp_for) : arp_for * list arp_event * lookup_result :=
  match table s !! paddr with
  | Some l2 => (s, [], LookupReady l2)
  | None =>
      let '(res, es) := match in_progress s !! paddr with
        | Some res => (res, [])
        | None => (Resolution [] (tm_rearm (now + 1000) tm_idle), send_query paddr s)
        end in
      if Nat.leb max_waiters (length (res_waiters res))
      then (ArpFor (l3self s) (table s) (<[paddr := res]> (in_progress s)), es, LookupQueueFull)
      else
        let res := Resolution (res_waiters res ++ [w]) (timeout_timer res) in
        (ArpFor (l3self s) (table s) (<[paddr := res]> (in_progress s)), es, LookupWaiting)
  end.

(** The callback of the timer, which is periodic: it is armed again. *)
Definition arp_timeout (now : Z) (paddr : A) (s : arp_for) : arp_for * list arp_event :=
  match in_progress s !! paddr with
  | None => (s, [])
  | Some res =>
      (ArpFor (l3self s) (table s)
         (<[paddr := Resolution [] (tm_rearm (now + 1000) (timeout_timer res))]> (in_progress s)),
       send_query paddr s ++ map ArpTimeout (res_waiters res))
  end.

(** [learn(hwaddr, paddr)] *)
Definition learn (hwaddr : mac) (paddr : A) (s : arp_for) : arp_for * list arp_event :=
  let table' := <[paddr := hwaddr]> (table s) in
  match in_progress s !! paddr with
  | None => (ArpFor (l3self s) table' (in_progress s), [])
  | Some res => (ArpFor (l3self s) table' (delete paddr (in_progress s)),
                 map (fun w => ArpReady w hwaddr) (res_waiters res))
  end.

(** [handle_request(ah)] *)
Definition handle_request (ah : arp_hdr) (s : arp_for) : list arp_event :=
  if bool_decide (target_paddr ah = l3self s) && negb (bool_decide (l3self s = l3_broadcast)) then
    let ah' := ArpHdr (htype ah) (ptype ah) (hlen ah) (arp_plen ah) op_reply
                      l2self (l3self s) (sender_hwaddr ah) (sender_paddr ah) in
    [ArpSend (target_hwaddr ah') (arp_hdr_write ah')]
  else [].

(** [received(p)] *)
Definition arp_received (p : list Z) (s : arp_for) : list arp_event :=
  match header_at 0 arp_hdr_size p with
  | None => []
  | Some ah =>
      let h := arp_hdr_read ah in
      if negb (hlen h =? mac_size) || negb (arp_plen h =? Z.of_nat l3_size) then []
      else if oper h =? op_request then handle_request h s
      else if oper h =? op_reply then [ArpLearn (sender_hwaddr h) (sender_paddr h)]
      else []
  end.
End ArpFor.
Arguments arp_for : clear implicits.
Arguments arp_for A {EqA CA} T W.
Arguments resolution : clear implicits.
Arguments arp_event : clear implicits.
Arguments arp_hdr : clear implicits.

(** ** Lemmas and properties *)

Section Properties.
Context {BC : BeCodec} {A : Type} {EqA : EqDecision A} {CA : Countable A} {L3 : L3Proto A}.
Context {T : Type} {TM : Core.TimerOps T} {W : Type}.
Abbreviation arp_for := (arp_for A T W).
Abbreviation arp_event := (arp_event A W).

Definition arp_hdr_ok (h : arp_hdr A) : Prop :=
  is_uint 16 (htype h) /\ is_uint 16 (ptype h) /\ is_uint 8 (hlen h) /\ is_uint 8 (arp_plen h) /\
  is_uint 16 (oper h) /\ mac_ok (sender_hwaddr h) /\ l3_ok (sender_paddr h) /\
  mac_ok (target_hwaddr h) /\ l3_ok (target_paddr h).

Lemma mac_read_app m rest : mac_ok m -> mac_read (m ++ rest) = m.
Proof. unfold mac_ok, mac_read. intros H. rewrite <- H. apply take_app_length. Qed.

Lemma arp_read_write h rest : arp_hdr_ok h -> arp_hdr_read (arp_hdr_write h ++ rest) = h.
Proof.
  destruct h as [ht pt hl pl op sh sp th tp]. intros (H1 & H2 & H3 & H4 & H5 & H6 & H7 & H8 & H9). cbn in *.
  destruct (be2_bytes _ H1) as (? & ? & E1 & R1), (be2_bytes _ H2) as (? & ? & E2 & R2),
    (be1_bytes _ H3) as (? & E3 & R3), (be1_bytes _ H4) as (? & E4 & R4), (be2_bytes _ H5) as (? & ? & E5 & R5).
  unfold arp_hdr_write. cbn [htype ptype hlen arp_plen oper sender_hwaddr sender_paddr target_hwaddr target_paddr].
  rewrite E1, E2, E3, E4, E5. unfold arp_hdr_read, mac_write. cbn [app drop]. rewrite R1, R2, R3, R4, R5.
  rewrite <- !app_assoc.
  assert (Hd6 : forall (m : mac) k l, mac_ok m -> drop (6 + k) (m ++ l) = drop k l).
  { intros m k l Hm. rewrite <- Hm. by rewrite <- drop_drop, drop_app_length. }
  assert (Hdn : forall a k l, drop (l3_size + k) (l3_write a ++ l) = drop k l).
  { intros a k l. rewrite <- (l3_write_length a). by rewrite <- drop_drop, drop_app_length. }
  change (drop (14 + l3_size) (_ :: _ :: _ :: _ :: _ :: _ :: _ :: _ :: ?l)) with (drop (6 + l3_size) l).
  change (drop (20 + l3_size) (_ :: _ :: _ :: _ :: _ :: _ :: _ :: _ :: ?l)) with (drop (6 + (6 + l3_size)) l).
  change (drop 6 (sh ++ ?l)) with (drop (6 + 0) (sh ++ l)). replace (6 + l3_size)%nat with (6 + (l3_size + 0))%nat at 1 by lia.
  rewrite drop_0, !Hd6, drop_0 by done.
  replace (6 + l3_size)%nat with (l3_size + (6 + 0))%nat by lia.
  rewrite !Hdn, Hd6, !drop_0, !mac_read_app, !l3_read_write by done. done.
Qed.

(** The ARP header read from the bytes that [write] stores is the header. *)
Theorem arp_hdr_read_write h rest : arp_hdr_ok h -> arp_hdr_read (arp_hdr_write h ++ rest) = h.
Proof. apply arp_read_write. Qed.

Lemma length_arp_hdr_write h :
  mac_ok (sender_hwaddr h) -> mac_ok (target_hwaddr h) -> zlen (arp_hdr_write h) = arp_hdr_size.
Proof.
  intros H1 H2. unfold arp_hdr_write, arp_hdr_size, mac_write, mac_size, mac_ok, zlen in *.
  rewrite !length_app, !length_write_be, !l3_write_length, H1, H2. lia.
Qed.

(** *** Who waits, and who is answered *)

Definition waiting (s : arp_for) : list W := concat (map (fun kv => res_waiters (Datatypes.snd kv)) (map_to_list (in_progress s))).

Definition answered (es : list arp_event) : list W :=
  omap (fun ev => match ev with ArpReady w _ | ArpTimeout w => Some w | _ => None end) es.

Inductive arp_op :=
  | OpLookup (w : W) (paddr : A) | OpTimeout (paddr : A) | OpLearn (l2 : mac) (paddr : A) | OpSetSelf (addr : A).

Variable l2self : mac.

(** One operation: the state, what it does outside, and the future it hands out. *)
Definition arp_step (now : Z) (op : arp_op) (s : arp_for) : arp_for * list arp_event * list W :=
  match op with
  | OpLookup w a => let '(s, es, r) := arp_lookup l2self now w a s in
                    (s, es, match r with LookupWaiting => [w] | _ => [] end)
  | OpTimeout a => let '(s, es) := arp_timeout l2self now a s in (s, es, [])
  | OpLearn l2 a => let '(s, es) := learn l2 a s in (s, es, [])
  | OpSetSelf a => (set_self_addr l2self a s, [], [])
  end.

Fixpoint arp_run (ops : list (Z * arp_op)) (s : arp_for) : arp_for * list arp_event * list W :=
  match ops with
  | [] => (s, [], [])
  | (now, op) :: ops =>
      let '(s, es, ws) := arp_step now op s in
      let '(s, es', ws') := arp_run ops s in
      (s, es ++ es', ws ++ ws')
  end.

Lemma waiting_insert a r m l3 t :
  waiting (ArpFor l3 t (<[a := r]> m)) ≡ₚ res_waiters r ++ waiting (ArpFor l3 t (delete a m)).
Proof.
  unfold waiting. cbn [in_progress]. rewrite <- insert_delete_eq.
  rewrite map_to_list_insert by apply lookup_delete_eq. done.
Qed.

Lemma waiting_lookup a r m l3 t :
  m !! a = Some r -> waiting (ArpFor l3 t m) ≡ₚ res_waiters r ++ waiting (ArpFor l3 t (delete a m)).
Proof.
  intros E. rewrite <- (insert_id m a r E) at 1. apply waiting_insert.
Qed.

Lemma waiting_absent a m l3 t : m !! a = None -> waiting (ArpFor l3 t (delete a m)) = waiting (ArpFor l3 t m).
Proof. intros E. by rewrite delete_id. Qed.

Lemma answered_app es es' : answered (es ++ es') = answered es ++ answered es'.
Proof. apply omap_app. Qed.

Lemma answered_timeouts ws : answered (map ArpTimeout ws) = ws.
Proof. unfold answered. induction ws; cbn; congruence. Qed.

Lemma answered_ready l2 ws : answered (map (fun w => ArpReady w l2) ws) = ws.
Proof. unfold answered. induction ws; cbn; congruence. Qed.

Lemma arp_step_waiters now op s s' es ws :
  arp_step now op s = (s', es, ws) -> waiting s' ++ answered es ≡ₚ waiting s ++ ws.
Proof.
  destruct s as [self t m]. destruct op as [w a|a|l2 a|a]; cbn [arp_step].
  - unfold arp_lookup. cbn [table in_progress l3self]. destruct (t !! a); [intros [= <- <- <-]; done|].
    destruct (m !! a) as [r|] eqn:E.
    + destruct (Nat.leb _ _); intros [= <- <- <-].
      * by rewrite waiting_insert, <- waiting_lookup.
      * rewrite waiting_insert. cbn [res_waiters answered omap]. rewrite (waiting_lookup a r m) by done. 
        rewrite app_nil_r, <- !app_assoc. f_equiv. apply Permutation_app_comm.
    + cbn. intros [= <- <- <-]. rewrite waiting_insert, waiting_absent by done. cbn. by rewrite app_nil_r, Permutation_cons_append.
  - unfold arp_timeout. cbn [table in_progress l3self]. destruct (m !! a) as [r|] eqn:E; intros [= <- <- <-]; [|done].
    change (answered _) with (answered (map ArpTimeout (res_waiters r))).
    rewrite waiting_insert, answered_timeouts, (waiting_lookup a r m), app_nil_r by done.
    apply Permutation_app_comm.
  - unfold learn. cbn [table in_progress l3self]. destruct (m !! a) as [r|] eqn:E; intros [= <- <- <-]; [|done].
    rewrite (waiting_lookup a r m) by done. rewrite answered_ready, app_nil_r. apply Permutation_app_comm.
  - intros [= <- <- <-]. done.
Qed.

Lemma arp_run_waiters ops : forall s,
  let '(s', es, ws) := arp_run ops s in waiting s' ++ answered es ≡ₚ waiting s ++ ws.
Proof.
  induction ops as [|[now op] ops IH]; intros s; cbn [arp_run]; [done|].
  destruct (arp_step now op s) as [[s1 es1] ws1] eqn:E. specialize (IH s1).
  destruct (arp_run ops s1) as [[s2 es2] ws2]. apply arp_step_waiters in E.
  rewrite answered_app, (Permutation_app_comm (answered es1)), (app_assoc (waiting s2)), IH.
  rewrite <- (app_assoc (waiting s1)), (Permutation_app_comm ws2), (app_assoc (waiting s1)), E.
  by rewrite <- app_assoc.
Qed.

(** No address has more than [max_waiters] waiters. *)
Definition bounded (s : arp_for) : Prop :=
  map_Forall (fun _ r => (length (res_waiters r) <= max_waiters)%nat) (in_progress s).

Lemma arp_step_bounded now op s : bounded s -> bounded (fst (fst (arp_step now op s))).
Proof.
  destruct s as [self t m]. unfold bounded. intros H. destruct op as [w a|a|l2 a|a]; cbn [arp_step].
  - unfold arp_lookup. cbn [table in_progress l3self] in *. destruct (t !! a); [done|].
    destruct (m !! a) as [r|] eqn:E.
    + destruct (Nat.leb_spec max_waiters (length (res_waiters r))); cbn [fst in_progress]; apply map_Forall_insert_2; try done.
      * by apply (H a).
      * cbn [res_waiters]. rewrite length_app. cbn. lia.
    + cbn. apply map_Forall_insert_2; [|done]. unfold max_waiters. cbn. lia.
  - unfold arp_timeout. cbn [table in_progress l3self] in *. destruct (m !! a); [|done]. cbn.
    apply map_Forall_insert_2; [|done]. unfold max_waiters. cbn. lia.
  - unfold learn. cbn [table in_progress l3self] in *. destruct (m !! a); [|done]. by apply map_Forall_delete.
  - done.
Qed.

Lemma arp_run_bounded ops : forall s, bounded s -> bounded (fst (fst (arp_run ops s))).
Proof.
  induction ops as [|[now op] ops IH]; intros s H; cbn [arp_run]; [done|].
  pose proof (arp_step_bounded now op s H) as H1. destruct (arp_step now op s) as [[s1 es1] ws1].
  specialize (IH s1 H1). by destruct (arp_run ops s1) as [[s2 es2] ws2].
Qed.

(** C34. Address resolution answers everybody once: in any sequence of lookups,
    time-outs, replies and address changes, the futures handed out are exactly
    those still waiting and those answered, each counted once; and an address
    never has more than 512 waiters. *)
Theorem arp_waiters_answered_once ops :
  let '(s, es, ws) := arp_run ops arp_for_init in
  waiting s ++ answered es ≡ₚ ws /\
  map_Forall (fun _ r => (length (res_waiters r) <= 512)%nat) (in_progress s).
Proof.
  pose proof (arp_run_waiters ops arp_for_init) as H1.
  assert (bounded arp_for_init) as H0 by apply map_Forall_empty.
  pose proof (arp_run_bounded ops arp_for_init H0) as H2.
  destruct (arp_run ops arp_for_init) as [[s es] ws]. split; [|exact H2].
  rewrite H1. unfold waiting. cbn [in_progress arp_for_init]. by rewrite map_to_list_empty.
Qed.
End Properties.

Section Exchange.
Context {BC : BeCodec} {A : Type} {EqA : EqDecision A} {CA : Countable A} {L3 : L3Proto A}.
Context {T : Type} {TM : Core.TimerOps T} {W : Type}.

Lemma header_at_all (bs : list Z) n : zlen bs = n -> header_at 0 n bs = Some bs.
Proof.
  intros <-. unfold header_at. rewrite Z.add_0_l, Z.ltb_irrefl. by rewrite slice_all.
Qed.

(** Receiving a message that was written. *)
Lemma arp_received_write l2self (h : arp_hdr A) (s : arp_for A T W) :
  arp_hdr_ok h -> hlen h = mac_size -> arp_plen h = Z.of_nat l3_size ->
  arp_received l2self (arp_hdr_write h) s =
    if oper h =? op_request then handle_request l2self h s
    else if oper h =? op_reply then [ArpLearn (sender_hwaddr h) (sender_paddr h)] else [].
Proof.
  intros Hok H1 H2. unfold arp_received. destruct Hok as (? & ? & ? & ? & ? & Hs & ? & Ht & ?) eqn:E.
  rewrite header_at_all by (by apply length_arp_hdr_write). clear E.
  replace (arp_hdr_write h) with (arp_hdr_write h ++ []) by apply app_nil_r.
  rewrite arp_read_write by done. by rewrite H1, H2, !Z.eqb_refl.
Qed.

(** Address resolution between two hosts: the lookup of an address that is not
    known sends one query; the host that has the address, and only it, replies to
    the sender; and the reply makes the first host learn the right hardware
    address and answer the future with it. *)
Theorem arp_resolution now (w : W) ma mb a b (sa sb : arp_for A T W) :
  mac_ok ma -> mac_ok mb -> l3_ok a -> l3_ok b -> l3self sa = a -> l3self sb = b -> b <> l3_broadcast ->
  table sa !! b = None -> in_progress sa !! b = None ->
  exists sa' query reply,
    arp_lookup ma now w b sa = (sa', [ArpSend eth_broadcast query], LookupWaiting) /\
    arp_received mb query sb = [ArpSend ma reply] /\
    (forall mc (sc : arp_for A T W), l3self sc <> b -> arp_received mc query sc = []) /\
    arp_received ma reply sa' = [ArpLearn mb b] /\
    let '(sa'', es) := learn mb b sa' in
    es = [ArpReady w mb] /\ table sa'' !! b = Some mb /\ in_progress sa'' !! b = None.
Proof.
  intros Hma Hmb Ha Hb Ea Eb Hne Et Ep. unfold arp_lookup. rewrite Et, Ep. cbn [res_waiters length].
  unfold send_query, make_query_packet. rewrite Ea.
  set (q := ArpHdr _ _ _ _ _ _ _ _ _).
  assert (Hq : arp_hdr_ok q).
  { unfold arp_hdr_ok. cbn. pose proof l3_arp_type_ok. pose proof l3_size_ok. by split_and!. }
  set (r := ArpHdr arp_hardware_type l3_arp_type mac_size (Z.of_nat l3_size) op_reply mb b ma a).
  assert (Hr : arp_hdr_ok r).
  { unfold arp_hdr_ok. cbn. pose proof l3_arp_type_ok. pose proof l3_size_ok. by split_and!. }
  eexists _, _, (arp_hdr_write r). split; [done|]. split_and!.
  - rewrite arp_received_write by done. cbn [oper]. unfold handle_request. cbn [target_paddr q].
    rewrite Eb, bool_decide_true, bool_decide_false by done. done.
  - intros mc sc Hsc. rewrite arp_received_write by done. cbn [oper]. unfold handle_request. cbn [target_paddr q].
    by rewrite bool_decide_false by congruence.
  - rewrite arp_received_write by done. done.
  - unfold learn. cbn [in_progress table l3self]. rewrite lookup_insert_eq. cbn [res_waiters map app].
    cbn [table in_progress]. by rewrite lookup_insert_eq, lookup_delete_eq.
Qed.

(** The broadcast address: a new resolver knows it, and giving it an address
    of its own makes it forget it, so that broadcast packets then wait for an
    ARP reply that nobody sends. *)
Theorem set_self_addr_forgets_broadcast now (w : W) l2self (addr : A) :
  addr <> l3_broadcast ->
  let s : arp_for A T W := arp_for_init in
  arp_lookup l2self now w l3_broadcast s = (s, [], LookupReady eth_broadcast) /\
  Datatypes.snd (arp_lookup l2self now w l3_broadcast (set_self_addr l2self addr s)) = LookupWaiting.
Proof.
  intros Hne. cbn zeta. unfold arp_lookup, set_self_addr, arp_for_init. cbn [table in_progress l3self]. split.
  - by rewrite lookup_singleton_eq.
  - by rewrite lookup_insert_ne, lookup_delete_eq, lookup_empty.
Qed.
End Exchange.

(** ** Witnesses *)

Import Core.Impl.

Definition ex_host (a : Z) : arp_for Z (option Z) nat := set_self_addr [0;0;0;0;0;1] a arp_for_init.

Lemma arp_hdr_read_write_witness :
  let h := ArpHdr 1 2048 6 4 1 [0;0;0;0;0;1] 167772161 eth_broadcast 167772162 in
  arp_hdr_read (arp_hdr_write h ++ [7]) = h.
Proof. apply arp_hdr_read_write. repeat split; vm_compute; congruence. Defined.

Lemma arp_resolution_witness :
  exists sa' query reply,
    arp_lookup [0;0;0;0;0;1] 0 1%nat 167772162 (ex_host 167772161) = (sa', [ArpSend eth_broadcast query], LookupWaiting) /\
    arp_received [0;0;0;0;0;2] query (ex_host 167772162) = [ArpSend [0;0;0;0;0;1] reply] /\
    (forall mc (sc : arp_for Z (option Z) nat), l3self sc <> 167772162 -> arp_received mc query sc = []) /\
    arp_received [0;0;0;0;0;1] reply sa' = [ArpLearn [0;0;0;0;0;2] 167772162] /\
    let '(sa'', es) := learn [0;0;0;0;0;2] 167772162 sa' in
    es = [ArpReady 1%nat [0;0;0;0;0;2]] /\ table sa'' !! 167772162 = Some [0;0;0;0;0;2] /\
    in_progress sa'' !! 167772162 = None.
Proof.
  apply (arp_resolution 0 1%nat [0;0;0;0;0;1] [0;0;0;0;0;2] 167772161 167772162); try done; by vm_compute.
Defined.

Lemma set_self_addr_forgets_broadcast_witness :
  Datatypes.snd (arp_lookup [0;0;0;0;0;1] 0 1%nat ipv4_broadcast (ex_host 167772161)) = LookupWaiting.
Proof.
  refine (proj2 (set_self_addr_forgets_broadcast (A := Z) (T := option Z) 0 1%nat [0;0;0;0;0;1] 167772161 _)).
  vm_compute. congruence.
Defined.
