(* ===== verification/Ipv4.v ===== *)
(** * IPv4: include/nil/actor/network/ip.hh, src/network/ip.cc

    The header, the receive path with reassembly and its memory accounting, the
    send path with fragmentation, and the poll of the packet providers.  The layers above are told through events; the interface - its hash
    key, its shards, its hardware address - is a parameter. *)

From S2P Require Import Prelude Core ByteOrder Checksum Toeplitz Packet Net Inet PacketMerger Arp.
From stdpp Require Import base numbers option gmap list.

#[local] Open Scope Z_scope.

(** ** The header *)

(** [struct ip_hdr] in host order *)
Record ip_hdr := IpHdr {
  ihl : Z; ver : Z; dscp : Z; ecn : Z; ip_len : Z; ip_id : Z; ip_frag : Z; ttl : Z; ip_proto : Z;
  ip_csum : Z; src_ip : ipv4_address; dst_ip : ipv4_address }.

Definition ip_hdr_size : Z := 20.

Section Header.
Variable e : endian.

(** A packed field: [ntoh] of its value in memory, and back. *)
Definition fld (n : nat) (off : Z) (p : list Z) : Z := ntoh e n (host_load e (slice off (Z.of_nat n) p)).
Definition st (n : nat) (v : Z) : list Z := host_store e n (hton e n v).

(** Bit fields: the first declared one is in the low bits on a little-endian
    host, in the high bits on a big-endian one. *)
Definition bits_lo (e : endian) (w b : Z) : Z :=
  match e with LittleEndian => Z.land b (Z.ones w) | BigEndian => Z.shiftr b (8 - w) end.
Definition bits_hi (e : endian) (w b : Z) : Z :=
  match e with LittleEndian => Z.shiftr b w | BigEndian => Z.land b (Z.ones (8 - w)) end.
Definition bits_pack (w lo hi : Z) : Z :=
  match e with LittleEndian => Z.lor lo (Z.shiftl hi w) | BigEndian => Z.lor (Z.shiftl lo (8 - w)) hi end.

Definition ip_hdr_read (p : list Z) : ip_hdr :=
  let b0 := nth 0 p 0 in
  let b1 := nth 1 p 0 in
  IpHdr (bits_lo e 4 b0) (bits_hi e 4 b0) (bits_lo e 6 b1) (bits_hi e 6 b1) (fld 2 2 p) (fld 2 4 p) (fld 2 6 p)
    (nth 8 p 0) (nth 9 p 0) (fld 2 10 p) (fld 4 12 p) (fld 4 16 p).

Definition ip_hdr_write (h : ip_hdr) : list Z :=
  [bits_pack 4 (ihl h) (ver h); bits_pack 6 (dscp h) (ecn h)] ++ st 2 (ip_len h) ++ st 2 (ip_id h) ++
  st 2 (ip_frag h) ++ [ttl h; ip_proto h] ++ st 2 (ip_csum h) ++ st 4 (src_ip h) ++ st 4 (dst_ip h).
End Header.

Definition mf_of (h : ip_hdr) : bool := negb (Z.land (ip_frag h) (Z.shiftl 1 13) =? 0).
Definition df_of (h : ip_hdr) : bool := negb (Z.land (ip_frag h) (Z.shiftl 1 14) =? 0).
Definition offset_of (h : ip_hdr) : Z := u16 (Z.shiftl (ip_frag h) 3).

(** [ipv4::needs_frag] *)
Definition needs_frag (len proto : Z) (hw : hw_features) : bool :=
  if len + ipv4_hdr_len_min <=? mtu hw then false
  else if ((proto =? ip_proto_tcp) && tx_tso hw) || ((proto =? ip_proto_udp) && tx_ufo hw) then false
  else true.

(** ** Fragments *)

(** [struct ipv4_frag_id]: source, destination, identification, protocol *)
Definition frag_id : Type := Z * Z * Z * Z.
Definition frag_id_of (h : ip_hdr) : frag_id := (src_ip h, dst_ip h, ip_id h, ip_proto h).

(** [struct frag] *)
Record frag := Frag {
  frag_header : list Z; frag_data : seg_map Z; rx_time : Z; mem_size : Z; last_frag_received : bool }.

Definition frag_init : frag := Frag [] [] 0 0 false.

Definition frag_timeout_ms : Z := 30000.
Definition frag_low_thresh : Z := 3 * 1024 * 1024.
Definition frag_high_thresh : Z := 4 * 1024 * 1024.

Section Fragments.
(** [sizeof(packet::impl)] *)
Variable impl_size : Z.

(** [packet::memory()] *)
Definition memory (p : list Z) : Z := u32 (zlen p + impl_size).

(** [frag::merge(h, offset, p)]: the fragment and how much memory it takes more. *)
Definition frag_merge (h : ip_hdr) (offset : Z) (p : list Z) (f : frag) : option (frag * Z) :=
  let old := mem_size f in
  let ip_hdr_len := ihl h * 4 in
  header ← (if offset =? 0 then share_bytes 0 ip_hdr_len p else Some (frag_header f));
  payload ← drop_front ip_hdr_len p;
  '(data, _) ← PacketMerger.merge offset payload (frag_data f);
  let size := fold_left (fun m x => u32 (m + memory (Datatypes.snd x))) data (memory header) in
  Some (Frag header data (rx_time f) size (last_frag_received f), s32 (size - old)).

(** [frag::is_complete()]: undefined for an empty map. *)
Definition is_complete (f : frag) : option bool :=
  match frag_data f with
  | [] => None
  | (offset, _) :: m => Some (last_frag_received f && match m with [] => true | _ => false end && (offset =? 0))
  end.

(** [frag::get_assembled_packet(from, to)]; the header's length and fragment
    fields are overwritten in place. *)
Definition get_assembled_packet (e : endian) (from to : mac) (f : frag) : option packet :=
  match frag_data f with
  | [] => None
  | (_, ip_data) :: _ =>
      let eh := mac_write to ++ mac_write from ++ st e 2 eth_proto_ipv4 in
      let pkt := eh ++ frag_header f ++ ip_data in
      _ ← header_at eth_hdr_len ip_hdr_size pkt;
      let pkt := splice (eth_hdr_len + 2) (host_store e 2 (hton e 2 (u16 (zlen pkt - eth_hdr_len)))) pkt in
      let pkt := splice (eth_hdr_len + 6) [0; 0] pkt in
      Some (Pkt pkt (OffloadInfo 255 false 20 20 8 false true 0 None))
  end.
End Fragments.

(** ** Class [ipv4] *)

(** [ipv4_traits::l4packet] *)
Record l4packet := L4Packet { l4_to : ipv4_address; l4_p : packet; l4_e_dst : mac; l4_proto : Z }.

(** [_l4]: the protocols that the constructor registers. *)
Definition l4_registered (proto : Z) : bool :=
  (proto =? ip_proto_tcp) || (proto =? ip_proto_icmp) || (proto =? ip_proto_udp).

Section Ipv4.
Context {BC : Core.BeCodec} {T : Type} {TM : Core.TimerOps T} {W : Type}.
Variable e : endian.
Variable hw : hw_features.
Variable impl_size : Z.
(** The interface: hardware address, RSS key, the shard of a hash, this shard. *)
Variable hw_address : mac.
Variable rss_key : list Z.
Variable hash2cpu : Z -> Z.
Variable this_shard_id : Z.
(** The packet filter: whether it handles the packet. *)
Variable packet_filter : option (list Z -> ip_hdr -> mac -> bool).

Record ipv4 := Ipv4 {
  ip_arp : arp_for Z T W;
  host_address : ipv4_address; gw_address : ipv4_address; netmask : ipv4_address;
  frags : gmap frag_id frag; frags_age : list frag_id; frag_mem : Z; frag_timer : T;
  ip_packetq : list l3packet; pkt_provider_idx : nat }.

Inductive ip_event :=
  | IpDeliver (proto : Z) (p : list Z) (src dst : ipv4_address)   (* [l4->received] *)
  | IpArp (ev : arp_event Z W)
  | IpForward (cpu : Z) (p : packet).

Definition set_arp a (s : ipv4) := Ipv4 a (host_address s) (gw_address s) (netmask s) (frags s) (frags_age s) (frag_mem s) (frag_timer s) (ip_packetq s) (pkt_provider_idx s).
Definition set_frags f g m (s : ipv4) := Ipv4 (ip_arp s) (host_address s) (gw_address s) (netmask s) f g m (frag_timer s) (ip_packetq s) (pkt_provider_idx s).
Definition set_frag_timer t (s : ipv4) := Ipv4 (ip_arp s) (host_address s) (gw_address s) (netmask s) (frags s) (frags_age s) (frag_mem s) t (ip_packetq s) (pkt_provider_idx s).
Definition set_packetq q (s : ipv4) := Ipv4 (ip_arp s) (host_address s) (gw_address s) (netmask s) (frags s) (frags_age s) (frag_mem s) (frag_timer s) q (pkt_provider_idx s).
Definition set_provider_idx i (s : ipv4) := Ipv4 (ip_arp s) (host_address s) (gw_address s) (netmask s) (frags s) (frags_age s) (frag_mem s) (frag_timer s) (ip_packetq s) i.

(** [ipv4(netif)] *)
Definition ipv4_init : ipv4 := Ipv4 arp_for_init 0 0 0 ∅ [] 0 tm_idle [] 0.

Definition set_host_address (ip : ipv4_address) (s : ipv4) : ipv4 :=
  Ipv4 (set_self_addr hw_address ip (ip_arp s)) ip (gw_address s) (netmask s) (frags s) (frags_age s) (frag_mem s) (frag_timer s) (ip_packetq s) (pkt_provider_idx s).
Definition set_gw_address (ip : ipv4_address) (s : ipv4) : ipv4 :=
  Ipv4 (ip_arp s) (host_address s) ip (netmask s) (frags s) (frags_age s) (frag_mem s) (frag_timer s) (ip_packetq s) (pkt_provider_idx s).
Definition set_netmask_address (ip : ipv4_address) (s : ipv4) : ipv4 :=
  Ipv4 (ip_arp s) (host_address s) (gw_address s) ip (frags s) (frags_age s) (frag_mem s) (frag_timer s) (ip_packetq s) (pkt_provider_idx s).

Definition in_my_netmask (a : ipv4_address) (s : ipv4) : bool := Z.land (Z.lxor a (host_address s)) (netmask s) =? 0.

(** [get_l2_dst_address(to)] *)
Definition get_l2_dst_address (now : Z) (w : W) (to : ipv4_address) (s : ipv4) : ipv4 * list ip_event * lookup_result :=
  let dst := if in_my_netmask to s then to else gw_address s in
  let '(a, es, r) := arp_lookup hw_address now w dst (ip_arp s) in
  (set_arp a s, map IpArp es, r).

Definition ipv4_learn (l2 : mac) (l3 : ipv4_address) (s : ipv4) : ipv4 * list ip_event :=
  let '(a, es) := learn l2 l3 (ip_arp s) in (set_arp a s, map IpArp es).

(** *** Reassembly memory *)

Definition frag_drop (id : frag_id) (dropped_size : Z) (s : ipv4) : ipv4 :=
  set_frags (delete id (frags s)) (frags_age s) (u32 (frag_mem s - dropped_size)) s.

Definition frag_arm (now : Z) (s : ipv4) : ipv4 := set_frag_timer (tm_rearm (now + frag_timeout_ms) (frag_timer s)) s.

(** [_frags[id]] *)
Definition frag_at (id : frag_id) (s : ipv4) : frag := default frag_init (frags s !! id).

(** The loop of [frag_limit_mem()] over the oldest fragments. *)
Fixpoint drop_oldest (age : list frag_id) (drop : Z) (s : ipv4) : ipv4 :=
  if drop =? 0 then set_frags (frags s) age (frag_mem s) s
  else match age with
  | [] => set_frags (frags s) [] (frag_mem s) s
  | id :: age' =>
      let dropped_size := mem_size (frag_at id s) in
      drop_oldest age' (drop - Z.min drop dropped_size) (frag_drop id dropped_size s)
  end.

Definition frag_limit_mem (s : ipv4) : ipv4 :=
  if frag_mem s <=? frag_high_thresh then s
  else drop_oldest (frags_age s) (u32 (frag_mem s - frag_low_thresh)) s.

(** The loop of [frag_timeout()]: the fragments whose time is over. *)
Fixpoint drop_expired (now : Z) (age : list frag_id) (s : ipv4) : ipv4 :=
  match age with
  | [] => set_frags (frags s) [] (frag_mem s) s
  | id :: age' =>
      let f := frag_at id s in
      if rx_time f + frag_timeout_ms <? now
      then drop_expired now age' (frag_drop id (mem_size f) s)
      else set_frags (frags s) age (frag_mem s) s
  end.

Definition frag_timeout (now : Z) (s : ipv4) : ipv4 :=
  if decide (frags s = ∅) then s
  else
    let s := drop_expired now (frags_age s) s in
    if decide (frags s = ∅) then set_frags (frags s) (frags_age s) 0 s else frag_arm now s.

(** *** Receiving *)

(** [l4->forward(hash_data, ip_data, off)]; the result of the code is always true. *)
Definition l4_forward (proto : Z) (h : forward_hash) (p : list Z) (off : Z) : option forward_hash :=
  if proto =? ip_proto_tcp then
    match header_at off 20 p with
    | Some th => h ← push_back_u8 h (nth 0 th 0); h ← push_back_u8 h (nth 1 th 0);
                 h ← push_back_u8 h (nth 2 th 0); push_back_u8 h (nth 3 th 0)
    | None => Some h
    end
  else if proto =? ip_proto_udp then
    match header_at off 8 p with
    | Some uh => h ← push_back_u16 h (host_load e (slice 0 2 uh)); push_back_u16 h (host_load e (slice 2 2 uh))
    | None => Some h
    end
  else Some h.

(** [forward(out_hash_data, p, off)]: the null pointer of a short packet is dereferenced. *)
Definition ipv4_forward (out : forward_hash) (p : list Z) (off : Z) : option forward_hash :=
  ih ← header_at off ip_hdr_size p;
  out ← push_back_u32 out (host_load e (slice 12 4 ih));
  out ← push_back_u32 out (host_load e (slice 16 4 ih));
  let h := ip_hdr_read e ih in
  if l4_registered (ip_proto h) && negb (mf_of h) && (offset_of h =? 0)
  then l4_forward (ip_proto h) out p (off + ip_hdr_size)
  else Some out.

(** A complete datagram goes to the protocol, here or on the shard of its hash. *)
Definition dispatch (h : ip_hdr) (f : frag) (ip_data : list Z) (from : mac) : option (list ip_event) :=
  if l4_registered (ip_proto h) then
    hd ← push_back_u32 [] (hton e 4 (src_ip h));
    hd ← push_back_u32 hd (hton e 4 (dst_ip h));
    hd ← l4_forward (ip_proto h) hd ip_data 0;
    let cpu := hash2cpu (toeplitz_hash rss_key hd) in
    if cpu =? this_shard_id then Some [IpDeliver (ip_proto h) ip_data (src_ip h) (dst_ip h)]
    else pkt ← get_assembled_packet e from hw_address f; Some [IpForward cpu pkt]
  else Some [].

(** A datagram that needs reassembly. *)
Definition handle_fragment (now : Z) (h : ip_hdr) (p : list Z) (from : mac) (s : ipv4) : option (ipv4 * list ip_event) :=
  let s := frag_limit_mem s in
  let id := frag_id_of h in
  let f := frag_at id s in
  let f := if mf_of h then f else Frag (frag_header f) (frag_data f) (rx_time f) (mem_size f) true in
  let '(f, age) := if mem_size f =? 0
                   then (Frag (frag_header f) (frag_data f) now (mem_size f) (last_frag_received f), frags_age s ++ [id])
                   else (f, frags_age s) in
  '(f, added_size) ← frag_merge impl_size h (offset_of h) p f;
  let s := set_frags (<[id := f]> (frags s)) age (u32 (frag_mem s + added_size)) s in
  complete ← is_complete f;
  if (complete : bool) then
    match frag_data f with
    | (_, ip_data) :: _ =>
        es ← dispatch h f ip_data from;
        let s := frag_drop id (mem_size f) s in
        Some (set_frags (frags s) (List.filter (fun i => negb (bool_decide (i = id))) (frags_age s)) (frag_mem s) s, es)
    | [] => None
    end
  else Some (if tm_armed (frag_timer s) then s else frag_arm now s, []).

(** The checks on the length: the datagram without what follows it, [None] when it
    is dropped. *)
Definition ip_accept (h : ip_hdr) (p : list Z) : option (list Z) :=
  if zlen p <? ip_len h then None
  else
    let p := if ip_len h <? zlen p then take (Z.to_nat (ip_len h)) p else p in
    if ip_packet_len_max <? offset_of h + zlen p then None else Some p.

(** [handle_received_packet(p, from)] *)
Definition handle_received_packet (now : Z) (p : packet) (from : mac) (s : ipv4) : option (ipv4 * list ip_event) :=
  match header_at 0 ip_hdr_size (bytes p) with
  | None => Some (s, [])
  | Some ih =>
      csum_ok ← (if negb (rx_csum_offload hw) && negb (reassembled (info p))
                 then c ← sum e checksummer_init ih; Some (get e c =? 0) else Some true);
      if negb csum_ok then Some (s, [])
      else
        let h := ip_hdr_read e ih in
        match ip_accept h (bytes p) with
        | None => Some (s, [])
        | Some q =>
            let '(s, es) := if in_my_netmask (src_ip h) s && negb (src_ip h =? host_address s)
                            then ipv4_learn from (src_ip h) s else (s, []) in
            if match packet_filter with Some handle => handle q h from | None => false end then Some (s, es)
            else if negb (dst_ip h =? host_address s) then Some (s, es)
            else if mf_of h || negb (offset_of h =? 0) then
              '(s, es') ← handle_fragment now h q from s; Some (s, es ++ es')
            else if l4_registered (ip_proto h) then
              q ← drop_front (ihl h * 4) q;
              Some (s, es ++ [IpDeliver (ip_proto h) q (src_ip h) (dst_ip h)])
            else Some (s, es)
        end
  end.

(** *** Sending *)

(** The lambda [send_pkt]. *)
Definition send_pkt (frag : bool) (to : ipv4_address) (proto : Z) (e_dst : mac) (p : packet) (remaining offset : Z) (s : ipv4) : option ipv4 :=
  let frag_field := if frag then Z.lor (Z.shiftl (Z.b2z (0 <? remaining)) 13) (offset / 8) else 0 in
  let h := IpHdr 5 4 0 0 (u16 (plen p + ip_hdr_size)) 0 frag_field 64 (u8 proto) 0 (host_address s) to in
  let ih := ip_hdr_write e h in
  '(ih, oi) ← (if tx_csum_ip_offload hw
               then let i := info p in
                    Some (ih, OffloadInfo (protocol i) (needs_csum i) (Packet.ip_hdr_len i) (tcp_hdr_len i) (udp_hdr_len i)
                                          true (reassembled i) (tso_seg_size i) (vlan_tci i))
               else c ← sum e checksummer_init ih;
                    Some (splice 10 (host_store e 2 (get e c)) ih, info p));
  Some (set_packetq (ip_packetq s ++ [L3Packet eth_proto_ipv4 e_dst (Pkt (ih ++ bytes p) oi)]) s).

(** The loop over the fragments, which share the packet and its offload information. *)
Fixpoint send_frags (fuel : nat) (to : ipv4_address) (proto : Z) (e_dst : mac) (p : packet) (remaining offset : Z) (s : ipv4) : option ipv4 :=
  if remaining =? 0 then Some s
  else match fuel with
  | O => None
  | S fuel =>
      let can_send := Z.min (u16 (mtu hw - ipv4_hdr_len_min)) remaining in
      let remaining := remaining - can_send in
      q ← share_bytes offset can_send (bytes p);
      s ← send_pkt true to proto e_dst (Pkt q (info p)) remaining offset s;
      send_frags fuel to proto e_dst p remaining (u16 (offset + can_send)) s
  end.

(** [send(to, proto_num, p, e_dst)] *)
Definition ipv4_send (to : ipv4_address) (proto : Z) (p : packet) (e_dst : mac) (s : ipv4) : option ipv4 :=
  if needs_frag (plen p) proto hw then send_frags (Z.to_nat (u16 (plen p))) to proto e_dst p (u16 (plen p)) 0 s
  else send_pkt false to proto e_dst p 0 0 s.

(** *** The poll *)

Section Poll.
(** The layers above, and their packet providers. *)
Context {L : Type}.
Variable providers : list (L -> option l4packet * L).

(** The loop of [get_packet()] over the providers, [n] of them still to ask. *)
Fixpoint poll_providers (n : nat) (s : ipv4) (l : L) : option (ipv4 * L) :=
  match n with
  | O => Some (s, l)
  | S n =>
      match nth_error providers (pkt_provider_idx s) with
      | None => None
      | Some provider =>
          let '(l4p, l) := provider l in
          let idx := S (pkt_provider_idx s) in
          let s := set_provider_idx (if Nat.eqb idx (length providers) then O else idx) s in
          match l4p with
          | Some p => s ← ipv4_send (l4_to p) (l4_proto p) (l4_p p) (l4_e_dst p) s; Some (s, l)
          | None => poll_providers n s l
          end
      end
  end.

Definition ipv4_get_packet (s : ipv4) (l : L) : option (option l3packet * ipv4 * L) :=
  '(s, l) ← (match ip_packetq s with [] => poll_providers (length providers) s l | _ => Some (s, l) end);
  match ip_packetq s with
  | [] => Some (None, s, l)
  | p :: q => Some (Some p, set_packetq q s, l)
  end.
End Poll.
End Ipv4.
