(* ===== verification/IpHeader.v ===== *)
(** * The IPv4 header: round trip, ranges, checksum *)

From S2P Require Import Prelude Core ByteOrder Checksum Toeplitz Packet Net Inet PacketMerger Arp Ipv4.
From stdpp Require Import base numbers option list.

#[local] Open Scope Z_scope.

Section Header.
Variable e : endian.

(** ** Packed fields *)

Lemma st_ok n v : scalar_width n -> is_uint (8 * Z.of_nat n) v -> st e n v = be_bytes n v.
Proof. intros. unfold st. by apply host_store_hton. Qed.

Lemma ntoh_be_bytes n v :
  scalar_width n -> is_uint (8 * Z.of_nat n) v -> ntoh e n (host_load e (be_bytes n v)) = v.
Proof.
  intros Hw Hv. rewrite <- (length_be_bytes n v) at 1. rewrite ntoh_host_load.
  - rewrite be_val_be_bytes. by apply Z.mod_small.
  - by rewrite length_be_bytes.
  - apply be_bytes_range.
Qed.

Lemma st2 v : is_uint 16 v -> exists a b, st e 2 v = [a; b] /\ ntoh e 2 (host_load e [a; b]) = v.
Proof.
  intros Hv. assert (scalar_width 2) as Hw by (right; by left). rewrite st_ok by done.
  pose proof (ntoh_be_bytes 2 v Hw Hv) as H. eexists _, _. split; [reflexivity|exact H].
Qed.

Lemma st4 v : is_uint 32 v -> exists a b c d, st e 4 v = [a; b; c; d] /\ ntoh e 4 (host_load e [a; b; c; d]) = v.
Proof.
  intros Hv. assert (scalar_width 4) as Hw by (right; right; by left). rewrite st_ok by done.
  pose proof (ntoh_be_bytes 4 v Hw Hv) as H. eexists _, _, _, _. split; [reflexivity|exact H].
Qed.

Lemma fld_range n off p :
  scalar_width n -> 0 <= off -> off + Z.of_nat n <= zlen p -> Forall is_byte p -> is_uint (8 * Z.of_nat n) (fld e n off p).
Proof.
  intros Hw H0 Hl Hb. unfold fld.
  assert (El : length (slice off (Z.of_nat n) p) = n).
  { pose proof (zlen_slice p off (Z.of_nat n) H0 ltac:(lia) ltac:(lia)) as E. unfold zlen in E. lia. }
  assert (Hs : Forall is_byte (slice off (Z.of_nat n) p)) by (by apply Forall_take, Forall_drop).
  rewrite <- El at 1 2. rewrite ntoh_host_load by (rewrite ?El; done).
  pose proof (be_val_range _ Hs) as H. unfold zlen in H. rewrite El in *. exact H.
Qed.

(** ** Bit fields *)

Lemma bits_round w lo hi :
  0 < w < 8 -> is_uint w lo -> is_uint (8 - w) hi ->
  bits_lo e w (bits_pack e w lo hi) = lo /\ bits_hi e w (bits_pack e w lo hi) = hi /\ is_byte (bits_pack e w lo hi).
Proof.
  intros Hw [Hl1 Hl2] [Hh1 Hh2]. assert (Hp : 2 ^ 8 = 2 ^ w * 2 ^ (8 - w)) by (rewrite <- Z.pow_add_r by lia; f_equal; lia).
  assert (Hor : forall k a b, 0 <= k -> 0 <= a < 2 ^ k -> 0 <= b -> Z.lor a (Z.shiftl b k) = a + b * 2 ^ k).
  { intros k a b Hk Ha Hb. rewrite <- Z.add_lor_land, Z.shiftl_mul_pow2 by lia.
    enough (Z.land a (b * 2 ^ k) = 0) as -> by lia. rewrite <- Z.shiftl_mul_pow2 by lia.
    apply Z.bits_inj'. intros n Hn. rewrite Z.land_spec, Z.bits_0, Z.shiftl_spec by lia.
    destruct (Z.ltb_spec n k); [rewrite (Z.testbit_neg_r b) by lia; apply andb_false_r|].
    replace a with (a mod 2 ^ k) by (apply Z.mod_small; lia). by rewrite Z.mod_pow2_bits_high by lia. }
  assert (0 < 2 ^ w) by (apply Z.pow_pos_nonneg; lia). assert (0 < 2 ^ (8 - w)) by (apply Z.pow_pos_nonneg; lia).
  unfold bits_lo, bits_hi, bits_pack, is_uint. destruct e.
  - rewrite Hor by lia. rewrite Z.land_ones, Z.shiftr_div_pow2 by lia.
    rewrite Z.mod_add, Z.div_add by lia. rewrite Z.mod_small, Z.div_small by lia. split_and!; [lia|lia|nia|nia].
  - rewrite Z.lor_comm, Hor by lia. rewrite Z.land_ones, Z.shiftr_div_pow2 by lia.
    rewrite Z.mod_add, Z.div_add by lia. rewrite Z.mod_small, Z.div_small by lia. split_and!; [lia|lia|nia|nia].
Qed.

Lemma bits_range w b : 0 < w < 8 -> is_byte b -> is_uint w (bits_lo e w b) /\ is_uint (8 - w) (bits_hi e w b).
Proof.
  intros Hw [Hb1 Hb2]. assert (Hp : 2 ^ 8 = 2 ^ w * 2 ^ (8 - w)) by (rewrite <- Z.pow_add_r by lia; f_equal; lia).
  assert (0 < 2 ^ w) by (apply Z.pow_pos_nonneg; lia). assert (0 < 2 ^ (8 - w)) by (apply Z.pow_pos_nonneg; lia).
  unfold bits_lo, bits_hi, is_uint. destruct e; rewrite Z.land_ones, Z.shiftr_div_pow2 by lia;
    (split; [|]); first [apply Z.mod_pos_bound; lia | split; [apply Z.div_pos; lia|apply Z.div_lt_upper_bound; lia]].
Qed.

(** ** The header *)

Definition ip_hdr_ok (h : ip_hdr) : Prop :=
  is_uint 4 (ihl h) /\ is_uint 4 (ver h) /\ is_uint 6 (dscp h) /\ is_uint 2 (ecn h) /\ is_uint 16 (ip_len h) /\
  is_uint 16 (ip_id h) /\ is_uint 16 (ip_frag h) /\ is_byte (ttl h) /\ is_byte (ip_proto h) /\ is_uint 16 (ip_csum h) /\
  is_uint 32 (src_ip h) /\ is_uint 32 (dst_ip h).

Lemma ip_read_write h rest : ip_hdr_ok h -> ip_hdr_read e (ip_hdr_write e h ++ rest) = h.
Proof.
  destruct h as [hl v ds ec ln id fr tt pr cs sr dt]. intros (H1 & H2 & H3 & H4 & H5 & H6 & H7 & _ & _ & H10 & H11 & H12). cbn in *.
  destruct (bits_round 4 hl v) as (L1 & L2 & _); [done..|]. destruct (bits_round 6 ds ec) as (L3 & L4 & _); [done..|].
  destruct (st2 _ H5) as (? & ? & E5 & R5), (st2 _ H6) as (? & ? & E6 & R6), (st2 _ H7) as (? & ? & E7 & R7),
    (st2 _ H10) as (? & ? & E10 & R10), (st4 _ H11) as (? & ? & ? & ? & E11 & R11), (st4 _ H12) as (? & ? & ? & ? & E12 & R12).
  unfold ip_hdr_write. cbn [ihl ver dscp ecn ip_len ip_id ip_frag ttl ip_proto ip_csum src_ip dst_ip].
  rewrite E5, E6, E7, E10, E11, E12. unfold ip_hdr_read, fld. cbn [app nth].
  rewrite L1, L2, L3, L4. 
  unfold slice.
  change (Z.to_nat (Z.of_nat 2)) with 2%nat. change (Z.to_nat (Z.of_nat 4)) with 4%nat. change (Z.to_nat 2) with 2%nat.
  change (Z.to_nat 4) with 4%nat. change (Z.to_nat 6) with 6%nat. change (Z.to_nat 10) with 10%nat.
  change (Z.to_nat 12) with 12%nat. change (Z.to_nat 16) with 16%nat. cbn [take drop]. rewrite take_0.
  by rewrite R5, R6, R7, R10, R11, R12.
Qed.

Lemma length_ip_hdr_write h : zlen (ip_hdr_write e h) = ip_hdr_size.
Proof.
  unfold ip_hdr_write, ip_hdr_size, st, zlen, host_store. rewrite !length_app.
  destruct e; rewrite ?length_rev, !length_be_bytes; done.
Qed.

(** What is read is in range. *)
Lemma ip_hdr_read_ok p : Forall is_byte p -> ip_hdr_size <= zlen p -> ip_hdr_ok (ip_hdr_read e p).
Proof.
  unfold ip_hdr_size. intros Hb Hl.
  assert (Hn : forall i, (i < 20)%nat -> is_byte (nth i p 0)).
  { intros i Hi. rewrite Forall_nth in Hb. apply Hb. unfold zlen in Hl. lia. }
  pose proof (bits_range 4 _ ltac:(lia) (Hn 0%nat ltac:(lia))) as [R1 R2].
  pose proof (bits_range 6 _ ltac:(lia) (Hn 1%nat ltac:(lia))) as [R3 R4].
  assert (W2 : forall off, 0 <= off -> off + 2 <= 20 -> is_uint 16 (fld e 2 off p)).
  { intros off H0 H1. apply (fld_range 2); [right; by left|done|lia|done]. }
  assert (W4 : forall off, 0 <= off -> off + 4 <= 20 -> is_uint 32 (fld e 4 off p)).
  { intros off H0 H1. apply (fld_range 4); [right; right; by left|done|lia|done]. }
  unfold ip_hdr_ok, ip_hdr_read. cbn [ihl ver dscp ecn ip_len ip_id ip_frag ttl ip_proto ip_csum src_ip dst_ip].
  refine (conj _ (conj _ (conj _ (conj _ (conj _ (conj _ (conj _ (conj _ (conj _ (conj _ (conj _ _)))))))))));
    [exact R1|exact R2|exact R3|exact R4|apply W2; lia|apply W2; lia|apply W2; lia|apply Hn; lia|apply Hn; lia
    |apply W2; lia|apply W4; lia|apply W4; lia].
Qed.

(** The header of an IPv4 packet that is read from the bytes written for it is
    the header, on a host of either byte order. *)
Theorem ip_hdr_read_write h rest : ip_hdr_ok h -> ip_hdr_read e (ip_hdr_write e h ++ rest) = h.
Proof. apply ip_read_write. Qed.
End Header.

Lemma ip_hdr_read_write_witness :
  let h := IpHdr 5 4 0 0 1500 7 8192 64 17 0 167772161 167772162 in
  ip_hdr_ok h /\ ip_hdr_read LittleEndian (ip_hdr_write LittleEndian h ++ [1; 2]) = h.
Proof.
  intros h. assert (H : ip_hdr_ok h) by (repeat split; vm_compute; congruence).
  split; [exact H|]. exact (ip_hdr_read_write LittleEndian h [1; 2] H).
Defined.
