(* ===== verification/Reassembly.v ===== *)
(** * Reassembly: the fragments of a datagram

    Merging never depends on what the bytes are, so the structure of the
    fragment map and its memory accounting hold for any fragments, also for
    inconsistent ones; and the fragments of one datagram are complete exactly
    when all of it has arrived, and give its bytes. *)

From Stdlib Require Import Sorting.Sorted.
From S2P Require Import Prelude Core ByteOrder Checksum Toeplitz Packet Net Inet PacketMerger Arp Ipv4.
From stdpp Require Import base numbers option gmap list.

#[local] Open Scope Z_scope.

(** ** Merging does not look at the bytes *)

Section Map.
Context {O : Type} {OO : OffsetOps O} (g : Z -> Z).

Definition map_seg (s : O * list Z) : O * list Z := (fst s, map g (snd s)).

Lemma trim_map n p : trim n (map g p) = map g <$> trim n p.
Proof.
  unfold trim, zlen. rewrite length_map. destruct (_ && _)%bool; [|done]. cbn. by rewrite skipn_map.
Qed.

Definition map_scan (r : scan O) : scan O :=
  match r with Covered => Covered | Inserting m p => Inserting (map map_seg m) (map g p) | Kept m => Kept (map map_seg m) end.

Lemma merge_scan_map b p m : merge_scan b (map g p) (map map_seg m) = map_scan <$> merge_scan b p m.
Proof.
  induction m as [|[c q] m IH]; cbn [merge_scan map map_seg fst snd]; [done|].
  unfold zlen. rewrite !length_map. destruct (_ && _)%bool; [done|]. destruct (_ && _)%bool; [done|].
  destruct (_ && _)%bool.
  { rewrite trim_map. destruct (trim _ q); cbn; [|done]. by rewrite map_app. }
  destruct (_ && _)%bool.
  { rewrite trim_map. destruct (trim _ p); cbn; [|done]. unfold map_seg at 2. cbn. by rewrite map_app. }
  rewrite IH. destruct (merge_scan b p m) as [r|]; [|done]. by destruct r.
Qed.

Lemma emplace_map b p m : emplace b (map g p) (map map_seg m) = map map_seg (emplace b p m).
Proof.
  induction m as [|[c q] m IH]; cbn [emplace map map_seg fst snd]; [done|].
  destruct (o_lt b c); [done|]. destruct (o_lt c b); [|done]. cbn. by rewrite IH.
Qed.

Lemma merge_adjacent_map b p m : merge_adjacent b (map g p) (map map_seg m) = map map_seg <$> merge_adjacent b p m.
Proof.
  revert b p. induction m as [|[c q] m IH]; intros b p; cbn [merge_adjacent map map_seg fst snd]; [done|].
  unfold zlen. rewrite !length_map. destruct (_ && _)%bool.
  { rewrite trim_map. destruct (trim _ q); cbn; [|done]. by rewrite <- map_app, IH. }
  destruct (o_le _ _); [apply IH|]. destruct (o_lt _ _); [|done]. rewrite IH.
  by destruct (merge_adjacent c q m).
Qed.

Lemma merge_map b p m :
  PacketMerger.merge b (map g p) (map map_seg m) = (fun r => (map map_seg (fst r), snd r)) <$> PacketMerger.merge b p m.
Proof.
  unfold PacketMerger.merge. rewrite merge_scan_map. destruct (merge_scan b p m) as [r|]; [|done]. cbn.
  assert (Hadj : forall l : seg_map O,
    match map map_seg l with [] => Some ([], 1) | (c, q) :: rest => x ← merge_adjacent c q rest; Some (x, 1) end =
    (fun r => (map map_seg (fst r), snd r)) <$>
      match l with [] => Some ([], 1) | (c, q) :: rest => x ← merge_adjacent c q rest; Some (x, 1) end).
  { intros [|[c q] l]; [done|]. cbn. rewrite merge_adjacent_map. by destruct (merge_adjacent c q l). }
  destruct r as [|m1 p1|m1]; cbn; [done| |apply Hadj].
  rewrite emplace_map. apply Hadj.
Qed.
End Map.

(** The result is never empty. *)
Section Nonempty.
Context {O : Type} {OO : OffsetOps O}.

Lemma merge_adjacent_nonempty b p (m : seg_map O) m' : merge_adjacent b p m = Some m' -> m' <> [].
Proof.
  revert b p m'. induction m as [|[c q] m IH]; intros b p m'; cbn [merge_adjacent]; [by intros [= <-]|].
  destruct (_ && _)%bool; [destruct (trim _ q); [apply IH|done]|]. destruct (o_le _ _); [apply IH|].
  destruct (o_lt _ _); [|done]. destruct (merge_adjacent c q m); [|done]. by intros [= <-].
Qed.

Lemma merge_scan_nonempty b p (m : seg_map O) r :
  merge_scan b p m = Some r -> match r with Covered => m <> [] | Inserting _ _ => True | Kept m' => m' <> [] end.
Proof.
  revert r. induction m as [|[c q] m IH]; intros r; cbn [merge_scan]; [by intros [= <-]|].
  destruct (_ && _)%bool; [by intros [= <-]|]. destruct (_ && _)%bool; [by intros [= <-]|].
  destruct (_ && _)%bool; [destruct (trim _ q); [by intros [= <-]|done]|].
  destruct (_ && _)%bool; [destruct (trim _ p); [by intros [= <-]|done]|].
  destruct (merge_scan b p m) as [r'|]; [|done]. intros [= <-]. by destruct r'.
Qed.

Lemma merge_nonempty b p (m : seg_map O) m' n : PacketMerger.merge b p m = Some (m', n) -> m' <> [].
Proof.
  unfold PacketMerger.merge. destruct (merge_scan b p m) as [r|] eqn:E; [|done]. cbn.
  apply merge_scan_nonempty in E.
  assert (Hadj : forall l, l <> [] -> match l with [] => Some ([], 1) | (c, q) :: rest =>
     x ← merge_adjacent c q rest; Some (x, 1) end = Some (m', n) -> m' <> []).
  { intros [|[c q] l] Hl; [done|]. destruct (merge_adjacent c q l) eqn:Ea; [|done]. intros [= <- _].
    by eapply merge_adjacent_nonempty. }
  destruct r as [|m1 p1|m1]; [by intros [= <- _]|apply Hadj|by apply Hadj].
  destruct m1 as [|[c q] m1]; cbn; [done|]. destruct (o_lt b c); [done|]. by destruct (o_lt c b).
Qed.
End Nonempty.

(** ** The structure of a fragment map *)

Abbreviation upos := (fun a : Z => a).
Abbreviation in_u32 := (is_uint 32).

Lemma uint32_window_to hi : hi < 2 ^ 32 -> OffsetWindow uint32_offset upos in_u32 hi.
Proof.
  intros Hhi. unfold is_uint. split; cbn; intros; try done.
  - rewrite wrap_small by lia. lia.
  - apply wrap_small. lia.
Qed.

(** Segments within [[0, 65535]], in order and with gaps. *)
Definition zeros (m : seg_map Z) : seg_map Z := map (map_seg (fun _ => 0)) m.
Definition gapped (m : seg_map Z) : Prop :=
  merged (pos := upos) (inw := in_u32) (hi := 65535) (fun _ => 0) (zeros m).

Lemma map_const_range (p : list Z) off : map (fun _ => 0) p = range (fun _ => 0) off (zlen p).
Proof.
  unfold range, zlen. rewrite Nat2Z.id. clear. induction p as [|x p IH]; [done|].
  cbn [map length seq]. f_equal. rewrite IH. rewrite <- seq_shift, map_map. done.
Qed.

(** Merging any bytes within the window never fails. *)
Lemma merge_gapped off (p : list Z) m :
  0 <= off -> off + zlen p <= 65535 -> gapped m ->
  exists m' lin, PacketMerger.merge off p m = Some (m', lin) /\ gapped m' /\ m' <> [].
Proof.
  intros H0 H1 Hm. pose proof (uint32_window_to 65535 ltac:(done)) as W.
  destruct (merge_spec (W := W) (fun _ => 0) off (zlen p) (zeros m)) as (m' & lin & E & Hm' & Hc); try done.
  { unfold is_uint. pow2. pose proof (zlen_nonneg p). lia. }
  { apply zlen_nonneg. }
  change (upos off) with off in E. rewrite <- map_const_range in E. unfold zeros in E. rewrite merge_map in E.
  destruct (PacketMerger.merge off p m) as [[m1 n1]|] eqn:Em; [|done]. cbn in E. injection E as E <-.
  exists m1, n1. split_and!; [done|unfold gapped, zeros; by rewrite E|by eapply merge_nonempty].
Qed.

(** The bytes and the gaps fit the window. *)
Definition extent (m : seg_map Z) : Z := foldr (fun s n => zlen (snd s) + 1 + n) 0 m.

Lemma extent_bound m lo :
  gapped m -> 0 <= lo <= 65536 -> Forall (fun s => lo <= fst s) m -> extent m <= 65536 - lo.
Proof.
  unfold gapped. revert lo. induction m as [|[b p] m IH]; intros lo Hm Hlo Hf; cbn [extent foldr]; [lia|].
  change (zeros ((b, p) :: m)) with (map_seg (fun _ => 0) (b, p) :: zeros m) in Hm. destruct Hm as [H1 H2].
  apply Forall_cons in H1 as [(Hb & He & _) H1]. apply StronglySorted_inv in H2 as [H2 Ha].
  apply Forall_cons in Hf as [Hl Hf]. unfold seg_end, map_seg in He. cbn [fst snd] in *. unfold zlen in He. rewrite length_map in He.
  fold (zlen p) in He. pose proof (zlen_nonneg p).
  enough (extent m <= 65536 - (b + zlen p + 1)) by (unfold extent in *; lia).
  apply IH; [done|lia|]. unfold zeros in Ha. rewrite Forall_map in Ha. eapply Forall_impl; [exact Ha|]. intros s Hs. unfold apart, seg_end, map_seg in Hs. cbn [fst snd] in Hs.
  unfold zlen in *. rewrite length_map in Hs. lia.
Qed.

(** ** One fragment *)

Section Frag.
Variable impl_size : Z.
Hypothesis impl_size_ok : 0 < impl_size < 2 ^ 14.
(** The least length of the headers that arrive: what the code never checks. *)
Variable hdr_min : Z.

(** The most memory that one datagram in reassembly takes. *)
Definition frag_max : Z := 60 + impl_size + 65536 * (impl_size + 1).

(** What holds of every fragment in the table: it has the header of the first
    piece when it has that piece. *)
Definition has_header (hd : list Z) (m : seg_map Z) : Prop :=
  Forall (fun s => fst s <> 0 \/ hdr_min <= zlen hd) m.
Definition frag_ok (f : frag) : Prop :=
  gapped (frag_data f) /\ zlen (frag_header f) <= 60 /\ 0 <= mem_size f <= frag_max /\
  has_header (frag_header f) (frag_data f).

Lemma frag_init_ok : frag_ok frag_init.
Proof.
  unfold frag_ok, frag_max. cbn. split_and!; [by split; constructor|by vm_compute|done|lia|constructor].
Qed.

Definition data_memory (m : seg_map Z) : Z := foldr (fun s n => zlen (snd s) + impl_size + n) 0 m.

Lemma extent_nonneg m : 0 <= extent m.
Proof. induction m as [|s m IH]; cbn [extent foldr]; [lia|]. pose proof (zlen_nonneg (snd s)). unfold extent in IH. lia. Qed.

Lemma data_memory_bound m : 0 <= data_memory m <= extent m * (impl_size + 1).
Proof.
  induction m as [|s m IH]; [cbn; lia|]. cbn [data_memory extent foldr]. pose proof (zlen_nonneg (snd s)).
  fold (extent m). fold (data_memory m). pose proof (extent_nonneg m). nia.
Qed.

Lemma memory_fold m acc :
  0 <= acc -> acc + data_memory m < 2 ^ 32 ->
  fold_left (fun n x => u32 (n + memory impl_size (snd x))) m acc = acc + data_memory m.
Proof.
  revert acc. induction m as [|s m IH]; intros acc Ha Hb; [cbn; lia|].
  cbn [data_memory foldr fold_left] in *. fold (data_memory m) in *. pose proof (data_memory_bound m).
  pose proof (zlen_nonneg (snd s)). unfold memory. rewrite (wrap_small 32 (zlen _ + _)) by (pow2; lia).
  rewrite wrap_small by (pow2; lia). rewrite IH by lia. lia.
Qed.

Lemma gapped_extent m : gapped m -> extent m <= 65536.
Proof.
  intros Hm. pose proof (extent_bound m 0 Hm ltac:(lia)) as H. rewrite Z.sub_0_r in H. apply H.
  destruct Hm as [H1 _]. unfold zeros in H1. rewrite Forall_map in H1.
  eapply Forall_impl; [exact H1|]. intros s ([? ?] & _). done.
Qed.

(** Merging a fragment whose header fits never fails, whatever it overlaps. *)
Lemma frag_merge_total h offset p f :
  0 <= ihl h <= 15 -> hdr_min <= ihl h * 4 <= zlen p -> 0 <= offset -> offset + zlen p <= 65535 -> frag_ok f ->
  exists f' lin, frag_merge impl_size h offset p f = Some (f', s32 (mem_size f' - mem_size f)) /\
    frag_ok f' /\ 0 < mem_size f' /\ frag_data f' <> [] /\
    PacketMerger.merge offset (drop (Z.to_nat (ihl h * 4)) p) (frag_data f) = Some (frag_data f', lin) /\
    f' = Frag (if offset =? 0 then take (Z.to_nat (ihl h * 4)) p else frag_header f) (frag_data f') (rx_time f)
              (mem_size f') (last_frag_received f).
Proof.
  intros Hi Hl Ho Hb (Hg & Hh & Hm & Hk). change (2 ^ 14) with 16384 in *. unfold frag_merge.
  set (hd := if offset =? 0 then take (Z.to_nat (ihl h * 4)) p else frag_header f).
  assert (Hhdr : (if offset =? 0 then share_bytes 0 (ihl h * 4) p else Some (frag_header f)) = Some hd).
  { unfold hd. destruct (offset =? 0); [|done]. by rewrite share_bytes_ok, share_front by lia. }
  assert (Hhd : zlen hd <= 60) by (unfold hd; destruct (offset =? 0); rewrite ?zlen_take by lia; lia).
  rewrite Hhdr. cbn [mbind option_bind]. rewrite drop_front_ok by lia. cbn [mbind option_bind].
  destruct (merge_gapped offset (drop (Z.to_nat (ihl h * 4)) p) (frag_data f) Ho) as (m' & lin & Em & Hg' & Hne).
  { rewrite zlen_drop by lia. lia. }
  { done. }
  rewrite Em. cbn [mbind option_bind].
  pose proof (gapped_extent _ Hg') as He. pose proof (data_memory_bound m') as Hd. pose proof (zlen_nonneg hd).
  assert (data_memory m' <= 65536 * (impl_size + 1)) by (pose proof (extent_nonneg m'); nia).
  assert (Hmem : memory impl_size hd = zlen hd + impl_size) by (unfold memory; rewrite wrap_small; [done|pow2; lia]).
  rewrite memory_fold by (rewrite ?Hmem; pow2; lia). rewrite Hmem.
  eexists (Frag hd m' (rx_time f) (zlen hd + impl_size + data_memory m') (last_frag_received f)), lin.
  split; [done|]. cbn [frag_data mem_size]. split_and!; [|lia|done|done|done].
  unfold frag_ok, frag_max. cbn. split_and!; [done|done|lia|lia|].
  apply (merge_keys (fun k => k <> 0 \/ hdr_min <= zlen hd)) in Em; [done| |].
  - unfold hd. destruct (Z.eqb_spec offset 0); [right|by left]. rewrite zlen_take by lia.
    lia.
  - unfold hd. destruct (Z.eqb_spec offset 0); [|done]. eapply Forall_impl; [exact Hk|]. intros s _. right.
    rewrite zlen_take by lia. lia.
Qed.
End Frag.

(** ** Non-empty pieces leave non-empty segments *)

Section Pieces.
Context {O : Type} {OO : OffsetOps O}.
Abbreviation pieces m := (Forall (fun s : O * list Z => snd s <> []) m).

Lemma merge_adjacent_pieces b p m m' : p <> [] -> pieces m -> merge_adjacent b p m = Some m' -> pieces m'.
Proof.
  intros Hb Hm. revert b p m' Hb. induction Hm as [|[c q] m Hc Hm IH]; intros b p m' Hb; cbn [merge_adjacent].
  { intros [= <-]. by constructor. }
  destruct (_ && _)%bool.
  { destruct (trim _ _); [|done]. apply IH. by destruct p. }
  destruct (o_le _ _); [by apply IH|]. destruct (o_lt _ _); [|done].
  destruct (merge_adjacent c q m) as [l|] eqn:E; [|done]. intros [= <-]. constructor; [done|]. exact (IH _ _ _ Hc E).
Qed.

Lemma merge_scan_pieces b p m r :
  p <> [] -> pieces m -> merge_scan b p m = Some r ->
  match r with Covered => True | Inserting m' p' => pieces m' /\ p' <> [] | Kept m' => pieces m' end.
Proof.
  intros Hp Hm. revert r. induction Hm as [|[c q] m Hc Hm IH]; intros r; cbn [merge_scan]; [by intros [= <-]|].
  destruct (_ && _)%bool; [by intros [= <-]|].
  destruct (_ && _)%bool; [by intros [= <-]|].
  destruct (_ && _)%bool.
  { destruct (trim _ q); [|done]. intros [= <-]. split; [done|]. by destruct p. }
  destruct (_ && _)%bool.
  { destruct (trim _ p); [|done]. intros [= <-]. constructor; [|done]. cbn in *. by destruct q. }
  destruct (merge_scan b p m) as [r'|]; [|done]. intros [= <-]. specialize (IH r' eq_refl).
  destruct r' as [|m1 p1|m1]; cbn [scan_cons]; [done|split; [constructor|]|constructor]; tauto.
Qed.

Lemma emplace_pieces b p m : p <> [] -> pieces m -> pieces (emplace b p m).
Proof.
  intros Hp Hm. induction Hm as [|[c q] m Hc Hm IH]; cbn [emplace]; [by constructor|].
  destruct (o_lt b c); [by repeat constructor|]. destruct (o_lt c b); by constructor.
Qed.

Lemma merge_pieces b p m m' n : p <> [] -> pieces m -> PacketMerger.merge b p m = Some (m', n) -> pieces m'.
Proof.
  intros Hp Hm. unfold PacketMerger.merge. destruct (merge_scan b p m) as [r|] eqn:E; [|done]. cbn.
  pose proof (merge_scan_pieces _ _ _ _ Hp Hm E) as Hr.
  assert (Hadj : forall l, pieces l -> match l with [] => Some ([], 1) | (c, q) :: rest =>
     x ← merge_adjacent c q rest; Some (x, 1) end = Some (m', n) -> pieces m').
  { intros [|[c q] l] Hl; [intros [= <- _]; constructor|]. apply Forall_cons in Hl as [? ?].
    destruct (merge_adjacent c q l) eqn:Ea; [|done]. intros [= <- _]. by eapply merge_adjacent_pieces. }
  destruct r as [|m1 p1|m1]; [by intros [= <- _]| |by apply Hadj].
  apply Hadj, emplace_pieces; tauto.
Qed.
End Pieces.
