(* ===== verification/FragTable.v ===== *)
(** * The reassembly table of [ipv4]: accounting, bounds, totality

    The three members [_frags], [_frags_age] and [_frag_mem] are one table: the
    age list names every entry once, and the counter is the memory the entries
    hold, without wrap.  Every operation on the table keeps that, whatever arrives; the
    limit on the memory is enforced before a piece is added; and only a header that
    is too short or longer than its datagram makes the program fail.

    The invariant has a parameter, the least length of the headers that arrived: 0
    for the bounds, as the code does not check it, and 20 where the header of a
    complete datagram is read again. *)

From S2P Require Import Prelude Core ByteOrder Checksum Toeplitz Packet Net Inet PacketMerger Arp Ipv4 IpHeader Reassembly.
From stdpp Require Import base numbers option gmap list.

#[local] Open Scope Z_scope.

(** ** The table *)

Section Table.
Variable impl_size : Z.
Hypothesis impl_size_ok : 0 < impl_size < 2 ^ 14.
Variable hdr_min : Z.
Abbreviation frag_ok := (frag_ok impl_size hdr_min).
Abbreviation frag_max := (frag_max impl_size).

Definition ages (m : gmap frag_id frag) : list frag_id := map fst (map_to_list m).
Definition total (m : gmap frag_id frag) : Z := foldr (fun kv n => mem_size (snd kv) + n) 0 (map_to_list m).

Definition entry_ok (f : frag) : Prop := frag_ok f /\ 0 < mem_size f /\ frag_data f <> [].

Definition table_ok (m : gmap frag_id frag) (age : list frag_id) (mem : Z) : Prop :=
  age ≡ₚ ages m /\ map_Forall (fun _ => entry_ok) m /\ mem = total m /\ total m <= frag_high_thresh + frag_max.

Lemma total_perm (l l' : list (frag_id * frag)) :
  l ≡ₚ l' -> foldr (fun kv n => mem_size (snd kv) + n) 0 l = foldr (fun kv n => mem_size (snd kv) + n) 0 l'.
Proof. induction 1; cbn; lia. Qed.

Lemma total_insert id f m : m !! id = None -> total (<[id := f]> m) = mem_size f + total m.
Proof. intros E. unfold total. by rewrite (total_perm _ _ (map_to_list_insert m id f E)). Qed.

Lemma total_delete id f m : m !! id = Some f -> total m = mem_size f + total (delete id m).
Proof.
  intros E. rewrite <- (insert_id m id f E) at 1. rewrite <- insert_delete_eq.
  apply total_insert, lookup_delete_eq.
Qed.

Lemma ages_insert id f m : m !! id = None -> ages (<[id := f]> m) ≡ₚ id :: ages m.
Proof. intros E. unfold ages. by rewrite map_to_list_insert. Qed.

Lemma ages_delete id f m : m !! id = Some f -> ages m ≡ₚ id :: ages (delete id m).
Proof.
  intros E. rewrite <- (insert_id m id f E) at 1. rewrite <- insert_delete_eq.
  apply ages_insert, lookup_delete_eq.
Qed.

Lemma in_ages id m : id ∈ ages m <-> is_Some (m !! id).
Proof.
  unfold ages. rewrite list_elem_of_fmap. split.
  - intros ([k f] & -> & H). apply elem_of_map_to_list in H. by exists f.
  - intros [f H]. exists (id, f). split; [done|]. by apply elem_of_map_to_list.
Qed.

Lemma total_nonneg m : map_Forall (fun _ => entry_ok) m -> 0 <= total m.
Proof.
  intros H. unfold total. rewrite map_Forall_to_list in H. induction H as [|[k f] l Hf _ IH]; cbn in *; [lia|].
  destruct Hf as (_ & ? & _). lia.
Qed.

Lemma frag_max_bound : 0 < frag_max < 2 ^ 31.
Proof. unfold Reassembly.frag_max. change (2 ^ 14) with 16384 in *. pow2. lia. Qed.

Lemma table_empty : table_ok ∅ [] 0.
Proof.
  pose proof frag_max_bound. unfold table_ok, ages, total. rewrite map_to_list_empty. cbn. split_and!; try done.
  unfold frag_high_thresh. lia.
Qed.

Lemma table_nil m mem : table_ok m [] mem -> m = ∅ /\ mem = 0.
Proof.
  intros (Ha & _ & -> & _). symmetry in Ha. apply Permutation_nil_r in Ha. unfold ages in Ha. apply map_eq_nil in Ha.
  unfold total. rewrite Ha. split; [by apply map_to_list_empty_iff|done].
Qed.

(** Dropping one entry. *)
Lemma table_remove id f m age age' mem :
  table_ok m age mem -> m !! id = Some f -> age ≡ₚ id :: age' ->
  table_ok (delete id m) age' (u32 (mem - mem_size f)) /\ u32 (mem - mem_size f) = mem - mem_size f.
Proof.
  intros (Ha & Hf & -> & Hb) E Hage. pose proof (total_delete _ _ _ E) as Et. pose proof frag_max_bound.
  assert (Hf' : map_Forall (fun _ => entry_ok) (delete id m)) by by apply map_Forall_delete.
  pose proof (total_nonneg _ Hf'). destruct (Hf id f E) as (_ & Hm & _).
  assert (Eu : u32 (total m - mem_size f) = total m - mem_size f).
  { apply wrap_small. unfold frag_high_thresh in Hb. pow2. lia. }
  split; [|done]. unfold table_ok. rewrite Eu. split_and!; [|done|lia|lia].
  apply (Permutation_cons_inv (a := id)). by rewrite <- Hage, Ha, (ages_delete _ _ _ E).
Qed.

(** Adding a new entry, and replacing one. *)
Lemma table_add id f m age mem :
  table_ok m age mem -> m !! id = None -> entry_ok f -> total m <= frag_high_thresh ->
  table_ok (<[id := f]> m) (age ++ [id]) (u32 (mem + s32 (mem_size f - 0))).
Proof.
  intros (Ha & Hf & -> & Hb) E Hok Hl. pose proof frag_max_bound. pose proof Hok as ((? & ? & ? & ?) & ? & ?).
  pose proof (total_nonneg _ Hf). unfold frag_high_thresh in *.
  rewrite s32_small by (pow2; lia). rewrite wrap_small by (pow2; lia).
  unfold table_ok. rewrite total_insert by done. split_and!; [|apply map_Forall_insert_2; done|lia|unfold frag_high_thresh; lia].
  rewrite ages_insert, Ha by done. symmetry. apply Permutation_cons_append.
Qed.

Lemma table_update id f f' m age mem :
  table_ok m age mem -> m !! id = Some f -> entry_ok f' -> total m <= frag_high_thresh ->
  table_ok (<[id := f']> m) age (u32 (mem + s32 (mem_size f' - mem_size f))).
Proof.
  intros (Ha & Hf & -> & Hb) E Hok Hl. pose proof frag_max_bound. pose proof Hok as ((? & ? & ? & ?) & ? & ?).
  pose proof (total_delete _ _ _ E) as Et. destruct (Hf id f E) as ((_ & _ & ? & _) & ? & _).
  assert (Hf' : map_Forall (fun _ => entry_ok) (delete id m)) by by apply map_Forall_delete.
  pose proof (total_nonneg _ Hf'). unfold frag_high_thresh in *.
  rewrite s32_small by (pow2; lia). rewrite wrap_small by (pow2; lia).
  rewrite <- insert_delete_eq. assert (En : delete id m !! id = None) by apply lookup_delete_eq.
  unfold table_ok. rewrite total_insert by done.
  split_and!; [|apply map_Forall_insert_2; done|lia|unfold frag_high_thresh; lia].
  by rewrite ages_insert, Ha, (ages_delete _ _ _ E).
Qed.

(** [_frags_age.remove(frag_id)] *)
Lemma remove_age id m age :
  age ≡ₚ ages m -> is_Some (m !! id) -> age ≡ₚ id :: List.filter (fun i => negb (bool_decide (i = id))) age.
Proof.
  intros Ha Hi.
  assert (Hnd : NoDup age) by (rewrite Ha; apply NoDup_fst_map_to_list).
  assert (Hin : id ∈ age) by (by rewrite Ha; apply in_ages).
  clear Ha Hi. induction Hnd as [|x l Hx Hnd IH]; [by apply elem_of_nil in Hin|]. cbn [List.filter].
  destruct (decide (x = id)) as [->|Hne].
  - rewrite bool_decide_true by done. cbn. f_equiv. clear -Hx.
    induction l as [|y l IH]; [done|]. apply not_elem_of_cons in Hx as [? ?]. cbn.
    rewrite bool_decide_false by done. cbn. f_equiv. by apply IH.
  - rewrite bool_decide_false by done. cbn. apply elem_of_cons in Hin as [->|Hin]; [done|]. rewrite (IH Hin) at 1. apply Permutation_swap.
Qed.
End Table.

(** ** The operations on it *)

Section Ops.
Context {BC : Core.BeCodec} {T : Type} {TM : Core.TimerOps T} {W : Type}.
Variable e : endian.
Variable hw : hw_features.
Variable impl_size : Z.
Variable hw_address : mac.
Variable rss_key : list Z.
Variable hash2cpu : Z -> Z.
Variable this_shard_id : Z.
Variable packet_filter : option (list Z -> ip_hdr -> mac -> bool).
Hypothesis impl_size_ok : 0 < impl_size < 2 ^ 14.
Abbreviation ipv4 := (@Ipv4.ipv4 T W).
Section Bounded.
Variable hdr_min : Z.
Abbreviation table_ok := (table_ok impl_size hdr_min).
Abbreviation entry_ok := (entry_ok impl_size hdr_min).

Definition ip_table_ok (s : ipv4) : Prop := table_ok (frags s) (frags_age s) (frag_mem s).

(** Everything but the table. *)
Definition same_rest (s s' : ipv4) : Prop :=
  ip_arp s' = ip_arp s /\ host_address s' = host_address s /\ gw_address s' = gw_address s /\
  netmask s' = netmask s /\ ip_packetq s' = ip_packetq s /\ pkt_provider_idx s' = pkt_provider_idx s.

Lemma frag_at_some id f (s : ipv4) : frags s !! id = Some f -> frag_at id s = f.
Proof. unfold frag_at. by intros ->. Qed.

Lemma frag_limit_mem_idle (s : ipv4) : frag_mem s <= frag_high_thresh -> frag_limit_mem s = s.
Proof. intros H. unfold frag_limit_mem. by rewrite (proj2 (Z.leb_le _ _)). Qed.

Lemma age_head id age' m (mem : Z) :
  table_ok m (id :: age') mem -> exists f, m !! id = Some f.
Proof.
  intros (Ha & _). destruct (proj1 (in_ages id m)) as [f Hf]; [|by exists f].
  rewrite <- Ha. left.
Qed.

(** Dropping the oldest: entries go, none is changed, and enough goes. *)
Lemma drop_oldest_spec age : forall drop (s : ipv4),
  table_ok (frags s) age (frag_mem s) -> 0 <= drop ->
  let s' := drop_oldest age drop s in
  ip_table_ok s' /\ frags s' ⊆ frags s /\ same_rest s s' /\ frag_timer s' = frag_timer s /\
  (frags s' = ∅ \/ frag_mem s' <= frag_mem s - drop).
Proof.
  induction age as [|id age IH]; intros drop s Hok Hd; cbn [drop_oldest].
  - destruct (Z.eqb_spec drop 0) as [->|_].
    + destruct s. cbn in *. split_and!; try done. right. lia.
    + destruct (table_nil _ _ _ _ Hok) as [E1 E2]. destruct s. cbn in *. subst. split_and!; try done. by left.
  - destruct (Z.eqb_spec drop 0) as [->|Hne].
    + destruct s. cbn in *. split_and!; try done. right. lia.
    + destruct (age_head _ _ _ _ Hok) as [f Hf]. rewrite (frag_at_some _ _ _ Hf).
      destruct (table_remove _ impl_size_ok _ id f _ _ age _ Hok Hf) as [Hok' Eu]; [done|].
      destruct (IH (drop - Z.min drop (mem_size f)) (frag_drop id (mem_size f) s)) as (H1 & H2 & H3 & H4 & H5).
      { exact Hok'. }
      { lia. }
      assert (Hr : same_rest s (frag_drop id (mem_size f) s)) by by destruct s.
      split_and!; [exact H1| | | |].
      * etrans; [exact H2|]. apply delete_subseteq.
      * clear -H3 Hr. unfold same_rest in *. intuition congruence.
      * rewrite H4. by destruct s.
      * destruct H5 as [H5|H5]; [by left|right]. cbn in H5. rewrite Eu in H5. lia.
Qed.

Lemma frag_limit_mem_spec (s : ipv4) :
  ip_table_ok s ->
  let s' := frag_limit_mem s in
  ip_table_ok s' /\ frags s' ⊆ frags s /\ same_rest s s' /\ frag_timer s' = frag_timer s /\
  frag_mem s' <= frag_high_thresh.
Proof.
  intros Hok. unfold frag_limit_mem. destruct (Z.leb_spec (frag_mem s) frag_high_thresh); [by split_and!|].
  pose proof Hok as (_ & Hf & Hm & Hb). pose proof (total_nonneg _ _ _ Hf). pose proof (frag_max_bound _ impl_size_ok).
  rewrite wrap_small by (unfold frag_high_thresh, frag_low_thresh in *; pow2; lia).
  destruct (drop_oldest_spec (frags_age s) (frag_mem s - frag_low_thresh) s Hok) as (G1 & G2 & G3 & G4 & G5).
  { unfold frag_high_thresh, frag_low_thresh in *. lia. }
  split_and!; try done. destruct G5 as [G5|G5].
  - destruct G1 as (_ & _ & -> & _). rewrite G5. unfold total. by rewrite map_to_list_empty.
  - unfold frag_high_thresh, frag_low_thresh in *. lia.
Qed.

Lemma drop_expired_spec now age : forall s : ipv4,
  table_ok (frags s) age (frag_mem s) ->
  let s' := drop_expired now age s in
  ip_table_ok s' /\ frags s' ⊆ frags s /\ same_rest s s'.
Proof.
  induction age as [|id age IH]; intros s Hok; cbn [drop_expired]; [by destruct s|].
  destruct (age_head _ _ _ _ Hok) as [f Hf]. rewrite (frag_at_some _ _ _ Hf).
  destruct (_ <? now); [|by destruct s].
  destruct (table_remove _ impl_size_ok _ id f _ _ age _ Hok Hf) as [Hok' Eu]; [done|].
  destruct (IH (frag_drop id (mem_size f) s)) as (H1 & H2 & H3); [exact Hok'|].
  assert (Hr : same_rest s (frag_drop id (mem_size f) s)) by by destruct s.
  split_and!; [exact H1| |].
  - etrans; [exact H2|]. apply delete_subseteq.
  - clear -H3 Hr. unfold same_rest in *. intuition congruence.
Qed.

Lemma frag_timeout_spec now (s : ipv4) :
  ip_table_ok s -> let s' := frag_timeout now s in
  ip_table_ok s' /\ frags s' ⊆ frags s /\ same_rest s s'.
Proof.
  intros Hok. unfold frag_timeout. destruct (decide _); [done|].
  destruct (drop_expired_spec now (frags_age s) s Hok) as (H1 & H2 & H3). set (s1 := drop_expired _ _ _) in *.
  clearbody s1. cbv zeta.
  destruct (decide _) as [E|_]; [|by destruct s1].
  split; [|by destruct s1]. destruct H1 as (Ha & Hf & Hm & Hb). destruct s1. cbn in *. subst.
  by split_and!.
Qed.

(** *** A piece arrives *)

Lemma l4_forward_ok proto hd p off : zlen hd <= 32 -> exists hd', l4_forward e proto hd p off = Some hd' /\ zlen hd' <= zlen hd + 4.
Proof.
  intros Hl. unfold l4_forward. destruct (_ =? _).
  - destruct (header_at off 20 p) as [th|]; [|eexists; split; [done|lia]].
    do 4 (rewrite push_back_u8_ok by (autorewrite with zlen; lia); cbn [mbind option_bind]).
    eexists. split; [done|]. autorewrite with zlen. lia.
  - destruct (_ =? _); [|eexists; split; [done|lia]].
    destruct (header_at off 8 p) as [uh|]; [|eexists; split; [done|lia]].
    rewrite push_back_u16_ok by lia. cbn [mbind option_bind].
    rewrite push_back_u16_ok by (autorewrite with zlen; unfold zlen; rewrite length_rev, length_be_bytes; unfold zlen in *; lia).
    eexists. split; [done|]. autorewrite with zlen. unfold zlen. rewrite !length_rev, !length_be_bytes. lia.
Qed.

(** The datagram of a complete entry. *)
Definition complete_data (f : frag) : option (list Z) :=
  match frag_data f with
  | [(off, q)] => if last_frag_received f && (off =? 0) then Some q else None
  | _ => None
  end.

Lemma is_complete_data f : frag_data f <> [] -> is_complete f = Some (bool_decide (is_Some (complete_data f))).
Proof.
  intros Hne. unfold is_complete, complete_data. destruct (frag_data f) as [|[off q] [|s m]]; [done| |].
  - destruct (last_frag_received f), (off =? 0); cbn; done.
  - by rewrite andb_false_r.
Qed.

Definition dispatch' := dispatch (W := W) e hw_address rss_key hash2cpu this_shard_id.

Lemma dispatch_ok h f q from :
  ip_hdr_size <= hdr_min -> entry_ok f -> complete_data f = Some q -> mac_ok from -> mac_ok hw_address ->
  exists es, dispatch' h f q from = Some es.
Proof.
  intros Hmin ((_ & _ & _ & Hh) & _) Hc Hfrom Hto. unfold dispatch', dispatch. destruct (l4_registered _); [|by eexists].
  rewrite push_back_u32_ok by done. cbn [mbind option_bind].
  rewrite push_back_u32_ok by (autorewrite with zlen; unfold zlen; rewrite length_rev, length_be_bytes; cbn; lia).
  cbn [mbind option_bind]. 
  destruct (l4_forward_ok (ip_proto h) (([] ++ rev (be_bytes 4 (hton e 4 (src_ip h)))) ++ rev (be_bytes 4 (hton e 4 (dst_ip h)))) q 0)
    as (hd & -> & _).
  { autorewrite with zlen. unfold zlen. rewrite !length_rev, !length_be_bytes. cbn. lia. }
  cbn [mbind option_bind]. destruct (_ =? this_shard_id); [by eexists|].
  unfold get_assembled_packet, complete_data in *. destruct (frag_data f) as [|[off d] m] eqn:Ed; [done|].
  destruct m; [|done]. destruct (last_frag_received f && (off =? 0))%bool eqn:El; [|done]. b2p. subst off. injection Hc as ->.
  apply Forall_cons in Hh as [[Hh|Hh] _]; [done|]. unfold header_at.
  destruct (Z.ltb_spec (zlen ((mac_write hw_address ++ mac_write from ++ st e 2 eth_proto_ipv4) ++ frag_header f ++ q))
    (eth_hdr_len + ip_hdr_size)) as [Hl|_]; [exfalso|cbn; by eexists].
  autorewrite with zlen in Hl. unfold eth_hdr_len, ip_hdr_size, mac_write, mac_ok, zlen in *.
  rewrite Hto, Hfrom in Hl. unfold st in Hl.
  assert (length (host_store e 2 (hton e 2 eth_proto_ipv4)) = 2%nat) as E2 by by destruct e.
  rewrite E2 in Hl. lia.
Qed.

Abbreviation receive_piece := (handle_fragment (W := W) e impl_size hw_address rss_key hash2cpu this_shard_id).

(** The entry before and after a piece. *)
Definition with_last (h : ip_hdr) (now : Z) (f : frag) : frag :=
  Frag (frag_header f) (frag_data f) (if mem_size f =? 0 then now else rx_time f) (mem_size f)
       (negb (mf_of h) || last_frag_received f).

Definition merged_entry (h : ip_hdr) (p : list Z) (now : Z) (f f' : frag) : Prop :=
  entry_ok f' /\
  (exists lin, PacketMerger.merge (offset_of h) (drop (Z.to_nat (ihl h * 4)) p) (frag_data f) = Some (frag_data f', lin)) /\
  frag_header f' = (if offset_of h =? 0 then take (Z.to_nat (ihl h * 4)) p else frag_header f) /\
  last_frag_received f' = negb (mf_of h) || last_frag_received f /\
  rx_time f' = if mem_size f =? 0 then now else rx_time f.

Definition piece_fits (h : ip_hdr) (p : list Z) : Prop :=
  0 <= ihl h <= 15 /\ hdr_min <= ihl h * 4 <= zlen p /\ offset_of h + zlen p <= 65535.

Lemma offset_of_nonneg h : 0 <= offset_of h.
Proof. apply wrap_range. lia. Qed.

(** What the entry of a datagram is when the piece is added: the table after the
    limit on its memory, with nothing in the place of a missing entry. *)
Lemma entry_before id (s : ipv4) :
  ip_table_ok s -> Reassembly.frag_ok impl_size hdr_min (frag_at id s) /\
  (frags s !! id = None /\ mem_size (frag_at id s) = 0 \/
   exists f, frags s !! id = Some f /\ frag_at id s = f /\ entry_ok f).
Proof.
  intros (_ & Hf & _). unfold frag_at. destruct (frags s !! id) as [f|] eqn:E; cbn.
  - pose proof (Hf id f E) as Hok. cbn in Hok. split; [by destruct Hok|]. right. by exists f.
  - split; [by apply frag_init_ok|by left].
Qed.

Lemma with_last_ok h now f : Reassembly.frag_ok impl_size hdr_min f -> Reassembly.frag_ok impl_size hdr_min (with_last h now f).
Proof. done. Qed.

(** The table with the merged piece. *)
Lemma table_merged id h p now (s : ipv4) f' :
  ip_table_ok s -> frag_mem s <= frag_high_thresh -> merged_entry h p now (frag_at id s) f' ->
  table_ok (<[id := f']> (frags s)) (if mem_size (frag_at id s) =? 0 then frags_age s ++ [id] else frags_age s)
    (u32 (frag_mem s + s32 (mem_size f' - mem_size (frag_at id s)))).
Proof.
  intros Hok Hl (Hf' & _). assert (Ht : total (frags s) <= frag_high_thresh) by (by destruct Hok as (_ & _ & <- & _)).
  destruct (entry_before id s Hok) as (_ & [[En E0]|(f & Ef & E1 & (_ & Hp & _))]).
  - rewrite E0. cbn [Z.eqb]. by apply table_add.
  - rewrite E1. rewrite (proj2 (Z.eqb_neq _ 0)) by lia. by apply table_update.
Qed.

(** One piece: it is merged into its entry, and the entry stays in the table, or is
    complete and is dispatched. *)
Lemma handle_fragment_result now h p from (s0 : ipv4) :
  ip_table_ok s0 -> piece_fits h p ->
  let s := frag_limit_mem s0 in
  let id := frag_id_of h in
  exists f' s', merged_entry h p now (frag_at id s) f' /\ ip_table_ok s' /\ same_rest s0 s' /\
    receive_piece now h p from s0 = option_map (pair s') (match complete_data f' with Some q => dispatch' h f' q from | None => Some [] end) /\
    frags s' = match complete_data f' with Some _ => delete id (frags s) | None => <[id := f']> (frags s) end.
Proof.
  intros Hok0 (Hi & Hl & Ho) s id.
  destruct (frag_limit_mem_spec s0 Hok0) as (Hok & Hsub & Hrest & _ & Hmem). fold s in Hok, Hsub, Hrest, Hmem.
  destruct (entry_before id s Hok) as (Hf0 & _).
  destruct (frag_merge_total impl_size impl_size_ok hdr_min h (offset_of h) p (with_last h now (frag_at id s)))
    as (f' & lin & Em & Hok' & Hpos & Hne & Emm & Ef'); try done; [apply offset_of_nonneg|].
  assert (Hmerged : merged_entry h p now (frag_at id s) f').
  { split; [done|]. split; [by exists lin|]. rewrite Ef'. done. }
  pose proof (table_merged id h p now s f' Hok Hmem Hmerged) as Htab.
  exists f'. unfold handle_fragment. fold s id.
  assert (Estep : (let f := if mf_of h then frag_at id s else Frag (frag_header (frag_at id s)) (frag_data (frag_at id s))
                      (rx_time (frag_at id s)) (mem_size (frag_at id s)) true in
    if mem_size f =? 0 then (Frag (frag_header f) (frag_data f) now (mem_size f) (last_frag_received f), frags_age s ++ [id])
    else (f, frags_age s)) =
    (with_last h now (frag_at id s), if mem_size (frag_at id s) =? 0 then frags_age s ++ [id] else frags_age s)).
  { unfold with_last. destruct (frag_at id s) as [hd d rx m l]. destruct (mf_of h); cbn; by destruct (m =? 0). }
  cbv zeta in Estep |- *. rewrite Estep. clear Estep. rewrite Em. cbn [mbind option_bind].
  rewrite is_complete_data by done. cbn [mbind option_bind].
  destruct (complete_data f') as [q|] eqn:Ec.
  - rewrite bool_decide_true by eauto.
    assert (exists off m, frag_data f' = (off, q) :: m) as (off & m & Ed).
    { unfold complete_data in Ec. destruct (frag_data f') as [|[off d] [|]]; try done.
      destruct (_ && _)%bool; [|done]. injection Ec as ->. eauto. }
    rewrite Ed. fold (dispatch' h f' q from).
    set (s1 := set_frags (<[id := f']> (frags s)) _ _ s). set (s2 := frag_drop id (mem_size f') s1).
    exists (set_frags (frags s2) (List.filter (fun i => negb (bool_decide (i = id))) (frags_age s2)) (frag_mem s2) s2). split; [done|].
    destruct (table_remove _ impl_size_ok _ id f' _ _ _ _ Htab (lookup_insert_eq _ _ _) (remove_age id _ _ (proj1 Htab) ltac:(by rewrite lookup_insert_eq; eauto)))
      as [Hrm _].
    split_and!; [exact Hrm| |by destruct (dispatch' h f' q from)|].
    + clear -Hrest. unfold same_rest in *. destruct s. cbn in *. intuition congruence.
    + cbn. by rewrite delete_insert_eq.
  - rewrite bool_decide_false by (by intros [? ?]). 
    set (s1 := set_frags (<[id := f']> (frags s)) _ _ s). exists (if tm_armed (frag_timer s1) then s1 else frag_arm now s1). split; [done|].
    destruct (tm_armed _); (split_and!; [exact Htab| |done|done]); clear -Hrest;
      unfold same_rest in *; destruct s; cbn in *; intuition congruence.
Qed.

(** With headers that can be read again it is always dispatched. *)
Lemma handle_fragment_spec now h p from (s0 : ipv4) :
  ip_hdr_size <= hdr_min -> ip_table_ok s0 -> piece_fits h p -> mac_ok from -> mac_ok hw_address ->
  let s := frag_limit_mem s0 in
  let id := frag_id_of h in
  exists f' s' es, receive_piece now h p from s0 = Some (s', es) /\
    merged_entry h p now (frag_at id s) f' /\ ip_table_ok s' /\ same_rest s0 s' /\
    match complete_data f' with
    | Some q => dispatch' h f' q from = Some es /\ frags s' = delete id (frags s)
    | None => es = [] /\ frags s' = <[id := f']> (frags s)
    end.
Proof.
  intros Hmin Hok Hp Hfrom Hto s id. destruct (handle_fragment_result now h p from s0 Hok Hp) as (f' & s' & Hm & Hok' & Hr & E & Ef).
  exists f', s'. destruct (complete_data f') as [q|] eqn:Ec.
  - destruct (dispatch_ok h f' q from Hmin (proj1 Hm) Ec Hfrom Hto) as [es Ees]. rewrite Ees in E. by exists es.
  - by exists [].
Qed.

(** A header that reaches over the end of the piece is not cut off: the program stops. *)
Lemma handle_fragment_overlong now h p from (s : ipv4) : zlen p < ihl h * 4 -> receive_piece now h p from s = None.
Proof.
  intros Hl. unfold handle_fragment. destruct (if mem_size _ =? 0 then _ else _) as [f age]. unfold frag_merge.
  rewrite drop_front_bad by lia. by destruct (if offset_of h =? 0 then _ else _).
Qed.

(** *** A packet arrives *)

(** What the code never checks: the header has its fixed part and is not longer than
    the datagram.  Without it the program may stop, but what it does until then is
    bounded all the same. *)
Definition plausible (p : list Z) : Prop :=
  forall ih, header_at 0 ip_hdr_size p = Some ih ->
    5 <= ihl (ip_hdr_read e ih) <= 15 /\ ihl (ip_hdr_read e ih) * 4 <= ip_len (ip_hdr_read e ih).

Abbreviation receive := (handle_received_packet (W := W) e hw impl_size hw_address rss_key hash2cpu this_shard_id packet_filter).

Lemma ip_accept_spec h p q :
  0 <= ip_len h -> ip_accept h p = Some q ->
  q = take (Z.to_nat (ip_len h)) p /\ zlen q = ip_len h /\ offset_of h + ip_len h <= ip_packet_len_max.
Proof.
  intros Hl. unfold ip_accept. destruct (Z.ltb_spec (zlen p) (ip_len h)); [done|].
  assert (E : (if ip_len h <? zlen p then take (Z.to_nat (ip_len h)) p else p) = take (Z.to_nat (ip_len h)) p).
  { destruct (Z.ltb_spec (ip_len h) (zlen p)); [done|]. rewrite take_ge; [done|]. unfold zlen in *. lia. }
  rewrite E. rewrite zlen_take by lia. destruct (Z.ltb_spec ip_packet_len_max (offset_of h + ip_len h)); [done|].
  intros [= <-]. by rewrite zlen_take by lia.
Qed.

Lemma learn_rest l2 l3 (s : ipv4) :
  let s' := fst (ipv4_learn l2 l3 s) in
  frags s' = frags s /\ frags_age s' = frags_age s /\ frag_mem s' = frag_mem s /\ host_address s' = host_address s.
Proof. unfold ipv4_learn. destruct (learn l2 l3 (ip_arp s)). by destruct s. Qed.

(** The ranges that the header's fields have, whatever the bytes. *)
Lemma header_ranges p ih : Forall is_byte p -> header_at 0 ip_hdr_size p = Some ih ->
  Forall is_byte ih /\ 0 <= ihl (ip_hdr_read e ih) <= 15 /\ 0 <= ip_len (ip_hdr_read e ih).
Proof.
  unfold header_at. destruct (Z.ltb_spec (zlen p) (0 + ip_hdr_size)); [done|]. intros Hb [= <-].
  assert (Forall is_byte (slice 0 ip_hdr_size p)) as Hs by (by apply Forall_take, Forall_drop).
  destruct (ip_hdr_read_ok e (slice 0 ip_hdr_size p) Hs) as (H1 & _ & _ & _ & H5 & _); [by rewrite zlen_slice by (unfold ip_hdr_size in *; lia)|].
  unfold is_uint in *. change (2 ^ 4) with 16 in *. split; [done|]. lia.
Qed.

Lemma header_sum ih : Forall is_byte ih -> exists v, sum e checksummer_init ih = Some v.
Proof. intros Hb. destruct (sum_spec e checksummer_init ih Hb) as (v & -> & _); [by intros [? _]|by eexists]. Qed.

(** A packet, where it is received: the table is as it should be. *)
Lemma ip_receive_bounded now p from (s s' : ipv4) es :
  hdr_min = 0 -> ip_table_ok s -> Forall is_byte (bytes p) -> receive now p from s = Some (s', es) -> ip_table_ok s'.
Proof.
  intros Hmin Hok Hb. unfold handle_received_packet. destruct (header_at 0 ip_hdr_size (bytes p)) as [ih|] eqn:Eh; [|by intros [= <- _]].
  destruct (header_ranges _ _ Hb Eh) as (Hbi & Hi & Hl). set (h := ip_hdr_read e ih) in *.
  destruct (if negb (rx_csum_offload hw) && negb (reassembled (info p)) then _ else _) as [[|]|]; [|by intros [= <- _]|done]. cbn [mbind option_bind negb].
  destruct (ip_accept h (bytes p)) as [q|] eqn:Eq; [|by intros [= <- _]]. apply ip_accept_spec in Eq as (_ & Eq & Ho); [|done].
  set (L := (if (in_my_netmask (src_ip h) s && negb (src_ip h =? host_address s))%bool then ipv4_learn from (src_ip h) s else (s, [])) : ipv4 * list (@ip_event W)).
  assert (Hok1 : ip_table_ok L.1).
  { unfold L. destruct (_ && _)%bool; [|done]. pose proof (learn_rest from (src_ip h) s) as (H1 & H2 & H3 & _). unfold ip_table_ok. by rewrite H1, H2, H3. }
  destruct L as [s1 es1]. cbn [fst] in Hok1. destruct (match packet_filter with Some _ => _ | None => false end); [by intros [= <- _]|].
  destruct (negb (dst_ip h =? host_address s1)); [by intros [= <- _]|]. destruct (mf_of h || negb (offset_of h =? 0))%bool.
  - destruct (Z.ltb_spec (zlen q) (ihl h * 4)) as [Hlong|Hfit]; [by rewrite handle_fragment_overlong|].
    destruct (handle_fragment_result now h q from s1 Hok1) as (f' & s2 & _ & Hok2 & _ & E & _); [unfold piece_fits, ip_packet_len_max in *; lia|].
    rewrite E. destruct (match complete_data f' with Some _ => _ | None => _ end); [|done]. by intros [= <- _].
  - destruct (l4_registered _); [|by intros [= <- _]]. destruct (drop_front _ _); [|done]. by intros [= <- _].
Qed.
End Bounded.

Abbreviation receive := (handle_received_packet (W := W) e hw impl_size hw_address rss_key hash2cpu this_shard_id packet_filter).

(** With a plausible header it is received. *)
Lemma receive_total now p from (s : ipv4) :
  ip_table_ok ip_hdr_size s -> Forall is_byte (bytes p) -> plausible (bytes p) -> mac_ok from -> mac_ok hw_address ->
  exists s' es, receive now p from s = Some (s', es) /\ ip_table_ok ip_hdr_size s'.
Proof.
  intros Hok Hb Hp Hfrom Hto. unfold handle_received_packet.
  destruct (header_at 0 ip_hdr_size (bytes p)) as [ih|] eqn:Eh; [|by eexists _, _].
  destruct (Hp _ Eh) as [Hi Hl]. destruct (header_ranges _ _ Hb Eh) as (Hbi & _). set (h := ip_hdr_read e ih) in *.
  assert (Hsum : exists b, (if negb (rx_csum_offload hw) && negb (reassembled (info p))
     then c ← sum e checksummer_init ih; Some (get e c =? 0) else Some true) = Some b).
  { destruct (_ && _)%bool; [|by eexists]. destruct (header_sum ih Hbi) as [v ->]. by eexists. }
  destruct Hsum as [b ->]. cbn [mbind option_bind]. destruct b; cbn [negb]; [|by eexists _, _].
  destruct (ip_accept h (bytes p)) as [q|] eqn:Eq; [|by eexists _, _].
  apply ip_accept_spec in Eq as (-> & Eq & Ho); [|lia]. set (q := take _ _) in *.
  set (L := (if (in_my_netmask (src_ip h) s && negb (src_ip h =? host_address s))%bool then ipv4_learn from (src_ip h) s else (s, [])) : ipv4 * list (@ip_event W)).
  assert (Hlearn : ip_table_ok ip_hdr_size L.1 /\ host_address L.1 = host_address s).
  { unfold L. destruct (_ && _)%bool; [|done]. pose proof (learn_rest from (src_ip h) s) as (H1 & H2 & H3 & H4).
    unfold ip_table_ok. by rewrite H1, H2, H3, H4. }
  destruct L as [s1 es1]. cbn [fst] in Hlearn. destruct Hlearn as [Hok1 Ehost].
  destruct (match packet_filter with Some _ => _ | None => false end); [by eexists _, _|].
  destruct (negb (dst_ip h =? host_address s1)); [by eexists _, _|].
  destruct (mf_of h || negb (offset_of h =? 0))%bool.
  - destruct (handle_fragment_spec ip_hdr_size now h q from s1) as (f' & s' & es & E & _ & Hok' & _); try done.
    { unfold piece_fits, ip_packet_len_max, ip_hdr_size in *. lia. }
    rewrite E. cbn [mbind option_bind]. by eexists _, _.
  - destruct (l4_registered _); [|by eexists _, _]. rewrite drop_front_ok by lia. cbn [mbind option_bind]. by eexists _, _.
Qed.

(** *** Executions *)

Inductive ip_op :=
  | OpReceive (p : packet) (from : mac) | OpFragTimeout | OpSetHost (a : ipv4_address) | OpSetGw (a : ipv4_address)
  | OpSetNetmask (a : ipv4_address) | OpLearnL2 (l2 : mac) (l3 : ipv4_address) | OpLookupL2 (w : W) (to : ipv4_address).

Definition ip_step (now : Z) (op : ip_op) (s : ipv4) : option (ipv4 * list (@ip_event W)) :=
  match op with
  | OpReceive p from => receive now p from s
  | OpFragTimeout => Some (frag_timeout now s, [])
  | OpSetHost a => Some (set_host_address hw_address a s, [])
  | OpSetGw a => Some (set_gw_address a s, [])
  | OpSetNetmask a => Some (set_netmask_address a s, [])
  | OpLearnL2 l2 l3 => Some (ipv4_learn l2 l3 s)
  | OpLookupL2 w to => Some (fst (get_l2_dst_address hw_address now w to s))
  end.

Fixpoint ip_run (ops : list (Z * ip_op)) (s : ipv4) : option (ipv4 * list (@ip_event W)) :=
  match ops with
  | [] => Some (s, [])
  | (now, op) :: ops =>
      '(s, es) ← ip_step now op s;
      '(s, es') ← ip_run ops s;
      Some (s, es ++ es')
  end.

(** Any bytes from any address; and with a header that is plausible. *)
Definition op_ok (op : ip_op) : Prop :=
  match op with OpReceive p from => Forall is_byte (bytes p) /\ mac_ok from | _ => True end.
Definition op_plausible (op : ip_op) : Prop := match op with OpReceive p _ => plausible (bytes p) | _ => True end.

(** Operations that do not receive keep the table. *)
Lemma ip_step_other hdr_min now op (s : ipv4) :
  ip_table_ok hdr_min s -> match op with OpReceive _ _ => False | _ => True end ->
  exists s' es, ip_step now op s = Some (s', es) /\ ip_table_ok hdr_min s'.
Proof.
  intros Hok Hop. destruct op as [p from| |a|a|a|l2 l3|w to]; cbn [ip_step]; [done| | | | | |].
  - eexists _, _. split; [done|]. by apply frag_timeout_spec.
  - by eexists _, _.
  - by eexists _, _.
  - by eexists _, _.
  - destruct (ipv4_learn l2 l3 s) as [s' es] eqn:E. eexists _, _. split; [done|].
    pose proof (learn_rest l2 l3 s) as (H1 & H2 & H3 & _). rewrite E in *. cbn in *. unfold ip_table_ok. by rewrite H1, H2, H3.
  - unfold get_l2_dst_address. destruct (arp_lookup _ _ _ _ _) as [[a es] r]. by eexists _, _.
Qed.

Lemma ip_run_bounded ops : forall s s' es,
  ip_table_ok 0 s -> Forall (fun x => op_ok (snd x)) ops -> ip_run ops s = Some (s', es) -> ip_table_ok 0 s'.
Proof.
  induction ops as [|[now op] ops IH]; intros s s' es Hok Hops; cbn [ip_run]; [by intros [= <- _]|].
  apply Forall_cons in Hops as [Hop Hops]. cbn in Hop. destruct (ip_step now op s) as [[s1 es1]|] eqn:E1; [|done]. cbn [mbind option_bind].
  destruct (ip_run ops s1) as [[s2 es2]|] eqn:E2; [|done]. intros [= <- _]. refine (IH s1 s2 es2 _ Hops E2).
  destruct op as [p from| |a|a|a|l2 l3|w to].
  1: destruct Hop; by eapply (ip_receive_bounded 0).
  all: edestruct (ip_step_other 0 now) as (s3 & es3 & E3 & Hok3); [exact Hok| |rewrite E1 in E3; by injection E3 as -> _]; done.
Qed.

Lemma ip_run_total ops : forall s,
  ip_table_ok ip_hdr_size s -> Forall (fun x => op_ok (snd x)) ops -> Forall (fun x => op_plausible (snd x)) ops -> mac_ok hw_address ->
  is_Some (ip_run ops s).
Proof.
  induction ops as [|[now op] ops IH]; intros s Hok Hops Hpl Hto; cbn [ip_run]; [by eexists|].
  apply Forall_cons in Hops as [Hop Hops], Hpl as [Hp Hpl]. cbn in Hop, Hp.
  assert (exists s' es, ip_step now op s = Some (s', es) /\ ip_table_ok ip_hdr_size s') as (s1 & es1 & -> & Hok1).
  { destruct op; try by apply ip_step_other. destruct Hop. by apply receive_total. }
  cbn [mbind option_bind]. destruct (IH s1 Hok1 Hops Hpl Hto) as [[s2 es2] ->]. by eexists.
Qed.

(** What the table promises: the age list holds every datagram in reassembly exactly
    once, the counter is the memory they hold, and that is at most the high threshold
    and one datagram. *)
Definition table_bounded (s : ipv4) : Prop :=
  NoDup (frags_age s) /\ (forall id, id ∈ frags_age s <-> is_Some (frags s !! id)) /\
  frag_mem s = total (frags s) /\ 0 <= frag_mem s <= frag_high_thresh + frag_max impl_size.


(** A datagram for this host whose header is longer than the datagram - its
    checksum is right, or left to the hardware - stops the program. *)
Theorem header_longer_than_datagram_stops now p from (s : ipv4) ih :
  rx_csum_offload hw = true -> packet_filter = None -> Forall is_byte (bytes p) ->
  header_at 0 ip_hdr_size (bytes p) = Some ih ->
  let h := ip_hdr_read e ih in
  ip_len h <= zlen (bytes p) -> ip_len h < ihl h * 4 -> dst_ip h = host_address s ->
  offset_of h = 0 -> mf_of h = false -> l4_registered (ip_proto h) = true ->
  receive now p from s = None.
Proof.
  intros Hc Hf Hb Eh h Hl Hi Hd Ho Hmf Hreg. unfold handle_received_packet. rewrite Eh, Hc, Hf. cbn [negb andb mbind option_bind].
  assert (Hr : is_uint 16 (ip_len h)).
  { unfold header_at in Eh. destruct (Z.ltb_spec (zlen (bytes p)) (0 + ip_hdr_size)); [done|]. injection Eh as Eh.
    apply (ip_hdr_read_ok e ih); rewrite <- Eh; [by apply Forall_take, Forall_drop|].
    by rewrite zlen_slice by (unfold ip_hdr_size in *; lia). }
  fold h. destruct Hr as [Hr1 Hr2]. change (2 ^ 16) with 65536 in Hr2.
  assert (Ea : ip_accept h (bytes p) = Some (take (Z.to_nat (ip_len h)) (bytes p))).
  { unfold ip_accept. rewrite (proj2 (Z.ltb_ge _ _)) by lia.
    assert (E : (if ip_len h <? zlen (bytes p) then take (Z.to_nat (ip_len h)) (bytes p) else bytes p) = take (Z.to_nat (ip_len h)) (bytes p)).
    { destruct (Z.ltb_spec (ip_len h) (zlen (bytes p))); [done|]. rewrite take_ge; [done|]. unfold zlen in *. lia. }
    rewrite E, Ho, zlen_take by lia. by rewrite (proj2 (Z.ltb_ge _ _)) by (unfold ip_packet_len_max; lia). }
  rewrite Ea. set (L := (if (in_my_netmask (src_ip h) s && negb (src_ip h =? host_address s))%bool then ipv4_learn from (src_ip h) s else (s, [])) : ipv4 * list (@ip_event W)).
  assert (Hh : host_address L.1 = host_address s).
  { unfold L. destruct (_ && _)%bool; [|done]. by destruct (learn_rest from (src_ip h) s) as (_ & _ & _ & ->). }
  destruct L as [s1 es1]. cbn [fst] in Hh. rewrite Hmf, Ho, Hreg, Hd, Hh, Z.eqb_refl. cbn [negb orb Z.eqb].
  by rewrite drop_front_bad by (rewrite zlen_take by lia; lia).
Qed.
End Ops.

(** ** Witnesses *)

Import Core.Impl.

Module Ex.
(** The first of several pieces: sixteen bytes at offset 0. *)
Definition hdr (ihl len frag : Z) : ip_hdr := IpHdr ihl 4 0 0 len 7 frag 64 17 0 1 2.
Definition datagram (ihl len frag : Z) (payload : list Z) : packet := pkt (ip_hdr_write LittleEndian (hdr ihl len frag) ++ payload).
Definition sixteen : list Z := [0; 1; 2; 3; 4; 5; 6; 7; 8; 9; 10; 11; 12; 13; 14; 15].
Definition hw : hw_features := HwFeatures false false true false false false 1500 65521.
Definition host : @ipv4 (option Z) nat := set_host_address [2; 0; 0; 0; 0; 2] 2 ipv4_init.
End Ex.


Lemma header_longer_than_datagram_stops_witness :
  handle_received_packet LittleEndian Ex.hw 200 [2; 0; 0; 0; 0; 2] [] (fun _ => 0) 0 None 0
    (Ex.datagram 15 20 0 []) [2; 0; 0; 0; 0; 1] Ex.host = None.
Proof.
  apply (header_longer_than_datagram_stops LittleEndian Ex.hw 200 [2; 0; 0; 0; 0; 2] [] (fun _ => 0) 0 None 0
    (Ex.datagram 15 20 0 []) [2; 0; 0; 0; 0; 1] Ex.host (ip_hdr_write LittleEndian (Ex.hdr 15 20 0))); try reflexivity.
  - by apply all_bytes_ok.
Defined.
