(* ===== verification/Defrag.v ===== *)
(** * Reassembly of a datagram

    The pieces of one datagram, in any order and with repeats and between other
    traffic, are delivered exactly when the last missing byte has arrived, and
    what is delivered is the datagram.  [IpSend] shows that the fragments that
    [ipv4::send] makes are such pieces. *)

From S2P Require Import Prelude Core ByteOrder Checksum Toeplitz Packet Net Inet PacketMerger Arp Ipv4 IpHeader Reassembly FragTable.
From stdpp Require Import base numbers option gmap list.

#[local] Open Scope Z_scope.

(** ** The entry of a datagram *)

Section Datagram.
(** The datagram: its bytes, its length, its identification. *)
Variable d : Z -> Z.
Variable len : Z.
Variable id : frag_id.
Hypothesis len_pos : 0 < len.

Abbreviation dmerged := (merged (pos := upos) (inw := in_u32) (hi := 65535) d).
Abbreviation dcovers := (covers (pos := upos)).

(** A piece of it: header [h], and the packet that begins with the header. *)
Definition piece_bytes (h : ip_hdr) (p : list Z) : Z := zlen p - ihl h * 4.
Definition is_piece (h : ip_hdr) (p : list Z) : Prop :=
  frag_id_of h = id /\ 5 <= ihl h <= 15 /\ 0 < piece_bytes h p /\ offset_of h + piece_bytes h p <= len /\
  drop (Z.to_nat (ihl h * 4)) p = range d (offset_of h) (piece_bytes h p) /\
  mf_of h = (offset_of h + piece_bytes h p <? len).

(** The bytes that have arrived. *)
Definition arrived (got : list (Z * Z)) (x : Z) : Prop := Exists (fun r => fst r <= x < fst r + snd r) got.
Definition whole (got : list (Z * Z)) : Prop := forall x, 0 <= x < len -> arrived got x.

(** What the table holds of it when the ranges [got] have arrived. *)
Definition assembling (got : list (Z * Z)) (fo : option frag) : Prop :=
  Forall (fun r => 0 <= fst r /\ 0 < snd r /\ fst r + snd r <= len) got /\ ~ whole got /\
  match fo with
  | None => got = []
  | Some f => dmerged (frag_data f) /\ Forall (fun s => snd s <> []) (frag_data f) /\
      (forall x, dcovers (frag_data f) x <-> arrived got x) /\
      (last_frag_received f = true <-> arrived got (len - 1))
  end.

Lemma arrived_snoc got r x : arrived (got ++ [r]) x <-> fst r <= x < fst r + snd r \/ arrived got x.
Proof. unfold arrived. rewrite Exists_app, Exists_cons, Exists_nil. tauto. Qed.

Lemma not_whole_nil : ~ whole [].
Proof. intros H. specialize (H 0 ltac:(lia)). by apply Exists_nil in H. Qed.

Lemma merged_empty : dmerged [].
Proof. split; constructor. Qed.

Lemma assembling_frag_at got (fo : option frag) :
  assembling got fo ->
  let f := default frag_init fo in
  dmerged (frag_data f) /\ Forall (fun s => snd s <> []) (frag_data f) /\
  (forall x, dcovers (frag_data f) x <-> arrived got x) /\ (last_frag_received f = true <-> arrived got (len - 1)).
Proof.
  intros (_ & _ & H). destruct fo as [f|]; [exact H|]. cbn in *. subst got. unfold arrived, covers.
  split; [apply merged_empty|]. split; [constructor|]. split; [intros x; by rewrite !Exists_nil|]. by rewrite Exists_nil.
Qed.

Lemma range_nonempty a n : 0 < n -> range d a n <> [].
Proof. intros H E. pose proof (zlen_range d a n ltac:(lia)) as Hl. rewrite E, zlen_nil in Hl. lia. Qed.

Lemma single_data f :
  dmerged (frag_data f) -> Forall (fun s => snd s <> []) (frag_data f) ->
  (forall x, dcovers (frag_data f) x <-> 0 <= x < len) -> last_frag_received f = true ->
  complete_data f = Some (range d 0 len).
Proof.
  intros Hm Hne Hc Hl.
  destruct (merged_single (pos := upos) (inw := in_u32) (hi := 65535) d (frag_data f) 0 len Hm len_pos Hc) as (b & E & Eb).
  { intros s Hs. rewrite Forall_forall in Hne. by apply Hne. }
  cbn in Eb. subst b. unfold complete_data. by rewrite E, Hl.
Qed.

Lemma complete_whole f q :
  dmerged (frag_data f) -> complete_data f = Some q -> forall x, dcovers (frag_data f) x <-> 0 <= x < zlen q.
Proof.
  unfold complete_data. destruct (frag_data f) as [|[off p] [|]]; try done.
  destruct (last_frag_received f && (off =? 0))%bool eqn:E; [|done]. b2p. subst off. intros _ [= ->] x.
  unfold covers. rewrite Exists_cons, Exists_nil. unfold in_seg, seg_end. cbn. rewrite Z.add_0_l. tauto.
Qed.

(** One piece merged: the entry is complete exactly when everything has arrived,
    and then it holds the datagram. *)
Lemma assembling_step impl_size got (fo : option frag) h p now f' :
  assembling got fo -> is_piece h p -> piece_fits ip_hdr_size h p -> merged_entry impl_size ip_hdr_size h p now (default frag_init fo) f' ->
  let got' := got ++ [(offset_of h, piece_bytes h p)] in
  (whole got' /\ complete_data f' = Some (range d 0 len)) \/ (complete_data f' = None /\ assembling got' (Some f')).
Proof.
  intros Hasm (_ & Hi & Hn & Hl & Hb & Hmf) (_ & _ & Hfit) (_ & (lin & Em) & _ & Hlast & _) got'.
  destruct (assembling_frag_at _ _ Hasm) as (Hm & Hne & Hc & Hlst). destruct Hasm as (Hrng & Hnw & _).
  set (f := default frag_init fo) in *. rewrite Hb in Em. pose proof (offset_of_nonneg h) as Ho.
  assert (Hrng' : Forall (fun r => 0 <= fst r /\ 0 < snd r /\ fst r + snd r <= len) got').
  { apply Forall_app_2; [done|]. by repeat constructor. }
  pose proof (uint32_window_to 65535 ltac:(done)) as W. pose proof (zlen_nonneg p) as Hp.
  assert (Hin : 0 <= offset_of h < 65536) by lia.
  destruct (merge_spec (W := W) d (offset_of h) (piece_bytes h p) (frag_data f)) as (m' & lin' & E & Hm' & Hc');
    [unfold is_uint; pow2; lia|lia|unfold piece_bytes in *; lia|done|].
  cbn in E. rewrite Em in E. injection E as <- <-.
  assert (Hcov : forall x, dcovers (frag_data f') x <-> arrived got' x).
  { intros x. unfold got'. rewrite arrived_snoc. cbn [fst snd]. by rewrite Hc', Hc. }
  assert (Hne' : Forall (fun s => snd s <> []) (frag_data f')).
  { eapply merge_pieces; [|exact Hne|exact Em]. by apply range_nonempty. }
  assert (Hlst' : last_frag_received f' = true <-> arrived got' (len - 1)).
  { unfold got'. rewrite arrived_snoc, Hlast, orb_true_iff, Hlst, Hmf, negb_true_iff, Z.ltb_ge. cbn [fst snd].
    assert (len <= offset_of h + piece_bytes h p <-> offset_of h <= len - 1 < offset_of h + piece_bytes h p) by lia. tauto. }
  assert (Hbound : forall x, arrived got' x -> 0 <= x < len).
  { intros x Hx. apply Exists_exists in Hx as (r & Hr & Hx). rewrite Forall_forall in Hrng'. specialize (Hrng' r Hr). lia. }
  assert (Hwhole : whole got' -> last_frag_received f' = true -> complete_data f' = Some (range d 0 len)).
  { intros Hw Hl'. apply single_data; try done. intros x. rewrite Hcov. split; [apply Hbound|apply Hw]. }
  destruct (complete_data f') as [q|] eqn:Eq.
  - left. assert (Hl' : last_frag_received f' = true).
    { unfold complete_data in Eq. destruct (frag_data f') as [|[? ?] [|]]; try done. by destruct (last_frag_received f'). }
    assert (Hw : whole got').
    { pose proof (complete_whole f' q Hm' Eq) as Hq. intros x Hx. apply Hcov, Hq.
      apply Hlst', Hcov, Hq in Hl'. lia. }
    split; [done|]. by apply Hwhole.
  - right. split; [done|]. split; [done|]. split; [|done]. intros Hw.
    enough (last_frag_received f' = true) as Hl' by (by specialize (Hwhole Hw Hl')). apply Hlst', Hw. lia.
Qed.
End Datagram.

Lemma splice_app {A} off (bs l k : list A) :
  0 <= off -> off + zlen bs <= zlen l -> splice off bs (l ++ k) = splice off bs l ++ k.
Proof.
  intros H0 Hl. unfold splice, zlen in *. rewrite take_app_le by lia. rewrite drop_app_le by lia. by rewrite <- !app_assoc.
Qed.

(** ** At the interface of the receiver *)

Section Receive.
Context {BC : Core.BeCodec} {T : Type} {TM : Core.TimerOps T} {W : Type}.
Variable e : endian.
Variable hw : hw_features.
Variable impl_size : Z.
Variable hw_address : mac.
Variable rss_key : list Z.
Variable hash2cpu : Z -> Z.
Variable this_shard_id : Z.
Variable packet_filter : option (list Z -> ip_hdr -> mac -> bool).
Hypothesis impl_size_ok : 0 < impl_size < 2 ^ 14.
Hypothesis hw_address_ok : mac_ok hw_address.
Abbreviation ipv4 := (@Ipv4.ipv4 T W).
Abbreviation event := (@ip_event W).
Abbreviation ip_table_ok := (ip_table_ok impl_size ip_hdr_size).
Abbreviation receive := (handle_received_packet (W := W) e hw impl_size hw_address rss_key hash2cpu this_shard_id packet_filter).
Abbreviation receive_piece := (handle_fragment (W := W) e impl_size hw_address rss_key hash2cpu this_shard_id).

(** Is the header checked, and right? *)
Definition checked (p : packet) (ih : list Z) : option bool :=
  if negb (rx_csum_offload hw) && negb (reassembled (info p))
  then c ← sum e checksummer_init ih; Some (get e c =? 0) else Some true.

(** The header and the datagram of a packet that goes to reassembly. *)
Definition reassembly_input (host : ipv4_address) (p : packet) (from : mac) : option (ip_hdr * list Z) :=
  ih ← header_at 0 ip_hdr_size (bytes p);
  let h := ip_hdr_read e ih in
  match checked p ih, ip_accept h (bytes p) with
  | Some true, Some q =>
      if (match packet_filter with Some handle => handle q h from | None => false end) || negb (dst_ip h =? host) then None
      else if mf_of h || negb (offset_of h =? 0) then Some (h, q) else None
  | _, _ => None
  end.

Definition is_arp (ev : event) : Prop := match ev with IpArp _ => True | _ => False end.

(** The state and the events of learning the sender. *)
Definition learned (h : ip_hdr) (from : mac) (s : ipv4) : ipv4 * list event :=
  if in_my_netmask (src_ip h) s && negb (src_ip h =? host_address s) then ipv4_learn from (src_ip h) s else (s, []).

Definition same_table (s s' : ipv4) : Prop :=
  frags s' = frags s /\ frags_age s' = frags_age s /\ frag_mem s' = frag_mem s /\ host_address s' = host_address s.

Lemma learned_same h from s : same_table s (learned h from s).1 /\ Forall is_arp (learned h from s).2.
Proof.
  unfold learned. destruct (_ && _)%bool; [|by repeat split; constructor]. split; [apply learn_rest|].
  unfold ipv4_learn. destruct (learn _ _ _). cbn. by apply Forall_map, Forall_true.
Qed.

Lemma ip_header_at p ih :
  Forall is_byte p -> header_at 0 ip_hdr_size p = Some ih -> ip_hdr_ok (ip_hdr_read e ih).
Proof.
  unfold header_at. destruct (Z.ltb_spec (zlen p) (0 + ip_hdr_size)); [done|]. intros Hb [= <-].
  apply ip_hdr_read_ok; [by apply Forall_take, Forall_drop|]. by rewrite zlen_slice by (unfold ip_hdr_size in *; lia).
Qed.

Lemma receive_reassembly now p from (s : ipv4) h q :
  reassembly_input (host_address s) p from = Some (h, q) ->
  receive now p from s = '(s', es) ← receive_piece now h q from (learned h from s).1; Some (s', (learned h from s).2 ++ es).
Proof.
  unfold reassembly_input, handle_received_packet, checked. destruct (header_at 0 ip_hdr_size (bytes p)) as [ih|]; [|done].
  cbn [mbind option_bind]. set (h0 := ip_hdr_read e ih).
  destruct (if negb (rx_csum_offload hw) && negb (reassembled (info p)) then _ else _) as [[|]|]; [|done|done].
  destruct (ip_accept h0 (bytes p)) as [q0|]; [|done]. cbn [mbind option_bind negb].
  fold (learned h0 from s). destruct (learned_same h0 from s) as [(_ & _ & _ & Eh) _].
  destruct (learned h0 from s) as [s1 es1] eqn:El. cbn [fst] in Eh. rewrite Eh.
  destruct (match packet_filter with Some _ => _ | None => false end); [done|]. cbn [orb].
  destruct (negb (dst_ip h0 =? host_address s)); [done|].
  destruct (mf_of h0 || negb (offset_of h0 =? 0))%bool; [|done]. intros [= <- <-]. by rewrite El.
Qed.

Lemma receive_other now p from (s : ipv4) :
  Forall is_byte (bytes p) -> plausible e (bytes p) -> reassembly_input (host_address s) p from = None ->
  exists s' es, receive now p from s = Some (s', es) /\ same_table s s'.
Proof.
  intros Hb Hp. unfold reassembly_input, handle_received_packet, checked.
  destruct (header_at 0 ip_hdr_size (bytes p)) as [ih|] eqn:Eih; [|intros _; by eexists _, _].
  cbn [mbind option_bind]. pose proof (ip_header_at _ _ Hb Eih) as Hok. destruct (Hp _ Eih) as [Hi Hl].
  set (h := ip_hdr_read e ih) in *.
  assert (Hsum : exists b, checked p ih = Some b).
  { unfold checked. destruct (_ && _)%bool; [|by eexists]. destruct (sum_spec e checksummer_init ih) as (v & -> & _).
    - unfold header_at in Eih. destruct (_ <? _); [done|]. injection Eih as <-. by apply Forall_take, Forall_drop.
    - by intros [? _].
    - by eexists. }
  unfold checked in Hsum. destruct Hsum as [b ->]. cbn [mbind option_bind].
  destruct b; cbn [negb]; [|intros _; by eexists _, _].
  destruct (ip_accept h (bytes p)) as [q|] eqn:Eq; [|intros _; by eexists _, _].
  apply ip_accept_spec in Eq as (_ & Eq & _); [|lia].
  fold (learned h from s). destruct (learned_same h from s) as [Hs _].
  destruct (learned h from s) as [s1 es1]. cbn [fst] in Hs. pose proof Hs as (_ & _ & _ & Eh). rewrite Eh.
  destruct (match packet_filter with Some _ => _ | None => false end); [intros _; by eexists _, _|]. cbn [orb].
  destruct (negb (dst_ip h =? host_address s)); [intros _; by eexists _, _|].
  destruct (mf_of h || negb (offset_of h =? 0))%bool; [done|]. intros _.
  destruct (l4_registered _); [|by eexists _, _]. rewrite drop_front_ok by lia. by eexists _, _.
Qed.

Lemma reassembly_input_fits host p from h q :
  Forall is_byte (bytes p) -> plausible e (bytes p) -> reassembly_input host p from = Some (h, q) -> piece_fits ip_hdr_size h q.
Proof.
  intros Hb Hp. unfold reassembly_input. destruct (header_at 0 ip_hdr_size (bytes p)) as [ih|] eqn:Eih; [|done].
  cbn [mbind option_bind]. destruct (Hp _ Eih) as [Hi Hl]. set (h0 := ip_hdr_read e ih) in *.
  destruct (checked p ih) as [[|]|]; [|done|done]. destruct (ip_accept h0 (bytes p)) as [q0|] eqn:Eq; [|done].
  destruct (_ || _)%bool; [done|]. destruct (_ || _)%bool; [|done]. intros [= <- <-].
  apply ip_accept_spec in Eq as (_ & Eq & Ho); [|lia]. unfold piece_fits, ip_packet_len_max, ip_hdr_size in *. lia.
Qed.

(** *** One datagram among the traffic *)

Variable d : Z -> Z.
Variable len : Z.
Variable id : frag_id.
Hypothesis len_pos : 0 < len.

Definition arrival : Type := Z * packet * mac.

(** The part of the datagram that an arrival carries. *)
Definition carried (host : ipv4_address) (a : arrival) : list (Z * Z) :=
  match reassembly_input host (snd (fst a)) (snd a) with
  | Some (h, q) => if decide (frag_id_of h = id) then [(offset_of h, piece_bytes h q)] else []
  | None => []
  end.

Definition arrival_ok (host : ipv4_address) (a : arrival) : Prop :=
  let '(_, p, from) := a in
  Forall is_byte (bytes p) /\ plausible e (bytes p) /\ mac_ok from /\
  forall h q, reassembly_input host p from = Some (h, q) -> frag_id_of h = id -> is_piece d len id h q.

(** The datagram goes up, here or on the shard of its hash. *)
Definition delivered (es : list event) : Prop :=
  let '(src, dst, _, proto) := id in
  exists arps, Forall is_arp arps /\
    (es = arps ++ [IpDeliver proto (range d 0 len) src dst] \/
     exists cpu p hd, cpu <> this_shard_id /\ es = arps ++ [IpForward cpu p] /\
       bytes p = hd ++ range d 0 len /\ reassembled (info p) = true).

Lemma dispatch_delivers h f from es arps :
  frag_id_of h = id -> l4_registered (ip_proto h) = true -> entry_ok impl_size ip_hdr_size f -> mac_ok from ->
  complete_data f = Some (range d 0 len) -> Forall is_arp arps ->
  dispatch' (W := W) e hw_address rss_key hash2cpu this_shard_id h f (range d 0 len) from = Some es -> delivered (arps ++ es).
Proof.
  intros Eid Hreg ((_ & _ & _ & Hh) & _) Hfrom Hc Harps. unfold dispatch', dispatch, delivered. rewrite Hreg, <- Eid.
  unfold frag_id_of.
  destruct (push_back_u32 [] _) as [h1|]; [|done]. cbn [mbind option_bind].
  destruct (push_back_u32 h1 _) as [h2|]; [|done]. cbn [mbind option_bind].
  destruct (l4_forward e _ h2 _ 0) as [h3|]; [|done]. cbn [mbind option_bind].
  destruct (Z.eqb_spec (hash2cpu (toeplitz_hash rss_key h3)) this_shard_id).
  { intros [= <-]. exists arps. split; [done|]. by left. }
  unfold get_assembled_packet, complete_data in *. destruct (frag_data f) as [|[off q] [|]]; [done| |done].
  destruct (last_frag_received f && (off =? 0))%bool eqn:El; [|done]. b2p. subst off. injection Hc as ->.
  apply Forall_cons in Hh as [[Hh|Hh] _]; [done|]. unfold ip_hdr_size, mac_ok in *.
  destruct (header_at _ _ _); [|done]. cbn [mbind option_bind]. intros [= <-]. exists arps. split; [done|]. right.
  set (eh := mac_write hw_address ++ mac_write from ++ st e 2 eth_proto_ipv4).
  assert (Eeh : zlen eh = 14).
  { unfold eh, mac_write, zlen, st in *. rewrite !length_app, hw_address_ok, Hfrom. by destruct e. }
  rewrite (app_assoc eh). set (hd := eh ++ frag_header f).
  assert (Ehd : 34 <= zlen hd) by (unfold hd; rewrite zlen_app; lia).
  assert (E2 : forall v, zlen (host_store e 2 v) = 2) by (intros v; unfold zlen, host_store; destruct e; rewrite ?length_rev, length_be_bytes; done).
  rewrite splice_app; [|by unfold eth_hdr_len|rewrite E2; unfold eth_hdr_len; lia].
  rewrite splice_app; [|by unfold eth_hdr_len|].
  2:{ rewrite zlen_splice by (rewrite ?E2; unfold eth_hdr_len; lia). unfold zlen at 1. cbn. unfold eth_hdr_len. lia. }
  eexists _, _, _. split; [done|]. split; [done|]. cbn [bytes info reassembled]. by split.
Qed.

(** The table's part of the invariant while pieces arrive. *)
Definition waiting_for (got : list (Z * Z)) (s : ipv4) : Prop := assembling d len got (frags s !! id).

Lemma ip_table_same (s s' : ipv4) : same_table s s' -> ip_table_ok s -> ip_table_ok s'.
Proof. intros (E1 & E2 & E3 & _). unfold FragTable.ip_table_ok. by rewrite E1, E2, E3. Qed.

Hypothesis proto_registered : l4_registered (snd id) = true.

Lemma assembling_nil_r got fo : assembling d len got fo -> assembling d len (got ++ []) fo.
Proof. by rewrite app_nil_r. Qed.

(** One arrival. *)
Lemma arrival_step (host : ipv4_address) (a : arrival) got (s : ipv4) :
  ip_table_ok s -> frag_mem s <= frag_high_thresh -> host_address s = host -> waiting_for got s -> arrival_ok host a ->
  exists s' es, receive (fst (fst a)) (snd (fst a)) (snd a) s = Some (s', es) /\ ip_table_ok s' /\ host_address s' = host /\
    ((whole len (got ++ carried host a) /\ carried host a <> [] /\ frags s' !! id = None /\ delivered es) \/
     (waiting_for (got ++ carried host a) s' /\ (carried host a <> [] -> Forall is_arp es))).
Proof.
  destruct a as [[now p] from]. intros Hok Hmem <- Hwait (Hb & Hp & Hfrom & Hpiece). cbn [fst snd] in *. unfold carried. cbn [fst snd].
  destruct (reassembly_input (host_address s) p from) as [[h q]|] eqn:Ei.
  - pose proof (reassembly_input_fits _ _ _ _ _ Hb Hp Ei) as Hfit. rewrite (receive_reassembly _ _ _ _ _ _ Ei).
    destruct (learned_same h from s) as [Hsame Harps]. destruct (learned h from s) as [s1 es1]. cbn [fst snd] in *.
    pose proof (ip_table_same _ _ Hsame Hok) as Hok1. pose proof Hsame as (Ef & _ & Em & Eh).
    assert (Hlim : frag_limit_mem s1 = s1) by (apply frag_limit_mem_idle; by rewrite Em).
    destruct (handle_fragment_spec e impl_size hw_address rss_key hash2cpu this_shard_id impl_size_ok ip_hdr_size now h q from s1 ltac:(done)
      Hok1 Hfit Hfrom hw_address_ok) as (f' & s' & es & E & Hmerged & Hok' & Hrest & Hres).
    rewrite E. cbn [mbind option_bind]. rewrite Hlim in Hmerged, Hres.
    assert (Eh' : host_address s' = host_address s) by (destruct Hrest as (_ & -> & _); done).
    eexists s', _. split; [done|]. split; [done|]. split; [done|].
    unfold frag_at in Hmerged. rewrite Ef in Hmerged, Hres. destruct (decide (frag_id_of h = id)) as [Eid|Hne].
    + rewrite Eid in Hmerged, Hres. destruct (assembling_step d len id len_pos impl_size got _ h q now f' Hwait (Hpiece _ _ eq_refl Eid) Hfit Hmerged)
        as [[Hw Hc]|[Hc Hasm]]; rewrite Hc in Hres; destruct Hres as [Hd Hfr].
      * left. split_and!; [done|done|by rewrite Hfr, lookup_delete_eq|].
        apply (dispatch_delivers h f' from); try done; [by rewrite <- Eid in proto_registered|by destruct Hmerged].
      * right. split; [unfold waiting_for; by rewrite Hfr, lookup_insert_eq|]. intros _. rewrite Hd. by rewrite app_nil_r.
    + right. split; [|done]. apply assembling_nil_r. unfold waiting_for in *.
      replace (frags s' !! id) with (frags s !! id); [done|].
      destruct (complete_data f') as [dd|]; destruct Hres as [_ ->]; by rewrite ?lookup_delete_ne, ?lookup_insert_ne.
  - destruct (receive_other now p from s Hb Hp Ei) as (s' & es & E & Hsame). exists s', es.
    split; [done|]. split; [by apply (ip_table_same s)|]. split; [by destruct Hsame as (_ & _ & _ & ->)|].
    right. split; [|done]. apply assembling_nil_r. unfold waiting_for in *. by destruct Hsame as (-> & _).
Qed.

(** Arrivals one after the other, with the events of each. *)
Fixpoint receive_all (arr : list arrival) (s : ipv4) : option (ipv4 * list (list event)) :=
  match arr with
  | [] => Some (s, [])
  | a :: arr =>
      '(s, es) ← receive (fst (fst a)) (snd (fst a)) (snd a) s;
      '(s, ess) ← receive_all arr s;
      Some (s, es :: ess)
  end.

(** The memory limit is not reached on the way. *)
Definition calm (arr : list arrival) (s : ipv4) : Prop :=
  forall k s' ess, receive_all (take k arr) s = Some (s', ess) -> frag_mem s' <= frag_high_thresh.

Definition carried_all (host : ipv4_address) (arr : list arrival) : list (Z * Z) := concat (map (carried host) arr).

Lemma whole_mono got got' : whole len got -> whole len (got ++ got').
Proof. intros H x Hx. unfold arrived. apply Exists_app. left. by apply H. Qed.

Lemma receive_all_waiting (host : ipv4_address) arr : forall got (s : ipv4),
  ip_table_ok s -> host_address s = host -> waiting_for got s -> Forall (arrival_ok host) arr -> calm arr s ->
  ~ whole len (got ++ carried_all host arr) ->
  exists s' ess, receive_all arr s = Some (s', ess) /\ ip_table_ok s' /\ host_address s' = host /\
    waiting_for (got ++ carried_all host arr) s' /\
    Forall2 (fun a es => carried host a <> [] -> Forall is_arp es) arr ess.
Proof.
  induction arr as [|a arr IH]; intros got s Hok Hh Hw Harr Hc Hnw.
  { exists s, []. split_and!; try done. cbn. by apply assembling_nil_r. }
  apply Forall_cons in Harr as [Ha Harr]. unfold carried_all in Hnw. cbn [map concat] in Hnw. rewrite app_assoc in Hnw.
  assert (Hmem : frag_mem s <= frag_high_thresh) by by apply (Hc O s []).
  destruct (arrival_step host a got s Hok Hmem Hh Hw Ha) as (s1 & es & E & Hok1 & Hh1 & [(Hwh & _)|[Hw1 Hes]]).
  { destruct Hnw. by apply whole_mono. }
  destruct (IH (got ++ carried host a) s1 Hok1 Hh1 Hw1 Harr) as (s2 & ess & E2 & Hok2 & Hh2 & Hw2 & Hf2); [|done|].
  { intros k s' ess' Ek. apply (Hc (S k) s' (es :: ess')). cbn [take receive_all]. rewrite E. cbn [mbind option_bind].
    by rewrite Ek. }
  exists s2, (es :: ess). cbn [receive_all]. rewrite E. cbn [mbind option_bind]. rewrite E2.
  split_and!; try done; [|by constructor]. unfold carried_all. cbn [map concat]. by rewrite app_assoc.
Qed.

Lemma defragments (host : ipv4_address) pre last (s : ipv4) :
  ip_table_ok s -> host_address s = host -> frags s !! id = None ->
  Forall (arrival_ok host) (pre ++ [last]) -> calm pre s ->
  ~ whole len (carried_all host pre) -> whole len (carried_all host (pre ++ [last])) ->
  exists s1 ess s2 es, receive_all pre s = Some (s1, ess) /\
    Forall2 (fun a es => carried host a <> [] -> Forall is_arp es) pre ess /\
    receive (fst (fst last)) (snd (fst last)) (snd last) s1 = Some (s2, es) /\
    delivered es /\ frags s2 !! id = None /\ ip_table_ok s2.
Proof.
  intros Hok Hh Hid Harr Hc Hnw Hw. apply Forall_app in Harr as [Hpre Hlast]. apply Forall_cons in Hlast as [Hlast _].
  assert (Hwait : waiting_for [] s).
  { unfold waiting_for, assembling. rewrite Hid. split_and!; [constructor|by apply not_whole_nil|done]. }
  destruct (receive_all_waiting host pre [] s Hok Hh Hwait Hpre Hc Hnw) as (s1 & ess & E & Hok1 & Hh1 & Hw1 & Hf).
  assert (Hmem : frag_mem s1 <= frag_high_thresh).
  { apply (Hc (length pre) s1 ess). by rewrite take_ge by lia. }
  destruct (arrival_step host last _ s1 Hok1 Hmem Hh1 Hw1 Hlast) as (s2 & es & E2 & Hok2 & _ & [(_ & _ & Hn & Hd)|[Hwait2 _]]).
  { by exists s1, ess, s2, es. }
  destruct Hwait2 as (_ & Hnw2 & _). destruct Hnw2.
  unfold carried_all in *. rewrite map_app, concat_app in Hw. cbn in Hw. by rewrite app_nil_r in Hw.
Qed.
End Receive.

(** ** The property *)

