(* ===== verification/IpSend.v ===== *)
(** * What [ipv4::send] sends, and that it is reassembled

    The fragments of a datagram as a list, the pieces they are to the receiver,
    and the composition of the sender's loop with the receiver's table. *)

From S2P Require Import Prelude Core ByteOrder Checksum Toeplitz Packet Net Inet PacketMerger Arp Ipv4 IpHeader Reassembly FragTable Defrag.
From stdpp Require Import base numbers option gmap list.

#[local] Open Scope Z_scope.

(** ** Checksums of headers *)

Lemma sum_byte_string e c bs :
  Forall is_byte bs -> odd c = false -> exists v, sum e c bs = Some (Checksummer (csum c + v) (Z.odd (zlen bs))) /\
    oc_eq v (oc_sum false bs) /\ v <= 2 ^ 61 * zlen bs.
Proof.
  intros Hb Ho. destruct (sum_spec e c bs Hb) as (v & E & H1 & H2); [by rewrite Ho; intros [? _]|].
  exists v. rewrite E, Ho. split_and!; [|by rewrite Ho in H1|done]. by destruct (Z.odd _).
Qed.

(** The bytes of [l] as a stream. *)
Definition stream (l : list Z) (i : Z) : Z := nth (Z.to_nat i) l 0.

Lemma slice_range (l : list Z) off n :
  0 <= off -> 0 <= n -> off + n <= zlen l -> slice off n l = range (stream l) off n.
Proof.
  intros Ho Hn Hl. unfold zlen in Hl. unfold slice, range.
  apply list_eq. intros k. rewrite list_lookup_fmap. destruct (decide (k < Z.to_nat n)%nat) as [Hk|Hk].
  - rewrite lookup_take_lt by lia. rewrite lookup_drop, lookup_seq_lt by lia. cbn. unfold stream.
    replace (Z.to_nat (off + Z.of_nat k)) with (Z.to_nat off + k)%nat by lia.
    rewrite nth_lookup. destruct (l !! (Z.to_nat off + k)%nat) eqn:E; [done|]. apply lookup_ge_None in E. lia.
  - rewrite lookup_take_ge by lia. by rewrite lookup_seq_ge by lia.
Qed.

(** ** The fragments *)

Section Send.
Context {T W : Type}.
Variable e : endian.
Variable hw : hw_features.
Abbreviation ipv4 := (@Ipv4.ipv4 T W).

Section Datagram.
Variable src to : ipv4_address.
Variable proto : Z.
Variable e_dst : mac.
Variable p : packet.

(** Bytes in a fragment *)
Definition room : Z := mtu hw - ipv4_hdr_len_min.
Definition piece (off : Z) : Z := Z.min room (plen p - off).
Definition more (off : Z) : bool := 0 <? plen p - off - piece off.

Definition frag_hdr (off csum : Z) : ip_hdr :=
  IpHdr 5 4 0 0 (piece off + ip_hdr_size) 0 (Z.lor (Z.shiftl (Z.b2z (more off)) 13) (off / 8)) 64 proto csum src to.

(** The checksum field: zero when the device computes it. *)
Definition frag_csum (off : Z) : Z :=
  if tx_csum_ip_offload hw then 0
  else match sum e checksummer_init (ip_hdr_write e (frag_hdr off 0)) with
       | Some c => ntoh e 2 (get e c)
       | None => 0
       end.

Definition frag_bytes (off : Z) : list Z :=
  ip_hdr_write e (frag_hdr off (frag_csum off)) ++ range (stream (bytes p)) off (piece off).

Fixpoint offsets (fuel : nat) (off : Z) : list Z :=
  match fuel with
  | O => []
  | S fuel => if plen p <=? off then [] else off :: offsets fuel (off + room)
  end.
Definition frag_offsets : list Z := offsets (Z.to_nat (plen p)) 0.

Definition frag_info : offload_info :=
  let i := info p in
  if tx_csum_ip_offload hw
  then OffloadInfo (protocol i) (needs_csum i) (Packet.ip_hdr_len i) (tcp_hdr_len i) (udp_hdr_len i) true (reassembled i)
                   (tso_seg_size i) (vlan_tci i)
  else i.

Definition frame (off : Z) : l3packet := L3Packet eth_proto_ipv4 e_dst (Pkt (frag_bytes off) frag_info).

Hypothesis room_ok : 8 <= room /\ room mod 8 = 0 /\ mtu hw < 2 ^ 16.
Hypothesis plen_ok : plen p <= 65515.
Hypothesis proto_ok : is_byte proto.
Hypothesis src_ok : is_uint 32 src.
Hypothesis to_ok : is_uint 32 to.

Lemma ntoh2_range v : is_uint 16 v -> is_uint 16 (ntoh e 2 v).
Proof.
  intros Hv. rewrite ntoh_bswap by (done || by (right; left)). destruct e; [apply bswap_range|done].
Qed.

Lemma get_range c : is_uint 16 (get e c).
Proof. apply wrap_range. lia. Qed.

Lemma frag_csum_range off : is_uint 16 (frag_csum off).
Proof.
  unfold frag_csum. destruct (tx_csum_ip_offload hw); [done|].
  destruct (sum _ _ _); [apply ntoh2_range, get_range|done].
Qed.

Lemma frag_field_sum off :
  0 <= off < 65536 -> Z.lor (Z.shiftl (Z.b2z (more off)) 13) (off / 8) = Z.b2z (more off) * 8192 + off / 8.
Proof.
  intros Ho. assert (0 <= off / 8 < 2 ^ 13) by (change (2 ^ 13) with 8192; zlia).
  pose proof (Z.add_lor_land (Z.shiftl (Z.b2z (more off)) 13) (off / 8)) as E.
  enough (Z.land (Z.shiftl (Z.b2z (more off)) 13) (off / 8) = 0) as E0
    by (rewrite E0, Z.shiftl_mul_pow2 in E by lia; rewrite Z.shiftl_mul_pow2 by lia; change (2 ^ 13) with 8192 in *; lia). apply Z.bits_inj'. intros n Hn.
  rewrite Z.land_spec, Z.bits_0, Z.shiftl_spec by lia. destruct (Z.ltb_spec n 13).
  - by rewrite Z.testbit_neg_r by lia.
  - replace (off / 8) with (off / 8 mod 2 ^ 13) by (by apply Z.mod_small).
    rewrite Z.mod_pow2_bits_high by lia. apply andb_false_r.
Qed.

Lemma frag_field_range off : 0 <= off < 65536 -> is_uint 16 (Z.lor (Z.shiftl (Z.b2z (more off)) 13) (off / 8)).
Proof.
  intros Ho. rewrite frag_field_sum by done. assert (0 <= off / 8 < 8192) by zlia.
  unfold is_uint. pow2. destruct (more off); cbn [Z.b2z]; lia.
Qed.

Lemma frag_field_bits off :
  0 <= off < 65536 -> off mod 8 = 0 -> mf_of (frag_hdr off 0) = more off /\ offset_of (frag_hdr off 0) = off.
Proof.
  intros Ho H8. unfold mf_of, offset_of, frag_hdr. cbn [ip_frag].
  assert (Hq : 0 <= off / 8 < 8192) by zlia.
  assert (Hbit : forall n, 13 <= n -> Z.testbit (off / 8) n = false).
  { intros n Hn. replace (off / 8) with (off / 8 mod 2 ^ 13) by (apply Z.mod_small; change (2 ^ 13) with 8192; lia).
    by rewrite Z.mod_pow2_bits_high by lia. }
  split.
  - rewrite Z.land_lor_distr_l. 
    assert (Z.land (off / 8) (Z.shiftl 1 13) = 0) as ->.
    { apply Z.bits_inj'. intros n Hn. rewrite Z.land_spec, Z.bits_0, Z.shiftl_spec by lia.
      destruct (Z.ltb_spec n 13); [by rewrite (Z.testbit_neg_r 1), andb_false_r by lia|]. by rewrite Hbit by lia. }
    rewrite Z.lor_0_r. by destruct (more off).
  - rewrite frag_field_sum, Z.shiftl_mul_pow2 by lia. unfold wrap. pow2. change (2 ^ 3) with 8.
    destruct (more off); cbn [Z.b2z]; zlia.
Qed.

Lemma piece_bounds off : 0 <= off < plen p -> 0 < piece off <= plen p - off /\ piece off <= room.
Proof. unfold piece. lia. Qed.

Lemma frag_hdr_ok off : 0 <= off < plen p -> ip_hdr_ok (frag_hdr off (frag_csum off)).
Proof.
  intros Ho. pose proof (piece_bounds off Ho). unfold ip_hdr_ok, frag_hdr.
  cbn [ihl ver dscp ecn ip_len ip_id ip_frag ttl ip_proto ip_csum src_ip dst_ip].
  assert (is_uint 16 (piece off + ip_hdr_size)) as Hl by (unfold is_uint, ip_hdr_size; pow2; lia).
  refine (conj _ (conj _ (conj _ (conj _ (conj Hl (conj _ (conj (frag_field_range off _) (conj _ (conj proto_ok
    (conj (frag_csum_range off) (conj src_ok to_ok))))))))))); done || lia.
Qed.

(** The checksum is put into the header after it is written. *)
Lemma splice_csum h v :
  is_uint 16 v ->
  splice 10 (host_store e 2 v) (ip_hdr_write e h) =
  ip_hdr_write e (IpHdr (ihl h) (ver h) (dscp h) (ecn h) (ip_len h) (ip_id h) (ip_frag h) (ttl h) (ip_proto h) (ntoh e 2 v)
                        (src_ip h) (dst_ip h)).
Proof.
  intros Hv. unfold ip_hdr_write. cbn [ihl ver dscp ecn ip_len ip_id ip_frag ttl ip_proto ip_csum src_ip dst_ip].
  assert (E : st e 2 (ntoh e 2 v) = host_store e 2 v).
  { unfold st. f_equal. change (hton e 2 (ntoh e 2 v)) with (ntoh e 2 (hton e 2 v)).
    apply ntoh_hton; [right; by left|done]. }
  rewrite E. rewrite !app_assoc. rewrite <- (app_assoc _ (st e 4 (src_ip h))).
  assert (L2 : forall v, length (host_store e 2 v) = 2%nat) by (intros; by destruct e).
  assert (Hst : forall v, length (st e 2 v) = 2%nat) by (intros; apply L2).
  set (pre := (((([_; _] ++ _) ++ _) ++ _) ++ _)). 
  assert (Lp : length pre = 10%nat) by (unfold pre; rewrite !length_app, !Hst; done).
  rewrite <- (app_assoc pre (st e 2 _)), <- (app_assoc pre (host_store e 2 v)). unfold splice. change (Z.to_nat 10) with 10%nat.
  rewrite take_app_length' by done. rewrite <- !app_assoc. f_equal. rewrite L2. f_equal.
  rewrite <- drop_drop, drop_app_length' by done. by rewrite drop_app_length' by (by rewrite Hst).
Qed.

Lemma ip_hdr_write_bytes h : ip_hdr_ok h -> Forall is_byte (ip_hdr_write e h).
Proof.
  intros (H1 & H2 & H3 & H4 & _ & _ & _ & H8 & H9 & _). unfold ip_hdr_write.
  assert (Hst : forall n v, Forall is_byte (st e n v)).
  { intros n v. unfold st, host_store. destruct e; [apply Forall_rev|]; apply be_bytes_range. }
  repeat apply Forall_app_2; try apply Hst; repeat (apply Forall_cons; split); try done.
  - by apply bits_round.
  - by apply bits_round.
Qed.

Lemma frag_hdr0_ok off : 0 <= off < plen p -> ip_hdr_ok (frag_hdr off 0).
Proof.
  intros Ho. destruct (frag_hdr_ok off Ho) as (H1 & H2 & H3 & H4 & H5 & H6 & H7 & H8 & H9 & _ & H11 & H12).
  exact (conj H1 (conj H2 (conj H3 (conj H4 (conj H5 (conj H6 (conj H7 (conj H8 (conj H9 (conj (conj (Z.le_refl 0) eq_refl) (conj H11 H12))))))))))).
Qed.

(** The header as it leaves: summed and stored, or left to the device. *)
Lemma send_pkt_frame off (s : ipv4) :
  0 <= off < plen p -> host_address s = src ->
  send_pkt e hw true to proto e_dst (Pkt (range (stream (bytes p)) off (piece off)) (info p)) (plen p - off - piece off) off s =
  Some (set_packetq (ip_packetq s ++ [frame off]) s).
Proof.
  intros Ho Hs. pose proof (piece_bounds off Ho) as [Hp1 Hp2]. unfold send_pkt. cbn [bytes info]. rewrite Hs.
  assert (El : plen (Pkt (range (stream (bytes p)) off (piece off)) (info p)) = piece off).
  { unfold plen. cbn [bytes]. by rewrite zlen_range by lia. }
  rewrite El. rewrite (wrap_small 16) by (unfold ip_hdr_size; pow2; lia). rewrite (wrap_small 8 proto) by exact proto_ok.
  change (Z.b2z (0 <? plen p - off - piece off)) with (Z.b2z (more off)). fold (frag_hdr off 0).
  unfold frame, frag_bytes, frag_csum, frag_info. destruct (tx_csum_ip_offload hw); [done|].
  destruct (sum_byte_string e checksummer_init (ip_hdr_write e (frag_hdr off 0))) as (v & -> & _);
    [apply ip_hdr_write_bytes, frag_hdr0_ok; lia|done|].
  cbn [mbind option_bind]. rewrite splice_csum by apply get_range. done.
Qed.

Lemma offsets_nil fuel off : plen p <= off -> offsets fuel off = [].
Proof. intros H. destruct fuel; [done|]. cbn. by rewrite (proj2 (Z.leb_le _ _)). Qed.

(** The loop, from any offset. *)
Lemma send_frags_frames fuel : forall off (s : ipv4),
  0 <= off <= plen p -> plen p - off <= Z.of_nat fuel -> host_address s = src ->
  send_frags e hw fuel to proto e_dst p (plen p - off) off s =
  Some (set_packetq (ip_packetq s ++ map frame (offsets fuel off)) s).
Proof.
  induction fuel as [|fuel IH]; intros off s Ho Hf Hs; cbn [send_frags offsets].
  - rewrite (proj2 (Z.eqb_eq _ _)) by lia. cbn. rewrite app_nil_r. by destruct s.
  - destruct (Z.leb_spec (plen p) off).
    { rewrite (proj2 (Z.eqb_eq _ _)) by lia. cbn. rewrite app_nil_r. by destruct s. }
    rewrite (proj2 (Z.eqb_neq _ _)) by lia. pose proof room_ok as (R1 & R2 & R3). pose proof (piece_bounds off ltac:(lia)) as [Hp1 Hp2].
    rewrite (wrap_small 16 (mtu hw - ipv4_hdr_len_min)) by (unfold room, ipv4_hdr_len_min in *; pow2; lia).
    change (Z.min (mtu hw - ipv4_hdr_len_min) (plen p - off)) with (piece off).
    unfold plen in *. rewrite share_bytes_ok by lia. cbn [mbind option_bind]. rewrite slice_range by lia.
    fold (plen p) in *. rewrite send_pkt_frame by (done || lia). cbn [mbind option_bind].
    rewrite (wrap_small 16 (off + piece off)) by (pow2; lia).
    replace (plen p - off - piece off) with (plen p - (off + piece off)) by lia.
    rewrite IH; [|lia|lia|by destruct s]. f_equal. cbn [map]. 
    replace (offsets fuel (off + piece off)) with (offsets fuel (off + room)).
    { destruct s. cbn. by rewrite <- app_assoc. }
    unfold piece in *. destruct (Z.leb_spec room (plen p - off)); [f_equal; lia|].
    by rewrite !offsets_nil by lia.
Qed.

Lemma ipv4_send_frames (s : ipv4) :
  host_address s = src -> needs_frag (plen p) proto hw = true ->
  ipv4_send e hw to proto p e_dst s = Some (set_packetq (ip_packetq s ++ map frame frag_offsets) s).
Proof.
  intros Hs Hn. unfold ipv4_send. rewrite Hn. assert (0 <= plen p) by apply zlen_nonneg.
  rewrite wrap_small by (pow2; lia). rewrite <- (Z.sub_0_r (plen p)) at 2. by apply send_frags_frames; lia.
Qed.

(** The offsets: every multiple of the room. *)
Lemma in_offsets fuel : forall off o,
  0 <= off -> off mod room = 0 -> plen p - off <= Z.of_nat fuel ->
  o ∈ offsets fuel off <-> off <= o < plen p /\ o mod room = 0.
Proof.
  pose proof room_ok as (R1 & R2 & R3).
  induction fuel as [|fuel IH]; intros off o H0 Hm Hf; cbn [offsets].
  - rewrite elem_of_nil. lia.
  - destruct (Z.leb_spec (plen p) off); [rewrite elem_of_nil; lia|]. rewrite elem_of_cons, IH; [|lia| |lia].
    + split; [intros [->|?]; [lia|intuition lia]|]. intros [Ho Hom]. destruct (Z.eq_dec o off); [by left|right].
      split; [|done]. assert (o / room > off / room).
      { pose proof (Z.div_mod o room ltac:(lia)). pose proof (Z.div_mod off room ltac:(lia)). nia. }
      pose proof (Z.div_mod o room ltac:(lia)). pose proof (Z.div_mod off room ltac:(lia)). nia.
    + rewrite <- Zplus_mod_idemp_r, Z_mod_same_full, Z.add_0_r. done.
Qed.

Lemma in_frag_offsets o : o ∈ frag_offsets <-> 0 <= o < plen p /\ o mod room = 0.
Proof.
  unfold frag_offsets. assert (0 <= plen p) by apply zlen_nonneg.
  apply in_offsets; [lia|by rewrite Zmod_0_l|lia].
Qed.

(** ** What the receiver sees *)

Variable hwr : hw_features.
Hypothesis frag_needed : needs_frag (plen p) proto hw = true.
Hypothesis payload_bytes : Forall is_byte (bytes p).
(** The checksum: left to the receiving device, or computed and checked in
    software, on a big-endian host. *)
Hypothesis checksum_path :
  rx_csum_offload hwr = true \/ e = BigEndian /\ tx_csum_ip_offload hw = false.

Abbreviation hdr off := (frag_hdr off (frag_csum off)).

Lemma room_less : room < plen p.
Proof.
  unfold needs_frag in frag_needed. destruct (Z.leb_spec (plen p + ipv4_hdr_len_min) (mtu hw)); [done|]. unfold room. lia.
Qed.

Lemma write_with_csum h : exists pre post, Forall is_byte [] /\ length pre = 10%nat /\
  forall c, ip_hdr_write e (IpHdr (ihl h) (ver h) (dscp h) (ecn h) (ip_len h) (ip_id h) (ip_frag h) (ttl h) (ip_proto h) c
                        (src_ip h) (dst_ip h)) = pre ++ st e 2 c ++ post.
Proof.
  exists ([bits_pack e 4 (ihl h) (ver h); bits_pack e 6 (dscp h) (ecn h)] ++ st e 2 (ip_len h) ++ st e 2 (ip_id h) ++
    st e 2 (ip_frag h) ++ [ttl h; ip_proto h]), (st e 4 (src_ip h) ++ st e 4 (dst_ip h)).
  split; [constructor|]. split.
  - assert (Hst : forall v, length (st e 2 v) = 2%nat) by (intros; by destruct e). rewrite !length_app, !Hst. done.
  - intros c. unfold ip_hdr_write. cbn [ihl ver dscp ecn ip_len ip_id ip_frag ttl ip_proto ip_csum src_ip dst_ip].
    by rewrite <- !app_assoc.
Qed.

(** The header that leaves sums to zero. *)
Lemma frag_checksum off :
  0 <= off < plen p -> e = BigEndian -> tx_csum_ip_offload hw = false ->
  exists c, sum e checksummer_init (ip_hdr_write e (hdr off)) = Some c /\ get e c = 0.
Proof.
  intros Ho Ee Htx. pose proof (frag_hdr0_ok off Ho) as H0. pose proof (ip_hdr_write_bytes _ H0) as Hb.
  destruct (sum_byte_string e checksummer_init _ Hb) as (v & E0 & _); [done|].
  assert (Ec : ip_checksum BigEndian (ip_hdr_write e (frag_hdr off 0)) = Some (frag_csum off)).
  { unfold ip_checksum, frag_csum. rewrite Htx, <- Ee, E0.
    assert (En : forall v, ntoh e 2 v = v) by (intros w; rewrite Ee; reflexivity). by rewrite En. }
  destruct (write_with_csum (frag_hdr off 0)) as (pre & post & _ & Hpre & Hw).
  pose proof (Hw 0) as W0. pose proof (Hw (frag_csum off)) as W1.
  change (IpHdr _ _ _ _ _ _ _ _ _ 0 _ _) with (frag_hdr off 0) in W0.
  change (IpHdr _ _ _ _ _ _ _ _ _ (frag_csum off) _ _) with (hdr off) in W1.
  assert (Est : forall c, st e 2 c = host_store BigEndian 2 c) by (intros c; unfold st; by rewrite Ee).
  rewrite Est in W0, W1. change (host_store BigEndian 2 0) with [0; 0] in W0.
  rewrite W0 in Ec, Hb. apply Forall_app in Hb as [Hb1 Hb2]. apply Forall_app in Hb2 as [_ Hb2].
  assert (Hl : zlen (pre ++ [0; 0] ++ post) < 2 ^ 60) by (rewrite <- W0, length_ip_hdr_write; done).
  assert (Ho' : Z.odd (zlen pre) = false) by (unfold zlen; by rewrite Hpre).
  pose proof (stored_checksum_verifies pre post _ Hb1 Hb2 Ho' Hl Ec) as Ev. rewrite <- W1 in Ev.
  unfold ip_checksum in Ev. rewrite <- Ee in Ev. destruct (sum e checksummer_init (ip_hdr_write e (hdr off))) as [c|]; [|done].
  exists c. split; [done|]. congruence.
Qed.

Lemma frag_bytes_bytes off : 0 <= off < plen p -> Forall is_byte (frag_bytes off).
Proof.
  intros Ho. apply Forall_app_2; [by apply ip_hdr_write_bytes, frag_hdr_ok|].
  pose proof (piece_bounds off Ho). unfold plen in *. rewrite <- slice_range by lia. by apply Forall_take, Forall_drop.
Qed.

Lemma zlen_fragment_bytes off : 0 <= off < plen p -> zlen (frag_bytes off) = ip_hdr_size + piece off.
Proof.
  intros Ho. pose proof (piece_bounds off Ho). unfold frag_bytes. by rewrite zlen_app, length_ip_hdr_write, zlen_range by lia.
Qed.

Lemma frag_header_at off :
  0 <= off < plen p -> header_at 0 ip_hdr_size (frag_bytes off) = Some (ip_hdr_write e (hdr off)) /\
  ip_hdr_read e (ip_hdr_write e (hdr off)) = hdr off.
Proof.
  intros Ho. pose proof (piece_bounds off Ho). split.
  - unfold header_at. rewrite zlen_fragment_bytes by done. rewrite (proj2 (Z.ltb_ge _ _)) by lia.
    unfold frag_bytes. by rewrite slice_app_l by apply length_ip_hdr_write.
  - rewrite <- (app_nil_r (ip_hdr_write _ _)). by apply ip_read_write, frag_hdr_ok.
Qed.

Definition sent_id : frag_id := (src, to, 0, proto).

(** A frame goes to reassembly as a piece of the datagram. *)
Lemma frame_input off from :
  0 <= off < plen p -> off mod room = 0 ->
  reassembly_input e hwr None to (l3_p (frame off)) from = Some (hdr off, frag_bytes off) /\
  is_piece (stream (bytes p)) (plen p) sent_id (hdr off) (frag_bytes off) /\
  piece_bytes (hdr off) (frag_bytes off) = piece off /\ offset_of (hdr off) = off.
Proof.
  intros Ho Hm. pose proof (piece_bounds off Ho) as [Hp1 Hp2]. pose proof room_ok as (R1 & R2 & R3).
  assert (H8 : off mod 8 = 0).
  { pose proof (Z.div_mod off room ltac:(lia)). pose proof (Z.div_mod room 8 ltac:(lia)).
    replace off with ((off / room * (room / 8)) * 8) by nia. by rewrite Z.mod_mul. }
  destruct (frag_field_bits off ltac:(lia) H8) as [Hmf Hoff].
  change (mf_of (frag_hdr off 0)) with (mf_of (hdr off)) in Hmf.
  change (offset_of (frag_hdr off 0)) with (offset_of (hdr off)) in Hoff.
  destruct (frag_header_at off Ho) as [Eh Er]. pose proof (zlen_fragment_bytes off Ho) as Hl. unfold ip_hdr_size in Hl.
  assert (Hpb : piece_bytes (hdr off) (frag_bytes off) = piece off).
  { unfold piece_bytes. rewrite Hl. cbn [ihl frag_hdr]. lia. }
  split_and!; [|split_and!| |]; try done; rewrite ?Hpb, ?Hoff; try lia; try (cbn; lia).
  - unfold reassembly_input. cbn [l3_p frame bytes]. rewrite Eh. cbn [mbind option_bind]. rewrite Er.
    assert (Ec : checked e hwr (Pkt (frag_bytes off) frag_info) (ip_hdr_write e (hdr off)) = Some true).
    { unfold checked. pose proof checksum_path as [->|[Ee Htx]]; [done|].
      destruct (frag_checksum off Ho Ee Htx) as (c & -> & Eg). cbn [mbind option_bind]. rewrite Eg. by destruct (_ && _)%bool. }
    unfold frame. cbn [l3_p]. rewrite Ec.
    assert (Ea : ip_accept (hdr off) (frag_bytes off) = Some (frag_bytes off)).
    { unfold ip_accept. rewrite Hl, Hoff. change (ip_len (hdr off)) with (piece off + 20).
      rewrite (Z.add_comm (piece off) 20), !Z.ltb_irrefl, Hl.
      by rewrite (proj2 (Z.ltb_ge _ _)) by (unfold ip_packet_len_max; lia). }
    rewrite Ea. change (dst_ip (hdr off)) with to. rewrite Z.eqb_refl. cbn [negb orb]. rewrite Hmf, Hoff.
    pose proof room_less. unfold more, piece in *. destruct (Z.ltb_spec 0 (plen p - off - Z.min room (plen p - off))); [done|].
    by destruct (Z.eqb_spec off 0); [lia|].
  - change (Z.to_nat (ihl (hdr off) * 4)) with 20%nat. unfold frag_bytes. apply drop_app_length'.
    pose proof (length_ip_hdr_write e (hdr off)) as E. unfold zlen, ip_hdr_size in E. lia.
  - rewrite Hmf. unfold more. destruct (Z.ltb_spec 0 (plen p - off - piece off)), (Z.ltb_spec (off + piece off) (plen p)); lia || done.
Qed.

(** The arrivals of frames, in any order and with repeats. *)
Definition frame_arrival (a : arrival) : Prop :=
  (exists o, o ∈ frag_offsets /\ snd (fst a) = l3_p (frame o)) /\ mac_ok (snd a).
Definition has_arrived (arr : list arrival) (o : Z) : Prop := Exists (fun a => snd (fst a) = l3_p (frame o)) arr.

(** Anything else that arrives at the receiver: no fragment with the identification
    of the datagram. *)
Definition other_arrival (a : arrival) : Prop :=
  Forall is_byte (bytes (snd (fst a))) /\ plausible e (bytes (snd (fst a))) /\ mac_ok (snd a) /\
  forall h q, reassembly_input e hwr None to (snd (fst a)) (snd a) = Some (h, q) -> frag_id_of h <> sent_id.

Lemma frame_plausible off : 0 <= off < plen p -> plausible e (frag_bytes off).
Proof.
  intros Ho ih. destruct (frag_header_at off Ho) as [-> Er]. intros [= <-]. rewrite Er. cbn [ihl ip_len frag_hdr].
  pose proof (piece_bounds off Ho). unfold ip_hdr_size. lia.
Qed.

Lemma frame_arrival_ok a :
  frame_arrival a -> arrival_ok e hwr None (stream (bytes p)) (plen p) sent_id to a.
Proof.
  destruct a as [[now q] from]. intros [(o & Ho & Eq) Hfrom]. cbn [fst snd] in *. subst q.
  apply in_frag_offsets in Ho as [Ho Hm]. unfold arrival_ok. split; [by apply frag_bytes_bytes|].
  split; [by apply frame_plausible|]. split; [done|]. intros h q Ei _.
  destruct (frame_input o from Ho Hm) as (E & Hp & _). rewrite E in Ei. by injection Ei as <- <-.
Qed.

Lemma other_arrival_ok a : other_arrival a -> arrival_ok e hwr None (stream (bytes p)) (plen p) sent_id to a.
Proof. destruct a as [[now q] from]. intros (Hb & Hp & Hm & Hid). cbn [fst snd] in *. split_and!; try done. intros h r Ei E. by destruct (Hid h r Ei). Qed.

Lemma carried_other a : other_arrival a -> carried e hwr None sent_id to a = [].
Proof.
  intros (_ & _ & _ & Hid). unfold carried. destruct (reassembly_input _ _ _ _ _ _) as [[h q]|] eqn:E; [|done]. by rewrite decide_False by (by apply (Hid h q)).
Qed.

Lemma carried_frame a o :
  o ∈ frag_offsets -> snd (fst a) = l3_p (frame o) -> carried e hwr None sent_id to a = [(o, piece o)].
Proof.
  intros Ho Ea. apply in_frag_offsets in Ho as [Ho Hm]. unfold carried. rewrite Ea.
  destruct (frame_input o (snd a) Ho Hm) as (-> & (Eid & _) & -> & ->). by rewrite decide_True.
Qed.

Lemma carried_all_arrived arr x :
  Forall (fun a => frame_arrival a \/ other_arrival a) arr ->
  arrived (carried_all e hwr None sent_id to arr) x <-> exists o, o ∈ frag_offsets /\ has_arrived arr o /\ o <= x < o + piece o.
Proof.
  intros Harr. unfold carried_all, arrived, has_arrived. rewrite Exists_concat, Exists_map, Exists_exists. split.
  - intros (a & Ha & Hx). rewrite Forall_forall in Harr. destruct (Harr a Ha) as [[(o & Ho & Ea) _]|Hother];
      [|rewrite (carried_other a Hother) in Hx; by apply Exists_nil in Hx].
    rewrite (carried_frame a o Ho Ea), Exists_cons, Exists_nil in Hx. exists o. split_and!; try tauto.
    apply Exists_exists. by exists a.
  - intros (o & Ho & He & Hx). apply Exists_exists in He as (a & Ha & Ea). exists a. split; [done|].
    rewrite (carried_frame a o Ho Ea), Exists_cons. by left.
Qed.

Lemma whole_frames arr :
  Forall (fun a => frame_arrival a \/ other_arrival a) arr ->
  whole (plen p) (carried_all e hwr None sent_id to arr) <-> forall o, o ∈ frag_offsets -> has_arrived arr o.
Proof.
  intros Harr. pose proof room_ok as (R1 & R2 & R3). unfold whole. split.
  - intros Hw o Ho. pose proof (proj1 (in_frag_offsets o) Ho) as [Hb Hm]. specialize (Hw o Hb).
    apply carried_all_arrived in Hw as (o' & Ho' & Ha & Hx); [|done]. pose proof (proj1 (in_frag_offsets o') Ho') as [Hb' Hm'].
    pose proof (piece_bounds o' Hb') as [_ Hr]. assert (o' = o) as ->; [|done].
    pose proof (Z.div_mod o room ltac:(lia)) as D. pose proof (Z.div_mod o' room ltac:(lia)) as D'. rewrite Hm in D. rewrite Hm' in D'.
    assert (o / room = o' / room) by (generalize dependent (o / room); generalize dependent (o' / room); intros; nia). congruence.
  - intros Hall x Hx. apply carried_all_arrived; [done|].
    pose proof (Z.div_mod x room ltac:(lia)) as Ed. pose proof (Z.mod_pos_bound x room ltac:(lia)) as Hr.
    assert (Hd : 0 <= x / room) by (apply Z.div_pos; lia).
    exists (room * (x / room)). assert (Ho : room * (x / room) ∈ frag_offsets).
    { apply in_frag_offsets. split; [nia|]. rewrite Z.mul_comm. apply Z.mod_mul. lia. }
    split_and!; [done|by apply Hall|lia|]. unfold piece. lia.
Qed.
End Datagram.
End Send.

(** ** The property *)

(** C4. From sender to receiver: [send] fragments a datagram that does not fit the
    MTU, and when those frames reach the receiver - in any order, with repeats, and
    among any other packets with plausible headers that are not fragments of the same
    identification - the datagram is delivered exactly on the arrival of the last
    missing frame, byte for byte; provided that a fragment carries a multiple of eight
    bytes (the MTU less 20 is one), that the receiving device checks header checksums
    or the host is big-endian and computes them itself, and that the memory limit of
    reassembly is not reached on the way.  The sender gives every datagram the
    identification 0, so fragments of its other datagrams of the protocol are excluded:
    [datagrams_mix]. *)
Theorem fragments_reassembled {BC : Core.BeCodec} {T : Type} {TM : Core.TimerOps T} {W : Type}
    e hws hwr src to proto e_dst p (s : @ipv4 T W) impl_size hw_address rss_key hash2cpu this_shard_id pre last (r : @ipv4 T W) :
  8 <= room hws /\ room hws mod 8 = 0 /\ mtu hws < 2 ^ 16 -> plen p <= 65515 -> is_uint 32 src -> is_uint 32 to ->
  l4_registered proto = true -> Forall is_byte (bytes p) -> needs_frag (plen p) proto hws = true ->
  rx_csum_offload hwr = true \/ e = BigEndian /\ tx_csum_ip_offload hws = false ->
  0 < impl_size < 2 ^ 14 -> mac_ok hw_address ->
  host_address s = src -> host_address r = to -> ip_table_ok impl_size ip_hdr_size r -> frags r !! (src, to, 0, proto) = None ->
  let frames := map (frame e hws src to proto e_dst p) (frag_offsets hws p) in
  let packets := map (fun a : arrival => snd (fst a)) in
  Forall (fun a => snd (fst a) ∈ map l3_p frames /\ mac_ok (snd a) \/ other_arrival e src to proto hwr a) (pre ++ [last]) ->
  (exists f, f ∈ frames /\ l3_p f ∉ packets pre) -> (forall f, f ∈ frames -> l3_p f ∈ packets (pre ++ [last])) ->
  calm e hwr impl_size hw_address rss_key hash2cpu this_shard_id None pre r ->
  ipv4_send e hws to proto p e_dst s = Some (set_packetq (ip_packetq s ++ frames) s) /\
  exists r1 ess r2 es,
    receive_all e hwr impl_size hw_address rss_key hash2cpu this_shard_id None pre r = Some (r1, ess) /\
    Forall2 (fun a es => snd (fst a) ∈ map l3_p frames -> Forall is_arp es) pre ess /\
    handle_received_packet e hwr impl_size hw_address rss_key hash2cpu this_shard_id None
      (fst (fst last)) (snd (fst last)) (snd last) r1 = Some (r2, es) /\
    delivered this_shard_id (stream (bytes p)) (plen p) (src, to, 0, proto) es /\
    frags r2 !! (src, to, 0, proto) = None.
Proof.
  intros Hroom Hlen Hsrc Hto Hreg Hb Hneed Hcs Himpl Hmac Hs Hr Htab Hnone.
  assert (Hproto : is_byte proto).
  { unfold l4_registered in Hreg. apply orb_true_iff in Hreg as [Hreg|Hreg]; [apply orb_true_iff in Hreg as [Hreg|Hreg]|];
      b2p; subst proto; split; vm_compute; congruence. }
  intros fr packets Harr (f & Hf & Hmiss) Hall Hcalm. split; [by apply (ipv4_send_frames e hws src to proto e_dst p)|].
  assert (Harr' : Forall (fun a => frame_arrival e hws src to proto e_dst p a \/ other_arrival e src to proto hwr a) (pre ++ [last])).
  { eapply Forall_impl; [exact Harr|]. intros a [[Ha Hma]|Ha]; [left|by right]. split; [|done]. unfold fr in Ha. rewrite map_map in Ha.
    apply list_elem_of_fmap in Ha as (o & Ea & Ho). by exists o. }
  assert (Hhas : forall arr o, has_arrived e hws src to proto e_dst p arr o <->
     l3_p (frame e hws src to proto e_dst p o) ∈ map (fun a => snd (fst a)) arr).
  { intros arr o. unfold has_arrived. rewrite Exists_exists, list_elem_of_fmap. split; intros (a & H1 & H2); by exists a. }
  pose proof Harr' as [Hpre Hlst]%Forall_app.
  destruct (defragments e hwr impl_size hw_address rss_key hash2cpu this_shard_id None Himpl Hmac (stream (bytes p)) (plen p)
    (src, to, 0, proto) ltac:(pose proof (room_less hws proto p Hneed); lia) Hreg to pre last r)
    as (r1 & ess & r2 & es & E1 & Hes & E2 & Hd & Hn & _); try done.
  - eapply Forall_impl; [exact Harr'|]. intros a [Ha|Ha]; [by eapply frame_arrival_ok|by apply other_arrival_ok].
  - intros Hw. rewrite (whole_frames e hws src to proto e_dst p) in Hw by done.
    apply list_elem_of_fmap in Hf as (o & -> & Ho). destruct Hmiss. by apply Hhas, Hw.
  - apply (whole_frames e hws src to proto e_dst p); try done. intros o Ho. apply Hhas, Hall.
    apply list_elem_of_fmap. by exists o.
  - exists r1, ess, r2, es. split_and!; try done. clear -Hes Hpre Hroom Hlen Hproto Hsrc Hto Hneed Hb Hcs.
    induction Hes as [|a es arr ess Ha Hes IH]; [constructor|]. apply Forall_cons in Hpre as [_ Hpre].
    constructor; [|by apply IH]. intros Hin. apply Ha. unfold fr in Hin. rewrite map_map in Hin. apply list_elem_of_fmap in Hin as (o & Ea & Ho).
    by rewrite (carried_frame e hws src to proto e_dst p) with (o := o) by done.
Qed.

(** ** Witness *)

Import Core.Impl.

Module Ex.
Definition hw : hw_features := HwFeatures false false true false false false 36 100.
Definition payload : packet := pkt [1; 2; 3; 4; 5; 6; 7; 8; 9; 10; 11; 12; 13; 14; 15; 16; 17; 18; 19; 20].
Definition host (a : ipv4_address) : @ipv4 (option Z) nat := set_host_address [2; 0; 0; 0; 0; 1] a ipv4_init.
Definition frame_of (o : Z) : packet := l3_p (frame LittleEndian hw 1 2 17 eth_broadcast payload o).
Definition arrives (o : Z) : arrival := (0, frame_of o, [2; 0; 0; 0; 0; 9]).
(** A fragment of another datagram, with identification 7. *)
Definition other : arrival := (0, FragTable.Ex.datagram 5 36 8192 FragTable.Ex.sixteen, [2; 0; 0; 0; 0; 9]).
End Ex.

Lemma fragments_reassembled_witness :
  exists r1 ess r2 es,
    receive_all LittleEndian Ex.hw 200 [2; 0; 0; 0; 0; 2] [] (fun _ => 0) 0 None [Ex.arrives 16; Ex.other; Ex.arrives 16] (Ex.host 2)
      = Some (r1, ess) /\
    handle_received_packet LittleEndian Ex.hw 200 [2; 0; 0; 0; 0; 2] [] (fun _ => 0) 0 None 0 (Ex.frame_of 0) [2; 0; 0; 0; 0; 9] r1
      = Some (r2, es) /\ delivered 0 (stream (bytes Ex.payload)) 20 (1, 2, 0, 17) es.
Proof.
  edestruct (fragments_reassembled (BC := be_codec) (T := option Z) (W := nat) LittleEndian Ex.hw Ex.hw 1 2 17 eth_broadcast Ex.payload
    (Ex.host 1) 200 [2; 0; 0; 0; 0; 2] [] (fun _ => 0) 0 [Ex.arrives 16; Ex.other; Ex.arrives 16] (Ex.arrives 0) (Ex.host 2))
    as (_ & r1 & ess & r2 & es & E1 & _ & E2 & Hd & _).
  - split_and!; by vm_compute.
  - by vm_compute.
  - split; by vm_compute.
  - split; by vm_compute.
  - reflexivity.
  - by apply all_bytes_ok.
  - reflexivity.
  - by left.
  - split; by vm_compute.
  - reflexivity.
  - reflexivity.
  - reflexivity.
  - apply table_empty. split; by vm_compute.
  - reflexivity.
  - constructor; [left; split; [right; left|reflexivity]|]. constructor; [right|].
    { split; [by apply all_bytes_ok|]. split; [intros ih E; vm_compute in E; injection E as <-; vm_compute; intuition congruence|].
      split; [reflexivity|]. intros h q E. vm_compute in E. injection E as <- _. discriminate. }
    constructor; [left; split; [right; left|reflexivity]|]. constructor; [left; split; [left|reflexivity]|constructor].
  - exists (frame LittleEndian Ex.hw 1 2 17 eth_broadcast Ex.payload 0). split; [left|]. vm_compute. intros H.
    repeat (apply elem_of_cons in H as [H|H]; [discriminate H|]). by apply elem_of_nil in H.
  - intros f Hf. apply elem_of_cons in Hf as [->|Hf]; [right; right; right; left|].
    apply elem_of_cons in Hf as [->|Hf]; [left|]. by apply elem_of_nil in Hf.
  - intros k r1 ess H. destruct k as [|[|[|[|k]]]].
    all: vm_compute in H; injection H as <- _; by vm_compute.
  - exists r1, ess, r2, es. split; [exact E1|]. split; [exact E2|exact Hd].
Defined.

(** The same arrivals, at the interface of the receiver alone. *)
Lemma ex_room : 8 <= room Ex.hw /\ room Ex.hw mod 8 = 0 /\ mtu Ex.hw < 2 ^ 16.
Proof. split_and!; by vm_compute. Qed.

Lemma ex_frames : Forall (frame_arrival LittleEndian Ex.hw 1 2 17 eth_broadcast Ex.payload) [Ex.arrives 16; Ex.arrives 16; Ex.arrives 0].
Proof.
  constructor; [split; [exists 16|reflexivity]|constructor; [split; [exists 16|reflexivity]|constructor; [split; [exists 0|reflexivity]|constructor]]];
    (split; [|reflexivity]); [right; left|right; left|left].
Qed.

Lemma ex_whole arr :
  Forall (frame_arrival LittleEndian Ex.hw 1 2 17 eth_broadcast Ex.payload) arr ->
  whole 20 (carried_all LittleEndian Ex.hw None (1, 2, 0, 17) 2 arr) <->
  has_arrived LittleEndian Ex.hw 1 2 17 eth_broadcast Ex.payload arr 0 /\ has_arrived LittleEndian Ex.hw 1 2 17 eth_broadcast Ex.payload arr 16.
Proof.
  intros Harr. rewrite (whole_frames LittleEndian Ex.hw 1 2 17 eth_broadcast Ex.payload ex_room ltac:(by vm_compute) ltac:(split; by vm_compute)
    ltac:(split; by vm_compute) ltac:(split; by vm_compute) Ex.hw ltac:(reflexivity) ltac:(by left) arr ltac:(eapply Forall_impl; [exact Harr|by left])).
  change (frag_offsets Ex.hw Ex.payload) with [0; 16]. split.
  - intros H. split; apply H; [left|right; left].
  - intros [H0 H1] o Ho. apply elem_of_cons in Ho as [->|Ho]; [done|]. apply elem_of_cons in Ho as [->|Ho]; [done|]. by apply elem_of_nil in Ho.
Qed.


(** Two datagrams of one sender, whose second fragments are lost in turn: the receiver
    delivers the first half of one and the second half of the other. *)
Theorem datagrams_mix :
  let a := pkt (repeat 1 20) in let b := pkt (repeat 2 20) in
  let frame_a := frame LittleEndian Ex.hw 1 2 17 eth_broadcast a 0 in
  let frame_b := frame LittleEndian Ex.hw 1 2 17 eth_broadcast b 16 in
  (exists f, ipv4_send LittleEndian Ex.hw 2 17 a eth_broadcast (Ex.host 1) = Some (set_packetq [frame_a; f] (Ex.host 1))) /\
  (exists f, ipv4_send LittleEndian Ex.hw 2 17 b eth_broadcast (Ex.host 1) = Some (set_packetq [f; frame_b] (Ex.host 1))) /\
  exists r ess,
    receive_all LittleEndian Ex.hw 200 [2; 0; 0; 0; 0; 2] [] (fun _ => 0) 0 None
      (map (fun f => (0, l3_p f, [2; 0; 0; 0; 0; 9])) [frame_a; frame_b]) (Ex.host 2) = Some (r, ess) /\
    In (IpDeliver 17 (repeat 1 16 ++ repeat 2 4) 1 2) (concat ess).
Proof.
  split; [eexists; vm_compute; reflexivity|]. split; [eexists; vm_compute; reflexivity|].
  eexists _, _. split; [vm_compute; reflexivity|]. vm_compute. tauto.
Qed.

(** A fragment that does not carry a multiple of eight bytes: the offset field
    is rounded down, the next fragment lands on the tail of this one, and the
    receiver delivers a datagram that was never sent. *)
Theorem unaligned_mtu_corrupts :
  let hws := HwFeatures false false true false false false 32 100 in
  let frames := map (frame LittleEndian hws 1 2 17 eth_broadcast Ex.payload) [0; 12] in
  ipv4_send LittleEndian hws 2 17 Ex.payload eth_broadcast (Ex.host 1) = Some (set_packetq frames (Ex.host 1)) /\
  exists r ess,
    receive_all LittleEndian Ex.hw 200 [2; 0; 0; 0; 0; 2] [] (fun _ => 0) 0 None
      (map (fun f => (0, l3_p f, [2; 0; 0; 0; 0; 9])) frames) (Ex.host 2) = Some (r, ess) /\
    In (IpDeliver 17 [1; 2; 3; 4; 5; 6; 7; 8; 9; 10; 11; 12; 17; 18; 19; 20] 1 2) (concat ess).
Proof.
  split; [vm_compute; reflexivity|]. eexists _, _. split; [vm_compute; reflexivity|]. vm_compute. tauto.
Qed.
