(* ===== verification/Icmp.v ===== *)
(** * ICMP echo: ip.hh (class icmp), ip.cc (icmp::received)

    The packet is its list of fragments: the code takes the header from the
    packet's first fragment and then checksums the length of the whole packet
    from there. *)

From S2P Require Import Prelude Core ByteOrder Checksum Packet Net Inet Ipv4.
From stdpp Require Import base numbers option list.

#[local] Open Scope Z_scope.

(** [icmp_hdr::msg_type] *)
Definition echo_reply : Z := 0.
Definition echo_request : Z := 8.
Definition icmp_hdr_size : Z := 8.

Section Icmp.
Context {S : Type} {SO : SemaphoreOps S}.
Variable e : endian.

(** [class icmp] *)
Record icmp := Icmp { icmp_packetq : list l4packet; queue_space : S }.
Definition icmp_init : icmp := Icmp [] (sem_make 212992).

(** [get_header<icmp_hdr>(0)]: whole fragments are merged until they hold the
    header; the buffer it is in, and the fragments after that. *)
Fixpoint take_frags (need : Z) (frags : list (list Z)) : list Z * list (list Z) :=
  if need <=? 0 then ([], frags)
  else match frags with
       | [] => ([], [])
       | f :: rest => let '(buf, rest) := take_frags (need - zlen f) rest in (f ++ buf, rest)
       end.

(** [icmp::received(p, from, to)]: the reply, for which [from] is looked up.
    [None] is a read beyond the buffer. *)
Definition icmp_received (p : list (list Z)) (from : ipv4_address) (s : icmp) : option (icmp * option (list Z)) :=
  let len := zlen (concat p) in
  if len <? icmp_hdr_size then Some (s, None)
  else
    let '(buf, rest) := take_frags icmp_hdr_size p in
    if negb (nth 0 buf 0 =? echo_request) then Some (s, None)
    else
      let buf := splice 0 [echo_reply; 0; 0; 0] buf in
      if zlen buf <? len then None
      else
        c ← sum e checksummer_init buf;
        let buf := splice 2 (host_store e 2 (get e c)) buf in
        match sem_try_wait (queue_space s) len with
        | Some space => Some (Icmp (icmp_packetq s) space, Some (buf ++ concat rest))
        | None => Some (s, None)
        end.

(** Its continuation, once the hardware address is known. *)
Definition icmp_resolved (from : ipv4_address) (p : list Z) (e_dst : mac) (s : icmp) : icmp :=
  Icmp (icmp_packetq s ++ [L4Packet from (pkt p) e_dst ip_proto_icmp]) (queue_space s).

(** The packet provider that the constructor registers. *)
Definition icmp_get_packet (s : icmp) : option l4packet * icmp :=
  match icmp_packetq s with
  | [] => (None, s)
  | l4p :: q => (Some l4p, Icmp q (sem_signal (queue_space s) (plen (l4_p l4p))))
  end.
End Icmp.

(** ** Lemmas and properties *)

Section Properties.
Context {S : Type} {SO : SemaphoreOps S}.

Lemma take_frags_concat need frags :
  fst (take_frags need frags) ++ concat (snd (take_frags need frags)) = concat frags.
Proof.
  revert need. induction frags as [|f frags IH]; intros need; cbn [take_frags concat].
  - by destruct (need <=? 0).
  - destruct (need <=? 0); [done|]. specialize (IH (need - zlen f)). destruct (take_frags _ _) as [b r].
    cbn [fst snd concat] in *. by rewrite <- app_assoc, IH.
Qed.

Lemma take_frags_one p : icmp_hdr_size <= zlen p -> take_frags icmp_hdr_size [p] = (p, []).
Proof.
  intros H. cbn [take_frags]. unfold icmp_hdr_size in *. rewrite (proj2 (Z.leb_gt 8 0)) by lia.
  destruct (Z.leb_spec (8 - zlen p) 0); [|lia]. by rewrite app_nil_r.
Qed.

(** Echo on a big-endian host: a request in one fragment is answered by one
    packet of its length that differs from it in type, code and checksum only
    and whose checksum verifies, if there is space for it; its space is returned
    when the packet provider takes it. *)
Theorem icmp_echo (ty code c1 c2 : Z) rest from e_dst (s : icmp (S := S)) :
  Forall is_byte (ty :: code :: c1 :: c2 :: rest) -> ty = echo_request -> 4 <= zlen rest -> zlen rest < 2 ^ 16 ->
  zlen rest + 4 <= sem_units (queue_space s) -> icmp_packetq s = [] ->
  exists s' d1 d2,
    let reply := echo_reply :: 0 :: d1 :: d2 :: rest in
    icmp_received BigEndian [ty :: code :: c1 :: c2 :: rest] from s = Some (s', Some reply) /\
    ip_checksum BigEndian reply = Some 0 /\
    let '(l4p, s'') := icmp_get_packet (icmp_resolved from reply e_dst s') in
    l4p = Some (L4Packet from (pkt reply) e_dst ip_proto_icmp) /\ icmp_packetq s'' = [] /\
    sem_units (queue_space s'') = sem_units (queue_space s).
Proof.
  intros Hb -> Hl Hmax Hspace Hq. unfold icmp_received. cbn [concat]. rewrite app_nil_r.
  set (req := echo_request :: code :: c1 :: c2 :: rest) in *.
  assert (Elen : zlen req = zlen rest + 4) by (unfold req; rewrite !zlen_cons; lia).
  rewrite take_frags_one by (unfold icmp_hdr_size; lia). rewrite (proj2 (Z.ltb_ge _ _)) by (unfold icmp_hdr_size; lia).
  change (nth 0 req 0 =? echo_request) with true. cbn [negb].
  assert (Es : splice 0 [echo_reply; 0; 0; 0] req = [echo_reply; 0] ++ [0; 0] ++ rest).
  { unfold splice, req. change (Z.to_nat 0) with 0%nat. by rewrite take_0. }
  rewrite Es. set (z := [echo_reply; 0] ++ [0; 0] ++ rest). 
  assert (Ez : zlen z = zlen req) by (unfold z; rewrite !zlen_app, Elen; change (zlen [echo_reply; 0]) with 2; change (zlen [0; 0]) with 2; lia).
  rewrite Ez, Z.ltb_irrefl.
  assert (Hrest : Forall is_byte rest) by (by do 4 apply Forall_cons in Hb as [_ Hb]).
  assert (Hz : Forall is_byte z) by (unfold z; repeat (apply Forall_cons; split; [done|]); done).
  assert (Hlz : zlen z < 2 ^ 60) by (change (2 ^ 16) with 65536 in *; change (2 ^ 60) with 1152921504606846976; lia).
  pose proof (ip_checksum_value z Hz Hlz) as Ev. unfold ip_checksum in Ev.
  destruct (sum BigEndian checksummer_init z) as [c|] eqn:Ec; [|done]. cbn [mbind option_bind].
  pose proof (sem_try_wait_spec (queue_space s) (zlen req)) as Ht.
  destruct (sem_try_wait (queue_space s) (zlen req)) as [space|]; [|lia].
  assert (Est : exists d1 d2, host_store BigEndian 2 (get BigEndian c) = [d1; d2]) by (by eexists _, _).
  destruct Est as (d1 & d2 & Est).
  assert (E2 : splice 2 (host_store BigEndian 2 (get BigEndian c)) z = [echo_reply; 0] ++ [d1; d2] ++ rest).
  { rewrite Est. unfold splice, z. change (Z.to_nat 2) with 2%nat. done. }
  rewrite E2. eexists _, d1, d2. split; [cbn [concat]; by rewrite app_nil_r|]. split.
  - change (echo_reply :: 0 :: d1 :: d2 :: rest) with ([echo_reply; 0] ++ [d1; d2] ++ rest).
    rewrite <- Est. apply (stored_checksum_verifies [echo_reply; 0] rest); try done; [by repeat constructor|].
    unfold ip_checksum. fold z. by rewrite Ec.
  - unfold icmp_get_packet, icmp_resolved. cbn [icmp_packetq queue_space]. rewrite Hq. cbn [app].
    split; [done|]. split; [done|]. cbn [queue_space l4_p]. rewrite sem_units_signal. destruct Ht as [_ ->].
    unfold plen. cbn [bytes pkt]. rewrite !zlen_cons, Elen. lia.
Qed.

(** A request whose first fragment holds its header but not all of it is
    checksummed beyond the end of that buffer. *)
Theorem icmp_fragmented_overread hdr f more from e (s : icmp (S := S)) :
  8 <= zlen (echo_request :: hdr) -> f <> [] ->
  icmp_received e ((echo_request :: hdr) :: f :: more) from s = None.
Proof.
  intros Hl Hf. unfold icmp_received. cbn [concat]. set (first := echo_request :: hdr) in *.
  assert (0 < zlen f) by (destruct f; [done|]; rewrite zlen_cons; pose proof (zlen_nonneg f); lia).
  pose proof (zlen_nonneg (concat more)). unfold icmp_hdr_size.
  rewrite (proj2 (Z.ltb_ge _ _)) by (rewrite !zlen_app; lia).
  cbn [take_frags]. rewrite (proj2 (Z.leb_gt 8 0)), (proj2 (Z.leb_le (8 - zlen first) 0)) by lia.
  rewrite app_nil_r. change (nth 0 first 0 =? echo_request) with true. cbn [negb].
  rewrite (proj2 (Z.ltb_lt _ _)); [done|]. rewrite zlen_splice; [rewrite !zlen_app; lia|lia|]. change (zlen [echo_reply; 0; 0; 0]) with 4. lia.
Qed.
End Properties.

Import Core.Impl.

Lemma icmp_echo_witness :
  exists s' d1 d2,
    icmp_received (S := Z) BigEndian [[8; 0; 1; 2; 0; 7; 0; 1; 97]] 167772161 icmp_init = Some (s', Some [0; 0; d1; d2; 0; 7; 0; 1; 97]) /\
    ip_checksum BigEndian [0; 0; d1; d2; 0; 7; 0; 1; 97] = Some 0.
Proof.
  destruct (icmp_echo (S := Z) 8 0 1 2 [0; 7; 0; 1; 97] 167772161 [0; 0; 0; 0; 0; 1] icmp_init) as (s' & d1 & d2 & E & Ec & _);
    [by apply all_bytes_ok|done|by vm_compute|done|by vm_compute|done|].
  exists s', d1, d2. split; [exact E|exact Ec].
Defined.

Lemma icmp_fragmented_overread_witness :
  icmp_received (S := Z) LittleEndian [[8; 0; 1; 2; 0; 7; 0; 1]; [97]] 167772161 icmp_init = None.
Proof. apply (icmp_fragmented_overread (S := Z) [0; 1; 2; 0; 7; 0; 1] [97] []); [by vm_compute|done]. Defined.
