(* ===== verification/Udp.v ===== *)
(** * UDP: include/nil/actor/network/udp.hh, ip.hh (class ipv4_udp), src/network/udp.cc

    The header, the table of channels with the search for an anonymous port,
    and the two directions of a datagram.  Channel states are shared between the
    table and the handles ([lw_shared_ptr]), so they live in a store and the
    table and the handles hold their names. *)

From S2P Require Import Prelude Core ByteOrder Checksum Toeplitz Packet Net Inet Ipv4 IpHeader.
From stdpp Require Import base numbers option gmap list.

#[local] Open Scope Z_scope.

(** [struct udp_hdr] in host order *)
Record udp_hdr := UdpHdr { udp_src_port : Z; udp_dst_port : Z; udp_len : Z; udp_cksum : Z }.
Definition udp_hdr_size : Z := 8.

(** [struct ipv4_addr] *)
Record ipv4_addr := Ipv4Addr { addr_ip : Z; addr_port : Z }.
Definition is_ip_unspecified (a : ipv4_addr) : bool := addr_ip a =? 0.
Definition is_port_unspecified (a : ipv4_addr) : bool := addr_port a =? 0.

(** [native_datagram]: source, destination, data *)
Record datagram := Datagram { dgram_src : ipv4_addr; dgram_dst : ipv4_addr; dgram_data : list Z }.

Definition min_anonymous_port : Z := 32768.
Definition default_queue_size : Z := 1024.

(** [next_port(port)]: [port + 1] is an [int], so it is never zero. *)
Definition next_port (port : Z) : Z := if port + 1 =? 0 then min_anonymous_port else u16 (port + 1).

Section Header.
Variable e : endian.

Definition udp_hdr_read (p : list Z) : udp_hdr := UdpHdr (fld e 2 0 p) (fld e 2 2 p) (fld e 2 4 p) (fld e 2 6 p).
Definition udp_hdr_write (h : udp_hdr) : list Z :=
  st e 2 (udp_src_port h) ++ st e 2 (udp_dst_port h) ++ st e 2 (udp_len h) ++ st e 2 (udp_cksum h).

(** [native_datagram(src, dst, p)]: a null pointer is dereferenced for a short packet. *)
Definition native_datagram (src dst : ipv4_address) (p : list Z) : option datagram :=
  hdr ← header_at 0 udp_hdr_size p;
  let h := udp_hdr_read hdr in
  data ← drop_front udp_hdr_size p;
  Some (Datagram (Ipv4Addr src (udp_src_port h)) (Ipv4Addr dst (udp_dst_port h)) data).
End Header.

Section Udp.
Context {Q : Type} {QO : QueueOps Q datagram} {S : Type} {SO : SemaphoreOps S}.
Variable e : endian.
Variable hw : hw_features.
Variable host_address : ipv4_address.

(** [struct udp_channel_state] *)
Record udp_channel_state := ChannelState { chan_queue : Q; user_queue_space : S }.
Definition channel_state_init (queue_size : Z) : udp_channel_state := ChannelState (q_make queue_size) (sem_make 212992).

(** [class ipv4_udp], and the store of channel states *)
Record ipv4_udp := Udp {
  channels : gmap Z nat; queue_size : Z; next_anonymous_port : Z; udp_packetq : list l4packet;
  chan_store : gmap nat udp_channel_state; next_chan : nat }.

Definition udp_init : ipv4_udp := Udp ∅ default_queue_size min_anonymous_port [] ∅ O.

Definition set_udp_packetq q (s : ipv4_udp) := Udp (channels s) (queue_size s) (next_anonymous_port s) q (chan_store s) (next_chan s).
Definition set_chan_store m (s : ipv4_udp) := Udp (channels s) (queue_size s) (next_anonymous_port s) (udp_packetq s) m (next_chan s).
Definition set_queue_size n (s : ipv4_udp) := Udp (channels s) n (next_anonymous_port s) (udp_packetq s) (chan_store s) (next_chan s).

(** [class native_channel]: the registration's port, closed, the shared state *)
Record native_channel := NativeChannel { reg_port : Z; chan_closed : bool; chan_state : nat }.

(** ** Channels *)

Inductive make_error := SpecificIp | AddressInUse | NoFreePort.

(** The loop over anonymous ports: [None] when the fuel runs out. *)
Fixpoint find_port (fuel : nat) (starting_port port : Z) (used : gmap Z nat) : option (make_error + Z) :=
  match fuel with
  | O => None
  | Datatypes.S fuel =>
      if decide (is_Some (used !! port)) then
        let port := next_port port in
        if starting_port =? port then Some (inl NoFreePort) else find_port fuel starting_port port used
      else Some (inr port)
  end.

(** [make_channel(addr)] *)
Definition make_channel (addr : ipv4_addr) (s : ipv4_udp) : option (ipv4_udp * (make_error + native_channel)) :=
  if negb (is_ip_unspecified addr) then Some (s, inl SpecificIp)
  else
    r ← (if negb (is_port_unspecified addr)
         then Some (if decide (is_Some (channels s !! addr_port addr)) then inl AddressInUse
                    else inr (addr_port addr, next_anonymous_port s))
         else r ← find_port (Z.to_nat 65536) (next_anonymous_port s) (next_anonymous_port s) (channels s);
              Some (match r with inl err => inl err | inr port => inr (port, next_port port) end));
    match r with
    | inl err => Some (s, inl err)
    | inr (port, next) =>
        let id := next_chan s in
        Some (Udp (<[port := id]> (channels s)) (queue_size s) next (udp_packetq s)
                  (<[id := channel_state_init (queue_size s)]> (chan_store s)) (Datatypes.S id),
              inr (NativeChannel port false id))
    end.

(** [native_channel::close()]: erasing what is not there is undefined. *)
Definition channel_close (c : native_channel) (s : ipv4_udp) : option (ipv4_udp * native_channel) :=
  match channels s !! reg_port c with
  | None => None
  | Some _ => Some (Udp (delete (reg_port c) (channels s)) (queue_size s) (next_anonymous_port s) (udp_packetq s)
                        (chan_store s) (next_chan s),
                    NativeChannel (reg_port c) true (chan_state c))
  end.

(** [~native_channel()] *)
Definition channel_destroy (c : native_channel) (s : ipv4_udp) : option ipv4_udp :=
  if chan_closed c then Some s else '(s, _) ← channel_close c s; Some s.

Definition with_state (id : nat) (f : udp_channel_state -> udp_channel_state) (s : ipv4_udp) : ipv4_udp :=
  match chan_store s !! id with
  | Some c => set_chan_store (<[id := f c]> (chan_store s)) s
  | None => s
  end.

(** [native_channel::receive()]: the next datagram, [None] while it waits. *)
Definition channel_receive (c : native_channel) (s : ipv4_udp) : option datagram * ipv4_udp :=
  match chan_store s !! chan_state c with
  | Some st =>
      match q_pop (chan_queue st) with
      | Some (d, q) => (Some d, set_chan_store (<[chan_state c := ChannelState q (user_queue_space st)]> (chan_store s)) s)
      | None => (None, s)
      end
  | None => (None, s)
  end.

(** [shutdown_input()] and [shutdown_output()], which both abort the receive queue. *)
Definition channel_shutdown (c : native_channel) (s : ipv4_udp) : ipv4_udp :=
  with_state (chan_state c) (fun st => ChannelState (q_abort (chan_queue st)) (user_queue_space st)) s.

(** ** Receiving *)

(** [received(p, from, to)]: a datagram for a full queue is dropped. *)
Definition udp_received (p : list Z) (from to : ipv4_address) (s : ipv4_udp) : option ipv4_udp :=
  dgram ← native_datagram e from to p;
  match channels s !! addr_port (dgram_dst dgram) with
  | None => Some s
  | Some id => Some (with_state id (fun st =>
      match q_push dgram (chan_queue st) with
      | Some q => ChannelState q (user_queue_space st)
      | None => st
      end) s)
  end.

(** ** Sending *)

(** [udp_pseudo_header_checksum(csum, src, dst, len)] *)
Definition udp_pseudo_header_checksum (src dst len : Z) : checksummer :=
  sum_many checksummer_init [U32 src; U32 dst; U8 0; U8 ip_proto_udp; U16 len].

(** [send(src_port, dst, p)]: the packet for which the destination is looked up. *)
Definition udp_send (src_port : Z) (dst : ipv4_addr) (p : list Z) : option packet :=
  let len := u16 (zlen p + udp_hdr_size) in
  let bs := udp_hdr_write e (UdpHdr src_port (addr_port dst) len 0) ++ p in
  let csum := udp_pseudo_header_checksum host_address (addr_ip dst) len in
  let oi needs := OffloadInfo ip_proto_udp needs 20 20 8 false false 0 None in
  if tx_csum_l4_offload hw && negb (needs_frag (zlen bs) ip_proto_udp hw)
  then Some (Pkt (splice 6 (host_store e 2 (u16 (Z.lnot (get e csum)))) bs) (oi true))
  else c ← sum e csum bs; Some (Pkt (splice 6 (host_store e 2 (get e c)) bs) (oi false)).

(** Its continuation, once the hardware address is known. *)
Definition udp_resolved (dst : ipv4_addr) (p : packet) (e_dst : mac) (s : ipv4_udp) : ipv4_udp :=
  set_udp_packetq (udp_packetq s ++ [L4Packet (addr_ip dst) p e_dst ip_proto_udp]) s.

(** The packet provider that the constructor registers. *)
Definition udp_get_packet (s : ipv4_udp) : option l4packet * ipv4_udp :=
  match udp_packetq s with
  | [] => (None, s)
  | p :: q => (Some p, set_udp_packetq q s)
  end.

(** [native_channel::send(dst, p)]: [None] while there is no space; the packet
    gives its space back when it is freed ([complete_send]). *)
Definition channel_send (c : native_channel) (dst : ipv4_addr) (p : list Z) (s : ipv4_udp) : option (option packet * ipv4_udp) :=
  match chan_store s !! chan_state c with
  | None => None
  | Some st =>
      match sem_try_wait (user_queue_space st) (zlen p) with
      | None => None
      | Some space =>
          Some (udp_send (reg_port c) dst p,
                set_chan_store (<[chan_state c := ChannelState (chan_queue st) space]> (chan_store s)) s)
      end
  end.

Definition complete_send (id : nat) (len : Z) (s : ipv4_udp) : ipv4_udp :=
  with_state id (fun st => ChannelState (chan_queue st) (sem_signal (user_queue_space st) len)) s.
End Udp.

(** ** The search for an anonymous port *)

Lemma next_port_mod port : 0 <= port -> next_port port = (port + 1) mod 65536.
Proof. intros H. unfold next_port. destruct (Z.eqb_spec (port + 1) 0); [lia|done]. Qed.

Lemma find_port_spec used start : 0 <= start < 65536 -> forall fuel j,
  0 <= j -> Z.of_nat fuel = 65536 - j -> 0 < Z.of_nat fuel ->
  (forall i, 0 <= i < j -> is_Some (used !! ((start + i) mod 65536))) ->
  match find_port fuel start ((start + j) mod 65536) used with
  | Some (inr p) => exists k, 0 <= k < 65536 /\ p = (start + k) mod 65536 /\ used !! p = None /\
      forall i, 0 <= i < k -> is_Some (used !! ((start + i) mod 65536))
  | Some (inl err) => err = NoFreePort /\ forall i, 0 <= i < 65536 -> is_Some (used !! ((start + i) mod 65536))
  | None => False
  end.
Proof.
  intros Hs fuel. induction fuel as [|fuel IH]; intros j Hj Hf Hpos Hall; [lia|]. cbn [find_port].
  destruct (decide _) as [Hu|Hu].
  - assert (Hall' : forall i, 0 <= i < j + 1 -> is_Some (used !! ((start + i) mod 65536))).
    { intros i Hi. destruct (Z.eq_dec i j) as [->|]; [done|]. apply Hall. lia. }
    rewrite next_port_mod by zlia. rewrite Zplus_mod_idemp_l. replace (start + j + 1) with (start + (j + 1)) by lia.
    destruct (Z.eqb_spec start ((start + (j + 1)) mod 65536)) as [E|E].
    + split; [done|]. intros i Hi. apply Hall'. assert (j + 1 = 65536) by zlia. lia.
    + destruct (Z.eq_dec (j + 1) 65536) as [E'|]; [destruct E; rewrite E'; zlia|]. apply IH; try done; lia.
  - exists j. split_and!; [lia|lia|done| |done]. destruct (used !! _) eqn:E; [|done]. by destruct Hu.
Qed.

Section Properties.
Context {Q : Type} {QO : QueueOps Q datagram} {S : Type} {SO : SemaphoreOps S}.
Abbreviation udp := (ipv4_udp (Q := Q) (S := S)).

(** Binding to no particular port terminates: within one round of the 65536
    ports it binds the first one that is free, counting up from the next
    anonymous port and past 65535 to 0, or reports that every port is taken and
    changes nothing. *)
Theorem make_channel_anonymous (s : udp) :
  0 <= next_anonymous_port s < 65536 ->
  exists s' r, make_channel (Ipv4Addr 0 0) s = Some (s', r) /\
    match r with
    | inr c => exists k, 0 <= k < 65536 /\ reg_port c = (next_anonymous_port s + k) mod 65536 /\
        channels s !! reg_port c = None /\ channels s' = <[reg_port c := chan_state c]> (channels s) /\
        (forall i, 0 <= i < k -> is_Some (channels s !! ((next_anonymous_port s + i) mod 65536))) /\
        0 <= next_anonymous_port s' < 65536
    | inl err => err = NoFreePort /\ s' = s /\ forall port, 0 <= port < 65536 -> is_Some (channels s !! port)
    end.
Proof.
  intros Hn. unfold make_channel. cbn [is_ip_unspecified is_port_unspecified addr_ip addr_port Z.eqb negb].
  pose proof (find_port_spec (channels s) (next_anonymous_port s) Hn (Z.to_nat 65536) 0 ltac:(lia) ltac:(lia) ltac:(lia) ltac:(lia)) as H.
  rewrite Z.add_0_r, Z.mod_small in H by lia. destruct (find_port _ _ _ _) as [[err|port]|]; [| |done]; cbn [mbind option_bind].
  - destruct H as [-> H]. eexists _, _. split; [done|]. split_and!; try done. intros port Hp.
    specialize (H ((port - next_anonymous_port s) mod 65536) ltac:(zlia)). rewrite Zplus_mod_idemp_r in H.
    replace (next_anonymous_port s + (port - next_anonymous_port s)) with port in H by lia. by rewrite Z.mod_small in H by lia.
  - destruct H as (k & Hk & Ep & Hfree & Hused). eexists _, _. split; [done|]. cbn [reg_port chan_state channels next_anonymous_port].
    exists k. split_and!; try done; rewrite ?next_port_mod by (rewrite Ep; zlia); zlia.
Qed.

(** ** A datagram on its way *)

Variable e : endian.

Lemma udp_hdr_at src dst len cks p :
  is_uint 16 src -> is_uint 16 dst -> is_uint 16 len -> 
  exists a b c d x y, forall v, udp_hdr_write e (UdpHdr src dst len v) ++ p = [a; b; c; d; x; y] ++ st e 2 v ++ p /\
    udp_src_port (udp_hdr_read e ([a; b; c; d; x; y] ++ cks)) = src /\
    udp_dst_port (udp_hdr_read e ([a; b; c; d; x; y] ++ cks)) = dst.
Proof.
  intros Hs Hd Hl. destruct (st2 e _ Hs) as (a & b & Ea & Ra), (st2 e _ Hd) as (c & d & Ec & Rc), (st2 e _ Hl) as (x & y & Ex & _).
  exists a, b, c, d, x, y. intros v. unfold udp_hdr_write. cbn [udp_src_port udp_dst_port udp_len udp_cksum].
  rewrite Ea, Ec, Ex. rewrite <- !app_assoc. split; [done|]. unfold udp_hdr_read, fld, slice. cbn [udp_src_port udp_dst_port app].
  change (Z.to_nat (Z.of_nat 2)) with 2%nat. change (Z.to_nat 2) with 2%nat. change (Z.to_nat 0) with 0%nat.
  cbn [drop take]. rewrite ?take_0; done.
Qed.

Lemma udp_send_bytes hw host src_port dst p :
  is_uint 16 src_port -> is_uint 16 (addr_port dst) -> Forall is_byte p ->
  exists q hdr, udp_send e hw host src_port dst p = Some q /\ bytes q = hdr ++ p /\ zlen hdr = udp_hdr_size /\
    udp_src_port (udp_hdr_read e hdr) = src_port /\ udp_dst_port (udp_hdr_read e hdr) = addr_port dst.
Proof.
  intros Hs Hd Hb. unfold udp_send. set (len := u16 (zlen p + udp_hdr_size)).
  assert (Hlen : is_uint 16 len) by (apply wrap_range; lia).
  assert (L2 : forall v, zlen (host_store e 2 v) = 2) by (intros v; unfold zlen, host_store; destruct e; rewrite ?length_rev, length_be_bytes; done).
  assert (Hsplice : forall v, exists hdr, splice 6 (host_store e 2 v) (udp_hdr_write e (UdpHdr src_port (addr_port dst) len 0) ++ p) = hdr ++ p /\
    zlen hdr = udp_hdr_size /\ udp_src_port (udp_hdr_read e hdr) = src_port /\ udp_dst_port (udp_hdr_read e hdr) = addr_port dst).
  { intros v. destruct (udp_hdr_at src_port (addr_port dst) len (host_store e 2 v) p Hs Hd Hlen) as (a & b & c & d & x & y & H).
    destruct (H 0) as (E & R1 & R2). rewrite E. exists ([a; b; c; d; x; y] ++ host_store e 2 v).
    split_and!; [|by rewrite zlen_app, L2|done|done].
    unfold splice. change (Z.to_nat 6) with 6%nat. rewrite (take_app_length' [a; b; c; d; x; y]) by done. rewrite <- app_assoc. f_equal. f_equal.
    assert (El : length (host_store e 2 v) = length (st e 2 0)).
    { pose proof (L2 v) as E1. pose proof (L2 (hton e 2 0)) as E2. unfold st, zlen in *. lia. }
    rewrite <- drop_drop, (drop_app_length' [a; b; c; d; x; y]) by done. by apply drop_app_length'. }
  destruct (_ && _)%bool.
  - destruct (Hsplice (u16 (Z.lnot (get e (udp_pseudo_header_checksum host (addr_ip dst) len))))) as (hdr & E & Hrest).
    eexists _, hdr. split; [done|]. by rewrite E.
  - set (bs := udp_hdr_write e _ ++ p).
    destruct (sum_spec e (udp_pseudo_header_checksum host (addr_ip dst) len) bs) as (v & -> & _).
    + apply Forall_app_2; [|done]. unfold udp_hdr_write.
      assert (Hst : forall n v, Forall is_byte (st e n v)) by (intros n v; unfold st, host_store; destruct e; [apply Forall_rev|]; apply be_bytes_range).
      repeat apply Forall_app_2; apply Hst.
    + intros [_ E]. unfold bs in E. apply app_eq_nil in E as [E _]. apply (f_equal zlen) in E. unfold udp_hdr_write, st in E.
      rewrite !zlen_app, !L2 in E. done.
    + cbn [mbind option_bind]. destruct (Hsplice (get e (Checksummer (csum (udp_pseudo_header_checksum host (addr_ip dst) len) + v)
        (xorb (odd (udp_pseudo_header_checksum host (addr_ip dst) len)) (Z.odd (zlen bs)))))) as (hdr & E & Hrest).
      eexists _, hdr. split; [done|]. unfold bs in E |- *. cbn [bytes]. by rewrite E.
Qed.

(** C36. A datagram that [send] makes is, at the receiver, pushed on the queue of
    the channel bound to its destination port, with the sender's address and port
    and the data unchanged, when that queue has room, and dropped without a trace when it
    is full; no other channel is touched in either case. *)
Theorem udp_send_received hw host src_port dst p (r : udp) id stt :
  is_uint 16 src_port -> is_uint 16 (addr_port dst) -> Forall is_byte p ->
  channels r !! addr_port dst = Some id -> chan_store r !! id = Some stt ->
  exists q r' stt', udp_send e hw host src_port dst p = Some q /\ udp_received e (bytes q) host (addr_ip dst) r = Some r' /\
    chan_store r' = <[id := stt']> (chan_store r) /\ channels r' = channels r /\ user_queue_space stt' = user_queue_space stt /\
    (zlen (q_items (chan_queue stt)) < q_max_size (chan_queue stt) ->
     q_items (chan_queue stt') = q_items (chan_queue stt) ++ [Datagram (Ipv4Addr host src_port) dst p]) /\
    (q_max_size (chan_queue stt) <= zlen (q_items (chan_queue stt)) -> stt' = stt /\ r' = r).
Proof.
  intros Hs Hd Hb Hc Hst. destruct (udp_send_bytes hw host src_port dst p Hs Hd Hb) as (q & hdr & E & Eb & Hl & Rs & Rd).
  exists q. unfold udp_received, native_datagram. rewrite Eb.
  assert (Eh : header_at 0 udp_hdr_size (hdr ++ p) = Some hdr).
  { unfold header_at. pose proof (zlen_nonneg p). rewrite (proj2 (Z.ltb_ge _ _)) by (rewrite zlen_app; lia). by rewrite slice_app_l. }
  rewrite Eh. cbn [mbind option_bind]. pose proof (zlen_nonneg p).
  rewrite drop_front_ok by (rewrite zlen_app; unfold udp_hdr_size in *; lia). cbn [mbind option_bind].
  rewrite drop_app_length' by (unfold zlen, udp_hdr_size in *; lia). rewrite Rs, Rd. cbn [dgram_dst addr_port]. rewrite Hc.
  unfold with_state. rewrite Hst. destruct dst as [ip port]. cbn [addr_ip addr_port] in *.
  pose proof (q_push_spec (Datagram (Ipv4Addr host src_port) (Ipv4Addr ip port) p) (chan_queue stt)) as Hp.
  destruct (q_push _ (chan_queue stt)) as [q'|].
  - destruct Hp as (Hroom & Ei & _). eexists _, (ChannelState q' (user_queue_space stt)). split_and!; try done. lia.
  - eexists _, stt. split_and!; try done; [lia|]. intros _. split; [done|]. rewrite insert_id by done. by destruct r.
Qed.

(** A UDP packet shorter than its header stops the program. *)
Theorem short_udp_packet_stops (p : list Z) from to (s : udp) :
  zlen p < udp_hdr_size -> udp_received e p from to s = None.
Proof. intros H. unfold udp_received, native_datagram, header_at. by rewrite (proj2 (Z.ltb_lt _ _)). Qed.
End Properties.

(** ** Witnesses *)

Import Core.Impl.
Abbreviation ex_udp := (ipv4_udp (Q := queue_list datagram) (S := Z)).

Definition ex_bound : ex_udp :=
  match make_channel (Ipv4Addr 0 53) (udp_init : ex_udp) with Some (s, _) => s | None => udp_init end.

Lemma make_channel_anonymous_witness :
  exists (s' : ex_udp) c, make_channel (Ipv4Addr 0 0) ex_bound = Some (s', inr c) /\ reg_port c = 32768.
Proof.
  destruct (make_channel_anonymous (Q := queue_list datagram) (S := Z) ex_bound) as (s' & r & E & H); [split; by vm_compute|].
  vm_compute in E. injection E as <- <-. eexists _, _. split; [vm_compute; reflexivity|reflexivity].
Defined.

Lemma udp_send_received_witness :
  exists q (r' : ex_udp) stt, udp_send LittleEndian hw_features_default 167772161 32768 (Ipv4Addr 167772162 53) [1; 2; 3] = Some q /\
    udp_received LittleEndian (bytes q) 167772161 167772162 ex_bound = Some r' /\ chan_store r' = <[0%nat := stt]> (chan_store ex_bound) /\
    q_items (chan_queue stt) = [Datagram (Ipv4Addr 167772161 32768) (Ipv4Addr 167772162 53) [1; 2; 3]].
Proof.
  destruct (udp_send_received (Q := queue_list datagram) (S := Z) LittleEndian hw_features_default 167772161 32768 (Ipv4Addr 167772162 53) [1; 2; 3] ex_bound
    0%nat (channel_state_init 1024)) as (q & r' & stt' & E1 & E2 & E3 & _ & _ & E4 & _);
    [split; by vm_compute|split; by vm_compute|by apply all_bytes_ok|by vm_compute|by vm_compute|].
  exists q, r', stt'. split; [exact E1|]. split; [exact E2|]. split; [exact E3|]. apply E4. by vm_compute.
Defined.

Lemma short_udp_packet_stops_witness : udp_received LittleEndian [0; 53; 0; 53; 0; 8; 0] 1 2 ex_bound = None.
Proof. apply short_udp_packet_stops. by vm_compute. Defined.
