(* ===== verification/Tcp.v ===== *)
(** * Class [tcp]: include/nil/actor/network/tcp.hh

    Connections and listeners by name: the control blocks are shared
    ([lw_shared_ptr]) between the connection table, the poll queue and the
    handles, so they live in a heap and those hold their addresses.  What a
    control block does outside itself ([TcbData.event]) is carried out here. *)

From S2P Require Import Prelude Core ByteOrder Checksum Toeplitz Packet Net Inet Ipv4 TcpSeq TcpHdr PacketMerger TcbData Tcb.
From stdpp Require Import base numbers option gmap list.

#[local] Open Scope Z_scope.

(** [l4connid]: local and foreign address, local and foreign port *)
Record connid := Connid { id_local_ip : Z; id_foreign_ip : Z; id_local_port : Z; id_foreign_port : Z }.

#[export] Instance connid_eq_dec : EqDecision connid.
Proof. solve_decision. Defined.
#[export] Program Instance connid_countable : Countable connid :=
  inj_countable' (fun i => (id_local_ip i, id_foreign_ip i, id_local_port i, id_foreign_port i))
                 (fun '(a, b, c, d) => Connid a b c d) _.
Next Obligation. by intros []. Qed.

(** [l4connid::hash(rss_key)] *)
Definition connid_hash (e : endian) (rss_key : list Z) (i : connid) : option Z :=
  h ← push_back_u32 [] (hton e 4 (id_foreign_ip i));
  h ← push_back_u32 h (hton e 4 (id_local_ip i));
  h ← push_back_u16 h (hton e 2 (id_foreign_port i));
  h ← push_back_u16 h (hton e 2 (id_local_port i));
  Some (toeplitz_hash rss_key h).

Section Tcp.
Context {BC : BeCodec} {AU : AlignUp} {T : Type} {TM : TimerOps T}.
Context {S : Type} {SO : SemaphoreOps S} {Q : Type} {QO : QueueOps Q nat}.
Variable e : endian.
Variable hw : hw_features.
Variable get_isn : @tcb T -> Z -> tcp_seq.
(** What the memory of a new control block holds. *)
Variable junk_snd : send.
Variable junk_rcv : receive.
(** The interface. *)
Variable host_address : ipv4_address.
Variable hw_queues_count : Z.
Variable rss_key : list Z.
Variable hash2cpu : Z -> Z.
Variable this_shard_id : Z.

(** [class listener]: the queue of accepted connections and those under way *)
Record listener := Listener { l_port : Z; l_q : Q; l_pending : Z }.

Record tcp := TcpState {
  heap : gmap nat (@tcb T); next_ptr : nat;
  tcbs : gmap connid nat;
  listeners : gmap nat listener; next_listener : nat;
  listening : gmap Z nat;
  poll_tcbs : list (nat * mac);
  tcp_packetq : list l4packet; queue_space : S;
  tcb_polled : Z }.

Definition tcp_init : tcp := TcpState ∅ O ∅ ∅ O ∅ [] [] (sem_make 212992) 0.

(** What happens outside: an address is looked up for a control block that has
    something to send ([poll_tcb]) or for a packet, and promises are kept. *)
Inductive tcp_event :=
  | TcpPoll (to : Z) (ptr : nat)
  | TcpLookup (to : Z) (p : packet)
  | TcpPromise (ptr : nat) (ev : event).

Definition set_heap h (s : tcp) := TcpState h (next_ptr s) (tcbs s) (listeners s) (next_listener s) (listening s) (poll_tcbs s) (tcp_packetq s) (queue_space s) (tcb_polled s).
Definition set_tcbs c (s : tcp) := TcpState (heap s) (next_ptr s) c (listeners s) (next_listener s) (listening s) (poll_tcbs s) (tcp_packetq s) (queue_space s) (tcb_polled s).
Definition set_listeners l (s : tcp) := TcpState (heap s) (next_ptr s) (tcbs s) l (next_listener s) (listening s) (poll_tcbs s) (tcp_packetq s) (queue_space s) (tcb_polled s).
Definition set_listening l (s : tcp) := TcpState (heap s) (next_ptr s) (tcbs s) (listeners s) (next_listener s) l (poll_tcbs s) (tcp_packetq s) (queue_space s) (tcb_polled s).
Definition set_poll_tcbs l n (s : tcp) := TcpState (heap s) (next_ptr s) (tcbs s) (listeners s) (next_listener s) (listening s) l (tcp_packetq s) (queue_space s) n.
Definition set_packetq q u (s : tcp) := TcpState (heap s) (next_ptr s) (tcbs s) (listeners s) (next_listener s) (listening s) (poll_tcbs s) q u (tcb_polled s).

(** ** Listeners *)

(** [full()] on [size_t] *)
Definition listener_full (l : listener) : bool := q_max_size (l_q l) <=? u64 (l_pending l + zlen (q_items (l_q l))).
Definition inc_pending (l : listener) : listener := Listener (l_port l) (l_q l) (u64 (l_pending l + 1)).
Definition dec_pending (l : listener) : listener := Listener (l_port l) (l_q l) (u64 (l_pending l - 1)).

Definition set_listener (i : nat) (l : listener) (s : tcp) : tcp := set_listeners (<[i := l]> (listeners s)) s.

(** [listen(port, queue_length)]: [emplace] keeps the entry that is there. *)
Definition listen (port queue_length : Z) (s : tcp) : tcp * nat :=
  let i := next_listener s in
  (TcpState (heap s) (next_ptr s) (tcbs s) (<[i := Listener port (q_make queue_length) 0]> (listeners s)) (Datatypes.S i)
     (match listening s !! port with Some _ => listening s | None => <[port := i]> (listening s) end)
     (poll_tcbs s) (tcp_packetq s) (queue_space s) (tcb_polled s), i).

(** [listener(listener &&x)]: the new one has the queue, but nothing pending. *)
Definition listener_move (i : nat) (s : tcp) : option (tcp * nat) :=
  l ← listeners s !! i;
  let j := next_listener s in
  Some (TcpState (heap s) (next_ptr s) (tcbs s)
          (<[j := Listener (l_port l) (l_q l) 0]> (<[i := Listener 0 (q_make (q_max_size (l_q l))) (l_pending l)]> (listeners s)))
          (Datatypes.S j) (<[l_port l := j]> (listening s)) (poll_tcbs s) (tcp_packetq s) (queue_space s) (tcb_polled s), j).

(** [~listener()] *)
Definition listener_destroy (i : nat) (s : tcp) : option tcp :=
  l ← listeners s !! i;
  let s := set_listeners (delete i (listeners s)) s in
  Some (if l_port l =? 0 then s else set_listening (delete (l_port l) (listening s)) s).

(** [accept()]: the connection, when there is one. *)
Definition accept (i : nat) (s : tcp) : option (tcp * option nat) :=
  l ← listeners s !! i;
  Some (match q_pop (l_q l) with
        | Some (ptr, q) => (set_listener i (Listener (l_port l) q (l_pending l)) s, Some ptr)
        | None => (s, None)
        end).

Definition abort_accept (i : nat) (s : tcp) : option tcp :=
  l ← listeners s !! i; Some (set_listener i (Listener (l_port l) (q_abort (l_q l)) (l_pending l)) s).

(** ** Packets without a control block *)

(** [send_packet_without_tcb(from, to, p)]: dropped when the queue is full. *)
Definition send_packet_without_tcb (to : Z) (p : packet) (s : tcp) : tcp * list tcp_event :=
  match sem_try_wait (queue_space s) (plen p) with
  | Some space => (set_packetq (tcp_packetq s) space s, [TcpLookup to p])
  | None => (s, [])
  end.

(** Its continuation. *)
Definition packet_resolved (to : Z) (p : packet) (e_dst : mac) (s : tcp) : tcp :=
  set_packetq (tcp_packetq s ++ [L4Packet to p e_dst ip_proto_tcp]) (queue_space s) s.

(** The header of a reset. *)
Definition reset_header (rth : tcp_hdr) : tcp_hdr :=
  TcpHdr (dst_port rth) (src_port rth) (if f_ack rth then h_ack rth else make_seq 0)
    (if f_syn rth then seq_add (h_seq rth) 1 else make_seq 0) 0 (tcp_hdr_len / 4)
    false false true false (f_syn rth) false 0 0 0 0.

(** [respond_with_reset(rth, local_ip, foreign_ip)] *)
Definition respond_with_reset (rth : tcp_hdr) (local_ip foreign_ip : Z) (s : tcp) : option (tcp * list tcp_event) :=
  if f_rst rth then Some (s, [])
  else
    let th := tcp_hdr_write (reset_header rth) in
    let csum := tcp_pseudo_header_checksum local_ip foreign_ip tcp_hdr_len in
    checksum ← (if tx_csum_l4_offload hw then Some (u16 (Z.lnot (get e csum)))
                else c ← sum e csum th; Some (get e c));
    let p := Pkt (write_nbo_checksum (host_store e 2 checksum) th)
                 (OffloadInfo ip_proto_tcp (tx_csum_l4_offload hw) 20 tcp_hdr_len 8 false false 0 None) in
    Some (send_packet_without_tcb foreign_ip p s).

(** ** Running an operation of a control block *)

Definition id_of (t : @tcb T) : connid := Connid (local_ip t) (foreign_ip t) (local_port t) (foreign_port t).

(** What a control block calls, but for [add_connected_tcb]. *)
Definition handle_event (ptr : nat) (t : @tcb T) (ev : event) (s : tcp) : option (tcp * list tcp_event) :=
  match ev with
  | EvPoll to => Some (s, [TcpPoll to ptr])
  | EvRespondReset th => respond_with_reset th (local_ip t) (foreign_ip t) s
  | EvRemove => Some (set_tcbs (delete (id_of t) (tcbs s)) s, [])
  | _ => Some (s, [TcpPromise ptr ev])
  end.

(** The connection that a full queue does not take is destroyed. *)
Definition drop_connection (now : Z) (ptr : nat) (s : tcp) : option (tcp * list tcp_event) :=
  t ← heap s !! ptr;
  '(_, t, evs) ← connection_destroyed e hw now t;
  let s := set_heap (<[ptr := t]> (heap s)) s in
  foldl (fun acc ev => '(s, es) ← acc; '(s, es') ← handle_event ptr t ev s; Some (s, es ++ es')) (Some (s, [])) evs.

(** [add_connected_tcb(tcbp, local_port)] *)
Definition add_connected_tcb (now : Z) (ptr : nat) (local_port : Z) (s : tcp) : option (tcp * list tcp_event) :=
  match listening s !! local_port with
  | None => Some (s, [])
  | Some i =>
      l ← listeners s !! i;
      match q_push ptr (l_q l) with
      | Some q => Some (set_listener i (dec_pending (Listener (l_port l) q (l_pending l))) s, [])
      | None =>
          '(s, es) ← drop_connection now ptr s;
          Some (set_listener i (dec_pending l) s, es)
      end
  end.

Definition handle_event_full (now : Z) (ptr : nat) (t : @tcb T) (ev : event) (s : tcp) : option (tcp * list tcp_event) :=
  match ev with
  | EvAddConnected port => add_connected_tcb now ptr port s
  | _ => handle_event ptr t ev s
  end.

Fixpoint handle_events (now : Z) (ptr : nat) (t : @tcb T) (evs : list event) (s : tcp) : option (tcp * list tcp_event) :=
  match evs with
  | [] => Some (s, [])
  | ev :: evs =>
      '(s, es) ← handle_event_full now ptr t ev s;
      '(s, es') ← handle_events now ptr t evs s;
      Some (s, es ++ es')
  end.

(** An operation [m] of the control block at [ptr]. *)
Definition run_tcb {A} (now : Z) (ptr : nat) (m : @M T A) (s : tcp) : option (A * tcp * list tcp_event) :=
  t ← heap s !! ptr;
  '(x, t, evs) ← m t;
  '(s, es) ← handle_events now ptr t evs (set_heap (<[ptr := t]> (heap s)) s);
  Some (x, s, es).

(** [make_lw_shared<tcb>] of the identity and its entry in the table; an entry that
    is there stays. *)
Definition new_tcb (id : connid) (s : tcp) : tcp * nat :=
  let ptr := next_ptr s in
  let t := tcb_init junk_snd junk_rcv 0 (id_local_ip id) (id_foreign_ip id) (id_local_port id) (id_foreign_port id) in
  (TcpState (<[ptr := t]> (heap s)) (Datatypes.S ptr)
     (match tcbs s !! id with Some _ => tcbs s | None => <[id := ptr]> (tcbs s) end)
     (listeners s) (next_listener s) (listening s) (poll_tcbs s) (tcp_packetq s) (queue_space s) (tcb_polled s), ptr).

(** ** Connecting *)

(** [connect(sa)]: [ports] are the draws of the random source port; [None] also
    when they run out. *)
Fixpoint pick_port (ports : list Z) (dst_ip dst_port : Z) (s : tcp) : option connid :=
  match ports with
  | [] => None
  | src_port :: ports =>
      let id := Connid host_address dst_ip src_port dst_port in
      again ← (if 1 <? hw_queues_count
               then h ← connid_hash e rss_key id;
                    Some (negb (hash2cpu h =? this_shard_id) || bool_decide (is_Some (tcbs s !! id)))
               else Some false);
      if (again : bool) then pick_port ports dst_ip dst_port s else Some id
  end.

Definition tcp_connect (now : Z) (ports : list Z) (dst_ip dst_port : Z) (s : tcp) : option (nat * tcp * list tcp_event) :=
  id ← pick_port ports dst_ip dst_port s;
  let '(s, ptr) := new_tcb id s in
  '(_, s, es) ← run_tcb now ptr (connect hw now get_isn) s;
  Some (ptr, s, es).

(** ** Receiving *)

(** [received(p, from, to)] *)
Definition tcp_received (now : Z) (p : list Z) (from to : Z) (s : tcp) : option (tcp * list tcp_event) :=
  match header_at 0 tcp_hdr_len p with
  | None => Some (s, [])
  | Some th =>
      if Z.shiftr (nth 12 th 0) 4 * 4 <? tcp_hdr_len then Some (s, [])
      else
        csum_ok ← (if rx_csum_offload hw then Some true
                   else c ← sum e (tcp_pseudo_header_checksum from to (u16 (zlen p))) p; Some (get e c =? 0));
        if negb csum_ok then Some (s, [])
        else
          let h := tcp_hdr_read th in
          let id := Connid to from (dst_port h) (src_port h) in
          match tcbs s !! id with
          | None =>
              match listening s !! id_local_port id ≫= (fun i => l ← listeners s !! i; Some (i, l)) with
              | None => respond_with_reset h (id_local_ip id) (id_foreign_ip id) s
              | Some (i, l) =>
                  if listener_full l then respond_with_reset h (id_local_ip id) (id_foreign_ip id) s
                  else if f_rst h then Some (s, [])
                  else if f_ack h then respond_with_reset h (id_local_ip id) (id_foreign_ip id) s
                  else if f_syn h then
                    let '(s, ptr) := new_tcb id s in
                    let s := set_listener i (inc_pending l) s in
                    '(_, s, es) ← run_tcb now ptr (input_handle_listen_state hw now get_isn h p) s;
                    Some (s, es)
                  else Some (s, [])
              end
          | Some ptr =>
              t ← heap s !! ptr;
              '(_, s, es) ← run_tcb now ptr (if bool_decide (state t = SYN_SENT)
                                             then input_handle_syn_sent_state hw now h p
                                             else input_handle_other_state e hw now h p) s;
              Some (s, es)
          end
  end.

(** ** Sending *)

(** The continuation of [poll_tcb(to, tcb)] *)
Definition poll_resolved (ptr : nat) (dst : mac) (s : tcp) : tcp := set_poll_tcbs (poll_tcbs s ++ [(ptr, dst)]) (tcb_polled s) s.

(** The loop of the packet provider over the control blocks that asked for it. *)
Fixpoint poll_loop (now : Z) (c : nat) (s : tcp) : option (option l4packet * tcp * list tcp_event) :=
  match c with
  | O => Some (None, s, [])
  | Datatypes.S c =>
      match poll_tcbs s with
      | [] => None
      | (ptr, dst) :: rest =>
          let s := set_poll_tcbs rest (u32 (tcb_polled s + 1)) s in
          '(l4p, s, es) ← run_tcb now ptr (get_packet e hw now) s;
          match l4p with
          | Some (to, p) => Some (Some (L4Packet to p dst ip_proto_tcp), s, es)
          | None => '(r, s, es') ← poll_loop now c s; Some (r, s, es ++ es')
          end
      end
  end.

(** The packet provider that the constructor registers. *)
Definition tcp_get_packet (now : Z) (s : tcp) : option (option l4packet * tcp * list tcp_event) :=
  let c := length (poll_tcbs s) in
  match tcp_packetq s with
  | l4p :: q =>
      if (tcb_polled s mod 128 =? 0) || Nat.eqb c 0
      then Some (Some l4p, set_packetq q (sem_signal (queue_space s) (plen (l4_p l4p))) s, [])
      else poll_loop now c s
  | [] => poll_loop now c s
  end.
End Tcp.
