(* ===== verification/TcpCsum.v ===== *)
(** * Checksums of segments on the wire

    A segment that a connection queues, and the reset that answers a segment
    for nobody, pass the check that the receiving [tcp] object makes; and what
    such a reset says. *)

From S2P Require Import Prelude Core ByteOrder Checksum Packet Net Inet Ipv4 TcpSeq TcpHdr PacketMerger TcbData Tcb TcbState TcbSend Tcp.
From stdpp Require Import base numbers option gmap list.

#[local] Open Scope Z_scope.

Section Csum.
Context {BC : BeCodec} {AU : AlignUp} {T : Type} {TM : TimerOps T}.

(** The check of [received] on the bytes of a segment. *)
Definition segment_verifies (src dst : Z) (p : list Z) : Prop :=
  exists c, sum BigEndian (tcp_pseudo_header_checksum src dst (u16 (zlen p))) p = Some c /\ get BigEndian c = 0.

Lemma pseudo_header_small src dst len : is_uint 32 src -> is_uint 32 dst -> is_uint 16 len ->
  odd (tcp_pseudo_header_checksum src dst len) = false /\
  0 <= csum (tcp_pseudo_header_checksum src dst len) < 2 ^ 120.
Proof.
  unfold is_uint. pow2. intros H1 H2 H3. split; [done|].
  cbn -[Z.add Z.pow]. change (Z.shiftl 0 8) with 0. unfold ip_proto_tcp. lia.
Qed.

(** The sum of the pseudo header and of the same with the addresses exchanged. *)
Lemma pseudo_header_swap src dst len :
  tcp_pseudo_header_checksum src dst len = tcp_pseudo_header_checksum dst src len.
Proof.
  unfold tcp_pseudo_header_checksum. cbn [sum_many]. do 3 f_equal.
  unfold sum_u32. cbn [odd checksummer_init csum]. f_equal. lia.
Qed.

Lemma tcp_hdr_write_split h : checksum h = 0 -> exists pre post,
  length pre = 16%nat /\ Forall is_byte pre /\ Forall is_byte post /\ tcp_hdr_write h = pre ++ [0; 0] ++ post.
Proof.
  intros Hc. unfold tcp_hdr_write. rewrite Hc. rewrite (write_be_spec 2 0). change (be_bytes 2 0) with [0; 0].
  exists (write_be 2 (src_port h) ++ write_be 2 (dst_port h) ++ write_be 4 (raw (h_seq h)) ++ write_be 4 (raw (h_ack h)) ++
    [u8 (offset_byte h); u8 (flags_byte h)] ++ write_be 2 (window h)), (write_be 2 (urgent h)).
  split_and!; [| | |by rewrite <- !app_assoc].
  - rewrite !length_app, !length_write_be. done.
  - repeat apply Forall_app_2; lazymatch goal with
      | |- Forall _ (write_be _ _) => apply write_be_bytes
      | |- _ => repeat (constructor; [by apply wrap_range|]); constructor
      end.
  - apply write_be_bytes.
Qed.

(** A segment sent by a big-endian host that computes checksums itself. *)
Lemma written_checksum_verifies hw src dst len h rest v :
  tx_csum_l4_offload hw = false -> is_uint 32 src -> is_uint 32 dst -> checksum h = 0 -> Forall is_byte rest ->
  20 + zlen rest < 65536 -> len = 20 + zlen rest ->
  tcp_checksum BigEndian hw src dst len (tcp_hdr_write h ++ rest) = Some v ->
  is_uint 16 v /\ segment_verifies src dst (write_nbo_checksum (host_store BigEndian 2 v) (tcp_hdr_write h ++ rest)).
Proof.
  intros Hhw Hs Hd Hc Hr Hl -> H. unfold tcp_checksum in H. rewrite Hhw in H.
  destruct (tcp_hdr_write_split h Hc) as (pre & post & Lp & Bpre & Bpost & E).
  assert (zlen post = 2) as Lpost.
  { pose proof (f_equal (@length Z) E) as L. rewrite length_tcp_hdr_write, !length_app, Lp in L. cbn in L.
    unfold zlen. lia. }
  rewrite E, <- !app_assoc in H |- *. cbn [app] in H |- *.
  pose proof (zlen_nonneg rest) as Hn. unfold is_uint in *. pow2.
  destruct (pseudo_header_small src dst (20 + zlen rest)) as [Ho Hb]; [unfold is_uint; pow2; lia..|].
  assert (zlen pre = 16) as Zp by (unfold zlen; lia).
  destruct (seeded_checksum_verifies (tcp_pseudo_header_checksum src dst (20 + zlen rest)) pre (post ++ rest))
    as (c1 & c2 & E1 & Hg & E2 & G2); [done|done|done|by apply Forall_app|by rewrite Zp| |].
  { rewrite !zlen_app, Zp, Lpost. change (zlen [0; 0]) with 2. lia. }
  cbn [app] in E1. rewrite E1 in H. cbn [mbind option_bind] in H.
  assert (v = get BigEndian c1) as -> by congruence. split; [exact Hg|].
  unfold write_nbo_checksum, splice, segment_verifies. change (Z.to_nat 16) with 16%nat.
  rewrite take_app_length', (take_ge (host_store _ _ _)) by (by rewrite ?length_host_store).
  rewrite length_host_store, <- drop_drop, drop_app_length' by done. cbn [drop]. rewrite drop_0.
  exists c2. split; [|exact G2].
  replace (u16 _) with (20 + zlen rest); [exact E2|].
  assert (zlen (host_store BigEndian 2 (get BigEndian c1)) = 2) as Z2 by (unfold zlen; by rewrite length_host_store).
  rewrite wrap_small; rewrite !zlen_app, Zp, Lpost, Z2; [lia|pow2; lia].
Qed.

(** What the parts of [output_segment] before the packet is queued keep. *)
Definition same_wire (t t' : @tcb T) : Prop :=
  packetq t' = packetq t /\ local_ip t' = local_ip t /\ foreign_ip t' = foreign_ip t /\ option_ t' = option_ t.

#[local] Instance same_wire_preorder : PreOrder same_wire.
Proof. split; [by intros t|]. intros t1 t2 t3 (? & ? & ? & ?) (? & ? & ? & ?). split_and!; congruence. Qed.

Ltac go := respects_tac ltac:(by intros ?); try (eauto with respects).

Lemma clear_delayed_ack_wire : respects same_wire clear_delayed_ack.
Proof. unfold clear_delayed_ack. go. Qed.
Lemma start_retransmit_wire now : respects same_wire (start_retransmit_timer now).
Proof. unfold start_retransmit_timer. go. Qed.
#[local] Hint Resolve clear_delayed_ack_wire start_retransmit_wire : respects.

Lemma holds_bind_wire {A B} (m : @M T A) (f : A -> @M T B) Q t :
  respects same_wire m -> (forall x t', same_wire t t' -> holds (f x) Q t') -> holds (m ≫= f) Q t.
Proof. intros Hm Hf. apply holds_bind. eapply holds_mono; [apply Hm|]. intros x t'. apply Hf. Qed.

Lemma fill_bytes o syn_on ack_on n opts : is_uint 8 (local_win_scale o) ->
  fill o syn_on ack_on (get_size o syn_on ack_on) = Some opts -> n = get_size o syn_on ack_on ->
  Forall is_byte opts /\ zlen opts = n /\ n <= 8.
Proof.
  intros Hw H ->. destruct (fill_cases o syn_on ack_on) as [E1 E2]. rewrite E1 in H. injection H as <-. rewrite E2. clear E1 E2.
  pose proof (length_write_be 2 (local_mss o)) as L. pose proof (write_be_bytes 2 (local_mss o)) as B.
  destruct (write_be 2 (local_mss o)) as [|a [|b [|]]]; try done. inversion B as [|? ? Ba B1]; subst.
  inversion B1 as [|? ? Bb _]; subst.
  destruct (syn_on && (mss_received o || negb ack_on))%bool, (syn_on && (win_scale_received o || negb ack_on))%bool;
    (split; [repeat (constructor; [first [assumption|done]|]); constructor|]); done.
Qed.

Lemma output_segment_queues now hw dr payload (t : @tcb T) :
  tx_csum_l4_offload hw = false -> is_uint 32 (local_ip t) -> is_uint 32 (foreign_ip t) ->
  is_uint 8 (local_win_scale (option_ t)) -> Forall is_byte payload -> zlen payload + 28 < 65536 ->
  holds (output_segment BigEndian hw now dr payload)
    (fun _ t' => exists p, packetq t' = packetq t ++ [p] /\ segment_verifies (local_ip t) (foreign_ip t) (bytes p)) t.
Proof.
  intros Hhw Hl Hf Hw Hb Hn. unfold output_segment. apply holds_bind, holds_get. cbv zeta. rewrite Hhw. cbn [andb].
  pose proof (zlen_nonneg payload) as Hn0. rewrite (wrap_small 16 (zlen payload)) by (pow2; lia).
  apply holds_bind_wire; [solve [go]|intros _ t1 H1]. apply holds_bind, holds_get.
  apply holds_bind_wire; [solve [go]|intros _ t2 H2]. apply holds_bind, holds_get.
  assert (same_wire t t2) as (Eq & El & Ef & Eo) by by transitivity t1.
  apply holds_bind, holds_lift. intros opts Eopts. rewrite Eo in Eopts. apply holds_bind, holds_lift. intros v Ev.
  destruct (fill_bytes _ _ _ _ opts Hw Eopts eq_refl) as (Bo & Lo & L8). rewrite <- Lo in Ev, L8.
  assert (20 + zlen (opts ++ payload) < 65536) as Hlen by (rewrite zlen_app; lia).
  pose proof (zlen_nonneg opts) as Ho0. pose proof (zlen_nonneg (opts ++ payload)) as Hop.
  apply written_checksum_verifies in Ev as [_ Hv]; [|done|by rewrite El|by rewrite Ef|done|by apply Forall_app| |].
  2: exact Hlen. 2: { unfold tcp_hdr_len. rewrite zlen_app in Hlen |- *. rewrite wrap_small; [lia|pow2; lia]. }
  rewrite El, Ef in Hv.
  apply holds_bind_wire; [solve [go]|intros _ t3 (E3 & _)]. apply holds_bind, holds_get.
  destruct (_ || _)%bool; [|by intros ? ? ? [=]].
  apply holds_modify. eexists. split; [by rewrite <- Eq, <- E3|]. cbn [bytes]. rewrite <- Lo. exact Hv.
Qed.

(** ** Resets *)

Lemma respond_with_reset_sends {S} {SO : SemaphoreOps S} {Q} hw h l f (s : @Tcp.tcp T S Q) :
  tx_csum_l4_offload hw = false -> is_uint 32 l -> is_uint 32 f -> f_rst h = false ->
  hdr_ok h -> 20 <= sem_units (queue_space s) ->
  exists p v space, is_uint 16 v /\ Tcp.respond_with_reset BigEndian hw h l f s =
      Some (Tcp.set_packetq (tcp_packetq s) space s, [TcpLookup f p]) /\
    bytes p = write_nbo_checksum (host_store BigEndian 2 v) (tcp_hdr_write (reset_header h)) /\
    tcp_hdr_read (bytes p) = with_checksum v (reset_header h) /\
    segment_verifies l f (bytes p).
Proof.
  intros Hhw Hl Hf Hr Hok Hsp. unfold Tcp.respond_with_reset. rewrite Hr, Hhw.
  destruct (tcp_checksum_returns BigEndian hw l f tcp_hdr_len (tcp_hdr_write (reset_header h))) as [v Ev];
    [apply tcp_hdr_write_bytes|].
  pose proof Ev as Ev'. unfold tcp_checksum in Ev'. rewrite Hhw in Ev'. cbv zeta. rewrite Ev'. cbn [mbind option_bind].
  rewrite <- (app_nil_r (tcp_hdr_write _)) in Ev.
  apply written_checksum_verifies in Ev as [Hv Hver]; [|done..]. rewrite app_nil_r in Hver.
  unfold send_packet_without_tcb. cbn [plen bytes].
  set (p := Pkt _ _). assert (zlen (bytes p) = 20) as Lp.
  { unfold p. cbn [bytes]. rewrite <- (app_nil_r (tcp_hdr_write _)), write_nbo_checksum_write, app_nil_r. unfold zlen.
    by rewrite length_tcp_hdr_write. }
  unfold plen. rewrite Lp. pose proof (sem_try_wait_spec (queue_space s) 20) as Hw.
  destruct (sem_try_wait (queue_space s) 20) as [space|]; [|lia].
  exists p, v, space. split_and!; [done|done|done| |exact Hver].
  unfold p. cbn [bytes]. rewrite <- (app_nil_r (tcp_hdr_write _)), write_nbo_checksum_write, tcp_read_write.
  - f_equal. rewrite read_be_spec by (by rewrite length_host_store). cbn [host_store]. unfold host_store.
    rewrite take_ge by (by rewrite length_be_bytes). rewrite be_val_be_bytes. by apply Z.mod_small.
  - destruct Hok as (H1 & H2 & H3 & H4 & H5 & H6 & H7 & H8 & H9 & H10). unfold hdr_ok, with_checksum, reset_header. cbn.
    split_and!; try done; try (by destruct (f_ack h)).
    + destruct (f_syn h); [|done]. by apply wrap_range.
    + pose proof (read_be_range 2 (host_store BigEndian 2 v) ltac:(by rewrite length_host_store) (host_store_bytes _ _ _)). done.
Qed.
End Csum.

(** ** Properties *)

Section Properties.
Context {BC : BeCodec} {AU : AlignUp} {T : Type} {TM : TimerOps T}.
Context {Sem : Type} {SO : SemaphoreOps Sem} {Q : Type} {QO : QueueOps Q nat}.
Variable hw : hw_features.
Variable get_isn : @tcb T -> Z -> tcp_seq.
Variable junk_snd : send.
Variable junk_rcv : receive.

(** C35. Checksums across the wire: whatever segment a connection of a big-endian
    host without checksum offload queues (first transmission or not, with or
    without options and data, less than 64 KiB in all), it passes the checksum test that [received] makes
    at the other end. *)
Theorem segment_sent_verifies now dr payload (t t' : @tcb T) u es :
  tx_csum_l4_offload hw = false -> is_uint 32 (local_ip t) -> is_uint 32 (foreign_ip t) ->
  is_uint 8 (local_win_scale (option_ t)) -> Forall is_byte payload -> zlen payload + 28 < 65536 ->
  output_segment BigEndian hw now dr payload t = Some (u, t', es) ->
  exists p, packetq t' = packetq t ++ [p] /\ segment_verifies (local_ip t) (foreign_ip t) (bytes p).
Proof. intros H1 H2 H3 H4 H5 H6 E. by eapply output_segment_queues in E. Qed.

(** A segment for nobody is answered: a valid segment without RST that names
    no connection, to a port that nobody listens to, changes no table and makes
    the host send exactly one reset to its sender, with the ports exchanged, the
    acknowledgment number as its sequence number, the sequence number of a SYN
    acknowledged, and a checksum that the sender will find right. *)
Theorem closed_port_reset now p th from to (s : @Tcp.tcp T Sem Q) :
  rx_csum_offload hw = false -> tx_csum_l4_offload hw = false ->
  is_uint 32 from -> is_uint 32 to -> 20 <= sem_units (queue_space s) ->
  header_at 0 tcp_hdr_len p = Some th -> hdr_ok (tcp_hdr_read th) -> 5 <= Z.shiftr (nth 12 th 0) 4 ->
  segment_verifies from to p ->
  let h := tcp_hdr_read th in
  f_rst h = false ->
  tcbs s !! Connid to from (dst_port h) (src_port h) = None -> listening s !! dst_port h = None ->
  exists reply space,
    tcp_received BigEndian hw get_isn junk_snd junk_rcv now p from to s =
      Some (Tcp.set_packetq (tcp_packetq s) space s, [TcpLookup from reply]) /\
    let r := tcp_hdr_read (bytes reply) in
    src_port r = dst_port h /\ dst_port r = src_port h /\ f_rst r = true /\ f_ack r = f_syn h /\
    (f_ack h = true -> h_seq r = h_ack h) /\ (f_syn h = true -> h_ack r = seq_add (h_seq h) 1) /\
    segment_verifies to from (bytes reply).
Proof.
  intros Hrx Htx Hf Ht Hsp Eth Hok Hoff (c & Ec & Eg) h Hrst Hid Hl.
  destruct (respond_with_reset_sends hw h to from s) as (reply & v & space & _ & E & _ & Er & Hv); try done.
  exists reply, space. unfold tcp_received. rewrite Eth.
  destruct (Z.ltb_spec (Z.shiftr (nth 12 th 0) 4 * 4) tcp_hdr_len) as [Hlt|_]; [unfold tcp_hdr_len in Hlt; lia|].
  rewrite Hrx, Ec. cbn [mbind option_bind]. rewrite Eg. cbn [Z.eqb negb]. fold h. rewrite Hid. cbn [id_local_port].
  rewrite Hl. cbn [mbind option_bind id_local_ip id_foreign_ip]. split; [exact E|].
  cbv zeta. rewrite Er. unfold with_checksum, reset_header. cbn. split_and!; try done; by intros ->.
Qed.
End Properties.

(** ** Concrete segments *)

Module Ex.
Import Core.Impl.

(** A host at 10.0.0.1 in its initial state, and a SYN from 10.0.0.2 to port 80. *)
Definition host : Z := 167772161.
Definition peer : Z := 167772162.
Definition tcp0 : @Tcp.tcp (option Z) Z (queue_list nat) := tcp_init.

(** A header made a segment with its checksum. *)
Definition segment (h : tcp_hdr) (payload : list Z) : list Z :=
  let p := tcp_hdr_write h ++ payload in
  match tcp_checksum BigEndian hw_features_default peer host (zlen p) p with
  | Some v => write_nbo_checksum (host_store BigEndian 2 v) p
  | None => []
  end.

Definition syn : list Z := segment (TcbState.Ex.hdr 1000 0 true false false false 4096) [].

Definition receive (now : Z) (p : list Z) (s : @Tcp.tcp (option Z) Z (queue_list nat)) :=
  tcp_received BigEndian hw_features_default TcbState.Ex.isn TcbState.Ex.junk_snd TcbState.Ex.junk_rcv now p peer host s.
End Ex.

Import Core.Impl.

Lemma segment_sent_verifies_witness :
  exists p, packetq (default TcbState.Ex.established (match output_segment BigEndian hw_features_default 3 false [1; 2; 3]
                                          TcbState.Ex.established with Some (_, t, _) => Some t | None => None end)) = [p] /\
    segment_verifies 167772161 167772162 (bytes p).
Proof.
  destruct (output_segment BigEndian hw_features_default 3 false [1; 2; 3] TcbState.Ex.established) as [[[u t'] es]|] eqn:E.
  2: { vm_compute in E. discriminate. }
  refine (segment_sent_verifies hw_features_default 3 false [1; 2; 3] TcbState.Ex.established t' u es _ _ _ _ _ _ E).
  - reflexivity.
  - vm_compute. split; congruence.
  - vm_compute. split; congruence.
  - vm_compute. split; congruence.
  - by apply all_bytes_ok.
  - reflexivity.
Defined.

Lemma closed_port_reset_witness :
  exists reply space, Ex.receive 1 Ex.syn Ex.tcp0 = Some (Tcp.set_packetq [] space Ex.tcp0, [TcpLookup Ex.peer reply]) /\
    f_rst (tcp_hdr_read (bytes reply)) = true.
Proof.
  edestruct (closed_port_reset hw_features_default TcbState.Ex.isn TcbState.Ex.junk_snd TcbState.Ex.junk_rcv 1
    Ex.syn Ex.syn Ex.peer Ex.host Ex.tcp0) as (reply & space & E & _ & _ & Hr & _).
  13: { exists reply, space. split; [exact E|exact Hr]. }
  - reflexivity.
  - reflexivity.
  - vm_compute; split; congruence.
  - vm_compute; split; congruence.
  - vm_compute. congruence.
  - vm_compute. reflexivity.
  - vm_compute. repeat split; congruence.
  - vm_compute. congruence.
  - exists (default checksummer_init (sum BigEndian (tcp_pseudo_header_checksum Ex.peer Ex.host 20) Ex.syn)).
    split; vm_compute; reflexivity.
  - vm_compute. reflexivity.
  - reflexivity.
  - reflexivity.
Defined.
