(* ===== verification/TcpTable.v ===== *)
(** * The tables of class [tcp]

    Executions of the [tcp] object from its constructor: listening, connecting,
    segments, packets sent, timers and user calls.  The connection table, the
    poll queue, the accept queues and the table of listeners keep pointing to
    what they name, and a segment reaches only the connection it names. *)

From S2P Require Import Prelude Core ByteOrder Checksum Packet Net Inet Ipv4 TcpSeq TcpHdr PacketMerger TcbData Tcb TcbState TcbSend Tcp TcpCsum.
From stdpp Require Import base numbers option gmap list.

#[local] Open Scope Z_scope.

(** ** An operation keeps the four-tuple of its control block *)

Section SameId.
Context {BC : BeCodec} {AU : AlignUp} {T : Type} {TM : TimerOps T}.
Abbreviation tcb := (@TcbData.tcb T).
Variable e : endian.
Variable hw : hw_features.
Variable now : Z.
Variable get_isn : tcb -> Z -> tcp_seq.

Definition same_id (t t' : tcb) : Prop := id_of t' = id_of t.

#[export] Instance same_id_preorder : PreOrder same_id.
Proof. split; [by intros ?|by intros ??? H1 H2; unfold same_id in *; congruence]. Qed.

Abbreviation sid := (@respects T _ same_id).
Ltac go := respects_tac ltac:(by intros ?); try (eauto with respects).

Lemma output_sid : sid output. Proof. unfold output. go. Qed.
Lemma can_send_sid : sid can_send. Proof. unfold can_send. go. Qed.
Lemma start_retransmit_sid : sid (start_retransmit_timer now). Proof. unfold start_retransmit_timer. go. Qed.
Lemma stop_retransmit_sid : sid stop_retransmit_timer. Proof. unfold stop_retransmit_timer. go. Qed.
Lemma start_persist_sid : sid (start_persist_timer now). Proof. unfold start_persist_timer. go. Qed.
Lemma stop_persist_sid : sid stop_persist_timer. Proof. unfold stop_persist_timer. go. Qed.
Lemma clear_delayed_ack_sid : sid clear_delayed_ack. Proof. unfold clear_delayed_ack. go. Qed.
#[local] Hint Resolve output_sid can_send_sid start_retransmit_sid stop_retransmit_sid start_persist_sid
  stop_persist_sid clear_delayed_ack_sid : respects.
Lemma cleanup_sid : sid cleanup. Proof. unfold cleanup. go. Qed.
Lemma update_rto_sid tx : sid (update_rto now tx). Proof. unfold update_rto. go. Qed.
Lemma update_cwnd_sid n : sid (update_cwnd n). Proof. unfold update_cwnd. go. Qed.
Lemma signal_data_received_sid : sid signal_data_received. Proof. unfold signal_data_received. go. Qed.
Lemma signal_all_data_acked_sid : sid signal_all_data_acked. Proof. unfold signal_all_data_acked. go. Qed.
Lemma signal_send_available_sid : sid signal_send_available. Proof. unfold signal_send_available. go. Qed.
Lemma exit_fast_recovery_sid : sid exit_fast_recovery. Proof. unfold exit_fast_recovery. go. Qed.
Lemma do_setup_isn_sid : sid (do_setup_isn now get_isn). Proof. unfold do_setup_isn. go. Qed.
Lemma do_local_fin_acked_sid : sid do_local_fin_acked. Proof. unfold do_local_fin_acked. go. Qed.
Lemma respond_with_reset_sid th : sid (Tcb.respond_with_reset th). Proof. unfold Tcb.respond_with_reset. go. Qed.
Lemma queue_packet_sid p : sid (queue_packet p). Proof. unfold queue_packet. go. Qed.
Lemma init_from_options_sid th mem n : sid (init_from_options hw th mem n). Proof. unfold init_from_options. go. Qed.
Lemma get_transmit_packet_sid : sid (get_transmit_packet hw). Proof. unfold get_transmit_packet. go. Qed.
#[local] Hint Resolve cleanup_sid update_rto_sid update_cwnd_sid signal_data_received_sid signal_all_data_acked_sid
  signal_send_available_sid exit_fast_recovery_sid do_setup_isn_sid do_local_fin_acked_sid
  respond_with_reset_sid queue_packet_sid init_from_options_sid get_transmit_packet_sid : respects.
Lemma do_syn_sent_sid : sid (do_syn_sent now). Proof. unfold do_syn_sent. go. Qed.
Lemma do_syn_received_sid : sid (do_syn_received now). Proof. unfold do_syn_received. go. Qed.
Lemma do_established_sid : sid (do_established now). Proof. unfold do_established. go. Qed.
Lemma do_reset_sid : sid do_reset. Proof. unfold do_reset. go. Qed.
Lemma do_time_wait_sid : sid do_time_wait. Proof. unfold do_time_wait. go. Qed.
Lemma do_closed_sid : sid do_closed. Proof. unfold do_closed. go. Qed.
Lemma ack_full_segments_sid seg_ack data total : sid (ack_full_segments now seg_ack data total).
Proof. revert total. induction data as [|seg data IH]; intros total; cbn [ack_full_segments]; go. Qed.
#[local] Hint Resolve do_syn_sent_sid do_syn_received_sid do_established_sid do_reset_sid do_time_wait_sid
  do_closed_sid ack_full_segments_sid : respects.
Lemma data_segment_acked_sid seg_ack : sid (data_segment_acked now seg_ack). Proof. unfold data_segment_acked. go. Qed.
Lemma output_segment_sid b p : sid (output_segment e hw now b p). Proof. unfold output_segment. go. Qed.
#[local] Hint Resolve data_segment_acked_sid output_segment_sid : respects.
Lemma output_one_sid b : sid (output_one e hw now b). Proof. unfold output_one. go. Qed.
#[local] Hint Resolve output_one_sid : respects.
Lemma fast_retransmit_sid : sid (fast_retransmit e hw now). Proof. unfold fast_retransmit, retransmit_one. go. Qed.
Lemma reset_retransmit_timer_sid : sid (reset_retransmit_timer now). Proof. unfold reset_retransmit_timer. go. Qed.
Lemma update_window_sid th a b : sid (update_window now th a b). Proof. unfold update_window. go. Qed.
#[local] Hint Resolve fast_retransmit_sid reset_retransmit_timer_sid update_window_sid : respects.
Lemma ack_new_data_sid th a b : sid (ack_new_data e hw now th a b). Proof. unfold ack_new_data. go. Qed.
Lemma ack_duplicate_sid a : sid (ack_duplicate e hw now a). Proof. unfold ack_duplicate. go. Qed.
Lemma ack_other_sid th a b : sid (ack_other now th a b). Proof. unfold ack_other. go. Qed.
#[local] Hint Resolve ack_new_data_sid ack_duplicate_sid ack_other_sid : respects.
Lemma ack_established_sid th a b n : sid (ack_established e hw now th a b n). Proof. unfold ack_established. go. Qed.
Lemma should_send_ack_sid n : sid (should_send_ack now n). Proof. unfold should_send_ack. go. Qed.
Lemma merge_out_of_order_sid : sid merge_out_of_order. Proof. unfold merge_out_of_order. go. Qed.
Lemma insert_out_of_order_sid a p : sid (insert_out_of_order a p). Proof. unfold insert_out_of_order. go. Qed.
#[local] Hint Resolve ack_established_sid should_send_ack_sid merge_out_of_order_sid insert_out_of_order_sid : respects.
Lemma process_text_sid p n : sid (process_text now p n). Proof. unfold process_text. go. Qed.
Lemma process_fin_sid th a n b : sid (process_fin th a n b). Proof. unfold process_fin. go. Qed.
Lemma final_output_sid a b : sid (final_output a b). Proof. unfold final_output. go. Qed.
Lemma process_rst_sid : sid process_rst. Proof. unfold process_rst. go. Qed.
Lemma process_ack_sid th a b n : sid (process_ack e hw now th a b n). Proof. unfold process_ack. go. Qed.
#[local] Hint Resolve process_text_sid process_fin_sid final_output_sid process_rst_sid process_ack_sid : respects.
Lemma process_segment_sid th p a n : sid (process_segment e hw now th p a n). Proof. unfold process_segment. go. Qed.
Lemma wait_for_data_sid : sid wait_for_data. Proof. unfold wait_for_data. go. Qed.
Lemma abort_reader_sid : sid abort_reader. Proof. unfold abort_reader. go. Qed.
Lemma wait_for_all_data_acked_sid : sid wait_for_all_data_acked. Proof. unfold wait_for_all_data_acked. go. Qed.
Lemma read_sid : sid Tcb.read. Proof. unfold Tcb.read. go. Qed.
Lemma wait_send_available_sid : sid wait_send_available. Proof. unfold wait_send_available. go. Qed.
Lemma close_continuation_sid : sid (close_continuation e hw now). Proof. unfold close_continuation. go. Qed.
Lemma output_update_rto_sid : sid (output_update_rto now). Proof. unfold output_update_rto. go. Qed.
#[local] Hint Resolve output_update_rto_sid : respects.
Lemma retransmit_control_sid : sid (retransmit_control now). Proof. unfold retransmit_control. go. Qed.
#[local] Hint Resolve process_segment_sid wait_for_data_sid abort_reader_sid wait_for_all_data_acked_sid read_sid
  wait_send_available_sid close_continuation_sid retransmit_control_sid : respects.
Lemma send_packet_sid p : sid (send_packet p). Proof. unfold send_packet. go. Qed.
Lemma close_sid : sid (close e hw now). Proof. unfold close. go. Qed.
Lemma persist_sid : sid (persist e hw now). Proof. unfold persist. go. Qed.
Lemma retransmit_sid : sid (retransmit e hw now). Proof. unfold retransmit, retransmit_one. go. Qed.
#[local] Hint Resolve send_packet_sid close_sid persist_sid retransmit_sid : respects.
Lemma connection_destroyed_sid : sid (connection_destroyed e hw now). Proof. unfold connection_destroyed. go. Qed.
Lemma shutdown_connect_sid : sid (shutdown_connect e hw now). Proof. unfold shutdown_connect. go. Qed.
Lemma connect_sid : sid (connect hw now get_isn). Proof. unfold connect. go. Qed.
Lemma get_packet_sid : sid (get_packet e hw now). Proof. unfold get_packet. go. Qed.
Lemma listen_sid th p : sid (input_handle_listen_state hw now get_isn th p).
Proof. unfold input_handle_listen_state. go. Qed.
Lemma syn_sent_sid th p : sid (input_handle_syn_sent_state hw now th p).
Proof. unfold input_handle_syn_sent_state. go. Qed.
Lemma other_sid th p : sid (input_handle_other_state e hw now th p).
Proof. unfold input_handle_other_state. go. Qed.
#[local] Hint Resolve connection_destroyed_sid shutdown_connect_sid connect_sid get_packet_sid listen_sid
  syn_sent_sid other_sid : respects.

Lemma exec_sid op : sid (exec e hw get_isn now op).
Proof.
  destruct op; cbn [exec]; unfold delayed_ack_expired, poll_failed_queue_full, poll_failed_timeout; go.
Qed.
End SameId.

(** ** Executions *)

(** What can happen to the [tcp] object. *)
Inductive tcp_op :=
  | TcpListen (port queue_length : Z) | TcpListenerMove (i : nat) | TcpListenerDestroy (i : nat)
  | TcpAccept (i : nat) | TcpAbortAccept (i : nat)
  | TcpConnect (ports : list Z) (dst_ip dst_port : Z)
  | TcpReceived (p : list Z) (from to : Z)
  | TcpPacketResolved (to : Z) (p : packet) (e_dst : mac)
  | TcpPollResolved (ptr : nat) (dst : mac)
  | TcpGetPacket
  | TcpOp (ptr : nat) (op : tcb_op).

Section Tables.
Context {BC : BeCodec} {AU : AlignUp} {T : Type} {TM : TimerOps T}.
Context {Sem : Type} {SO : SemaphoreOps Sem} {Q : Type} {QO : QueueOps Q nat}.
Variable e : endian.
Variable hw : hw_features.
Variable get_isn : @tcb T -> Z -> tcp_seq.
Variable junk_snd : send.
Variable junk_rcv : receive.
Variable host_address : ipv4_address.
Variable hw_queues_count : Z.
Variable rss_key : list Z.
Variable hash2cpu : Z -> Z.
Variable this_shard_id : Z.
Abbreviation tcp := (@Tcp.tcp T Sem Q).

Definition tcp_step (now : Z) (op : tcp_op) (s : tcp) : option tcp :=
  match op with
  | TcpListen port n => Some (Datatypes.fst (listen port n s))
  | TcpListenerMove i => Datatypes.fst <$> listener_move i s
  | TcpListenerDestroy i => listener_destroy i s
  | TcpAccept i => Datatypes.fst <$> accept i s
  | TcpAbortAccept i => abort_accept i s
  | TcpConnect ports ip port =>
      '(_, s, _) ← tcp_connect e hw get_isn junk_snd junk_rcv host_address hw_queues_count rss_key hash2cpu
                     this_shard_id now ports ip port s; Some s
  | TcpReceived p from to => Datatypes.fst <$> tcp_received e hw get_isn junk_snd junk_rcv now p from to s
  | TcpPacketResolved to p dst => Some (packet_resolved to p dst s)
  | TcpPollResolved ptr dst => Some (poll_resolved ptr dst s)
  | TcpGetPacket => '(_, s, _) ← tcp_get_packet e hw now s; Some s
  | TcpOp ptr op => '(_, s, _) ← run_tcb e hw now ptr (exec e hw get_isn now op) s; Some s
  end.

(** What the callers promise: a listener has a port and is moved from once, and
    an address looked up is for a control block there is. *)
Definition tcp_allowed (op : tcp_op) (s : tcp) : Prop :=
  match op with
  | TcpListen port _ => port <> 0
  | TcpListenerMove i => forall l, listeners s !! i = Some l -> l_port l <> 0
  | TcpPollResolved ptr _ => is_Some (heap s !! ptr)
  | _ => True
  end.

Inductive tcp_run : tcp -> tcp -> Prop :=
  | tcp_run_nil s : tcp_run s s
  | tcp_run_cons now op s s1 s2 :
      tcp_allowed op s -> tcp_step now op s = Some s1 -> tcp_run s1 s2 -> tcp_run s s2.

(** ** The invariant *)

Definition alive (s : tcp) (ptr : nat) : Prop := is_Some (heap s !! ptr).

Record tables_ok (s : tcp) : Prop := {
  ok_tcbs : forall id ptr, tcbs s !! id = Some ptr -> exists t, heap s !! ptr = Some t /\ id_of t = id;
  ok_poll : Forall (fun x => alive s x.1) (poll_tcbs s);
  ok_queues : forall i l, listeners s !! i = Some l -> Forall (alive s) (q_items (l_q l));
  ok_listening : forall port i, listening s !! port = Some i ->
    port <> 0 /\ exists l, listeners s !! i = Some l /\ l_port l = port;
  ok_next : forall ptr, (next_ptr s <= ptr)%nat -> heap s !! ptr = None;
  ok_next_listener : forall i, (next_listener s <= i)%nat -> listeners s !! i = None }.

(** A step that only concerns the control block at [ptr]. *)
Record touches (ptr : nat) (s s' : tcp) : Prop := {
  to_next : next_ptr s' = next_ptr s;
  to_next_listener : next_listener s' = next_listener s;
  to_poll : poll_tcbs s' = poll_tcbs s;
  to_listening : listening s' = listening s;
  to_tcbs : tcbs s' ⊆ tcbs s;
  to_others : forall q, q <> ptr -> heap s' !! q = heap s !! q;
  to_this : forall t, heap s !! ptr = Some t -> exists t', heap s' !! ptr = Some t' /\ id_of t' = id_of t;
  to_none : heap s !! ptr = None -> heap s' !! ptr = None;
  to_listeners : forall i,
    match listeners s !! i, listeners s' !! i with
    | Some l, Some l' => l_port l' = l_port l /\ forall q, q ∈ q_items (l_q l') -> q = ptr \/ q ∈ q_items (l_q l)
    | None, None => True
    | _, _ => False
    end }.

#[export] Instance touches_preorder ptr : PreOrder (touches ptr).
Proof.
  split.
  - intros s. constructor; try done; [by intros t; exists t|]. intros i. destruct (listeners s !! i); [|done]. split; [done|by right].
  - intros s1 s2 s3 H1 H2. constructor.
    + by rewrite (to_next _ _ _ H2), (to_next _ _ _ H1).
    + by rewrite (to_next_listener _ _ _ H2), (to_next_listener _ _ _ H1).
    + by rewrite (to_poll _ _ _ H2), (to_poll _ _ _ H1).
    + by rewrite (to_listening _ _ _ H2), (to_listening _ _ _ H1).
    + etransitivity; [apply (to_tcbs _ _ _ H2)|apply (to_tcbs _ _ _ H1)].
    + intros q Hq. by rewrite (to_others _ _ _ H2), (to_others _ _ _ H1).
    + intros t Ht. destruct (to_this _ _ _ H1 t Ht) as (t2 & Ht2 & E2).
      destruct (to_this _ _ _ H2 t2 Ht2) as (t3 & Ht3 & E3). exists t3. split; [done|congruence].
    + intros H. by apply (to_none _ _ _ H2), (to_none _ _ _ H1).
    + intros i. pose proof (to_listeners _ _ _ H1 i) as L1. pose proof (to_listeners _ _ _ H2 i) as L2.
      destruct (listeners s1 !! i), (listeners s2 !! i), (listeners s3 !! i); try done.
      destruct L1 as [P1 L1], L2 as [P2 L2]. split; [congruence|].
      intros q Hq. destruct (L2 q Hq) as [?|Hq2]; [by left|]. by apply L1.
Qed.

(** Every control block that was there is there, with its four-tuple. *)
Lemma touches_heap ptr s s' q t : touches ptr s s' -> heap s !! q = Some t ->
  exists t', heap s' !! q = Some t' /\ id_of t' = id_of t.
Proof.
  intros H Ht. destruct (decide (q = ptr)) as [->|Hq]; [by apply (to_this _ _ _ H)|].
  exists t. by rewrite (to_others _ _ _ H).
Qed.

Lemma touches_alive ptr s s' q : touches ptr s s' -> alive s q -> alive s' q.
Proof. intros H [t Ht]. destruct (touches_heap _ _ _ q t H Ht) as (t' & Ht' & _). by exists t'. Qed.

Lemma touches_ok ptr s s' : touches ptr s s' -> alive s ptr -> tables_ok s -> tables_ok s'.
Proof.
  intros H Hp I. constructor.
  - intros id q Hq. assert (tcbs s !! id = Some q) as Hq' by (eapply lookup_weaken; [exact Hq|apply (to_tcbs _ _ _ H)]).
    destruct (ok_tcbs s I id q Hq') as (t & Ht & <-). by apply (touches_heap ptr s).
  - rewrite (to_poll _ _ _ H). eapply Forall_impl; [apply (ok_poll s I)|]. intros x. by apply touches_alive with ptr.
  - intros i l Hl. pose proof (to_listeners _ _ _ H i) as L. rewrite Hl in L.
    destruct (listeners s !! i) as [l0|] eqn:E0; [|done]. destruct L as [_ L]. apply Forall_forall. intros q Hq.
    apply (touches_alive ptr s); [done|]. destruct (L q Hq) as [->|Hq0]; [done|].
    pose proof (ok_queues s I i l0 E0) as F. rewrite Forall_forall in F. by apply F.
  - rewrite (to_listening _ _ _ H). intros port i Hi. destruct (ok_listening s I port i Hi) as (Hn & l & Hl & <-).
    split; [done|]. pose proof (to_listeners _ _ _ H i) as L. rewrite Hl in L.
    destruct (listeners s' !! i) as [l'|] eqn:E'; [|done]. exists l'. split; [done|apply L].
  - rewrite (to_next _ _ _ H). intros q Hq. pose proof (ok_next s I q Hq) as E.
    destruct (decide (q = ptr)) as [->|Hqp]; [by apply (to_none _ _ _ H)|]. by rewrite (to_others _ _ _ H).
  - rewrite (to_next_listener _ _ _ H). intros i Hi. pose proof (ok_next_listener s I i Hi) as E.
    pose proof (to_listeners _ _ _ H i) as L. rewrite E in L. by destruct (listeners s' !! i).
Qed.

(** ** The steps *)

Lemma send_without_tcb_touches ptr to p (s s' : tcp) es :
  send_packet_without_tcb to p s = (s', es) -> touches ptr s s'.
Proof.
  unfold send_packet_without_tcb. destruct (sem_try_wait (queue_space s) (plen p)) as [space|]; intros [= <- <-]; [|reflexivity].
  constructor; try done; [by intros t; exists t|]. intros i. cbn. destruct (listeners s !! i); [|done]. split; [done|by right].
Qed.

Lemma respond_touches ptr th a b (s s' : tcp) es :
  Tcp.respond_with_reset e hw th a b s = Some (s', es) -> touches ptr s s'.
Proof.
  unfold Tcp.respond_with_reset. destruct (f_rst th); [by intros [= <- <-]|]. intros H.
  apply bind_Some in H as (c & _ & [= H]). by eapply send_without_tcb_touches.
Qed.

Lemma handle_event_touches ptr t ev (s s' : tcp) es :
  handle_event e hw ptr t ev s = Some (s', es) -> touches ptr s s'.
Proof.
  destruct ev; cbn [handle_event]; try (by intros [= <- <-]); [by apply respond_touches|].
  intros [= <- <-]. constructor; try done; [by apply delete_subseteq|by intros u; exists u|].
  intros i. cbn. destruct (listeners s !! i); [|done]. split; [done|by right].
Qed.

Lemma set_heap_touches ptr t t' (s : tcp) :
  heap s !! ptr = Some t -> id_of t' = id_of t -> touches ptr s (set_heap (<[ptr := t']> (heap s)) s).
Proof.
  intros Ht Hid. constructor; try done; cbn.
  - intros q Hq. by rewrite lookup_insert_ne.
  - intros u Hu. exists t'. rewrite lookup_insert_eq. split; [done|congruence].
  - congruence.
  - intros i. destruct (listeners s !! i); [|done]. split; [done|by right].
Qed.

Lemma set_listener_touches ptr i l l' (s : tcp) :
  listeners s !! i = Some l -> l_port l' = l_port l ->
  (forall q, q ∈ q_items (l_q l') -> q = ptr \/ q ∈ q_items (l_q l)) -> touches ptr s (set_listener i l' s).
Proof.
  intros Hl Hp Hq. constructor; try done; [by intros t; exists t|]. intros j. cbn.
  destruct (decide (i = j)) as [<-|Hj]; [rewrite Hl, lookup_insert_eq; by split|].
  rewrite lookup_insert_ne by done. destruct (listeners s !! j); [|done]. split; [done|by right].
Qed.

Lemma drop_connection_touches now ptr (s s' : tcp) es :
  drop_connection e hw now ptr s = Some (s', es) -> touches ptr s s' /\ listeners s' = listeners s.
Proof.
  unfold drop_connection. intros H. apply bind_Some in H as (t & Ht & H).
  apply bind_Some in H as ([[u t'] evs] & Hm & H). cbn beta iota in H.
  assert (id_of t' = id_of t) as Hid by (by eapply connection_destroyed_sid).
  pose proof (set_heap_touches ptr t t' s Ht Hid) as H0.
  assert (forall s1 s1' es0 es1, foldl (fun acc ev => '(s, es) ← acc; '(s, es') ← handle_event e hw ptr t' ev s; Some (s, es ++ es'))
    (Some (s1, es0)) evs = Some (s1', es1) -> touches ptr s1 s1' /\ listeners s1' = listeners s1) as Hf.
  { clear. induction evs as [|ev evs IH]; intros s1 s1' es0 es1; cbn [foldl].
    - intros [= <- <-]. split; reflexivity.
    - cbn. destruct (handle_event e hw ptr t' ev s1) as [[s2 es2]|] eqn:E; cbn.
      + intros H. destruct (IH _ _ _ _ H) as [H1 H2]. split.
        * etransitivity; [by eapply handle_event_touches|done].
        * rewrite H2. clear -E. destruct ev; cbn [handle_event] in E; try (injection E as <- _; reflexivity).
          unfold Tcp.respond_with_reset, send_packet_without_tcb in E. destruct (f_rst th); [by injection E as <- _|].
          apply bind_Some in E as (c & _ & E). injection E as E.
          destruct (sem_try_wait _ _); by injection E as <- _.
      + intros H. exfalso. clear -H. induction evs as [|ev evs IH]; [done|]. by apply IH. }
  destruct (Hf _ _ _ _ H) as [H1 H2]. split; [by etransitivity|done].
Qed.

Lemma add_connected_touches now ptr port (s s' : tcp) es :
  add_connected_tcb e hw now ptr port s = Some (s', es) -> touches ptr s s'.
Proof.
  unfold add_connected_tcb. destruct (listening s !! port) as [i|]; [|by intros [= <- <-]].
  intros H. apply bind_Some in H as (l & Hl & H). pose proof (q_push_spec ptr (l_q l)) as Hq.
  destruct (q_push ptr (l_q l)) as [q|] eqn:Eq.
  - injection H as <- <-. destruct Hq as (_ & Hq & _). apply set_listener_touches with l; [done|done|]. cbn. rewrite Hq.
    intros x. rewrite elem_of_app, list_elem_of_singleton. tauto.
  - apply bind_Some in H as ([s1 es1] & H1 & H). injection H as <- <-.
    apply drop_connection_touches in H1 as [H1 H2]. etransitivity; [exact H1|].
    apply set_listener_touches with l; [by rewrite H2|done|]. by right.
Qed.

Lemma handle_events_touches now ptr t evs (s s' : tcp) es :
  handle_events e hw now ptr t evs s = Some (s', es) -> touches ptr s s'.
Proof.
  revert s s' es. induction evs as [|ev evs IH]; intros s s' es; cbn [handle_events]; [by intros [= <- <-]|].
  intros H. apply bind_Some in H as ([s1 es1] & H1 & H). apply bind_Some in H as ([s2 es2] & H2 & H).
  injection H as <- <-. etransitivity; [|by eapply IH].
  destruct ev; cbn [handle_event_full] in H1; try (by eapply handle_event_touches). by eapply add_connected_touches.
Qed.

Lemma run_tcb_touches {A} now ptr (m : @M T A) x (s s' : tcp) es :
  respects same_id m -> run_tcb e hw now ptr m s = Some (x, s', es) -> touches ptr s s' /\ alive s ptr.
Proof.
  intros Hm H. unfold run_tcb in H. apply bind_Some in H as (t & Ht & H).
  apply bind_Some in H as ([[y t'] evs] & E & H). apply bind_Some in H as ([s1 es1] & H1 & H). injection H as <- <- <-.
  split; [|by exists t]. etransitivity; [|by eapply handle_events_touches]. apply set_heap_touches with t; [done|].
  by eapply Hm.
Qed.

Lemma run_tcb_ok {A} now ptr (m : @M T A) x (s s' : tcp) es :
  respects same_id m -> run_tcb e hw now ptr m s = Some (x, s', es) -> tables_ok s -> tables_ok s'.
Proof. intros Hm H. apply run_tcb_touches in H as [H Ha]; [|done]. by apply touches_ok with ptr. Qed.

Lemma alive_insert (s : tcp) ptr t q : alive s q -> is_Some (<[ptr := t]> (heap s) !! q).
Proof.
  intros [t' Ht']. destruct (decide (ptr = q)) as [->|H]; [rewrite lookup_insert_eq|rewrite lookup_insert_ne by done]; eauto.
Qed.

Lemma new_tcb_ok id (s : tcp) : tables_ok s -> tables_ok (new_tcb junk_snd junk_rcv id s).1.
Proof.
  intros I. pose proof (ok_next s I) as Hn. unfold new_tcb. constructor; cbn.
  - intros id' ptr H. assert (tcbs s !! id' = Some ptr \/ id' = id /\ ptr = next_ptr s) as [Ho|[-> ->]].
    { destruct (tcbs s !! id) eqn:E; [by left|]. destruct (decide (id = id')) as [->|Hi].
      - rewrite lookup_insert_eq in H. injection H as ->. by right.
      - rewrite lookup_insert_ne in H by done. by left. }
    + destruct (ok_tcbs s I id' ptr Ho) as (t & Ht & <-). exists t.
      rewrite lookup_insert_ne; [done|]. intros <-. by rewrite Hn in Ht.
    + eexists. rewrite lookup_insert_eq. split; [done|]. by destruct id.
  - eapply Forall_impl; [apply (ok_poll s I)|]. intros x. apply alive_insert.
  - intros i l Hl. eapply Forall_impl; [apply (ok_queues s I i l Hl)|]. intros x. apply alive_insert.
  - apply (ok_listening s I).
  - intros ptr Hp. rewrite lookup_insert_ne by lia. apply Hn. lia.
  - apply (ok_next_listener s I).
Qed.

Lemma set_listener_ok i l l' (s : tcp) :
  listeners s !! i = Some l -> l_port l' = l_port l ->
  (forall q, q ∈ q_items (l_q l') -> q ∈ q_items (l_q l)) -> tables_ok s -> tables_ok (set_listener i l' s).
Proof.
  intros Hl Hp Hq I. constructor; try apply I; cbn.
  - intros j l0 Hj. destruct (decide (i = j)) as [<-|Hne].
    + rewrite lookup_insert_eq in Hj. injection Hj as <-. pose proof (ok_queues s I i l Hl) as F.
      rewrite Forall_forall in F |- *. intros q H. by apply F, Hq.
    + rewrite lookup_insert_ne in Hj by done. by apply (ok_queues s I j).
  - intros port j Hj. destruct (ok_listening s I port j Hj) as (Hn & l0 & Hl0 & <-). split; [done|].
    destruct (decide (i = j)) as [<-|Hne]; [rewrite lookup_insert_eq|rewrite lookup_insert_ne by done; eauto].
    exists l'. split; [done|]. congruence.
  - intros j Hj. rewrite lookup_insert_ne; [by apply (ok_next_listener s I)|]. intros <-.
    by rewrite (ok_next_listener s I i Hj) in Hl.
Qed.

Lemma listen_ok port n (s : tcp) : port <> 0 -> tables_ok s -> tables_ok (Datatypes.fst (listen port n s)).
Proof.
  intros Hport I. pose proof (ok_next_listener s I) as Hn. constructor; try apply I; cbn.
  - intros j l Hj. destruct (decide (next_listener s = j)) as [<-|Hne].
    + rewrite lookup_insert_eq in Hj. injection Hj as <-. cbn. rewrite q_items_make. constructor.
    + rewrite lookup_insert_ne in Hj by done. by apply (ok_queues s I j).
  - intros p' j H.
    assert (listening s !! p' = Some j \/ p' = port /\ j = next_listener s) as [Ho|[-> ->]].
    { destruct (listening s !! port) eqn:E; [by left|]. destruct (decide (port = p')) as [->|Hi].
      - rewrite lookup_insert_eq in H. injection H as ->. by right.
      - rewrite lookup_insert_ne in H by done. by left. }
    + destruct (ok_listening s I p' j Ho) as (Hp' & l & Hl & <-). split; [done|]. exists l.
      rewrite lookup_insert_ne; [done|]. intros <-. by rewrite Hn in Hl.
    + split; [done|]. eexists. by rewrite lookup_insert_eq.
  - intros j Hj. rewrite lookup_insert_ne by lia. apply Hn. lia.
Qed.

Lemma listener_move_ok i (s s' : tcp) j : (forall l, listeners s !! i = Some l -> l_port l <> 0) ->
  listener_move i s = Some (s', j) -> tables_ok s -> tables_ok s'.
Proof.
  intros Hp H I. pose proof (ok_next_listener s I) as Hn. apply bind_Some in H as (l & Hl & [= <- <-]).
  assert (i < next_listener s)%nat as Hi.
  { destruct (le_lt_dec (next_listener s) i) as [Hge|]; [|done]. by rewrite Hn in Hl. }
  constructor; try apply I; cbn.
  - intros k lk. destruct (decide (next_listener s = k)) as [<-|H1]; [|rewrite lookup_insert_ne by done].
    { rewrite lookup_insert_eq. intros [= <-]. apply (ok_queues s I i l Hl). }
    destruct (decide (i = k)) as [<-|H2]; [|rewrite lookup_insert_ne by done; apply (ok_queues s I k)].
    rewrite lookup_insert_eq. intros [= <-]. cbn. rewrite q_items_make. constructor.
  - intros port k. destruct (decide (l_port l = port)) as [<-|H1].
    + rewrite lookup_insert_eq. intros [= <-]. split; [by apply Hp|]. eexists. by rewrite lookup_insert_eq.
    + rewrite lookup_insert_ne by done. intros Hk. destruct (ok_listening s I port k Hk) as (Hport & l0 & Hl0 & <-).
      split; [done|]. exists l0. rewrite lookup_insert_ne by (intros <-; by rewrite Hn in Hl0).
      by rewrite lookup_insert_ne by congruence.
  - intros k Hk. rewrite !lookup_insert_ne by lia. apply Hn. lia.
Qed.

Lemma listener_destroy_ok i (s s' : tcp) : listener_destroy i s = Some s' -> tables_ok s -> tables_ok s'.
Proof.
  intros H I. apply bind_Some in H as (l & Hl & [= H]).
  assert (forall k, (next_listener s <= k)%nat -> delete i (listeners s) !! k = None) as Hd.
  { intros k Hk. destruct (decide (i = k)) as [<-|H1]; [by rewrite lookup_delete_eq|].
    rewrite lookup_delete_ne by done. by apply (ok_next_listener s I). }
  assert (forall k lk, delete i (listeners s) !! k = Some lk -> Forall (alive s) (q_items (l_q lk))) as Hq.
  { intros k lk Hk. apply lookup_delete_Some in Hk as [_ Hk]. by apply (ok_queues s I k). }
  assert (forall port k, listening s !! port = Some k -> l_port l <> port -> port <> 0 /\
    exists lk, delete i (listeners s) !! k = Some lk /\ l_port lk = port) as Hlis.
  { intros port k Hk Hne. destruct (ok_listening s I port k Hk) as (Hport & lk & Hlk & <-). split; [done|].
    exists lk. rewrite lookup_delete_ne; [done|]. intros <-. congruence. }
  destruct (l_port l =? 0) eqn:E; subst s'; constructor; try apply I; cbn; try exact Hd; try exact Hq.
  - apply Z.eqb_eq in E. intros port k Hk. apply Hlis; [done|]. intros E'. destruct (ok_listening s I port k Hk). congruence.
  - intros port k Hk. apply lookup_delete_Some in Hk as [Hne Hk]. by apply Hlis.
Qed.

Lemma accept_ok i (s s' : tcp) r : accept i s = Some (s', r) -> tables_ok s -> tables_ok s'.
Proof.
  intros H I. apply bind_Some in H as (l & Hl & [= H]). pose proof (q_pop_spec (l_q l)) as Hp.
  destruct (q_pop (l_q l)) as [[ptr q]|]; injection H as <- <-; [|done]. destruct Hp as [Hp _].
  apply set_listener_ok with l; [done|done| |done]. cbn. intros x Hx. rewrite Hp. by right.
Qed.

Lemma abort_accept_ok i (s s' : tcp) : abort_accept i s = Some s' -> tables_ok s -> tables_ok s'.
Proof.
  intros H I. apply bind_Some in H as (l & Hl & [= <-]). apply set_listener_ok with l; [done|done| |done]. cbn.
  intros q. rewrite (proj1 (q_abort_spec (l_q l))). by intros ?%elem_of_nil.
Qed.

(** What a step leaves of the connections but for the one at [ptr]. *)
Definition isolated (id : connid) (s s' : tcp) : Prop :=
  forall ptr t, heap s !! ptr = Some t -> id_of t <> id -> heap s' !! ptr = Some t.

Lemma touches_isolated ptr t (s s' : tcp) : heap s !! ptr = Some t -> touches ptr s s' -> isolated (id_of t) s s'.
Proof. intros Ht H q u Hu Hne. rewrite (to_others _ _ _ H); [done|]. intros ->. congruence. Qed.

(** The connection a segment names. *)
Definition segment_id (p : list Z) (from to : Z) : option connid :=
  th ← header_at 0 tcp_hdr_len p;
  let h := tcp_hdr_read th in Some (Connid to from (dst_port h) (src_port h)).

Lemma set_packetq_same (s : tcp) : s = Tcp.set_packetq (tcp_packetq s) (queue_space s) s.
Proof. by destruct s. Qed.

Lemma respond_packetq th a b (s s' : tcp) es :
  Tcp.respond_with_reset e hw th a b s = Some (s', es) -> exists q u, s' = Tcp.set_packetq q u s.
Proof.
  unfold Tcp.respond_with_reset, send_packet_without_tcb.
  destruct (f_rst th); [intros [= <- _]; eexists _, _; apply set_packetq_same|].
  intros E. apply bind_Some in E as (c & _ & E). injection E as E.
  destruct (sem_try_wait _ _); injection E as <- _; [by eexists _, _|eexists _, _; apply set_packetq_same].
Qed.

Lemma set_packetq_ok q u (s : tcp) : tables_ok s -> tables_ok (Tcp.set_packetq q u s).
Proof. intros I. constructor; apply I. Qed.

(** What a segment does to the tables: nothing, an operation of the connection
    it names, or an operation of a new one. *)
Inductive received_as (oid : option connid) (s s' : tcp) : Prop :=
  | received_nothing q u : s' = Tcp.set_packetq q u s -> received_as oid s s'
  | received_known id ptr : oid = Some id -> tcbs s !! id = Some ptr -> touches ptr s s' -> alive s ptr -> received_as oid s s'
  | received_new id i l : oid = Some id -> tcbs s !! id = None -> listeners s !! i = Some l ->
      touches (next_ptr s) (set_listener i (inc_pending l) (new_tcb junk_snd junk_rcv id s).1) s' -> received_as oid s s'.

Lemma tcp_received_as now p from to (s s' : tcp) es :
  tcp_received e hw get_isn junk_snd junk_rcv now p from to s = Some (s', es) ->
  received_as (segment_id p from to) s s'.
Proof.
  assert (forall oid, Some (s, @nil tcp_event) = Some (s', es) -> received_as oid s s') as Hskip.
  { intros oid [= <- _]. eapply received_nothing, set_packetq_same. }
  assert (forall oid th a b, Tcp.respond_with_reset e hw th a b s = Some (s', es) -> received_as oid s s') as Hresp.
  { intros oid th a b H. apply respond_packetq in H as (q & u & ->). by eapply received_nothing. }
  unfold tcp_received, segment_id. destruct (header_at 0 tcp_hdr_len p) as [th|]; [|apply Hskip]. cbn [mbind option_bind].
  set (h := tcp_hdr_read th). destruct (_ <? tcp_hdr_len); [apply Hskip|].
  intros H. apply bind_Some in H as ([|] & _ & H); [|by apply Hskip]. cbn [negb] in H.
  set (id := Connid to from (dst_port h) (src_port h)) in *.
  destruct (tcbs s !! id) as [ptr|] eqn:Eid.
  - apply bind_Some in H as (t & Ht & H). apply bind_Some in H as ([[u s1] es1] & H & [= <- <-]).
    apply run_tcb_touches in H as [H Ha]; [by apply received_known with id ptr|].
    destruct (bool_decide _); [apply syn_sent_sid|apply other_sid].
  - destruct (listening s !! id_local_port id) as [i|]; cbn [mbind option_bind] in H; [|by eapply Hresp].
    destruct (listeners s !! i) as [l|] eqn:El; cbn [mbind option_bind] in H; [|by eapply Hresp].
    destruct (listener_full l); [by eapply Hresp|]. destruct (f_rst h); [by apply Hskip|].
    destruct (f_ack h); [by eapply Hresp|]. destruct (f_syn h); [|by apply Hskip].
    destruct (new_tcb junk_snd junk_rcv id s) as [s1 ptr] eqn:En.
    apply bind_Some in H as ([[u s2] es2] & H & [= <- <-]).
    apply run_tcb_touches in H as [H _]; [|apply listen_sid].
    apply received_new with id i l; [done|done|done|]. rewrite En. cbn. by injection En as <- <-.
Qed.

Lemma tcp_received_ok now p from to (s s' : tcp) es :
  tcp_received e hw get_isn junk_snd junk_rcv now p from to s = Some (s', es) -> tables_ok s -> tables_ok s'.
Proof.
  intros H I. destruct (tcp_received_as _ _ _ _ _ _ _ H) as [q u ->|id ptr _ _ Ht Ha|id i l _ Hid Hl Ht].
  - by apply set_packetq_ok.
  - by eapply touches_ok.
  - eapply touches_ok; [exact Ht| |].
    + unfold alive, new_tcb. cbn. rewrite lookup_insert_eq. eauto.
    + apply set_listener_ok with l; [done|done|done|]. by apply new_tcb_ok.
Qed.

Lemma tcp_connect_ok now ports ip port ptr (s s' : tcp) es :
  tcp_connect e hw get_isn junk_snd junk_rcv host_address hw_queues_count rss_key hash2cpu this_shard_id
    now ports ip port s = Some (ptr, s', es) -> tables_ok s -> tables_ok s'.
Proof.
  intros H I. apply bind_Some in H as (id & _ & H). destruct (new_tcb junk_snd junk_rcv id s) as [s1 p1] eqn:En.
  apply bind_Some in H as ([[u s2] es2] & H & [= <- <- <-]). eapply run_tcb_ok; [apply connect_sid|exact H|].
  replace s1 with (new_tcb junk_snd junk_rcv id s).1 by (by rewrite En). by apply new_tcb_ok.
Qed.

Lemma poll_loop_ok now c r (s s' : tcp) es :
  poll_loop e hw now c s = Some (r, s', es) -> tables_ok s -> tables_ok s'.
Proof.
  revert r s es. induction c as [|c IH]; intros r s es; cbn [poll_loop]; [by intros [= _ <- _]|].
  destruct (poll_tcbs s) as [|[ptr dst] rest] eqn:Ep; [done|]. intros H I.
  apply bind_Some in H as ([[l4p s1] es1] & H1 & H).
  assert (tables_ok s1) as I1.
  { eapply run_tcb_ok; [apply get_packet_sid|exact H1|]. constructor; try apply I. cbn.
    pose proof (ok_poll s I) as Hp. rewrite Ep in Hp. by inversion Hp. }
  destruct l4p as [[to p]|]; [by injection H as _ <- _|].
  apply bind_Some in H as ([[r2 s2] es2] & H2 & [= _ <- _]). by eapply IH.
Qed.

Lemma tcp_get_packet_ok now r (s s' : tcp) es :
  tcp_get_packet e hw now s = Some (r, s', es) -> tables_ok s -> tables_ok s'.
Proof.
  unfold tcp_get_packet. destruct (tcp_packetq s) as [|l4p q]; [apply poll_loop_ok|].
  destruct (_ || _)%bool; [|apply poll_loop_ok]. intros [= _ <- _]. apply set_packetq_ok.
Qed.

Lemma tcp_step_ok now op (s s' : tcp) :
  tcp_allowed op s -> tcp_step now op s = Some s' -> tables_ok s -> tables_ok s'.
Proof.
  destruct op; cbn [tcp_allowed tcp_step]; intros Ha H I.
  - injection H as <-. by apply listen_ok.
  - apply fmap_Some in H as ([s1 j] & H & ->). by eapply listener_move_ok.
  - by eapply listener_destroy_ok.
  - apply fmap_Some in H as ([s1 j] & H & ->). by eapply accept_ok.
  - by eapply abort_accept_ok.
  - apply bind_Some in H as ([[x s1] es] & H & [= <-]). by eapply tcp_connect_ok.
  - apply fmap_Some in H as ([s1 j] & H & ->). by eapply tcp_received_ok.
  - injection H as <-. by apply set_packetq_ok.
  - injection H as <-. constructor; try apply I. cbn. apply Forall_app. split; [apply I|]. by apply Forall_singleton.
  - apply bind_Some in H as ([[x s1] es] & H & [= <-]). by eapply tcp_get_packet_ok.
  - apply bind_Some in H as ([[x s1] es] & H & [= <-]). eapply run_tcb_ok; [apply exec_sid|exact H|exact I].
Qed.

Lemma tables_ok_init : tables_ok tcp_init.
Proof. constructor; cbn; try done; by constructor. Qed.

Lemma tcp_run_ok (s s' : tcp) : tcp_run s s' -> tables_ok s -> tables_ok s'.
Proof. induction 1 as [|now op s s1 s2 Ha H _ IH]; [done|]. intros I. by eapply IH, tcp_step_ok. Qed.

(** ** Properties *)

(** C8. The tables of [tcp] in every execution from its constructor, whatever
    segments arrive, whatever is connected, listened to, moved, closed or sent,
    and whatever timers fire: a connection is found under its own four-tuple and
    nowhere else, the poll queue and the accept queues name control blocks there
    are, and a port in the table of listeners names a listener there is that
    listens to this port. *)
Theorem tcp_tables_consistent s :
  tcp_run tcp_init s ->
  (forall id ptr, tcbs s !! id = Some ptr -> exists t, heap s !! ptr = Some t /\ id_of t = id) /\
  (forall id id' ptr, tcbs s !! id = Some ptr -> tcbs s !! id' = Some ptr -> id = id') /\
  Forall (fun x => is_Some (heap s !! x.1)) (poll_tcbs s) /\
  (forall i l, listeners s !! i = Some l -> Forall (fun ptr => is_Some (heap s !! ptr)) (q_items (l_q l))) /\
  (forall port i, listening s !! port = Some i -> exists l, listeners s !! i = Some l /\ l_port l = port).
Proof.
  intros H. pose proof (tcp_run_ok _ _ H tables_ok_init) as I.
  pose proof (ok_tcbs s I) as Ht. split_and!; [exact Ht| |apply (ok_poll s I)|apply (ok_queues s I)|].
  - intros id id' ptr H1 H2. destruct (Ht id ptr H1) as (t & E1 & <-). destruct (Ht id' ptr H2) as (t' & E2 & <-). congruence.
  - intros port i Hi. by destruct (ok_listening s I port i Hi).
Qed.

(** C18. Isolation: a segment, however malformed, leaves every control block but
    the one of the connection it names as it is. *)
Theorem segment_isolated now p from to s s' es ptr t :
  tcp_run tcp_init s ->
  tcp_received e hw get_isn junk_snd junk_rcv now p from to s = Some (s', es) ->
  heap s !! ptr = Some t -> segment_id p from to <> Some (id_of t) ->
  heap s' !! ptr = Some t.
Proof.
  intros Hr H Ht Hid. pose proof (tcp_run_ok _ _ Hr tables_ok_init) as I.
  destruct (tcp_received_as _ _ _ _ _ _ _ H) as [q u ->|id ptr' Eid E Hto _|id i l Eid E Hl Hto]; [done| |].
  - destruct (ok_tcbs s I id ptr' E) as (t' & Ht' & <-). rewrite (to_others _ _ _ Hto); [done|].
    intros ->. congruence.
  - rewrite (to_others _ _ _ Hto); cbn.
    + rewrite lookup_insert_ne; [done|]. intros <-. by rewrite (ok_next s I) in Ht.
    + intros ->. by rewrite (ok_next s I) in Ht.
Qed.
End Tables.

(** ** A listener at work *)

Module Ex.
Import Core.Impl.

Abbreviation state := (@Tcp.tcp (option Z) Z (queue_list nat)).
Definition step := @tcp_step be_codec align_up_z _ timer_option _ sem_z _ (queue_list_ops nat) BigEndian hw_features_default
  TcbState.Ex.isn TcbState.Ex.junk_snd TcbState.Ex.junk_rcv TcpCsum.Ex.host 1 [] (fun _ => 0) 0.

Fixpoint steps (ops : list (Z * tcp_op)) (s : state) : option state :=
  match ops with [] => Some s | (now, op) :: ops => s ← step now op s; steps ops s end.

(** A SYN, the acknowledgment of our SYN, and a reset, from port 49152. *)
Definition syn_op : tcp_op := TcpReceived TcpCsum.Ex.syn TcpCsum.Ex.peer TcpCsum.Ex.host.
Definition ack_op : tcp_op :=
  TcpReceived (TcpCsum.Ex.segment (TcbState.Ex.hdr 1001 251 false true false false 4096) []) TcpCsum.Ex.peer TcpCsum.Ex.host.
Definition rst_op : tcp_op :=
  TcpReceived (TcpCsum.Ex.segment (TcbState.Ex.hdr 1001 0 false false false true 4096) []) TcpCsum.Ex.peer TcpCsum.Ex.host.

Definition listening : state := default tcp_init (steps [(0, TcpListen 80 1)] tcp_init).
Definition half_open : state := default tcp_init (steps [(1, syn_op)] listening).
Definition accepted : state := default tcp_init (steps [(2, ack_op)] half_open).
Definition reset : state := default tcp_init (steps [(2, rst_op)] half_open).
End Ex.

Import Core.Impl.

(** Pending connections are not given back: a listener with room for one
    connection gets a SYN, and the half-open connection is reset by its peer
    before it is established.  The connection is gone, nothing waits to be
    accepted, and still the listener is full: it answers every later SYN with a
    reset, for ever. *)
Theorem listener_pending_leaks :
  tcbs Ex.reset = ∅ /\
  (exists l, listeners Ex.reset !! O = Some l /\ q_items (l_q l) = [] /\ l_pending l = 1 /\ listener_full l = true) /\
  (exists r reply, TcpCsum.Ex.receive 3 TcpCsum.Ex.syn Ex.reset = Some (r, [TcpLookup TcpCsum.Ex.peer reply]) /\
     f_rst (tcp_hdr_read (bytes reply)) = true /\ tcbs r = ∅).
Proof.
  split; [vm_compute; reflexivity|]. split.
  - eexists. split; [vm_compute; reflexivity|]. vm_compute. done.
  - eexists _, _. split; [vm_compute; reflexivity|]. split; vm_compute; reflexivity.
Qed.

Lemma ex_accepted_run : tcp_run BigEndian hw_features_default TcbState.Ex.isn TcbState.Ex.junk_snd TcbState.Ex.junk_rcv
  TcpCsum.Ex.host 1 [] (fun _ => 0) 0 tcp_init Ex.accepted.
Proof.
  eapply (tcp_run_cons _ _ _ _ _ _ _ _ _ _ 0 (TcpListen 80 1) _ Ex.listening); [done|vm_compute; reflexivity|].
  eapply (tcp_run_cons _ _ _ _ _ _ _ _ _ _ 1 Ex.syn_op _ Ex.half_open); [done|vm_compute; reflexivity|].
  eapply (tcp_run_cons _ _ _ _ _ _ _ _ _ _ 2 Ex.ack_op _ Ex.accepted); [done|vm_compute; reflexivity|].
  apply tcp_run_nil.
Defined.

Lemma tcp_tables_consistent_witness :
  listening Ex.accepted !! 80 = Some O /\
  forall i l, listeners Ex.accepted !! i = Some l -> Forall (fun ptr => is_Some (heap Ex.accepted !! ptr)) (q_items (l_q l)).
Proof.
  split; [vm_compute; reflexivity|].
  refine (proj1 (proj2 (proj2 (proj2 (tcp_tables_consistent BigEndian hw_features_default TcbState.Ex.isn TcbState.Ex.junk_snd
    TcbState.Ex.junk_rcv TcpCsum.Ex.host 1 [] (fun _ => 0) 0 Ex.accepted ex_accepted_run))))).
Defined.

(** A SYN from another port leaves the accepted connection alone. *)
Definition other_syn : list Z :=
  TcpCsum.Ex.segment (TcpHdr 50000 80 (make_seq 7) (make_seq 0) 0 5 false true false false false false 0 4096 0 0) [].

Lemma segment_isolated_witness :
  exists s' es t, TcpCsum.Ex.receive 3 other_syn Ex.accepted = Some (s', es) /\
    heap Ex.accepted !! O = Some t /\ heap s' !! O = Some t.
Proof.
  destruct (TcpCsum.Ex.receive 3 other_syn Ex.accepted) as [[s' es]|] eqn:E; [|vm_compute in E; discriminate].
  destruct (heap Ex.accepted !! O) as [t|] eqn:Et; [|vm_compute in Et; discriminate].
  exists s', es, t. split; [done|split; [done|]].
  refine (segment_isolated BigEndian hw_features_default TcbState.Ex.isn TcbState.Ex.junk_snd TcbState.Ex.junk_rcv
    TcpCsum.Ex.host 1 [] (fun _ => 0) 0 3 other_syn TcpCsum.Ex.peer TcpCsum.Ex.host Ex.accepted s' es O t ex_accepted_run E Et _).
  vm_compute in Et. injection Et as <-. vm_compute. discriminate.
Defined.
