(* ===== verification/TcpSide.v ===== *)
(** * One end of a connection, between the handshake and the close

    [side] is what holds of an ESTABLISHED control block at all times: what it
    holds for its peer and from its peer, as parts of the two byte streams.
    Every operation that does not close the connection keeps it, also when the
    connection is congested, retransmits or probes a closed window: the
    statements are about the operation when it returns. *)

From S2P Require Import Prelude Core ByteOrder Checksum Packet Net TcpSeq TcpHdr PacketMerger TcbData Tcb TcbState TcbSend TcbRecv TcbFailures.
From stdpp Require Import base numbers option list.

#[local] Open Scope Z_scope.

(** The fields of the send state that are unsigned. *)
Definition unsigned_send (s : send) : Prop :=
  0 <= cwnd s /\ 0 <= ssthresh s /\ 0 <= snd_mss s < 65536 /\ is_uint 32 (snd_window s).

(** The assignments that change neither stream: the unsigned fields keep their range. *)
Ltac solve_unsigned := unfold is_uint in *; repeat match goal with |- context [wrap ?n ?x] =>
  pose proof (wrap_range n x ltac:(lia)); generalize dependent (wrap n x); intros end; unfold is_uint in *; pow2; lia.
Ltac core_mod := intros ?; constructor; try reflexivity; intros (? & ? & ? & ?);
  unfold unsigned_send in *; cbn; split_and!; first [assumption | solve_unsigned].

Section Side.
Context {BC : BeCodec} {AU : AlignUp} {T : Type} {TM : TimerOps T}.
Abbreviation tcb := (@TcbData.tcb T).
Abbreviation M := (@Tcb.M T).
Variable e : endian.
Variable hw : hw_features.
Hypothesis Hhw : hw_ok hw.

(** The stream the user of this end writes, by position from the sequence number
    [bs], and that of the peer from [br]. *)
Variable bs br : tcp_seq.
Variable ds dr : Z -> Z.
Hypothesis Hds : forall i, is_byte (ds i).

(** Ghost state: how many bytes the user has written, how many of them have been
    sent and how many are acknowledged; how many bytes of the peer's stream the
    user has read and how many have arrived without a gap, and a bound on the
    positions of those that have arrived. *)
Record view := View { v_written : Z; v_sent : Z; v_acked : Z; v_read : Z; v_next : Z; v_top : Z }.

(** Less than this is written in either direction, so that sequence numbers do
    not wrap around within the window. *)
Definition stream_max : Z := 2 ^ 29.

(** The segment [p]: bytes of the stream that have been sent, and an
    acknowledgment of bytes that have arrived. *)
Definition segment_in (g : view) (p : packet) : Prop :=
  exists off len a, 0 <= off /\ 0 <= len < 65536 /\ off + len <= v_sent g /\ 0 <= a <= v_next g /\
    let th := tcp_hdr_read (bytes p) in
    h_seq th = seq_add bs off /\ h_ack th = seq_add br a /\ plain th /\ data_offset th = 5 /\
    zlen (bytes p) = 20 + len /\ drop 20 (bytes p) = range ds off len.

Record side (g : view) (t : tcb) : Prop := Side {
  sd_acked : 0 <= v_acked g <= v_written g;
  sd_written : v_written g < stream_max;
  sd_sent : v_sent g = v_acked g + flight (snd t);
  sd_send : send_ok (range ds (v_acked g) (v_written g - v_acked g)) (snd t);
  sd_una : unacknowledged (snd t) = seq_add bs (v_acked g);
  sd_state : state t = ESTABLISHED;
  sd_closed : closed (snd t) = false;
  sd_fields : fields_ok t;
  sd_ssthresh : 0 <= ssthresh (snd t);
  sd_recv : recv_ok br dr (v_read g) (v_next g) (rcv t);
  sd_read : 0 <= v_read g;
  sd_top : forall x, received br (v_next g) (out_of_order (rcv t)) x -> x < v_top g;
  sd_top_max : v_top g < stream_max;
  sd_window : 0 <= rcv_window (rcv t) < 2 ^ 29;
  sd_scale : 0 <= rcv_window_scale (rcv t) <= 14;
  sd_packets : Forall (segment_in g) (packetq t) }.

(** ** What timers, estimates, windows and promises leave alone *)

Record core (t t' : tcb) : Prop := Core {
  co_state : state t' = state t;
  co_local : local_port t' = local_port t;
  co_foreign : foreign_port t' = foreign_port t;
  co_closed : closed (snd t') = closed (snd t);
  co_packetq : packetq t' = packetq t;
  co_una : unacknowledged (snd t') = unacknowledged (snd t);
  co_next : snd_next (snd t') = snd_next (snd t);
  co_data : map seg_p (snd_data (snd t')) = map seg_p (snd_data (snd t));
  co_unsent : unsent (snd t') = unsent (snd t);
  co_unsent_len : unsent_len (snd t') = unsent_len (snd t);
  co_unsigned : unsigned_send (snd t) -> unsigned_send (snd t');
  co_rcv_next : rcv_next (rcv t') = rcv_next (rcv t);
  co_rcv_data : rcv_data (rcv t') = rcv_data (rcv t);
  co_data_size : data_size (rcv t') = data_size (rcv t);
  co_out_of_order : out_of_order (rcv t') = out_of_order (rcv t);
  co_window : rcv_window (rcv t') = rcv_window (rcv t);
  co_scale : rcv_window_scale (rcv t') = rcv_window_scale (rcv t) }.

#[export] Instance core_preorder : PreOrder core.
Proof.
  split; [intros t; by constructor|]. intros t1 t2 t3 [] []. constructor; try congruence. auto.
Qed.

Lemma data_forall (P : list Z -> Prop) l l' :
  map seg_p l' = map seg_p l -> Forall (fun seg => P (seg_p seg)) l -> Forall (fun seg => P (seg_p seg)) l'.
Proof. intros E. rewrite <- !(Forall_map seg_p P), E. done. Qed.

Lemma core_send_ok rest t t' : core t t' -> send_ok rest (snd t) -> send_ok rest (snd t').
Proof.
  intros [] [Hu Hst Hn Hfl Hul Hsegs].
  constructor; unfold flight, in_flight in *; rewrite ?co_una0, ?co_next0, ?co_data0, ?co_unsent0, ?co_unsent_len0; try done.
  by apply (data_forall (fun p => 0 < zlen p < 65536) (snd_data (snd t))).
Qed.

Lemma core_flight t t' : core t t' -> flight (snd t') = flight (snd t).
Proof. intros []. unfold flight, in_flight. by rewrite co_data0. Qed.

Lemma side_unsigned g t : side g t -> unsigned_send (snd t).
Proof. intros []. destruct sd_fields0 as [_ _ _ (? & ? & ? & ?)]. unfold unsigned_send. tauto. Qed.

Lemma core_side g t t' : core t t' -> side g t -> side g t'.
Proof.
  intros C S. pose proof (side_unsigned g t S) as Hu. pose proof (core_flight t t' C) as Ef.
  pose proof (core_send_ok _ t t' C (sd_send _ _ S)) as Hs. destruct C, S.
  destruct (co_unsigned0 Hu) as (U1 & U2 & U3 & U4).
  constructor; try congruence; try done.
  - destruct sd_fields0 as [P N R (_ & _ & _ & V)]. constructor; unfold ports_ok, unsigned; rewrite ?co_local0, ?co_foreign0, ?co_next0, ?co_rcv_next0, ?co_unsent_len0; done.
  - destruct sd_recv0. constructor; rewrite ?co_rcv_next0, ?co_rcv_data0, ?co_data_size0, ?co_out_of_order0; done.
  - by rewrite co_out_of_order0.
Qed.

Ltac go := respects_tac core_mod; try (eauto with respects).
Abbreviation ok := (@respects T _ core).

Section Core.
Variable now : Z.

Lemma output_core : ok output. Proof. unfold output. go. Qed.
Lemma can_send_core : ok can_send. Proof. unfold can_send. go. Qed.
Lemma start_retransmit_core : ok (start_retransmit_timer now). Proof. unfold start_retransmit_timer. go. Qed.
Lemma stop_retransmit_core : ok stop_retransmit_timer. Proof. unfold stop_retransmit_timer. go. Qed.
Lemma start_persist_core : ok (start_persist_timer now). Proof. unfold start_persist_timer. go. Qed.
Lemma stop_persist_core : ok stop_persist_timer. Proof. unfold stop_persist_timer. go. Qed.
Lemma clear_delayed_ack_core : ok clear_delayed_ack. Proof. unfold clear_delayed_ack. go. Qed.
Lemma update_rto_core tx : ok (update_rto now tx). Proof. unfold update_rto. go. Qed.
Lemma update_cwnd_core n : ok (update_cwnd n). Proof. unfold update_cwnd. go. Qed.
Lemma signal_data_received_core : ok signal_data_received. Proof. unfold signal_data_received. go. Qed.
Lemma signal_all_data_acked_core : ok signal_all_data_acked. Proof. unfold signal_all_data_acked. go. Qed.
Lemma signal_send_available_core : ok signal_send_available. Proof. unfold signal_send_available. go. Qed.
Lemma exit_fast_recovery_core : ok exit_fast_recovery. Proof. unfold exit_fast_recovery. go. Qed.
#[local] Hint Resolve output_core can_send_core start_retransmit_core stop_retransmit_core start_persist_core
  stop_persist_core clear_delayed_ack_core update_rto_core update_cwnd_core signal_data_received_core
  signal_all_data_acked_core signal_send_available_core exit_fast_recovery_core : respects.
Lemma reset_retransmit_timer_core : ok (reset_retransmit_timer now). Proof. unfold reset_retransmit_timer. go. Qed.
Lemma should_send_ack_core n : ok (should_send_ack now n). Proof. unfold should_send_ack. go. Qed.
Lemma final_output_core a b : ok (final_output a b). Proof. unfold final_output. go. Qed.
Lemma wait_for_data_core : ok wait_for_data. Proof. unfold wait_for_data. go. Qed.
Lemma abort_reader_core : ok abort_reader. Proof. unfold abort_reader. go. Qed.
Lemma wait_send_available_core : ok wait_send_available. Proof. unfold wait_send_available. go. Qed.
Lemma delayed_ack_expired_core : ok delayed_ack_expired. Proof. unfold delayed_ack_expired. go. Qed.
Lemma output_update_rto_core : ok (output_update_rto now). Proof. unfold output_update_rto. go. Qed.
Lemma poll_failed_queue_full_core : ok (poll_failed_queue_full now). Proof. unfold poll_failed_queue_full. go. Qed.
End Core.
#[local] Hint Resolve output_core can_send_core start_retransmit_core stop_retransmit_core start_persist_core
  stop_persist_core clear_delayed_ack_core update_rto_core update_cwnd_core signal_data_received_core
  signal_all_data_acked_core signal_send_available_core exit_fast_recovery_core reset_retransmit_timer_core
  should_send_ack_core final_output_core wait_for_data_core abort_reader_core wait_send_available_core
  delayed_ack_expired_core output_update_rto_core poll_failed_queue_full_core : respects.

Lemma respects_bind_lift {A B} (R : tcb -> tcb -> Prop) (o : option A) (f : A -> M B) :
  (forall x, o = Some x -> respects R (f x)) -> respects R (lift o ≫= f).
Proof. intros H t. apply holds_bind, holds_lift. intros x E. by apply H. Qed.

Lemma update_window_core now th a b : ok (update_window now th a b).
Proof.
  unfold update_window. apply respects_bind; [exact _|go|intros t]. apply respects_bind_lift. intros w E.
  assert (is_uint 32 w) by (unfold shl32 in E; destruct (_ <? 32); [injection E as <-; apply wrap_range; lia|done]). go.
Qed.
#[local] Hint Resolve update_window_core : respects.

(** ** Sending *)

(** A later view of the same end, with more bytes sent. *)
Definition set_sent (n : Z) (g : view) : view :=
  View (v_written g) n (v_acked g) (v_read g) (v_next g) (v_top g).

Definition sends (t t' : tcb) : Prop :=
  forall g, side g t -> exists n, v_sent g <= n /\ side (set_sent n g) t'.

#[export] Instance sends_preorder : PreOrder sends.
Proof.
  split.
  - intros t g S. exists (v_sent g). split; [lia|]. by destruct g.
  - intros t1 t2 t3 H1 H2 g S. destruct (H1 g S) as (n & Hn & S1). destruct (H2 _ S1) as (m & Hm & S2).
    exists m. cbn in *. split; [lia|done].
Qed.

Lemma core_sends t t' : core t t' -> sends t t'.
Proof. intros C g S. exists (v_sent g). split; [lia|]. destruct g. by apply (core_side _ t). Qed.

Lemma respects_sends {A} (m : M A) : ok m -> respects sends m.
Proof. intros H t. eapply holds_mono; [apply H|]. intros x t'. apply core_sends. Qed.

Lemma holds_returns {A} (m : M A) (Q : A -> tcb -> Prop) t : returns m t Q -> holds m Q t.
Proof. intros (x & t' & es & E & H) y t'' es' E'. rewrite E in E'. by injection E' as <- <- _. Qed.

Lemma holds_stops {A} (m : M A) (Q : A -> tcb -> Prop) t : m t = None -> holds m Q t.
Proof. intros E x t' es E'. congruence. Qed.

Lemma segment_in_mono g g' p : v_sent g <= v_sent g' -> v_next g <= v_next g' -> segment_in g p -> segment_in g' p.
Proof.
  intros H1 H2 (off & len & a & ? & ? & ? & ? & ?). exists off, len, a. split_and!; try lia; tauto.
Qed.

Lemma range_bytes a n : Forall is_byte (range ds a n).
Proof. unfold range. apply Forall_forall. intros x. rewrite list_elem_of_fmap. intros (i & -> & _). apply Hds. Qed.

Lemma slice_of_range off n a len : 0 <= off -> 0 <= n -> off + n <= len -> slice off n (range ds a len) = range ds (a + off) n.
Proof.
  intros. unfold slice. rewrite drop_range by lia. replace (len - off) with (n + (len - off - n)) by lia.
  rewrite <- range_app by lia. apply take_app_length'. pose proof (zlen_range ds (a + off) n ltac:(lia)) as E. unfold zlen in E. lia.
Qed.

(** A segment as the connection sends it. *)
Lemma carries_in g (t0 : tcb) lo seq off len p :
  0 <= off -> 0 <= len < 65536 -> off + len <= v_sent g -> seq = seq_add bs off ->
  state t0 = ESTABLISHED -> recv_ok br dr lo (v_next g) (rcv t0) -> 0 <= lo ->
  carries t0 seq (range ds off len) p -> segment_in g p.
Proof.
  intros H0 Hl Hs -> Est [Hn Hp Hsq Hlo _ _ _ _] Hlo0 ([c Hh] & Hd & Hb & Hz). exists off, len, (v_next g).
  rewrite Hh. cbn [with_checksum segment_hdr output_header h_seq h_ack data_offset].
  assert (fin_needs_on t0 = false) as Hf by (unfold fin_needs_on, tcb_in_state; by rewrite Est).
  split_and!; try lia; try done.
  - rewrite <- Hp. unfold seq_pos. symmetry. by apply seq_add_diff.
  - rewrite Hz, zlen_range by lia. done.
Qed.

Section Output.
Variable now : Z.

(** Sending does not touch the slow-start threshold. *)
Definition same_ssthresh (t t' : tcb) : Prop := ssthresh (snd t') = ssthresh (snd t).
#[local] Instance same_ssthresh_preorder : PreOrder same_ssthresh.
Proof. split; [by intros ?|]. intros ??? H1 H2. unfold same_ssthresh in *. congruence. Qed.
Ltac go_ss := respects_tac ltac:(by intros ?); try (eauto with respects).

Lemma can_send_ss : respects same_ssthresh can_send. Proof. unfold can_send. go_ss. Qed.
Lemma start_retransmit_ss : respects same_ssthresh (start_retransmit_timer now). Proof. unfold start_retransmit_timer. go_ss. Qed.
Lemma clear_delayed_ack_ss : respects same_ssthresh clear_delayed_ack. Proof. unfold clear_delayed_ack. go_ss. Qed.
Lemma queue_packet_ss p : respects same_ssthresh (queue_packet p). Proof. unfold queue_packet. go_ss. Qed.
#[local] Hint Resolve can_send_ss start_retransmit_ss clear_delayed_ack_ss queue_packet_ss : respects.
Lemma get_transmit_packet_ss : respects same_ssthresh (get_transmit_packet hw). Proof. unfold get_transmit_packet. go_ss. Qed.
Lemma output_segment_ss b p : respects same_ssthresh (output_segment e hw now b p). Proof. unfold output_segment. go_ss. Qed.
#[local] Hint Resolve get_transmit_packet_ss output_segment_ss : respects.
Lemma output_one_ss b : respects same_ssthresh (output_one e hw now b). Proof. unfold output_one. go_ss. Qed.

Lemma rest_small g t : side g t -> zlen (range ds (v_acked g) (v_written g - v_acked g)) < 2 ^ 30.
Proof.
  intros []. rewrite zlen_range by lia. unfold stream_max in *. change (2 ^ 29) with 536870912 in *.
  change (2 ^ 30) with 1073741824. lia.
Qed.

Lemma side_sync g t : side g t -> synchronised t.
Proof. intros []. unfold synchronised. rewrite sd_state0. left. Qed.

Lemma rest_flight k w (s : send) : k <= w -> send_ok (range ds k (w - k)) s -> 0 <= flight s <= w - k.
Proof.
  intros Hk [_ Hst _ _ _ _]. pose proof (f_equal zlen Hst) as E.
  rewrite zlen_app, zlen_range in E by lia. unfold flight. pose proof (zlen_nonneg (in_flight s)).
  pose proof (zlen_nonneg (concat (unsent s))). lia.
Qed.

(** SND.NXT is the position of what has been sent. *)
Lemma side_next g t : side g t -> snd_next (snd t) = seq_add bs (v_sent g).
Proof.
  intros []. destruct sd_fields0 as [_ Hn _ _]. rewrite <- (seq_add_diff _ (unacknowledged (snd t)) Hn).
  rewrite (so_next _ _ sd_send0), sd_una0, seq_add_add. f_equal. lia.
Qed.

(** The end after a step of the sending half. *)
Lemma side_sent g n (t t' : tcb) ps :
  side g t -> v_sent g <= n -> n = v_acked g + flight (snd t') ->
  send_ok (range ds (v_acked g) (v_written g - v_acked g)) (snd t') ->
  unacknowledged (snd t') = unacknowledged (snd t) -> seq_ok (snd_next (snd t')) ->
  state t' = state t -> rcv t' = rcv t -> same_connection t t' -> ssthresh (snd t') = ssthresh (snd t) ->
  snd_window (snd t') = snd_window (snd t) -> cwnd (snd t') = cwnd (snd t) ->
  packetq t' = packetq t ++ ps -> Forall (segment_in (set_sent n g)) ps -> side (set_sent n g) t'.
Proof.
  intros [] Hn En Hok Eu Hnx Es Er (El & Ef & Em & Ec) Ess Ew Ecw Eq Hps.
  destruct sd_fields0 as [[P1 P2] N R (U1 & U2 & U3 & U4)].
  constructor; cbn; rewrite ?Eu, ?Es, ?Er, ?Ec, ?Ess; try done.
  - constructor; unfold ports_ok, unsigned; rewrite ?El, ?Ef, ?Er, ?Em, ?Ew, ?Ecw; try done.
    destruct Hok as [_ _ _ _ [Hul _] _]. rewrite Hul. pose proof (zlen_nonneg (concat (unsent (snd t')))). tauto.
  - rewrite Eq. apply Forall_app_2; [|done]. eapply Forall_impl; [exact sd_packets0|]. intros p.
    apply segment_in_mono; cbn; lia.
Qed.

(** New data: [output_one(false)] never fails here. *)
Lemma output_one_new_side g t : side g t ->
  returns (output_one e hw now false) t (fun _ t' => exists n, v_sent g <= n /\ side (set_sent n g) t').
Proof.
  intros S. pose proof (rest_small g t S) as Hr.
  destruct (output_one_new e hw now (range ds (v_acked g) (v_written g - v_acked g)) t) as (u & t' & es & E & H); try apply S; try done.
  { apply range_bytes. } { by apply (side_sync g). }
  pose proof (output_one_ss false t u t' es E) as Ess.
  exists u, t', es. split; [done|].
  destruct H as (Hok & n & p & Hn & Eq & Hc & Ef & En & Es & Er & Eu & Ew & Ec & Econ & _).
  exists (v_sent g + n). split; [lia|]. pose proof (sd_acked _ _ S). pose proof (sd_sent _ _ S).
  pose proof (rest_flight (v_acked g) (v_written g) _ ltac:(lia) (sd_send _ _ S)) as Hf.
  pose proof (rest_flight (v_acked g) (v_written g) _ ltac:(lia) Hok) as Hf'.
  apply (side_sent g _ t t' [p] S); try done; try lia.
  - rewrite En. apply seq_add_ok.
  - constructor; [|done]. rewrite slice_of_range in Hc by lia.
    eapply (carries_in _ _ (v_read g)); [| | | | | | |exact Hc]; cbn; try lia; try apply S.
    rewrite (side_next g t S). f_equal. lia.
Qed.

(** Sent again: the front of the retransmission queue. *)
Lemma output_one_again_side g t : side g t -> holds (output_one e hw now true) (fun _ t' => side g t') t.
Proof.
  intros S. destruct (snd_data (snd t)) as [|seg data] eqn:Ed.
  { apply holds_stops. unfold output_one. unfold mbind, M_bind. cbn. rewrite (proj2 (proj2 (synchronised_flags t (side_sync g t S)))).
    by rewrite Ed. }
  pose proof (so_segs _ _ (sd_send _ _ S)) as Hsegs. rewrite Ed in Hsegs. apply Forall_cons in Hsegs as [Hseg _].
  assert (window_allows (zlen (seg_p seg)) (snd t) \/ snd_window (snd t) = 0 /\ 1 < zlen (seg_p seg)) as [Hw|[Hw Hl]].
  { destruct (sd_fields _ _ S) as [_ _ _ (_ & _ & [Hw _] & _)]. unfold window_allows. lia. }
  2: { apply holds_stops. unfold output_one. rewrite (bind_eq get_tcb _ t t t []) by done.
       rewrite (proj2 (proj2 (synchronised_flags t (side_sync g t S)))), Ed.
       rewrite (bind_eq (lift (Some (seg_p seg))) _ t (seg_p seg) t []) by done.
       by rewrite (output_segment_stops e hw now _ t Hw) by lia. }
  destruct (output_one_again_spec e hw now (range ds (v_acked g) (v_written g - v_acked g)) t seg data) as (u & t' & es & E & H);
    try apply S; try done; [apply range_bytes|by apply (side_sync g)|].
  pose proof (output_one_ss true t u t' es E) as Ess. apply holds_returns. exists u, t', es. split; [done|].
  destruct H as (Hok & Q & En & n & p & Hn & Hnf & Eq & Hc). pose proof (sd_acked _ _ S). pose proof (sd_sent _ _ S).
  destruct Q as [Q1 Q2 Q3 Q4 Q5 Q6 Q7 Q8 Q9].
  pose proof (rest_flight (v_acked g) (v_written g) _ ltac:(lia) (sd_send _ _ S)) as Hf.
  assert (flight (snd t') = flight (snd t)) as Ef.
  { rewrite <- (so_next _ _ Hok), En, Q3. apply (so_next _ _ (sd_send _ _ S)). }
  replace g with (set_sent (v_sent g) g) by (by destruct g). apply (side_sent g _ t t' [p] S); try done; try lia.
  - rewrite En. apply (sd_fields _ _ S).
  - constructor; [|done]. replace (take _ _) with (range ds (v_acked g) n) in Hc.
    + eapply (carries_in _ t (v_read g)); [| | | | | | |exact Hc]; cbn; try lia; try apply S.
    + pose proof (slice_of_range 0 n (v_acked g) (v_written g - v_acked g) ltac:(lia) ltac:(lia) ltac:(lia)) as Es.
      rewrite Z.add_0_r in Es. rewrite <- Es. unfold slice. by rewrite drop_0.
Qed.

Lemma output_one_sends b : respects sends (output_one e hw now b).
Proof.
  intros t x t' es E g S. destruct b.
  - exists (v_sent g). split; [lia|]. destruct g. by apply (output_one_again_side _ t S x t' es).
  - by apply (holds_returns _ _ _ (output_one_new_side g t S) x t' es).
Qed.

(** ** The operations of the sending half *)

Ltac weaken := apply respects_sends; solve [eauto with respects | go].
#[local] Hint Resolve output_one_sends : respects.

(** Counting a transmission in the retransmission queue. *)
Lemma count_core seg data data' n (t : tcb) : snd_data (snd t) = seg :: data -> data' = data ->
  core t (upd_snd (set_snd_data (Unacked (seg_p seg) (data_len seg) n (tx_time seg) :: data')) t).
Proof. intros E ->. constructor; try reflexivity; try done. cbn. by rewrite E. Qed.

Lemma fast_retransmit_sends : respects sends (fast_retransmit e hw now).
Proof.
  unfold fast_retransmit, retransmit_one. apply respects_read. intros t. destruct (snd_data (snd t)) as [|seg data] eqn:Ed.
  { apply holds_ret. reflexivity. }
  apply holds_bind, holds_modify. eapply holds_mono.
  - apply (respects_bind sends); [apply output_one_sends|intros _; weaken].
  - intros [] t' H. transitivity (upd_snd (set_snd_data (Unacked (seg_p seg) (data_len seg) (nr_transmits seg + 1) (tx_time seg) :: data)) t); [|exact H].
    by apply core_sends, (count_core seg data).
Qed.
#[local] Hint Resolve fast_retransmit_sends : respects.

Lemma ack_duplicate_sends a : respects sends (ack_duplicate e hw now a).
Proof.
  unfold ack_duplicate. apply respects_bind; [exact _|weaken|intros _]. apply respects_bind; [exact _|weaken|intros t].
  cbv zeta. destruct (_ || _)%bool; [weaken|]. destruct (dupacks (snd t) =? 3).
  - apply respects_bind; [exact _| |intros _; weaken]. apply respects_when; [exact _|].
    apply respects_bind; [exact _|weaken|intros _]. apply respects_bind; [exact _|weaken|intros _]. apply fast_retransmit_sends.
  - destruct (3 <? _); weaken.
Qed.

Lemma ack_other_sends th a b : respects sends (ack_other now th a b).
Proof. unfold ack_other. weaken. Qed.

Lemma persist_sends : respects sends (persist e hw now).
Proof.
  unfold persist. do 2 (apply respects_bind; [exact _|weaken|intros _]).
  apply respects_bind; [exact _|apply output_one_sends|intros _]. weaken.
Qed.

(** *** Acknowledgments *)

(** What an acknowledgment of [n] bytes does: the front of the retransmission
    queue goes, and SND.UNA moves over it. *)
Definition ack_state (n : Z) (data : list unacked_segment) (t : tcb) : tcb :=
  upd_snd (fun s => set_snd_data data (set_unacknowledged (seq_add (unacknowledged s) n) s)) t.

Definition acks (n : Z) (t t' : tcb) : Prop :=
  exists data, Forall (fun seg => 0 < zlen (seg_p seg) < 65536) data /\
    concat (map seg_p data) = drop (Z.to_nat n) (in_flight (snd t)) /\ core (ack_state n data t) t'.

Lemma acks_refl t : seq_ok (unacknowledged (snd t)) ->
  Forall (fun seg => 0 < zlen (seg_p seg) < 65536) (snd_data (snd t)) -> acks 0 t t.
Proof.
  intros H Hs. exists (snd_data (snd t)). split_and!; [done|done|].
  constructor; try reflexivity; cbn; [symmetry; by apply seq_add_0|done].
Qed.

Lemma acks_core n t t' t'' : acks n t t' -> core t' t'' -> acks n t t''.
Proof. intros (data & H1 & H2 & H3) H. exists data. split_and!; [done|done|by transitivity t']. Qed.

Lemma ack_state_core n data t t' : core t t' -> core (ack_state n data t) (ack_state n data t').
Proof. intros []. constructor; cbn; try done. by rewrite co_una0. Qed.

Lemma acks_trans n m t1 t2 t3 : 0 <= n -> 0 <= m -> acks n t1 t2 -> acks m t2 t3 -> acks (n + m) t1 t3.
Proof.
  intros Hn Hm (d1 & F1 & E1 & C1) (d2 & F2 & E2 & C2). exists d2. split_and!; [done| |].
  - rewrite E2. assert (in_flight (snd t2) = concat (map seg_p d1)) as ->.
    { destruct C1. unfold in_flight. by rewrite co_data0. }
    rewrite E1, drop_drop. f_equal. lia.
  - etransitivity; [|exact C2]. etransitivity; [|apply ack_state_core, C1].
    constructor; try reflexivity; [|done]. cbn. by rewrite seq_add_add.
Qed.

(** One segment acknowledged in full. *)
Lemma ack_one_segment_holds seg data t (f : M Z) Q :
  snd_data (snd t) = seg :: data -> Forall (fun seg => 0 < zlen (seg_p seg) < 65536) (snd_data (snd t)) ->
  (forall t', acks (zlen (seg_p seg)) t t' -> map seg_p (snd_data (snd t')) = map seg_p data -> snd_data (snd t') = data -> holds f Q t') ->
  holds (modify_snd (fun s => set_unacknowledged (seq_add (unacknowledged s) (zlen (seg_p seg))) s);;
    when (nr_transmits seg =? 0) (update_rto now (tx_time seg));;
    update_cwnd (zlen (seg_p seg));;
    modify_snd (fun s => set_current_queue_space (u64 (current_queue_space s - data_len seg)) s);;
    signal_send_available;;
    modify_snd (set_snd_data data);;
    f) Q t.
Proof.
  intros Ed Hsegs Hf. apply holds_bind, holds_modify. set (t1 := upd_snd _ t).
  assert (forall (m : M ()) (k : M Z) t2, core t1 t2 -> ok m ->
    (forall t3, core t1 t3 -> holds k Q t3) -> holds (m;; k) Q t2) as Hstep.
  { intros m k t2 C Hm Hk. apply holds_bind. eapply holds_mono; [apply Hm|]. intros [] t3 C3. apply Hk. by transitivity t2. }
  apply Hstep; [reflexivity|solve [go]|intros t2 C2]. apply Hstep; [done|solve [go]|intros t3 C3].
  apply Hstep; [done|solve [go]|intros t4 C4]. apply Hstep; [done|solve [go]|intros t5 C5].
  apply holds_bind, holds_modify. apply Hf; [|done|done].
  exists data. rewrite Ed in Hsegs. split_and!; [by apply Forall_cons in Hsegs as [_ ?]| |].
  - unfold in_flight. rewrite Ed. cbn. rewrite drop_app_length'; [done|unfold zlen; lia].
  - destruct C5. constructor; cbn; done.
Qed.

Lemma ack_full_segments_holds seg_ack data total : forall t k,
  snd_data (snd t) = data -> Forall (fun seg => 0 < zlen (seg_p seg) < 65536) data ->
  seq_ok (unacknowledged (snd t)) -> seq_diff seg_ack (unacknowledged (snd t)) = k ->
  0 <= k <= zlen (concat (map seg_p data)) -> zlen (concat (map seg_p data)) < 2 ^ 30 ->
  holds (ack_full_segments now seg_ack data total) (fun _ t' =>
    exists m, 0 <= m <= k /\ acks m t t' /\
      match snd_data (snd t') with [] => m = k | seg :: _ => k - m < zlen (seg_p seg) end) t.
Proof.
  revert total. induction data as [|seg data IH]; intros total t k Ed Hsegs Hok Ek Hk Hb.
  { apply holds_ret. exists 0. rewrite Ed. change (0 <= k <= 0) in Hk.
    split_and!; try done; try lia. apply acks_refl; [done|]. by rewrite Ed. }
  cbn [ack_full_segments]. apply holds_bind, holds_get. cbv zeta.
  cbn [map concat] in Hk, Hb. rewrite zlen_app in Hk, Hb.
  pose proof (proj1 (proj1 (Forall_cons _ _ _) Hsegs)) as Hseg.
  pose proof (zlen_nonneg (concat (map seg_p data))).
  assert (Htest : seq_leb (seq_add (unacknowledged (snd t)) (zlen (seg_p seg))) seg_ack = (zlen (seg_p seg) <=? k)).
  { change (2 ^ 30) with 1073741824 in *.
    unfold seq_leb, seq_gtb, seq_ltb. rewrite (seq_diff_shift _ _ _ k) by (done || (pow2; lia)). bcase; cbn; lia. }
  rewrite Htest. destruct (Z.leb_spec (zlen (seg_p seg)) k).
  - eapply (ack_one_segment_holds seg data t); [done|by rewrite Ed|].
    intros t' Ha _ Ed'. pose proof Ha as (d1 & _ & _ & C). pose proof (co_una _ _ C) as Eu. cbn in Eu.
    eapply holds_mono; [apply (IH _ t' (k - zlen (seg_p seg)))|]; try done; try lia.
    + by apply Forall_cons in Hsegs as [_ ?].
    + rewrite Eu. apply seq_add_ok.
    + rewrite Eu. apply seq_diff_shift; [done|]. change (2 ^ 30) with 1073741824 in *. pow2. lia.
    + cbn. intros r t'' (m & Hm & Ha' & Hlast). exists (zlen (seg_p seg) + m).
      split_and!; try lia.
      * apply (acks_trans _ _ t t' t''); [lia|lia|done|done].
      * destruct (snd_data (snd t'')); lia.
  - apply holds_ret. exists 0. rewrite Ed. split_and!; try done; try lia.
    apply acks_refl; [done|by rewrite Ed].
Qed.

Lemma data_segment_acked_holds rest seg_ack t k :
  send_ok rest (snd t) -> seq_ok seg_ack -> seq_diff seg_ack (unacknowledged (snd t)) = k -> 0 <= k <= flight (snd t) ->
  holds (data_segment_acked now seg_ack) (fun _ t' => acks k t t') t.
Proof.
  intros [Hu Hst Hn Hfl Hul Hsegs] Hao Ek Hk. unfold data_segment_acked.
  change (2 ^ 30) with 1073741824 in *. unfold flight in *.
  apply holds_bind, holds_get, holds_bind.
  eapply holds_mono; [apply (ack_full_segments_holds seg_ack _ 0 t k)|]; try done; try lia.
  cbn. intros r t1 (m & Hm & Ha & Hlast). apply holds_bind, holds_get.
  pose proof Ha as (d1 & F1 & E1 & C1). pose proof (co_una _ _ C1) as Eu. cbn in Eu.
  assert (Hd1 : seq_diff seg_ack (unacknowledged (snd t1)) = k - m) by (rewrite Eu; apply seq_diff_shift; [done|]; pow2; lia).
  assert (Hlt : seq_ltb (unacknowledged (snd t1)) seg_ack = (m <? k)).
  { unfold seq_ltb. rewrite (seq_diff_neg _ _ _ Hd1) by (pow2; lia). bcase; lia. }
  rewrite Hlt, Hd1. destruct (Z.ltb_spec m k) as [Hmk|Hmk].
  - destruct (snd_data (snd t1)) as [|seg data'] eqn:Ed1; [lia|].
    assert (Forall (fun seg => 0 < zlen (seg_p seg) < 65536) (snd_data (snd t1))) as F.
    { apply (data_forall (fun p => 0 < zlen p < 65536) d1); [apply (co_data _ _ C1)|done]. }
    rewrite Ed1 in F. apply Forall_cons in F as [F F'].
    apply holds_bind, holds_bind, holds_lift. intros q Eq. apply drop_front_inv in Eq as [Hq ->].
    apply holds_modify, holds_bind, holds_modify, holds_bind.
    set (t2 := upd_snd (set_unacknowledged seg_ack) _). eapply holds_mono; [apply (update_cwnd_core _ t2)|]. intros [] t3 C3.
    apply holds_ret. apply (acks_core _ _ t2); [|done]. replace k with (m + (k - m)) by lia.
    apply (acks_trans _ _ t t1 t2); [lia|lia|done|].
    exists (Unacked (drop (Z.to_nat (k - m)) (seg_p seg)) (data_len seg) (nr_transmits seg) (tx_time seg) :: data').
    split_and!.
    + constructor; [|done]. cbn. rewrite zlen_drop by lia. lia.
    + unfold in_flight. rewrite Ed1. cbn. rewrite drop_app_le by (unfold zlen in *; lia). done.
    + constructor; try reflexivity; [|done]. cbn. rewrite <- Hd1. symmetry. by apply seq_add_diff.
  - assert (m = k) as -> by lia. by apply holds_ret.
Qed.

Definition set_acked (n : Z) (g : view) : view :=
  View (v_written g) (v_sent g) n (v_read g) (v_next g) (v_top g).

Lemma acks_side g n t t' : side g t -> 0 <= n <= flight (snd t) -> acks n t t' -> side (set_acked (v_acked g + n) g) t'.
Proof.
  intros S Hn (data & F & E & C). eapply core_side; [exact C|].
  pose proof (rest_flight (v_acked g) (v_written g) _ ltac:(apply S) (sd_send _ _ S)) as Hf. destruct S.
  assert (zlen (concat (map seg_p data)) = flight (snd t) - n) as El.
  { rewrite E, zlen_drop by (unfold flight in *; lia). done. }
  destruct sd_send0 as [Hu Hst Hnx Hfl Hul Hsegs]. unfold flight in *. change (2 ^ 30) with 1073741824 in *.
  constructor; cbn; try done; unfold flight, in_flight; cbn; try lia.
  - constructor; unfold flight, in_flight; cbn; try done.
    + apply seq_add_ok.
    + rewrite E. replace (v_written g - (v_acked g + n)) with (v_written g - v_acked g - n) by lia.
      rewrite <- drop_range by lia. rewrite <- Hst, drop_app_le; [done|unfold zlen in *; lia].
    + rewrite El. apply seq_diff_shift; [done|pow2; lia].
    + rewrite El. change (2 ^ 30) with 1073741824. lia.
  - rewrite sd_una0, seq_add_add. done.
  - destruct sd_fields0. constructor; done.
Qed.

(** The end after the acknowledgment of the first [a] bytes of the stream was
    processed: it may be old. *)
Definition acked_up_to (a : Z) (g g' : view) : Prop :=
  exists k n, (k = v_acked g \/ k = a) /\ v_acked g <= k /\ v_sent g <= n /\ g' = set_acked k (set_sent n g).

Definition after_ack (a : Z) (g : view) (t' : tcb) : Prop := exists g', acked_up_to a g g' /\ side g' t'.

Lemma sends_after_ack a g t t' : side g t -> sends t t' -> after_ack a g t'.
Proof.
  intros S H. destruct (H g S) as (n & Hn & S'). exists (set_sent n g). split; [|done].
  exists (v_acked g), n. split_and!; try lia. by destruct g.
Qed.

Lemma after_ack_sends a g t t' : after_ack a g t -> sends t t' -> after_ack a g t'.
Proof.
  intros (g1 & (k & n & Hk & Hk' & Hn & ->) & S) H. destruct (H _ S) as (m & Hm & S'). cbn in Hm.
  exists (set_sent m (set_acked k (set_sent n g))). split; [|done]. exists k, m. split_and!; try done. lia.
Qed.

Lemma holds_sends {A} (m : M A) a g t : respects sends m -> side g t -> holds m (fun _ => after_ack a g) t.
Proof. intros Hm S. eapply holds_mono; [apply Hm|]. intros x t'. by apply sends_after_ack. Qed.

Lemma holds_after_ack {A} (m : M A) a g t : respects sends m -> after_ack a g t -> holds m (fun _ => after_ack a g) t.
Proof. intros Hm S. eapply holds_mono; [apply Hm|]. intros x t'. by apply after_ack_sends. Qed.

#[local] Hint Resolve fast_retransmit_sends ack_duplicate_sends ack_other_sends persist_sends : respects.

Lemma ack_new_data_side th a b g t :
  side g t -> v_acked g <= a <= v_sent g ->
  holds (ack_new_data e hw now th b (seq_add bs a)) (fun _ => after_ack a g) t.
Proof.
  intros S Ha. unfold ack_new_data. pose proof (sd_sent _ _ S). pose proof (sd_acked _ _ S).
  pose proof (rest_flight (v_acked g) (v_written g) _ ltac:(lia) (sd_send _ _ S)) as Hf.
  pose proof (sd_written _ _ S) as Hw. unfold stream_max in Hw. change (2 ^ 29) with 536870912 in Hw.
  assert (seq_diff (seq_add bs a) (unacknowledged (snd t)) = a - v_acked g) as Ed.
  { rewrite (sd_una _ _ S). apply seq_diff_shift; [apply seq_diff_add|]; pow2; lia. }
  apply holds_bind. eapply holds_mono.
  { apply (data_segment_acked_holds (range ds (v_acked g) (v_written g - v_acked g)) (seq_add bs a) t (a - v_acked g));
      [apply S|apply seq_add_ok|exact Ed|lia]. }
  cbn beta. intros x t1 H1. apply (acks_side g (a - v_acked g)) in H1; [|done|lia].
  apply holds_after_ack.
  - apply respects_bind; [exact _|weaken|intros t2]. cbv zeta.
    apply respects_bind; [exact _|weaken|intros _]. apply respects_bind; [exact _|weaken|intros t3]. cbv zeta.
    destruct (3 <=? _); [|weaken]. destruct (seq_gtb _ _); [weaken|].
    apply respects_bind; [exact _|apply fast_retransmit_sends|intros _]. weaken.
  - exists (set_acked (v_acked g + (a - v_acked g)) g). split; [|done]. exists a, (v_sent g). split_and!; try lia.
    replace (v_acked g + (a - v_acked g)) with a by lia. by destruct g.
Qed.

Lemma near_at b n : 0 <= n < stream_max -> near b (seq_add b n) /\ seq_pos b (seq_add b n) = n.
Proof.
  unfold stream_max, near, seq_pos. change (2 ^ 29) with 536870912. change (2 ^ 30) with 1073741824. intros H.
  rewrite seq_diff_add by (pow2; lia). lia.
Qed.

Lemma ack_established_side th a b len g t :
  side g t -> 0 <= a < stream_max -> h_ack th = seq_add bs a ->
  holds (ack_established e hw now th b (h_ack th) len) (fun _ => after_ack a g) t.
Proof.
  intros S Ha Eh. unfold ack_established. apply holds_bind, holds_get. cbv zeta.
  pose proof (sd_sent _ _ S). pose proof (sd_acked _ _ S). pose proof (sd_written _ _ S).
  pose proof (rest_flight (v_acked g) (v_written g) _ ltac:(lia) (sd_send _ _ S)) as Hf.
  destruct (seq_ltb _ _ && seq_leb _ _)%bool eqn:E.
  - assert (v_acked g <= a <= v_sent g) as Hk.
    { destruct (near_at bs a Ha) as [N1 P1], (near_at bs (v_acked g)) as [N2 P2]; [lia|].
      destruct (near_at bs (v_sent g)) as [N3 P3]; [lia|].
      rewrite Eh, (side_next g t S), (sd_una _ _ S) in E.
      rewrite (seq_ltb_pos bs), (seq_leb_pos bs), P1, P2, P3 in E by done. b2p. lia. }
    apply holds_bind. rewrite Eh. eapply holds_mono; [by apply ack_new_data_side|]. intros [] t' H'. by apply holds_ret.
  - apply holds_sends; [|done]. match goal with |- respects _ (if ?c then _ else _) => destruct c end; [|apply ack_other_sends].
    apply respects_bind; [exact _|weaken|intros w]. destruct (w =? _); [|apply ack_other_sends].
    apply respects_bind; [exact _|apply ack_duplicate_sends|intros m]. weaken.
Qed.

Lemma side_after_ack a g t : side g t -> after_ack a g t.
Proof. intros S. by apply (sends_after_ack a g t t). Qed.

(** The acknowledgment field of a segment, whatever it acknowledges. *)
Lemma process_ack_side th a b len g t :
  side g t -> 0 <= a < stream_max -> h_ack th = seq_add bs a ->
  holds (process_ack e hw now th b (h_ack th) len) (fun _ => after_ack a g) t.
Proof.
  intros S Ha Eh. unfold process_ack. pose proof (sd_state _ _ S) as Es. apply holds_bind, holds_get. cbv zeta.
  eval_in_state Es. cbn [andb]. apply holds_bind, holds_ret, holds_bind, holds_get. eval_in_state Es.
  apply holds_bind. eapply holds_mono; [by apply ack_established_side|]. intros [|more] t1 H1; [by apply holds_ret|].
  destruct H1 as (g1 & Hg & S1). pose proof (sd_state _ _ S1) as Es1.
  apply holds_bind, holds_get. cbv zeta. eval_in_state Es1. cbn [andb].
  apply holds_bind, holds_ret, holds_ret. by exists g1.
Qed.
End Output.
End Side.

#[export] Hint Resolve output_core can_send_core start_retransmit_core stop_retransmit_core start_persist_core
  stop_persist_core clear_delayed_ack_core update_rto_core update_cwnd_core signal_data_received_core
  signal_all_data_acked_core signal_send_available_core exit_fast_recovery_core reset_retransmit_timer_core
  should_send_ack_core final_output_core wait_for_data_core abort_reader_core wait_send_available_core
  delayed_ack_expired_core output_update_rto_core poll_failed_queue_full_core update_window_core : respects.
