(* ===== verification/TcpPeer.v ===== *)
(** * One end of a connection and the segments of its peer

    Every operation an ESTABLISHED end runs - a segment of its peer, a timer, a
    poll of its output, a call of its user - keeps [TcpSide.side], and the view
    of the two streams only grows. *)

From S2P Require Import Prelude Core ByteOrder Checksum Packet Net TcpSeq TcpHdr PacketMerger TcbData Tcb TcbState TcbSend TcbRecv TcpSide.
From stdpp Require Import base numbers option list.

#[local] Open Scope Z_scope.

(** The view after an operation: [a] bounds what was acknowledged and [z] what
    arrived. *)
Record grows (a z : Z) (g g' : view) : Prop := Grows {
  gr_written : v_written g' = v_written g;
  gr_read : v_read g' = v_read g;
  gr_acked : v_acked g <= v_acked g' <= Z.max (v_acked g) a;
  gr_sent : v_sent g <= v_sent g';
  gr_next : v_next g <= v_next g';
  gr_top : v_top g <= v_top g' <= Z.max (v_top g) z }.

Lemma grows_refl a z g : grows a z g g.
Proof. constructor; lia. Qed.

Lemma grows_trans a z g1 g2 g3 : grows a z g1 g2 -> grows a z g2 g3 -> grows a z g1 g3.
Proof. intros [] []. constructor; lia. Qed.

Lemma grows_sent a z n g : v_sent g <= n -> grows a z g (set_sent n g).
Proof. intros. constructor; cbn; lia. Qed.

Lemma grows_acked a z g g' : acked_up_to a g g' -> grows a z g g'.
Proof. intros (k & n & Hk & Hk' & Hn & ->). constructor; cbn; lia. Qed.

(** The operations without data: timers, polling failures, waiting and closing. *)
Definition background (op : tcb_op) : bool :=
  match op with
  | OpClose | OpCloseContinuation | OpShutdownConnect | OpWaitForData | OpAbortReader
  | OpDelayedAck | OpPersist | OpRetransmit | OpPollQueueFull | OpPollTimeout => true
  | _ => false
  end.

Section Peer.
Context {BC : BeCodec} {AU : AlignUp} {T : Type} {TM : TimerOps T}.
Abbreviation tcb := (@TcbData.tcb T).
Abbreviation M := (@Tcb.M T).
Variable e : endian.
Variable hw : hw_features.
Hypothesis Hhw : hw_ok hw.
Variable now : Z.
Variable bs br : tcp_seq.
Variable ds dr : Z -> Z.
Hypothesis Hds : forall i, is_byte (ds i).
Abbreviation side := (@TcpSide.side BC T bs br ds dr).
Abbreviation sends := (@TcpSide.sends BC T bs br ds dr).

(** The end after an operation. *)
Definition moved (a z : Z) (g : view) (t' : tcb) : Prop := exists g', grows a z g g' /\ side g' t'.

Lemma moved_side a z g t : side g t -> moved a z g t.
Proof. intros S. exists g. split; [apply grows_refl|done]. Qed.

Lemma moved_trans a z g g' t : grows a z g g' -> moved a z g' t -> moved a z g t.
Proof. intros H (g'' & H' & S). exists g''. split; [by eapply grows_trans|done]. Qed.

Lemma moved_sends a z g t t' : sends t t' -> moved a z g t -> moved a z g t'.
Proof.
  intros H (g' & Hg & S). destruct (H g' S) as (n & Hn & S'). exists (set_sent n g').
  split; [|done]. eapply grows_trans; [done|by apply grows_sent].
Qed.

Lemma holds_moved {A} (m : M A) a z g t : respects sends m -> moved a z g t -> holds m (fun _ => moved a z g) t.
Proof. intros Hm S. eapply holds_mono; [apply Hm|]. intros x t' H. by apply (moved_sends _ _ _ t). Qed.

Lemma core_moved {A} (m : M A) a z g t : respects core m -> moved a z g t -> holds m (fun _ => moved a z g) t.
Proof. intros Hm. by apply holds_moved, respects_sends. Qed.

(** ** Receiving *)

Definition window_ok (r : receive) : Prop := 0 <= rcv_window r < 2 ^ 29 /\ 0 <= rcv_window_scale r <= 14.

(** What delivering text leaves alone. *)
Definition delivers (t t' : tcb) : Prop :=
  core t (set_rcv (rcv t) t') /\ (window_ok (rcv t) -> window_ok (rcv t')).

Lemma core_set_rcv r (t t' : tcb) : core t t' -> core (set_rcv r t) (set_rcv r t').
Proof. intros []. by constructor. Qed.

#[export] Instance delivers_preorder : PreOrder delivers.
Proof.
  split.
  - intros t. split; [by constructor|done].
  - intros t1 t2 t3 [C1 W1] [C2 W2]. split; [|auto]. etransitivity; [exact C1|].
    apply (core_set_rcv (rcv t1)) in C2. exact C2.
Qed.

Lemma core_delivers (t t' : tcb) : core t t' -> delivers t t'.
Proof.
  intros C. split; [apply (core_set_rcv (rcv t)) in C; by destruct t|].
  unfold window_ok. by rewrite (co_window _ _ C), (co_scale _ _ C).
Qed.

Lemma respects_delivers {A} (m : M A) : respects core m -> respects delivers m.
Proof. intros H t. eapply holds_mono; [apply H|]. intros x t'. apply core_delivers. Qed.

Lemma default_window (t : tcb) : 0 <= rcv_window_scale (rcv t) <= 14 ->
  0 <= get_default_receive_window_size t < 2 ^ 29.
Proof.
  unfold get_default_receive_window_size. intros H. rewrite Z.shiftl_mul_pow2 by lia.
  assert (2 ^ 0 <= 2 ^ rcv_window_scale (rcv t) <= 2 ^ 14) as [H1 H2] by (split; apply Z.pow_le_mono_r; lia).
  change (2 ^ 0) with 1 in H1. change (2 ^ 14) with 16384 in H2. change (2 ^ 29) with 536870912.
  rewrite wrap_small by (pow2; lia). lia.
Qed.

Lemma modified_window (t : tcb) : 0 <= rcv_window_scale (rcv t) <= 14 ->
  0 <= get_modified_receive_window_size t < 2 ^ 29.
Proof.
  intros H. pose proof (default_window t H). unfold get_modified_receive_window_size.
  assert (0 <= (if max_receive_buf_size (rcv t) <? data_size (rcv t) then 0
              else u32 (max_receive_buf_size (rcv t) - data_size (rcv t)))).
  { destruct (_ <? _); [done|]. apply wrap_range. lia. }
  lia.
Qed.

Lemma merge_segments_window m : forall r b r' b',
  merge_segments m r b = Some (r', b') -> rcv_window r' = rcv_window r /\ rcv_window_scale r' = rcv_window_scale r.
Proof.
  induction m as [|[c q] m IH]; intros r b r' b'; cbn [merge_segments]; [by intros [= <- _]|].
  destruct (_ && _)%bool; [|destruct (seq_geb _ _); [apply IH|by intros [= <- _]]].
  destruct (drop_front _ _) as [p|]; [|done]. intros E. apply IH in E. exact E.
Qed.

Ltac deliver_mod := intros ?; split; [by constructor|try done].
Ltac go := respects_tac deliver_mod; try (apply respects_delivers; eauto with respects).

Lemma merge_out_of_order_delivers : respects delivers (T := T) merge_out_of_order.
Proof.
  unfold merge_out_of_order. apply respects_read. intros t. apply holds_bind, holds_lift. intros [r b] E.
  apply holds_bind, holds_modify, holds_ret. apply merge_segments_window in E as [E1 E2].
  split; [by constructor|]. unfold window_ok. cbn. by rewrite E1, E2.
Qed.

Lemma set_modified_window_delivers :
  respects delivers (modify (fun t => upd_rcv (set_rcv_window (get_modified_receive_window_size t)) t)).
Proof.
  apply respects_modify. intros t. split; [by constructor|]. intros [_ H]. split; [by apply modified_window|done].
Qed.

Lemma process_text_delivers p len : respects delivers (process_text now p len).
Proof.
  unfold process_text. destruct (zlen p =? 0); [go|].
  do 3 (apply respects_bind; [exact _|go|intros _]).
  apply respects_bind; [exact _|apply merge_out_of_order_delivers|intros b].
  apply respects_bind; [exact _|apply set_modified_window_delivers|intros _].
  apply respects_bind; [exact _|apply respects_delivers, signal_data_received_core|intros _].
  destruct b; [go|]. apply respects_delivers, should_send_ack_core.
Qed.

Lemma insert_out_of_order_delivers s p : respects delivers (insert_out_of_order s p).
Proof.
  unfold insert_out_of_order. apply respects_bind; [exact _|go|intros t].
  apply respects_bind; [exact _|go|intros [m n]]. go.
Qed.

Definition set_arrived (n z : Z) (g : view) : view :=
  View (v_written g) (v_sent g) (v_acked g) (v_read g) n (Z.max (v_top g) z).

Lemma side_receives a z g off len t t' :
  side g t -> delivers t t' -> receives br dr (v_read g) (v_next g) off len (out_of_order (rcv t)) (rcv t') ->
  off + len <= z -> z < stream_max -> moved a z g t'.
Proof.
  intros S [C W] (n & Hr & Hn & Hx) Hz Hb. exists (set_arrived n z g). split; [constructor; cbn; lia|].
  apply (core_side bs br ds dr g) in C; [|done]. destruct S, C as [], sd_fields0.
  destruct W as [W1 W2]; [done|]. pose proof (ro_seq _ _ _ _ _ Hr).
  constructor; cbn in *; try done; try lia.
  - intros x Hx'. apply Hx in Hx' as [Hx'|Hx']; [|lia]. pose proof (sd_top x Hx'). lia.
  - eapply Forall_impl; [exact sd_packets0|]. intros p. apply (segment_in_mono bs br ds dr g); cbn; lia.
Qed.

(** ** The segments of the peer *)

(** The segment with header [th]: [len] bytes of the peer's stream from [off],
    and an acknowledgment of [a] bytes of this end's. *)
Record from_peer (th : tcp_hdr) (off len a : Z) : Prop := FromPeer {
  fp_seq : h_seq th = seq_add br off;
  fp_ack : h_ack th = seq_add bs a;
  fp_plain : plain th;
  fp_off : 0 <= off;
  fp_len : 0 <= len;
  fp_end : off + len < stream_max;
  fp_acked : 0 <= a < stream_max }.

Lemma top_next g (t : tcb) : side g t -> v_next g <= v_top g.
Proof.
  intros S. destruct (Z.leb_spec (v_next g) (v_top g)); [done|].
  pose proof (sd_top _ _ _ _ _ _ S (v_next g - 1)) as H'. unfold received in H'. lia.
Qed.

Lemma max_window : stream_max + 2 ^ 29 = 2 ^ 30.
Proof. done. Qed.

Lemma text_side a g t n len :
  side g t -> n = v_next g -> 0 <= len -> n + len < stream_max ->
  holds (process_text now (range dr n len) len) (fun _ => moved a (n + len) g) t.
Proof.
  intros S -> Hl Hb u t' es E. apply (side_receives _ _ g (v_next g) len t); try done; [|].
  - by apply (process_text_delivers _ _ _ _ _ _ E).
  - destruct (process_text_returns now br dr (v_read g) (v_next g) len t) as (u1 & t1 & es1 & E1 & _ & R);
      [apply S|done|pose proof max_window; lia|].
    rewrite E in E1. by injection E1 as <- <- _.
Qed.

Lemma process_segment_side th off len a b g t n :
  side g t -> from_peer th off len a -> n = v_next g -> off <= n <= off + len ->
  holds (process_segment e hw now th (range dr n (off + len - n)) b (off + len - n)) (fun _ => moved a (off + len) g) t.
Proof.
  intros S [_ Hack (_ & _ & Hfin & _) H0 _ Hend Ha] En Hn. unfold process_segment. apply holds_bind.
  eapply holds_mono; [by apply (process_ack_side e hw Hhw bs br ds dr Hds now th a b)|].
  cbv beta. intros r t1 (g1 & Hg & S1). pose proof (grows_acked a (off + len) g g1 Hg) as G1.
  destruct r as [|more].
  { apply holds_ret. by exists g1. }
  pose proof (sd_state _ _ _ _ _ _ S1) as Es1. apply holds_bind, holds_get. eval_in_state Es1. apply holds_bind.
  assert (v_next g1 = v_next g) as Eg by (destruct Hg as (k & m & _ & _ & _ & ->); done).
  pose proof (text_side a g1 t1 n (off + len - n) S1 ltac:(lia) ltac:(lia) ltac:(lia)) as Ht.
  replace (n + (off + len - n)) with (off + len) in Ht by lia.
  eapply holds_mono; [exact Ht|]. cbv beta. intros o t2 M2. apply holds_bind. unfold process_fin. rewrite Hfin. apply holds_ret.
  apply core_moved; [apply final_output_core|]. by eapply moved_trans.
Qed.

(** A segment of the peer, wherever it lies in the stream and whatever came before. *)
Lemma input_side th off len a h g t :
  side g t -> from_peer th off len a -> zlen h = data_offset th * 4 ->
  holds (input_handle_other_state e hw now th (h ++ range dr off len)) (fun _ => moved a (off + len) g) t.
Proof.
  intros S F Hh. pose proof F as [Hseq Hack Hpl H0 Hl Hend Ha].
  pose proof (sd_recv _ _ _ _ _ _ S) as Hr. pose proof (top_next g t S). pose proof (sd_top_max _ _ _ _ _ _ S).
  pose proof (sd_window _ _ _ _ _ _ S). pose proof max_window. pose proof (sd_read _ _ _ _ _ _ S).
  pose proof (ro_lo _ _ _ _ _ Hr). destruct (near_at br off) as [Hnear Hpos]; [lia|].
  intros u t' es.
  rewrite (input_trimmed e hw now br dr (v_read g) (v_next g) off);
    [|done|done|done|by rewrite Hseq|rewrite Hseq; apply seq_add_ok|by rewrite Hseq|done|lia|lia|lia].
  destruct (in_window _ _ _ _) eqn:Ew; [|by apply core_moved; [apply output_core|apply moved_side]].
  destruct (Z.leb_spec off (v_next g)).
  - assert (v_next g <= off + len).
    { unfold in_window in Ew. destruct (Z.eqb_spec len 0); [destruct (rcv_window (rcv t) =? 0); b2p; lia|].
      destruct (rcv_window (rcv t) =? 0); [done|]. apply orb_true_iff in Ew as [Ew|Ew]; b2p; lia. }
    apply (process_segment_side th off len a _ g t (v_next g) S F); lia.
  - revert u t' es. apply holds_bind. rewrite Hseq. intros u t' es E. rewrite <- Hpos in E at 2.
    destruct (insert_out_of_order_returns br dr (v_read g) (v_next g) (seq_add br off) len t) as (u1 & t1 & es1 & E1 & _ & R);
      [done|done|lia|lia|lia|].
    rewrite E in E1. injection E1 as <- <- _. apply core_moved; [apply output_core|].
    apply (side_receives _ _ g off len t); [done| |by rewrite Hpos in R|lia|done].
    apply (insert_out_of_order_delivers _ _ _ _ _ _ E).
Qed.

(** ** Timers *)

Ltac core_go := respects_tac core_mod; try (eauto with respects).

Lemma count_transmission (t t' : tcb) seg data n :
  core t t' -> snd_data (snd t) = seg :: data ->
  core t (upd_snd (set_snd_data (Unacked (seg_p seg) (data_len seg) n (tx_time seg) :: data)) t').
Proof.
  intros C Ed. pose proof (co_data _ _ C) as E. rewrite Ed in E. destruct C. constructor; try done. cbn. by rewrite Ed.
Qed.

Lemma holds_respects {A} (R : tcb -> tcb -> Prop) (m : M A) (Q : tcb -> Prop) t :
  respects R m -> (forall t', R t t' -> Q t') -> holds m (fun _ => Q) t.
Proof. intros Hm HQ. eapply holds_mono; [apply Hm|]. intros x t'. apply HQ. Qed.

Definition same_status (t t' : tcb) : Prop := state t' = state t.
#[local] Instance same_status_preorder : PreOrder same_status.
Proof. split; [by intros ?|]. intros ??? H1 H2. unfold same_status in *. congruence. Qed.

Lemma do_reset_closed (t : tcb) : holds do_reset (fun _ t' => state t' = CLOSED) t.
Proof.
  unfold do_reset. apply holds_bind, holds_modify. apply (holds_respects same_status); [|by intros t' ->].
  respects_tac ltac:(by intros ?). intros t'. eapply holds_mono; [apply cleanup_keeps|]. by intros [] t'' [E _].
Qed.

(** The retransmission timer resends the front of the queue, or gives the
    connection up after too many attempts. *)
Lemma retransmit_side g t : side g t ->
  holds (retransmit e hw now) (fun _ t' => state t' = ESTABLISHED -> moved 0 0 g t') t.
Proof.
  intros S. pose proof (side_sync _ _ _ _ g t S) as Hs. pose proof (synchronised_flags t Hs) as (Hsyn & _).
  pose proof (sd_state _ _ _ _ _ _ S) as Es. unfold retransmit, retransmit_control.
  apply holds_bind, holds_bind, holds_get. rewrite Hsyn. apply holds_bind, holds_ret. cbn [negb].
  apply holds_bind, holds_get. unfold fin_needs_on. eval_in_state Es. cbn [andb]. apply holds_ret. cbn [negb].
  apply holds_bind, holds_get. destruct (snd_data (snd t)) as [|seg data] eqn:Ed.
  { apply holds_ret. intros _. by apply moved_side. }
  cbv zeta. assert (forall (m : M ()) (k : M ()) t2 Q, core t t2 -> respects core m ->
    (forall t3, core t t3 -> holds k Q t3) -> holds (m;; k) Q t2) as Hstep.
  { intros m k t0 Q C Hm Hk. apply holds_bind. eapply holds_mono; [apply Hm|]. intros [] t3 C3. apply Hk. by transitivity t0. }
  apply Hstep; [done|core_go|intros t1 C1]. apply Hstep; [done|core_go|intros t2 C2].
  apply Hstep; [done| |intros t3 C3].
  { apply respects_modify. intros t'. constructor; try reflexivity. intros (? & ? & ? & ?).
    pose proof (side_unsigned _ _ _ _ g t S) as (_ & _ & ? & _). unfold unsigned_send. cbn. split_and!; done || lia. }
  apply Hstep; [done|core_go|intros t4 C4]. destruct (nr_transmits seg <? max_nr_retransmit).
  2: { eapply holds_mono; [apply do_reset_closed|]. intros [] t' E E'. congruence. }
  apply holds_bind, holds_modify. apply (count_transmission t t4 seg data (nr_transmits seg + 1)) in C4; [|done].
  eapply holds_mono; [apply (holds_moved _ 0 0 g)|by intros [] t' H' _].
  - apply respects_bind; [exact _|apply output_one_sends; done|intros _]. apply respects_sends, output_update_rto_core.
  - apply (moved_sends _ _ _ t); [by apply core_sends|by apply moved_side].
Qed.

(** ** The interface below: handing a packet to the network *)

Lemma pop_packet_side g t p q : side g t -> packetq t = p :: q ->
  segment_in bs br ds g p /\ side g (set_packetq q t).
Proof.
  intros S Eq. destruct S. rewrite Eq in *. apply Forall_cons in sd_packets as [Hp Hq]. split; [done|].
  by destruct sd_fields.
Qed.

Lemma get_packet_side g t : side g t ->
  holds (get_packet e hw now) (fun r t' => exists n, v_sent g <= n /\ side (set_sent n g) t' /\
    exists a p, r = Some (a, p) /\ segment_in bs br ds (set_sent n g) p) t.
Proof.
  intros S. unfold get_packet. apply holds_bind, holds_modify.
  assert (side g (set_poll_active false t)) as S1 by (apply (core_side bs br ds dr g t); [by constructor|done]).
  apply holds_bind, holds_get, holds_bind.
  eapply holds_mono; [apply (respects_when sends); by apply output_one_sends|].
  cbv beta. intros _ t1 H1. destruct (H1 g S1) as (n & Hn & S2). clear H1.
  apply holds_bind, holds_get. pose proof (sd_state _ _ _ _ _ _ S2) as Es. eval_in_state Es.
  destruct (packetq t1) as [|p q] eqn:Eq; [by apply holds_lift|].
  destruct (pop_packet_side _ _ _ _ S2 Eq) as [Hp S3].
  apply holds_bind, holds_modify. set (t2 := set_packetq q t1) in *. apply holds_bind.
  eapply holds_mono.
  { match goal with |- holds ?m _ _ => assert (respects core m) as H' by core_go; apply H' end. }
  intros more t3 C3. apply holds_bind. eapply holds_mono; [apply (respects_when core), output_core|].
  cbv beta. intros _ t4 C4. apply holds_ret. exists n. split_and!; [done| |by eauto].
  eapply core_side; [exact C4|]. eapply core_side; [exact C3|]. exact S3.
Qed.

(** ** The user *)

Definition set_read (n : Z) (g : view) : view :=
  View (v_written g) (v_sent g) (v_acked g) n (v_next g) (v_top g).

Definition set_written (n : Z) (g : view) : view :=
  View n (v_sent g) (v_acked g) (v_read g) (v_next g) (v_top g).

(** [read] returns the bytes that have arrived in order since the last one. *)
Lemma read_side g t : side g t ->
  holds read (fun r t' => r = range dr (v_read g) (v_next g - v_read g) /\ side (set_read (v_next g) g) t') t.
Proof.
  intros S. unfold read. apply holds_bind, holds_get.
  do 3 apply holds_bind, holds_modify. apply holds_ret. destruct S. split; [apply sd_recv|].
  pose proof (default_window t sd_scale). destruct sd_recv, sd_fields.
  constructor; cbn; try done; try lia. constructor; cbn; try done; try lia. by rewrite Z.sub_diag.
Qed.

Lemma written_side g t len : side g t -> 0 <= len -> v_written g + len < stream_max ->
  side (set_written (v_written g + len) g)
    (upd_snd (fun s => set_unsent (unsent s ++ [range ds (v_written g) len]) s)
      (upd_snd (fun s => set_unsent_len (u32 (unsent_len s + len)) s)
        (upd_snd (fun s => set_current_queue_space (u64 (current_queue_space s + len)) s) t))).
Proof.
  intros S Hl Hb. pose proof (zlen_nonneg (concat (unsent (snd t)))) as H0. destruct S, sd_send, sd_fields.
  destruct so_unsent_len as [Hul _]. pose proof (f_equal zlen so_stream) as E. unfold flight in *.
  rewrite zlen_app, zlen_range in E by lia. pose proof (zlen_nonneg (in_flight (snd t))).
  unfold stream_max in *. change (2 ^ 29) with 536870912 in *.
  assert (u32 (unsent_len (snd t) + len) = unsent_len (snd t) + len) as Eu by (apply wrap_small; pow2; lia).
  constructor; cbn; try done; try lia.
  - constructor; cbn; rewrite ?Eu, ?concat_app, ?zlen_app; try done.
    + unfold in_flight in *. cbn. rewrite app_nil_r, app_assoc, so_stream.
      replace (v_written g) with (v_acked g + (v_written g - v_acked g)) at 2 by lia.
      rewrite range_app by lia. f_equal. lia.
    + cbn [concat]. rewrite app_nil_r, zlen_range by done. pow2. lia.
  - constructor; try done. destruct fo_send as (? & ? & ? & ?). unfold unsigned. cbn. rewrite Eu. split_and!; done || lia.
Qed.

(** [send] appends to the stream. *)
Lemma send_packet_side g t len : side g t -> 0 <= len -> v_written g + len < stream_max ->
  holds (send_packet (range ds (v_written g) len)) (fun r t' =>
    (exists b, r = inr b) /\ side (set_written (v_written g + len) g) t') t.
Proof.
  intros S Hl Hb. unfold send_packet. apply holds_bind, holds_get.
  pose proof (sd_state _ _ _ _ _ _ S) as Es. rewrite (sd_closed _ _ _ _ _ _ S). eval_in_state Es. cbn [orb].
  cbv zeta. rewrite zlen_range by done. do 3 apply holds_bind, holds_modify.
  match goal with |- holds _ _ ?t1 => assert (side (set_written (v_written g + len) g) t1) as S1; [|set (t2 := t1) in *] end.
  { by apply written_side. }
  apply holds_bind. eapply holds_mono; [apply can_send_core|]. cbv beta. intros n t3 C3.
  apply holds_bind. eapply holds_mono; [apply (respects_when core), output_core|]. cbv beta. intros _ t4 C4.
  apply holds_bind. eapply holds_mono; [apply wait_send_available_core|]. cbv beta. intros b t5 C5.
  apply holds_ret. split; [by exists b|]. do 3 (eapply core_side; [eassumption|]). done.
Qed.
(** ** The operations without data *)

Variable get_isn : tcb -> Z -> tcp_seq.

(** Closing leaves ESTABLISHED. *)
Lemma close_continuation_leaves t : state t = ESTABLISHED ->
  holds (close_continuation e hw now) (fun _ t' => state t' = FIN_WAIT_1) t.
Proof.
  intros Es. unfold close_continuation. apply holds_bind, holds_modify, holds_bind, holds_get.
  assert (state (upd_snd (set_closed true) t) = ESTABLISHED) as Es' by done. eval_in_state Es'.
  apply holds_bind, holds_modify. apply (holds_respects (@keeps T)); [|by intros t' [-> _]].
  apply respects_bind; [exact _|apply output_one_keeps|intros _]. apply output_keeps.
Qed.

Lemma wait_for_all_data_acked_core : respects (T := T) core wait_for_all_data_acked.
Proof. unfold wait_for_all_data_acked. core_go. Qed.

Lemma close_side g t : side g t -> holds (close e hw now) (fun _ t' => state t' = ESTABLISHED -> moved 0 0 g t') t.
Proof.
  intros S. unfold close. apply holds_bind, holds_get. pose proof (sd_state _ _ _ _ _ _ S) as Es.
  rewrite (sd_closed _ _ _ _ _ _ S). eval_in_state Es. cbn [orb]. apply holds_bind.
  eapply holds_mono; [apply wait_for_all_data_acked_core|]. cbv beta. intros ready t1 C1. apply holds_bind, holds_when; intros _.
  - eapply holds_mono; [apply close_continuation_leaves; by rewrite (co_state _ _ C1)|].
    intros [] t2 E2. apply holds_ret. intros E. congruence.
  - apply holds_ret. intros _. apply moved_side. by apply (core_side bs br ds dr g t).
Qed.

Lemma background_side op g t : background op = true -> side g t ->
  holds (exec e hw get_isn now op) (fun _ t' => state t' = ESTABLISHED -> moved 0 0 g t') t.
Proof.
  intros Hop S. pose proof (sd_state _ _ _ _ _ _ S) as Es. pose proof (moved_side 0 0 g t S) as Hm.
  assert (forall m : M (), respects sends m -> holds m (fun _ t' => state t' = ESTABLISHED -> moved 0 0 g t') t) as Hs.
  { intros m H. eapply holds_mono; [by apply (holds_moved m 0 0 g)|]. by intros [] t' H' _. }
  destruct op; try discriminate Hop; cbn [exec].
  - apply holds_bind. eapply holds_mono; [by apply close_side|]. intros b t1 H1. by apply holds_ret.
  - eapply holds_mono; [by apply close_continuation_leaves|]. intros [] t1 E1 E. congruence.
  - unfold shutdown_connect. apply holds_bind, holds_get. pose proof (synchronised_flags t (side_sync _ _ _ _ g t S)) as (-> & _).
    apply holds_bind. eapply holds_mono; [apply abort_reader_core|]. intros [] t1 C1.
    apply holds_bind. eapply holds_mono; [by apply (close_side g), (core_side bs br ds dr g t)|].
    intros b t2 H2. by apply holds_ret.
  - apply Hs, respects_sends. core_go.
  - apply Hs, respects_sends, abort_reader_core.
  - apply Hs, respects_sends, delayed_ack_expired_core.
  - apply Hs. by apply persist_sends.
  - by apply retransmit_side.
  - apply Hs, respects_sends, poll_failed_queue_full_core.
  - unfold poll_failed_timeout. apply holds_bind, holds_get. eval_in_state Es. by apply holds_ret.
Qed.
End Peer.
