(* ===== verification/TcpLink.v ===== *)
(** * Two ends of a connection and the network between them

    The two control blocks of an established connection exchange segments over a
    network that may lose, repeat, delay and reorder them; their users write and
    read, their timers expire whenever they like.  [tcp_delivers] is what TCP
    promises: at all times, what either user has been given is a prefix of what
    the other has written, and an end has dropped from its queues only what the
    other end has received. *)

From S2P Require Import Prelude Core ByteOrder Checksum Packet Net TcpSeq TcpHdr PacketMerger TcbData Tcb TcbState TcbSend TcbRecv TcpSide TcpPeer.
From stdpp Require Import base numbers option list relations.

#[local] Open Scope Z_scope.

(** ** The system *)

Section Link.
Context {BC : BeCodec} {AU : AlignUp} {T : Type} {TM : TimerOps T}.
Abbreviation tcb := (@TcbData.tcb T).

(** One end: its control block, what its user has written and read so far, and
    the packets it has handed to the network. *)
Record endpoint := Endpoint { ep_tcb : tcb; ep_written : list Z; ep_read : list Z; ep_sent : list packet }.

Section End.
Variable e : endian.
Variable hw : hw_features.
Variable get_isn : tcb -> Z -> tcp_seq.

(** What one end may do; [net] is what the other end has sent, at any time before. *)
Inductive endpoint_step (net : list packet) : endpoint -> endpoint -> Prop :=
  | step_send t w r s p b t' es :
      Forall is_byte p -> zlen (w ++ p) < stream_max -> send_packet p t = Some (inr b, t', es) ->
      endpoint_step net (Endpoint t w r s) (Endpoint t' (w ++ p) r s)
  | step_read t w r s d t' es :
      Tcb.read t = Some (d, t', es) -> endpoint_step net (Endpoint t w r s) (Endpoint t' w (r ++ d) s)
  | step_poll now t w r s a p t' es :
      get_packet e hw now t = Some (Some (a, p), t', es) ->
      endpoint_step net (Endpoint t w r s) (Endpoint t' w r (s ++ [p]))
  | step_deliver now t w r s p t' es :
      p ∈ net -> input_handle_other_state e hw now (tcp_hdr_read (bytes p)) (bytes p) t = Some ((), t', es) ->
      endpoint_step net (Endpoint t w r s) (Endpoint t' w r s)
  | step_background now op t w r s t' es :
      background op = true -> exec e hw get_isn now op t = Some ((), t', es) ->
      endpoint_step net (Endpoint t w r s) (Endpoint t' w r s).

(** A connection after its handshake, before any data. *)
Record opens (bs br : tcp_seq) (a : endpoint) : Prop := Opens {
  op_state : state (ep_tcb a) = ESTABLISHED;
  op_closed : closed (snd (ep_tcb a)) = false;
  op_una : unacknowledged (snd (ep_tcb a)) = bs;
  op_next : snd_next (snd (ep_tcb a)) = bs;
  op_data : snd_data (snd (ep_tcb a)) = [] /\ unsent (snd (ep_tcb a)) = [] /\ unsent_len (snd (ep_tcb a)) = 0;
  op_rcv_next : rcv_next (rcv (ep_tcb a)) = br;
  op_rcv_data : rcv_data (rcv (ep_tcb a)) = [] /\ data_size (rcv (ep_tcb a)) = 0 /\ out_of_order (rcv (ep_tcb a)) = [];
  op_fields : fields_ok (ep_tcb a);
  op_ssthresh : 0 <= ssthresh (snd (ep_tcb a));
  op_window : 0 <= rcv_window (rcv (ep_tcb a)) < 2 ^ 29;
  op_scale : 0 <= rcv_window_scale (rcv (ep_tcb a)) <= 14;
  op_packets : packetq (ep_tcb a) = [];
  op_history : ep_written a = [] /\ ep_read a = [] /\ ep_sent a = [] }.

End End.

Variable e1 e2 : endian.
Variable hw1 hw2 : hw_features.
Variable isn1 isn2 : tcb -> Z -> tcp_seq.

(** Either end moves, and stays connected. *)
Inductive link_step : endpoint * endpoint -> endpoint * endpoint -> Prop :=
  | link_left a a' b : endpoint_step e1 hw1 isn1 (ep_sent b) a a' -> state (ep_tcb a') = ESTABLISHED ->
      link_step (a, b) (a', b)
  | link_right a b b' : endpoint_step e2 hw2 isn2 (ep_sent a) b b' -> state (ep_tcb b') = ESTABLISHED ->
      link_step (a, b) (a, b').

(** What the end [b] has received in order, and what [a] still holds. *)
Definition received_from (b : endpoint) : list Z := ep_read b ++ concat (rcv_data (rcv (ep_tcb b))).
Definition held_by (a : endpoint) : list Z := in_flight (snd (ep_tcb a)) ++ concat (unsent (snd (ep_tcb a))).

Definition delivers_in_order (a b : endpoint) : Prop :=
  received_from b `prefix_of` ep_written a /\
  exists gone, ep_written a = gone ++ held_by a /\ gone `prefix_of` received_from b.
End Link.

(** ** The invariant *)

Section Proof.
Context {BC : BeCodec} {AU : AlignUp} {T : Type} {TM : TimerOps T}.
Abbreviation tcb := (@TcbData.tcb T).
Abbreviation endpoint := (@endpoint T).

(** The stream [ds] begins with [w]. *)
Definition agrees (ds : Z -> Z) (w : list Z) : Prop := w = range ds 0 (zlen w).

Lemma agrees_prefix ds w w' : w `prefix_of` w' -> agrees ds w' -> agrees ds w.
Proof.
  intros [p ->]. unfold agrees. rewrite zlen_app. pose proof (zlen_nonneg w). pose proof (zlen_nonneg p).
  rewrite <- range_app by lia. intros E. apply app_inj_1 in E as [E _]; [done|].
  pose proof (zlen_range ds 0 (zlen w) ltac:(lia)) as E'. unfold zlen in *. lia.
Qed.

Lemma agrees_app ds w p : agrees ds (w ++ p) -> agrees ds w /\ p = range ds (zlen w) (zlen p).
Proof.
  intros H. pose proof (agrees_prefix ds w (w ++ p) ltac:(by exists p) H) as Hw. split; [done|].
  unfold agrees in *. rewrite zlen_app, <- range_app in H by apply zlen_nonneg. rewrite <- Hw in H. by apply app_inv_head in H.
Qed.

Definition stream_of (w : list Z) (i : Z) : Z := nth (Z.to_nat i) w 0.

Lemma stream_bytes w : Forall is_byte w -> forall i, is_byte (stream_of w i).
Proof.
  intros H i. unfold stream_of. destruct (nth_in_or_default (Z.to_nat i) w 0) as [Hi| ->]; [|done].
  by apply (proj1 (List.Forall_forall _ _) H).
Qed.

Lemma agrees_stream_of w : agrees (stream_of w) w.
Proof.
  unfold agrees, range, zlen, stream_of. rewrite Nat2Z.id. apply list_eq. intros i.
  destruct (decide (i < length w)%nat) as [H|H].
  - rewrite list_lookup_fmap, lookup_seq_lt by done. cbn [fmap option_fmap option_map].
    rewrite Nat.add_0_l, Z.add_0_l, Nat2Z.id, nth_lookup. destruct (lookup_lt_is_Some_2 _ _ H) as [x ->]. done.
  - rewrite lookup_ge_None_2 by lia. symmetry. apply lookup_ge_None_2. rewrite length_map, length_seq. lia.
Qed.

(** The states of the two ends of a connection, with the peer's bounds. *)
Definition end_ok (bs br : tcp_seq) (ds dr : Z -> Z) (g : view) (a : endpoint) : Prop :=
  side bs br ds dr g (ep_tcb a) /\ ep_written a = range ds 0 (v_written g) /\ ep_read a = range dr 0 (v_read g) /\
  Forall (segment_in bs br ds g) (ep_sent a).

(** An end acknowledges what it has, and has only what was sent. *)
Definition follows (g h : view) : Prop := v_acked g <= v_next h /\ v_top h <= v_sent g.

Section Step.
Variable e : endian.
Variable hw : hw_features.
Variable get_isn : tcb -> Z -> tcp_seq.
Hypothesis Hhw : hw_ok hw.
Variable bs br : tcp_seq.
Variable ds dr : Z -> Z.
Hypothesis Hds : forall i, is_byte (ds i).
Abbreviation side := (@TcpSide.side BC T bs br ds dr).
Abbreviation moved := (@TcpPeer.moved BC T bs br ds dr).

(** The view after a step: writing and reading move their own counters. *)
Record progress (n z : Z) (g g' : view) : Prop := Progress {
  pg_acked : v_acked g' <= Z.max (v_acked g) n;
  pg_sent : v_sent g <= v_sent g';
  pg_next : v_next g <= v_next g';
  pg_top : v_top g' <= Z.max (v_top g) z }.

Lemma grows_progress a z n x g g' : a <= n -> z <= x -> grows a z g g' -> progress n x g g'.
Proof. intros Ha Hz []. constructor; lia. Qed.

Lemma segments_progress n z g g' ps : progress n z g g' ->
  Forall (segment_in bs br ds g) ps -> Forall (segment_in bs br ds g') ps.
Proof. intros [] F. eapply Forall_impl; [exact F|]. intros p. by apply (segment_in_mono bs br ds dr g). Qed.

(** An operation that neither writes nor reads. *)
Lemma moved_end a z n x g t t' w r s : 
  end_ok bs br ds dr g (Endpoint t w r s) -> moved a z g t' -> a <= n -> z <= x ->
  exists g', end_ok bs br ds dr g' (Endpoint t' w r s) /\ progress n x g g'.
Proof.
  intros (S & Hw & Hr & Hs) (g' & Hg & S') Ha Hz. cbn in *. pose proof (grows_progress a z n x g g' Ha Hz Hg) as Hp.
  exists g'. split; [|done]. destruct Hg. split_and!; cbn; [done|congruence|congruence|by eapply segments_progress].
Qed.

(** A packet of the peer is a segment for the handler. *)
Lemma segment_from_peer h p : segment_in br bs dr h p -> v_sent h < stream_max -> v_next h < stream_max ->
  exists off len a, from_peer bs br (tcp_hdr_read (bytes p)) off len a /\ off + len <= v_sent h /\ a <= v_next h /\
    zlen (take 20 (bytes p)) = data_offset (tcp_hdr_read (bytes p)) * 4 /\ bytes p = take 20 (bytes p) ++ range dr off len.
Proof.
  intros (off & len & a & H0 & Hl & He & Ha & Hq & Hk & Hp & Ho & Hz & Hd) Hs Hn. exists off, len, a.
  split_and!; [by constructor; try done; lia|done|lia| |].
  - rewrite Ho. unfold zlen in *. rewrite length_take. lia.
  - rewrite <- Hd. symmetry. apply take_drop.
Qed.

Lemma endpoint_step_ok g h net a a' :
  end_ok bs br ds dr g a -> Forall (segment_in br bs dr h) net -> 0 <= v_sent h < stream_max -> 0 <= v_next h < stream_max ->
  endpoint_step e hw get_isn net a a' -> state (ep_tcb a') = ESTABLISHED -> agrees ds (ep_written a') ->
  exists g', end_ok bs br ds dr g' a' /\ progress (v_next h) (v_sent h) g g'.
Proof.
  intros Hok Hnet Hs Hn Hstep Est Hag. destruct Hstep as [t w r s p b t' es Hp Hl E|t w r s d t' es E|now t w r s x p t' es E
    |now t w r s p t' es Hin E|now op t w r s t' es Hop E]; cbn in *.
  - destruct Hok as (S & Hw & Hr & Hps). cbn in *. pose proof (sd_acked _ _ _ _ _ _ S).
    apply agrees_app in Hag as [_ Hp']. rewrite Hw, zlen_range in Hp' by lia. pose proof (zlen_nonneg p).
    rewrite Hw, zlen_app, zlen_range in Hl by lia. rewrite Hp' in E.
    destruct (send_packet_side bs br ds dr g t (zlen p) S ltac:(done) Hl _ _ _ E) as [_ S'].
    exists (set_written (v_written g + zlen p) g). split; [|constructor; cbn; lia]. split_and!; cbn; try done.
    rewrite Hw, Hp', zlen_range, range_app by lia. done.
  - destruct Hok as (S & Hw & Hr & Hps). cbn in *. pose proof (ro_lo _ _ _ _ _ (sd_recv _ _ _ _ _ _ S)).
    pose proof (sd_read _ _ _ _ _ _ S).
    destruct (read_side bs br ds dr g t S _ _ _ E) as [-> S']. exists (set_read (v_next g) g).
    split; [|constructor; cbn; lia]. split_and!; cbn; try done.
    rewrite Hr. rewrite range_app by lia. f_equal. lia.
  - destruct Hok as (S & Hw & Hr & Hps). cbn in *.
    destruct (get_packet_side e hw Hhw now bs br ds dr Hds g t S _ _ _ E) as (n & Hn' & S' & x' & p' & [= <- <-] & Hp).
    assert (progress (v_next h) (v_sent h) g (set_sent n g)) as Hg by (constructor; cbn; lia).
    exists (set_sent n g). split; [|done]. split_and!; cbn; try done.
    apply Forall_app_2; [by eapply segments_progress|by constructor].
  - rewrite Forall_forall in Hnet. destruct (segment_from_peer h p (Hnet p Hin)) as (off & len & a & F & Ho & Ha & Hh & Eb); [lia|lia|].
    apply (moved_end a (off + len) _ _ g t); [done| |done|done]. rewrite Eb in E at 2.
    by apply (input_side e hw Hhw now bs br ds dr Hds _ off len a _ g t (proj1 Hok) F Hh () t' es E).
  - apply (moved_end 0 0 _ _ _ t); [done| |lia|lia].
    by apply (background_side e hw Hhw now bs br ds dr Hds get_isn op g t Hop (proj1 Hok) () t' es E).
Qed.
End Step.

Lemma written_grows e hw isn net a a' : endpoint_step e hw isn net a a' ->
  ep_written a `prefix_of` ep_written a' /\ (Forall is_byte (ep_written a) -> Forall is_byte (ep_written a')).
Proof.
  intros [t w r s p b t' es Hp Hl E| | | |]; cbn; split; try done.
  - by exists p.
  - intros H. by apply Forall_app_2.
Qed.

Lemma end_bounds bs br ds dr g a : end_ok bs br ds dr g a ->
  0 <= v_acked g <= v_sent g /\ v_sent g <= v_written g /\ v_written g < stream_max /\
  0 <= v_read g <= v_next g /\ v_next g < stream_max.
Proof.
  intros (S & _). pose proof (sd_acked _ _ _ _ _ _ S). pose proof (sd_sent _ _ _ _ _ _ S).
  pose proof (rest_flight ds (v_acked g) (v_written g) _ ltac:(lia) (sd_send _ _ _ _ _ _ S)).
  pose proof (ro_lo _ _ _ _ _ (sd_recv _ _ _ _ _ _ S)). pose proof (sd_read _ _ _ _ _ _ S).
  pose proof (top_next _ _ _ _ _ _ S). pose proof (sd_top_max _ _ _ _ _ _ S).
  pose proof (sd_written _ _ _ _ _ _ S). lia.
Qed.

Lemma end_opens bs br ds dr a : opens bs br a -> end_ok bs br ds dr (View 0 0 0 0 0 0) a.
Proof.
  destruct a as [t w r s]. intros [Es Ec Eu En (Ed & Eun & Eul) Er (Erd & Esz & Eo) Hf Hss Hw Hsc Hp (Hhw & Hhr & Hhs)].
  cbn in *. subst w r s. split_and!; try done. pose proof Hf as [_ F1 F2 _].
  constructor; cbn; rewrite ?Hp, ?Eu, ?Eo; unfold flight, in_flight; rewrite ?Ed; try done.
  - constructor; unfold flight, in_flight; rewrite ?Ed, ?Eun, ?Eul, ?Eu, ?En; try done.
    + by rewrite <- En.
    + unfold seq_diff. by rewrite Z.sub_diag.
  - rewrite <- En. symmetry. by apply seq_add_0.
  - rewrite Er in F2. constructor; rewrite ?Er, ?Erd, ?Eo; try done.
    + apply near_base.
    + apply seq_pos_base.
    + split; constructor.
  - intros x [H|H]; [done|]. by apply Exists_nil in H.
Qed.

(** A pair of ends that hold each other's stream. *)
Record linked (bA bB : tcp_seq) (dA dB : Z -> Z) (gA gB : view) (l : endpoint * endpoint) : Prop := Linked {
  lk_left : end_ok bA bB dA dB gA (fst l);
  lk_right : end_ok bB bA dB dA gB (Datatypes.snd l);
  lk_to : follows gA gB;
  lk_from : follows gB gA }.

Section Run.
Variable e1 e2 : endian.
Variable hw1 hw2 : hw_features.
Variable isn1 isn2 : tcb -> Z -> tcp_seq.
Hypothesis Hhw1 : hw_ok hw1.
Hypothesis Hhw2 : hw_ok hw2.
Abbreviation link_step := (link_step e1 e2 hw1 hw2 isn1 isn2).
Variable bA bB : tcp_seq.

Lemma link_bytes l l' : rtc link_step l l' ->
  Forall is_byte (ep_written (fst l)) -> Forall is_byte (ep_written (Datatypes.snd l)) ->
  Forall is_byte (ep_written (fst l')) /\ Forall is_byte (ep_written (Datatypes.snd l')).
Proof.
  induction 1 as [|l1 l2 l3 Hs _ IH]; [done|]. intros H1 H2.
  destruct Hs as [a a' b Hs _|a b b' Hs _]; apply written_grows in Hs as [_ Hs]; apply IH; cbn in *; auto.
Qed.

Lemma link_invariant l0 l : opens bA bB (fst l0) -> opens bB bA (Datatypes.snd l0) -> rtc link_step l0 l ->
  forall dA dB, (forall i, is_byte (dA i)) -> (forall i, is_byte (dB i)) ->
  agrees dA (ep_written (fst l)) -> agrees dB (ep_written (Datatypes.snd l)) ->
  exists gA gB, linked bA bB dA dB gA gB l.
Proof.
  intros H1 H2. revert l. apply (rtc_ind_r (fun l => forall dA dB, _ -> _ -> _ -> _ -> exists gA gB, linked bA bB dA dB gA gB l)).
  { intros dA dB _ _ _ _. exists (View 0 0 0 0 0 0), (View 0 0 0 0 0 0). constructor; [by apply end_opens|by apply end_opens|done|done]. }
  intros l l' _ Hs IH dA dB HA HB AA AB. destruct Hs as [a a' b Hs Es|a b b' Hs Es]; cbn in *.
  - pose proof (agrees_prefix _ _ _ (proj1 (written_grows _ _ _ _ _ _ Hs)) AA) as AA'.
    destruct (IH dA dB HA HB AA' AB) as (gA & gB & [L R [F1 F2] [F3 F4]]). cbn in *.
    pose proof (end_bounds _ _ _ _ _ _ R). pose proof R as (_ & _ & _ & Hnet).
    destruct (endpoint_step_ok e1 hw1 isn1 Hhw1 bA bB dA dB HA gA gB (ep_sent b) a a') as (gA' & L' & []); try done; try lia.
    exists gA', gB. constructor; cbn; try done; split; lia.
  - pose proof (agrees_prefix _ _ _ (proj1 (written_grows _ _ _ _ _ _ Hs)) AB) as AB'.
    destruct (IH dA dB HA HB AA AB') as (gA & gB & [L R [F1 F2] [F3 F4]]). cbn in *.
    pose proof (end_bounds _ _ _ _ _ _ L). pose proof L as (_ & _ & _ & Hnet).
    destruct (endpoint_step_ok e2 hw2 isn2 Hhw2 bB bA dB dA HB gB gA (ep_sent a) b b') as (gB' & R' & []); try done; try lia.
    exists gA, gB'. constructor; cbn; try done; split; lia.
Qed.

Lemma range_prefix (d : Z -> Z) n m : 0 <= n <= m -> range d 0 n `prefix_of` range d 0 m.
Proof. intros. exists (range d n (m - n)). replace m with (n + (m - n)) at 1 by lia. symmetry. by rewrite range_app by lia. Qed.

Lemma linked_delivers bs br ds dr g h a b :
  end_ok bs br ds dr g a -> end_ok br bs dr ds h b -> follows g h -> delivers_in_order a b.
Proof.
  intros HA HB [F1 F2]. pose proof (end_bounds _ _ _ _ _ _ HA). pose proof (end_bounds _ _ _ _ _ _ HB).
  destruct HA as (SA & Wa & _ & _), HB as (SB & _ & Rb & _). pose proof (top_next _ _ _ _ _ _ SB).
  assert (received_from b = range ds 0 (v_next h)) as Er.
  { unfold received_from. rewrite Rb, (ro_data _ _ _ _ _ (sd_recv _ _ _ _ _ _ SB)).
    rewrite range_app by lia. f_equal. lia. }
  assert (held_by a = range ds (v_acked g) (v_written g - v_acked g)) as Eh by apply (so_stream _ _ (sd_send _ _ _ _ _ _ SA)).
  split.
  - rewrite Er, Wa. apply range_prefix. lia.
  - exists (range ds 0 (v_acked g)). rewrite Er, Eh, Wa. split; [|apply range_prefix; lia].
    rewrite range_app by lia. f_equal. lia.
Qed.

(** C1. End to end: two connections that have just opened exchange segments over
    a network that may lose, repeat and reorder them, under any timing.  Whatever
    happens while both stay ESTABLISHED, what each user has been given, with what
    waits for it to read, is a prefix of what the other user has written; and an
    end has dropped from its queues only bytes the other end has received. *)
Theorem tcp_delivers a0 b0 a b :
  opens bA bB a0 -> opens bB bA b0 -> rtc link_step (a0, b0) (a, b) ->
  delivers_in_order a b /\ delivers_in_order b a.
Proof.
  intros HA HB Hrun. destruct (op_history _ _ _ HA) as (EA & _). destruct (op_history _ _ _ HB) as (EB & _).
  destruct (link_bytes _ _ Hrun) as [BA BB]; cbn; [by rewrite EA|by rewrite EB|]. cbn in BA, BB.
  destruct (link_invariant (a0, b0) (a, b) HA HB Hrun (stream_of (ep_written a)) (stream_of (ep_written b)))
    as (gA & gB & [L R F1 F2]); try apply agrees_stream_of; try by apply stream_bytes.
  split; by eapply linked_delivers.
Qed.
End Run.
End Proof.

(** ** A run *)

Module Ex.
Import Core.Impl TcbState.Ex.

Abbreviation tcb := (@TcbData.tcb (option Z)).

(** The two ends of a connection before its handshake. *)
Definition server0 : tcb := tcb_init junk_snd junk_rcv 0 167772161 167772162 80 49152.
Definition client0 : tcb := tcb_init junk_snd junk_rcv 0 167772162 167772161 49152 80.

Definition step (now : Z) (op : tcb_op) (t : tcb) : tcb := match run now op t with Some (t', _) => t' | None => t end.

(** The next packet of a connection, and the control block without it. *)
Definition poll (now : Z) (t : tcb) : list Z * tcb :=
  match get_packet BigEndian hw_features_default now t with
  | Some (Some (_, p), t', _) => (bytes p, t')
  | _ => ([], t)
  end.

Definition handshake : tcb * tcb :=
  let '(syn, c) := poll 1 (step 1 OpConnect client0) in
  let '(synack, s) := poll 2 (step 2 (OpListen (tcp_hdr_read syn) syn) server0) in
  let '(ack, c) := poll 3 (step 3 (OpSynSent (tcp_hdr_read synack) synack) c) in
  (c, step 4 (OpOther (tcp_hdr_read ack) ack) s).

Definition start (t : tcb) : endpoint := Endpoint t [] [] [].
Definition client : endpoint := start (fst handshake).
Definition server : endpoint := start (Datatypes.snd handshake).

Abbreviation endpoint := (@TcpLink.endpoint (option Z)).
Abbreviation estep := (endpoint_step BigEndian hw_features_default isn).

(** What an end does, as a function: nothing when the operation fails. *)
Definition write (p : list Z) (a : endpoint) : endpoint :=
  match send_packet p (ep_tcb a) with
  | Some (inr _, t', _) => Endpoint t' (ep_written a ++ p) (ep_read a) (ep_sent a)
  | _ => a
  end.
Definition transmit (now : Z) (a : endpoint) : endpoint :=
  match get_packet BigEndian hw_features_default now (ep_tcb a) with
  | Some (Some (_, p), t', _) => Endpoint t' (ep_written a) (ep_read a) (ep_sent a ++ [p])
  | _ => a
  end.
Definition arrive (now : Z) (i : nat) (net : list packet) (a : endpoint) : endpoint :=
  match net !! i with
  | Some p =>
      match input_handle_other_state BigEndian hw_features_default now (tcp_hdr_read (bytes p)) (bytes p) (ep_tcb a) with
      | Some (_, t', _) => Endpoint t' (ep_written a) (ep_read a) (ep_sent a)
      | None => a
      end
  | None => a
  end.
Definition take_data (a : endpoint) : endpoint :=
  match Tcb.read (ep_tcb a) with
  | Some (d, t', _) => Endpoint t' (ep_written a) (ep_read a ++ d) (ep_sent a)
  | None => a
  end.

Lemma user_write_step net p a : Forall is_byte p -> zlen (ep_written a ++ p) < stream_max ->
  write p a = a \/ estep net a (write p a).
Proof.
  intros H1 H2. unfold write. destruct a as [t w r s]. cbn [ep_tcb ep_written ep_read ep_sent] in *.
  destruct (send_packet p t) as [[[[x|b] t'] es]|] eqn:E; [by left| |by left]. right. by econstructor.
Qed.

Lemma poll_step now net a : transmit now a = a \/ estep net a (transmit now a).
Proof.
  unfold transmit. destruct a as [t w r s]. cbn [ep_tcb ep_written ep_read ep_sent].
  destruct (get_packet _ _ now t) as [[[[[x p]|] t'] es]|] eqn:E; [|by left|by left]. right. by econstructor.
Qed.

Lemma arrive_in_step now i net a : arrive now i net a = a \/ estep net a (arrive now i net a).
Proof.
  unfold arrive. destruct a as [t w r s]. cbn [ep_tcb ep_written ep_read ep_sent].
  destruct (net !! i) as [p|] eqn:Ep; [|by left].
  destruct (input_handle_other_state _ _ _ _ _ _) as [[[[] t1] es1]|] eqn:E1; [|by left].
  right. eapply step_deliver; [|exact E1]. by eapply list_elem_of_lookup_2.
Qed.

Lemma take_data_step net a : take_data a = a \/ estep net a (take_data a).
Proof.
  unfold take_data. destruct a as [t w r s]. cbn [ep_tcb ep_written ep_read ep_sent].
  destruct (Tcb.read t) as [[[d t'] es]|] eqn:E; [|by left]. right. by econstructor.
Qed.

Definition system := link_step BigEndian BigEndian hw_features_default hw_features_default isn isn.

Lemma left_run a a' b l : (a' = a \/ estep (ep_sent b) a a') -> state (ep_tcb a') = ESTABLISHED ->
  rtc system (a', b) l -> rtc system (a, b) l.
Proof. intros [->|H] Es Hr; [done|]. eapply rtc_l; [by apply link_left|done]. Qed.

Lemma right_run a b b' l : (b' = b \/ estep (ep_sent a) b b') -> state (ep_tcb b') = ESTABLISHED ->
  rtc system (a, b') l -> rtc system (a, b) l.
Proof. intros [->|H] Es Hr; [done|]. eapply rtc_l; [by apply link_right|done]. Qed.

(** The client writes twice and sends two segments; the second arrives first, the
    first arrives twice; the server reads, and its acknowledgment arrives. *)
Definition client1 : endpoint := transmit 6 (write [33] (transmit 6 (write [104; 105] client))).
Definition server1 : endpoint := take_data (arrive 9 0 (ep_sent client1) (arrive 8 0 (ep_sent client1) (arrive 7 1 (ep_sent client1) server))).
Definition server2 : endpoint := transmit 10 server1.
Definition client2 : endpoint := arrive 11 0 (ep_sent server2) client1.

Lemma run_steps : rtc system (client, server) (client2, server2).
Proof.
  apply (left_run _ (write [104; 105] client)); [apply user_write_step; [by repeat constructor|by vm_compute]|by vm_compute|].
  apply (left_run _ (transmit 6 (write [104; 105] client))); [apply poll_step|by vm_compute|].
  apply (left_run _ (write [33] (transmit 6 (write [104; 105] client))));
    [apply user_write_step; [by repeat constructor|by vm_compute]|by vm_compute|].
  apply (left_run _ client1); [apply poll_step|by vm_compute|].
  apply (right_run _ _ (arrive 7 1 (ep_sent client1) server)); [apply arrive_in_step|by vm_compute|].
  apply (right_run _ _ (arrive 8 0 (ep_sent client1) (arrive 7 1 (ep_sent client1) server))); [apply arrive_in_step|by vm_compute|].
  apply (right_run _ _ (arrive 9 0 (ep_sent client1) (arrive 8 0 (ep_sent client1) (arrive 7 1 (ep_sent client1) server))));
    [apply arrive_in_step|by vm_compute|].
  apply (right_run _ _ server1); [apply take_data_step|by vm_compute|].
  apply (right_run _ _ server2); [apply poll_step|by vm_compute|].
  apply (left_run _ client2); [apply arrive_in_step|by vm_compute|]. apply rtc_refl.
Qed.

Lemma client_opens : opens (make_seq 251) (make_seq 501) client.
Proof. repeat split; by vm_compute. Qed.

Lemma server_opens : opens (make_seq 501) (make_seq 251) server.
Proof. repeat split; by vm_compute. Qed.
End Ex.

Import Core.Impl.

(** A run in which the segments are reordered and one is repeated: the server
    reads what the client wrote, and nothing is left in flight. *)
Lemma tcp_delivers_witness :
  ep_written Ex.client2 = [104; 105; 33] /\ ep_read Ex.server2 = [104; 105; 33] /\ held_by Ex.client2 = [] /\
  delivers_in_order Ex.client2 Ex.server2 /\ delivers_in_order Ex.server2 Ex.client2.
Proof.
  split; [vm_compute; reflexivity|]. split; [vm_compute; reflexivity|]. split; [vm_compute; reflexivity|].
  apply (tcp_delivers BigEndian BigEndian hw_features_default hw_features_default TcbState.Ex.isn TcbState.Ex.isn
    ltac:(repeat split; by vm_compute) ltac:(repeat split; by vm_compute) (make_seq 251) (make_seq 501) Ex.client Ex.server).
  - exact Ex.client_opens.
  - exact Ex.server_opens.
  - exact Ex.run_steps.
Defined.
