(* ===== verification/Dhcp.v ===== *)
(** * The DHCP client: src/network/dhcp.cc, dhcp.hh

    [net::dhcp::impl]: a packet filter in front of [ipv4] that discovers and
    requests a lease.  It runs on shard 0; a packet that arrives on another
    shard is handed to it there, as [process_packet] later. *)

From S2P Require Import Prelude Core ByteOrder Net Inet Ipv4 IpHeader Udp.
From stdpp Require Import base numbers option list.

#[local] Open Scope Z_scope.

(** [enum class state] *)
Inductive dhcp_state := NONE | DISCOVER | REQUEST | DONE | FAIL.

(** [enum class opt_type] and [enum class msg_type]: the values used *)
Definition opt_subnet_mask : Z := 1.
Definition opt_router : Z := 3.
Definition opt_domain_name_servers : Z := 6.
Definition opt_interface_mtu : Z := 26.
Definition opt_broadcast_address : Z := 28.
Definition opt_requested_address : Z := 50.
Definition opt_lease_time : Z := 51.
Definition opt_message_type : Z := 53.
Definition opt_dhcp_server : Z := 54.
Definition opt_parameter_request_list : Z := 55.
Definition opt_renewal_time : Z := 58.
Definition opt_rebinding_time : Z := 59.
Definition opt_end : Z := 255.

Definition msg_discover : Z := 1.
Definition msg_offer : Z := 2.
Definition msg_request : Z := 3.
Definition msg_ack : Z := 5.
Definition msg_nak : Z := 6.

Definition client_port : Z := 68.
Definition server_port : Z := 67.
Definition options_magic : list Z := [99; 130; 83; 99].
Definition requested_options : list Z :=
  [opt_subnet_mask; opt_router; opt_domain_name_servers; opt_interface_mtu; opt_broadcast_address].

(** [struct dhcp::lease] *)
Record lease := Lease {
  l_ip : Z; l_netmask : Z; l_broadcast : Z; l_gateway : Z; l_dhcp_server : Z; l_name_servers : list Z;
  l_lease_time : Z; l_renew_time : Z; l_rebind_time : Z; l_mtu : Z }.

(** [struct ip_info] *)
Record ip_info := IpInfo { info_lease : lease; info_type : Z }.

(** The three durations of a new [ip_info] are not initialised. *)
Definition ip_info_init (ip t1 t2 t3 : Z) : ip_info := IpInfo (Lease ip 0 0 0 0 [] t1 t2 t3 0) 0.

(** [set(type, ip)] *)
Definition set_address (t ip : Z) (l : lease) : lease :=
  let '(Lease i n b g d ns t1 t2 t3 m) := l in
  if t =? opt_subnet_mask then Lease i ip b g d ns t1 t2 t3 m
  else if t =? opt_router then Lease i n b ip d ns t1 t2 t3 m
  else if t =? opt_broadcast_address then Lease i n ip g d ns t1 t2 t3 m
  else if t =? opt_dhcp_server then Lease i n b g ip ns t1 t2 t3 m
  else if t =? opt_domain_name_servers then Lease i n b g d (ns ++ [ip]) t1 t2 t3 m
  else l.

(** [set(type, seconds)] *)
Definition set_seconds (t s : Z) (l : lease) : lease :=
  let '(Lease i n b g d ns t1 t2 t3 m) := l in
  if t =? opt_lease_time then Lease i n b g d ns s t2 t3 m
  else if t =? opt_renewal_time then Lease i n b g d ns t1 s t3 m
  else if t =? opt_rebinding_time then Lease i n b g d ns t1 t2 s m
  else l.

Definition set_mtu (v : Z) (l : lease) : lease :=
  let '(Lease i n b g d ns t1 t2 t3 _) := l in Lease i n b g d ns t1 t2 t3 v.

Section Dhcp.
Variable e : endian.

(** The switch of [parse_options]: the option of type [t] at [off]. *)
Definition parse_option (p : list Z) (off t : Z) (i : ip_info) : ip_info :=
  if (t =? opt_subnet_mask) || (t =? opt_router) || (t =? opt_broadcast_address) || (t =? opt_dhcp_server) ||
     (t =? opt_domain_name_servers) then
    match header_at off 6 p with
    | Some o => IpInfo (set_address t (fld e 4 2 o) (info_lease i)) (info_type i)
    | None => i
    end
  else if t =? opt_message_type then
    match header_at off 3 p with
    | Some o => IpInfo (info_lease i) (nth 2 o 0)
    | None => i
    end
  else if t =? opt_interface_mtu then
    match header_at off 4 p with
    | Some o => IpInfo (set_mtu (fld e 2 2 o) (info_lease i)) (info_type i)
    | None => i
    end
  else if (t =? opt_lease_time) || (t =? opt_renewal_time) || (t =? opt_rebinding_time) then
    match header_at off 6 p with
    | Some o => IpInfo (set_seconds t (fld e 4 2 o) (info_lease i)) (info_type i)
    | None => i
    end
  else i.

(** [parse_options(p, off)]; [None] is running out of fuel. *)
Fixpoint parse_options (fuel : nat) (p : list Z) (off : Z) (i : ip_info) : option ip_info :=
  match fuel with
  | O => None
  | S fuel =>
      match header_at off 1 p with
      | None => Some i
      | Some m =>
          if nth 0 m 0 =? opt_end then Some i
          else
            match header_at off 2 p with
            | None => Some i
            | Some o => parse_options fuel p (off + (2 + nth 1 o 0)) (parse_option p off (nth 0 o 0) i)
            end
      end
  end.

(** [struct dhcp_header] with its defaults, in network byte order, and the magic. *)
Definition dhcp_payload (xid : Z) (mac : mac) : list Z :=
  [1; 1; 6; 0] ++ st e 4 xid ++ st e 2 0 ++ st e 2 0 ++ st e 4 0 ++ st e 4 0 ++ st e 4 0 ++ st e 4 0 ++
  (mac ++ replicate 10 0) ++ replicate 64 0 ++ replicate 128 0 ++ options_magic.
Definition dhcp_payload_size : Z := 240.

Definition type_option (t : Z) : list Z := [opt_message_type; 1; t].
Definition ip_option (t ip : Z) : list Z := [t; 4] ++ st e 4 ip.
Definition requested_option : list Z := [opt_parameter_request_list; 5] ++ requested_options.

(** The client: its state, the transaction, whether the timers are armed and the
    address that the retry callback captured. *)
Record dhcp := Dhcp { d_state : dhcp_state; d_xid : Z; d_timer : bool; d_retry : bool; d_retry_ip : Z }.

Inductive dhcp_event :=
  | DhcpSend (dst : ipv4_addr) (p : list Z)     (* [_sock.send] *)
  | DhcpResult (l : option lease).              (* [_result.set_value] *)

Variable hw_mac : mac.

(** [send_discover(ip)]; [xid] is drawn by the caller. *)
Definition send_discover (xid ip : Z) (s : dhcp) : dhcp * list dhcp_event :=
  (Dhcp DISCOVER xid (d_timer s) (d_retry s) (d_retry_ip s),
   [DhcpSend (Ipv4Addr 4294967295 server_port)
      (dhcp_payload xid hw_mac ++ type_option msg_discover ++ ip_option opt_requested_address ip ++
       requested_option ++ [opt_end])]).

(** [send_request(info)] *)
Definition send_request (l : lease) (s : dhcp) : dhcp * list dhcp_event :=
  (Dhcp REQUEST (d_xid s) (d_timer s) (d_retry s) (d_retry_ip s),
   [DhcpSend (Ipv4Addr 4294967295 server_port)
      (dhcp_payload (d_xid s) hw_mac ++ type_option msg_request ++ ip_option opt_dhcp_server (l_dhcp_server l) ++
       ip_option opt_requested_address (l_ip l) ++ requested_option ++ [opt_end])]).

Definition set_dstate (v : dhcp_state) (s : dhcp) : dhcp := Dhcp v (d_xid s) (d_timer s) (d_retry s) (d_retry_ip s).
Definition cancel_retry (s : dhcp) : dhcp := Dhcp (d_state s) (d_xid s) (d_timer s) false (d_retry_ip s).

(** [process_packet(p, dhp, opt_off)], the payload being at [off]; [junk] are the
    uninitialised durations and [xid] the number that a new discover draws. *)
Definition process_packet (xid : Z) (junk : Z * Z * Z) (p : list Z) (off opt_off : Z) (s : dhcp) : option (dhcp * list dhcp_event) :=
  let s := cancel_retry s in
  let yiaddr := fld e 4 16 (slice off dhcp_payload_size p) in
  let '(t1, t2, t3) := junk in
  info ← parse_options (S (length p)) p opt_off (ip_info_init yiaddr t1 t2 t3);
  Some (match d_state s with
        | DISCOVER => if info_type info =? msg_offer then send_request (info_lease info) s else (s, [])
        | REQUEST =>
            if info_type info =? msg_nak then send_discover xid 0 (set_dstate NONE s)
            else if info_type info =? msg_ack then (set_dstate DONE s, [DhcpResult (Some (info_lease info))])
            else (s, [])
        | _ => (s, [])
        end).

(** The tests of [handle(p, iph, from, handled)]: the offsets of the payload and
    the options when the packet is for the client. *)
Definition is_reply (p : list Z) (h : ip_hdr) (s : dhcp) : option (Z * Z) :=
  if (match d_state s with NONE => true | _ => false end) || (zlen p <? dhcp_payload_size) then None
  else
    let ipl := ihl h * 4 in
    let opt_off := ipl + udp_hdr_size + dhcp_payload_size in
    match header_at ipl udp_hdr_size p, header_at (ipl + udp_hdr_size) dhcp_payload_size p with
    | Some u, Some d =>
        if negb (ip_proto h =? ip_proto_udp) || negb (udp_dst_port (udp_hdr_read e u) =? client_port) ||
           (ip_len h <? opt_off + 1) || negb (bool_decide (slice 236 4 d = options_magic)) then None
        else Some (ipl + udp_hdr_size, opt_off)
    | _, _ => None
    end.

(** [handle]: whether the packet was handled. *)
Definition handle (xid : Z) (junk : Z * Z * Z) (p : list Z) (h : ip_hdr) (s : dhcp) : option (bool * dhcp * list dhcp_event) :=
  match is_reply p h s with
  | None => Some (false, s, [])
  | Some (off, opt_off) => '(s, es) ← process_packet xid junk p off opt_off s; Some (true, s, es)
  end.

(** [run(l, timeout)] *)
Definition run (xid ip : Z) (timeout : Z) (s : dhcp) : dhcp * list dhcp_event :=
  let '(s, es) := send_discover xid ip (set_dstate NONE s) in
  (Dhcp (d_state s) (d_xid s) (d_timer s || negb (timeout =? 0)) true ip, es).

(** The callbacks of [_timer] and [_retry_timer]. *)
Definition timeout_expired (s : dhcp) : dhcp * list dhcp_event :=
  (Dhcp FAIL (d_xid s) false false (d_retry_ip s), [DhcpResult None]).
Definition retry_expired (xid : Z) (s : dhcp) : dhcp * list dhcp_event := send_discover xid (d_retry_ip s) s.

(** [impl(stack)] *)
Definition dhcp_init : dhcp := Dhcp NONE 0 false false 0.
End Dhcp.
