(* ===== verification/DhcpSpec.v ===== *)
(** * What the DHCP client promises

    Options are read as RFC 2132 lays them out, whatever their order; the client
    obtains the lease that the server acknowledges; and its caller is answered
    exactly once, unless the timeout expires after that. *)

From S2P Require Import Prelude Core ByteOrder Net Inet Ipv4 IpHeader Udp Dhcp.
From stdpp Require Import base numbers option list relations.

#[local] Open Scope Z_scope.

(** ** Options *)

Record dhcp_option := DhcpOption { o_type : Z; o_data : list Z }.

Definition encode (o : dhcp_option) : list Z := o_type o :: zlen (o_data o) :: o_data o.
Definition encode_all (os : list dhcp_option) : list Z := concat (map encode os).

Definition is_address (t : Z) : bool :=
  (t =? opt_subnet_mask) || (t =? opt_router) || (t =? opt_broadcast_address) || (t =? opt_dhcp_server) ||
  (t =? opt_domain_name_servers).
Definition is_duration (t : Z) : bool := (t =? opt_lease_time) || (t =? opt_renewal_time) || (t =? opt_rebinding_time).

(** The length of the data of an option, as RFC 2132 gives it. *)
Definition data_len_ok (t n : Z) : bool :=
  if (t =? opt_router) || (t =? opt_domain_name_servers) then (4 <=? n) && (n mod 4 =? 0)
  else if is_address t || is_duration t then n =? 4
  else if t =? opt_message_type then n =? 1
  else if t =? opt_interface_mtu then n =? 2
  else true.

(** An option with a length: neither PAD (0) nor END (255). *)
Record option_ok (o : dhcp_option) : Prop := OptionOk {
  oo_type : 0 < o_type o < 255;
  oo_data_len : data_len_ok (o_type o) (zlen (o_data o)) = true;
  oo_len : zlen (o_data o) < 256;
  oo_data : Forall is_byte (o_data o) }.

(** *** What a list of options says *)

(** The data of the option of type [t]. *)
Definition said (t : Z) (os : list dhcp_option) : option (list Z) :=
  o_data <$> List.find (fun o => o_type o =? t) os.

(** Four bytes for each address. *)
Fixpoint address_list (l : list Z) : list Z :=
  match l with
  | a :: b :: c :: d :: l => be_val [a; b; c; d] :: address_list l
  | _ => []
  end.

Definition value_said (t : Z) (os : list dhcp_option) (d : Z) : Z := default d (be_val <$> said t os).
Definition addresses_said (t : Z) (os : list dhcp_option) : list Z := from_option address_list [] (said t os).

(** The client's record of the options, over what it held: values as they are, of
    the routers the one that the server prefers, and of its list of name servers the
    first only. *)
Definition overlay (i : ip_info) (os : list dhcp_option) : ip_info :=
  let l := info_lease i in
  IpInfo (Lease (l_ip l) (value_said opt_subnet_mask os (l_netmask l)) (value_said opt_broadcast_address os (l_broadcast l))
                (hd (l_gateway l) (addresses_said opt_router os)) (value_said opt_dhcp_server os (l_dhcp_server l))
                (l_name_servers l ++ take 1 (addresses_said opt_domain_name_servers os))
                (value_said opt_lease_time os (l_lease_time l)) (value_said opt_renewal_time os (l_renew_time l))
                (value_said opt_rebinding_time os (l_rebind_time l)) (value_said opt_interface_mtu os (l_mtu l)))
         (value_said opt_message_type os (info_type i)).

(** *** How the client reads it *)

Definition known_options : list Z :=
  [opt_subnet_mask; opt_router; opt_broadcast_address; opt_dhcp_server; opt_domain_name_servers;
   opt_lease_time; opt_renewal_time; opt_rebinding_time; opt_message_type; opt_interface_mtu].

Lemma option_cases t : t ∈ known_options \/ forall c, c ∈ known_options -> (t =? c) = false.
Proof. destruct (decide (t ∈ known_options)) as [|Hn]; [by left|]. right. intros c Hc. apply Z.eqb_neq. by intros ->. Qed.

(** The least length that the client looks at. *)
Definition data_min (t : Z) : Z :=
  if is_address t || is_duration t then 4 else if t =? opt_message_type then 1 else if t =? opt_interface_mtu then 2 else 0.

Lemma option_ok_min o : option_ok o -> data_min (o_type o) <= zlen (o_data o) < 256.
Proof.
  intros [_ Hl Hn _]. pose proof (zlen_nonneg (o_data o)). split; [|done]. unfold data_len_ok, data_min in *.
  destruct (option_cases (o_type o)) as [Hk|Hk].
  - repeat (apply elem_of_cons in Hk as [Hk|Hk]; [rewrite Hk in *; cbn in Hl |- *; b2p; lia|]). by apply not_elem_of_nil in Hk.
  - unfold is_address, is_duration. rewrite !Hk by (clear; unfold known_options; set_solver). cbn. lia.
Qed.

(** One option, the client's way: the first bytes of its data. *)
Definition option_read (i : ip_info) (o : dhcp_option) : ip_info :=
  let v n := be_val (take n (o_data o)) in
  let l := info_lease i in
  if is_address (o_type o) then IpInfo (set_address (o_type o) (v 4%nat) l) (info_type i)
  else if o_type o =? opt_message_type then IpInfo l (v 1%nat)
  else if o_type o =? opt_interface_mtu then IpInfo (set_mtu (v 2%nat) l) (info_type i)
  else if is_duration (o_type o) then IpInfo (set_seconds (o_type o) (v 4%nat) l) (info_type i)
  else i.

Lemma said_cons t o os : said t (o :: os) = if o_type o =? t then Some (o_data o) else said t os.
Proof. unfold said. cbn [List.find]. by destruct (_ =? _). Qed.

Lemma said_none t os : t ∉ map o_type os -> said t os = None.
Proof.
  induction os as [|o os IH]; [done|]. cbn [map]. rewrite elem_of_cons. intros Hn. rewrite said_cons.
  destruct (Z.eqb_spec (o_type o) t) as [E|]; [|apply IH; tauto]. exfalso. apply Hn. by left.
Qed.

Lemma take_whole n (l : list Z) : zlen l = Z.of_nat n -> take n l = l.
Proof. intros H. apply take_ge. unfold zlen in H. lia. Qed.

Lemma address_list_first (l : list Z) : 4 <= zlen l -> exists r, address_list l = be_val (take 4 l) :: r.
Proof. intros H. do 4 (destruct l as [|? l]; [unfold zlen in H; cbn in H; lia|]). by eexists. Qed.

Lemma overlay_nil i : overlay i [] = i.
Proof. destruct i as [[] ty]. unfold overlay. cbn. by rewrite app_nil_r. Qed.

Lemma overlay_cons i o os : option_ok o -> o_type o ∉ map o_type os -> overlay (option_read i o) os = overlay i (o :: os).
Proof.
  intros Ho Hn%said_none. destruct i as [[ip n b g d ns t1 t2 t3 m] ty].
  unfold overlay, value_said, addresses_said. rewrite !said_cons. pose proof (oo_data_len _ Ho) as Hl. pose proof (option_ok_min _ Ho) as Hm.
  destruct o as [t data]. cbn [o_type o_data] in *. unfold option_read. cbn [o_type o_data].
  destruct (option_cases t) as [Hk|Hk].
  2:{ unfold is_address, is_duration. rewrite !Hk by (clear; unfold known_options; set_solver). done. }
  unfold known_options in Hk.
  repeat (apply elem_of_cons in Hk as [->|Hk]; [rewrite Hn; cbn -[said take address_list be_val] in Hl |- *; b2p;
    first [by rewrite (take_whole 4 data) by lia|by rewrite (take_whole 1 data) by lia|by rewrite (take_whole 2 data) by lia|
      destruct (address_list_first data) as [r ->]; [lia|cbn [hd take app]; by rewrite ?app_nil_r]]|]).
  by apply not_elem_of_nil in Hk.
Qed.

(** The client's way of reading the options, one after the other, is what they say. *)
Lemma options_read os : Forall option_ok os -> NoDup (map o_type os) -> forall i, fold_left option_read os i = overlay i os.
Proof.
  induction 1 as [|o os Ho _ IH]; intros Hd i; [by rewrite overlay_nil|]. cbn [map] in Hd. apply NoDup_cons in Hd as (Hn & Hd).
  cbn [fold_left]. by rewrite IH, overlay_cons.
Qed.

Lemma header_at_short off n p : zlen p < off + n -> header_at off n p = None.
Proof. intros H. unfold header_at. by destruct (Z.ltb_spec (zlen p) (off + n)); [|lia]. Qed.

Section Spec.
Variable e : endian.

(** A packed field is in network byte order on every host. *)
Lemma fld_be n a b data rest : scalar_width n -> (n <= length data)%nat -> Forall is_byte data ->
  fld e n 2 (take (2 + n) (a :: b :: data ++ rest)) = be_val (take n data).
Proof.
  intros Hw Hl Hb. unfold fld, slice. rewrite Nat2Z.id. cbn [Nat.add take drop Z.to_nat Pos.to_nat Pos.iter_op].
  change (drop (Z.to_nat 2) (a :: b :: take n (data ++ rest))) with (take n (data ++ rest)).
  rewrite take_take, Nat.min_id, take_app_le by lia.
  assert (length (take n data) = n) as El by (rewrite length_take; lia).
  rewrite <- El at 1. apply ntoh_host_load; [by rewrite El|by apply Forall_take].
Qed.

Lemma parse_option_encode pre o rest i : option_ok o ->
  parse_option e (pre ++ encode o ++ rest) (zlen pre) (o_type o) i = option_read i o.
Proof.
  intros Ho. pose proof (oo_data _ Ho) as Hb. pose proof (zlen_nonneg rest) as Hr. apply option_ok_min in Ho as Hl. unfold parse_option, option_read. unfold data_min, is_duration in Hl. fold (is_address (o_type o)).
  assert (forall n, 0 <= n <= zlen (o_data o) -> header_at (zlen pre) (2 + n) (pre ++ encode o ++ rest) =
    Some (take (2 + Z.to_nat n) (o_type o :: zlen (o_data o) :: o_data o ++ rest))) as Hh.
  { intros n Hn. rewrite header_at_app; [by rewrite Z2Nat.inj_add by lia|].
    unfold encode. cbn [app]. rewrite !zlen_cons, zlen_app. lia. }
  destruct (is_address (o_type o)) eqn:Ea; cbn [orb] in Hl.
  { rewrite (Hh 4 : 0 <= 4 <= _ -> header_at _ 6 _ = _) by lia. change (Z.to_nat 4) with 4%nat.
    rewrite (fld_be 4) by (done || (unfold zlen in Hl; lia) || (right; right; left; done)). done. }
  destruct (o_type o =? opt_message_type) eqn:Em; cbn [orb] in Hl.
  { destruct (_ || _)%bool in Hl.
    all: destruct (o_data o) as [|d data] eqn:Ed; [unfold zlen in Hl; cbn in Hl; lia|].
    all: rewrite (Hh 1 : 0 <= 1 <= _ -> header_at _ 3 _ = _) by (rewrite zlen_cons; pose proof (zlen_nonneg data); lia).
    all: cbn; f_equal; unfold be_val, be_val_acc; lia. }
  destruct (o_type o =? opt_interface_mtu) eqn:Emt.
  { destruct (_ || _)%bool in Hl.
    all: rewrite (Hh 2 : 0 <= 2 <= _ -> header_at _ 4 _ = _) by lia; change (Z.to_nat 2) with 2%nat.
    all: rewrite (fld_be 2) by (done || (unfold zlen in Hl; lia) || (right; left; done)); done. }
  fold (is_duration (o_type o)) in *. destruct (is_duration (o_type o)); [|done].
  rewrite (Hh 4 : 0 <= 4 <= _ -> header_at _ 6 _ = _) by lia. change (Z.to_nat 4) with 4%nat.
  rewrite (fld_be 4) by (done || (unfold zlen in Hl; lia) || (right; right; left; done)). done.
Qed.

(** The options of a message, up to the end mark. *)
Lemma parse_options_encode os : forall pre rest i fuel,
  Forall option_ok os -> (length os < fuel)%nat ->
  parse_options e fuel (pre ++ encode_all os ++ opt_end :: rest) (zlen pre) i = Some (fold_left option_read os i).
Proof.
  induction os as [|o os IH]; intros pre rest i [|fuel] Hok Hf; cbn [length] in Hf; try lia; cbn [parse_options].
  - rewrite header_at_app by (unfold encode_all; cbn [map concat app]; rewrite zlen_cons; pose proof (zlen_nonneg rest); lia). done.
  - apply Forall_cons in Hok as [Ho Hok].
    assert (encode_all (o :: os) ++ opt_end :: rest = encode o ++ encode_all os ++ opt_end :: rest) as ->
      by (unfold encode_all; cbn [map concat]; by rewrite <- app_assoc).
    set (tail := encode_all os ++ opt_end :: rest) in *. pose proof (zlen_nonneg tail). pose proof (zlen_nonneg (o_data o)).
    assert (2 <= zlen (encode o ++ tail)) by (unfold encode; cbn [app]; rewrite !zlen_cons, zlen_app; lia).
    assert (header_at (zlen pre) 1 (pre ++ encode o ++ tail) = Some [o_type o]) as -> by (rewrite header_at_app by lia; done).
    assert (header_at (zlen pre) 2 (pre ++ encode o ++ tail) = Some [o_type o; zlen (o_data o)]) as ->
      by (rewrite header_at_app by lia; done).
    cbn [nth].
    pose proof (oo_type _ Ho) as Ht. destruct (Z.eqb_spec (o_type o) opt_end) as [E|_]; [unfold opt_end in E; lia|].
    rewrite (parse_option_encode pre o tail i Ho).
    replace (zlen pre + (2 + zlen (o_data o))) with (zlen (pre ++ encode o)) by (rewrite zlen_app; unfold encode; rewrite !zlen_cons; lia).
    rewrite app_assoc. cbn [fold_left]. apply IH; [done|lia].
Qed.

(** Reading the options of any packet ends: every round moves on by at least
    the two bytes of an option, so the length of the packet is enough fuel. *)
Theorem dhcp_options_terminate p off i fuel : 0 <= off -> Forall is_byte p -> (length p < fuel)%nat ->
  is_Some (parse_options e fuel p off i).
Proof.
  intros Ho Hb Hf. assert (zlen p < off + Z.of_nat fuel /\ (0 < fuel)%nat) as [H1 H2] by (unfold zlen; lia). clear Hf.
  revert off i Ho H1 H2. induction fuel as [|fuel IH]; intros off i Ho H1 H2; [lia|]. cbn [parse_options].
  destruct (header_at off 1 p) as [m|]; [|done]. destruct (_ =? _); [done|].
  destruct (header_at off 2 p) as [o|] eqn:E; [|done]. unfold header_at in E.
  destruct (Z.ltb_spec (zlen p) (off + 2)); [done|]. injection E as <-.
  assert (0 <= nth 1 (slice off 2 p) 0).
  { destruct (nth_in_or_default 1 (slice off 2 p) 0) as [Hi| ->]; [|done].
    apply (proj1 (List.Forall_forall _ _) (Forall_take _ _ _ (Forall_drop _ _ _ Hb))) in Hi. by destruct Hi. }
  apply IH; lia.
Qed.

Lemma dhcp_options_parse os pre rest i :
  Forall option_ok os ->
  parse_options e (S (length (pre ++ encode_all os ++ opt_end :: rest))) (pre ++ encode_all os ++ opt_end :: rest) (zlen pre) i =
  Some (fold_left option_read os i).
Proof.
  intros H. apply parse_options_encode; [done|]. rewrite !length_app. cbn [length].
  assert (length os <= length (encode_all os))%nat; [|lia].
  unfold encode_all. clear H. induction os as [|o os IH]; [done|]. cbn [map concat length]. rewrite length_app. cbn [encode length]. lia.
Qed.

(** Options round-trip: a message whose options are laid out as RFC 2132 says,
    in any order and number, no type twice, is read as what the options say, on a host
    of either endianness. *)
Theorem dhcp_options_round_trip os pre rest i :
  Forall option_ok os -> NoDup (map o_type os) ->
  parse_options e (S (length (pre ++ encode_all os ++ opt_end :: rest))) (pre ++ encode_all os ++ opt_end :: rest) (zlen pre) i =
  Some (overlay i os).
Proof. intros Hos Hd. by rewrite dhcp_options_parse, options_read. Qed.

(** ** The exchange *)

(** The packet [p] with IP header [h] is a message to the client that offers the
    address [yi], with the options [os]: each with a length (there is no padding between
    them), each type once, up to the end mark. *)
Definition message (p : list Z) (h : ip_hdr) (yi : Z) (os : list dhcp_option) : Prop :=
  exists pre udp boot rest, p = pre ++ udp ++ boot ++ options_magic ++ encode_all os ++ opt_end :: rest /\
    zlen pre = ihl h * 4 /\ zlen udp = udp_hdr_size /\ zlen boot = 236 /\ Forall is_byte p /\
    ip_proto h = ip_proto_udp /\ udp_dst_port (udp_hdr_read e udp) = client_port /\
    ihl h * 4 + udp_hdr_size + dhcp_payload_size < ip_len h /\
    be_val (slice 16 4 boot) = yi /\ Forall option_ok os /\ NoDup (map o_type os).

(** What the message tells; a duration that it does not is what was in the memory. *)
Definition told (junk : Z * Z * Z) (yi : Z) (os : list dhcp_option) : ip_info :=
  let '(t1, t2, t3) := junk in overlay (ip_info_init yi t1 t2 t3) os.

Lemma message_is_reply p h yi os s : message p h yi os -> d_state s <> NONE ->
  is_reply e p h s = Some (ihl h * 4 + udp_hdr_size, ihl h * 4 + udp_hdr_size + dhcp_payload_size).
Proof.
  intros (pre & udp & boot & rest & -> & Hpre & Hudp & Hboot & _ & Hproto & Hport & Hlen & _) Hs. unfold is_reply.
  set (tail := encode_all os ++ opt_end :: rest). pose proof (zlen_nonneg tail). pose proof (zlen_nonneg pre).
  assert (zlen options_magic = 4) as Hm by done. unfold udp_hdr_size, dhcp_payload_size in *.
  assert ((match d_state s with NONE => true | _ => false end) = false) as -> by (by destruct (d_state s)). cbn [orb].
  destruct (Z.ltb_spec (zlen (pre ++ udp ++ boot ++ options_magic ++ tail)) 240); [rewrite !zlen_app in *; lia|].
  rewrite <- Hpre, (header_mid pre udp) by done.
  replace (zlen pre + 8) with (zlen (pre ++ udp)) by (rewrite zlen_app; lia). rewrite app_assoc, (app_assoc boot).
  rewrite header_mid by (rewrite zlen_app; lia). rewrite Hproto, Hport, !Z.eqb_refl. cbn [negb orb].
  destruct (Z.ltb_spec (ip_len h) (zlen (pre ++ udp) + 240 + 1)); [rewrite zlen_app in *; lia|]. cbn [orb].
  assert (slice 236 4 (boot ++ options_magic) = options_magic) as ->.
  { pose proof (slice_mid boot options_magic [] 4 eq_refl) as E. by rewrite Hboot, app_nil_r in E. }
  by rewrite bool_decide_true.
Qed.

Lemma message_told xid junk p h yi os s hw : message p h yi os -> d_state s <> NONE ->
  handle e hw xid junk p h s =
  let i := told junk yi os in let s := cancel_retry s in
  let '(s, es) := match d_state s with
        | DISCOVER => if info_type i =? msg_offer then send_request e hw (info_lease i) s else (s, [])
        | REQUEST =>
            if info_type i =? msg_nak then send_discover e hw xid 0 (set_dstate NONE s)
            else if info_type i =? msg_ack then (set_dstate DONE s, [DhcpResult (Some (info_lease i))])
            else (s, [])
        | _ => (s, [])
        end in Some (true, s, es).
Proof.
  intros Hm Hs. unfold handle. rewrite (message_is_reply p h yi os s Hm Hs). unfold process_packet, told. destruct junk as [[t1 t2] t3].
  destruct Hm as (pre & udp & boot & rest & -> & Hpre & Hudp & Hboot & Hb & _ & _ & _ & Hyi & Hos & Hdup).
  assert (fld e 4 16 (slice (ihl h * 4 + udp_hdr_size) dhcp_payload_size
    (pre ++ udp ++ boot ++ options_magic ++ encode_all os ++ opt_end :: rest)) = yi) as ->.
  { assert (zlen (boot ++ options_magic) = 240) as Hl by (by rewrite zlen_app, Hboot).
    rewrite <- Hpre, <- Hudp, <- zlen_app, app_assoc, (app_assoc boot), (slice_mid _ (boot ++ options_magic)) by done.
    rewrite <- Hyi. unfold fld.
    assert (slice 16 (Z.of_nat 4) (boot ++ options_magic) = slice 16 4 boot) as ->.
    { unfold slice. rewrite drop_app_le by (unfold zlen in Hboot; lia). rewrite take_app_le; [done|].
      rewrite length_drop. unfold zlen in Hboot. lia. }
    assert (zlen (slice 16 4 boot) = 4) as El by (apply zlen_slice; lia). unfold zlen in El.
    assert (length (slice 16 4 boot) = 4%nat) as El' by lia. rewrite <- El' at 1. apply ntoh_host_load.
    - rewrite El'. right; right; left; done.
    - apply Forall_take, Forall_drop. rewrite !Forall_app in Hb. tauto. }
  assert (ihl h * 4 + udp_hdr_size + dhcp_payload_size = zlen (pre ++ udp ++ boot ++ options_magic)) as ->.
  { rewrite !zlen_app, Hpre, Hudp, Hboot. unfold dhcp_payload_size. change (zlen options_magic) with 4. lia. }
  pose proof (dhcp_options_parse os (pre ++ udp ++ boot ++ options_magic) rest (ip_info_init yi t1 t2 t3) Hos) as E.
  rewrite <- !app_assoc in E. rewrite E, options_read by done. cbn [mbind option_bind].
  by destruct (d_state (cancel_retry s)).
Qed.

(** Addresses are 32-bit values. *)
Definition addresses_ok (i : ip_info) : Prop :=
  is_uint 32 (l_ip (info_lease i)) /\ is_uint 32 (l_dhcp_server (info_lease i)).

Lemma be_val_take4 (l : list Z) : Forall is_byte l -> 4 <= zlen l -> is_uint 32 (be_val (take 4 l)).
Proof.
  intros Hb Hl. pose proof (be_val_range (take 4 l) (Forall_take _ _ _ Hb)) as H.
  assert (zlen (take 4 l) = 4) as E by (unfold zlen in *; rewrite length_take; lia). rewrite E in H. exact H.
Qed.

Lemma told_addresses junk yi os : Forall option_ok os -> is_uint 32 yi -> addresses_ok (told junk yi os).
Proof.
  intros Hos Hyi. destruct junk as [[t1 t2] t3]. split; [done|]. cbn. unfold value_said, said.
  destruct (List.find _ os) as [o|] eqn:E; [|done]. cbn. apply find_some in E as (Hin & Et%Z.eqb_eq).
  apply (proj1 (List.Forall_forall _ _) Hos) in Hin. pose proof (oo_data_len _ Hin) as Hl. rewrite Et in Hl. cbn in Hl. b2p.
  rewrite <- (take_whole 4 (o_data o)) by lia. apply be_val_take4; [apply (oo_data _ Hin)|lia].
Qed.

Lemma message_address p h yi os : message p h yi os -> is_uint 32 yi /\ Forall option_ok os.
Proof.
  intros (pre & udp & boot & rest & -> & _ & _ & Hboot & Hb & _ & _ & _ & <- & Hos & _). split; [|done].
  assert (zlen (slice 16 4 boot) = 4) as El by (apply zlen_slice; lia).
  pose proof (be_val_range (slice 16 4 boot)) as H. rewrite El in H. apply H, Forall_take, Forall_drop.
  rewrite !Forall_app in Hb. tauto.
Qed.

(** The options of a request, as RFC 2132 lays them out. *)
Definition discover_options (ip : Z) : list dhcp_option :=
  [DhcpOption opt_message_type [msg_discover]; DhcpOption opt_requested_address (be_bytes 4 ip);
   DhcpOption opt_parameter_request_list requested_options].
Definition request_options (server ip : Z) : list dhcp_option :=
  [DhcpOption opt_message_type [msg_request]; DhcpOption opt_dhcp_server (be_bytes 4 server);
   DhcpOption opt_requested_address (be_bytes 4 ip); DhcpOption opt_parameter_request_list requested_options].

(** A packet to the servers. *)
Definition to_servers (xid : Z) (hw : mac) (os : list dhcp_option) : dhcp_event :=
  DhcpSend (Ipv4Addr 4294967295 server_port) (dhcp_payload e xid hw ++ encode_all os ++ [opt_end]).

Lemma ip_option_encode t ip : is_uint 32 ip -> ip_option e t ip = encode (DhcpOption t (be_bytes 4 ip)).
Proof.
  intros H. unfold ip_option, encode. rewrite st_ok by (done || (right; right; left; done)).
  unfold zlen. cbn [o_type o_data]. by rewrite length_be_bytes.
Qed.

Lemma send_request_encodes hw l s : is_uint 32 (l_ip l) -> is_uint 32 (l_dhcp_server l) ->
  send_request e hw l s = (set_dstate REQUEST s, [to_servers (d_xid s) hw (request_options (l_dhcp_server l) (l_ip l))]).
Proof.
  intros H1 H2. unfold send_request, to_servers, request_options, encode_all. cbn [map concat].
  rewrite !ip_option_encode by done. rewrite <- !app_assoc. done.
Qed.

Lemma send_discover_encodes hw xid ip s : is_uint 32 ip ->
  send_discover e hw xid ip s =
  (Dhcp DISCOVER xid (d_timer s) (d_retry s) (d_retry_ip s), [to_servers xid hw (discover_options ip)]).
Proof.
  intros H1. unfold send_discover, to_servers, discover_options, encode_all. cbn [map concat].
  rewrite !ip_option_encode by done. rewrite <- !app_assoc. done.
Qed.

(** C32. The exchange: the client broadcasts a discover message; it answers the
    offer with a request that names the offered address and the server, and
    gives its caller the lease that the acknowledgment tells ([overlay]) - whatever
    the order and the number of the options.  The messages are laid out as RFC 2132
    says, without padding between the options and no type twice; of several name
    servers the lease has the first only, of several routers the first, and a
    duration that the server leaves out is not set. *)
Theorem dhcp_obtains_lease hw xid x1 x2 j1 j2 want timeout p1 h1 yi1 os1 p2 h2 yi2 os2 :
  is_uint 32 want -> message p1 h1 yi1 os1 -> message p2 h2 yi2 os2 ->
  info_type (told j1 yi1 os1) = msg_offer -> info_type (told j2 yi2 os2) = msg_ack ->
  let offered := info_lease (told j1 yi1 os1) in
  exists s1 s2 s3,
    run e hw xid want timeout dhcp_init = (s1, [to_servers xid hw (discover_options want)]) /\
    handle e hw x1 j1 p1 h1 s1 = Some (true, s2, [to_servers xid hw (request_options (l_dhcp_server offered) (l_ip offered))]) /\
    handle e hw x2 j2 p2 h2 s2 = Some (true, s3, [DhcpResult (Some (info_lease (told j2 yi2 os2)))]) /\
    d_state s3 = DONE.
Proof.
  intros Hw M1 M2 T1 T2 offered. destruct (message_address _ _ _ _ M1) as [Hy1 Ho1].
  destruct (told_addresses j1 yi1 os1 Ho1 Hy1) as [A1 A2].
  unfold run. rewrite send_discover_encodes by done. eexists _, _, _. split; [reflexivity|].
  rewrite (message_told x1 j1 p1 h1 yi1 os1 _ hw M1) by done. cbv zeta. cbn [d_state cancel_retry]. rewrite T1. cbn [msg_offer Z.eqb Pos.eqb].
  rewrite send_request_encodes by done. split; [reflexivity|].
  rewrite (message_told x2 j2 p2 h2 yi2 os2 _ hw M2) by done. cbv zeta. cbn [d_state cancel_retry set_dstate]. rewrite T2. done.
Qed.

(** ** Executions *)

Variable hw : mac.

(** What can happen to a client: [run] is called once; a timer expires when it is
    armed - the timeout not after success, when the client's owner has its answer
    and destroys it. *)
Inductive dhcp_step (s : dhcp) : list dhcp_event -> dhcp -> Prop :=
  | step_run xid ip timeout s' es : s = dhcp_init -> timeout <> 0 -> run e hw xid ip timeout s = (s', es) -> dhcp_step s es s'
  | step_packet xid junk p h b s' es : handle e hw xid junk p h s = Some (b, s', es) -> dhcp_step s es s'
  | step_timeout s' es : d_timer s = true -> d_state s <> DONE -> timeout_expired s = (s', es) -> dhcp_step s es s'
  | step_retry xid s' es : d_retry s = true -> retry_expired e hw xid s = (s', es) -> dhcp_step s es s'.

Inductive dhcp_run : list dhcp_event -> dhcp -> Prop :=
  | run_init : dhcp_run [] dhcp_init
  | run_next s es es' s' : dhcp_run es s -> dhcp_step s es' s' -> dhcp_run (es ++ es') s'.

Definition is_result (ev : dhcp_event) : bool := match ev with DhcpResult _ => true | _ => false end.
Definition results (es : list dhcp_event) : list dhcp_event := List.filter is_result es.

Definition waiting (s : dhcp) : Prop := d_state s = DISCOVER \/ d_state s = REQUEST.
Definition answered (s : dhcp) : Prop := d_state s = DONE \/ d_state s = FAIL.

(** The caller is answered when the client is done; until then the timeout is
    armed, and the retry timer runs only while it discovers. *)
Record dhcp_ok (n : nat) (s : dhcp) : Prop := DhcpOk {
  dk_none : d_state s = NONE -> s = dhcp_init /\ n = 0%nat;
  dk_waiting : waiting s -> n = 0%nat /\ d_timer s = true;
  dk_answered : answered s -> n = 1%nat;
  dk_fail : d_state s = FAIL -> d_timer s = false;
  dk_retry : d_retry s = true -> d_state s = DISCOVER }.

Lemma handle_ok n xid junk p h s b s' es :
  dhcp_ok n s -> handle e hw xid junk p h s = Some (b, s', es) -> dhcp_ok (n + length (results es)) s'.
Proof.
  intros [H0 H1 H2 HF H3]. unfold handle. destruct (is_reply e p h s) as [[off opt]|] eqn:Er.
  2: { intros [= <- <- <-]. rewrite Nat.add_0_r. by constructor. }
  assert (d_state s <> NONE) as Hn by (intros E; unfold is_reply in Er; by rewrite E in Er).
  unfold process_packet. destruct junk as [[t1 t2] t3]. cbv zeta.
  destruct (parse_options _ _ _ _ _) as [i|]; [|done]. cbn [mbind option_bind]. unfold waiting, answered in *.
  destruct s as [st x tm rt ip]. cbn [d_state cancel_retry d_timer d_retry d_retry_ip d_xid] in *.
  destruct st; try done; [destruct (_ =? _)|destruct (_ =? msg_nak); [|destruct (_ =? _)]| |];
    unfold send_request, send_discover, set_dstate, cancel_retry; cbn; intros [= <- <- <-]; cbn;
    rewrite ?Nat.add_0_r; constructor; unfold waiting, answered; cbn; intros; try done; intuition (try done; try lia).
Qed.

Lemma step_ok n s es s' : dhcp_ok n s -> dhcp_step s es s' -> dhcp_ok (n + length (results es)) s'.
Proof.
  intros Hok [xid ip timeout s1 es1 -> Ht E|xid junk p h b s1 es1 E|s1 es1 Ht Hd E|xid s1 es1 Hr E].
  - unfold run, send_discover in E. injection E as <- <-. cbn. destruct Hok as [H0 _ _ _ _].
    destruct (H0 eq_refl) as [_ ->]. destruct (Z.eqb_spec timeout 0); [done|].
    constructor; unfold waiting, answered; cbn; intros; try done; intuition done.
  - by eapply handle_ok.
  - unfold timeout_expired in E. injection E as <- <-. cbn. destruct Hok as [H0 H1 H2 HF H3].
    assert (n = 0%nat) as ->.
    { destruct (d_state s) eqn:Es; try done.
      - by apply H0.
      - apply H1. by left.
      - apply H1. by right.
      - rewrite HF in Ht by done. done. }
    constructor; unfold waiting, answered; cbn; intros; try done; intuition done.
  - unfold retry_expired, send_discover in E. injection E as <- <-. cbn. destruct Hok as [H0 H1 H2 HF H3].
    specialize (H3 Hr). destruct (H1 (or_introl H3)) as [-> Ht].
    constructor; unfold waiting, answered; cbn; intros; try done; intuition done.
Qed.

Lemma results_app es es' : results (es ++ es') = results es ++ results es'.
Proof. apply List.filter_app. Qed.

(** One answer: in every execution - packets in any order, timers at any time
    - the caller of [run] is answered at most once, exactly when the client is
    done or has failed; and while it is not, the timeout is armed, so that an
    answer comes. *)
Theorem dhcp_answers_once es s : dhcp_run es s ->
  (length (results es) <= 1)%nat /\ (answered s -> length (results es) = 1%nat) /\
  (waiting s -> length (results es) = 0%nat /\ d_timer s = true) /\
  (d_retry s = true -> d_state s = DISCOVER).
Proof.
  intros Hrun. assert (dhcp_ok (length (results es)) s) as [H0 H1 H2 HF H3].
  { induction Hrun as [|s es es' s' _ IH Hs].
    - constructor; unfold waiting, answered; cbn; intros; try done; intuition done.
    - rewrite results_app, length_app. by eapply step_ok. }
  split_and!; try done. unfold waiting, answered in *. destruct (d_state s) eqn:Es.
  - destruct (H0 eq_refl) as [_ ->]. lia.
  - destruct (H1 (or_introl eq_refl)) as [-> _]. lia.
  - destruct (H1 (or_intror eq_refl)) as [-> _]. lia.
  - rewrite H2 by tauto. lia.
  - rewrite H2 by tauto. lia.
Qed.

(** A stray reply silences the client: any message that is not an offer, in
    DISCOVER, turns the retry timer off and nothing turns it on again, so the
    client sends nothing more - whatever arrives - before an offer does.  (The
    same holds after a NAK: the discover message it sends then is not repeated.) *)
Theorem dhcp_stray_reply_silences xid junk p h yi os s :
  d_state s = DISCOVER -> message p h yi os -> info_type (told junk yi os) <> msg_offer ->
  exists s', handle e hw xid junk p h s = Some (true, s', []) /\ d_state s' = DISCOVER /\ d_retry s' = false /\
    forall es s'', dhcp_step s' es s'' -> s'' <> s' \/ es <> [] ->
      (exists p h junk off opt t1 t2 t3 i, is_reply e p h s' = Some (off, opt) /\ junk = (t1, t2, t3) /\
         parse_options e (S (length p)) p opt (ip_info_init (fld e 4 16 (slice off dhcp_payload_size p)) t1 t2 t3) = Some i /\
         info_type i = msg_offer) \/ es = [DhcpResult None].
Proof.
  intros Es Hm Ht. rewrite (message_told xid junk p h yi os s hw Hm) by (by rewrite Es). cbv zeta. cbn [d_state cancel_retry].
  rewrite Es. destruct (Z.eqb_spec (info_type (told junk yi os)) msg_offer); [done|].
  eexists. split; [reflexivity|]. split; [done|]. split; [done|]. intros es s'' Hs Hne.
  destruct Hs as [x ip timeout s1 es1 E _ _|x j q hq b s1 es1 E|s1 es1 _ _ E|x s1 es1 Hr _].
  - apply (f_equal d_state) in E. cbn in E. congruence.
  - left. revert E. unfold handle. destruct (is_reply e q hq (cancel_retry s)) as [[off opt]|] eqn:Er.
    2: { intros [= _ <- <-]. by destruct Hne. }
    unfold process_packet. destruct j as [[t1 t2] t3]. cbv zeta.
    destruct (parse_options _ _ _ _ _) as [i|] eqn:Ei; [|done]. cbn [mbind option_bind d_state cancel_retry]. rewrite Es.
    destruct (Z.eqb_spec (info_type i) msg_offer) as [E|E].
    + intros _. exists q, hq, (t1, t2, t3), off, opt, t1, t2, t3, i. done.
    + intros [= _ <- <-]. by destruct Hne.
  - right. by injection E as _ <-.
  - done.
Qed.

(** Success does not stop the timeout: after the exchange of
    [dhcp_obtains_lease] the timeout is still armed, and its expiry answers the
    caller a second time, now with failure. *)
Theorem dhcp_timeout_after_success xid junk p h yi os s :
  d_state s = REQUEST -> d_timer s = true -> message p h yi os -> info_type (told junk yi os) = msg_ack ->
  exists s', handle e hw xid junk p h s = Some (true, s', [DhcpResult (Some (info_lease (told junk yi os)))]) /\
    d_timer s' = true /\ snd (timeout_expired s') = [DhcpResult None].
Proof.
  intros Es Ht Hm T. rewrite (message_told xid junk p h yi os s hw Hm) by (by rewrite Es). cbv zeta. cbn [d_state cancel_retry].
  rewrite Es, T. cbn [msg_ack msg_nak Z.eqb Pos.eqb]. eexists. split; [reflexivity|]. done.
Qed.

(** Of the name servers in an acknowledgment only the first reaches the caller. *)
Theorem dhcp_second_server_lost xid junk p h yi os s data a b r :
  d_state s = REQUEST -> message p h yi os -> value_said opt_message_type os 0 = msg_ack ->
  said opt_domain_name_servers os = Some data -> address_list data = a :: b :: r ->
  exists s' l, handle e hw xid junk p h s = Some (true, s', [DhcpResult (Some l)]) /\ l_name_servers l = [a].
Proof.
  intros Es Hm T Ed Ea. rewrite (message_told xid junk p h yi os s hw Hm) by (by rewrite Es). cbv zeta. cbn [d_state cancel_retry].
  assert (info_type (told junk yi os) = msg_ack) as -> by (by destruct junk as [[? ?] ?]).
  rewrite Es. cbn [msg_ack msg_nak Z.eqb Pos.eqb]. eexists _, _. split; [reflexivity|]. destruct junk as [[? ?] ?].
  cbn. unfold addresses_said. by rewrite Ed; cbn; rewrite Ea.
Qed.

(** A pad option is read with a length: the byte after it, the type of the next
    option, is skipped as its length, and the options it reaches over are lost. *)
Theorem dhcp_pad_swallows pre t data rest i fuel :
  zlen data + zlen rest < t -> (2 <= fuel)%nat ->
  parse_options e fuel (pre ++ 0 :: encode (DhcpOption t data) ++ rest) (zlen pre) i = Some i.
Proof.
  intros Ht Hf. destruct fuel as [|[|fuel]]; [lia|lia|]. unfold encode. cbn [o_type o_data app parse_options].
  pose proof (zlen_nonneg data). pose proof (zlen_nonneg rest).
  set (p := 0 :: t :: zlen data :: data ++ rest). assert (zlen p = 3 + zlen data + zlen rest) as Hp by (unfold p; rewrite !zlen_cons, zlen_app; lia).
  assert (header_at (zlen pre) 1 (pre ++ p) = Some [0]) as -> by (rewrite header_at_app by lia; done).
  assert (header_at (zlen pre) 2 (pre ++ p) = Some [0; t]) as -> by (rewrite header_at_app by lia; done).
  cbn [nth]. change (0 =? opt_end) with false. cbn iota.
  rewrite header_at_short; [done|]. rewrite zlen_app. lia.
Qed.
End Spec.

(** ** Witnesses *)

Module Ex.
Definition hw : mac := [1; 2; 3; 4; 5; 6].
Definition hdr : ip_hdr := IpHdr 5 4 0 0 300 0 0 64 17 0 167772161 4294967295.
Definition pre : list Z := replicate 20 0.
Definition udp : list Z := [0; 67; 0; 68; 1; 24; 0; 0].
Definition boot : list Z := [2; 1; 6; 0] ++ replicate 12 0 ++ [10; 0; 0; 9] ++ replicate 216 0.
Definition packet_with (os : list dhcp_option) : list Z :=
  pre ++ udp ++ boot ++ options_magic ++ encode_all os ++ opt_end :: [].

Definition offer : list dhcp_option :=
  [DhcpOption opt_message_type [2]; DhcpOption opt_dhcp_server [10; 0; 0; 1]; DhcpOption opt_subnet_mask [255; 255; 255; 0]].
Definition ack : list dhcp_option :=
  [DhcpOption opt_router [10; 0; 0; 1]; DhcpOption opt_message_type [5]; DhcpOption opt_subnet_mask [255; 255; 255; 0];
   DhcpOption opt_lease_time [0; 0; 14; 16]; DhcpOption opt_domain_name_servers [8; 8; 8; 8; 8; 8; 4; 4];
   DhcpOption opt_interface_mtu [5; 220]].

Lemma is_message os : Forall option_ok os /\ NoDup (map o_type os) -> all_bytes (packet_with os) = true -> message BigEndian (packet_with os) hdr 167772169 os.
Proof.
  intros (Hos & Hd) Hb. exists pre, udp, boot, []. split_and!; try done.
  by apply all_bytes_ok.
Qed.

Definition option_okb (o : dhcp_option) : bool :=
  (0 <? o_type o) && (o_type o <? 255) && data_len_ok (o_type o) (zlen (o_data o)) && (zlen (o_data o) <? 256) && all_bytes (o_data o).

Lemma ok_options os : forallb option_okb os && bool_decide (NoDup (map o_type os)) = true -> Forall option_ok os /\ NoDup (map o_type os).
Proof.
  intros (H & Hd)%andb_prop. split; [|by apply bool_decide_eq_true in Hd]. apply List.Forall_forall. intros o Ho.
  pose proof (proj1 (forallb_forall _ _) H o Ho) as E. unfold option_okb in E. b2p. constructor; [lia|done|lia|by apply all_bytes_ok].
Qed.
End Ex.

Lemma dhcp_options_terminate_witness : is_Some (parse_options BigEndian 320 (Ex.packet_with Ex.ack) 268 (ip_info_init 0 0 0 0)).
Proof.
  apply (dhcp_options_terminate BigEndian (Ex.packet_with Ex.ack) 268 (ip_info_init 0 0 0 0) 320);
    [lia|apply all_bytes_ok; vm_compute; reflexivity|].
  apply Nat.ltb_lt. vm_compute. reflexivity.
Defined.

Lemma dhcp_options_round_trip_witness :
  parse_options LittleEndian (S (length ([1; 2] ++ encode_all Ex.ack ++ opt_end :: []))) ([1; 2] ++ encode_all Ex.ack ++ opt_end :: []) (zlen [1; 2]) (ip_info_init 9 0 0 0) =
  Some (IpInfo (Lease 9 4294967040 0 167772161 0 [134744072] 3600 0 0 1500) msg_ack).
Proof.
  destruct (Ex.ok_options Ex.ack) as (H & Hd); [vm_compute; reflexivity|].
  exact (dhcp_options_round_trip LittleEndian Ex.ack [1; 2] [] (ip_info_init 9 0 0 0) H Hd).
Defined.

Lemma dhcp_obtains_lease_witness :
  exists s1 s2 s3,
    run BigEndian Ex.hw 77 0 30 dhcp_init = (s1, [to_servers BigEndian 77 Ex.hw (discover_options 0)]) /\
    handle BigEndian Ex.hw 0 (0, 0, 0) (Ex.packet_with Ex.offer) Ex.hdr s1 =
      Some (true, s2, [to_servers BigEndian 77 Ex.hw (request_options 167772161 167772169)]) /\
    handle BigEndian Ex.hw 0 (0, 0, 0) (Ex.packet_with Ex.ack) Ex.hdr s2 =
      Some (true, s3, [DhcpResult (Some (Lease 167772169 4294967040 0 167772161 0 [134744072] 3600 0 0 1500))]) /\
    d_state s3 = DONE.
Proof.
  refine (dhcp_obtains_lease BigEndian Ex.hw 77 0 0 (0, 0, 0) (0, 0, 0) 0 30 (Ex.packet_with Ex.offer) Ex.hdr 167772169 Ex.offer
    (Ex.packet_with Ex.ack) Ex.hdr 167772169 Ex.ack _ _ _ _ _).
  - by split.
  - apply Ex.is_message; [apply Ex.ok_options|]; vm_compute; reflexivity.
  - apply Ex.is_message; [apply Ex.ok_options|]; vm_compute; reflexivity.
  - vm_compute. reflexivity.
  - vm_compute. reflexivity.
Defined.

Definition requesting : dhcp := Dhcp REQUEST 77 true false 0.
Definition discovering : dhcp := Dhcp DISCOVER 77 true true 0.

Lemma dhcp_answers_once_witness :
  exists s, dhcp_run BigEndian Ex.hw ([to_servers BigEndian 77 Ex.hw (discover_options 0)] ++ [DhcpResult None]) s /\
    (length (results ([to_servers BigEndian 77 Ex.hw (discover_options 0)] ++ [DhcpResult None])) <= 1)%nat.
Proof.
  assert (H : dhcp_run BigEndian Ex.hw (([] ++ [to_servers BigEndian 77 Ex.hw (discover_options 0)]) ++ [DhcpResult None])
    (Dhcp FAIL 77 false false 0)).
  { eapply run_next.
    - eapply run_next; [apply run_init|]. eapply (step_run _ _ _ 77 0 30); [reflexivity|done|reflexivity].
    - eapply step_timeout; [reflexivity|done|reflexivity]. }
  exists (Dhcp FAIL 77 false false 0). split; [exact H|].
  exact (proj1 (dhcp_answers_once BigEndian Ex.hw _ _ H)).
Defined.

Lemma dhcp_stray_reply_silences_witness :
  exists s', handle BigEndian Ex.hw 0 (0, 0, 0) (Ex.packet_with Ex.ack) Ex.hdr discovering = Some (true, s', []) /\ d_retry s' = false.
Proof.
  destruct (dhcp_stray_reply_silences BigEndian Ex.hw 0 (0, 0, 0) (Ex.packet_with Ex.ack) Ex.hdr 167772169 Ex.ack discovering)
    as (s' & H1 & _ & H2 & _).
  - reflexivity.
  - apply Ex.is_message; [apply Ex.ok_options|]; vm_compute; reflexivity.
  - vm_compute. discriminate.
  - exists s'. split; [exact H1|exact H2].
Defined.

Lemma dhcp_timeout_after_success_witness :
  exists s', d_timer s' = true /\ snd (timeout_expired s') = [DhcpResult None] /\
    handle BigEndian Ex.hw 0 (0, 0, 0) (Ex.packet_with Ex.ack) Ex.hdr requesting =
      Some (true, s', [DhcpResult (Some (Lease 167772169 4294967040 0 167772161 0 [134744072] 3600 0 0 1500))]).
Proof.
  destruct (dhcp_timeout_after_success BigEndian Ex.hw 0 (0, 0, 0) (Ex.packet_with Ex.ack) Ex.hdr 167772169 Ex.ack requesting)
    as (s' & H1 & H2 & H3).
  - reflexivity.
  - reflexivity.
  - apply Ex.is_message; [apply Ex.ok_options|]; vm_compute; reflexivity.
  - vm_compute. reflexivity.
  - exists s'. split; [exact H2|]. split; [exact H3|]. exact H1.
Defined.

Lemma dhcp_pad_swallows_witness :
  parse_options BigEndian 9 ([] ++ 0 :: encode (DhcpOption opt_message_type [msg_ack]) ++ [opt_end]) (zlen ([] : list Z)) (ip_info_init 0 0 0 0) =
  Some (ip_info_init 0 0 0 0).
Proof.
  apply (dhcp_pad_swallows BigEndian [] opt_message_type [msg_ack] [opt_end] (ip_info_init 0 0 0 0) 9); [by vm_compute|lia].
Defined.

Lemma dhcp_second_server_lost_witness :
  exists s' l, handle BigEndian Ex.hw 0 (0, 0, 0) (Ex.packet_with Ex.ack) Ex.hdr requesting = Some (true, s', [DhcpResult (Some l)]) /\
    l_name_servers l = [134744072].
Proof.
  apply (dhcp_second_server_lost BigEndian Ex.hw 0 (0, 0, 0) (Ex.packet_with Ex.ack) Ex.hdr 167772169 Ex.ack requesting
    [8; 8; 8; 8; 8; 8; 4; 4] 134744072 134743044 []); try reflexivity.
  apply Ex.is_message; [apply Ex.ok_options|]; vm_compute; reflexivity.
Defined.
