(* ===== verification/Interface.v ===== *)
(** * Devices, queues and interfaces: include/nil/actor/network/net.hh, src/network/net.cc

    [qp]: the transmit queue of a shard, refilled from packet providers.
    [device]: which shard a frame belongs to.  [interface]: the Ethernet layer of
    a shard, which hands received frames to the protocol registered for their
    type or to their shard, and polls the protocols in turn for packets to send.

    The drivers behind [qp] and [device] are parameters: how many packets [send]
    takes, the number of hardware queues and the RSS key. *)

From S2P Require Import Prelude Core ByteOrder Toeplitz Packet Net Inet.
From stdpp Require Import base numbers option gmap list.

#[local] Open Scope Z_scope.

(** ** [struct qp_stats_good]: the counters of a direction *)

Record qp_stats := QpStats { st_packets : Z; st_last_bunch : Z; st_frags : Z; st_bytes : Z; st_copy_frags : Z; st_copy_bytes : Z }.
Definition qp_stats_init : qp_stats := QpStats 0 0 0 0 0 0.

Definition update_pkts_bunch (count : Z) (s : qp_stats) : qp_stats :=
  QpStats (u64 (st_packets s + count)) count (st_frags s) (st_bytes s) (st_copy_frags s) (st_copy_bytes s).
Definition update_copy_stats (nr_frags bytes : Z) (s : qp_stats) : qp_stats :=
  QpStats (st_packets s) (st_last_bunch s) (st_frags s) (st_bytes s) (u64 (st_copy_frags s + nr_frags)) (u64 (st_copy_bytes s + bytes)).
Definition update_frags_stats (nfrags nbytes : Z) (s : qp_stats) : qp_stats :=
  QpStats (st_packets s) (st_last_bunch s) (u64 (st_frags s + nfrags)) (u64 (st_bytes s + nbytes)) (st_copy_frags s) (st_copy_bytes s).

(** ** [class qp] *)

Section Qp.
(** The state of what the providers poll, and of the driver. *)
Context {W : Type}.

Record qp := Qp { tx_packetq : list packet; proxy_packetq : list packet; tx_stats : qp_stats }.
Definition qp_init : qp := Qp [] [] qp_stats_init.

(** A provider: a packet if it has one. *)
Definition packet_provider : Type := W * qp -> W * qp * option packet.

(** The virtual [send(packets)]: how many packets the driver takes from the front. *)
Variable driver_send : list packet -> W -> nat * W.
Variable pkt_providers : list packet_provider.

Definition push_tx (p : packet) (s : qp) : qp := Qp (tx_packetq s ++ [p]) (proxy_packetq s) (tx_stats s).

(** One round over the providers, cut short when 128 packets wait; with the number
    of packets found. *)
Fixpoint refill_round (ps : list packet_provider) (work : Z) (ws : W * qp) : W * qp * Z :=
  match ps with
  | [] => (ws, work)
  | pr :: ps =>
      match pr ws with
      | (w, s, Some p) =>
          let s := push_tx p s in
          if zlen (tx_packetq s) =? 128 then (w, s, u32 (work + 1)) else refill_round ps (u32 (work + 1)) (w, s)
      | (w, s, None) => refill_round ps work (w, s)
      end
  end.

(** [do ... while (work && _tx_packetq.size() < 128)]; [None] is running out of fuel. *)
Fixpoint refill (fuel : nat) (ws : W * qp) : option (W * qp) :=
  match fuel with
  | O => None
  | S fuel =>
      let '(w, s, work) := refill_round pkt_providers 0 ws in
      if negb (work =? 0) && (zlen (tx_packetq s) <? 128) then refill fuel (w, s) else Some (w, s)
  end.

(** [poll_tx()]: whether there was something to send. *)
Definition poll_tx (fuel : nat) (ws : W * qp) : option (W * qp * bool) :=
  '(w, s) ← (if zlen (tx_packetq (snd ws)) <? 16 then refill fuel ws else Some ws);
  match tx_packetq s with
  | [] => Some (w, s, false)
  | q => let '(n, w) := driver_send q w in
         Some (w, Qp (drop n q) (proxy_packetq s) (update_pkts_bunch (Z.of_nat n) (tx_stats s)), true)
  end.

(** The default [send(packets)] of the class hands over all of them. *)
Definition send_all (send : packet -> W -> W) (q : list packet) (w : W) : nat * W :=
  (length q, fold_left (fun w p => send p w) q w).

(** [proxy_send(p)], and the provider of [configure_proxies]. *)
Definition proxy_send (p : packet) (s : qp) : qp := Qp (tx_packetq s) (proxy_packetq s ++ [p]) (tx_stats s).
Definition proxy_provider : packet_provider := fun '(w, s) =>
  match proxy_packetq s with
  | [] => (w, s, None)
  | p :: q => (w, Qp (tx_packetq s) q (tx_stats s), Some p)
  end.
End Qp.
#[global] Arguments packet_provider : clear implicits.

(** ** [class device]: the shard of a frame *)

Section Device.
Variable hw_queues_count : Z.
Variable rss_table_bits : Z.
(** [_sw_reta] of the queue of each shard: 128 entries. *)
Variable sw_reta : Z -> option (list Z).

(** [hash2qid(hash)] *)
Definition hash2qid (hash : Z) : option Z := if hw_queues_count =? 0 then None else Some (hash mod hw_queues_count).

(** [forward_dst(src_cpuid, hashfn)] *)
Definition forward_dst (src_cpuid : Z) (hashfn : option Z) : option Z :=
  match sw_reta src_cpuid with
  | None => Some src_cpuid
  | Some reta => hash ← hashfn; reta !! Z.to_nat (Z.shiftr hash rss_table_bits mod 128)
  end.

(** [hash2cpu(hash)] *)
Definition device_hash2cpu (hash : Z) : option Z := qid ← hash2qid hash; forward_dst qid (Some hash).
End Device.

(** ** [class interface] *)

(** [struct l3_rx_stream]: whether the protocol takes the next packet, and the
    part of a packet that is hashed; [None] is a null dereference, [Some None] the
    result false. *)
Record l3_rx_stream := L3RxStream { rx_ready : bool; rx_forward : forward_hash -> list Z -> Z -> option (option forward_hash) }.

(** A received frame, with the hash the hardware computed. *)
Record rx_packet := RxPacket { rx_bytes : list Z; rx_hash : option Z }.

Inductive if_event :=
  | IfProduce (proto : Z) (p : list Z) (from : mac)    (* [packet_stream.produce] *)
  | IfForward (cpu : Z) (p : rx_packet).               (* [smp::submit_to(cpu, l2receive)] *)

Record interface := Interface { proto_map : gmap Z l3_rx_stream; queue_depth : Z; provider_idx : nat }.
Definition interface_init : interface := Interface ∅ 0 0.

Definition set_proto_map (m : gmap Z l3_rx_stream) (s : interface) : interface := Interface m (queue_depth s) (provider_idx s).

(** [register_l3(proto_num, next, forward)]: the assertion that it is new. *)
Definition register_l3 (proto : Z) (fw : forward_hash -> list Z -> Z -> option (option forward_hash)) (s : interface) : option interface :=
  match proto_map s !! proto with
  | Some _ => None
  | None => Some (set_proto_map (<[proto := L3RxStream true fw]> (proto_map s)) s)
  end.

Section Receive.
Context {BC : BeCodec}.
Variable rss_key : list Z.
Variable rss_table_bits : Z.
Variable sw_reta : Z -> option (list Z).
Variable this_shard_id : Z.

(** [forward(cpuid, p)]; at most 1000 packets are on their way to other shards. *)
Definition forward (cpuid : Z) (p : rx_packet) (s : interface) : interface * list if_event :=
  if queue_depth s <? 1000
  then (Interface (proto_map s) (u32 (queue_depth s + 1)) (provider_idx s), [IfForward cpuid p])
  else (s, []).

(** The continuation of [submit_to]. *)
Definition forward_done (s : interface) : interface := Interface (proto_map s) (u32 (queue_depth s - 1)) (provider_idx s).

(** The hash of a frame: the hardware's, or that of what the protocol chooses. *)
Definition frame_hash (p : rx_packet) (l3 : l3_rx_stream) : option Z :=
  match rx_hash p with
  | Some h => Some h
  | None =>
      data ← rx_forward l3 [] (rx_bytes p) eth_hdr_len;
      Some (match data with Some data => toeplitz_hash rss_key data | None => 0 end)
  end.

(** [dispatch_packet(p)] *)
Definition dispatch_packet (p : rx_packet) (s : interface) : option (interface * list if_event) :=
  match header_at 0 eth_hdr_len (rx_bytes p) with
  | None => Some (s, [])
  | Some eh =>
      let h := eth_hdr_read eh in
      match proto_map s !! eth_proto h with
      | None => Some (s, [])
      | Some l3 =>
          fw ← forward_dst rss_table_bits sw_reta this_shard_id (frame_hash p l3);
          if negb (fw =? this_shard_id) then Some (forward fw p s)
          else
            q ← drop_front eth_hdr_len (rx_bytes p);
            if rx_ready l3
            then Some (set_proto_map (<[eth_proto h := L3RxStream false (rx_forward l3)]> (proto_map s)) s,
                       [IfProduce (eth_proto h) q (src_mac h)])
            else Some (s, [])
      end
  end.

(** The protocol has taken the packet: the future of [produce] is ready. *)
Definition rx_done (proto : Z) (s : interface) : interface :=
  set_proto_map (alter (fun l3 => L3RxStream true (rx_forward l3)) proto (proto_map s)) s.
End Receive.

(** *** Sending *)

Section Send.
Context {BC : BeCodec} {W : Type}.
Variable hw_address : mac.
(** The protocols, [_pkt_providers]. *)
Variable providers : list (W -> W * option l3packet).

(** A frame for the device. *)
Definition frame_of (l : l3packet) : packet :=
  Pkt (eth_hdr_write (EthHdr (l3_to l) hw_address (l3_proto l)) ++ bytes (l3_p l)) (info (l3_p l)).

(** The provider that the constructor registers with the local queue: [n] rounds of
    the loop from [idx]; [None] is an index out of range. *)
Fixpoint poll_protocols (n idx : nat) (w : W) : option (W * nat * option packet) :=
  match n with
  | O => Some (w, idx, None)
  | S n =>
      pr ← providers !! idx;
      let '(w, l3p) := pr w in
      let idx := if (S idx =? length providers)%nat then O else S idx in
      match l3p with
      | Some l3p => Some (w, idx, Some (frame_of l3p))
      | None => poll_protocols n idx w
      end
  end.

Definition interface_provider (w : W) (s : interface) : option (W * interface * option packet) :=
  '(w, idx, p) ← poll_protocols (length providers) (provider_idx s) w;
  Some (w, Interface (proto_map s) (queue_depth s) idx, p).
End Send.
