(* ===== verification/InterfaceSpec.v ===== *)
(** * Queues and interfaces: bounds, order, fairness

    What [Interface] promises to the protocols above it: the frame that is built is the one
    that is given to the protocol of its type, packets on their way to other shards are
    bounded, and a protocol that has a packet is served in its turn. *)

From S2P Require Import Prelude Core ByteOrder Toeplitz Packet Net Inet Interface.
From stdpp Require Import base numbers option gmap list relations.

#[local] Open Scope Z_scope.

(** ** The transmit queue *)

Section Qp.
Context {W : Type}.
Variable driver_send : list packet -> W -> nat * W.
Variable ps : list (packet_provider W).

(** A provider does not touch the transmit queue. *)
Definition provider_ok (pr : packet_provider W) : Prop :=
  forall w s, tx_packetq (snd (fst (pr (w, s)))) = tx_packetq s.

Lemma proxy_provider_ok : provider_ok proxy_provider.
Proof. intros w s. unfold proxy_provider. by destruct (proxy_packetq s). Qed.

Hypothesis Hps : Forall provider_ok ps.

(** One round appends the packets it counts, and stops at 128. *)
Lemma refill_round_spec l : Forall provider_ok l -> forall work w s w' s' work',
  refill_round l work (w, s) = (w', s', work') -> 0 <= work -> work + zlen l < 2 ^ 32 -> zlen (tx_packetq s) < 128 ->
  exists new, tx_packetq s' = tx_packetq s ++ new /\ work' = work + zlen new /\ zlen (tx_packetq s') <= 128.
Proof.
  induction 1 as [|pr l Hpr _ IH]; intros work w s w' s' work'; cbn [refill_round].
  { intros [= <- <- <-] _ _ Hs. exists []. rewrite app_nil_r. split_and!; [done|by rewrite Z.add_0_r|lia]. }
  intros E Hw Hl Hs. rewrite zlen_cons in Hl. pose proof (zlen_nonneg l). pose proof (Hpr w s) as Hq.
  destruct (pr (w, s)) as [[w1 s1] [p|]] eqn:Ep; cbn [fst snd] in Hq.
  - rewrite wrap_small in E by (pow2; lia).
    assert (tx_packetq (push_tx p s1) = tx_packetq s ++ [p]) as Hq1 by (cbn; by rewrite Hq).
    assert (zlen (tx_packetq s ++ [p]) = zlen (tx_packetq s) + 1) as Hz by (by rewrite zlen_app).
    rewrite Hq1, Hz in E. destruct (Z.eqb_spec (zlen (tx_packetq s) + 1) 128).
    + injection E as <- <- <-. exists [p]. rewrite Hq1, Hz. split_and!; [done|done|lia].
    + apply IH in E as (new & E1 & E2 & E3); [|lia|lia|rewrite Hq1; lia].
      exists (p :: new). rewrite E1, Hq1, <- app_assoc. split_and!; [done|rewrite zlen_cons; lia|].
      rewrite E1, Hq1, <- app_assoc in E3. exact E3.
  - apply IH in E as (new & E1 & E2 & E3); [|lia|lia|by rewrite Hq]. exists new. by rewrite Hq in E1.
Qed.

(** The refill ends: every round but the last adds a packet. *)
Lemma refill_spec fuel : zlen ps < 2 ^ 32 -> forall w s, zlen (tx_packetq s) < 128 -> 128 - zlen (tx_packetq s) < Z.of_nat fuel ->
  exists w' s' new, refill ps fuel (w, s) = Some (w', s') /\ tx_packetq s' = tx_packetq s ++ new /\ zlen (tx_packetq s') <= 128.
Proof.
  intros Hl. induction fuel as [|fuel IH]; intros w s Hs Hf; [lia|]. cbn [refill].
  destruct (refill_round ps 0 (w, s)) as [[w1 s1] work] eqn:E.
  destruct (refill_round_spec ps Hps 0 w s w1 s1 work E) as (new & E1 & E2 & E3); [lia|lia|done|].
  destruct (Z.eqb_spec work 0) as [H0|H0]; [exists w1, s1, new; done|].
  destruct (Z.ltb_spec (zlen (tx_packetq s1)) 128) as [H1|H1]; [|exists w1, s1, new; done]. cbn [negb andb].
  pose proof (zlen_nonneg new). destruct (IH w1 s1) as (w2 & s2 & new2 & F1 & F2 & F3); [done|rewrite E1, zlen_app in *; lia|].
  exists w2, s2, (new ++ new2). split_and!; [done|by rewrite F2, E1, app_assoc|done].
Qed.

(** Polling a transmit queue ends, never lets more than 128 packets wait when
    it refills, and keeps their order: what the driver takes is the front of the
    packets that waited followed by the new ones, and the rest waits. *)
Theorem qp_poll_tx w s : zlen ps < 2 ^ 32 ->
  exists w' s' new, poll_tx driver_send ps 129 (w, s) = Some (w', s', negb (zlen (tx_packetq s ++ new) =? 0)) /\
    zlen (tx_packetq s ++ new) <= Z.max 128 (zlen (tx_packetq s)) /\
    exists n, tx_packetq s' = drop n (tx_packetq s ++ new).
Proof.
  intros Hl. unfold poll_tx. cbn [snd].
  assert (exists w1 s1 new, (if zlen (tx_packetq s) <? 16 then refill ps 129 (w, s) else Some (w, s)) = Some (w1, s1) /\
    tx_packetq s1 = tx_packetq s ++ new /\ zlen (tx_packetq s1) <= Z.max 128 (zlen (tx_packetq s))) as (w1 & s1 & new & -> & E2 & E3).
  { destruct (Z.ltb_spec (zlen (tx_packetq s)) 16).
    - pose proof (zlen_nonneg (tx_packetq s)). destruct (refill_spec 129 Hl w s) as (w1 & s1 & new & F1 & F2 & F3); [lia|lia|].
      exists w1, s1, new. split_and!; [done|done|lia].
    - exists w, s, []. rewrite app_nil_r. split_and!; [done|done|lia]. }
  cbn [mbind option_bind]. rewrite E2 in E3. rewrite <- E2 in *. destruct (tx_packetq s1) as [|p q] eqn:Eq.
  - exists w1, s1, new. rewrite <- E2. split_and!; [done|done|]. exists 0%nat. by rewrite Eq.
  - destruct (driver_send (p :: q) w1) as [n w2]. exists w2. eexists _, new. rewrite <- E2. split; [|split; [done|]].
    + destruct (Z.eqb_spec (zlen (p :: q)) 0) as [H0|]; [|reflexivity]. by apply zlen_0_nil in H0.
    + exists n. done.
Qed.
End Qp.

(** ** Turns *)

Section Turns.
Context {BC : BeCodec} {W : Type}.
Variable hw_address : mac.
Variable providers : list (W -> W * option l3packet).
Abbreviation n := (length providers).

(** The provider that comes after [i], and how far [j] is from [i] in turn. *)
Definition next_turn (i : nat) : nat := if (S i =? n)%nat then O else S i.
Definition distance (i j : nat) : nat := if (i <=? j)%nat then (j - i)%nat else (n - i + j)%nat.

Lemma next_turn_lt i : (i < n)%nat -> (next_turn i < n)%nat.
Proof. unfold next_turn. destruct (Nat.eqb_spec (S i) n); lia. Qed.

Lemma distance_next i j : (i < n)%nat -> (j < n)%nat -> i <> j -> S (distance (next_turn i) j) = distance i j.
Proof.
  intros Hi Hj Hij. unfold distance, next_turn. destruct (Nat.eqb_spec (S i) n).
  - destruct (Nat.leb_spec 0 j); [|lia]. destruct (Nat.leb_spec i j); lia.
  - destruct (Nat.leb_spec (S i) j), (Nat.leb_spec i j); lia.
Qed.

Lemma distance_lt i j : (i < n)%nat -> (j < n)%nat -> (distance i j < n)%nat.
Proof. intros Hi Hj. unfold distance. destruct (Nat.leb_spec i j); lia. Qed.

(** The protocol [j] has a packet whenever it is asked. *)
Definition always_ready (j : nat) : Prop :=
  exists pr, providers !! j = Some pr /\ forall w, is_Some (snd (pr w)).

(** A poll serves [k]: it is the one before the next turn. *)
Lemma poll_serves j fuel : forall idx w, always_ready j -> (idx < n)%nat -> (distance idx j < fuel)%nat ->
  exists w' k p, poll_protocols hw_address providers fuel idx w = Some (w', next_turn k, Some p) /\ (k < n)%nat /\
    (k = j \/ (distance (next_turn k) j < distance idx j)%nat).
Proof.
  intros idx w Hr. pose proof Hr as (prj & Ej & Hj). pose proof (lookup_lt_Some _ _ _ Ej) as Hjn. revert idx w.
  induction fuel as [|fuel IH]; intros idx w Hi Hd; [lia|]. cbn [poll_protocols].
  destruct (lookup_lt_is_Some_2 providers idx Hi) as [pr Epr]. rewrite Epr. cbn [mbind option_bind].
  fold (next_turn idx). destruct (pr w) as [w1 [l|]] eqn:Ep.
  - exists w1, idx, (frame_of hw_address l). split_and!; [done|done|]. destruct (decide (idx = j)) as [->|Hne]; [by left|].
    right. pose proof (distance_next idx j Hi Hjn Hne). lia.
  - assert (idx <> j) as Hne.
    { intros ->. rewrite Ej in Epr. injection Epr as ->. destruct (Hj w) as [l El]. rewrite Ep in El. done. }
    pose proof (distance_next idx j Hi Hjn Hne).
    destruct (IH (next_turn idx) w1) as (w' & k & p & E & Hk & H'); [by apply next_turn_lt|lia|].
    exists w', k, p. split_and!; [done|done|]. destruct H' as [->|H']; [by left|right; lia].
Qed.

(** The protocols served by [m] polls of the interface. *)
Fixpoint served (m : nat) (w : W) (s : interface) : option (list nat) :=
  match m with
  | O => Some []
  | S m =>
      match interface_provider hw_address providers w s with
      | Some (w, s', Some p) =>
          l ← served m w s';
          Some ((if (provider_idx s' =? 0)%nat then n - 1 else provider_idx s' - 1)%nat :: l)
      | _ => None
      end
  end.

Lemma next_turn_pred k : (k < n)%nat -> (if (next_turn k =? 0)%nat then n - 1 else next_turn k - 1)%nat = k.
Proof. intros H. unfold next_turn. destruct (Nat.eqb_spec (S k) n); cbn; lia. Qed.

Lemma served_within j m : always_ready j -> forall w s, (provider_idx s < n)%nat -> (distance (provider_idx s) j < m)%nat ->
  exists l, served m w s = Some l /\ j ∈ l.
Proof.
  intros Hr. pose proof Hr as (prj & Ej & _). pose proof (lookup_lt_Some _ _ _ Ej) as Hjn.
  assert (Hall : forall m w s, (provider_idx s < n)%nat -> exists l, served m w s = Some l).
  { clear m. induction m as [|m IH]; intros w s Hi; cbn [served]; [by eexists|]. unfold interface_provider.
    destruct (poll_serves j n (provider_idx s) w Hr Hi) as (w' & k & p & -> & Hk & _); [by apply distance_lt|].
    cbn [mbind option_bind provider_idx]. destruct (IH w' (Interface (proto_map s) (queue_depth s) (next_turn k))) as [l ->];
      [by apply next_turn_lt|]. by eexists. }
  induction m as [|m IH]; intros w s Hi Hd; [lia|]. cbn [served]. unfold interface_provider.
  destruct (poll_serves j n (provider_idx s) w Hr Hi) as (w' & k & p & -> & Hk & Hor); [by apply distance_lt|].
  cbn [mbind option_bind provider_idx]. rewrite next_turn_pred by done.
  set (s' := Interface _ _ _). assert ((provider_idx s' < n)%nat) as Hi' by (by apply next_turn_lt).
  destruct Hor as [->|Hlt].
  - destruct (Hall m w' s' Hi') as [l ->]. exists (j :: l). split; [done|apply elem_of_cons; by left].
  - destruct (IH w' s' Hi') as (l & -> & Hl); [unfold s'; cbn; lia|]. exists (k :: l). split; [done|apply elem_of_cons; by right].
Qed.

(** C33. No protocol starves: one that always has a packet is served within as many
    polls of the interface as there are protocols, whatever the others do. *)
Theorem interface_round_robin j w s :
  always_ready j -> (provider_idx s < n)%nat -> exists l, served n w s = Some l /\ j ∈ l.
Proof.
  intros Hr Hi. apply served_within; [done|done|]. destruct Hr as (pr & E & _).
  apply distance_lt; [done|]. by eapply lookup_lt_Some.
Qed.
End Turns.

(** ** Receiving *)

Section Receive.
Context {BC : BeCodec}.
Variable rss_key : list Z.
Variable rss_table_bits : Z.
Variable sw_reta : Z -> option (list Z).
Variable this_shard_id : Z.

(** What happens to an interface; [k] packets are on their way to other shards. *)
Inductive if_step (s : interface) (k : Z) : interface -> Z -> Prop :=
  | if_dispatch p s' es : dispatch_packet rss_key rss_table_bits sw_reta this_shard_id p s = Some (s', es) ->
      if_step s k s' (k + zlen (List.filter (fun ev => match ev with IfForward _ _ => true | _ => false end) es))
  | if_forwarded : 0 < k -> if_step s k (forward_done s) (k - 1)
  | if_register proto fw s' : register_l3 proto fw s = Some s' -> if_step s k s' k
  | if_taken proto : if_step s k (rx_done proto s) k.

Inductive if_run : interface -> Z -> Prop :=
  | if_start : if_run interface_init 0
  | if_next s k s' k' : if_run s k -> if_step s k s' k' -> if_run s' k'.

(** Forwarding is bounded: in every execution, at most 1000 packets are on
    their way from this shard to others, and the counter is their number. *)
Theorem forward_bounded s k : if_run s k -> queue_depth s = k /\ 0 <= k <= 1000.
Proof.
  induction 1 as [|s k s' k' _ [IH Hk] Hs]; [done|]. destruct Hs as [p s' es E|Hp|proto fw s' E|proto].
  - revert E. unfold dispatch_packet. destruct (header_at _ _ _) as [eh|]; [|intros [= <- <-]; cbn; rewrite zlen_nil; lia].
    destruct (proto_map s !! _) as [l3|]; [|intros [= <- <-]; cbn; rewrite zlen_nil; lia].
    destruct (forward_dst _ _ _ _) as [fw|]; [|done]. cbn [mbind option_bind]. destruct (negb _).
    + unfold forward. destruct (Z.ltb_spec (queue_depth s) 1000); intros [= <- <-]; cbn.
      * change (zlen [_]) with 1. rewrite wrap_small by (pow2; lia). lia.
      * rewrite zlen_nil. lia.
    + destruct (drop_front _ _) as [q|]; [|done]. cbn [mbind option_bind].
      destruct (rx_ready l3); intros [= <- <-]; cbn; rewrite zlen_nil; lia.
  - unfold forward_done. cbn. rewrite wrap_small by (pow2; lia). lia.
  - unfold register_l3 in E. destruct (proto_map s !! proto); [done|]. injection E as <-. done.
  - done.
Qed.

Lemma header_front n h rest : zlen h = n -> header_at 0 n (h ++ rest) = Some h.
Proof.
  intros <-. unfold header_at. rewrite zlen_app. pose proof (zlen_nonneg rest).
  destruct (Z.ltb_spec (zlen h + zlen rest) (0 + zlen h)); [lia|]. by rewrite slice_app_l.
Qed.

Lemma length_eth_hdr_write h : mac_ok (dst_mac h) -> mac_ok (src_mac h) -> zlen (eth_hdr_write h) = eth_hdr_len.
Proof.
  intros H1 H2. unfold eth_hdr_write, mac_write, zlen, mac_ok in *. rewrite !length_app, length_write_be, H1, H2. done.
Qed.

(** What becomes of the frame that an interface builds for [l]. *)
Lemma dispatch_frame hw l l3 p cpu s :
  mac_ok hw -> mac_ok (l3_to l) -> is_uint 16 (l3_proto l) ->
  rx_bytes p = bytes (frame_of hw l) -> proto_map s !! l3_proto l = Some l3 ->
  forward_dst rss_table_bits sw_reta this_shard_id (frame_hash rss_key p l3) = Some cpu ->
  dispatch_packet rss_key rss_table_bits sw_reta this_shard_id p s =
  Some (if cpu =? this_shard_id
        then if rx_ready l3
             then (set_proto_map (<[l3_proto l := L3RxStream false (rx_forward l3)]> (proto_map s)) s,
                   [IfProduce (l3_proto l) (bytes (l3_p l)) hw])
             else (s, [])
        else forward cpu p s).
Proof.
  intros Hhw Hto Hp Eb El Ef. unfold dispatch_packet. rewrite Eb. unfold frame_of. cbn [bytes].
  set (h := EthHdr (l3_to l) hw (l3_proto l)). pose proof (length_eth_hdr_write h Hto Hhw) as Hz.
  rewrite (header_front _ _ _ Hz).
  assert (eth_hdr_read (eth_hdr_write h) = h) as ->.
  { rewrite <- (app_nil_r (eth_hdr_write h)). by apply eth_hdr_read_write. }
  cbn [eth_proto src_mac h]. rewrite El, Ef. cbn [mbind option_bind]. destruct (cpu =? this_shard_id); cbn [negb]; [|done].
  rewrite drop_front_ok by (rewrite zlen_app, Hz; pose proof (zlen_nonneg (bytes (l3_p l))); unfold eth_hdr_len; lia).
  cbn [mbind option_bind]. rewrite drop_app_length' by (unfold zlen in Hz; lia). by destruct (rx_ready l3).
Qed.

(** Frames arrive: the frame that an interface builds for a packet of a
    protocol is, at the interface that receives it, given to the same protocol with
    the bytes of the packet and the sender's address, or forwarded whole to the
    shard that its hash selects; it is dropped only if the protocol still has its
    last packet or 1000 packets are being forwarded. *)
Theorem interface_frame_received hw l l3 p cpu s :
  mac_ok hw -> mac_ok (l3_to l) -> is_uint 16 (l3_proto l) ->
  rx_bytes p = bytes (frame_of hw l) -> proto_map s !! l3_proto l = Some l3 ->
  forward_dst rss_table_bits sw_reta this_shard_id (frame_hash rss_key p l3) = Some cpu ->
  exists s' es, dispatch_packet rss_key rss_table_bits sw_reta this_shard_id p s = Some (s', es) /\
    (cpu = this_shard_id -> rx_ready l3 = true -> es = [IfProduce (l3_proto l) (bytes (l3_p l)) hw] /\
       option_map rx_ready (proto_map s' !! l3_proto l) = Some false) /\
    (cpu <> this_shard_id -> queue_depth s < 1000 -> es = [IfForward cpu p]) /\
    (es = [] -> s' = s /\ (cpu = this_shard_id /\ rx_ready l3 = false \/ cpu <> this_shard_id /\ 1000 <= queue_depth s)).
Proof.
  intros Hhw Hto Hp Eb El Ef. rewrite (dispatch_frame hw l l3 p cpu s) by done. unfold forward.
  destruct (Z.eqb_spec cpu this_shard_id) as [->|Hne]; [destruct (rx_ready l3) eqn:Er|destruct (Z.ltb_spec (queue_depth s) 1000)];
    eexists _, _; (split; [reflexivity|]); split_and!; try done; try lia.
  - intros _ _. cbn. by rewrite lookup_insert_eq.
  - intros _. split; [done|by left].
  - intros _. split; [done|by right].
Qed.
End Receive.

(** ** Witnesses *)

Import Core.Impl.

Module Ex.
Definition p (b : Z) : packet := pkt [b].
(** A provider with a fixed number of packets left, in the state of the world. *)
Definition counted : packet_provider nat := fun '(w, s) =>
  match w with O => (O, s, None) | S w => (w, s, Some (p (Z.of_nat w))) end.
Definition half (q : list packet) (w : nat) : nat * nat := (Nat.div (length q) 2, w).

Lemma counted_ok : provider_ok counted.
Proof. intros [|w] s; done. Qed.

Definition l3 (b : Z) : l3packet := L3Packet 2048 [1; 2; 3; 4; 5; 6] (pkt [b]).
Definition busy (w : nat) : nat * option l3packet := (S w, Some (l3 (Z.of_nat w mod 256))).
Definition idle (w : nat) : nat * option l3packet := (w, None).

Definition iface : interface := default interface_init (register_l3 2048 (fun _ _ _ => Some None) interface_init).
End Ex.

Lemma qp_poll_tx_witness :
  exists w' s' new, poll_tx Ex.half [Ex.counted; proxy_provider] 129 (200%nat, proxy_send (Ex.p 7) qp_init) =
      Some (w', s', negb (zlen (([] : list packet) ++ new) =? 0)) /\ zlen (([] : list packet) ++ new) <= 128.
Proof.
  assert (H : Forall provider_ok [Ex.counted; proxy_provider]).
  { constructor; [exact Ex.counted_ok|]. constructor; [exact proxy_provider_ok|constructor]. }
  assert (Hl : zlen [Ex.counted; proxy_provider] < 2 ^ 32) by (vm_compute; reflexivity).
  destruct (qp_poll_tx Ex.half [Ex.counted; proxy_provider] H 200%nat (proxy_send (Ex.p 7) qp_init) Hl) as (w' & s' & new & H1 & H2 & _).
  exists w', s', new. split; [exact H1|exact H2].
Defined.

Lemma interface_round_robin_witness :
  exists l, served [2; 0; 0; 0; 0; 9] [Ex.busy; Ex.idle; Ex.busy; Ex.busy] 4 0%nat interface_init = Some l /\ 2%nat ∈ l.
Proof.
  apply (interface_round_robin [2; 0; 0; 0; 0; 9] [Ex.busy; Ex.idle; Ex.busy; Ex.busy] 2 0%nat interface_init).
  - exists Ex.busy. split; [reflexivity|]. intros w. exists (Ex.l3 (Z.of_nat w mod 256)). reflexivity.
  - cbn. lia.
Defined.

Lemma forward_bounded_witness :
  exists s, if_run [] 0 (fun _ => Some (repeat 1 128)) 0 s 1 /\ queue_depth s = 1.
Proof.
  set (f := RxPacket (bytes (frame_of [2; 0; 0; 0; 0; 9] (Ex.l3 5))) (Some 3)).
  assert (H : if_run [] 0 (fun _ => Some (repeat 1 128)) 0 (Interface (proto_map Ex.iface) 1 0) 1).
  { eapply (if_next _ _ _ _ Ex.iface 0 _ (0 + zlen [IfForward 1 f])).
    - eapply (if_next _ _ _ _ interface_init 0); [apply if_start|]. apply (if_register _ _ _ _ _ _ 2048 (fun _ _ _ => Some None)). reflexivity.
    - eapply (if_dispatch _ _ _ _ _ _ f _ [IfForward 1 f]). vm_compute. reflexivity. }
  eexists. split; [exact H|]. exact (proj1 (forward_bounded [] 0 (fun _ => Some (repeat 1 128)) 0 _ _ H)).
Defined.

Lemma interface_frame_received_witness :
  exists s' es, dispatch_packet [] 0 (fun _ => None) 3 (RxPacket (bytes (frame_of [2; 0; 0; 0; 0; 9] (Ex.l3 5))) None) Ex.iface = Some (s', es) /\
    es = [IfProduce 2048 [5] [2; 0; 0; 0; 0; 9]].
Proof.
  destruct (interface_frame_received [] 0 (fun _ => None) 3 [2; 0; 0; 0; 0; 9] (Ex.l3 5) (L3RxStream true (fun _ _ _ => Some None))
    (RxPacket (bytes (frame_of [2; 0; 0; 0; 0; 9] (Ex.l3 5))) None) 3 Ex.iface) as (s' & es & H1 & H2 & _).
  all: try (vm_compute; reflexivity).
  - split; vm_compute; congruence.
  - exists s', es. split; [exact H1|]. apply H2; reflexivity.
Defined.
