(* ===== verification/NativeDevice.v ===== *)
(** * The queues of the shards: src/network/native-stack.cc, net.hh, net.cc

    [create_native_net_device] gives a shard below the number of hardware queues its
    own queue, which shares its frames with the shards that have none
    ([qp::configure_proxies], [qp::build_sw_reta]); the others get a proxy.  The
    weights are binary floating-point numbers, those of the Standard Library's
    [SpecFloat]: [float] has 24 bits and exponents up to 128, [double] 53 and 1024. *)

From S2P Require Import Prelude Core Toeplitz Packet Net Inet Interface.
From Stdlib Require Import Floats.SpecFloat.
From stdpp Require Import base numbers option gmap list.

#[local] Open Scope Z_scope.

Definition f32_add : spec_float -> spec_float -> spec_float := SFadd 24 128.
Definition f32_mul : spec_float -> spec_float -> spec_float := SFmul 24 128.
Definition f32_div : spec_float -> spec_float -> spec_float := SFdiv 24 128.
Definition f32_of_Z (n : Z) : spec_float := binary_normalize 24 128 n 0 false.
Definition f64_of_Z (n : Z) : spec_float := binary_normalize 53 1024 n 0 false.
Definition f64_of_f32 (x : spec_float) : spec_float :=
  match x with
  | S754_finite s m e => binary_normalize 53 1024 (if s then Z.neg m else Z.pos m) e s
  | _ => x
  end.
(** The literal 0.5 *)
Definition f64_half : spec_float := binary_normalize 53 1024 1 (-1) false.

(** [accum / total_weight * reta.size() - 0.5] *)
Definition reta_limit (accum total_weight : spec_float) : spec_float :=
  SFsub 53 1024 (f64_of_f32 (f32_mul (f32_div accum total_weight) (f32_of_Z 128))) f64_half.

(** A [std::map<unsigned, float>]: keys and values in the order of the keys. *)
Definition weight_map : Type := list (Z * spec_float).

(** [m[cpu] = w] *)
Fixpoint weights_set (cpu : Z) (w : spec_float) (m : weight_map) : weight_map :=
  match m with
  | [] => [(cpu, w)]
  | (c, v) :: m =>
      if cpu <? c then (cpu, w) :: (c, v) :: m
      else if cpu =? c then (cpu, w) :: m
      else (c, v) :: weights_set cpu w m
  end.

(** [while (idx < ...) reta[idx++] = cpu]: [idx] is the number of entries written;
    [None] is a write behind the 128 entries. *)
Fixpoint reta_while (free : nat) (limit : spec_float) (cpu : Z) (reta : list Z) : option (list Z) :=
  if SFltb (f64_of_Z (zlen reta)) limit then
    match free with
    | O => None
    | S free => reta_while free limit cpu (reta ++ [u8 cpu])
    end
  else Some reta.

Fixpoint reta_fill (total_weight accum : spec_float) (cpu_weights : weight_map) (reta : list Z) : option (list Z) :=
  match cpu_weights with
  | [] => Some reta
  | (cpu, weight) :: cpu_weights =>
      let accum := f32_add accum weight in
      reta ← reta_while (128 - length reta) (reta_limit accum total_weight) cpu reta;
      reta_fill total_weight accum cpu_weights reta
  end.

Definition total_weight (cpu_weights : weight_map) : spec_float :=
  fold_left (fun t x => f32_add t (snd x)) cpu_weights (S754_zero false).

(** [qp::build_sw_reta(cpu_weights)]; [junk] is what the uninitialised array holds. *)
Definition build_sw_reta (junk : list Z) (cpu_weights : weight_map) : option (list Z) :=
  reta ← reta_fill (total_weight cpu_weights) (S754_zero false) cpu_weights [];
  Some (reta ++ drop (length reta) junk).

(** [qp::configure_proxies(cpu_weights)]: the table of the queue, [Some None] when it
    gets none; the assertion that there are weights. *)
Definition configure_proxies (junk : list Z) (this_shard_id : Z) (cpu_weights : weight_map) : option (option (list Z)) :=
  match cpu_weights with
  | [] => None
  | [(cpu, _)] => if cpu =? this_shard_id then Some None else Some <$> build_sw_reta junk cpu_weights
  | _ => Some <$> build_sw_reta junk cpu_weights
  end.

Section NativeDevice.
Variable hw_queues_count : Z.
(** [smp::count] *)
Variable smp_count : Z.
(** The option [hw-queue-weight]. *)
Variable hw_queue_weight : spec_float.
Variable junk : list Z.

(** [for (i = ...; i < smp::count; i += hw_queues_count) cpu_weights[i] = 1] *)
Fixpoint proxy_weights (fuel : nat) (i : Z) (m : weight_map) : weight_map :=
  match fuel with
  | O => m
  | S fuel => if i <? smp_count then proxy_weights fuel (i + hw_queues_count) (weights_set i (f32_of_Z 1) m) else m
  end.

(** The weights of shard [qid], which has a hardware queue. *)
Definition cpu_weights (qid : Z) : weight_map :=
  weights_set qid hw_queue_weight
    (proxy_weights (Z.to_nat smp_count) (hw_queues_count + qid mod hw_queues_count) []).

(** What the start-up leaves in the [_sw_reta] of the queue of a shard: a proxy
    ([create_proxy_net_device]) has no table.  A shard whose table cannot be built
    counts as one without. *)
Definition local_queue_reta (shard : Z) : option (option (list Z)) :=
  if shard <? hw_queues_count then configure_proxies junk shard (cpu_weights shard) else Some None.
Definition native_reta (shard : Z) : option (list Z) := local_queue_reta shard ≫= id.

(** [device::l2receive(p)], run on the shard [cpu]: its interface listens to its queue. *)
Definition l2receive `{BeCodec} (rss_key : list Z) (rss_table_bits cpu : Z) (p : rx_packet) (s : interface) :
    option (interface * list if_event) :=
  dispatch_packet rss_key rss_table_bits native_reta cpu p s.
End NativeDevice.

(** ** The tables *)

(** The sum of the weights is a positive number and no write leaves the table. *)
Definition fills_table (m : weight_map) : Prop :=
  (exists mant e, total_weight m = S754_finite false mant e) /\
  is_Some (reta_fill (total_weight m) (S754_zero false) m []).

(** A positive number divided by itself is one. *)
Lemma f32_div_self m e : f32_div (S754_finite false m e) (S754_finite false m e) = f32_of_Z 1.
Proof.
  unfold f32_div, SFdiv, SFdiv_core_binary. cbn [xorb]. rewrite !Z.sub_diag.
  change (Z.min (fexp 24 128 0) 0) with (-24). change (0 - -24) with 24. cbv match.
  rewrite Z.shiftl_mul_pow2 by lia.
  assert (Z.div_eucl (Z.pos m * 2 ^ 24) (Z.pos m) = (2 ^ 24, 0)) as ->; [|destruct m; vm_compute; reflexivity].
  pose proof (Z.div_mul (2 ^ 24) (Z.pos m) ltac:(done)) as Hd. pose proof (Z.mod_mul (2 ^ 24) (Z.pos m) ltac:(done)) as Hm.
  rewrite (Z.mul_comm (2 ^ 24)) in Hd, Hm. unfold Z.div, Z.modulo in Hd, Hm.
  destruct (Z.div_eucl (Z.pos m * 2 ^ 24) (Z.pos m)). by subst.
Qed.

(** The loop of the last entry goes on to the end of the table. *)
Lemma reta_limit_last m e : reta_limit (S754_finite false m e) (S754_finite false m e) = binary_normalize 53 1024 255 (-1) false.
Proof. unfold reta_limit. rewrite f32_div_self. vm_compute. reflexivity. Qed.

Lemma below_last : forallb (fun n => SFltb (f64_of_Z (Z.of_nat n)) (binary_normalize 53 1024 255 (-1) false)) (seq 0 128) = true.
Proof. vm_compute. reflexivity. Qed.

Lemma reta_while_spec free limit cpu reta reta' :
  reta_while free limit cpu reta = Some reta' ->
  (exists n, (n <= free)%nat /\ reta' = reta ++ repeat (u8 cpu) n) /\ SFltb (f64_of_Z (zlen reta')) limit = false.
Proof.
  revert reta. induction free as [|free IH]; intros reta; cbn [reta_while].
  - destruct (SFltb (f64_of_Z (zlen reta)) limit) eqn:E; [done|]. intros [= <-]. split; [|done]. exists 0%nat. by rewrite app_nil_r.
  - destruct (SFltb (f64_of_Z (zlen reta)) limit) eqn:E.
    + intros ((n & Hn & ->) & H)%IH. split; [|done]. exists (Datatypes.S n). split; [lia|]. by rewrite <- app_assoc.
    + intros [= <-]. split; [|done]. exists 0%nat. split; [lia|]. by rewrite app_nil_r.
Qed.

(** Entries are processors of the map, and there is room for all of them. *)
Lemma reta_fill_spec total m : forall accum reta reta',
  reta_fill total accum m reta = Some reta' -> (length reta <= 128)%nat ->
  (exists new, reta' = reta ++ new /\ Forall (fun c => exists k, k ∈ m.*1 /\ c = u8 k) new) /\ (length reta' <= 128)%nat.
Proof.
  induction m as [|[cpu w] m IH]; intros accum reta reta' E Hl; cbn [reta_fill] in E.
  { injection E as <-. split; [|done]. exists []. by rewrite app_nil_r. }
  destruct (reta_while _ _ _ _) as [r|] eqn:Ew; [|done]. cbn [mbind option_bind] in E.
  apply reta_while_spec in Ew as ((n & Hn & ->) & _).
  apply IH in E as ((new & -> & Hnew) & Hl'); [|rewrite length_app, repeat_length; lia].
  split; [|done]. exists (repeat (u8 cpu) n ++ new). rewrite <- app_assoc. split; [done|]. apply Forall_app. split.
  - apply Forall_forall. intros c Hc. apply list_elem_of_In, repeat_spec in Hc as ->. exists cpu. split; [by apply elem_of_cons; left|done].
  - eapply Forall_impl; [exact Hnew|]. intros c (k & Hk & ->). exists k. split; [by apply elem_of_cons; right|done].
Qed.

(** The loop of the last entry has ended. *)
Lemma reta_fill_last total m : m <> [] -> forall accum reta reta',
  reta_fill total accum m reta = Some reta' ->
  SFltb (f64_of_Z (zlen reta')) (reta_limit (fold_left (fun t x => f32_add t (snd x)) m accum) total) = false.
Proof.
  induction m as [|[cpu w] m IH]; [done|]. intros _ accum reta reta' E. cbn [reta_fill fold_left snd] in *.
  destruct (reta_while _ _ _ _) as [r|] eqn:Ew; [|done]. cbn [mbind option_bind] in E.
  destruct m as [|x m]; [|by apply (IH ltac:(done) _ r)].
  injection E as <-. by apply reta_while_spec in Ew as (_ & ?).
Qed.

(** A table that is filled has 128 entries, all of them keys of the map. *)
Lemma build_sw_reta_full junk m : m <> [] -> fills_table m -> length junk = 128%nat ->
  exists reta, build_sw_reta junk m = Some reta /\ length reta = 128%nat /\ Forall (fun c => exists k, k ∈ m.*1 /\ c = u8 k) reta.
Proof.
  intros Hne ((mant & e & Ht) & reta & E) Hj. exists reta. unfold build_sw_reta. rewrite E. cbn [mbind option_bind].
  pose proof (reta_fill_last _ m Hne _ _ _ E) as Hlast. fold (total_weight m) in Hlast. rewrite Ht, reta_limit_last in Hlast.
  apply reta_fill_spec in E as ((new & -> & Hnew) & Hl); [|cbn; lia]. cbn [app] in *.
  assert (length new = 128%nat) as Hn.
  { destruct (decide (length new < 128)%nat) as [Hlt|]; [|lia]. exfalso. pose proof below_last as Hb.
    rewrite forallb_forall in Hb. specialize (Hb (length new)). unfold zlen in Hlast.
    rewrite Hb in Hlast; [done|]. apply in_seq. lia. }
  split_and!; [|done|done]. by rewrite Hn, <- Hj, drop_all, app_nil_r.
Qed.

(** *** The keys *)

Lemma weights_set_keys cpu w m k : k ∈ (weights_set cpu w m).*1 <-> k = cpu \/ k ∈ m.*1.
Proof.
  induction m as [|[c v] m IH]; cbn [weights_set]; [by rewrite fmap_cons, elem_of_cons|].
  destruct (cpu <? c); [by rewrite fmap_cons, elem_of_cons|].
  destruct (Z.eqb_spec cpu c) as [->|]; rewrite !fmap_cons, !elem_of_cons; cbn [fst]; [|rewrite IH]; tauto.
Qed.

Section Tables.
Variable hw_queues_count smp_count : Z.
Variable hw_queue_weight : spec_float.
Variable junk : list Z.
Hypothesis Hqueues : 0 < hw_queues_count.

Lemma proxy_weights_keys fuel : forall i m k, hw_queues_count <= i ->
  k ∈ (proxy_weights hw_queues_count smp_count fuel i m).*1 -> k ∈ m.*1 \/ hw_queues_count <= k < smp_count.
Proof.
  induction fuel as [|fuel IH]; intros i m k Hi; cbn [proxy_weights]; [by left|].
  destruct (Z.ltb_spec i smp_count); [|by left].
  intros [[->|]%weights_set_keys|]%IH; [by right|by left|by right|lia].
Qed.

(** The rounds are enough: [i] grows in each, up to the number of shards. *)
Lemma proxy_weights_complete fuel : forall i m k, smp_count <= i + Z.of_nat fuel ->
  k ∈ m.*1 \/ (exists j, 0 <= j /\ k = i + j * hw_queues_count) /\ k < smp_count ->
  k ∈ (proxy_weights hw_queues_count smp_count fuel i m).*1.
Proof.
  induction fuel as [|fuel IH]; intros i m k Hf Hk; cbn [proxy_weights].
  { destruct Hk as [Hk|((j & Hj & ->) & Hlt)]; [done|nia]. }
  destruct (Z.ltb_spec i smp_count) as [Hi|Hi].
  - apply IH; [lia|]. destruct Hk as [Hk|((j & Hj & ->) & Hlt)]; [left; apply weights_set_keys; by right|].
    destruct (decide (j = 0)) as [->|]; [left; apply weights_set_keys; left; lia|].
    right. split; [|done]. exists (j - 1). split; [lia|nia].
  - destruct Hk as [Hk|((j & Hj & ->) & Hlt)]; [done|nia].
Qed.

(** Every shard without a hardware queue has its frames from the queue that is named by
    the remainder. *)
Lemma cpu_weights_master k : hw_queues_count <= k < smp_count ->
  k ∈ (cpu_weights hw_queues_count smp_count hw_queue_weight (k mod hw_queues_count)).*1.
Proof.
  intros Hk. unfold cpu_weights. pose proof (Z.mod_pos_bound (k mod hw_queues_count) hw_queues_count Hqueues).
  apply weights_set_keys. right. apply proxy_weights_complete; [lia|]. right. split; [|lia].
  rewrite Zmod_mod. exists (k / hw_queues_count - 1). pose proof (Z.div_mod k hw_queues_count ltac:(lia)).
  pose proof (Z.div_le_lower_bound k hw_queues_count 1 ltac:(lia) ltac:(lia)). split; [lia|nia].
Qed.

(** The frames of a hardware queue go to its shard or to one without a queue. *)
Lemma cpu_weights_keys qid k : k ∈ (cpu_weights hw_queues_count smp_count hw_queue_weight qid).*1 ->
  k = qid \/ hw_queues_count <= k < smp_count.
Proof.
  unfold cpu_weights. pose proof (Z.mod_pos_bound qid hw_queues_count Hqueues).
  intros [->|[Hk|]%proxy_weights_keys]%weights_set_keys; [by left|cbn in Hk; set_solver|by right|lia].
Qed.

Lemma cpu_weights_nonempty qid : cpu_weights hw_queues_count smp_count hw_queue_weight qid <> [].
Proof. intros E. assert (qid ∈ ([] : list Z)) as Hq; [|set_solver]. change ([] : list Z) with (@nil (Z * spec_float)).*1. rewrite <- E. by apply weights_set_keys; left. Qed.

Hypothesis Hsmp : smp_count <= 256.
Hypothesis Hjunk : length junk = 128%nat.
Hypothesis Hfills : forall q, 0 <= q < hw_queues_count -> fills_table (cpu_weights hw_queues_count smp_count hw_queue_weight q).
Hypothesis Hfit : hw_queues_count <= smp_count.

(** Where a queue has a table, it has 128 entries, its own shard or one without a queue. *)
Lemma native_reta_ok q reta : 0 <= q ->
  native_reta hw_queues_count smp_count hw_queue_weight junk q = Some reta ->
  q < hw_queues_count /\ length reta = 128%nat /\ Forall (fun c => c = q \/ hw_queues_count <= c < smp_count) reta.
Proof.
  intros Hq. unfold native_reta, local_queue_reta. destruct (Z.ltb_spec q hw_queues_count) as [Hlt|]; [|done].
  destruct (build_sw_reta_full junk _ (cpu_weights_nonempty q) (Hfills q ltac:(lia)) Hjunk) as (reta' & Eb & Hlen & Hall).
  intros E. assert (reta = reta') as ->.
  { unfold configure_proxies in E. rewrite Eb in E. destruct (cpu_weights _ _ _ q) as [|[c w] [|x m]]; [done| |by injection E as ->].
    destruct (c =? q); [done|by injection E as ->]. }
  split_and!; [done|done|]. eapply Forall_impl; [exact Hall|]. intros c (k & Hk%cpu_weights_keys & ->).
  rewrite wrap_small by (pow2; lia). done.
Qed.

(** A shard without a hardware queue has no table, and every frame of a queue goes to
    its own shard or to one that keeps it. *)
Lemma native_forward_dst bits q hash : 0 <= q < hw_queues_count ->
  exists c, forward_dst bits (native_reta hw_queues_count smp_count hw_queue_weight junk) q (Some hash) = Some c /\
    0 <= c < smp_count /\
    (c <> q -> forall h, forward_dst bits (native_reta hw_queues_count smp_count hw_queue_weight junk) c h = Some c).
Proof.
  intros Hq. unfold forward_dst at 1. destruct (native_reta _ _ _ _ q) as [reta|] eqn:E.
  2:{ exists q. split_and!; [done|lia|lia|done]. }
  apply native_reta_ok in E as (_ & Hlen & Hall); [|lia]. cbn [mbind option_bind].
  destruct (lookup_lt_is_Some_2 reta (Z.to_nat (Z.shiftr hash bits mod 128))) as [c Hc].
  { rewrite Hlen. pose proof (Z.mod_pos_bound (Z.shiftr hash bits) 128 ltac:(lia)). lia. }
  exists c. pose proof (Forall_lookup_1 _ _ _ _ Hall Hc) as Hc'. cbn beta in Hc'. split_and!; [done|lia|lia|].
  intros Hne h. unfold forward_dst, native_reta, local_queue_reta. by destruct (Z.ltb_spec c hw_queues_count); [lia|].
Qed.
End Tables.

(** *** The default weight *)

(** The limits of the loops, which depend on the weights and not on the shards. *)
Fixpoint limits (total accum : spec_float) (ws : list spec_float) : list spec_float :=
  match ws with
  | [] => []
  | w :: ws => let accum := f32_add accum w in reta_limit accum total :: limits total accum ws
  end.

Definition within_table (limit : spec_float) : bool := negb (SFltb (f64_of_Z 128) limit).

Lemma reta_while_some limit cpu free : within_table limit = true -> forall reta, (length reta + free = 128)%nat ->
  is_Some (reta_while free limit cpu reta).
Proof.
  intros Hl. induction free as [|free IH]; intros reta Hf; cbn [reta_while].
  - unfold zlen. replace (length reta) with 128%nat by lia. change (Z.of_nat 128) with 128.
    unfold within_table in Hl. by destruct (SFltb _ _).
  - destruct (SFltb _ _); [|done]. apply IH. rewrite length_app. cbn. lia.
Qed.

Lemma reta_fill_some total m : forall accum reta, forallb within_table (limits total accum m.*2) = true ->
  (length reta <= 128)%nat -> is_Some (reta_fill total accum m reta).
Proof.
  induction m as [|[c w] m IH]; intros accum reta Hl Hr; [done|].
  rewrite fmap_cons in Hl. cbn [limits forallb snd reta_fill] in *. apply andb_prop in Hl as (Hw & Hl).
  destruct (reta_while_some _ c (128 - length reta) Hw reta) as [r Er]; [lia|]. rewrite Er. cbn [mbind option_bind].
  apply IH; [done|]. apply reta_while_spec in Er as ((n & Hn & ->) & _). rewrite length_app, repeat_length. lia.
Qed.

Lemma total_weight_fmap m : total_weight m = fold_left f32_add m.*2 (S754_zero false).
Proof. unfold total_weight. generalize (S754_zero false). induction m as [|[c w] m IH]; intros t; [done|]. cbn. apply IH. Qed.

(** Up to 64 shards of equal weights. *)
Definition equal_weights_fill (n : nat) : bool :=
  let ws := repeat (f32_of_Z 1) n in
  let total := fold_left f32_add ws (S754_zero false) in
  match total with
  | S754_finite false _ _ => forallb within_table (limits total (S754_zero false) ws)
  | _ => false
  end.

Lemma equal_weights_fill_all : forallb equal_weights_fill (seq 1 64) = true.
Proof. vm_compute. reflexivity. Qed.

Lemma all_equal_repeat {A} (x : A) l : Forall (fun y => y = x) l -> l = repeat x (length l).
Proof. induction 1 as [|y l -> _ IH]; cbn; congruence. Qed.

Lemma weights_set_values w cpu m : Forall (fun y => y = w) m.*2 ->
  Forall (fun y => y = w) (weights_set cpu w m).*2 /\ (length (weights_set cpu w m) <= S (length m))%nat.
Proof.
  induction m as [|[c v] m IH]; cbn [weights_set]; intros Hm; [by split; [repeat constructor|]|].
  rewrite fmap_cons in Hm. apply Forall_cons_1 in Hm as (Hv & Hm). cbn in Hv. subst v. destruct (IH Hm).
  destruct (cpu <? c); [|destruct (cpu =? c)]; rewrite !fmap_cons; (split; [by repeat constructor|cbn [length]; lia]).
Qed.

Lemma proxy_weights_values hwq smp fuel : 0 < hwq -> forall i m, Forall (fun y => y = f32_of_Z 1) m.*2 ->
  Forall (fun y => y = f32_of_Z 1) (proxy_weights hwq smp fuel i m).*2 /\
  (length (proxy_weights hwq smp fuel i m) <= length m + Z.to_nat (smp - i))%nat.
Proof.
  intros Hq. induction fuel as [|fuel IH]; intros i m Hm; cbn [proxy_weights]; [split; [done|lia]|].
  destruct (Z.ltb_spec i smp); [|split; [done|lia]].
  destruct (weights_set_values _ i m Hm) as (Hm' & Hl). destruct (IH (i + hwq) _ Hm'). split; [done|lia].
Qed.

(** With the default weight and up to 64 shards every table is filled. *)
Lemma default_weight_fills hwq smp q : 0 < hwq -> smp <= 64 -> 0 <= q -> fills_table (cpu_weights hwq smp (f32_of_Z 1) q).
Proof.
  intros Hq Hs Hq0. assert (cpu_weights hwq smp (f32_of_Z 1) q <> []) as Hne by (by apply cpu_weights_nonempty).
  unfold cpu_weights in *. set (m := weights_set _ _ _) in *. pose proof (Z.mod_pos_bound q hwq Hq).
  destruct (proxy_weights_values hwq smp (Z.to_nat smp) Hq (hwq + q mod hwq) []) as (Hv & Hl); [constructor|].
  destruct (weights_set_values _ q _ Hv) as (Hv' & Hl'). fold m in Hv', Hl'. apply all_equal_repeat in Hv'.
  rewrite length_fmap in Hv'. cbn [length] in Hl.
  assert (1 <= length m)%nat by (destruct m; [done|cbn; lia]).
  pose proof equal_weights_fill_all as Hall. rewrite forallb_forall in Hall. specialize (Hall (length m)).
  unfold equal_weights_fill in Hall. rewrite <- Hv' in Hall. assert (In (length m) (seq 1 64)) as Hin by (apply in_seq; lia).
  specialize (Hall Hin). unfold fills_table. rewrite <- total_weight_fmap in Hall.
  destruct (total_weight m) as [| | |[] mant e]; try done. split; [by eexists _, _|]. apply reta_fill_some; [done|cbn; lia].
Qed.
