(* ===== verification/Steering.v ===== *)
(** * Replies reach the shard that connects

    A shard that opens a connection draws a local port until the hash of the
    connection selects the shard itself ([tcp::connect]).  The frames of the peer
    are hashed by [ipv4::forward] and [tcp::forward] where they arrive
    ([interface::dispatch_packet]), and again where they are forwarded to.  Here:
    the hashes agree and, with the tables that [create_native_net_device] sets up,
    the second dispatch keeps the frame, so the connection's segments reach the
    shard that holds it. *)

From S2P Require Import Prelude Core ByteOrder Checksum Toeplitz Packet Net Inet Arp Ipv4 IpHeader TcpSeq TcpHdr PacketMerger TcbData Tcb Tcp Interface InterfaceSpec NativeDevice.
From Stdlib Require Import Floats.SpecFloat.
From stdpp Require Import base numbers option gmap list.

#[local] Open Scope Z_scope.

(** ** The bytes that are hashed *)

Lemma le_pushed n v : rev (be_bytes n (be_val (rev (be_bytes n v)))) = be_bytes n v.
Proof.
  rewrite <- (length_be_bytes n v) at 1. rewrite <- length_rev, be_bytes_be_val; [by rewrite rev_involutive|].
  apply Forall_rev, be_bytes_range.
Qed.

(** Addresses and ports in network order, the peer's first. *)
Definition hashed (i : connid) : list Z :=
  be_bytes 4 (id_foreign_ip i) ++ be_bytes 4 (id_local_ip i) ++ be_bytes 2 (id_foreign_port i) ++ be_bytes 2 (id_local_port i).

Lemma connid_hash_le key i : connid_hash LittleEndian key i = Some (toeplitz_hash key (hashed i)).
Proof.
  unfold connid_hash. cbn [hton htonl htons ntohl ntohs]. unfold htonl, htons, ntohl, ntohs, bswap.
  rewrite push_back_u32_ok by done. cbn [mbind option_bind]. rewrite le_pushed, push_back_u32_ok by done. cbn [mbind option_bind].
  rewrite le_pushed, push_back_u16_ok by done. cbn [mbind option_bind]. rewrite le_pushed, push_back_u16_ok by done.
  cbn [mbind option_bind]. by rewrite le_pushed, <- !app_assoc.
Qed.

(** The peer's segment: its IPv4 header without options, and its TCP header, of
    which only the ports matter here. *)
Definition segment_of (h : ip_hdr) (i : connid) (rest : list Z) : list Z :=
  ip_hdr_write LittleEndian h ++ be_bytes 2 (id_foreign_port i) ++ be_bytes 2 (id_local_port i) ++ rest.

Definition from_peer (h : ip_hdr) (i : connid) : Prop :=
  ip_hdr_ok h /\ src_ip h = id_foreign_ip i /\ dst_ip h = id_local_ip i /\ ip_proto h = ip_proto_tcp /\
  mf_of h = false /\ offset_of h = 0.

Lemma addresses_of h : ip_hdr_ok h ->
  slice 12 4 (ip_hdr_write LittleEndian h) = be_bytes 4 (src_ip h) /\
  slice 16 4 (ip_hdr_write LittleEndian h) = be_bytes 4 (dst_ip h).
Proof.
  intros (_ & _ & _ & _ & _ & _ & _ & _ & _ & _ & Hs & Hd). unfold ip_hdr_write.
  rewrite (st_ok LittleEndian 4 (src_ip h)), (st_ok LittleEndian 4 (dst_ip h)) by (done || (right; right; by left)). split; reflexivity.
Qed.

Lemma be_bytes_2 v : be_bytes 2 v = [v / 256 mod 256; v mod 256].
Proof. cbn. by rewrite Z.div_1_r. Qed.

(** [ipv4::forward] and [tcp::forward] hash the same bytes as the connection. *)
Lemma forward_hashed fr h i rest :
  from_peer h i -> zlen fr = eth_hdr_len -> 16 <= zlen rest ->
  ipv4_forward LittleEndian [] (fr ++ segment_of h i rest) eth_hdr_len = Some (hashed i).
Proof.
  intros (Hok & Hs & Hd & Hp & Hm & Ho) Hf Hr. unfold ipv4_forward, segment_of. rewrite <- Hf at 1.
  rewrite header_mid by apply length_ip_hdr_write. cbn [mbind option_bind]. destruct (addresses_of h Hok) as [-> ->].
  rewrite Hs, Hd. cbn [host_load]. rewrite push_back_u32_ok by done. cbn [mbind option_bind].
  rewrite le_pushed, push_back_u32_ok by done. cbn [mbind option_bind]. rewrite le_pushed.
  rewrite <- (app_nil_r (ip_hdr_write LittleEndian h)), ip_read_write by done. rewrite app_nil_r, Hp, Hm, Ho. cbn [l4_registered negb andb].
  unfold l4_forward. change (ip_proto_tcp =? ip_proto_tcp) with true. cbv match.
  rewrite app_assoc. rewrite <- Hf, <- (length_ip_hdr_write LittleEndian h), <- zlen_app. rewrite header_at_app.
  2:{ unfold zlen. rewrite !length_app, !length_be_bytes. unfold zlen in Hr. lia. }
  cbn [mbind option_bind]. rewrite !be_bytes_2. change (Z.to_nat 20) with 20%nat. cbn [app take nth].
  do 4 (rewrite push_back_u8_ok by done; cbn [mbind option_bind]).
  unfold hashed. rewrite !be_bytes_2. unfold wrap. rewrite !Zmod_mod, <- !app_assoc. done.
Qed.

Section Steering.
Context {BC : BeCodec} {AU : AlignUp} {T : Type} {TM : TimerOps T}.
Context {S : Type} {SO : SemaphoreOps S} {Q : Type} {QO : QueueOps Q nat}.
Variable hw_queues_count smp_count : Z.
Variable rss_key : list Z.
Variable rss_table_bits : Z.
Variable hw_queue_weight : spec_float.
Variable junk : list Z.

(** Several hardware queues, and shards for all of them; the processors fit the bytes
    of a table, and the weight fills it. *)
Hypothesis Hqueues : 1 < hw_queues_count.
Hypothesis Hfit : hw_queues_count <= smp_count <= 256.
Hypothesis Hjunk : length junk = 128%nat.
Hypothesis Hfills : forall q, 0 <= q < hw_queues_count -> fills_table (cpu_weights hw_queues_count smp_count hw_queue_weight q).

Abbreviation sw_reta := (native_reta hw_queues_count smp_count hw_queue_weight junk).

Definition hash2cpu (hash : Z) : Z := default 0 (device_hash2cpu hw_queues_count rss_table_bits sw_reta hash).

(** A hash selects a queue, and its table a shard that keeps what it is given. *)
Lemma hash2cpu_total hash : exists q, hash2qid hw_queues_count hash = Some q /\
  forward_dst rss_table_bits sw_reta q (Some hash) = Some (hash2cpu hash) /\
  (hash2cpu hash <> q -> forall h, forward_dst rss_table_bits sw_reta (hash2cpu hash) h = Some (hash2cpu hash)).
Proof.
  unfold hash2cpu, device_hash2cpu, hash2qid. destruct (Z.eqb_spec hw_queues_count 0); [lia|].
  eexists. split; [reflexivity|]. cbn [mbind option_bind].
  pose proof (Z.mod_pos_bound hash hw_queues_count ltac:(lia)).
  destruct (native_forward_dst hw_queues_count smp_count hw_queue_weight junk ltac:(lia) ltac:(lia) Hjunk Hfills ltac:(lia)
    rss_table_bits (hash mod hw_queues_count) hash) as (c & Ec & _ & Hc); [done|]. by rewrite Ec.
Qed.

(** What [ipv4] registers with the interface. *)
Definition ipv4_rx : l3_rx_stream := L3RxStream true (fun h p off => option_map Some (ipv4_forward LittleEndian h p off)).

(** A port that [connect] settles for: its hash selects this shard. *)
Lemma pick_port_steers host this ports dst dport (s : @tcp T S Q) id :
  pick_port LittleEndian host hw_queues_count rss_key hash2cpu this ports dst dport s = Some id ->
  id_local_ip id = host /\ id_foreign_ip id = dst /\ id_foreign_port id = dport /\ id_local_port id ∈ ports /\
  tcbs s !! id = None /\ hash2cpu (toeplitz_hash rss_key (hashed id)) = this.
Proof.
  induction ports as [|sp ports IH]; [done|]. cbn [pick_port].
  destruct (Z.ltb_spec 1 hw_queues_count); [|lia]. rewrite connid_hash_le. cbn [mbind option_bind].
  destruct (Z.eqb_spec (hash2cpu (toeplitz_hash rss_key (hashed (Connid host dst sp dport)))) this) as [Eh|Eh]; cbn [negb orb].
  - case_bool_decide as Ht.
    + intros E. apply IH in E as (H1 & H2 & H3 & H4 & H5). split_and!; try done. apply elem_of_cons. by right. apply H5. apply H5.
    + intros [= <-]. split_and!; try done; [apply elem_of_cons; by left|]. by apply eq_None_not_Some.
  - intros E. apply IH in E as (H1 & H2 & H3 & H4 & H5). split_and!; try done. apply elem_of_cons. by right. apply H5. apply H5.
Qed.

(** A frame of the peer, given a shard that it may be dispatched to. *)
Lemma frame_dispatched h i rest hw peer p q cpu (st : interface) :
  from_peer h i -> 16 <= zlen rest -> mac_ok hw -> mac_ok peer ->
  rx_bytes p = bytes (frame_of peer (L3Packet eth_proto_ipv4 hw (pkt (segment_of h i rest)))) ->
  rx_hash p ∈ [None; Some (toeplitz_hash rss_key (hashed i))] ->
  proto_map st !! eth_proto_ipv4 = Some ipv4_rx -> (cpu <> q -> queue_depth st < 1000) ->
  forward_dst rss_table_bits sw_reta q (Some (toeplitz_hash rss_key (hashed i))) = Some cpu ->
  option_map Datatypes.snd (dispatch_packet rss_key rss_table_bits sw_reta q p st) =
  Some [if cpu =? q then IfProduce eth_proto_ipv4 (segment_of h i rest) peer else IfForward cpu p].
Proof.
  intros Hh Hr Hhw Hpeer Eb Ehash Em Hd Ef.
  rewrite (dispatch_frame rss_key rss_table_bits sw_reta q peer (L3Packet eth_proto_ipv4 hw (pkt (segment_of h i rest))) ipv4_rx p cpu st);
    try done.
  - unfold forward. cbn [ipv4_rx rx_ready l3_proto l3_p]. destruct (Z.eqb_spec cpu q) as [|Hne]; [done|].
    specialize (Hd Hne). by destruct (Z.ltb_spec (queue_depth st) 1000); [|lia].
  - rewrite <- Ef. f_equal. unfold frame_hash. rewrite Eb. unfold frame_of. cbn [bytes rx_forward ipv4_rx l3_p l3_to l3_proto pkt].
    rewrite forward_hashed by (done || apply length_eth_hdr_write; done). cbn [option_map mbind option_bind].
    apply elem_of_cons in Ehash as [->|Ehash]; [done|]. apply list_elem_of_singleton in Ehash as ->. done.
Qed.

(** C19. The segments of a connection reach its shard: on a little-endian host with
    several hardware queues, whose tables the start-up has built from the weight of
    its queues, let [connect] settle for a local port on the shard [this].  A frame
    that carries a segment of the peer - an IPv4 header without options, not
    fragmented, behind it at least a whole TCP header - and whose hash is the hardware's or, on a
    device that gives none, the one that IPv4 and TCP choose, arrives on the shard [q]
    whose queue that hash selects.  There it is given to IPv4 if [q] is [this], and
    otherwise forwarded to [this], fewer than 1000 packets being on their way; and on
    [this], whatever the state of its interface, the second dispatch does not forward
    it again but gives it to IPv4, which is ready for a packet. *)
Theorem connect_replies_arrive host this ports dst dport (s : @tcp T S Q) id h rest q hw peer p (stq stt : interface) :
  pick_port LittleEndian host hw_queues_count rss_key hash2cpu this ports dst dport s = Some id ->
  from_peer h id -> 16 <= zlen rest -> mac_ok hw -> mac_ok peer ->
  rx_bytes p = bytes (frame_of peer (L3Packet eth_proto_ipv4 hw (pkt (segment_of h id rest)))) ->
  rx_hash p ∈ [None; Some (toeplitz_hash rss_key (hashed id))] ->
  hash2qid hw_queues_count (toeplitz_hash rss_key (hashed id)) = Some q ->
  proto_map stq !! eth_proto_ipv4 = Some ipv4_rx -> queue_depth stq < 1000 ->
  proto_map stt !! eth_proto_ipv4 = Some ipv4_rx ->
  option_map Datatypes.snd (dispatch_packet rss_key rss_table_bits sw_reta q p stq) =
    Some [if this =? q then IfProduce eth_proto_ipv4 (segment_of h id rest) peer else IfForward this p] /\
  (this <> q ->
   option_map Datatypes.snd (l2receive hw_queues_count smp_count hw_queue_weight junk rss_key rss_table_bits this p stt) =
     Some [IfProduce eth_proto_ipv4 (segment_of h id rest) peer]).
Proof.
  intros Ep Hh Hr Hhw Hpeer Eb Ehash Eq Em Hd Emt. apply pick_port_steers in Ep as (_ & _ & _ & _ & _ & Ht).
  destruct (hash2cpu_total (toeplitz_hash rss_key (hashed id))) as (q' & Eq' & Ef & Hkeep). rewrite Eq in Eq'. injection Eq' as <-.
  rewrite Ht in Ef, Hkeep. split; [by apply (frame_dispatched h id rest hw)|]. intros Hne.
  unfold l2receive. rewrite (frame_dispatched h id rest hw peer p this this stt) by (done || by apply Hkeep).
  by rewrite Z.eqb_refl.
Qed.
End Steering.

(** ** Concrete inputs *)

Module Ex.
Import Core.Impl.
Definition host : Z := 167772161.
Definition dst : Z := 167772162.
Definition mac_host : mac := [2; 0; 0; 0; 0; 1].
Definition mac_peer : mac := [2; 0; 0; 0; 0; 2].
Definition ports : list Z := map (fun k => 50001 + k) (seqZ 0 16).
Definition junk : list Z := repeat 0 128.
(** Shard 2 of four, of which 0 and 1 have hardware queues. *)
Definition picked : option connid :=
  pick_port LittleEndian host 2 Toeplitz.default_rsskey_40bytes (hash2cpu 2 4 1 (f32_of_Z 1) junk) 2 ports dst 80
    (tcp_init : @tcp (option Z) Z (Impl.queue_list nat)).
(** Shard 0 of two, with one hardware queue. *)
Definition picked_single : option connid :=
  pick_port LittleEndian host 1 Toeplitz.default_rsskey_40bytes (hash2cpu 1 2 0 (f32_of_Z 1) junk) 0 ports dst 80
    (tcp_init : @tcp (option Z) Z (Impl.queue_list nat)).
End Ex.

Import Core.Impl.

Lemma connect_replies_arrive_witness :
  let id := Connid Ex.host Ex.dst 50005 80 in
  let h := IpHdr 5 4 0 0 40 7 0 64 ip_proto_tcp 0 Ex.dst Ex.host in
  let p := RxPacket (bytes (frame_of Ex.mac_peer (L3Packet eth_proto_ipv4 Ex.mac_host (pkt (segment_of h id (repeat 0 16)))))) None in
  exists st, register_l3 eth_proto_ipv4 (rx_forward ipv4_rx) interface_init = Some st /\
    option_map Datatypes.snd (dispatch_packet default_rsskey_40bytes 1 (native_reta 2 4 (f32_of_Z 1) Ex.junk) 0 p st) = Some [IfForward 2 p] /\
    option_map Datatypes.snd (l2receive 2 4 (f32_of_Z 1) Ex.junk default_rsskey_40bytes 1 2 p st) =
      Some [IfProduce eth_proto_ipv4 (segment_of h id (repeat 0 16)) Ex.mac_peer].
Proof.
  intros id h p. set (st := set_proto_map {[eth_proto_ipv4 := L3RxStream true (rx_forward ipv4_rx)]} interface_init). exists st. split; [reflexivity|].
  assert (forall q, 0 <= q < 2 -> fills_table (cpu_weights 2 4 (f32_of_Z 1) q)) as Hf.
  { intros q Hq. apply default_weight_fills; lia. }
  edestruct (connect_replies_arrive 2 4 default_rsskey_40bytes 1 (f32_of_Z 1) Ex.junk ltac:(lia) ltac:(lia) eq_refl Hf Ex.host 2
    Ex.ports Ex.dst 80 (tcp_init : @tcp (option Z) Z (Impl.queue_list nat)) id h (repeat 0 16) 0 Ex.mac_host Ex.mac_peer p st st) as (H1 & H2).
  - vm_compute. reflexivity.
  - split_and!; try reflexivity. repeat split; vm_compute; congruence.
  - vm_compute. congruence.
  - reflexivity.
  - reflexivity.
  - reflexivity.
  - apply elem_of_cons. left. reflexivity.
  - vm_compute. reflexivity.
  - reflexivity.
  - vm_compute. reflexivity.
  - reflexivity.
  - split; [exact H1|]. apply H2. discriminate.
Defined.

(** With one hardware queue [connect] does not ask for the shard of the replies, yet the
    frames of the one queue are spread over the shards: those of a connection that
    shard 0 of two opens are given to IPv4 on shard 1, which does not hold it. *)
Example single_queue_misdirects :
  let id := Connid Ex.host Ex.dst 50001 80 in
  let h := IpHdr 5 4 0 0 40 7 0 64 ip_proto_tcp 0 Ex.dst Ex.host in
  let p := RxPacket (bytes (frame_of Ex.mac_peer (L3Packet eth_proto_ipv4 Ex.mac_host (pkt (segment_of h id (repeat 0 16)))))) None in
  Ex.picked_single = Some id /\
  exists st, register_l3 eth_proto_ipv4 (rx_forward ipv4_rx) interface_init = Some st /\
    option_map Datatypes.snd (dispatch_packet default_rsskey_40bytes 0 (native_reta 1 2 (f32_of_Z 1) Ex.junk) 0 p st) = Some [IfForward 1 p] /\
    option_map Datatypes.snd (l2receive 1 2 (f32_of_Z 1) Ex.junk default_rsskey_40bytes 0 1 p st) =
      Some [IfProduce eth_proto_ipv4 (segment_of h id (repeat 0 16)) Ex.mac_peer].
Proof.
  intros id h p. split; [vm_compute; reflexivity|]. eexists. split; [reflexivity|]. split; vm_compute; reflexivity.
Qed.
