(* ===== verification/RpcWire.v ===== *)
(** * RPC on the wire: include/nil/actor/rpc/rpc.hh, rpc_impl.hh, rpc_types.hh, src/rpc/rpc.cc

    The buffers of messages, the negotiation frame, the frames of requests,
    responses and streams, their marshalling and their compression.  What the
    user's serializer writes is a byte string; a compressor is the virtual
    interface of rpc_types.hh. *)

From S2P Require Import Prelude Core.
From stdpp Require Import base numbers option list.

#[local] Open Scope Z_scope.

(** [int64_t] of 64 bits. *)
Definition s64 (z : Z) : Z := if u64 z <? 2 ^ 63 then u64 z else u64 z - 2 ^ 64.

(** ** Buffers *)

(** [std::variant<std::vector<temporary_buffer<char>>, temporary_buffer<char>>] *)
Inductive bufs := One (b : list Z) | Many (l : list (list Z)).
Definition chunks_of (b : bufs) : list (list Z) := match b with One b => [b] | Many l => l end.
Definition flat (b : bufs) : list Z := concat (chunks_of b).

(** [struct snd_buf] and [struct rcv_buf]; the latter's semaphore units are with
    the queue that holds it. *)
Record snd_buf := SndBuf { s_size : Z; s_bufs : bufs }.
Record rcv_buf := RcvBuf { r_size : Z; r_bufs : bufs }.
Definition rcv_buf_init : rcv_buf := RcvBuf 0 (Many []).

Definition chunk_size : Z := 128 * 1024.

Section Buffers.
Context {TB : TemporaryBuffer} {LE : LeCodec}.

(** The loop of [snd_buf(size_)]. *)
Fixpoint alloc_chunks (fuel : nat) (size : Z) : option (list (list Z)) :=
  if size =? 0 then Some []
  else match fuel with
  | O => None
  | S fuel => let n := Z.min chunk_size size in l ← alloc_chunks fuel (size - n); Some (uninit n :: l)
  end.

(** [snd_buf(size_)]; the member is an [uint32_t]. *)
Definition snd_buf_alloc (size_ : Z) : option snd_buf :=
  let size := u32 size_ in
  if size <=? chunk_size then Some (SndBuf size (One (uninit size)))
  else l ← alloc_chunks (S (Z.to_nat (size_ / chunk_size))) size_; Some (SndBuf size (Many l)).

(** What happens to [front()]; [None] when there is no front. *)
Definition with_front (f : list Z -> option (list Z)) (b : snd_buf) : option snd_buf :=
  match s_bufs b with
  | One c => c ← f c; Some (SndBuf (s_size b) (One c))
  | Many (c :: l) => c ← f c; Some (SndBuf (s_size b) (Many (c :: l)))
  | Many [] => None
  end.

(** A store of [bs] at [front().get_write() + off]. *)
Definition write_front (off : Z) (bs : list Z) (b : snd_buf) : option snd_buf :=
  with_front (fun c => if off + zlen bs <=? zlen c then Some (splice off bs c) else None) b.

(** [front().trim_front(n)]; [size -= n] *)
Definition trim_snd (n : Z) (b : snd_buf) : option snd_buf :=
  b ← with_front (fun c => if n <=? zlen c then Some (drop (Z.to_nat n) c) else None) b;
  Some (SndBuf (u32 (s_size b - n)) (s_bufs b)).

(** Bytes laid over buffers of the same sizes. *)
Fixpoint refill_chunks (shape : list (list Z)) (bs : list Z) : list (list Z) :=
  match shape with
  | [] => []
  | c :: shape => take (length c) bs :: refill_chunks shape (drop (length c) bs)
  end.

(** [make_serializer_stream(output)], [skip(head)] and the writes of [bs]; a write
    beyond the end throws. *)
Definition write_stream (head : Z) (bs : list Z) (b : snd_buf) : option snd_buf :=
  let room := match s_bufs b with One c => zlen c | Many _ => s_size b end in
  if head + zlen bs <=? room then
    let all := splice head bs (flat (s_bufs b)) in
    Some (SndBuf (s_size b) (match s_bufs b with One _ => One all | Many l => Many (refill_chunks l all) end))
  else None.

(** [marshall(serializer, head_space, args...)]; [args] is what the serializer writes. *)
Definition marshall (head_space : Z) (args : list Z) : option snd_buf :=
  b ← snd_buf_alloc (zlen args + head_space); write_stream head_space args b.

(** ** Compression *)

(** [class compressor] and [compressor::factory] *)
Record compressor := Compressor {
  c_compress : Z -> snd_buf -> snd_buf; c_decompress : rcv_buf -> rcv_buf; c_name : list Z }.
Record compressor_factory := CompressorFactory {
  f_supported : list Z; f_negotiate : list Z -> bool -> option compressor }.

(** [connection::compress(buf)] *)
Definition compress (comp : option compressor) (buf : snd_buf) : option snd_buf :=
  match comp with
  | None => Some buf
  | Some c => let buf := c_compress c 4 buf in write_front 0 (write_le 4 (u32 (s_size buf - 4))) buf
  end.

(** ** Messages *)

Definition request_head : Z := 28.

(** The message that [send_helper] builds, with room for the expiration in front. *)
Definition request_message (t msg_id : Z) (args : list Z) : option snd_buf :=
  data ← marshall request_head args;
  data ← write_front 8 (write_le 8 (u64 t)) data;
  data ← write_front 16 (write_le 8 (u64 msg_id)) data;
  write_front 24 (write_le 4 (u32 (s_size data - request_head))) data.

(** [send_loop()]: the expiration of a request. *)
Definition request_expiration (timeout_negotiated : bool) (left_ms : Z) (data : snd_buf) : option snd_buf :=
  if timeout_negotiated then write_front 0 (write_le 8 (u64 left_ms)) data else trim_snd 8 data.

(** [respond(msg_id, data)]: the head of a response. *)
Definition response_head (msg_id : Z) (data : snd_buf) : option snd_buf :=
  data ← write_front 0 (write_le 8 (u64 msg_id)) data;
  write_front 8 (write_le 4 (u32 (s_size data - 12))) data.

Definition exception_user : Z := 0.
Definition exception_unknown_verb : Z := 1.

(** The message of [reply] for an exception with the text [what]. *)
Definition exception_message (what : list Z) : option snd_buf :=
  let len := u32 (zlen what) in
  data ← snd_buf_alloc (u32 (20 + len));
  write_stream 12 (write_le 4 exception_user ++ write_le 4 len ++ take (Z.to_nat len) what) data.

(** The message of [send_unknown_verb_reply]. *)
Definition unknown_verb_message (type : Z) : option snd_buf :=
  data ← snd_buf_alloc 28;
  data ← write_front 12 (write_le 4 exception_unknown_verb) data;
  data ← write_front 16 (write_le 4 8) data;
  write_front 20 (write_le 8 (u64 type)) data.

(** The message of a stream sink, and the one that ends the stream. *)
Definition stream_message (args : list Z) : option snd_buf :=
  data ← marshall 4 args; write_front 0 (write_le 4 (u32 (s_size data - 4))) data.
Definition stream_end : option snd_buf :=
  data ← marshall 4 []; write_front 0 (write_le 4 (u32 (-1))) data.

(** [unmarshal_exception(d)]; [None] when the buffer is too short and the read throws. *)
Inductive rpc_exception := UserError (what : list Z) | UnknownVerb (type : Z) | UnknownException.

Definition unmarshal_exception (d : list Z) : option rpc_exception :=
  if zlen d <? 8 then None
  else
    let ex_type := read_le 4 d in
    let ex_len := read_le 4 (drop 4 d) in
    let d := drop 8 d in
    if ex_type =? exception_user then
      if zlen d <? ex_len then None else Some (UserError (take (Z.to_nat ex_len) d))
    else if ex_type =? exception_unknown_verb then
      if zlen d <? 8 then None else Some (UnknownVerb (read_le 8 d))
    else Some UnknownException.
End Buffers.

(** ** Reading *)

Section Reading.
Context {LE : LeCodec} {I : Type} {IN : InputStream I}.

(** The loop of [read_rcv_buf]: the buffers, and what is left to read. *)
Fixpoint read_rest (fuel : nat) (togo : Z) (acc : list (list Z)) (i : I) : option (list (list Z) * Z * I) :=
  match fuel with
  | O => None
  | S fuel =>
      let '(data, i) := read_up_to togo i in
      if zlen data =? 0 then Some (acc, togo, i)
      else
        let togo := togo - zlen data in
        if togo =? 0 then Some (acc ++ [data], togo, i) else read_rest fuel togo (acc ++ [data]) i
  end.

(** [read_rcv_buf(in, size)]: each round takes a byte of the stream. *)
Definition read_rcv_buf (size : Z) (i : I) : option (rcv_buf * I) :=
  let fuel := S (length (in_pending i)) in
  let '(data, i) := read_up_to size i in
  if zlen data =? 0 then Some (rcv_buf_init, i)
  else if zlen data =? size then Some (RcvBuf size (One data), i)
  else
    '(l, togo, i) ← read_rest fuel (u32 (size - zlen data)) [data] i;
    Some (RcvBuf (u32 (size - togo)) (Many l), i).

(** The parameter [FrameType] of [read_frame]. *)
Record frame_type (H V : Type) := FrameType {
  header_size : Z; decode_header : list Z -> H; get_size : H -> Z; make_value : H -> rcv_buf -> V; empty_value : V }.
#[global] Arguments FrameType {H V}.
#[global] Arguments header_size {H V}.
#[global] Arguments decode_header {H V}.
#[global] Arguments get_size {H V}.
#[global] Arguments make_value {H V}.
#[global] Arguments empty_value {H V}.

(** [read_frame<FrameType>(info, in)] *)
Definition read_frame {H V} (ft : frame_type H V) (i : I) : option (V * I) :=
  let '(header, i) := read_exactly (header_size ft) i in
  if negb (zlen header =? header_size ft) then Some (empty_value ft, i)
  else
    let h := decode_header ft header in
    let size := get_size ft h in
    if size =? 0 then Some (make_value ft h rcv_buf_init, i)
    else
      '(rb, i) ← read_rcv_buf size i;
      Some (if negb (r_size rb =? size) then empty_value ft else make_value ft h rb, i).

(** [read_frame_compressed<FrameType>(info, compressor, in)] *)
Definition read_frame_compressed {H V} (ft : frame_type H V) (comp : option compressor) (i : I) : option (V * I) :=
  match comp with
  | None => read_frame ft i
  | Some c =>
      let '(header, i) := read_exactly 4 i in
      if negb (zlen header =? 4) then Some (empty_value ft, i)
      else
        let size := read_le 4 header in
        '(data, i) ← read_rcv_buf size i;
        if negb (r_size data =? size) then Some (empty_value ft, i)
        else
          let eb := c_decompress c data in
          '(v, _) ← read_frame ft (in_of_chunks (chunks_of (r_bufs eb))); Some (v, i)
  end.

(** [struct request_frame], [request_frame_with_timeout] *)
Definition request_header (p : list Z) : option Z * Z * Z * Z :=
  (None, read_le 8 p, s64 (read_le 8 (drop 8 p)), read_le 4 (drop 16 p)).
Definition request_value : Type := option Z * Z * Z * option rcv_buf.
Definition request_frame : frame_type (option Z * Z * Z * Z) request_value :=
  FrameType 20 request_header (fun '(_, _, _, size) => size)
    (fun '(expire, type, msg_id, _) data => (expire, type, msg_id, Some data)) (None, 0, 0, None).
Definition request_frame_with_timeout : frame_type (option Z * Z * Z * Z) request_value :=
  FrameType 28 (fun p => let '(_, type, msg_id, size) := request_header (drop 8 p) in (Some (read_le 8 p), type, msg_id, size))
    (get_size request_frame) (make_value request_frame) (empty_value request_frame).

(** [struct response_frame] *)
Definition response_value : Type := Z * option rcv_buf.
Definition response_frame : frame_type (Z * Z) response_value :=
  FrameType 12 (fun p => (s64 (read_le 8 p), read_le 4 (drop 8 p))) snd
    (fun '(msg_id, _) data => (msg_id, Some data)) (0, None).

(** [struct stream_frame]: the size -1 is the end of the stream. *)
Definition stream_frame : frame_type (Z * bool) (option rcv_buf) :=
  FrameType 4 (fun p => let size := read_le 4 p in if size =? u32 (-1) then (0, true) else (size, false)) fst
    (fun '(_, eos) data => Some (if (eos : bool) then RcvBuf (u32 (-1)) (r_bufs data) else data)) None.

(** [read_request_frame_compressed(in)] *)
Definition read_request (timeout_negotiated : bool) (comp : option compressor) (i : I) : option (request_value * I) :=
  if timeout_negotiated then read_frame_compressed request_frame_with_timeout comp i
  else read_frame_compressed request_frame comp i.
Definition read_response (comp : option compressor) (i : I) : option (response_value * I) :=
  read_frame_compressed response_frame comp i.
Definition read_stream (comp : option compressor) (i : I) : option (option rcv_buf * I) :=
  read_frame_compressed stream_frame comp i.
End Reading.

(** ** Negotiation *)

Definition rpc_magic : list Z := [83; 83; 84; 65; 82; 82; 80; 67].
Definition feature_compress : Z := 0.
Definition feature_timeout : Z := 1.
Definition feature_connection_id : Z := 2.
Definition feature_stream_parent : Z := 3.
Definition feature_isolation : Z := 4.

(** [feature_map], a [std::map]: by ascending feature *)
Definition feature_map : Type := list (Z * list Z).

(** [emplace], and assignment through [operator[]] *)
Fixpoint fm_emplace (k : Z) (v : list Z) (m : feature_map) : feature_map :=
  match m with
  | [] => [(k, v)]
  | (k', v') :: m' => if k <? k' then (k, v) :: m else if k =? k' then m else (k', v') :: fm_emplace k v m'
  end.
Fixpoint fm_set (k : Z) (v : list Z) (m : feature_map) : feature_map :=
  match m with
  | [] => [(k, v)]
  | (k', v') :: m' => if k <? k' then (k, v) :: m else if k =? k' then (k, v) :: m' else (k', v') :: fm_set k v m'
  end.

Section Negotiation.
Context {LE : LeCodec} {I : Type} {IN : InputStream I}.

(** [send_negotiation_frame(features)]: the bytes; [None] when the sum of the sizes
    wraps and the frame does not fit its buffer. *)
Definition feature_record (e : Z * list Z) : list Z := write_le 4 (u32 (fst e)) ++ write_le 4 (u32 (zlen (snd e))) ++ snd e.
Definition extra_len (features : feature_map) : Z := fold_left (fun n e => u32 (n + (8 + zlen (snd e)))) features 0.
Definition negotiation_frame (features : feature_map) : option (list Z) :=
  let bs := rpc_magic ++ write_le 4 (extra_len features) ++ concat (map feature_record features) in
  if zlen bs <=? 12 + extra_len features then Some bs else None.

(** The loop of [receive_negotiation_frame]; the inner [None] is a malformed frame. *)
Fixpoint parse_features (fuel : nat) (p : list Z) (m : feature_map) : option (option feature_map) :=
  match p with
  | [] => Some (Some m)
  | _ =>
      if zlen p <? 8 then Some None
      else
        let f_len := read_le 4 (drop 4 p) in
        let data := drop 8 p in
        if zlen data <? f_len then Some None
        else match fuel with
        | O => None
        | S fuel => parse_features fuel (drop (Z.to_nat f_len) data) (fm_emplace (read_le 4 p) (take (Z.to_nat f_len) data) m)
        end
  end.

(** [receive_negotiation_frame(c, in)]; the inner [None] is [closed_error]. *)
Definition receive_negotiation_frame (i : I) : option (option feature_map * I) :=
  let '(neg, i) := read_exactly 12 i in
  if negb (zlen neg =? 12) then Some (None, i)
  else
    let len := read_le 4 (drop 8 neg) in
    if negb (bool_decide (take 8 neg = rpc_magic)) then Some (None, i)
    else
      let '(extra, i) := read_exactly len i in
      if negb (zlen extra =? len) then Some (None, i)
      else m ← parse_features (length extra) extra []; Some (m, i).

(** [struct connection_id] *)
Definition make_id (id shard : Z) : Z := Z.lor (u64 (Z.shiftl id 16)) shard.
Definition make_invalid_id (id : Z) : Z := make_id id 65535.
Definition invalid_connection_id : Z := make_invalid_id 0.
Definition id_shard (id : Z) : Z := Z.land id 65535.
Definition id_valid (id : Z) : bool := negb (id_shard id =? 65535).

(** [serialize_connection_id], [deserialize_connection_id]; the terminating zero of
    the string is the only byte behind it. *)
Definition serialize_connection_id (id : Z) : list Z := write_le 8 id.
Definition deserialize_connection_id (s : list Z) : option Z :=
  if zlen (s ++ [0]) <? 8 then None else Some (read_le 8 (s ++ [0])).
End Negotiation.
