(* ===== verification/RpcWireSpec.v ===== *)
(** * What is written on an RPC connection is read from it

    Requests, responses, exceptions and the negotiation frame round-trip over any stream and
    any compressor that is [compressor_ok], the interface that RpcLz4Spec.v discharges. *)

From S2P Require Import Prelude Core RpcWire.
From Stdlib Require Import Sorting.Sorted.
From stdpp Require Import base numbers option list.

#[local] Open Scope Z_scope.

(** ** Little-endian numbers *)

Section Le.
Context {LE : LeCodec}.

Lemma zlen_write_le n v : zlen (write_le n v) = Z.of_nat n.
Proof. rewrite write_le_spec. unfold zlen. by rewrite length_rev, length_be_bytes. Qed.

Lemma read_write_le n v rest : read_le n (write_le n v ++ rest) = v mod 2 ^ (8 * Z.of_nat n).
Proof.
  pose proof (zlen_write_le n v) as Hz. unfold zlen in Hz.
  rewrite read_le_spec by (rewrite length_app; lia). rewrite take_app_length' by lia.
  by rewrite write_le_spec, rev_involutive, be_val_be_bytes.
Qed.

Lemma read_write_le_small n v rest : 0 <= v < 2 ^ (8 * Z.of_nat n) -> read_le n (write_le n v ++ rest) = v.
Proof. intros H. rewrite read_write_le. by apply Z.mod_small. Qed.

Lemma drop_write_le n v rest : drop n (write_le n v ++ rest) = rest.
Proof. apply drop_app_length'. pose proof (zlen_write_le n v). unfold zlen in *. lia. Qed.

Lemma drop_two_le k n m v w rest : k = (n + m)%nat -> drop k (write_le n v ++ write_le m w ++ rest) = rest.
Proof. intros ->. by rewrite <- drop_drop, !drop_write_le. Qed.
End Le.

Lemma s64_small z : 0 <= z < 2 ^ 63 -> s64 z = z.
Proof. intros H. unfold s64. rewrite wrap_small by lia. by destruct (Z.ltb_spec z (2 ^ 63)); [|lia]. Qed.

Lemma s64_signed z : - 2 ^ 63 <= z < 2 ^ 63 -> s64 (u64 z) = z.
Proof.
  intros H. unfold s64, wrap. rewrite Zmod_mod. change (2 ^ 64) with 18446744073709551616.
  change (2 ^ 63) with 9223372036854775808 in *. destruct (Z_lt_le_dec z 0).
  - rewrite <- (Z_mod_plus_full z 1), Z.mod_small by lia.
    destruct (Z.ltb_spec (z + 1 * 18446744073709551616) 9223372036854775808); lia.
  - rewrite Z.mod_small by lia. destruct (Z.ltb_spec z 9223372036854775808); lia.
Qed.

(** ** Buffers *)

Lemma splice_app_l {A} (bs l k : list A) off : 0 <= off -> off + zlen bs <= zlen l -> splice off bs (l ++ k) = splice off bs l ++ k.
Proof.
  unfold splice, zlen. intros H1 H2. rewrite take_app_le by lia. rewrite drop_app_le by lia. by rewrite <- !app_assoc.
Qed.

(** A message: the bytes of its front buffer, and those behind. *)
Definition message (b : snd_buf) (f r : list Z) : Prop :=
  s_size b = zlen (f ++ r) /\
  match s_bufs b with One c => c = f /\ r = [] | Many (c :: k) => c = f /\ concat k = r | Many [] => False end.

Lemma message_flat b f r : message b f r -> flat (s_bufs b) = f ++ r.
Proof.
  intros [_ H]. unfold flat. destruct (s_bufs b) as [c|[|c k]]; [|done|].
  - destruct H as [-> ->]. done.
  - by destruct H as [-> <-].
Qed.

Section Buffers.
Context {TB : TemporaryBuffer} {LE : LeCodec}.

Lemma with_front_message g b f r f' : message b f r -> g f = Some f' ->
  exists b', with_front g b = Some b' /\ s_size b' = s_size b /\
    match s_bufs b' with One c => c = f' /\ r = [] | Many (c :: k) => c = f' /\ concat k = r | Many [] => False end.
Proof.
  intros [Hs H] Hg. unfold with_front. destruct (s_bufs b) as [c|[|c k]]; [|done|].
  - destruct H as [-> ->]. rewrite Hg. eexists. split; [done|]. done.
  - destruct H as [-> <-]. rewrite Hg. eexists. split; [done|]. done.
Qed.

Lemma write_front_message b f r off bs : message b f r -> 0 <= off -> off + zlen bs <= zlen f ->
  exists b', write_front off bs b = Some b' /\ message b' (splice off bs f) r.
Proof.
  intros H Ho Hn. pose proof (zlen_nonneg bs). destruct (with_front_message
    (fun c => if off + zlen bs <=? zlen c then Some (splice off bs c) else None) b f r (splice off bs f) H) as (b' & E & Es & Eb).
  - by rewrite (proj2 (Z.leb_le _ _) Hn).
  - exists b'. split; [done|]. split; [|done]. destruct H as [Hs _]. rewrite Es, Hs, !zlen_app, zlen_splice; [done|lia|lia].
Qed.

Lemma trim_message b f r n : message b f r -> 0 <= n <= zlen f -> zlen (f ++ r) < 2 ^ 32 ->
  exists b', trim_snd n b = Some b' /\ message b' (drop (Z.to_nat n) f) r.
Proof.
  intros H Hn Hz. destruct (with_front_message (fun c => if n <=? zlen c then Some (drop (Z.to_nat n) c) else None)
    b f r (drop (Z.to_nat n) f) H) as (b' & E & Es & Eb).
  - by rewrite (proj2 (Z.leb_le _ _) (proj2 Hn)).
  - unfold trim_snd. rewrite E. cbn [mbind option_bind]. eexists. split; [done|]. split; [|done]. cbn [s_size].
    destruct H as [Hs _]. rewrite zlen_app in *. rewrite Es, Hs, zlen_drop by lia. pose proof (zlen_nonneg r).
    rewrite wrap_small by lia. lia.
Qed.

Lemma alloc_chunks_spec fuel : forall n, 0 <= n <= Z.of_nat fuel * chunk_size ->
  exists l, alloc_chunks fuel n = Some l /\ zlen (concat l) = n /\
    (0 < n -> exists c k, l = c :: k /\ zlen c = Z.min chunk_size n).
Proof.
  assert (Hc : 0 < chunk_size) by done. induction fuel as [|fuel IH]; intros n Hn.
  { assert (n = 0) as -> by lia. exists []. split_and!; [done|done|lia]. }
  cbn [alloc_chunks]. destruct (Z.eqb_spec n 0) as [->|H0]; [exists []; split_and!; [done|done|lia]|].
  destruct (IH (n - Z.min chunk_size n)) as (l & -> & Hl & _); [lia|]. cbn [mbind option_bind].
  pose proof (uninit_len (Z.min chunk_size n) ltac:(lia)) as Hu.
  eexists. split; [done|]. cbn [concat]. rewrite zlen_app, Hu, Hl. split; [lia|]. intros _. by eexists _, _.
Qed.

Lemma refill_chunks_concat l bs : length bs = length (concat l) -> concat (refill_chunks l bs) = bs.
Proof.
  revert bs. induction l as [|c l IH]; intros bs Hl; cbn [refill_chunks concat] in *; [by destruct bs|].
  rewrite length_app in Hl. rewrite IH; [apply take_drop|]. rewrite length_drop. lia.
Qed.

(** A new message of [n] bytes has its first ones in the front. *)
Lemma snd_buf_alloc_spec n : 0 < n < 2 ^ 32 ->
  exists b f r, snd_buf_alloc n = Some b /\ message b f r /\ zlen (f ++ r) = n /\ zlen f = Z.min chunk_size n.
Proof.
  intros Hn. unfold snd_buf_alloc. rewrite wrap_small by lia. destruct (Z.leb_spec n chunk_size).
  - pose proof (uninit_len n ltac:(lia)) as Hu. eexists _, _, []. split; [done|]. rewrite app_nil_r. unfold message. cbn [s_size s_bufs].
    rewrite app_nil_r. split_and!; try done. lia.
  - destruct (alloc_chunks_spec (S (Z.to_nat (n / chunk_size))) n) as (l & -> & Hl & Hc).
    { pose proof (Z.div_mod n chunk_size ltac:(done)). pose proof (Z.mod_pos_bound n chunk_size ltac:(done)).
      pose proof (Z.div_pos n chunk_size ltac:(lia) ltac:(done)). rewrite Nat2Z.inj_succ, Z2Nat.id by done. lia. }
    destruct (Hc ltac:(lia)) as (c & k & -> & Hck). cbn [mbind option_bind concat] in *.
    eexists _, c, (concat k). split; [done|]. unfold message. cbn [s_size s_bufs]. done.
Qed.

(** What is written into a message behind its head. *)
Lemma write_stream_message b f r head bs : message b f r -> 0 <= head <= zlen f -> head + zlen bs = zlen (f ++ r) ->
  exists b' f' r' hd, write_stream head bs b = Some b' /\ message b' f' r' /\ zlen f' = zlen f /\
    f' ++ r' = hd ++ bs /\ zlen hd = head.
Proof.
  intros H Hh Hz. pose proof (message_flat _ _ _ H) as Hf. destruct H as [Hs H]. unfold write_stream. rewrite Hf.
  pose proof (zlen_nonneg bs). pose proof (zlen_nonneg r). rewrite zlen_app in Hz.
  assert (Hall : splice head bs (f ++ r) = take (Z.to_nat head) f ++ bs).
  { unfold splice. rewrite take_app_le by (unfold zlen in *; lia). rewrite drop_ge, app_nil_r; [done|].
    rewrite length_app. unfold zlen in *. lia. }
  assert (Hl : zlen (splice head bs (f ++ r)) = zlen (f ++ r)) by (apply zlen_splice; rewrite ?zlen_app; lia).
  destruct (s_bufs b) as [c|[|c k]] eqn:Eb; [|done|].
  - destruct H as [-> ->]. rewrite zlen_nil in Hz. rewrite (proj2 (Z.leb_le (head + zlen bs) (zlen f))) by lia.
    eexists _, (splice head bs (f ++ [])), [], (take (Z.to_nat head) f). split; [done|]. unfold message. cbn [s_size s_bufs].
    rewrite !app_nil_r in *. rewrite Hl, zlen_take by lia. split_and!; try done.
  - destruct H as [-> <-]. rewrite Hs, (proj2 (Z.leb_le (head + zlen bs) (zlen (f ++ concat k)))) by (rewrite zlen_app; lia).
    set (all := splice head bs (f ++ concat k)) in *. cbn [refill_chunks].
    eexists _, (take (length f) all), (drop (length f) all), (take (Z.to_nat head) f). split; [done|]. unfold message. cbn [s_size s_bufs].
    rewrite take_drop, Hl. rewrite zlen_app in Hl |- *. unfold zlen in *. split_and!; try done.
    + apply refill_chunks_concat. rewrite length_drop. lia.
    + rewrite length_take. lia.
    + rewrite length_take. lia.
Qed.

Lemma marshall_message head args : 0 <= head <= chunk_size -> 0 < zlen args + head < 2 ^ 32 ->
  exists b f r hd, marshall head args = Some b /\ message b f r /\ f ++ r = hd ++ args /\ zlen hd = head /\ head <= zlen f.
Proof.
  intros Hh Hz. unfold marshall. destruct (snd_buf_alloc_spec (zlen args + head)) as (b & f & r & -> & Hm & Hn & Hf); [done|].
  cbn [mbind option_bind]. pose proof (zlen_nonneg args).
  destruct (write_stream_message b f r head args Hm) as (b' & f' & r' & hd & -> & Hm' & Hf' & Hb & Hd); [lia|lia|].
  exists b', f', r', hd. split_and!; [done|done|done|done|lia].
Qed.
End Buffers.

(** ** Reading a buffer *)

Section Reading.
Context {LE : LeCodec} {I : Type} {IN : InputStream I}.

Lemma read_exactly_app n i hd rest : in_pending i = hd ++ rest -> zlen hd = n ->
  exists i', read_exactly n i = (hd, i') /\ in_pending i' = rest.
Proof.
  intros E <-. pose proof (zlen_nonneg hd). destruct (read_exactly_spec (zlen hd) i ltac:(lia)) as [H1 H2].
  destruct (read_exactly (zlen hd) i) as [d i']. cbn [fst snd] in *. exists i'.
  rewrite E in H1, H2. rewrite take_app_length' in H1 by (unfold zlen; lia). rewrite drop_app_length' in H2 by (unfold zlen; lia).
  by rewrite H1, H2.
Qed.

(** Each round takes bytes off the stream; at the end of it, or when all is read,
    the loop stops. *)
Lemma read_rest_spec fuel : forall n acc i, 0 < n -> (length (in_pending i) < fuel)%nat ->
  exists l k i', read_rest fuel n acc i = Some (l, n - k, i') /\ concat l = concat acc ++ take (Z.to_nat n) (in_pending i) /\
    k = Z.min n (zlen (in_pending i)) /\ in_pending i' = drop (Z.to_nat n) (in_pending i).
Proof.
  induction fuel as [|fuel IH]; intros n acc i Hn Hf; [lia|]. cbn [read_rest].
  destruct (read_up_to_spec n i Hn) as (H1 & H2 & H3). destruct (read_up_to n i) as [d i1]. cbn [fst snd] in *.
  destruct (Z.eqb_spec (zlen d) 0) as [H0|H0].
  { apply zlen_0_nil in H0. subst d. specialize (H3 eq_refl). cbn [app] in H1. exists acc, 0, i1.
    rewrite H1, H3, take_nil, drop_nil, app_nil_r, Z.sub_0_r. change (zlen []) with 0. split_and!; [done|done|lia|done]. }
  pose proof (zlen_nonneg d). pose proof (zlen_nonneg (in_pending i1)).
  rewrite <- H1, zlen_app. destruct (Z.eqb_spec (n - zlen d) 0) as [Hd|Hd].
  - exists (acc ++ [d]), n, i1. rewrite concat_app. cbn [concat]. rewrite app_nil_r, Z.sub_diag, Hd.
    rewrite take_app_length', drop_app_length' by (unfold zlen in *; lia). split_and!; [done|done|lia|done].
  - rewrite <- H1, length_app in Hf. unfold zlen in H0. destruct (IH (n - zlen d) (acc ++ [d]) i1) as (l & k & i' & -> & E1 & E2 & E3); [lia|lia|].
    exists l, (zlen d + k), i'. split_and!; [do 2 f_equal; f_equal; lia| |lia|].
    + rewrite E1, concat_app. cbn [concat]. rewrite app_nil_r, <- app_assoc. f_equal.
      rewrite take_app_ge by (unfold zlen in *; lia). do 2 f_equal. unfold zlen. lia.
    + rewrite E3, drop_app_ge by (unfold zlen in *; lia). f_equal. unfold zlen. lia.
Qed.

(** However the stream cuts its bytes, the buffer holds the next [size] of them, or
    what there is before the end. *)
Lemma read_rcv_buf_spec size i : 0 <= size < 2 ^ 32 ->
  exists rb i', read_rcv_buf size i = Some (rb, i') /\ flat (r_bufs rb) = take (Z.to_nat size) (in_pending i) /\
    r_size rb = Z.min size (zlen (in_pending i)) /\ in_pending i' = drop (Z.to_nat size) (in_pending i).
Proof.
  intros Hs. unfold read_rcv_buf. pose proof (zlen_nonneg (in_pending i)).
  destruct (Z.eq_dec size 0) as [->|Hn].
  { destruct (read_up_to_0 i) as [H1 H2]. destruct (read_up_to 0 i) as [d i']. cbn [fst snd] in *. subst d.
    exists rcv_buf_init, i'. cbn. rewrite H2. split_and!; try done. lia. }
  destruct (read_up_to_spec size i ltac:(lia)) as (H1 & H2 & H3). destruct (read_up_to size i) as [d i1]. cbn [fst snd] in *.
  destruct (Z.eqb_spec (zlen d) 0) as [H0|H0].
  { apply zlen_0_nil in H0. subst d. specialize (H3 eq_refl). cbn [app] in H1. exists rcv_buf_init, i1.
    rewrite H1, H3, take_nil, drop_nil. change (zlen []) with 0. split_and!; try done. cbn. lia. }
  pose proof (zlen_nonneg d). pose proof (zlen_nonneg (in_pending i1)).
  destruct (Z.eqb_spec (zlen d) size) as [Hd|Hd].
  - exists (RcvBuf size (One d)), i1. rewrite <- H1, zlen_app. unfold flat. cbn [r_bufs r_size chunks_of concat]. rewrite app_nil_r.
    rewrite take_app_length', drop_app_length' by (unfold zlen in *; lia). split_and!; try done. lia.
  - rewrite wrap_small by lia.
    assert (length (in_pending i) = length d + length (in_pending i1))%nat as Hlen by (by rewrite <- H1, length_app).
    destruct (read_rest_spec (S (length (in_pending i))) (size - zlen d) [d] i1) as (l & k & i' & -> & E1 & E2 & E3); [lia|lia|].
    cbn [mbind option_bind]. eexists _, i'. split; [done|]. unfold flat. cbn [r_bufs r_size chunks_of]. rewrite <- H1, zlen_app.
    rewrite wrap_small by lia. split_and!.
    + rewrite E1. cbn [concat]. rewrite app_nil_r, take_app_ge by (unfold zlen in *; lia). do 2 f_equal. unfold zlen. lia.
    + lia.
    + rewrite E3, drop_app_ge by (unfold zlen in *; lia). f_equal. unfold zlen. lia.
Qed.

Lemma read_rcv_buf_app size i body rest : in_pending i = body ++ rest -> zlen body = size -> size < 2 ^ 32 ->
  exists rb i', read_rcv_buf size i = Some (rb, i') /\ flat (r_bufs rb) = body /\ r_size rb = size /\ in_pending i' = rest.
Proof.
  intros E Hb Hs. pose proof (zlen_nonneg body). pose proof (zlen_nonneg rest).
  destruct (read_rcv_buf_spec size i ltac:(lia)) as (rb & i' & E0 & E1 & E2 & E3). exists rb, i'. rewrite E in *.
  rewrite take_app_length' in E1 by (unfold zlen in *; lia). rewrite drop_app_length' in E3 by (unfold zlen in *; lia).
  rewrite zlen_app in E2. split_and!; try done. lia.
Qed.

(** ** Reading a frame *)

(** A value that a frame with this head and body stands for. *)
Definition frame_of_bytes {H V} (ft : frame_type H V) (hd body : list Z) (v : V) : Prop :=
  exists rb, flat (r_bufs rb) = body /\ r_size rb = zlen body /\ v = make_value ft (decode_header ft hd) rb.

Lemma read_frame_app {H V} (ft : frame_type H V) i hd body rest :
  in_pending i = hd ++ body ++ rest -> zlen hd = header_size ft ->
  get_size ft (decode_header ft hd) = zlen body -> zlen body < 2 ^ 32 ->
  exists v i', read_frame ft i = Some (v, i') /\ frame_of_bytes ft hd body v /\ in_pending i' = rest.
Proof.
  intros E Hh Hb Hs. unfold read_frame. destruct (read_exactly_app (header_size ft) i hd (body ++ rest) E Hh) as (i1 & -> & E1).
  rewrite Hh, Z.eqb_refl, Hb. cbn [negb]. destruct (Z.eqb_spec (zlen body) 0) as [H0|H0].
  - apply zlen_0_nil in H0. subst body. eexists _, i1. split; [done|]. split; [by exists rcv_buf_init|done].
  - destruct (read_rcv_buf_app (zlen body) i1 body rest E1 eq_refl Hs) as (rb & i' & -> & F1 & F2 & F3).
    cbn [mbind option_bind]. rewrite F2, Z.eqb_refl. cbn [negb]. eexists _, i'. split; [done|]. split; [by exists rb|done].
Qed.

(** A compressor that takes messages of up to 0x7e000000 bytes, the limit of LZ4, whose
    results fit the field of their size, and that its peer undoes. *)
Definition compressor_limit : Z := 2113929216.
Definition max_message (comp : option compressor) : Z := match comp with Some _ => compressor_limit + 1 | None => 2 ^ 32 end.

Lemma max_message_le comp : max_message comp <= 2 ^ 32.
Proof. by destruct comp. Qed.

Definition compressor_ok (c : compressor) : Prop := forall b f r, message b f r -> 0 < zlen (f ++ r) <= compressor_limit ->
  exists f' r' body, message (c_compress c 4 b) f' r' /\ 4 <= zlen f' /\ drop 4 (f' ++ r') = body /\ zlen body < 2 ^ 32 - 4 /\
    forall rb, flat (r_bufs rb) = body -> r_size rb = zlen body -> flat (r_bufs (c_decompress c rb)) = f ++ r.

Definition comp_ok (comp : option compressor) : Prop := match comp with Some c => compressor_ok c | None => True end.

(** The bytes that [send_loop] writes for a message. *)
Definition sent_as (comp : option compressor) (b : snd_buf) (bs : list Z) : Prop :=
  exists b', compress comp b = Some b' /\ flat (s_bufs b') = bs.

(** A message is sent, and read where it arrives, whatever follows it. *)
Lemma compressed_frame {H V} (ft : frame_type H V) comp b f r hd body :
  comp_ok comp -> message b f r -> f ++ r = hd ++ body -> 0 < header_size ft -> zlen hd = header_size ft ->
  get_size ft (decode_header ft hd) = zlen body -> zlen (hd ++ body) < max_message comp ->
  exists bs, sent_as comp b bs /\ forall i rest, in_pending i = bs ++ rest ->
    exists v i', read_frame_compressed ft comp i = Some (v, i') /\ frame_of_bytes ft hd body v /\ in_pending i' = rest.
Proof.
  intros Hc Hm Hf Hpos Hh Hb Hz. pose proof (zlen_nonneg body). rewrite zlen_app in Hz. pose proof (max_message_le comp).
  unfold sent_as, compress, read_frame_compressed.
  destruct comp as [c|].
  2:{ exists (hd ++ body). split; [eexists; split; [done|by rewrite (message_flat _ _ _ Hm)]|].
      intros i rest E. rewrite <- app_assoc in E. apply (read_frame_app ft i hd body rest E Hh Hb). lia. }
  destruct (Hc b f r Hm) as (f' & r' & z & Hm' & Hf4 & Hz4 & Hzl & Hdec); [rewrite Hf, zlen_app; unfold max_message in Hz; lia|].
  assert (zlen (f' ++ r') = 4 + zlen z) as Hall.
  { rewrite <- Hz4. unfold zlen. rewrite length_drop, length_app. unfold zlen in Hf4. lia. }
  assert (s_size (c_compress c 4 b) = 4 + zlen z) as Hsz by (rewrite <- Hall; apply Hm').
  rewrite Hsz. pose proof (zlen_nonneg z). replace (4 + zlen z - 4) with (zlen z) by lia. rewrite wrap_small by lia.
  destruct (write_front_message _ f' r' 0 (write_le 4 (zlen z)) Hm') as (b' & -> & Hm2); [lia|rewrite zlen_write_le; lia|].
  exists (write_le 4 (zlen z) ++ z). split.
  { eexists. split; [done|]. rewrite (message_flat _ _ _ Hm2). unfold splice. cbn [Z.to_nat]. rewrite take_0. cbn [app].
    pose proof (zlen_write_le 4 (zlen z)) as Hw. unfold zlen at 1 in Hw.
    replace (Z.to_nat 0 + length (write_le 4 (zlen z)))%nat with 4%nat by lia.
    rewrite <- app_assoc. f_equal. rewrite <- Hz4, drop_app_le by (unfold zlen in Hf4; lia). done. }
  intros i rest E. rewrite <- app_assoc in E.
  destruct (read_exactly_app 4 i _ _ E) as (i1 & -> & E1); [by rewrite zlen_write_le|].
  rewrite zlen_write_le. change (Z.of_nat 4 =? 4) with true. cbn [negb].
  rewrite <- (app_nil_r (write_le 4 (zlen z))), read_write_le_small by (change (2 ^ (8 * Z.of_nat 4)) with (2 ^ 32); lia).
  destruct (read_rcv_buf_app (zlen z) i1 z rest E1 eq_refl ltac:(lia)) as (rb & i' & -> & F1 & F2 & F3).
  cbn [mbind option_bind]. rewrite F2, Z.eqb_refl. cbn [negb].
  specialize (Hdec rb F1 F2). rewrite Hf in Hdec.
  destruct (read_frame_app ft (in_of_chunks (chunks_of (r_bufs (c_decompress c rb)))) hd body []) as (v & i2 & -> & Hv & _); try done.
  - rewrite in_pending_chunks, app_nil_r. exact Hdec.
  - lia.
  - cbn [mbind option_bind]. exists v, i'. split_and!; done.
Qed.

(** At the end of the stream there is no frame. *)
Lemma read_empty {H V} (ft : frame_type H V) comp i : 0 < header_size ft -> in_pending i = [] ->
  exists i', read_frame_compressed ft comp i = Some (empty_value ft, i').
Proof.
  intros Hn E. assert (He : forall n, 0 < n -> exists i', read_exactly n i = ([], i')).
  { intros n H0. destruct (read_exactly_spec n i ltac:(lia)) as [H1 _]. destruct (read_exactly n i) as [d i']. cbn [fst] in H1.
    rewrite E, take_nil in H1. subst d. by exists i'. }
  assert (Hz : forall n, 0 < n -> (zlen ([] : list Z) =? n) = false) by (intros n H0; apply Z.eqb_neq; change (zlen []) with 0; lia).
  unfold read_frame_compressed, read_frame. destruct comp as [c|].
  - destruct (He 4 ltac:(lia)) as [i' ->]. rewrite Hz by lia. by exists i'.
  - destruct (He (header_size ft) Hn) as [i' ->]. rewrite Hz by done. by exists i'.
Qed.
End Reading.

(** ** Messages *)

Lemma split_at {A} n (l : list A) : 0 <= n <= zlen l -> exists a b, l = a ++ b /\ zlen a = n.
Proof. intros H. exists (take (Z.to_nat n) l), (drop (Z.to_nat n) l). by rewrite take_drop, zlen_take. Qed.

Section Messages.
Context {TB : TemporaryBuffer} {LE : LeCodec}.

(** A field of the head is written over whatever was there. *)
Lemma write_field b f r a m z bs : message b f r -> f ++ r = a ++ m ++ z -> zlen bs = zlen m -> zlen a + zlen m <= zlen f ->
  exists b' f', write_front (zlen a) bs b = Some b' /\ message b' f' r /\ f' ++ r = a ++ bs ++ z /\ zlen f' = zlen f.
Proof.
  intros Hm E Hb Hf. pose proof (zlen_nonneg a). pose proof (zlen_nonneg bs).
  destruct (write_front_message b f r (zlen a) bs Hm) as (b' & -> & Hm'); [lia|lia|].
  exists b', (splice (zlen a) bs f). split_and!; [done|done| |apply zlen_splice; lia].
  rewrite <- splice_app_l by lia. rewrite E. unfold splice. unfold zlen in *.
  rewrite take_app_length' by lia. do 2 f_equal. rewrite app_assoc. apply drop_app_length'. rewrite length_app. lia.
Qed.

Lemma request_message_spec t id args : zlen args + 28 < 2 ^ 32 ->
  exists b f r junk, request_message t id args = Some b /\ message b f r /\ zlen junk = 8 /\ 28 <= zlen f /\
    f ++ r = junk ++ write_le 8 (u64 t) ++ write_le 8 (u64 id) ++ write_le 4 (zlen args) ++ args.
Proof.
  intros Hz. pose proof (zlen_nonneg args). unfold request_message, request_head.
  destruct (marshall_message 28 args) as (b & f & r & hd & -> & Hm & Hf & Hh & H28); [done|lia|]. cbn [mbind option_bind].
  destruct (split_at 8 hd) as (j & hd1 & -> & Hj); [lia|]. rewrite zlen_app in Hh.
  destruct (split_at 8 hd1) as (h1 & hd2 & -> & H1); [lia|]. rewrite zlen_app in Hh.
  destruct (split_at 8 hd2) as (h2 & h3 & -> & H2); [lia|]. rewrite zlen_app in Hh. rewrite <- !app_assoc in Hf.
  destruct (write_field b f r j h1 (h2 ++ h3 ++ args) (write_le 8 (u64 t)) Hm Hf) as (b1 & f1 & W1 & Hm1 & Hf1 & Hl1); [rewrite zlen_write_le; lia|lia|].
  rewrite Hj in W1. rewrite W1. cbn [mbind option_bind].
  rewrite app_assoc in Hf1.
  destruct (write_field b1 f1 r (j ++ write_le 8 (u64 t)) h2 (h3 ++ args) (write_le 8 (u64 id)) Hm1 Hf1) as (b2 & f2 & W2 & Hm2 & Hf2 & Hl2);
    [rewrite zlen_write_le; lia|rewrite zlen_app, zlen_write_le; lia|].
  rewrite zlen_app, zlen_write_le, Hj in W2. change (8 + Z.of_nat 8) with 16 in W2. rewrite W2. cbn [mbind option_bind].
  assert (s_size b2 = 28 + zlen args) as ->.
  { destruct Hm2 as [-> _]. rewrite Hf2, !zlen_app, !zlen_write_le. lia. }
  replace (28 + zlen args - 28) with (zlen args) by lia. rewrite wrap_small by lia. rewrite app_assoc in Hf2.
  destruct (write_field b2 f2 r ((j ++ write_le 8 (u64 t)) ++ write_le 8 (u64 id)) h3 args (write_le 4 (zlen args)) Hm2 Hf2)
    as (b3 & f3 & W3 & Hm3 & Hf3 & Hl3); [rewrite zlen_write_le; lia|rewrite !zlen_app, !zlen_write_le; lia|].
  rewrite !zlen_app, !zlen_write_le, Hj in W3. change (8 + Z.of_nat 8 + Z.of_nat 8) with 24 in W3. rewrite W3.
  exists b3, f3, r, j. rewrite Hf3, <- !app_assoc. split_and!; try done. lia.
Qed.

(** What leaves with a request: the time that is left for it, when that was
    negotiated, and its frame. *)
Definition request_bytes (tn : bool) (left_ms t id : Z) (args : list Z) : list Z :=
  (if tn then write_le 8 (u64 left_ms) else []) ++ write_le 8 (u64 t) ++ write_le 8 (u64 id) ++ write_le 4 (zlen args) ++ args.

Lemma request_sent tn left_ms t id args : zlen args + 28 < 2 ^ 32 ->
  exists b b' f r, request_message t id args = Some b /\ request_expiration tn left_ms b = Some b' /\
    message b' f r /\ f ++ r = request_bytes tn left_ms t id args.
Proof.
  intros Hz. destruct (request_message_spec t id args Hz) as (b & f & r & j & -> & Hm & Hj & H28 & Hf).
  unfold request_expiration, request_bytes. pose proof (zlen_nonneg args). destruct tn.
  - destruct (write_field b f r [] j _ (write_le 8 (u64 left_ms)) Hm Hf) as (b1 & f1 & W1 & Hm1 & Hf1 & _);
      [by rewrite zlen_write_le|rewrite zlen_nil; lia|]. rewrite zlen_nil in W1. by exists b, b1, f1, r.
  - destruct (trim_message b f r 8 Hm) as (b1 & W1 & Hm1); [lia|rewrite Hf, !zlen_app, !zlen_write_le; lia|].
    exists b, b1, (drop (Z.to_nat 8) f), r. split_and!; [done|done|done|].
    rewrite <- (drop_app_le f r) by (unfold zlen in H28; lia). rewrite Hf. apply drop_app_length'. unfold zlen in Hj. lia.
Qed.

Lemma response_sent id f r b payload : message b f r -> (exists hd, f ++ r = hd ++ payload /\ zlen hd = 12) -> 12 <= zlen f ->
  zlen payload + 12 < 2 ^ 32 ->
  exists b' f', response_head id b = Some b' /\ message b' f' r /\
    f' ++ r = write_le 8 (u64 id) ++ write_le 4 (zlen payload) ++ payload.
Proof.
  intros Hm (hd & Hf & Hh) H12 Hz. pose proof (zlen_nonneg payload). unfold response_head.
  destruct (split_at 8 hd) as (h1 & h2 & -> & H1); [lia|]. rewrite zlen_app in Hh. rewrite <- app_assoc in Hf.
  destruct (write_field b f r [] h1 (h2 ++ payload) (write_le 8 (u64 id)) Hm Hf) as (b1 & f1 & W1 & Hm1 & Hf1 & Hl1);
    [by rewrite zlen_write_le|rewrite zlen_nil; lia|]. rewrite zlen_nil in W1. rewrite W1. cbn [mbind option_bind].
  assert (s_size b1 = 12 + zlen payload) as ->.
  { destruct Hm1 as [-> _]. rewrite Hf1. cbn [app]. rewrite !zlen_app, !zlen_write_le. lia. }
  replace (12 + zlen payload - 12) with (zlen payload) by lia. rewrite wrap_small by lia.
  destruct (write_field b1 f1 r (write_le 8 (u64 id)) h2 payload (write_le 4 (zlen payload)) Hm1 Hf1) as (b2 & f2 & W2 & Hm2 & Hf2 & _);
    [rewrite zlen_write_le; lia|rewrite zlen_write_le; lia|]. rewrite zlen_write_le in W2. change (Z.of_nat 8) with 8 in W2. by exists b2, f2.
Qed.
End Messages.

(** ** Round trips *)

Section RoundTrips.
Context {TB : TemporaryBuffer} {LE : LeCodec} {I : Type} {IN : InputStream I}.
Variable comp : option compressor.
Hypothesis Hcomp : comp_ok comp.

Lemma request_header_read t id n rest : is_uint 64 t -> - 2 ^ 63 <= id < 2 ^ 63 -> is_uint 32 n ->
  request_header (write_le 8 (u64 t) ++ write_le 8 (u64 id) ++ write_le 4 n ++ rest) = (None, t, id, n).
Proof.
  intros Ht Hi Hn. unfold request_header. rewrite read_write_le. change (2 ^ (8 * Z.of_nat 8)) with (2 ^ 64).
  change 16%nat with (8 + 8)%nat. rewrite <- drop_drop, !drop_write_le, !read_write_le. unfold is_uint in *.
  change (2 ^ (8 * Z.of_nat 8)) with (2 ^ 64). change (2 ^ (8 * Z.of_nat 4)) with (2 ^ 32).
  change (u64 t mod 2 ^ 64) with (u64 (u64 t)). change (u64 id mod 2 ^ 64) with (u64 (u64 id)).
  rewrite !wrap_wrap, (wrap_small 64 t), s64_signed, Z.mod_small by lia. done.
Qed.
(** [bs] on the connection reads as [v] of a frame, whatever follows. *)
Definition reads_as {V} (read : I -> option (V * I)) (bs : list Z) (good : V -> Prop) : Prop :=
  forall i rest, in_pending i = bs ++ rest -> exists v i', read i = Some (v, i') /\ good v /\ in_pending i' = rest.

Definition buf_of (bs : list Z) (rb : rcv_buf) : Prop := flat (r_bufs rb) = bs /\ r_size rb = zlen bs.

Definition is_request (tn : bool) (left_ms t id : Z) (args : list Z) (v : request_value) : Prop :=
  exists rb, v = (if tn then Some left_ms else None, t, id, Some rb) /\ buf_of args rb.

Lemma request_transfer tn left_ms t id args b f r :
  is_uint 64 left_ms -> is_uint 64 t -> - 2 ^ 63 <= id < 2 ^ 63 -> zlen args + 28 < max_message comp ->
  message b f r -> f ++ r = request_bytes tn left_ms t id args ->
  exists bs, sent_as comp b bs /\ reads_as (read_request tn comp) bs (is_request tn left_ms t id args).
Proof.
  intros Hl Ht Hi Hz Hm Hf. unfold request_bytes, read_request in *. pose proof (zlen_nonneg args) as Ha. pose proof (max_message_le comp).
  assert (Hn : is_uint 32 (zlen args)) by (unfold is_uint; lia).
  assert (Hr : forall rest, request_header (write_le 8 (u64 t) ++ write_le 8 (u64 id) ++ write_le 4 (zlen args) ++ rest) = (None, t, id, zlen args))
    by (intros; by apply request_header_read).
  set (hd := write_le 8 (u64 t) ++ write_le 8 (u64 id) ++ write_le 4 (zlen args)) in *.
  assert (Hh : zlen hd = 20) by (unfold hd; rewrite !zlen_app, !zlen_write_le; done).
  specialize (Hr []). rewrite app_nil_r in Hr. fold hd in Hr.
  destruct tn.
  - destruct (compressed_frame (I := I) request_frame_with_timeout comp b f r (write_le 8 (u64 left_ms) ++ hd) args Hcomp Hm) as (bs & Hs & Hrd).
    + rewrite Hf. unfold hd. by rewrite <- !app_assoc.
    + done.
    + rewrite zlen_app, Hh, zlen_write_le. done.
    + cbn [decode_header request_frame_with_timeout]. rewrite drop_write_le, Hr. done.
    + rewrite !zlen_app, Hh, zlen_write_le. lia.
    + exists bs. split; [done|]. intros i rest E. destruct (Hrd i rest E) as (v & i' & Er & (rb & F1 & F2 & ->) & E'). eexists _, i'.
      split_and!; [done| |done]. exists rb. split; [|done]. cbn [decode_header request_frame_with_timeout make_value request_frame].
      rewrite drop_write_le, Hr, read_write_le. change (2 ^ (8 * Z.of_nat 8)) with (2 ^ 64).
      change (u64 left_ms mod 2 ^ 64) with (u64 (u64 left_ms)). rewrite wrap_wrap, wrap_small by (done || lia). done.
  - destruct (compressed_frame (I := I) request_frame comp b f r hd args Hcomp Hm) as (bs & Hs & Hrd).
    + rewrite Hf. unfold hd. by rewrite <- !app_assoc.
    + done.
    + done.
    + cbn [decode_header request_frame]. by rewrite Hr.
    + rewrite !zlen_app, Hh. lia.
    + exists bs. split; [done|]. intros i rest E. destruct (Hrd i rest E) as (v & i' & Er & (rb & F1 & F2 & ->) & E'). eexists _, i'.
      split_and!; [done| |done]. exists rb. split; [|done]. cbn [decode_header request_frame make_value]. by rewrite Hr.
Qed.

Lemma request_transferred tn left_ms t id args :
  is_uint 64 left_ms -> is_uint 64 t -> - 2 ^ 63 <= id < 2 ^ 63 -> zlen args + 28 < max_message comp ->
  exists b b' bs, request_message t id args = Some b /\ request_expiration tn left_ms b = Some b' /\
    sent_as comp b' bs /\ reads_as (read_request tn comp) bs (is_request tn left_ms t id args).
Proof.
  intros Hl Ht Hi Hz. pose proof (max_message_le comp). destruct (request_sent tn left_ms t id args ltac:(lia)) as (b & b' & f & r & E1 & E2 & Hm & Hf).
  destruct (request_transfer tn left_ms t id args b' f r Hl Ht Hi Hz Hm Hf) as (bs & Hs & Hr). exists b, b', bs. done.
Qed.

(** C31. A request that a client sends is read by the server as it was made - its
    type, its number, its arguments, and the time it has left when that was
    negotiated - whatever follows it, however the stream cuts its bytes, and
    whether it is compressed or not. *)
Theorem rpc_request_round_trip tn left_ms t id args :
  is_uint 64 left_ms -> is_uint 64 t -> - 2 ^ 63 <= id < 2 ^ 63 -> zlen args + 28 < max_message comp ->
  exists b b' bs, request_message t id args = Some b /\ request_expiration tn left_ms b = Some b' /\
    sent_as comp b' bs /\ reads_as (read_request tn comp) bs (is_request tn left_ms t id args).
Proof. apply request_transferred. Qed.

(** What [respond] sends, for a message whose payload is behind a head of 12 bytes. *)
Definition is_response (id : Z) (payload : list Z) (v : response_value) : Prop :=
  exists rb, v = (id, Some rb) /\ buf_of payload rb.

Lemma response_transfer id b f r payload :
  - 2 ^ 63 <= id < 2 ^ 63 -> zlen payload + 12 < max_message comp ->
  message b f r -> (exists hd, f ++ r = hd ++ payload /\ zlen hd = 12) -> 12 <= zlen f ->
  exists b' bs, response_head id b = Some b' /\ sent_as comp b' bs /\ reads_as (read_response comp) bs (is_response id payload).
Proof.
  intros Hi Hz Hm Hp H12. destruct (response_sent id f r b payload Hm Hp H12 ltac:(pose proof (max_message_le comp); lia)) as (b' & f' & -> & Hm' & Hf').
  pose proof (zlen_nonneg payload). pose proof (max_message_le comp). set (hd := write_le 8 (u64 id) ++ write_le 4 (zlen payload)) in *.
  assert (Hd : decode_header response_frame hd = (id, zlen payload)).
  { cbn [decode_header response_frame]. unfold hd. rewrite drop_write_le, read_write_le. f_equal.
    - change (2 ^ (8 * Z.of_nat 8)) with (2 ^ 64). change (u64 id mod 2 ^ 64) with (u64 (u64 id)). rewrite wrap_wrap by lia. by apply s64_signed.
    - rewrite <- (app_nil_r (write_le 4 _)). apply read_write_le_small. change (2 ^ (8 * Z.of_nat 4)) with (2 ^ 32). lia. }
  destruct (compressed_frame (I := I) response_frame comp b' f' r hd payload Hcomp Hm') as (bs & Hs & Hrd).
  - rewrite Hf'. unfold hd. by rewrite <- app_assoc.
  - done.
  - unfold hd. rewrite zlen_app, !zlen_write_le. done.
  - by rewrite Hd.
  - unfold hd. rewrite !zlen_app, !zlen_write_le. lia.
  - exists b', bs. split_and!; [done|done|]. intros i rest E. destruct (Hrd i rest E) as (v & i' & Er & (rb & F1 & F2 & ->) & E').
    eexists _, i'. split_and!; [done| |done]. exists rb. rewrite Hd. done.
Qed.

(** A response that a server sends is read by the client as it was made: the
    number of the call, negative for an exception, and the payload. *)
Theorem rpc_response_round_trip id payload :
  - 2 ^ 63 <= id < 2 ^ 63 -> zlen payload + 12 < max_message comp ->
  exists b b' bs, marshall 12 payload = Some b /\ response_head id b = Some b' /\
    sent_as comp b' bs /\ reads_as (read_response comp) bs (is_response id payload).
Proof.
  intros Hi Hz. pose proof (zlen_nonneg payload). pose proof (max_message_le comp). destruct (marshall_message 12 payload) as (b & f & r & hd & E & Hm & Hf & Hh & H12); [done|lia|].
  destruct (response_transfer id b f r payload Hi Hz Hm (ex_intro _ hd (conj Hf Hh)) H12) as (b' & bs & E' & Hs & Hr).
  exists b, b', bs. done.
Qed.
End RoundTrips.

(** ** Exceptions *)

Section Exceptions.
Context {TB : TemporaryBuffer} {LE : LeCodec}.

Lemma exception_message_spec what : zlen what + 20 < 2 ^ 32 ->
  exists b f r hd, exception_message what = Some b /\ message b f r /\ zlen hd = 12 /\ 12 <= zlen f /\
    f ++ r = hd ++ write_le 4 exception_user ++ write_le 4 (zlen what) ++ what.
Proof.
  intros Hz. pose proof (zlen_nonneg what). unfold exception_message. rewrite (wrap_small 32 (zlen what)) by lia.
  rewrite wrap_small by lia. destruct (snd_buf_alloc_spec (20 + zlen what)) as (b & f & r & -> & Hm & Hn & Hf); [lia|].
  cbn [mbind option_bind]. rewrite take_ge by (unfold zlen; lia). assert (12 <= zlen f) by (unfold chunk_size in Hf; lia).
  destruct (write_stream_message b f r 12 (write_le 4 exception_user ++ write_le 4 (zlen what) ++ what) Hm)
    as (b' & f' & r' & hd & -> & Hm' & Hf' & Hb & Hd); [lia|rewrite Hn, !zlen_app, !zlen_write_le; lia|].
  exists b', f', r', hd. split_and!; [done|done|done|lia|done].
Qed.

Lemma unmarshal_user what rest : zlen what < 2 ^ 32 ->
  unmarshal_exception (write_le 4 exception_user ++ write_le 4 (zlen what) ++ what ++ rest) = Some (UserError what).
Proof.
  intros Hz. pose proof (zlen_nonneg what). pose proof (zlen_nonneg rest). unfold unmarshal_exception.
  rewrite !(drop_two_le 8 4 4), !drop_write_le, !read_write_le_small by (change (2 ^ (8 * Z.of_nat 4)) with (2 ^ 32); unfold exception_user; lia).
  rewrite !zlen_app, !zlen_write_le. destruct (Z.ltb_spec (Z.of_nat 4 + (Z.of_nat 4 + (zlen what + zlen rest))) 8); [lia|].
  rewrite Z.eqb_refl. destruct (Z.ltb_spec (zlen what + zlen rest) (zlen what)); [lia|].
  rewrite take_app_length' by (unfold zlen; lia). done.
Qed.

Lemma unknown_verb_message_spec type : exists b f r hd, unknown_verb_message type = Some b /\ message b f r /\ zlen hd = 12 /\
  12 <= zlen f /\ f ++ r = hd ++ write_le 4 exception_unknown_verb ++ write_le 4 8 ++ write_le 8 (u64 type).
Proof.
  unfold unknown_verb_message. destruct (snd_buf_alloc_spec 28) as (b & f & r & -> & Hm & Hn & Hf); [done|]. cbn [mbind option_bind].
  change (Z.min chunk_size 28) with 28 in Hf. assert (r = []) as -> by (apply zlen_0_nil; rewrite zlen_app in Hn; lia).
  rewrite app_nil_r in Hn. destruct (split_at 12 f) as (hd & f1 & -> & Hh); [lia|]. rewrite zlen_app in Hf.
  destruct (split_at 4 f1) as (h1 & f2 & -> & H1); [lia|]. rewrite zlen_app in Hf.
  destruct (split_at 4 f2) as (h2 & h3 & -> & H2); [lia|]. rewrite zlen_app in Hf.
  assert (Hall : zlen (hd ++ h1 ++ h2 ++ h3) = 28) by done.
  destruct (write_field b (hd ++ h1 ++ h2 ++ h3) [] hd h1 (h2 ++ h3) (write_le 4 exception_unknown_verb) Hm) as (b1 & g1 & W1 & Hm1 & Hg1 & Hl1);
    [by rewrite app_nil_r|rewrite zlen_write_le; lia|lia|]. rewrite Hh in W1. rewrite W1. cbn [mbind option_bind].
  rewrite app_assoc in Hg1.
  destruct (write_field b1 g1 [] (hd ++ write_le 4 exception_unknown_verb) h2 h3 (write_le 4 8) Hm1 Hg1) as (b2 & g2 & W2 & Hm2 & Hg2 & Hl2);
    [rewrite zlen_write_le; lia|rewrite zlen_app, zlen_write_le; lia|].
  rewrite zlen_app, zlen_write_le, Hh in W2. change (12 + Z.of_nat 4) with 16 in W2. rewrite W2. cbn [mbind option_bind].
  rewrite app_assoc, <- (app_nil_r h3) in Hg2.
  destruct (write_field b2 g2 [] ((hd ++ write_le 4 exception_unknown_verb) ++ write_le 4 8) h3 [] (write_le 8 (u64 type)) Hm2 Hg2)
    as (b3 & g3 & W3 & Hm3 & Hg3 & Hl3); [rewrite zlen_write_le; lia|rewrite !zlen_app, !zlen_write_le; lia|].
  rewrite !zlen_app, !zlen_write_le, Hh in W3. change (12 + Z.of_nat 4 + Z.of_nat 4) with 20 in W3.
  exists b3, g3, [], hd. rewrite Hg3, app_nil_r, <- !app_assoc. split_and!; try done. lia.
Qed.

Lemma unmarshal_unknown type : is_uint 64 type ->
  unmarshal_exception (write_le 4 exception_unknown_verb ++ write_le 4 8 ++ write_le 8 (u64 type)) = Some (UnknownVerb type).
Proof.
  intros Ht. unfold unmarshal_exception.
  rewrite !(drop_two_le 8 4 4), !drop_write_le, !read_write_le_small by (unfold exception_unknown_verb; vm_compute; intuition congruence).
  rewrite !zlen_app, !zlen_write_le. change (Z.of_nat 4 + (Z.of_nat 4 + Z.of_nat 8) <? 8) with false. cbn match.
  change (Z.of_nat 8 <? 8) with false. cbn match.
  rewrite <- (app_nil_r (write_le 8 _)), read_write_le_small; [by rewrite wrap_small|].
  change (2 ^ (8 * Z.of_nat 8)) with (2 ^ 64). apply wrap_range. lia.
Qed.
End Exceptions.

(** ** Negotiation *)

Section Negotiation.
Context {LE : LeCodec} {I : Type} {IN : InputStream I}.

Definition features_ok (m : feature_map) : Prop :=
  StronglySorted Z.lt (map fst m) /\ Forall (fun e => is_uint 32 (fst e)) m.
Definition features_size (m : feature_map) : Z := fold_right (fun e n => 8 + zlen (snd e) + n) 0 m.

Lemma features_size_cons k v m : features_size ((k, v) :: m) = 8 + zlen v + features_size m.
Proof. done. Qed.

Lemma features_size_nonneg m : 0 <= features_size m.
Proof. induction m as [|[k v] m IH]; [done|]. rewrite features_size_cons. pose proof (zlen_nonneg v). lia. Qed.

Lemma extra_len_spec m : features_size m < 2 ^ 32 -> extra_len m = features_size m.
Proof.
  unfold extra_len. assert (H : forall n, 0 <= n -> n + features_size m < 2 ^ 32 ->
    fold_left (fun n e => u32 (n + (8 + zlen (snd e)))) m n = n + features_size m).
  { induction m as [|[k v] m IH]; intros n Hn Hs; [cbn; lia|]. rewrite features_size_cons in *. cbn [fold_left snd].
    pose proof (zlen_nonneg v). pose proof (features_size_nonneg m). rewrite wrap_small by lia. rewrite IH by lia. lia. }
  intros Hs. by rewrite H.
Qed.

Lemma zlen_features m : zlen (concat (map feature_record m)) = features_size m.
Proof.
  induction m as [|[k v] m IH]; [done|]. rewrite features_size_cons. cbn [map concat]. rewrite zlen_app, IH. unfold feature_record.
  cbn [fst snd]. rewrite !zlen_app, !zlen_write_le. lia.
Qed.

Lemma fm_emplace_last k v m : Forall (fun e => fst e < k) m -> fm_emplace k v m = m ++ [(k, v)].
Proof.
  induction 1 as [|[k' v'] m Hk _ IH]; [done|]. cbn [fst] in Hk. cbn [fm_emplace].
  destruct (Z.ltb_spec k k'); [lia|]. destruct (Z.eqb_spec k k'); [lia|]. by rewrite IH.
Qed.

Lemma feature_record_eq k v : is_uint 32 k -> zlen v < 2 ^ 32 -> feature_record (k, v) = write_le 4 k ++ write_le 4 (zlen v) ++ v.
Proof. intros Hk Hv. unfold feature_record. cbn [fst snd]. pose proof (zlen_nonneg v). rewrite !wrap_small by (done || lia). done. Qed.

Lemma parse_features_spec m : Forall (fun e => is_uint 32 (fst e) /\ zlen (snd e) < 2 ^ 32) m -> forall fuel acc,
  StronglySorted Z.lt (map fst (acc ++ m)) -> (length (concat (map feature_record m)) <= fuel)%nat ->
  parse_features fuel (concat (map feature_record m)) acc = Some (Some (acc ++ m)).
Proof.
  induction 1 as [|[k v] m [Hk Hv] _ IH]; intros fuel acc Hs Hf; cbn [map concat fst snd] in *.
  { destruct fuel; by rewrite app_nil_r. }
  rewrite (feature_record_eq k v Hk Hv) in *.
  rewrite <- !app_assoc in *. set (rest := v ++ _) in *.
  pose proof (zlen_write_le 4 k) as Hw. pose proof (zlen_nonneg rest) as Hr0. pose proof (zlen_nonneg v) as Hv0.
  destruct fuel as [|fuel]; [unfold zlen in Hw; rewrite !length_app in Hf; lia|].
  assert (Hne : exists a b, write_le 4 k ++ write_le 4 (zlen v) ++ rest = a :: b).
  { destruct (write_le 4 k); [unfold zlen in Hw; cbn in Hw; lia|by eexists _, _]. }
  destruct Hne as (a & b & Hab). cbn [parse_features]. rewrite Hab. cbn match. rewrite <- Hab. clear a b Hab.
  rewrite !zlen_app, !zlen_write_le. destruct (Z.ltb_spec (Z.of_nat 4 + (Z.of_nat 4 + zlen rest)) 8); [lia|].
  rewrite !(drop_two_le 8 4 4), !drop_write_le by done.
  rewrite !read_write_le_small by (change (2 ^ (8 * Z.of_nat 4)) with (2 ^ 32); done || lia).
  unfold rest. rewrite zlen_app. pose proof (zlen_nonneg (concat (map feature_record m))).
  destruct (Z.ltb_spec (zlen v + zlen (concat (map feature_record m))) (zlen v)); [lia|].
  rewrite drop_app_length', take_app_length' by (unfold zlen; lia).
  rewrite map_app in Hs. cbn [map fst] in Hs.
  rewrite fm_emplace_last.
  - rewrite IH; [by rewrite <- app_assoc|by rewrite <- app_assoc, !map_app|]. unfold zlen in Hw. unfold rest in Hf. rewrite !length_app in Hf. lia.
  - apply Forall_forall. intros e He.
    assert (Hall : Forall (fun x => x < k) (map fst acc)).
    { clear -Hs. induction acc as [|[a w] acc IHa]; cbn in *; [constructor|]. apply StronglySorted_inv in Hs as [Hs Ha].
      constructor; [|by apply IHa]. rewrite Forall_forall in Ha. apply Ha, elem_of_app. right. apply elem_of_cons. by left. }
    rewrite Forall_forall in Hall. apply Hall. by apply list_elem_of_fmap_2.
Qed.

Lemma negotiation_transferred m : features_ok m -> features_size m < 2 ^ 32 ->
  exists bs, negotiation_frame m = Some bs /\ forall (i : I) rest, in_pending i = bs ++ rest ->
    exists i', receive_negotiation_frame i = Some (Some m, i') /\ in_pending i' = rest.
Proof.
  intros [Hs Hk] Hz. pose proof (features_size_nonneg m). unfold negotiation_frame. rewrite extra_len_spec by done.
  pose proof (zlen_features m) as Hl. rewrite !zlen_app, Hl, zlen_write_le. change (zlen rpc_magic) with 8.
  rewrite (proj2 (Z.leb_le _ _)) by lia. eexists. split; [done|]. intros i rest E.
  rewrite <- !app_assoc, app_assoc in E. unfold receive_negotiation_frame.
  destruct (read_exactly_app 12 i _ _ E) as (i1 & -> & E1); [by rewrite zlen_app, zlen_write_le|].
  rewrite zlen_app, zlen_write_le. change (zlen rpc_magic + Z.of_nat 4 =? 12) with true. cbn [negb].
  rewrite take_app_length', drop_app_length' by done. rewrite bool_decide_eq_true_2 by done. cbn [negb].
  rewrite <- (app_nil_r (write_le 4 _)), read_write_le_small by (change (2 ^ (8 * Z.of_nat 4)) with (2 ^ 32); lia).
  destruct (read_exactly_app (features_size m) i1 _ _ E1 Hl) as (i2 & -> & E2). rewrite Hl, Z.eqb_refl. cbn [negb].
  rewrite parse_features_spec; [|..|done].
  - cbn [mbind option_bind app]. by exists i2.
  - clear -Hk Hz. induction Hk as [|[k v] m Hk _ IH]; constructor; rewrite features_size_cons in Hz; cbn [fst snd] in *.
    + pose proof (features_size_nonneg m). split; [done|lia].
    + apply IH. pose proof (zlen_nonneg v). lia.
  - done.
Qed.

(** The features that one side sends are the features that the other side
    receives, whatever follows the frame. *)
Theorem rpc_negotiation_round_trip m : features_ok m -> features_size m < 2 ^ 32 ->
  exists bs, negotiation_frame m = Some bs /\ forall (i : I) rest, in_pending i = bs ++ rest ->
    exists i', receive_negotiation_frame i = Some (Some m, i') /\ in_pending i' = rest.
Proof. apply negotiation_transferred. Qed.

(** Whatever a peer sends to negotiate, the frame is read to its end or refused:
    the loop over the features ends. *)
Theorem rpc_negotiation_terminates (i : I) : is_Some (receive_negotiation_frame i).
Proof.
  unfold receive_negotiation_frame. destruct (read_exactly 12 i) as [neg i1]. destruct (negb _); [by eexists|].
  destruct (negb _); [by eexists|]. destruct (read_exactly _ i1) as [extra i2]. destruct (negb _); [by eexists|].
  assert (H : forall fuel p m, (length p <= fuel)%nat -> is_Some (parse_features fuel p m)).
  { induction fuel as [|fuel IH]; intros p m Hp; [destruct p; [by eexists|cbn in Hp; lia]|].
    destruct p as [|x p]; [by eexists|]. cbn [parse_features]. destruct (Z.ltb_spec (zlen (x :: p)) 8); [by eexists|].
    destruct (_ <? _); [by eexists|]. apply IH. rewrite !length_drop. unfold zlen in *. cbn [length] in *. lia. }
  destruct (H (length extra) extra [] ltac:(lia)) as [r ->]. by eexists.
Qed.
End Negotiation.

(** ** Concrete inputs *)

Module Ex.
Import Core.Impl.

(** A compressor that writes the message backwards. *)
Definition reverser : compressor :=
  Compressor (fun head b => SndBuf (u32 (s_size b + head)) (One (repeat 0 (Z.to_nat head) ++ rev (flat (s_bufs b)))))
    (fun rb => RcvBuf (r_size rb) (One (rev (flat (r_bufs rb))))) [82].

Lemma reverser_ok : compressor_ok reverser.
Proof.
  intros b f r Hm Hz. unfold compressor_limit in Hz. exists ([0; 0; 0; 0] ++ rev (f ++ r)), [], (rev (f ++ r)).
  assert (Hl : zlen (rev (f ++ r)) = zlen (f ++ r)) by (unfold zlen; by rewrite length_rev).
  cbn [c_compress c_decompress reverser]. rewrite (message_flat _ _ _ Hm). destruct Hm as [-> _]. rewrite app_nil_r.
  assert (Hall : zlen ([0; 0; 0; 0] ++ rev (f ++ r)) = 4 + zlen (f ++ r)) by (rewrite zlen_app, Hl; done).
  split_and!.
  - split; cbn [s_size s_bufs]; [|done]. rewrite app_nil_r, Hall, wrap_small by lia. lia.
  - rewrite Hall. lia.
  - done.
  - lia.
  - intros rb -> _. unfold flat. cbn. by rewrite app_nil_r, rev_involutive.
Qed.
End Ex.

Import Core.Impl.

Lemma rpc_request_round_trip_witness :
  exists b b' bs, request_message 7 3 [1; 2; 3] = Some b /\ request_expiration true 1500 b = Some b' /\
    sent_as (Some Ex.reverser) b' bs /\
    reads_as (I := list (list Z)) (read_request true (Some Ex.reverser)) bs (is_request true 1500 7 3 [1; 2; 3]).
Proof.
  apply (rpc_request_round_trip (I := list (list Z)) (Some Ex.reverser) Ex.reverser_ok true 1500 7 3 [1; 2; 3]).
  - split; vm_compute; congruence.
  - split; vm_compute; congruence.
  - split; vm_compute; congruence.
  - vm_compute. reflexivity.
Defined.

Lemma rpc_response_round_trip_witness :
  exists b b' bs, marshall 12 [9; 8] = Some b /\ response_head (-3) b = Some b' /\ sent_as None b' bs /\
    reads_as (I := list (list Z)) (read_response None) bs (is_response (-3) [9; 8]).
Proof.
  apply (rpc_response_round_trip (I := list (list Z)) None Logic.I (-3) [9; 8]).
  - split; vm_compute; congruence.
  - vm_compute. reflexivity.
Defined.

Lemma rpc_negotiation_round_trip_witness :
  let m := [(feature_compress, [76; 90; 52]); (feature_timeout, [])] in
  exists bs, negotiation_frame m = Some bs /\
    exists i', receive_negotiation_frame [take 5 bs; drop 5 bs; [1; 2; 3]] = Some (Some m, i') /\ in_pending i' = [1; 2; 3].
Proof.
  intros m. destruct (rpc_negotiation_round_trip (I := list (list Z)) m) as (bs & E & H).
  - split; [|repeat constructor; vm_compute; congruence]. repeat constructor.
  - vm_compute. reflexivity.
  - exists bs. split; [exact E|]. apply H. vm_compute in E. injection E as <-. reflexivity.
Defined.
