(* ===== verification/Rpc.v ===== *)
(** * RPC connections: include/nil/actor/rpc/rpc.hh, rpc_impl.hh, src/rpc/rpc.cc

    [connection]: the outgoing queue and its send loop.  [client]: calls, the
    table of outstanding replies, timeouts and cancellation.  [server] with a
    connection: the memory that requests may take, handlers, replies.  What a
    handler does is told by the step that ends it; what arrives from the peer is a
    frame that has been read (RpcWire.v). *)

From S2P Require Import Prelude Core RpcWire.
From stdpp Require Import base numbers option gmap list.

#[local] Open Scope Z_scope.

(** ** [class connection] *)

(** [struct outgoing_entry]: its place in the list, the time its timer was armed
    for, the message, the cancellable that names it; on a server, the units of
    memory that are given back when it is destroyed. *)
Record entry := Entry { e_id : nat; e_timer : option Z; e_buf : snd_buf; e_cancel : option nat; e_permit : Z }.

Record conn := Conn {
  cn_error : bool; outgoing_queue : list entry; next_entry : nat;
  cn_compressor : option compressor; timeout_negotiated : bool; cn_id : Z; sent_messages : Z }.

Definition conn_init (id : Z) : conn := Conn false [] 0 None false id 0.

Definition set_error (c : conn) : conn :=
  Conn true (outgoing_queue c) (next_entry c) (cn_compressor c) (timeout_negotiated c) (cn_id c) (sent_messages c).
Definition set_queue (q : list entry) (c : conn) : conn :=
  Conn (cn_error c) q (next_entry c) (cn_compressor c) (timeout_negotiated c) (cn_id c) (sent_messages c).
Definition set_compressor (x : option compressor) (c : conn) : conn :=
  Conn (cn_error c) (outgoing_queue c) (next_entry c) x (timeout_negotiated c) (cn_id c) (sent_messages c).
Definition set_timeout_negotiated (c : conn) : conn :=
  Conn (cn_error c) (outgoing_queue c) (next_entry c) (cn_compressor c) true (cn_id c) (sent_messages c).
Definition set_conn_id (id : Z) (c : conn) : conn :=
  Conn (cn_error c) (outgoing_queue c) (next_entry c) (cn_compressor c) (timeout_negotiated c) id (sent_messages c).
Definition count_sent (c : conn) : conn :=
  Conn (cn_error c) (outgoing_queue c) (next_entry c) (cn_compressor c) (timeout_negotiated c) (cn_id c) (u64 (sent_messages c + 1)).

(** What becomes of the future of [send]. *)
Inductive send_result := SendReady | SendQueued (e : nat) | SendClosed.

(** [send(buf, timeout, cancel)]; the links of [cancel] are the caller's. *)
Definition conn_send (now : Z) (buf : snd_buf) (timeout : option Z) (cancel : option nat) (permit : Z) (c : conn) : conn * send_result :=
  if cn_error c then (c, SendClosed)
  else
    let enqueue := (Conn (cn_error c) (outgoing_queue c ++ [Entry (next_entry c) timeout buf cancel permit]) (S (next_entry c))
                      (cn_compressor c) (timeout_negotiated c) (cn_id c) (sent_messages c), SendQueued (next_entry c)) in
    match timeout with
    | Some tp => if tp <=? now then (c, SendReady) else enqueue
    | None => enqueue
    end.

(** [_outgoing_queue.erase(it)] *)
Definition erase_entry (id : nat) (c : conn) : conn :=
  set_queue (List.filter (fun e => negb (e_id e =? id)%nat) (outgoing_queue c)) c.

Section Loop.
Context {TB : TemporaryBuffer} {LE : LeCodec}.

(** The milliseconds that a request has left, 0 when it has no timeout. *)
Definition left_of (now : Z) (e : entry) : Z := match e_timer e with Some tp => u64 (tp - now) | None => 0 end.

(** A round of [send_loop()]: the entry that was taken and the bytes that are
    written for it; [None] is a front buffer without room for the head. *)
Definition send_loop_round (request : bool) (now : Z) (c : conn) : option (conn * option (entry * list Z)) :=
  if cn_error c then Some (c, None)
  else match outgoing_queue c with
  | [] => Some (c, None)
  | d :: q =>
      buf ← (if request then request_expiration (timeout_negotiated c) (left_of now d) (e_buf d) else Some (e_buf d));
      buf ← compress (cn_compressor c) buf;
      Some (count_sent (set_queue q c), Some (d, flat (s_bufs buf)))
  end.
End Loop.

(** ** [class client] *)

(** How a call ends. *)
Inductive call_result :=
  | RValue (payload : list Z) | RException (ex : rpc_exception)
  | RTimeout | RCanceled | RClosed | RBroken.

Inductive client_event :=
  | CWrite (bs : list Z)                      (* [_write_buf.write] *)
  | CResult (id : Z) (r : call_result).       (* the promise of the reply *)

(** [struct reply_handler_base]; [struct cancellable]: the entry and the call that
    it cancels. *)
Record reply_handler := ReplyHandler { h_timer : option Z; h_cancel : option nat }.
Record cancellable := Cancellable { cancel_send : option nat; cancel_wait : option Z }.

Record client := Client {
  cl_conn : conn; message_id : Z; outstanding : gmap Z reply_handler; cancels : gmap nat cancellable;
  replied : Z; exception_received : Z; timeouts : Z }.

Definition client_init : client := Client (conn_init invalid_connection_id) 1 ∅ ∅ 0 0 0.

Definition set_conn (k : conn) (c : client) : client :=
  Client k (message_id c) (outstanding c) (cancels c) (replied c) (exception_received c) (timeouts c).
Definition set_outstanding (o : gmap Z reply_handler) (c : client) : client :=
  Client (cl_conn c) (message_id c) o (cancels c) (replied c) (exception_received c) (timeouts c).
Definition set_cancels (m : gmap nat cancellable) (c : client) : client :=
  Client (cl_conn c) (message_id c) (outstanding c) m (replied c) (exception_received c) (timeouts c).

(** [next_message_id()] *)
Definition next_message_id (c : client) : Z * client :=
  (message_id c, Client (cl_conn c) (message_id c + 1) (outstanding c) (cancels c) (replied c) (exception_received c) (timeouts c)).

Definition count_replied (c : client) : client :=
  Client (cl_conn c) (message_id c) (outstanding c) (cancels c) (u64 (replied c + 1)) (exception_received c) (timeouts c).
Definition count_exception (c : client) : client :=
  Client (cl_conn c) (message_id c) (outstanding c) (cancels c) (replied c) (u64 (exception_received c + 1)) (timeouts c).
Definition count_timeout (c : client) : client :=
  Client (cl_conn c) (message_id c) (outstanding c) (cancels c) (replied c) (exception_received c) (u64 (timeouts c + 1)).

Definition link_send (cid : option nat) (e : option nat) (c : client) : client :=
  match cid with
  | Some cid => set_cancels (alter (fun x => Cancellable e (cancel_wait x)) cid (cancels c)) c
  | None => c
  end.
Definition link_wait (cid : option nat) (id : option Z) (c : client) : client :=
  match cid with
  | Some cid => set_cancels (alter (fun x => Cancellable (cancel_send x) id) cid (cancels c)) c
  | None => c
  end.

(** A [cancellable] that the user makes. *)
Definition make_cancellable (cid : nat) (c : client) : client := set_cancels (<[cid := Cancellable None None]> (cancels c)) c.

(** [wait_for_reply(id, h, timeout, cancel)] *)
Definition client_wait_for_reply (id : Z) (timeout : option Z) (cancel : option nat) (c : client) : client :=
  let c := link_wait cancel (Some id) c in
  match outstanding c !! id with
  | Some _ => c                    (* [emplace] *)
  | None => set_outstanding (<[id := ReplyHandler timeout cancel]> (outstanding c)) c
  end.

Section Client.
Context {TB : TemporaryBuffer} {LE : LeCodec}.

(** [shelper::send(dst, timeout, cancel, args)] of [send_helper]: the number of the
    call; a call that waits for nothing ([no_wait_type]) has no handler.  The inner
    [None] is [closed_error]. *)
Definition client_call (now : Z) (t : Z) (args : list Z) (timeout : option Z) (cancel : option nat) (wait : bool) (c : client) :
  option (client * option Z) :=
  if cn_error (cl_conn c) then Some (c, None)
  else
    let '(msg_id, c) := next_message_id c in
    data ← request_message t msg_id args;
    let '(k, r) := conn_send now data timeout cancel 0 (cl_conn c) in
    let c := set_conn k c in
    let c := match r with SendQueued e => link_send cancel (Some e) c | _ => c end in
    Some (if wait then client_wait_for_reply msg_id timeout cancel c else c, Some msg_id).

(** A round of the send loop. *)
Definition client_send_loop (now : Z) (c : client) : option (client * list client_event) :=
  '(k, w) ← send_loop_round true now (cl_conn c);
  Some (match w with
        | Some (d, bs) => (link_send (e_cancel d) None (set_conn k c), [CWrite bs])
        | None => (set_conn k c, [])
        end).

(** The timer of an entry, and [cancel_send]: the entry leaves the queue. *)
Definition drop_entry (e : nat) (c : client) : client :=
  let c' := set_conn (erase_entry e (cl_conn c)) c in
  match List.find (fun x => (e_id x =? e)%nat) (outgoing_queue (cl_conn c)) with
  | Some d => link_send (e_cancel d) None c'
  | None => c'
  end.

(** The handler of [id] is destroyed. *)
Definition drop_handler (id : Z) (h : reply_handler) (c : client) : client :=
  link_wait (h_cancel h) None (set_outstanding (delete id (outstanding c)) c).

(** [wait_timed_out(id)]; [None] is the null handler of an absent number. *)
Definition wait_timed_out (id : Z) (c : client) : option (client * list client_event) :=
  h ← outstanding c !! id; Some (drop_handler id h (count_timeout c), [CResult id RTimeout]).

(** [cancellable::cancel()] *)
Definition client_cancel (cid : nat) (c : client) : option (client * list client_event) :=
  x ← cancels c !! cid;
  let c := match cancel_send x with Some e => drop_entry e c | None => c end in
  match cancel_wait x with
  | Some id => h ← outstanding c !! id; Some (drop_handler id h c, [CResult id RCanceled])
  | None => Some (c, [])
  end.

(** The continuation of [read_response_frame_compressed] in the client's loop. *)
Definition process_response (v : response_value) (c : client) : option (client * list client_event) :=
  let '(msg_id, data) := v in
  if msg_id =? - 2 ^ 63 then None    (* [std::abs] overflows *)
  else match data with
  | None => Some (set_conn (set_error (cl_conn c)) c, [])
  | Some data =>
      let id := Z.abs msg_id in
      match outstanding c !! id with
      | Some h =>
          let c := drop_handler id h c in
          if 0 <=? msg_id then Some (count_replied c, [CResult id (RValue (flat (r_bufs data)))])
          else
            let c := count_exception c in
            match unmarshal_exception (flat (r_bufs data)) with
            | Some ex => Some (c, [CResult id (RException ex)])
            | None => Some (set_conn (set_error (cl_conn c)) c, [CResult id RBroken])
            end
      | None => Some (c, [])
      end
  end.

(** The end of the client's loop: the queue and the table are emptied. *)
Definition client_teardown (c : client) : client * list client_event :=
  let q := outgoing_queue (cl_conn c) in
  let hs := map_to_list (outstanding c) in
  let c := fold_left (fun c d => link_send (e_cancel d) None c) q (set_conn (set_queue [] (set_error (cl_conn c))) c) in
  let c := fold_left (fun c ih => link_wait (h_cancel (snd ih)) None c) hs (set_outstanding ∅ c) in
  (c, map (fun ih => CResult (fst ih) RClosed) hs).
End Client.

(** ** [class server] with one connection *)

(** [struct resource_limits] *)
Record resource_limits := ResourceLimits { basic_request_size : Z; bloat_factor : Z; max_memory : Z }.

(** [estimate_request_size(lim, serialized_size)] *)
Definition estimate_request_size (lim : resource_limits) (size : Z) : Z :=
  u64 (basic_request_size lim + u64 (size * bloat_factor lim)).

(** [struct rpc_handler]: its gate, and whether its signature returns [no_wait_type]. *)
Record rpc_handler := RpcHandler { gate_count : Z; gate_closed : bool; no_wait : bool }.

(** How a handler ends: with a marshalled value, with an [std::exception], or with
    something that [reply] does not see - arguments that do not unmarshal, an
    exception of another class. *)
Inductive outcome := Returned (payload : list Z) | Threw (what : list Z) | Vanished.

(** A request that waits for memory - [p_handler]: whether its handler returns
    [no_wait_type], if it has one - and a request whose handler runs. *)
Record pending := Pending {
  p_id : Z; p_type : Z; p_handler : option bool; p_args : list Z; p_timeout : option Z; p_units : Z }.
Record running := Running { r_id : Z; r_type : Z; r_args : list Z; r_timeout : option Z; r_units : Z; r_no_wait : bool }.

Inductive server_event :=
  | SWrite (bs : list Z)
  | SExecute (id type : Z) (args : list Z).   (* the handler is called *)

Section Server.
Context {TB : TemporaryBuffer} {LE : LeCodec} {S : Type} {SO : SemaphoreOps S}.
Variable limits : resource_limits.
(** The latest time point of the clock, and the text of the error of an oversized
    request. *)
Variable time_max : Z.
Variable oversized_text : Z -> list Z.

Record server := Server {
  sv_conn : conn; resources_available : S; sv_pending : option pending; sv_running : list running;
  handlers : gmap Z rpc_handler }.

Definition server_init (id : Z) (hs : gmap Z rpc_handler) : server :=
  Server (conn_init id) (sem_make (max_memory limits)) None [] hs.

Definition set_sconn (k : conn) (s : server) : server := Server k (resources_available s) (sv_pending s) (sv_running s) (handlers s).
Definition set_available (a : S) (s : server) : server := Server (sv_conn s) a (sv_pending s) (sv_running s) (handlers s).
Definition set_pending (p : option pending) (s : server) : server := Server (sv_conn s) (resources_available s) p (sv_running s) (handlers s).
Definition set_running (l : list running) (s : server) : server := Server (sv_conn s) (resources_available s) (sv_pending s) l (handlers s).
Definition set_handlers (h : gmap Z rpc_handler) (s : server) : server := Server (sv_conn s) (resources_available s) (sv_pending s) (sv_running s) h.

Definition release (units : Z) (s : server) : server := set_available (sem_signal (resources_available s) units) s.

(** [get_handler(msg_id)] and [put_handler(h)]; [MsgType] is [uint32_t]. *)
Definition get_handler (type : Z) (s : server) : option (rpc_handler * server) :=
  h ← handlers s !! u32 type;
  if gate_closed h then None
  else Some (h, set_handlers (<[u32 type := RpcHandler (gate_count h + 1) false (no_wait h)]> (handlers s)) s).
Definition put_handler (type : Z) (s : server) : server :=
  set_handlers (alter (fun h => RpcHandler (gate_count h - 1) (gate_closed h) (no_wait h)) (u32 type) (handlers s)) s.

(** [register_receiver], [unregister_handler]: closing the gate, and erasing the
    handler when nobody is in it. *)
Definition register_handler (type : Z) (nw : bool) (s : server) : option server :=
  match handlers s !! u32 type with
  | Some _ => None
  | None => Some (set_handlers (<[u32 type := RpcHandler 0 false nw]> (handlers s)) s)
  end.
Definition close_handler (type : Z) (s : server) : server :=
  set_handlers (alter (fun h => RpcHandler (gate_count h) true (no_wait h)) (u32 type) (handlers s)) s.
Definition erase_handler (type : Z) (s : server) : option server :=
  h ← handlers s !! u32 type;
  if gate_closed h && (gate_count h =? 0) then Some (set_handlers (delete (u32 type) (handlers s)) s) else None.

(** [respond(msg_id, data, timeout)]; the units are given back when the message is
    gone. *)
Definition respond (now msg_id : Z) (data : snd_buf) (timeout : option Z) (permit : Z) (s : server) : option server :=
  data ← response_head msg_id data;
  let '(k, r) := conn_send now data timeout None permit (sv_conn s) in
  let s := set_sconn k s in
  Some (match r with SendQueued _ => s | _ => release permit s end).

(** [reply(wait_type, ret, msg_id, client, timeout)] *)
Definition reply (now : Z) (ret : outcome) (msg_id : Z) (timeout : option Z) (permit : Z) (s : server) : option server :=
  if cn_error (sv_conn s) then Some (release permit s)
  else match ret with
  | Returned payload => data ← marshall 12 payload; respond now msg_id data timeout permit s
  | Threw what => data ← exception_message what; respond now (- msg_id) data timeout permit s
  | Vanished => Some (release permit s)
  end.

(** [relative_timeout_to_absolute] *)
Definition relative_timeout_to_absolute (now relative : Z) : Z := now + Z.min relative (time_max - now).

(** The continuation of [read_request_frame_compressed] in the server's loop, up to
    the wait for memory; no request waits while another is read. *)
Definition process_request (now : Z) (v : request_value) (s : server) : option server :=
  let '(expire, type, msg_id, data) := v in
  match data with
  | None => Some (set_sconn (set_error (sv_conn s)) s)
  | Some data =>
      let timeout := match expire with
                     | Some ms => if ms =? 0 then None else Some (relative_timeout_to_absolute now (s64 ms))
                     | None => None
                     end in
      match get_handler type s with
      | None => Some (set_pending (Some (Pending msg_id type None [] timeout 28)) s)
      | Some (h, s) =>
          let memory_consumed := estimate_request_size limits (r_size data) in
          if max_memory limits <? memory_consumed then
            let s := put_handler type s in
            if no_wait h then Some s else reply now (Threw (oversized_text memory_consumed)) msg_id timeout 0 s
          else Some (set_pending (Some (Pending msg_id type (Some (no_wait h)) (flat (r_bufs data)) timeout memory_consumed)) s)
      end
  end.

(** The memory is there: the handler is called, or the unknown verb answered. *)
Definition admit_request (now : Z) (s : server) : option (server * list server_event) :=
  p ← sv_pending s;
  a ← sem_try_wait (resources_available s) (p_units p);
  let s := set_available a (set_pending None s) in
  match p_handler p with
  | Some nw =>
      let s := put_handler (p_type p) s in
      Some (set_running (sv_running s ++ [Running (p_id p) (p_type p) (p_args p) (p_timeout p) (p_units p) nw]) s,
            [SExecute (p_id p) (p_type p) (p_args p)])
  | None =>
      data ← unknown_verb_message (p_type p);
      s ← respond now (- p_id p) data (p_timeout p) (p_units p) s;
      Some (s, [])
  end.

(** The wait for memory has timed out: a request is forgotten; for an unknown verb
    the exception ends the loop. *)
Definition pending_timed_out (s : server) : option server :=
  p ← sv_pending s;
  _ ← p_timeout p;
  let s := set_pending None s in
  Some (match p_handler p with Some _ => put_handler (p_type p) s | None => set_sconn (set_error (sv_conn s)) s end).

(** The handler number [i] of those that run ends. *)
Definition handler_done (now : Z) (i : nat) (ret : outcome) (s : server) : option server :=
  r ← sv_running s !! i;
  let s := set_running (delete i (sv_running s)) s in
  if r_no_wait r then Some (release (r_units r) s)
  else reply now ret (r_id r) (r_timeout r) (r_units r) s.

(** A round of the send loop; the message is gone when it is written. *)
Definition server_send_loop (now : Z) (s : server) : option (server * list server_event) :=
  '(k, w) ← send_loop_round false now (sv_conn s);
  Some (match w with
        | Some (d, bs) => (release (e_permit d) (set_sconn k s), [SWrite bs])
        | None => (set_sconn k s, [])
        end).

(** The timer of an entry. *)
Definition response_timed_out (e : nat) (s : server) : option server :=
  d ← List.find (fun x => (e_id x =? e)%nat) (outgoing_queue (sv_conn s));
  _ ← e_timer d;
  Some (release (e_permit d) (set_sconn (erase_entry e (sv_conn s)) s)).

(** The end of the loop: the queue is emptied. *)
Definition server_teardown (s : server) : server :=
  let q := outgoing_queue (sv_conn s) in
  fold_left (fun s d => release (e_permit d) s) q (set_sconn (set_queue [] (set_error (sv_conn s))) s).
End Server.
#[global] Arguments server : clear implicits.
#[global] Arguments Server {S}.

(** ** Negotiation *)

(** [struct client_options], and the features that the client's constructor asks for. *)
Record client_options := ClientOptions {
  o_compressor_factory : option compressor_factory; send_timeout_data : bool; stream_parent : Z; isolation_cookie : list Z }.

Section Negotiation.
Context {LE : LeCodec}.

Definition client_features (o : client_options) : feature_map :=
  let f := match o_compressor_factory o with Some cf => fm_set feature_compress (f_supported cf) [] | None => [] end in
  let f := if send_timeout_data o then fm_set feature_timeout [] f else f in
  let f := if id_valid (stream_parent o) then fm_set feature_stream_parent (serialize_connection_id (stream_parent o)) f else f in
  if bool_decide (isolation_cookie o = []) then f else fm_set feature_isolation (isolation_cookie o) f.

(** [client::negotiate(provided)]: over the features in order; [inr] is the
    exception, [None] a read beyond the data of a feature. *)
Fixpoint client_negotiate (o : client_options) (provided : feature_map) (k : conn) : option (conn + conn) :=
  match provided with
  | [] => Some (inl k)
  | (id, data) :: provided =>
      if id =? feature_compress then
        let k := match o_compressor_factory o with Some cf => set_compressor (f_negotiate cf data false) k | None => k end in
        match cn_compressor k with
        | None => Some (inr k)
        | Some _ => client_negotiate o provided k
        end
      else if id =? feature_timeout then client_negotiate o provided (set_timeout_negotiated k)
      else if id =? feature_connection_id then
        cid ← deserialize_connection_id data; client_negotiate o provided (set_conn_id cid k)
      else client_negotiate o provided k
  end.

(** [server::connection::negotiate(requested)]: the connection and the features that
    are returned, the parent of a stream.  [domain]: a streaming domain is
    configured. *)
Fixpoint server_negotiate_loop (cf : option compressor_factory) (domain : bool) (requested : feature_map)
  (k : conn) (ret : feature_map) (parent : option Z) (failed : bool) : option (conn * feature_map * option Z * bool) :=
  match requested with
  | [] => Some (k, ret, parent, failed)
  | (id, data) :: requested =>
      if id =? feature_compress then
        match cf with
        | None => server_negotiate_loop cf domain requested k ret parent failed
        | Some f =>
            let c := f_negotiate f data true in
            let ret := match c with Some c => fm_set feature_compress (c_name c) ret | None => ret end in
            server_negotiate_loop cf domain requested (set_compressor c k) ret parent failed
        end
      else if id =? feature_timeout then
        server_negotiate_loop cf domain requested (set_timeout_negotiated k) (fm_set feature_timeout [] ret) parent failed
      else if id =? feature_stream_parent then
        if domain then
          pid ← deserialize_connection_id data; server_negotiate_loop cf domain requested k ret (Some pid) failed
        else server_negotiate_loop cf domain requested k ret parent true
      else if id =? feature_isolation then
        server_negotiate_loop cf domain requested k (fm_emplace id data ret) parent failed
      else server_negotiate_loop cf domain requested k ret parent failed
  end.

Definition server_negotiate (cf : option compressor_factory) (domain : bool) (requested : feature_map) (k : conn) :
  option (conn * feature_map * option Z * bool) :=
  '(k, ret, parent, failed) ← server_negotiate_loop cf domain requested k [] None false;
  Some (k, if domain then fm_set feature_connection_id (serialize_connection_id (cn_id k)) ret else ret, parent, failed).

(** [negotiate_protocol(in)] of the two sides, and what the client sends first;
    [NClosed] is [closed_error], [NFailed] the exception of [negotiate].  The server
    answers with a frame. *)
Context {I : Type} {IN : InputStream I}.

Inductive negotiation :=
  | NClosed
  | NFailed (k : conn)
  | NDone (k : conn) (answer : list Z) (parent : option Z).

Definition client_hello (o : client_options) : option (list Z) := negotiation_frame (client_features o).

Definition server_negotiate_protocol (cf : option compressor_factory) (domain : bool) (k : conn) (i : I) : option (negotiation * I) :=
  '(requested, i) ← receive_negotiation_frame i;
  match requested with
  | None => Some (NClosed, i)
  | Some requested =>
      '(k, ret, parent, failed) ← server_negotiate cf domain requested k;
      if (failed : bool) then Some (NFailed k, i)
      else bs ← negotiation_frame ret; Some (NDone k bs parent, i)
  end.

Definition client_negotiate_protocol (o : client_options) (k : conn) (i : I) : option (negotiation * I) :=
  '(provided, i) ← receive_negotiation_frame i;
  match provided with
  | None => Some (NClosed, i)
  | Some provided =>
      r ← client_negotiate o provided k;
      Some (match r with inl k => NDone k [] None | inr k => NFailed k end, i)
  end.
End Negotiation.
