(* ===== verification/RpcSpec.v ===== *)
(** * Remote calls: a client, a server, and a connection between them

    The two ends of Rpc.v over byte streams, as a step relation: calls, timeouts,
    cancellations, handlers and the ends of the connection in any order; [rpc_calls] relates
    every execution to the calls that were made. *)

From S2P Require Import Prelude Core RpcWire RpcWireSpec Rpc.
From stdpp Require Import base numbers option gmap list relations.

#[local] Open Scope Z_scope.

(** ** Lists *)

Lemma submseteq_nodup {A} (l k : list A) : l ⊆+ k -> NoDup k -> NoDup l.
Proof. intros H Hk. apply submseteq_Permutation in H as [m Hm]. rewrite Hm in Hk. apply NoDup_app in Hk. apply Hk. Qed.

Lemma Forall2_filter {A B} (P : A -> B -> Prop) f l k : Forall2 P l k ->
  exists k', Forall2 P (List.filter f l) k' /\ k' `sublist_of` k.
Proof.
  induction 1 as [|a b l k Hab _ (k' & H & Hs)]; [by exists []|]. cbn [List.filter]. destruct (f a).
  - exists (b :: k'). split; [by constructor|by apply sublist_skip].
  - exists k'. split; [done|by apply sublist_cons].
Qed.

(** ** Steps of the client *)

Section ClientSteps.
Context {TB : TemporaryBuffer} {LE : LeCodec}.

Definition results_of (es : list client_event) : list (Z * call_result) :=
  omap (fun ev => match ev with CResult id r => Some (id, r) | _ => None end) es.

(** What every step but a call respects: entries leave the queue, and the handlers
    that leave the table are those that are told a result. *)
Definition client_moves (c c' : client) (rs : list (Z * call_result)) : Prop :=
  message_id c' = message_id c /\
  cn_compressor (cl_conn c') = cn_compressor (cl_conn c) /\
  timeout_negotiated (cl_conn c') = timeout_negotiated (cl_conn c) /\
  NoDup (map fst rs) /\ (forall id, id ∈ map fst rs -> is_Some (outstanding c !! id)) /\
  (forall id, is_Some (outstanding c' !! id) -> is_Some (outstanding c !! id) /\ id ∉ map fst rs).

Lemma link_send_keeps cid e (c : client) :
  cl_conn (link_send cid e c) = cl_conn c /\ outstanding (link_send cid e c) = outstanding c /\ message_id (link_send cid e c) = message_id c.
Proof. by destruct cid. Qed.

Lemma link_wait_keeps cid e (c : client) :
  cl_conn (link_wait cid e c) = cl_conn c /\ outstanding (link_wait cid e c) = outstanding c /\ message_id (link_wait cid e c) = message_id c.
Proof. by destruct cid. Qed.

Lemma moves_same c c' : cl_conn c' = cl_conn c -> outstanding c' = outstanding c -> message_id c' = message_id c -> client_moves c c' [].
Proof. intros E1 E2 E3. unfold client_moves. rewrite E1, E2, E3. split_and!; try done; [by apply NoDup_nil|by intros id ?%elem_of_nil|]. intros id H. split; [done|]. apply not_elem_of_nil. Qed.

Lemma drop_entry_moves e c : client_moves c (drop_entry e c) [] /\ 
  outgoing_queue (cl_conn (drop_entry e c)) = List.filter (fun x => negb (e_id x =? e)%nat) (outgoing_queue (cl_conn c)).
Proof.
  unfold drop_entry. set (c' := set_conn _ c).
  assert (H : client_moves c c' [] /\ outgoing_queue (cl_conn c') = List.filter (fun x => negb (e_id x =? e)%nat) (outgoing_queue (cl_conn c))).
  { split; [|done]. split_and!; try done; [by apply NoDup_nil|by intros id ?%elem_of_nil|]. intros id H. split; [done|]. apply not_elem_of_nil. }
  destruct (List.find _ _) as [d|]; [|done]. destruct (link_send_keeps (e_cancel d) None c') as (E1 & E2 & E3).
  unfold client_moves in *. rewrite E1, E2, E3. exact H.
Qed.

Lemma drop_handler_moves id h r c : outstanding c !! id = Some h -> client_moves c (drop_handler id h c) [(id, r)] /\
  cl_conn (drop_handler id h c) = cl_conn c.
Proof.
  intros E. unfold drop_handler. destruct (link_wait_keeps (h_cancel h) None (set_outstanding (delete id (outstanding c)) c)) as (E1 & E2 & E3).
  unfold client_moves. rewrite E1, E2, E3. split; [|done]. cbn [set_outstanding message_id cl_conn outstanding map fst]. split_and!; try done.
  - apply NoDup_singleton.
  - intros i Hi. apply list_elem_of_singleton in Hi as ->. by rewrite E.
  - intros i [x Hx]. apply lookup_delete_Some in Hx as [Hne Hx]. split; [by eexists|]. intros Hi. apply list_elem_of_singleton in Hi. done.
Qed.

Lemma moves_trans a b c rs : client_moves a b [] -> client_moves b c rs -> client_moves a c rs.
Proof.
  intros (A1 & A2 & A3 & _ & _ & A6) (B1 & B2 & B3 & B4 & B5 & B6). split_and!; try congruence; try done.
  - intros id H. by apply A6, B5.
  - intros id H. apply B6 in H as [H Hn]. split; [|done]. by apply A6.
Qed.

Lemma wait_timed_out_moves id c c' es : wait_timed_out id c = Some (c', es) ->
  client_moves c c' (results_of es) /\ cl_conn c' = cl_conn c /\ results_of es = [(id, RTimeout)].
Proof.
  unfold wait_timed_out. destruct (outstanding c !! id) as [h|] eqn:E; [|done]. cbn [mbind option_bind]. intros [= <- <-].
  destruct (drop_handler_moves id h RTimeout (count_timeout c) E) as [H ->]. split_and!; [|done|done].
  eapply moves_trans; [|exact H]. by apply moves_same.
Qed.

Lemma client_cancel_moves cid c c' es : client_cancel cid c = Some (c', es) ->
  client_moves c c' (results_of es) /\ (exists f, outgoing_queue (cl_conn c') = List.filter f (outgoing_queue (cl_conn c))) /\
  Forall (fun r => snd r = RCanceled) (results_of es).
Proof.
  unfold client_cancel. destruct (cancels c !! cid) as [x|]; [|done]. cbn [mbind option_bind].
  set (c1 := match cancel_send x with Some e => drop_entry e c | None => c end).
  assert (H1 : client_moves c c1 [] /\ exists f, outgoing_queue (cl_conn c1) = List.filter f (outgoing_queue (cl_conn c))).
  { unfold c1. destruct (cancel_send x) as [e|]; [destruct (drop_entry_moves e c) as [H E]; split; [done|by eexists]|].
    split; [by apply moves_same|]. exists (fun _ => true). by rewrite filter_true || (induction (outgoing_queue (cl_conn c)) as [|a l IH]; [done|cbn; by rewrite <- IH]). }
  destruct H1 as [H1 Hq]. destruct (cancel_wait x) as [id|].
  - destruct (outstanding c1 !! id) as [h|] eqn:E; [|done]. cbn [mbind option_bind]. intros [= <- <-].
    destruct (drop_handler_moves id h RCanceled c1 E) as [H2 Ec]. split_and!; [by eapply moves_trans|by rewrite Ec|by repeat constructor].
  - intros [= <- <-]. split_and!; [done|done|constructor].
Qed.

Lemma teardown_keeps (f : client -> entry -> client) (g : client -> Z * reply_handler -> client) q hs c :
  (forall c d, cl_conn (f c d) = cl_conn c /\ outstanding (f c d) = outstanding c /\ message_id (f c d) = message_id c) ->
  (forall c h, cl_conn (g c h) = cl_conn c /\ outstanding (g c h) = outstanding c /\ message_id (g c h) = message_id c) ->
  (forall c0, let c' := fold_left f q c0 in cl_conn c' = cl_conn c0 /\ outstanding c' = outstanding c0 /\ message_id c' = message_id c0) /\
  (let c' := fold_left g hs c in cl_conn c' = cl_conn c /\ outstanding c' = outstanding c /\ message_id c' = message_id c).
Proof.
  intros Hf Hg. split.
  - induction q as [|d q IH]; intros c0; [done|]. cbn [fold_left]. destruct (IH (f c0 d)) as (-> & -> & ->). apply Hf.
  - revert c. induction hs as [|h hs IH]; intros c; [done|]. cbn [fold_left]. destruct (IH (g c h)) as (-> & -> & ->). apply Hg.
Qed.

Lemma client_teardown_moves c : let '(c', es) := client_teardown c in
  client_moves c c' (results_of es) /\ outgoing_queue (cl_conn c') = [] /\ Forall (fun r => snd r = RClosed) (results_of es).
Proof.
  unfold client_teardown. set (hs := map_to_list (outstanding c)).
  set (c1 := set_conn _ c).
  destruct (teardown_keeps (fun c d => link_send (e_cancel d) None c) (fun c ih => link_wait (h_cancel (snd ih)) None c)
    (outgoing_queue (cl_conn c)) hs (set_outstanding ∅ (fold_left (fun c d => link_send (e_cancel d) None c) (outgoing_queue (cl_conn c)) c1))) as [H1 H2].
  { intros. apply link_send_keeps. } { intros. apply link_wait_keeps. }
  destruct H2 as (E1 & E2 & E3). destruct (H1 c1) as (F1 & F2 & F3). cbn [set_outstanding cl_conn outstanding message_id] in *.
  assert (Hr : results_of (map (fun ih => CResult (fst ih) RClosed) hs) = map (fun ih => (fst ih, RClosed)) hs).
  { clear. induction hs as [|h hs IH]; [done|]. cbn. by rewrite <- IH. }
  rewrite Hr. unfold client_moves. rewrite E1, E2, E3, F1, F3. rewrite map_map. cbn [fst]. split_and!; try done.
  - apply NoDup_fst_map_to_list.
  - intros id Hid. apply list_elem_of_fmap in Hid as ([i h] & -> & Hin). apply elem_of_map_to_list in Hin. by eexists.
  - intros id [x Hx]. by rewrite lookup_empty in Hx.
  - apply Forall_forall. intros r Hin. by apply list_elem_of_fmap in Hin as (ih & -> & _).
Qed.

(** What a response does: it ends at most the call that it names. *)
Definition told (msg_id : Z) (payload : list Z) (r : Z * call_result) : Prop :=
  fst r = Z.abs msg_id /\
  if 0 <=? msg_id then snd r = RValue payload
  else snd r = match unmarshal_exception payload with Some ex => RException ex | None => RBroken end.

Lemma process_response_moves msg_id rb c c' es : process_response (msg_id, Some rb) c = Some (c', es) ->
  client_moves c c' (results_of es) /\ outgoing_queue (cl_conn c') = outgoing_queue (cl_conn c) /\
  Forall (told msg_id (flat (r_bufs rb))) (results_of es).
Proof.
  unfold process_response, told. destruct (msg_id =? _); [done|].
  destruct (outstanding c !! Z.abs msg_id) as [h|] eqn:E.
  2:{ intros [= <- <-]. split_and!; [by apply moves_same|done|constructor]. }
  assert (Hd : forall r, client_moves c (drop_handler (Z.abs msg_id) h c) [(Z.abs msg_id, r)] /\
    cl_conn (drop_handler (Z.abs msg_id) h c) = cl_conn c) by (intros; by apply drop_handler_moves).
  set (c1 := drop_handler _ _ c) in *. destruct (0 <=? msg_id).
  - intros [= <- <-]. destruct (Hd (RValue (flat (r_bufs rb)))) as [H Ec]. split_and!; [exact H|by cbn; rewrite Ec|by repeat constructor].
  - destruct (unmarshal_exception _) as [ex|]; intros [= <- <-].
    + destruct (Hd (RException ex)) as [H Ec]. split_and!; [exact H|by cbn; rewrite Ec|by repeat constructor].
    + destruct (Hd RBroken) as [H Ec]. split_and!; [exact H|by cbn; rewrite Ec|by repeat constructor].
Qed.
End ClientSteps.

(** ** The system *)

(** A call: its number, its verb and its arguments. *)
Definition call : Type := Z * Z * list Z.
Definition call_id (q : call) : Z := fst (fst q).

Section System.
Context {TB : TemporaryBuffer} {LE : LeCodec} {S : Type} {SO : SemaphoreOps S} {I : Type} {IN : InputStream I}.
Variable limits : resource_limits.
Variable time_max : Z.
Variable oversized_text : Z -> list Z.
(** What was negotiated. *)
Variable comp : option compressor.
Variable tn : bool.

(** The two ends; the bytes that each has written and the other has not read; what
    was called, executed, answered and refused; how calls have ended. *)
Record system := System {
  y_client : client; y_server : server S; y_up : list Z; y_down : list Z;
  y_calls : list call; y_executed : list call; y_done : list (Z * outcome); y_refused : list (Z * rpc_exception);
  y_results : list (Z * call_result) }.

Definition opened (k : conn) : conn := Conn (cn_error k) (outgoing_queue k) (next_entry k) comp tn (cn_id k) (sent_messages k).
Definition system_init (id : Z) (hs : gmap Z rpc_handler) : system :=
  System (set_conn (opened (cl_conn client_init)) client_init)
    (set_sconn (opened (conn_init id)) (server_init limits id hs)) [] [] [] [] [] [] [].

Definition set_client (c : client) (rs : list (Z * call_result)) (y : system) : system :=
  System c (y_server y) (y_up y) (y_down y) (y_calls y) (y_executed y) (y_done y) (y_refused y) (y_results y ++ rs).
Definition set_server (s : server S) (y : system) : system :=
  System (y_client y) s (y_up y) (y_down y) (y_calls y) (y_executed y) (y_done y) (y_refused y) (y_results y).
Definition set_wires (up down : list Z) (y : system) : system :=
  System (y_client y) (y_server y) up down (y_calls y) (y_executed y) (y_done y) (y_refused y) (y_results y).
Definition log_call (q : call) (y : system) : system :=
  System (y_client y) (y_server y) (y_up y) (y_down y) (y_calls y ++ [q]) (y_executed y) (y_done y) (y_refused y) (y_results y).
Definition log_executed (q : list call) (y : system) : system :=
  System (y_client y) (y_server y) (y_up y) (y_down y) (y_calls y) (y_executed y ++ q) (y_done y) (y_refused y) (y_results y).
Definition log_done (d : Z * outcome) (y : system) : system :=
  System (y_client y) (y_server y) (y_up y) (y_down y) (y_calls y) (y_executed y) (y_done y ++ [d]) (y_refused y) (y_results y).
Definition log_refused (d : list (Z * rpc_exception)) (y : system) : system :=
  System (y_client y) (y_server y) (y_up y) (y_down y) (y_calls y) (y_executed y) (y_done y) (y_refused y ++ d) (y_results y).

Definition written_c (es : list client_event) : list Z := concat (omap (fun ev => match ev with CWrite bs => Some bs | _ => None end) es).
Definition written_s (es : list server_event) : list Z := concat (omap (fun ev => match ev with SWrite bs => Some bs | _ => None end) es).
Definition executed_s (es : list server_event) : list call :=
  omap (fun ev => match ev with SExecute id t args => Some (id, t, args) | _ => None end) es.

(** The exception of a request that [process_request] answers itself, if it does. *)
Definition refusal (s : server S) (v : request_value) : list (Z * rpc_exception) :=
  let '(_, type, id, data) := v in
  match data, get_handler type s with
  | Some rb, Some (h, _) =>
      let m := estimate_request_size limits (r_size rb) in
      if (max_memory limits <? m) && negb (no_wait h) && negb (cn_error (sv_conn s)) then [(id, UserError (oversized_text m))] else []
  | _, _ => []
  end.

Definition fits (n : Z) (l : list Z) : Prop := zlen l + n < max_message comp.

(** The payload that [process_request] answers itself with has to fit as well. *)
Hypothesis Htext : forall m, fits 20 (oversized_text m).

Inductive sys_step (y : system) : system -> Prop :=
  (* the client *)
  | step_call now t args timeout cancel wait c id :
      client_call now t args timeout cancel wait (y_client y) = Some (c, Some id) ->
      is_uint 64 t -> fits 28 args -> message_id (y_client y) + 1 < 2 ^ 63 ->
      sys_step y (log_call (id, t, args) (set_client c [] y))
  | step_make cid : sys_step y (set_client (make_cancellable cid (y_client y)) [] y)
  | step_client_send now c es : client_send_loop now (y_client y) = Some (c, es) ->
      sys_step y (set_wires (y_up y ++ written_c es) (y_down y) (set_client c [] y))
  | step_client_expire e : sys_step y (set_client (drop_entry e (y_client y)) [] y)
  | step_timeout id c es : wait_timed_out id (y_client y) = Some (c, es) -> sys_step y (set_client c (results_of es) y)
  | step_cancel cid c es : client_cancel cid (y_client y) = Some (c, es) -> sys_step y (set_client c (results_of es) y)
  | step_client_read i id rb i' c es :
      in_pending i = y_down y -> y_down y <> [] ->
      read_response (cn_compressor (cl_conn (y_client y))) i = Some ((id, Some rb), i') ->
      process_response (id, Some rb) (y_client y) = Some (c, es) ->
      sys_step y (set_wires (y_up y) (in_pending i') (set_client c (results_of es) y))
  | step_client_teardown c es : client_teardown (y_client y) = (c, es) -> sys_step y (set_client c (results_of es) y)
  (* the server *)
  | step_server_read now (i : I) v i' s :
      in_pending i = y_up y -> y_up y <> [] -> sv_pending (y_server y) = None ->
      read_request (timeout_negotiated (sv_conn (y_server y))) (cn_compressor (sv_conn (y_server y))) i = Some (v, i') ->
      process_request limits time_max oversized_text now v (y_server y) = Some s ->
      sys_step y (log_refused (refusal (y_server y) v) (set_wires (in_pending i') (y_down y) (set_server s y)))
  | step_admit now s es p : sv_pending (y_server y) = Some p -> admit_request now (y_server y) = Some (s, es) ->
      sys_step y (log_refused (match p_handler p with None => [(p_id p, UnknownVerb (p_type p))] | Some _ => [] end)
                   (log_executed (executed_s es) (set_server s y)))
  | step_pending_timeout s : pending_timed_out (y_server y) = Some s -> sys_step y (set_server s y)
  | step_done now k r ret s : sv_running (y_server y) !! k = Some r -> handler_done now k ret (y_server y) = Some s ->
      match ret with Returned p => fits 12 p | Threw w => fits 20 w | Vanished => True end ->
      sys_step y (log_done (r_id r, ret) (set_server s y))
  | step_server_send now s es : server_send_loop now (y_server y) = Some (s, es) ->
      sys_step y (set_wires (y_up y) (y_down y ++ written_s es) (set_server s y))
  | step_response_timeout e s : response_timed_out e (y_server y) = Some s -> sys_step y (set_server s y)
  | step_register type nw s : register_handler type nw (y_server y) = Some s -> sys_step y (set_server s y)
  | step_close type : sys_step y (set_server (close_handler type (y_server y)) y)
  | step_erase type s : erase_handler type (y_server y) = Some s -> sys_step y (set_server s y)
  | step_server_teardown : sys_step y (set_server (server_teardown (y_server y)) y).

(** ** What holds in every execution *)

(** Why a response says what it says. *)
Definition reason (dones : list (Z * outcome)) (refused : list (Z * rpc_exception)) (id : Z) (ex : rpc_exception) : Prop :=
  (exists w, (id, Threw w) ∈ dones /\ ex = UserError w) \/ (id, ex) ∈ refused.
Definition justified (dones : list (Z * outcome)) (refused : list (Z * rpc_exception)) (rid : Z) (payload : list Z) : Prop :=
  exists id, 1 <= id < 2 ^ 63 /\
    (rid = id /\ (id, Returned payload) ∈ dones \/
     rid = - id /\ exists ex, unmarshal_exception payload = Some ex /\ reason dones refused id ex).

Lemma justified_mono d d' r r' rid payload : d ⊆ d' -> r ⊆ r' -> justified d r rid payload -> justified d' r' rid payload.
Proof.
  intros Hd Hr (id & Hid & [[-> H]|(-> & ex & Hu & [(w & H & ->)|H])]); exists id; (split; [done|]).
  - left. split; [done|]. by apply Hd.
  - right. split; [done|]. eexists. split; [done|]. left. exists w. split; [by apply Hd|done].
  - right. split; [done|]. eexists. split; [done|]. right. by apply Hr.
Qed.

(** The message of an entry, before its head is written. *)
Definition response_of (rid : Z) (payload : list Z) (b : snd_buf) : Prop :=
  fits 12 payload /\ exists b0 f r hd, message b0 f r /\ f ++ r = hd ++ payload /\ zlen hd = 12 /\ 12 <= zlen f /\ response_head rid b0 = Some b.

Definition request_of (e : entry) (q : call) : Prop := request_message (snd (fst q)) (call_id q) (snd q) = Some (e_buf e).

Definition request_wire (q : call) (bs : list Z) : Prop :=
  bs <> [] /\ exists left_ms, reads_as (I := I) (read_request tn comp) bs (is_request tn left_ms (snd (fst q)) (call_id q) (snd q)).
Definition response_wire (d : list (Z * outcome)) (r : list (Z * rpc_exception)) (bs : list Z) : Prop :=
  bs <> [] /\ exists rid payload, justified d r rid payload /\ reads_as (I := I) (read_response comp) bs (is_response rid payload).

Definition pending_ids (s : server S) : list Z := match sv_pending s with Some p => [p_id p] | None => [] end.

(** A result that the history bears out. *)
Definition result_ok (d : list (Z * outcome)) (r : list (Z * rpc_exception)) (x : Z * call_result) : Prop :=
  match snd x with
  | RValue p => (fst x, Returned p) ∈ d
  | RException ex => reason d r (fst x) ex
  | RBroken => False
  | _ => True
  end.

Lemma result_ok_mono d d' r r' x : d ⊆ d' -> r ⊆ r' -> result_ok d r x -> result_ok d' r' x.
Proof.
  intros Hd Hr. unfold result_ok, reason. destruct (snd x); try done; [apply Hd|].
  intros [(w & H & ->)|H]; [left; exists w; split; [by apply Hd|done]|right; by apply Hr].
Qed.

Record client_ok (c : client) (calls : list call) (results : list (Z * call_result)) : Prop := {
  ck_comp : cn_compressor (cl_conn c) = comp; ck_tn : timeout_negotiated (cl_conn c) = tn;
  ck_id : 1 <= message_id c < 2 ^ 63;
  ck_calls : Forall (fun q => 1 <= call_id q < message_id c /\ is_uint 64 (snd (fst q)) /\ fits 28 (snd q)) calls;
  ck_distinct : NoDup (map call_id calls);
  ck_outstanding : forall id, is_Some (outstanding c !! id) -> 1 <= id < message_id c /\ id ∉ map fst results;
  ck_results : NoDup (map fst results);
  ck_result_ids : Forall (fun r => 1 <= fst r < message_id c) results }.

Record server_ok (s : server S) (calls executed : list call) (d : list (Z * outcome)) (r : list (Z * rpc_exception)) : Prop := {
  sk_comp : cn_compressor (sv_conn s) = comp; sk_tn : timeout_negotiated (sv_conn s) = tn;
  sk_pending : forall p, sv_pending s = Some p -> exists args, (p_id p, p_type p, args) ∈ calls /\
    (is_Some (p_handler p) -> args = p_args p);
  sk_running : Forall (fun x => (r_id x, r_type x, r_args x) ∈ executed) (sv_running s);
  sk_done : NoDup (map r_id (sv_running s) ++ map fst d);
  sk_done_ids : Forall (fun x => exists t args, (fst x, t, args) ∈ executed) d;
  sk_queue : Forall (fun e => exists rid payload, justified d r rid payload /\ response_of rid payload (e_buf e)) (outgoing_queue (sv_conn s)) }.

Record inv (y : system) : Prop := {
  in_client : client_ok (y_client y) (y_calls y) (y_results y);
  in_server : server_ok (y_server y) (y_calls y) (y_executed y) (y_done y) (y_refused y);
  in_queues : exists cq ups bss,
    Forall2 request_of (outgoing_queue (cl_conn (y_client y))) cq /\
    y_up y = concat bss /\ Forall2 request_wire ups bss /\ cq ⊆ y_calls y /\ ups ⊆ y_calls y /\
    NoDup (map call_id cq ++ map call_id ups ++ pending_ids (y_server y) ++ map call_id (y_executed y) ++ map fst (y_refused y));
  in_executed : y_executed y ⊆ y_calls y;
  in_refused : map fst (y_refused y) ⊆ map call_id (y_calls y);
  in_down : exists bss, y_down y = concat bss /\ Forall (response_wire (y_done y) (y_refused y)) bss;
  in_results : Forall (result_ok (y_done y) (y_refused y)) (y_results y) }.

(** *** Steps of the client *)

Lemma client_moves_ok c c' rs calls results : client_ok c calls results -> client_moves c c' rs -> client_ok c' calls (results ++ rs).
Proof.
  intros [H1 H2 H3 H4 H5 H6 H7 H8] (M1 & M2 & M3 & M4 & M5 & M6). constructor; rewrite ?M1, ?M2, ?M3; try done.
  - intros id Hid. apply M6 in Hid as [Hid Hn]. destruct (H6 id Hid) as [Hb Hr]. split; [done|].
    rewrite map_app, not_elem_of_app. done.
  - rewrite map_app. apply NoDup_app. split_and!; [done| |done]. intros id Hid Hid'. apply (H6 id (M5 id Hid')). done.
  - apply Forall_app. split; [done|]. apply Forall_forall. intros r Hr. apply (H6 (fst r)), M5. by apply list_elem_of_fmap_2.
Qed.

(** A step of the client that sends nothing. *)
Lemma inv_client_moves y c rs : inv y -> client_moves (y_client y) c rs ->
  (exists f, outgoing_queue (cl_conn c) = List.filter f (outgoing_queue (cl_conn (y_client y)))) ->
  Forall (result_ok (y_done y) (y_refused y)) rs -> inv (set_client c rs y).
Proof.
  intros [H1 H2 (cq & ups & bss & Q1 & Q2 & Q3 & Q4 & Q5 & Q6) H4 H5 H6 H7] Hm [f Hf] Hr.
  constructor; cbn [y_client y_server y_up y_down y_calls y_executed y_done y_refused y_results set_client]; try done.
  - by apply (client_moves_ok (y_client y)).
  - destruct (Forall2_filter request_of f _ _ Q1) as (cq' & Q1' & Hs). exists cq', ups, bss. rewrite Hf. split_and!; try done.
    + intros q Hq. apply Q4. by eapply elem_of_sublist.
    + eapply submseteq_nodup; [|exact Q6]. apply submseteq_skips_r, fmap_submseteq. by apply sublist_submseteq.
  - by apply Forall_app.
Qed.

Lemma inv_quiet y c : inv y -> cl_conn c = cl_conn (y_client y) -> client_moves (y_client y) c [] -> inv (set_client c [] y).
Proof.
  intros H Ec Hm. apply inv_client_moves; [done|done| |constructor]. exists (fun _ => true). rewrite Ec.
  induction (outgoing_queue _) as [|a l IH]; [done|]. cbn. by rewrite <- IH.
Qed.

Lemma fresh_not_in calls results c : client_ok c calls results -> message_id c ∉ map call_id calls.
Proof.
  intros H Hin. apply list_elem_of_fmap in Hin as (q & E & Hq).
  pose proof (ck_calls _ _ _ H) as Hc. rewrite Forall_forall in Hc. destruct (Hc q Hq) as [Hb _]. rewrite E in Hb. lia.
Qed.

Lemma ids_in {A B} (f : A -> B) l k : l ⊆ k -> map f l ⊆ map f k.
Proof. intros H x Hx. apply list_elem_of_fmap in Hx as (a & -> & Ha). by apply list_elem_of_fmap_2, H. Qed.

Lemma client_call_spec now t args timeout cancel wait c c' id : client_call now t args timeout cancel wait c = Some (c', Some id) ->
  id = message_id c /\ message_id c' = message_id c + 1 /\
  cn_compressor (cl_conn c') = cn_compressor (cl_conn c) /\ timeout_negotiated (cl_conn c') = timeout_negotiated (cl_conn c) /\
  (forall i, is_Some (outstanding c' !! i) -> i = id \/ is_Some (outstanding c !! i)) /\
  (outgoing_queue (cl_conn c') = outgoing_queue (cl_conn c) \/
   exists e, outgoing_queue (cl_conn c') = outgoing_queue (cl_conn c) ++ [e] /\ request_of e (id, t, args)).
Proof.
  unfold client_call. destruct (cn_error (cl_conn c)) eqn:Ee; [done|]. cbn [next_message_id].
  destruct (request_message t (message_id c) args) as [b|] eqn:Em; [|done]. cbn [mbind option_bind cl_conn].
  set (c1 := Client _ _ _ _ _ _ _) in *.
  destruct (conn_send now b timeout cancel 0 (cl_conn c)) as [k r] eqn:Es. intros [= <- <-].
  assert (Hk : cn_compressor k = cn_compressor (cl_conn c) /\ timeout_negotiated k = timeout_negotiated (cl_conn c) /\
    (outgoing_queue k = outgoing_queue (cl_conn c) \/
     exists e, outgoing_queue k = outgoing_queue (cl_conn c) ++ [e] /\ request_of e (message_id c, t, args))).
  { unfold conn_send in Es. rewrite Ee in Es.
    assert (Hq : forall k0, (Conn false (outgoing_queue (cl_conn c) ++ [Entry (next_entry (cl_conn c)) timeout b cancel 0]) (Datatypes.S (next_entry (cl_conn c)))
      (cn_compressor (cl_conn c)) (timeout_negotiated (cl_conn c)) (cn_id (cl_conn c)) (sent_messages (cl_conn c)), SendQueued (next_entry (cl_conn c))) = (k0, r) ->
      cn_compressor k0 = cn_compressor (cl_conn c) /\ timeout_negotiated k0 = timeout_negotiated (cl_conn c) /\
      exists e, outgoing_queue k0 = outgoing_queue (cl_conn c) ++ [e] /\ request_of e (message_id c, t, args)).
    { intros k0 [= <- <-]. split_and!; try done. eexists. split; [done|]. exact Em. }
    destruct timeout as [tp|]; [destruct (tp <=? now)|].
    - injection Es as <- <-. split_and!; try done. by left.
    - destruct (Hq k Es) as (? & ? & ?). split_and!; try done. by right.
    - destruct (Hq k Es) as (? & ? & ?). split_and!; try done. by right. }
  set (c2 := match r with SendQueued e => _ | _ => _ end).
  assert (H2 : cl_conn c2 = k /\ outstanding c2 = outstanding c /\ message_id c2 = message_id c + 1).
  { unfold c2. destruct r as [|e|]; try done. destruct (link_send_keeps cancel (Some e) (set_conn k c1)) as (-> & -> & ->). done. }
  destruct H2 as (E1 & E2 & E3). split; [done|]. destruct wait.
  - unfold client_wait_for_reply. destruct (link_wait_keeps cancel (Some (message_id c)) c2) as (F1 & F2 & F3).
    rewrite F2, E2. destruct (outstanding c !! message_id c) as [h|] eqn:Eo.
    + rewrite F1, F2, F3, E1, E2, E3. destruct Hk as (? & ? & ?). split_and!; try done. intros i Hi. by right.
    + cbn [set_outstanding cl_conn message_id outstanding]. rewrite F1, F3, E1, E3. destruct Hk as (? & ? & ?). split_and!; try done.
      intros i [x Hi]. apply lookup_insert_Some in Hi as [[<- _]|[_ Hi]]; [by left|right; by eexists].
  - rewrite E1, E2, E3. destruct Hk as (? & ? & ?). split_and!; try done. intros i Hi. by right.
Qed.

Lemma inv_call y now t args timeout cancel wait c id : inv y ->
  client_call now t args timeout cancel wait (y_client y) = Some (c, Some id) ->
  is_uint 64 t -> fits 28 args -> message_id (y_client y) + 1 < 2 ^ 63 -> inv (log_call (id, t, args) (set_client c [] y)).
Proof.
  intros [H1 H2 (cq & ups & bss & Q1 & Q2 & Q3 & Q4 & Q5 & Q6) H4 H5 H6 H7] E Ht Hf Hm.
  apply client_call_spec in E as (-> & E2 & E3 & E4 & E5 & E6). pose proof (fresh_not_in _ _ _ H1) as Hfresh.
  assert (Hsub : y_calls y ⊆ y_calls y ++ [(message_id (y_client y), t, args)]) by (intros q Hq; apply elem_of_app; by left).
  assert (Hin : (message_id (y_client y), t, args) ∈ y_calls y ++ [(message_id (y_client y), t, args)])
    by (apply elem_of_app; right; apply elem_of_cons; by left).
  constructor; cbn [y_client y_server y_up y_down y_calls y_executed y_done y_refused y_results set_client log_call]; rewrite ?app_nil_r; try done.
  - destruct H1 as [K1 K2 K3 K4 K5 K6 K7 K8]. constructor; rewrite ?E2, ?E3, ?E4; try done.
    + lia.
    + apply Forall_app. split.
      * eapply Forall_impl; [exact K4|]. intros q (Hb & Hr). split; [lia|done].
      * apply Forall_singleton. cbn [call_id fst snd]. split_and!; try done; cbn; lia.
    + rewrite map_app. apply NoDup_app. split_and!; [done| |apply NoDup_singleton].
      intros i Hi Hi'. apply list_elem_of_singleton in Hi'. subst i. done.
    + intros i Hi. apply E5 in Hi as [->|Hi].
      * split; [lia|]. intros Hi. rewrite Forall_forall in K8. apply list_elem_of_fmap in Hi as (x & Ex & Hx). specialize (K8 x Hx). lia.
      * apply K6 in Hi as [Hb Hr]. split; [lia|done].
    + eapply Forall_impl; [exact K8|]. intros x Hx. cbn in Hx. lia.
  - destruct H2 as [K1 K2 K3 K4 K5 K6 K7]. constructor; try done. intros p Hp. destruct (K3 p Hp) as (a & Ha & Hp'). exists a.
    split; [by apply Hsub|done].
  - destruct E6 as [E6|(e & E6 & He)]; rewrite E6.
    + exists cq, ups, bss. split_and!; try done; (etransitivity; [|exact Hsub]; done).
    + exists (cq ++ [(message_id (y_client y), t, args)]), ups, bss. split_and!; try done.
      * apply Forall2_app; [done|]. by repeat constructor.
      * intros q Hq. apply elem_of_app in Hq as [Hq|Hq]; [by apply Hsub, Q4|]. apply list_elem_of_singleton in Hq as ->. done.
      * etransitivity; [|exact Hsub]; done.
      * rewrite map_app. cbn [map]. apply (submseteq_nodup _ (message_id (y_client y) :: map call_id cq ++ map call_id ups ++
          pending_ids (y_server y) ++ map call_id (y_executed y) ++ map fst (y_refused y))); [cbn [call_id fst]; solve_submseteq|].
        apply NoDup_cons. split; [|done]. intros Hin'.
        repeat (apply elem_of_app in Hin' as [Hin'|Hin']).
        -- by apply (ids_in call_id _ _ Q4) in Hin'.
        -- by apply (ids_in call_id _ _ Q5) in Hin'.
        -- unfold pending_ids in Hin'. destruct (sv_pending (y_server y)) as [p|] eqn:Ep; [|by apply elem_of_nil in Hin'].
           apply list_elem_of_singleton in Hin'. destruct (sk_pending _ _ _ _ _ H2 p Ep) as (a & Ha & _).
           apply Hfresh. rewrite Hin'. by apply (list_elem_of_fmap_2 call_id _ _ Ha).
        -- by apply (ids_in call_id _ _ H4) in Hin'.
        -- by apply H5 in Hin'.
  - by etransitivity.
  - rewrite map_app. intros i Hi. apply elem_of_app. left. by apply H5.
Qed.

(** *** The wires *)

Lemma request_reads_nonempty bs q left_ms :
  reads_as (I := I) (read_request tn comp) bs (is_request tn left_ms (snd (fst q)) (call_id q) (snd q)) -> bs <> [].
Proof.
  intros H ->. destruct (H (in_of_chunks []) []) as (v & i' & E & (rb & -> & _) & _); [by rewrite in_pending_chunks|].
  unfold read_request in E. destruct tn.
  - destruct (read_empty (I := I) request_frame_with_timeout comp (in_of_chunks []) ltac:(done)) as [i2 E2]; [by rewrite in_pending_chunks|].
    rewrite E2 in E. discriminate.
  - destruct (read_empty (I := I) request_frame comp (in_of_chunks []) ltac:(done)) as [i2 E2]; [by rewrite in_pending_chunks|].
    rewrite E2 in E. discriminate.
Qed.

Lemma response_reads_nonempty bs rid payload :
  reads_as (I := I) (read_response comp) bs (is_response rid payload) -> bs <> [].
Proof.
  intros H ->. destruct (H (in_of_chunks []) []) as (v & i' & E & (rb & -> & _) & _); [by rewrite in_pending_chunks|].
  unfold read_response in E.
  destruct (read_empty (I := I) response_frame comp (in_of_chunks []) ltac:(done)) as [i2 E2]; [by rewrite in_pending_chunks|].
  rewrite E2 in E. discriminate.
Qed.

(** A round of a send loop that takes an entry. *)
Lemma send_loop_takes request now k w d bs : send_loop_round request now k = Some (w, Some (d, bs)) ->
  exists q b1, outgoing_queue k = d :: q /\ outgoing_queue w = q /\
    cn_compressor w = cn_compressor k /\ timeout_negotiated w = timeout_negotiated k /\
    (if (request : bool) then request_expiration (timeout_negotiated k) (left_of now d) (e_buf d) else Some (e_buf d)) = Some b1 /\
    sent_as (cn_compressor k) b1 bs.
Proof.
  unfold send_loop_round. destruct (cn_error k); [done|]. destruct (outgoing_queue k) as [|d' q] eqn:Eq; [done|].
  destruct (if request then _ else _) as [b1|] eqn:E1; [|done]. cbn [mbind option_bind].
  destruct (compress (cn_compressor k) b1) as [b2|] eqn:E2; [|done]. cbn [mbind option_bind]. intros [= <- <- <-].
  exists q, b1. split_and!; try done. by exists b2.
Qed.

Lemma send_loop_idle request now k w : send_loop_round request now k = Some (w, None) -> w = k.
Proof.
  unfold send_loop_round. destruct (cn_error k); [by intros [= <-]|]. destruct (outgoing_queue k) as [|d q]; [by intros [= <-]|].
  destruct (if request then _ else _); [|done]. cbn [mbind option_bind]. by destruct (compress _ _).
Qed.

Lemma left_of_range now e : is_uint 64 (left_of now e).
Proof. unfold left_of. destruct (e_timer e); [apply wrap_range; lia|split; vm_compute; congruence]. Qed.

Hypothesis Hcomp : comp_ok comp.

Lemma request_written now d q k w bs calls results c : client_ok c calls results -> cl_conn c = k -> q ∈ calls -> request_of d q ->
  send_loop_round true now k = Some (w, Some (d, bs)) -> request_wire q bs.
Proof.
  intros H <- Hq Hd E. apply send_loop_takes in E as (rest & b1 & _ & _ & _ & _ & E1 & (b2 & E2 & E3)).
  rewrite (ck_comp _ _ _ H) in E2. rewrite (ck_tn _ _ _ H) in E1.
  pose proof (ck_calls _ _ _ H) as Hc. rewrite Forall_forall in Hc. destruct (Hc q Hq) as (Hb & Ht & Hf). pose proof (ck_id _ _ _ H).
  destruct (request_transferred (I := I) comp Hcomp tn (left_of now d) (snd (fst q)) (call_id q) (snd q)) as (b & b' & bs' & F1 & F2 & (b3 & F3 & F4) & F5);
    [apply left_of_range|done|lia|done|].
  rewrite Hd in F1. injection F1 as <-. rewrite E1 in F2. injection F2 as <-. rewrite E2 in F3. injection F3 as <-. subst bs bs'.
  split; [by eapply request_reads_nonempty|]. by eexists.
Qed.

Lemma inv_client_send y now c es : inv y -> client_send_loop now (y_client y) = Some (c, es) ->
  inv (set_wires (y_up y ++ written_c es) (y_down y) (set_client c [] y)).
Proof.
  intros Hinv. unfold client_send_loop. destruct (send_loop_round true now (cl_conn (y_client y))) as [[k [[d bs]|]]|] eqn:E; [| |done].
  2:{ cbn [mbind option_bind]. intros [= <- <-]. apply send_loop_idle in E as ->. cbn [written_c]. unfold written_c. cbn [omap list_omap concat].
      rewrite app_nil_r. assert (H : inv (set_client (set_conn (cl_conn (y_client y)) (y_client y)) [] y)) by (apply inv_quiet; [done|done|by apply moves_same]).
      exact H. }
  cbn [mbind option_bind]. intros [= <- <-]. destruct (send_loop_takes _ _ _ _ _ _ E) as (rest & b1 & Eq & Eq' & Ec & Et & _).
  destruct (link_send_keeps (e_cancel d) None (set_conn k (y_client y))) as (G1 & G2 & G3).
  destruct Hinv as [H1 H2 (cq & ups & bss & Q1 & Q2 & Q3 & Q4 & Q5 & Q6) H4 H5 H6 H7].
  rewrite Eq in Q1. apply Forall2_cons_inv_l in Q1 as (q & cq' & Hd & Q1 & ->).
  assert (Hq : q ∈ y_calls y) by (apply Q4, elem_of_cons; by left).
  constructor; cbn [y_client y_server y_up y_down y_calls y_executed y_done y_refused y_results set_client set_wires]; rewrite ?app_nil_r; try done.
  - destruct H1 as [K1 K2 K3 K4 K5 K6 K7 K8]. constructor; rewrite ?G1, ?G2, ?G3; cbn [set_conn cl_conn outstanding message_id]; try done; congruence.
  - exists cq', (ups ++ [q]), (bss ++ [bs]). rewrite G1. cbn [set_conn cl_conn]. rewrite Eq'. split_and!; try done.
    + unfold written_c. cbn. rewrite app_nil_r, concat_app, Q2. cbn. by rewrite app_nil_r.
    + apply Forall2_app; [done|]. constructor; [|constructor]. by eapply request_written.
    + intros x Hx. apply Q4, elem_of_cons. by right.
    + intros x Hx. apply elem_of_app in Hx as [Hx|Hx]; [by apply Q5|]. by apply list_elem_of_singleton in Hx as ->.
    + eapply submseteq_nodup; [|exact Q6]. rewrite map_app. cbn [map]. solve_submseteq.
Qed.

Lemma inv_client_read y (i : I) id rb i' c es : inv y -> in_pending i = y_down y -> y_down y <> [] ->
  read_response (cn_compressor (cl_conn (y_client y))) i = Some ((id, Some rb), i') ->
  process_response (id, Some rb) (y_client y) = Some (c, es) ->
  inv (set_wires (y_up y) (in_pending i') (set_client c (results_of es) y)).
Proof.
  intros Hinv Hi Hne Er Ep. pose proof (in_down _ Hinv) as (bss & Ed & Hw). rewrite (ck_comp _ _ _ (in_client _ Hinv)) in Er.
  destruct bss as [|bs bss]; [by rewrite Ed in Hne|]. apply Forall_cons in Hw as [(_ & rid & payload & Hj & Hr) Hw].
  destruct (Hr i (concat bss)) as (v & i2 & Er2 & (rb2 & -> & Hb & _) & Ei); [by rewrite Hi, Ed|].
  rewrite Er in Er2. injection Er2 as -> -> ->. apply process_response_moves in Ep as (Hm & Hq & Ht).
  assert (H : inv (set_client c (results_of es) y)).
  { apply inv_client_moves; [done|done| |].
    - exists (fun _ => true). rewrite Hq. clear. induction (outgoing_queue _) as [|a l IH]; [done|]. cbn. by rewrite <- IH.
    - eapply Forall_impl; [exact Ht|]. intros [x r] [Hx Hres]. cbn [fst snd] in *. subst x. rewrite Hb in Hres.
      unfold result_ok. cbn [fst snd]. destruct Hj as (n & Hn & [[-> Hd]|(-> & ex & Hu & Hreason)]).
      + rewrite (proj2 (Z.leb_le 0 n)) in Hres by lia. subst r. by rewrite Z.abs_eq by lia.
      + rewrite (proj2 (Z.leb_gt 0 (- n))) in Hres by lia. subst r. rewrite Hu, Z.abs_opp, Z.abs_eq by lia. done. }
  destruct H as [H1 H2 H3 H4 H5 H6 H7]. constructor; try done. cbn [y_down set_wires y_done y_refused set_client]. exists bss. done.
Qed.

(** *** Steps of the server *)

Definition same_state (s s' : server S) : Prop :=
  sv_conn s' = sv_conn s /\ sv_pending s' = sv_pending s /\ sv_running s' = sv_running s.

Lemma get_handler_same type (s s' : server S) h : get_handler type s = Some (h, s') -> same_state s s'.
Proof.
  unfold get_handler. destruct (handlers s !! u32 type) as [h0|]; [|done]. cbn [mbind option_bind].
  destruct (gate_closed h0); [done|]. by intros [= _ <-].
Qed.

Lemma server_ok_mono s calls executed d r executed' d' r' : server_ok s calls executed d r ->
  executed ⊆ executed' -> d ⊆ d' -> r ⊆ r' -> NoDup (map r_id (sv_running s) ++ map fst d') ->
  Forall (fun x => exists t args, (fst x, t, args) ∈ executed') d' -> server_ok s calls executed' d' r'.
Proof.
  intros [K1 K2 K3 K4 K5 K6 K7] He Hd Hr Hn Hi. constructor; try done.
  - eapply Forall_impl; [exact K4|]. intros x Hx. by apply He.
  - eapply Forall_impl; [exact K7|]. intros e (rid & payload & Hj & Ho). exists rid, payload. split; [|done]. by eapply justified_mono.
Qed.

Lemma server_ok_same s s' calls executed d r : server_ok s calls executed d r -> same_state s s' -> server_ok s' calls executed d r.
Proof. intros [K1 K2 K3 K4 K5 K6 K7] (E1 & E2 & E3). constructor; rewrite ?E1, ?E2, ?E3; done. Qed.

(** A message is queued, or its units are given back. *)
Lemma respond_ok now rid data timeout permit s s' calls executed d r b0 f rr hd payload :
  server_ok s calls executed d r -> message data f rr -> f ++ rr = hd ++ payload -> zlen hd = 12 -> 12 <= zlen f ->
  fits 12 payload -> justified d r rid payload -> b0 = data ->
  respond now rid data timeout permit s = Some s' ->
  server_ok s' calls executed d r /\ sv_pending s' = sv_pending s /\ sv_running s' = sv_running s.
Proof.
  intros [K1 K2 K3 K4 K5 K6 K7] Hm Hf Hh H12 Hfit Hj _. unfold respond.
  destruct (response_head rid data) as [b|] eqn:Eh; [|done]. cbn [mbind option_bind].
  destruct (conn_send now b timeout None permit (sv_conn s)) as [k x] eqn:Es. intros [= <-].
  assert (Hk : cn_compressor k = comp /\ timeout_negotiated k = tn /\
    Forall (fun e => exists rid payload, justified d r rid payload /\ response_of rid payload (e_buf e)) (outgoing_queue k)).
  { unfold conn_send in Es. destruct (cn_error (sv_conn s)); [by injection Es as <- _|].
    assert (Hnew : Forall (fun e => exists rid payload, justified d r rid payload /\ response_of rid payload (e_buf e))
      (outgoing_queue (sv_conn s) ++ [Entry (next_entry (sv_conn s)) timeout b None permit])).
    { apply Forall_app. split; [done|]. apply Forall_singleton. exists rid, payload. split; [done|]. split; [done|]. by exists data, f, rr, hd. }
    destruct timeout as [tp|]; [destruct (tp <=? now)|]; injection Es as <- _; done. }
  destruct Hk as (Hk1 & Hk2 & Hk3).
  destruct x; cbn [release set_available set_sconn sv_conn sv_pending sv_running]; (split; [|done]); by constructor.
Qed.

Lemma reply_ok now ret id timeout permit s s' calls executed d r : server_ok s calls executed d r -> 1 <= id < 2 ^ 63 ->
  match ret with
  | Returned p => fits 12 p /\ (id, Returned p) ∈ d
  | Threw w => fits 20 w /\ (cn_error (sv_conn s) = false -> reason d r id (UserError w))
  | Vanished => True
  end -> reply now ret id timeout permit s = Some s' ->
  server_ok s' calls executed d r /\ sv_pending s' = sv_pending s /\ sv_running s' = sv_running s.
Proof.
  intros Hs Hid Hret. pose proof (max_message_le comp). unfold reply. destruct (cn_error (sv_conn s)).
  { intros [= <-]. split; [|done]. by eapply server_ok_same. }
  destruct ret as [p|w|].
  - destruct Hret as [Hf Hd]. unfold fits in Hf. pose proof (zlen_nonneg p).
    destruct (marshall_message 12 p) as (b & f & rr & hd & -> & Hm & Hb & Hh & H12); [done|lia|]. cbn [mbind option_bind].
    eapply respond_ok; try done. exists id. split; [done|]. by left.
  - destruct Hret as [Hf Hr]. unfold fits in Hf. pose proof (zlen_nonneg w).
    destruct (exception_message_spec w) as (b & f & rr & hd & -> & Hm & Hh & H12 & Hb); [lia|]. cbn [mbind option_bind].
    eapply respond_ok; try done.
    + unfold fits. rewrite !zlen_app, !zlen_write_le. lia.
    + exists id. split; [done|]. right. split; [done|]. eexists. split; [|by apply Hr].
      rewrite <- (app_nil_r w) at 2. apply unmarshal_user. lia.
  - intros [= <-]. split; [|done]. by eapply server_ok_same.
Qed.

Lemma call_by_id calls results c id t t' a a' : client_ok c calls results ->
  (id, t, a) ∈ calls -> (id, t', a') ∈ calls -> t = t' /\ a = a'.
Proof.
  intros H H1 H2. pose proof (ck_distinct _ _ _ H) as Hn. clear H. induction calls as [|q calls IH]; [by apply elem_of_nil in H1|].
  cbn [map] in Hn. apply NoDup_cons in Hn as [Hq Hn]. apply elem_of_cons in H1 as [H1|H1]; apply elem_of_cons in H2 as [H2|H2].
  - rewrite <- H1 in H2. injection H2 as -> ->. done.
  - exfalso. apply Hq. rewrite <- H1. by apply (list_elem_of_fmap_2 call_id _ _ H2).
  - exfalso. apply Hq. rewrite <- H2. by apply (list_elem_of_fmap_2 call_id _ _ H1).
  - by apply IH.
Qed.

Lemma subseteq_app_l {A} (l k : list A) : l ⊆ l ++ k.
Proof. intros x Hx. apply elem_of_app. by left. Qed.

(** A step of the server that changes neither wire nor log, and lets at most the
    waiting request go. *)
Lemma inv_server y s : inv y ->
  server_ok s (y_calls y) (y_executed y) (y_done y) (y_refused y) -> (pending_ids s ⊆+ pending_ids (y_server y)) -> inv (set_server s y).
Proof.
  intros [H1 H2 (cq & ups & bss & Q1 & Q2 & Q3 & Q4 & Q5 & Q6) H4 H5 H6 H7] Hs Hp. constructor; try done.
  exists cq, ups, bss. split_and!; try done. cbn [set_server y_server y_executed y_refused].
  eapply submseteq_nodup; [|exact Q6]. by apply submseteq_skips_l, submseteq_skips_l, submseteq_skips_r.
Qed.

Lemma inv_server_same y s : inv y -> same_state (y_server y) s -> inv (set_server s y).
Proof.
  intros H Hs. apply inv_server; [done|by eapply server_ok_same; [apply H|]|]. unfold pending_ids. by destruct Hs as (_ & -> & _).
Qed.

Lemma inv_server_read y now (i : I) v i' s : inv y -> in_pending i = y_up y -> y_up y <> [] -> sv_pending (y_server y) = None ->
  read_request (timeout_negotiated (sv_conn (y_server y))) (cn_compressor (sv_conn (y_server y))) i = Some (v, i') ->
  process_request limits time_max oversized_text now v (y_server y) = Some s ->
  inv (log_refused (refusal (y_server y) v) (set_wires (in_pending i') (y_down y) (set_server s y))).
Proof.
  intros [H1 H2 (cq & ups & bss & Q1 & Q2 & Q3 & Q4 & Q5 & Q6) H4 H5 H6 H7] Hi Hne Hp Er Ep.
  rewrite (sk_comp _ _ _ _ _ H2), (sk_tn _ _ _ _ _ H2) in Er.
  destruct Q3 as [|[[id t] args] bs ups bss (_ & left_ms & Hr) Q3]; [by rewrite Q2 in Hne|].
  destruct (Hr i (concat bss)) as (v2 & i2 & Er2 & (rb & -> & Hb & Hz) & Ei); [by rewrite Hi, Q2|].
  rewrite Er in Er2. injection Er2 as -> ->. cbn [call_id fst snd] in *.
  assert (Hq : (id, t, args) ∈ y_calls y) by (apply Q5, elem_of_cons; by left).
  pose proof (ck_calls _ _ _ H1) as Hc. rewrite Forall_forall in Hc. destruct (Hc _ Hq) as (Hid & Ht & Hf). cbn [call_id fst snd] in *.
  pose proof (ck_id _ _ _ H1). assert (Hid' : 1 <= id < 2 ^ 63) by lia.
  (* what is to be shown, for the server after the step *)
  assert (Hgoal : forall rf, server_ok s (y_calls y) (y_executed y) (y_done y) (y_refused y ++ rf) ->
    pending_ids s ++ map fst rf ⊆+ [id] ->
    inv (log_refused rf (set_wires (in_pending i2) (y_down y) (set_server s y)))).
  { intros rf Hs Ht'. constructor; cbn [y_client y_server y_up y_down y_calls y_executed y_done y_refused y_results log_refused set_wires set_server]; try done.
    - exists cq, ups, bss. split_and!; try done; [intros x Hx; apply Q5, elem_of_cons; by right|].
      eapply submseteq_nodup; [|exact Q6]. unfold pending_ids at 2. rewrite Hp. cbn [map call_id fst]. rewrite map_app. cbn [app].
      set (A := map call_id cq). set (B := map call_id ups). set (C := map call_id (y_executed y)). set (D := map fst (y_refused y)).
      transitivity ((A ++ B ++ C ++ D) ++ pending_ids s ++ map fst rf); [cbn; solve_submseteq|].
      etransitivity; [apply submseteq_skips_l, Ht'|]. solve_submseteq.
    - intros x Hx. rewrite map_app in Hx. apply elem_of_app in Hx as [Hx|Hx]; [by apply H5|].
      assert (Hx' : x ∈ [id]) by (eapply elem_of_submseteq; [|exact Ht']; apply elem_of_app; by right).
      apply list_elem_of_singleton in Hx' as ->. by apply (list_elem_of_fmap_2 call_id _ _ Hq).
    - destruct H6 as (bs2 & -> & Hw). exists bs2. split; [done|]. eapply Forall_impl; [exact Hw|].
      intros b [Hbn (rid & pl & Hj & Hrd)]. split; [done|]. exists rid, pl. split; [|done]. eapply justified_mono; [done|apply subseteq_app_l|done].
    - eapply Forall_impl; [exact H7|]. intros x Hx. eapply result_ok_mono; [done|apply subseteq_app_l|exact Hx]. }
  assert (Hs0 : forall rf, server_ok (y_server y) (y_calls y) (y_executed y) (y_done y) (y_refused y ++ rf)).
  { intros rf. eapply server_ok_mono; [exact H2|done|done|apply subseteq_app_l|apply H2|apply H2]. }
  unfold process_request, refusal in *. destruct (get_handler t (y_server y)) as [[h s1]|] eqn:Eg.
  - pose proof (get_handler_same _ _ _ _ Eg) as Hsame. destruct (max_memory limits <? _).
    + assert (Hsame2 : same_state (y_server y) (put_handler t s1)) by (destruct Hsame as (?&?&?); done).
      destruct (no_wait h); cbn [negb andb].
      * injection Ep as <-. apply Hgoal; [by eapply server_ok_same|]. unfold pending_ids. rewrite (proj1 (proj2 Hsame2)), Hp. apply submseteq_nil_l.
      * set (rf := if negb (cn_error (sv_conn (y_server y))) then _ else _). 
        assert (Hrep : server_ok s (y_calls y) (y_executed y) (y_done y) (y_refused y ++ rf) /\
          sv_pending s = sv_pending (put_handler t s1) /\ sv_running s = sv_running (put_handler t s1)).
        { eapply reply_ok; [|exact Hid'| |exact Ep].
          - eapply server_ok_same; [apply Hs0|done].
          - split; [apply Htext|]. destruct Hsame2 as (-> & _). intros He. right. unfold rf. rewrite He. cbn [negb].
            apply elem_of_app. right. apply elem_of_cons. by left. }
        destruct Hrep as (Hs' & Hps & _). destruct Hsame2 as (_ & Ep2 & _). apply (Hgoal rf); [exact Hs'|].
        unfold pending_ids. rewrite Hps, Ep2, Hp. unfold rf. destruct (cn_error _); cbn; [apply submseteq_nil_l|done].
    + cbn [andb]. injection Ep as <-. apply (Hgoal []); [|done]. destruct (server_ok_same _ _ _ _ _ _ (Hs0 []) Hsame) as [K1 K2 K3 K4 K5 K6 K7].
      constructor; try done. cbn [set_pending sv_pending]. intros p [= <-]. exists args. cbn. split; [done|]. intros _. by rewrite Hb.
  - injection Ep as <-. apply (Hgoal []); [|done]. destruct (Hs0 []) as [K1 K2 K3 K4 K5 K6 K7].
    constructor; try done. cbn [set_pending sv_pending]. intros p [= <-]. exists args. cbn. split; [done|]. intros [x Hx]. done.
Qed.

(** The waiting request is not executed yet, nor refused. *)
Lemma pending_fresh y p : inv y -> sv_pending (y_server y) = Some p ->
  p_id p ∉ map call_id (y_executed y) /\ p_id p ∉ map fst (y_refused y) /\
  exists args, (p_id p, p_type p, args) ∈ y_calls y /\ (is_Some (p_handler p) -> args = p_args p).
Proof.
  intros [H1 H2 (cq & ups & bss & _ & _ & _ & _ & _ & Q6) _ _ _ _] Hp. unfold pending_ids in Q6. rewrite Hp in Q6.
  apply NoDup_app in Q6 as (_ & _ & Q6). apply NoDup_app in Q6 as (_ & _ & Q6). apply NoDup_cons in Q6 as [Hn _].
  apply not_elem_of_app in Hn as [Hn1 Hn2]. split_and!; [done|done|]. by apply (sk_pending _ _ _ _ _ H2).
Qed.

Lemma inv_pending_gone y s calls executed refused : inv y ->
  server_ok s (y_calls y) (y_executed y ++ executed) (y_done y) (y_refused y ++ refused) ->
  executed ⊆ calls -> calls ⊆ y_calls y -> map fst refused ⊆ map call_id (y_calls y) ->
  pending_ids s ++ map call_id executed ++ map fst refused ⊆+ pending_ids (y_server y) ->
  inv (log_refused refused (log_executed executed (set_server s y))).
Proof.
  intros [H1 H2 (cq & ups & bss & Q1 & Q2 & Q3 & Q4 & Q5 & Q6) H4 H5 H6 H7] Hs He Hc Hr Hp.
  constructor; cbn [y_client y_server y_up y_down y_calls y_executed y_done y_refused y_results log_refused log_executed set_server]; try done.
  - exists cq, ups, bss. split_and!; try done. eapply submseteq_nodup; [|exact Q6]. rewrite !map_app.
    set (A := map call_id cq). set (B := map call_id ups). set (C := map call_id (y_executed y)). set (D := map fst (y_refused y)).
    transitivity ((A ++ B ++ C ++ D) ++ pending_ids s ++ map call_id executed ++ map fst refused); [solve_submseteq|].
    etransitivity; [apply submseteq_skips_l, Hp|]. solve_submseteq.
  - intros x Hx. apply elem_of_app in Hx as [Hx|Hx]; [by apply H4|by apply Hc, He].
  - intros x Hx. rewrite map_app in Hx. apply elem_of_app in Hx as [Hx|Hx]; [by apply H5|by apply Hr].
  - destruct H6 as (bs2 & -> & Hw). exists bs2. split; [done|]. eapply Forall_impl; [exact Hw|].
    intros b [Hbn (rid & pl & Hj & Hrd)]. split; [done|]. exists rid, pl. split; [|done]. eapply justified_mono; [done|apply subseteq_app_l|done].
  - eapply Forall_impl; [exact H7|]. intros x Hx. eapply result_ok_mono; [done|apply subseteq_app_l|exact Hx].
Qed.

Lemma inv_admit y now s es p : inv y -> sv_pending (y_server y) = Some p -> admit_request now (y_server y) = Some (s, es) ->
  inv (log_refused (match p_handler p with None => [(p_id p, UnknownVerb (p_type p))] | Some _ => [] end)
         (log_executed (executed_s es) (set_server s y))).
Proof.
  intros Hinv Hp. destruct (pending_fresh y p Hinv Hp) as (Hne & Hnr & args & Hcall & Hargs).
  unfold admit_request. rewrite Hp. cbn [mbind option_bind].
  destruct (sem_try_wait _ _) as [a|]; [|done]. cbn [mbind option_bind].
  pose proof (in_client _ Hinv) as Hc. pose proof (ck_calls _ _ _ Hc) as Hcs. rewrite Forall_forall in Hcs.
  destruct (Hcs _ Hcall) as (Hid & Ht & _). cbn [call_id fst snd] in *. pose proof (ck_id _ _ _ Hc). pose proof (in_server _ Hinv) as Hs.
  destruct (p_handler p) as [nw|] eqn:Eh.
  - intros [= <- <-]. cbn [executed_s]. unfold executed_s. cbn [omap list_omap]. rewrite <- (Hargs ltac:(by eexists)).
    apply (inv_pending_gone y _ [(p_id p, p_type p, args)] [(p_id p, p_type p, args)] []); try done.
    + rewrite app_nil_r. assert (Hfresh : p_id p ∉ map r_id (sv_running (y_server y)) ++ map fst (y_done y)).
      { intros Hin. apply Hne. apply elem_of_app in Hin as [Hin|Hin].
        - apply list_elem_of_fmap in Hin as (x & -> & Hx). pose proof (sk_running _ _ _ _ _ Hs) as Hr. rewrite Forall_forall in Hr.
          by apply (list_elem_of_fmap_2 call_id _ _ (Hr x Hx)).
        - apply list_elem_of_fmap in Hin as (x & -> & Hx). pose proof (sk_done_ids _ _ _ _ _ Hs) as Hd. rewrite Forall_forall in Hd.
          destruct (Hd x Hx) as (t0 & a0 & Hin). by apply (list_elem_of_fmap_2 call_id _ _ Hin). }
      destruct Hs as [K1 K2 K3 K4 K5 K6 K7].
      constructor; cbn [set_running put_handler set_handlers set_available set_pending sv_conn sv_pending sv_running]; try done.
      * apply Forall_app. split; [eapply Forall_impl; [exact K4|]; intros x Hx; by apply subseteq_app_l|].
        apply Forall_singleton. cbn [r_id r_type r_args]. apply elem_of_app. right. apply elem_of_cons. left. by rewrite (Hargs ltac:(by eexists)).
      * apply (submseteq_nodup _ (p_id p :: map r_id (sv_running (y_server y)) ++ map fst (y_done y))); [rewrite map_app; cbn; solve_submseteq|].
        by apply NoDup_cons.
      * eapply Forall_impl; [exact K6|]. intros x (t0 & a0 & Hin). exists t0, a0. by apply subseteq_app_l.
    + intros x Hx. apply list_elem_of_singleton in Hx as ->. done.
    + by intros x ?%elem_of_nil.
    + unfold pending_ids. rewrite Hp. done.
  - destruct (unknown_verb_message_spec (p_type p)) as (b & f & rr & hd & -> & Hm & Hh & H12 & Hb). cbn [mbind option_bind].
    destruct (respond _ _ _ _ _ _) as [s'|] eqn:Er; [|done]. cbn [mbind option_bind]. intros [= <- <-]. unfold executed_s. cbn [omap list_omap].
    assert (Hs0 : server_ok (set_available a (set_pending None (y_server y))) (y_calls y) (y_executed y ++ []) (y_done y)
      (y_refused y ++ [(p_id p, UnknownVerb (p_type p))])).
    { rewrite app_nil_r. destruct (server_ok_mono _ _ _ _ _ (y_executed y) (y_done y) (y_refused y ++ [(p_id p, UnknownVerb (p_type p))]) Hs)
        as [K1 K2 K3 K4 K5 K6 K7]; [done|done|apply subseteq_app_l|apply Hs|apply Hs|]. by constructor. }
    assert (Hrep : server_ok s' (y_calls y) (y_executed y ++ []) (y_done y) (y_refused y ++ [(p_id p, UnknownVerb (p_type p))]) /\
      sv_pending s' = None /\ sv_running s' = sv_running (y_server y)).
    { eapply (respond_ok _ _ _ _ _ _ _ _ _ _ _ _ _ _ _ _ Hs0 Hm Hb Hh H12); [| |done|exact Er].
      - unfold fits. rewrite !zlen_app, !zlen_write_le. unfold max_message. destruct comp; vm_compute; done.
      - exists (p_id p). split; [lia|]. right. split; [done|]. eexists. split; [by apply unmarshal_unknown|]. right.
        apply elem_of_app. right. apply elem_of_cons. by left. }
    destruct Hrep as (Hs' & Hps & _). apply (inv_pending_gone y _ [] [] [(p_id p, UnknownVerb (p_type p))]); try done.
    + by intros x ?%elem_of_nil.
    + intros x Hx. apply list_elem_of_singleton in Hx as ->. by apply (list_elem_of_fmap_2 call_id _ _ Hcall).
    + unfold pending_ids. rewrite Hps, Hp. done.
Qed.

Lemma inv_pending_timeout y s : inv y -> pending_timed_out (y_server y) = Some s -> inv (set_server s y).
Proof.
  intros Hinv. unfold pending_timed_out. destruct (sv_pending (y_server y)) as [p|] eqn:Hp; [|done]. cbn [mbind option_bind].
  destruct (p_timeout p); [|done]. cbn [mbind option_bind]. intros [= <-]. destruct (in_server _ Hinv) as [K1 K2 K3 K4 K5 K6 K7].
  apply inv_server; [done| |].
  - destruct (p_handler p); by constructor.
  - unfold pending_ids. destruct (p_handler p); apply submseteq_nil_l.
Qed.

Lemma inv_done y now k x ret s : inv y -> sv_running (y_server y) !! k = Some x -> handler_done now k ret (y_server y) = Some s ->
  match ret with Returned p => fits 12 p | Threw w => fits 20 w | Vanished => True end ->
  inv (log_done (r_id x, ret) (set_server s y)).
Proof.
  intros Hinv Hk. unfold handler_done. rewrite Hk. cbn [mbind option_bind]. set (s0 := set_running _ _). intros E Hfit.
  pose proof (in_server _ Hinv) as Hs. pose proof (in_client _ Hinv) as Hc.
  assert (Hx : (r_id x, r_type x, r_args x) ∈ y_executed y).
  { pose proof (sk_running _ _ _ _ _ Hs) as Hr. rewrite Forall_forall in Hr. by apply Hr, (list_elem_of_lookup_2 _ k). }
  assert (Hid : 1 <= r_id x < 2 ^ 63).
  { pose proof (ck_calls _ _ _ Hc) as Hcs. rewrite Forall_forall in Hcs. destruct (Hcs _ (in_executed _ Hinv _ Hx)) as [Hb _].
    pose proof (ck_id _ _ _ Hc). cbn in Hb. lia. }
  assert (Hperm : sv_running (y_server y) ≡ₚ x :: delete k (sv_running (y_server y))) by by apply delete_Permutation.
  set (d := y_done y ++ [(r_id x, ret)]).
  assert (Hs0 : server_ok s0 (y_calls y) (y_executed y) d (y_refused y)).
  { destruct Hs as [K1 K2 K3 K4 K5 K6 K7]. constructor; try done; cbn [s0 set_running sv_running].
    - rewrite Hperm in K4. by apply Forall_cons in K4 as [_ K4].
    - unfold d. rewrite map_app. eapply submseteq_nodup; [|exact K5]. cbn [map fst].
      assert (map r_id (sv_running (y_server y)) ≡ₚ r_id x :: map r_id (delete k (sv_running (y_server y)))) as -> by (by rewrite Hperm at 1).
      solve_submseteq.
    - apply Forall_app. split; [done|]. apply Forall_singleton. by eexists _, _.
    - eapply Forall_impl; [exact K7|]. intros e (rid & pl & Hj & Ho). exists rid, pl. split; [|done].
      eapply justified_mono; [apply subseteq_app_l|done|done]. }
  assert (Hs' : server_ok s (y_calls y) (y_executed y) d (y_refused y) /\ sv_pending s = sv_pending (y_server y)).
  { destruct (r_no_wait x).
    - injection E as <-. split; [|done]. by eapply server_ok_same.
    - assert (Hrep : server_ok s (y_calls y) (y_executed y) d (y_refused y) /\ sv_pending s = sv_pending s0 /\ sv_running s = sv_running s0).
      { eapply reply_ok; [exact Hs0|exact Hid| |exact E]. destruct ret as [p|w|]; [..|done].
        - split; [done|]. apply elem_of_app. right. apply elem_of_cons. by left.
        - split; [done|]. intros _. left. exists w. split; [|done]. apply elem_of_app. right. apply elem_of_cons. by left. }
      destruct Hrep as (H1 & H2 & _). by rewrite H2. }
  destruct Hs' as [Hs' Hps]. destruct Hinv as [H1 H2 H3 H4 H5 H6 H7].
  constructor; cbn [y_client y_server y_up y_down y_calls y_executed y_done y_refused y_results log_done set_server]; try done.
  - unfold pending_ids in *. by rewrite Hps.
  - destruct H6 as (bs2 & -> & Hw). exists bs2. split; [done|]. eapply Forall_impl; [exact Hw|].
    intros b [Hbn (rid & pl & Hj & Hrd)]. split; [done|]. exists rid, pl. split; [|done]. eapply justified_mono; [apply subseteq_app_l|done|done].
  - eapply Forall_impl; [exact H7|]. intros z Hz. eapply result_ok_mono; [apply subseteq_app_l|done|exact Hz].
Qed.

Lemma inv_server_send y now s es : inv y -> server_send_loop now (y_server y) = Some (s, es) ->
  inv (set_wires (y_up y) (y_down y ++ written_s es) (set_server s y)).
Proof.
  intros Hinv. unfold server_send_loop. destruct (send_loop_round false now (sv_conn (y_server y))) as [[k [[e bs]|]]|] eqn:E; [| |done].
  2:{ cbn [mbind option_bind]. intros [= <- <-]. apply send_loop_idle in E as ->. unfold written_s. cbn [omap list_omap concat].
      rewrite app_nil_r. exact (inv_server_same y (set_sconn (sv_conn (y_server y)) (y_server y)) Hinv (conj eq_refl (conj eq_refl eq_refl))). }
  cbn [mbind option_bind]. intros [= <- <-]. apply send_loop_takes in E as (rest & b1 & Eq & Eq' & Ec & Et & E1 & Esent).
  injection E1 as <-. pose proof (in_server _ Hinv) as Hs. rewrite (sk_comp _ _ _ _ _ Hs) in Esent.
  pose proof (sk_queue _ _ _ _ _ Hs) as Hq. rewrite Eq in Hq. apply Forall_cons in Hq as [(rid & payload & Hj & Hf & b0 & f & r & hd & Hm & Hb & Hh & H12 & Er) Hq].
  assert (Hw : response_wire (y_done y) (y_refused y) bs).
  { destruct (response_transfer (I := I) comp Hcomp rid b0 f r payload) as (b' & bs' & F1 & (b2 & F2 & F3) & F4); [|done|done|by exists hd|done|].
    - destruct Hj as (id & Hid & [[-> _]|[-> _]]); lia.
    - rewrite Er in F1. injection F1 as <-. destruct Esent as (b3 & G2 & G3). rewrite F2 in G2. injection G2 as <-. rewrite F3 in G3. subst bs'.
      split; [by eapply response_reads_nonempty|]. by exists rid, payload. }
  destruct Hinv as [H1 H2 H3 H4 H5 (bss & H6 & H6') H7].
  constructor; cbn [y_client y_server y_up y_down y_calls y_executed y_done y_refused y_results set_wires set_server]; try done.
  - destruct Hs as [K1 K2 K3 K4 K5 K6 K7]. constructor; cbn [release set_available set_sconn sv_conn sv_pending sv_running]; try done; try congruence.
  - exists (bss ++ [bs]). split; [|by apply Forall_app, conj; [|apply Forall_singleton]]. rewrite H6. unfold written_s. cbn.
    rewrite app_nil_r, concat_app. cbn. by rewrite app_nil_r.
Qed.

Lemma inv_response_timeout y e s : inv y -> response_timed_out e (y_server y) = Some s -> inv (set_server s y).
Proof.
  intros Hinv. unfold response_timed_out. destruct (List.find _ _) as [d|]; [|done]. cbn [mbind option_bind].
  destruct (e_timer d); [|done]. cbn [mbind option_bind]. intros [= <-]. destruct (in_server _ Hinv) as [K1 K2 K3 K4 K5 K6 K7].
  apply inv_server; [done| |done]. constructor; try done. cbn.
  clear -K7. induction K7 as [|x l Hx _ IH]; [constructor|]. cbn. destruct (negb _); [by constructor|done].
Qed.

Lemma inv_server_teardown y : inv y -> inv (set_server (server_teardown (y_server y)) y).
Proof.
  intros Hinv. destruct (in_server _ Hinv) as [K1 K2 K3 K4 K5 K6 K7]. unfold server_teardown.
  assert (Hf : forall q (s : server S), same_state s (fold_left (fun s d => release (e_permit d) s) q s)).
  { induction q as [|x q IH]; intros s; [done|]. cbn [fold_left]. unfold same_state. destruct (IH (release (e_permit x) s)) as (-> & -> & ->). done. }
  set (s0 := set_sconn _ _). destruct (Hf (outgoing_queue (sv_conn (y_server y))) s0) as (E1 & E2 & E3).
  apply inv_server; [done| |].
  - constructor; rewrite ?E1, ?E2, ?E3; try done.
  - unfold pending_ids. rewrite E2. done.
Qed.

Inductive sys_run (id : Z) (hs : gmap Z rpc_handler) : system -> Prop :=
  | run_start : sys_run id hs (system_init id hs)
  | run_step y y' : sys_run id hs y -> sys_step y y' -> sys_run id hs y'.

Lemma inv_init id hs : inv (system_init id hs).
Proof.
  constructor; cbn; try done.
  - constructor; cbn; try done.
    + apply NoDup_nil. done.
    + intros i [x Hx]. by rewrite lookup_empty in Hx.
    + by apply NoDup_nil.
  - constructor; cbn; try done. by apply NoDup_nil.
  - exists [], [], []. split_and!; try done; try constructor. all: by intros x ?%elem_of_nil.
  - by exists [].
Qed.

Lemma inv_step y y' : inv y -> sys_step y y' -> inv y'.
Proof.
  intros H Hs. destruct Hs.
  - by eapply inv_call.
  - apply inv_quiet; [done|done|by apply moves_same].
  - by eapply inv_client_send.
  - destruct (drop_entry_moves e (y_client y)) as [Hm Hq]. apply inv_client_moves; [done|done|by eexists|constructor].
  - apply wait_timed_out_moves in H0 as (Hm & Hq & Hr). rewrite Hr in *. apply inv_client_moves; [done|done| |by repeat constructor].
    exists (fun _ => true). rewrite Hq. clear. induction (outgoing_queue _) as [|a l IH]; [done|]. cbn. by rewrite <- IH.
  - apply client_cancel_moves in H0 as (Hm & Hq & Hr). apply inv_client_moves; [done|done|done|].
    eapply Forall_impl; [exact Hr|]. intros [x r] Hx. cbn in Hx. by subst r.
  - by eapply inv_client_read.
  - pose proof (client_teardown_moves (y_client y)) as Ht. rewrite H0 in Ht.
    destruct Ht as (Hm & Hq & Hr). apply inv_client_moves; [done|done| |].
    + exists (fun _ => false). rewrite Hq. clear. by induction (outgoing_queue _).
    + eapply Forall_impl; [exact Hr|]. intros [x r] Hx. cbn in Hx. by subst r.
  - by eapply inv_server_read.
  - by eapply inv_admit.
  - by eapply inv_pending_timeout.
  - by eapply inv_done.
  - by eapply inv_server_send.
  - by eapply inv_response_timeout.
  - apply inv_server_same; [done|]. unfold register_handler in H0. destruct (handlers (y_server y) !! _); [done|]. by injection H0 as <-.
  - by apply inv_server_same.
  - apply inv_server_same; [done|]. unfold erase_handler in H0. destruct (handlers (y_server y) !! _); [|done]. cbn [mbind option_bind] in H0.
    destruct (_ && _); [|done]. by injection H0 as <-.
  - by apply inv_server_teardown.
Qed.

(** C7. Remote calls, over any timing of calls, timeouts, cancellations, handlers
    and ends of connections: a call ends at most once, and is executed at most once,
    with the arguments that it was made with; a value that a call is told is what
    its own execution returned; an exception is what its own execution threw, or
    the server has refused the call and does not execute it. *)
Theorem rpc_calls id hs y : sys_run id hs y ->
  NoDup (map fst (y_results y)) /\
  NoDup (map call_id (y_executed y)) /\ y_executed y ⊆ y_calls y /\ NoDup (map call_id (y_calls y)) /\
  (forall n p, (n, RValue p) ∈ y_results y ->
     (n, Returned p) ∈ y_done y /\ exists t args, (n, t, args) ∈ y_executed y) /\
  (forall n ex, (n, RException ex) ∈ y_results y ->
     (exists w, ex = UserError w /\ (n, Threw w) ∈ y_done y) \/
     ((n, ex) ∈ y_refused y /\ n ∉ map call_id (y_executed y))) /\
  (forall n, (n, RBroken) ∉ y_results y).
Proof.
  intros Hrun. assert (H : inv y) by (induction Hrun; [apply inv_init|by eapply inv_step]). clear Hrun.
  destruct H as [H1 H2 (cq & ups & bss & _ & _ & _ & _ & _ & Q6) H4 H5 _ H7]. rewrite Forall_forall in H7.
  apply NoDup_app in Q6 as (_ & _ & Q6). apply NoDup_app in Q6 as (_ & _ & Q6). apply NoDup_app in Q6 as (_ & _ & Q6).
  apply NoDup_app in Q6 as (Q6 & Q7 & _).
  split_and!; [apply H1|done|done|apply H1| | |].
  - intros n p Hp. pose proof (H7 _ Hp) as Hok. cbn in Hok. split; [done|].
    pose proof (sk_done_ids _ _ _ _ _ H2) as Hd. rewrite Forall_forall in Hd. exact (Hd _ Hok).
  - intros n ex Hp. destruct (H7 _ Hp) as [(w & Hw & ->)|Hr]; [left; by exists w|]. right. split; [done|].
    intros Hin. apply (Q7 n Hin). by apply (list_elem_of_fmap_2 fst _ _ Hr).
  - intros n Hp. exact (H7 _ Hp).
Qed.
End System.

(** ** Concrete inputs *)

Module Ex.
Import Core.Impl.

Definition lim : resource_limits := ResourceLimits 0 1 1000.
Definition text (_ : Z) : list Z := [111; 118; 101; 114].
Definition start : @system Z := system_init lim None true 5 {[ 7 := RpcHandler 0 false false ]}.

(** A call of verb 7 with a timeout, sent, executed and answered. *)
Definition called : @system Z := Eval vm_compute in
  match client_call 100 7 [1; 2; 3] (Some 1600) None true (y_client start) with
  | Some (c, Some id) => log_call (id, 7, [1; 2; 3]) (set_client c [] start) | _ => start end.
Definition sent : @system Z := Eval vm_compute in
  match client_send_loop 200 (y_client called) with
  | Some (c, es) => set_wires (y_up called ++ written_c es) (y_down called) (set_client c [] called) | _ => called end.
Definition arrived : option (request_value * list (list Z)) := Eval vm_compute in
  read_request true None [take 3 (y_up sent); drop 3 (y_up sent)].
Definition accepted : @system Z := Eval vm_compute in
  match arrived with
  | Some (v, i) =>
      match process_request lim 1000000 text 300 v (y_server sent) with
      | Some s => log_refused (refusal lim text (y_server sent) v) (set_wires (concat i) (y_down sent) (set_server s sent)) | None => sent end
  | None => sent end.
Definition admitted : @system Z := Eval vm_compute in
  match admit_request 300 (y_server accepted) with
  | Some (s, es) => log_refused [] (log_executed (executed_s es) (set_server s accepted)) | None => accepted end.
Definition executed : @system Z := Eval vm_compute in
  match handler_done 400 0 (Returned [9]) (y_server admitted) with
  | Some s => log_done (1, Returned [9]) (set_server s admitted) | None => admitted end.
Definition answered : @system Z := Eval vm_compute in
  match server_send_loop 500 (y_server executed) with
  | Some (s, es) => set_wires (y_up executed) (y_down executed ++ written_s es) (set_server s executed) | None => executed end.
Definition told_back : option (response_value * list (list Z)) := Eval vm_compute in read_response None [y_down answered].
Definition finished : @system Z := Eval vm_compute in
  match told_back with
  | Some ((n, Some rb), i) =>
      match process_response (n, Some rb) (y_client answered) with
      | Some (c, es) => set_wires (y_up answered) (concat i) (set_client c (results_of es) answered) | None => answered end
  | _ => answered end.

Abbreviation step := (sys_step (S := Z) (I := list (list Z)) lim 1000000 text None).
Abbreviation run := (sys_run (S := Z) (I := list (list Z)) lim 1000000 text None true 5 {[ 7 := RpcHandler 0 false false ]}).

Lemma called_step : step start called.
Proof.
  destruct (client_call 100 7 [1; 2; 3] (Some 1600) None true (y_client start)) as [[c [id|]]|] eqn:E; try (vm_compute in E; discriminate).
  pose proof (step_call lim 1000000 text None start 100 7 [1; 2; 3] (Some 1600) None true c id E) as H.
  vm_compute in E. injection E as <- <-. apply H; [split; vm_compute; congruence|vm_compute; reflexivity|vm_compute; reflexivity].
Qed.

Lemma sent_step : step called sent.
Proof.
  destruct (client_send_loop 200 (y_client called)) as [[c es]|] eqn:E; [|vm_compute in E; discriminate].
  pose proof (step_client_send lim 1000000 text None called 200 c es E) as H. vm_compute in E. injection E as <- <-. exact H.
Qed.

Lemma accepted_step : step sent accepted.
Proof.
  destruct arrived as [[v i]|] eqn:Ea; [|discriminate].
  destruct (process_request lim 1000000 text 300 v (y_server sent)) as [s|] eqn:E; [|vm_compute in Ea; injection Ea as <- <-; vm_compute in E; discriminate].
  pose proof (step_server_read lim 1000000 text None sent 300 [take 3 (y_up sent); drop 3 (y_up sent)] v i s) as H.
  vm_compute in Ea. injection Ea as <- <-. vm_compute in E. injection E as <-.
  apply H; try (vm_compute; reflexivity). vm_compute. discriminate.
Qed.

Lemma admitted_step : step accepted admitted.
Proof.
  destruct (sv_pending (y_server accepted)) as [p|] eqn:Ep; [|discriminate].
  destruct (admit_request 300 (y_server accepted)) as [[s es]|] eqn:E; [|vm_compute in E; discriminate].
  pose proof (step_admit lim 1000000 text None accepted 300 s es p Ep E) as H.
  vm_compute in Ep. injection Ep as <-. vm_compute in E. injection E as <- <-. exact H.
Qed.

Lemma executed_step : step admitted executed.
Proof.
  destruct (sv_running (y_server admitted) !! 0%nat) as [r|] eqn:Er; [|discriminate].
  destruct (handler_done 400 0 (Returned [9]) (y_server admitted)) as [s|] eqn:E; [|vm_compute in E; discriminate].
  pose proof (step_done lim 1000000 text None admitted 400 0 r (Returned [9]) s Er E) as H.
  vm_compute in Er. injection Er as <-. vm_compute in E. injection E as <-. apply H. vm_compute. reflexivity.
Qed.

Lemma answered_step : step executed answered.
Proof.
  destruct (server_send_loop 500 (y_server executed)) as [[s es]|] eqn:E; [|vm_compute in E; discriminate].
  pose proof (step_server_send lim 1000000 text None executed 500 s es E) as H. vm_compute in E. injection E as <- <-. exact H.
Qed.

Lemma finished_step : step answered finished.
Proof.
  destruct told_back as [[[n [rb|]] i]|] eqn:Ea; try discriminate.
  destruct (process_response (n, Some rb) (y_client answered)) as [[c es]|] eqn:E;
    [|vm_compute in Ea; injection Ea as <- <- <-; vm_compute in E; discriminate].
  pose proof (step_client_read lim 1000000 text None answered [y_down answered] n rb i c es) as H.
  vm_compute in Ea. injection Ea as <- <- <-. vm_compute in E. injection E as <- <-.
  apply H; try (vm_compute; reflexivity). vm_compute. discriminate.
Qed.

Lemma run_finished : run finished.
Proof.
  apply (run_step _ _ _ _ _ _ _ answered), finished_step. apply (run_step _ _ _ _ _ _ _ executed), answered_step.
  apply (run_step _ _ _ _ _ _ _ admitted), executed_step. apply (run_step _ _ _ _ _ _ _ accepted), admitted_step.
  apply (run_step _ _ _ _ _ _ _ sent), accepted_step. apply (run_step _ _ _ _ _ _ _ called), sent_step.
  apply (run_step _ _ _ _ _ _ _ start), called_step. apply run_start.
Qed.
End Ex.

Import Core.Impl.

Lemma rpc_calls_witness :
  y_results Ex.finished = [(1, RValue [9])] /\ (1, Returned [9]) ∈ y_done Ex.finished /\
  exists t args, (1, t, args) ∈ y_executed Ex.finished.
Proof.
  split; [reflexivity|].
  destruct (rpc_calls (S := Z) (I := list (list Z)) Ex.lim 1000000 Ex.text None true
    (fun _ => eq_refl) Logic.I 5 {[ 7 := RpcHandler 0 false false ]} Ex.finished Ex.run_finished) as (_ & _ & _ & _ & H & _).
  apply H. apply elem_of_cons. left. reflexivity.
Defined.
