(* ===== verification/RpcMemory.v ===== *)
(** * The memory that the requests of a server take

    The units of the server's semaphore are with running handlers, with waiting requests or
    free, in every execution. *)

From S2P Require Import Prelude Core RpcWire Rpc RpcSpec.
From stdpp Require Import base numbers option gmap list.

#[local] Open Scope Z_scope.

Section Memory.
Context {TB : TemporaryBuffer} {LE : LeCodec} {S : Type} {SO : SemaphoreOps S} {I : Type} {IN : InputStream I}.
Variable limits : resource_limits.
Variable time_max : Z.
Variable oversized_text : Z -> list Z.
Variable comp : option compressor.
Variable tn : bool.

Lemma filter_keeps {A} (f : A -> bool) l : Forall (fun x => f x = true) l -> List.filter f l = l.
Proof. induction 1 as [|x l Hx _ IH]; [done|]. cbn. by rewrite Hx, IH. Qed.

Lemma sublist_list_filter {A} (f : A -> bool) l : List.filter f l `sublist_of` l.
Proof. induction l as [|x l IH]; [done|]. cbn. destruct (f x); [by apply sublist_skip|by apply sublist_cons]. Qed.

(** The units that the handlers that run and the answers that wait to be sent hold. *)
Definition units (l : list Z) : Z := fold_right Z.add 0 l.
Definition held (s : server S) : Z := units (map r_units (sv_running s)) + units (map e_permit (outgoing_queue (sv_conn s))).

Definition balanced (s : server S) : Prop :=
  sem_units (resources_available s) + held s = max_memory limits /\ 0 <= sem_units (resources_available s) /\
  Forall (fun r => 0 <= r_units r) (sv_running s) /\ Forall (fun e => 0 <= e_permit e) (outgoing_queue (sv_conn s)) /\
  (forall p, sv_pending s = Some p -> 0 <= p_units p).

Lemma units_cons x l : units (x :: l) = x + units l.
Proof. done. Qed.

Lemma units_app l k : units (l ++ k) = units l + units k.
Proof. induction l as [|x l IH]; [done|]. rewrite <- app_comm_cons, !units_cons. lia. Qed.

Lemma units_perm l k : l ≡ₚ k -> units l = units k.
Proof. induction 1; rewrite ?units_cons in *; lia. Qed.

Lemma units_nonneg {A} (f : A -> Z) l : Forall (fun x => 0 <= f x) l -> 0 <= units (map f l).
Proof. induction 1 as [|x l Hx _ IH]; [done|]. cbn [map]. rewrite units_cons. lia. Qed.

(** [u] units that nobody holds are taken out of the semaphore. *)
Definition lends (u : Z) (s : server S) : Prop :=
  sem_units (resources_available s) + held s + u = max_memory limits /\ 0 <= sem_units (resources_available s) /\
  Forall (fun r => 0 <= r_units r) (sv_running s) /\ Forall (fun e => 0 <= e_permit e) (outgoing_queue (sv_conn s)) /\
  (forall p, sv_pending s = Some p -> 0 <= p_units p).

Lemma lends_0 s : lends 0 s <-> balanced s.
Proof. unfold lends, balanced. by rewrite Z.add_0_r. Qed.

Lemma release_lends u v s : lends (u + v) s -> 0 <= u -> lends v (release u s).
Proof.
  intros (H1 & H2 & H3 & H4 & H5) Hu. unfold lends, held, release in *. cbn [set_available resources_available sv_running sv_conn sv_pending]. rewrite sem_units_signal.
  split_and!; try done; lia.
Qed.

Lemma respond_lends now id data timeout permit s s' : lends permit s -> 0 <= permit ->
  respond now id data timeout permit s = Some s' -> balanced s'.
Proof.
  intros Hs Hp. unfold respond. destruct (response_head id data) as [b|]; [|done]. cbn [mbind option_bind].
  destruct (conn_send now b timeout None permit (sv_conn s)) as [k x] eqn:Es. intros [= <-].
  assert (Hk : k = sv_conn s /\ (x = SendReady \/ x = SendClosed) \/
    (exists e, x = SendQueued e) /\ outgoing_queue k = outgoing_queue (sv_conn s) ++ [Entry (next_entry (sv_conn s)) timeout b None permit]).
  { unfold conn_send in Es. destruct (cn_error (sv_conn s)); [injection Es as <- <-; left; auto|].
    destruct timeout as [tp|]; [destruct (tp <=? now)|]; injection Es as <- <-; [left; auto|right; eauto..]. }
  destruct Hk as [[-> Hx]|[[e ->] Hq]].
  - assert (Hr : balanced (release permit (set_sconn (sv_conn s) s))).
    { apply lends_0, (release_lends permit 0); [|done]. rewrite Z.add_0_r. exact Hs. }
    by destruct Hx as [-> | ->].
  - destruct Hs as (H1 & H2 & H3 & H4 & H5). unfold balanced, held in *. cbn [set_sconn sv_conn sv_running resources_available sv_pending].
    rewrite Hq, map_app, units_app. cbn. split_and!; try done; [lia|]. apply Forall_app. split; [done|]. by apply Forall_singleton.
Qed.

Lemma reply_lends now ret id timeout permit s s' : lends permit s -> 0 <= permit ->
  reply now ret id timeout permit s = Some s' -> balanced s'.
Proof.
  intros Hs Hp. assert (Hr : balanced (release permit s)) by (apply lends_0, (release_lends permit 0); [by rewrite Z.add_0_r|done]).
  unfold reply. destruct (cn_error (sv_conn s)); [by intros [= <-]|]. destruct ret as [p|w|]; [..|by intros [= <-]].
  - destruct (marshall 12 p) as [b|]; [|done]. by apply respond_lends.
  - destruct (exception_message w) as [b|]; [|done]. by apply respond_lends.
Qed.

Lemma same_lends u s s' : same_state s s' -> resources_available s' = resources_available s -> lends u s -> lends u s'.
Proof. intros (E1 & E2 & E3) E4 H. unfold lends, held in *. by rewrite E1, E2, E3, E4. Qed.

Lemma get_handler_available type (s s' : server S) h : get_handler type s = Some (h, s') -> resources_available s' = resources_available s.
Proof.
  unfold get_handler. destruct (handlers s !! u32 type) as [h0|]; [|done]. cbn [mbind option_bind].
  destruct (gate_closed h0); [done|]. by intros [= _ <-].
Qed.

Lemma process_balanced now v s s' : balanced s -> sv_pending s = None ->
  process_request limits time_max oversized_text now v s = Some s' -> balanced s'.
Proof.
  intros Hs Hp. destruct v as [[[expire t] id] [rb|]]; cbn [process_request]; [|by intros [= <-]].
  destruct (get_handler t s) as [[h s1]|] eqn:Eg.
  - assert (Hs1 : balanced s1).
    { apply lends_0. eapply same_lends; [by eapply get_handler_same|by eapply get_handler_available|by apply lends_0]. }
    destruct (max_memory limits <? _); [destruct (no_wait h)|].
    + intros [= <-]. exact Hs1.
    + apply reply_lends; [|done]. apply lends_0. exact Hs1.
    + intros [= <-]. destruct Hs1 as (H1 & H2 & H3 & H4 & _). split_and!; try done. intros p [= <-]. cbn. apply wrap_range. lia.
  - intros [= <-]. destruct Hs as (H1 & H2 & H3 & H4 & _). split_and!; try done. by intros p [= <-].
Qed.

Lemma admit_balanced now s s' es : balanced s -> admit_request now s = Some (s', es) -> balanced s'.
Proof.
  intros (H1 & H2 & H3 & H4 & H5). unfold admit_request. destruct (sv_pending s) as [p|] eqn:Ep; [|done]. cbn [mbind option_bind].
  specialize (H5 p eq_refl). pose proof (sem_try_wait_spec (resources_available s) (p_units p)) as Ht.
  destruct (sem_try_wait _ _) as [a|]; [|done]. destruct Ht as [Ht Ha]. cbn [mbind option_bind].
  destruct (p_handler p) as [nw|].
  - intros [= <- _]. unfold balanced, held in *. cbn. rewrite Ha, map_app, units_app. cbn. split_and!; try done; [lia|lia|].
    apply Forall_app. split; [done|]. by apply Forall_singleton.
  - destruct (unknown_verb_message _) as [b|]; [|done]. cbn [mbind option_bind].
    destruct (respond _ _ _ _ _ _) as [s1|] eqn:Er; [|done]. cbn [mbind option_bind]. intros [= <- _].
    eapply respond_lends; [|exact H5|exact Er]. unfold lends, held in *.
    cbn [set_available set_pending resources_available sv_running sv_conn sv_pending]. rewrite Ha. split_and!; try done; lia.
Qed.

Lemma done_balanced now k ret s s' : balanced s -> handler_done now k ret s = Some s' -> balanced s'.
Proof.
  intros (H1 & H2 & H3 & H4 & H5). unfold handler_done. destruct (sv_running s !! k) as [r|] eqn:Er; [|done]. cbn [mbind option_bind].
  assert (Hperm : sv_running s ≡ₚ r :: delete k (sv_running s)) by by apply delete_Permutation.
  pose proof (units_perm _ _ (fmap_Permutation r_units _ _ Hperm)) as Ht. rewrite fmap_cons, units_cons in Ht.
  rewrite Hperm in H3. apply Forall_cons in H3 as [Hr H3].
  assert (Hl : lends (r_units r) (set_running (delete k (sv_running s)) s)).
  { unfold lends, held in *. cbn [set_running resources_available sv_running sv_conn sv_pending]. split_and!; try done.
    change (fmap r_units) with (map r_units) in Ht. lia. }
  destruct (r_no_wait r).
  - intros [= <-]. apply lends_0, release_lends; [by rewrite Z.add_0_r|done].
  - by apply reply_lends.
Qed.

(** An entry leaves the queue and its units come back. *)
Lemma entry_gone_balanced d q s : balanced s -> outgoing_queue (sv_conn s) ≡ₚ d :: q -> forall k,
  outgoing_queue k = q -> balanced (release (e_permit d) (set_sconn k s)).
Proof.
  intros (H1 & H2 & H3 & H4 & H5) Hq k Ek. pose proof (units_perm _ _ (fmap_Permutation e_permit _ _ Hq)) as Ht. rewrite fmap_cons, units_cons in Ht.
  rewrite Hq in H4. apply Forall_cons in H4 as [Hd H4]. apply lends_0, release_lends; [|done]. rewrite Z.add_0_r.
  unfold lends, held in *. cbn [set_sconn resources_available sv_running sv_conn sv_pending]. rewrite Ek. split_and!; try done.
  change (fmap e_permit) with (map e_permit) in Ht. lia.
Qed.

(** The entries of the queue have numbers of their own. *)
Definition numbered (k : conn) : Prop :=
  NoDup (map e_id (outgoing_queue k)) /\ Forall (fun e => (e_id e < next_entry k)%nat) (outgoing_queue k).

Lemma numbered_sub k k' : numbered k -> outgoing_queue k' `sublist_of` outgoing_queue k -> next_entry k' = next_entry k -> numbered k'.
Proof.
  intros [H1 H2] Hs E. split.
  - eapply submseteq_nodup; [|exact H1]. apply (fmap_submseteq e_id), sublist_submseteq, Hs.
  - rewrite E. rewrite Forall_forall in *. intros x Hx. apply H2. eapply elem_of_sublist; eauto.
Qed.

Lemma conn_send_numbered now b timeout cancel permit k : numbered k -> numbered (fst (conn_send now b timeout cancel permit k)).
Proof.
  intros [H1 H2]. unfold conn_send.
  assert (Hq : numbered (Conn (cn_error k) (outgoing_queue k ++ [Entry (next_entry k) timeout b cancel permit]) (Datatypes.S (next_entry k))
    (cn_compressor k) (timeout_negotiated k) (cn_id k) (sent_messages k))).
  { split; cbn [outgoing_queue next_entry].
    - rewrite map_app. apply NoDup_app. split; [done|]. split; [|apply NoDup_singleton]. intros i (e & -> & He)%list_elem_of_fmap Hi.
      apply list_elem_of_singleton in Hi. cbn in Hi. rewrite Forall_forall in H2. specialize (H2 e He). lia.
    - apply Forall_app. split; [|by apply Forall_singleton; cbn; lia]. eapply Forall_impl; [exact H2|]. cbn. lia. }
  destruct (cn_error k); [by split|]. destruct timeout as [tp|]; [destruct (tp <=? now)|]; [by split|exact Hq..].
Qed.

Lemma respond_numbered now id data timeout permit s s' : numbered (sv_conn s) ->
  respond now id data timeout permit s = Some s' -> numbered (sv_conn s').
Proof.
  intros Hs. unfold respond. destruct (response_head id data) as [b|]; [|done]. cbn [mbind option_bind].
  pose proof (conn_send_numbered now b timeout None permit _ Hs) as Hk. destruct (conn_send _ _ _ _ _ _) as [k x].
  intros [= <-]. by destruct x.
Qed.

Lemma reply_numbered now ret id timeout permit s s' : numbered (sv_conn s) ->
  reply now ret id timeout permit s = Some s' -> numbered (sv_conn s').
Proof.
  intros Hs. unfold reply. destruct (cn_error (sv_conn s)); [by intros [= <-]|]. destruct ret as [p|w|]; [..|by intros [= <-]].
  - destruct (marshall 12 p) as [b|]; [|done]. by apply respond_numbered.
  - destruct (exception_message w) as [b|]; [|done]. by apply respond_numbered.
Qed.

Definition sound (s : server S) : Prop := balanced s /\ numbered (sv_conn s).

(** A server that differs in its handlers only. *)
Lemma sound_same s s' : sound s -> same_state s s' -> resources_available s' = resources_available s -> sound s'.
Proof.
  intros [H1 H2] Hs Ha. split; [by apply lends_0; eapply same_lends; [exact Hs|exact Ha|apply lends_0]|].
  by destruct Hs as (-> & _).
Qed.

Lemma get_handler_sound type s s' h : sound s -> get_handler type s = Some (h, s') -> sound s'.
Proof. intros H Hg. eapply sound_same; [exact H|by eapply get_handler_same|by eapply get_handler_available]. Qed.

Lemma process_sound now v s s' : sound s -> sv_pending s = None ->
  process_request limits time_max oversized_text now v s = Some s' -> sound s'.
Proof.
  intros [Hs Hk] Hp E. split; [by eapply process_balanced|]. revert E.
  destruct v as [[[expire t] id] [rb|]]; cbn [process_request]; [|by intros [= <-]].
  destruct (get_handler t s) as [[h s1]|] eqn:Eg; [|by intros [= <-]].
  destruct (get_handler_sound t s s1 h (conj Hs Hk) Eg) as [_ Hk1].
  destruct (max_memory limits <? _); [destruct (no_wait h)|]; [by intros [= <-]| |by intros [= <-]].
  by apply reply_numbered.
Qed.

Lemma admit_sound now s s' es : sound s -> admit_request now s = Some (s', es) -> sound s'.
Proof.
  intros [Hs Hk] E. split; [by eapply admit_balanced|]. revert E. unfold admit_request.
  destruct (sv_pending s) as [p|]; [|done]. cbn [mbind option_bind]. destruct (sem_try_wait _ _) as [a|]; [|done]. cbn [mbind option_bind].
  destruct (p_handler p) as [nw|]; [by intros [= <- _]|].
  destruct (unknown_verb_message _) as [b|]; [|done]. cbn [mbind option_bind].
  destruct (respond _ _ _ _ _ _) as [s1|] eqn:Er; [|done]. cbn [mbind option_bind]. intros [= <- _].
  eapply respond_numbered; [|exact Er]. exact Hk.
Qed.

Lemma pending_timeout_sound s s' : sound s -> pending_timed_out s = Some s' -> sound s'.
Proof.
  intros [(H1 & H2 & H3 & H4 & _) Hk]. unfold pending_timed_out. destruct (sv_pending s) as [p|]; [|done]. cbn [mbind option_bind].
  destruct (p_timeout p); [|done]. cbn [mbind option_bind]. intros [= <-]. destruct (p_handler p); (split; [by split_and!|done]).
Qed.

Lemma done_sound now k ret s s' : sound s -> handler_done now k ret s = Some s' -> sound s'.
Proof.
  intros [Hs Hk] E. split; [by eapply done_balanced|]. revert E. unfold handler_done.
  destruct (sv_running s !! k) as [r|]; [|done]. cbn [mbind option_bind]. destruct (r_no_wait r); [by intros [= <-]|].
  by apply reply_numbered.
Qed.

Lemma server_send_sound now s s' es : sound s -> server_send_loop now s = Some (s', es) -> sound s'.
Proof.
  intros [Hs Hk]. unfold server_send_loop. destruct (send_loop_round false now (sv_conn s)) as [[k w]|] eqn:E; [|done].
  cbn [mbind option_bind]. unfold send_loop_round in E. destruct (cn_error (sv_conn s)); [by injection E as <- <-; intros [= <- _]|].
  destruct (outgoing_queue (sv_conn s)) as [|d q] eqn:Eq; [by injection E as <- <-; intros [= <- _]|]. cbn [mbind option_bind] in E.
  destruct (compress _ _) as [b|]; [|done]. cbn [mbind option_bind] in E. injection E as <- <-. intros [= <- _]. split.
  - by apply (entry_gone_balanced d q); [|rewrite Eq|].
  - apply (numbered_sub (sv_conn s)); [done| |done]. rewrite Eq. by apply sublist_cons.
Qed.

Lemma find_erase e q d : NoDup (map e_id q) -> List.find (fun x => (e_id x =? e)%nat) q = Some d ->
  q ≡ₚ d :: List.filter (fun x => negb (e_id x =? e)%nat) q.
Proof.
  induction q as [|x q IH]; [done|]. cbn [List.find List.filter map]. intros [Hx Hq]%NoDup_cons.
  destruct (Nat.eqb_spec (e_id x) e) as [Ee|Ee]; cbn [negb].
  - intros [= ->]. apply Permutation_cons; [done|]. rewrite filter_keeps; [done|]. apply Forall_forall. intros y Hy.
    destruct (Nat.eqb_spec (e_id y) e) as [Ey|]; [|done]. destruct Hx. rewrite Ee, <- Ey. by apply list_elem_of_fmap_2.
  - intros Hf. rewrite (Permutation_swap x d). apply Permutation_cons; [done|]. by apply IH.
Qed.

Lemma response_timeout_sound e s s' : sound s -> response_timed_out e s = Some s' -> sound s'.
Proof.
  intros [Hs Hk]. unfold response_timed_out. destruct (List.find _ _) as [d|] eqn:Ed; [|done]. cbn [mbind option_bind].
  destruct (e_timer d); [|done]. cbn [mbind option_bind]. intros [= <-]. split.
  - eapply entry_gone_balanced; [exact Hs|by apply find_erase, Ed; apply Hk|done].
  - apply (numbered_sub (sv_conn s)); [done| |done]. apply sublist_list_filter.
Qed.

Lemma release_all_lends q s : Forall (fun e => 0 <= e_permit e) q -> lends (units (map e_permit q)) s ->
  balanced (fold_left (fun s d => release (e_permit d) s) q s).
Proof.
  revert s. induction q as [|d q IH]; intros s Hq Hs; [by apply lends_0|]. apply Forall_cons in Hq as [Hd Hq].
  cbn [fold_left]. apply IH; [done|]. by apply release_lends.
Qed.

Lemma teardown_sound s : sound s -> sound (server_teardown s).
Proof.
  intros [(H1 & H2 & H3 & H4 & H5) Hk]. unfold server_teardown. set (s0 := set_sconn _ s). split.
  - apply release_all_lends; [done|]. unfold lends, held, s0 in *.
    cbn [set_sconn set_queue resources_available sv_running sv_conn sv_pending outgoing_queue map].
    change (units []) with 0. split_and!; try done; lia.
  - assert (E : forall q (x : server S), sv_conn (fold_left (fun s d => release (e_permit d) s) q x) = sv_conn x).
    { induction q as [|d q IH]; intros x; [done|]. cbn [fold_left]. by rewrite IH. }
    rewrite E. split; cbn; [by apply NoDup_nil|done].
Qed.

Lemma sound_init id hs : 0 <= max_memory limits -> sound (y_server (system_init limits comp tn id hs)).
Proof.
  intros H. split; [|split; cbn; [by apply NoDup_nil|done]]. unfold balanced, held. cbn.
  rewrite sem_units_make. split_and!; try done; lia.
Qed.

Lemma sound_step y y' : sound (y_server y) -> sys_step (I := I) limits time_max oversized_text comp y y' -> sound (y_server y').
Proof.
  intros H Hs. destruct Hs; try exact H; cbn [y_server set_server set_wires log_refused log_executed log_done].
  - by eapply process_sound.
  - by eapply admit_sound.
  - by eapply pending_timeout_sound.
  - by eapply done_sound.
  - by eapply server_send_sound.
  - by eapply response_timeout_sound.
  - unfold register_handler in H0. destruct (handlers (y_server y) !! _); [done|]. injection H0 as <-. by eapply sound_same.
  - unfold erase_handler in H0. destruct (handlers (y_server y) !! _); [|done]. cbn [mbind option_bind] in H0.
    destruct (_ && _); [|done]. injection H0 as <-. by eapply sound_same.
  - by apply teardown_sound.
Qed.

(** C20. The memory that requests take: whatever the client sends and however
    handlers, timeouts and ends of connections interleave, the units that the
    handlers that run and the answers that wait hold, and those that the semaphore
    has left, are [max_memory] together; so a server never admits more than
    [max_memory], none is lost, and when nothing runs or waits all of it is there. *)
Theorem rpc_memory_bounded id hs y : 0 <= max_memory limits ->
  sys_run (I := I) limits time_max oversized_text comp tn id hs y ->
  sem_units (resources_available (y_server y)) + held (y_server y) = max_memory limits /\
  0 <= held (y_server y) <= max_memory limits /\
  (sv_running (y_server y) = [] -> outgoing_queue (sv_conn (y_server y)) = [] ->
   sem_units (resources_available (y_server y)) = max_memory limits).
Proof.
  intros Hm Hrun. assert (H : sound (y_server y)) by (induction Hrun; [by apply sound_init|by eapply sound_step]).
  destruct H as [(H1 & H2 & H3 & H4 & _) _]. split_and!; try lia.
  - unfold held. pose proof (units_nonneg r_units (sv_running (y_server y)) H3). pose proof (units_nonneg e_permit _ H4). lia.
  - intros E1 E2. unfold held in H1. rewrite E1, E2 in H1. cbn in H1. lia.
Qed.
End Memory.

Import Core.Impl.

Lemma rpc_memory_bounded_witness :
  sem_units (resources_available (y_server Ex.admitted)) = 997 /\ held (y_server Ex.admitted) = 3 /\
  sem_units (resources_available (y_server Ex.finished)) = 1000.
Proof.
  assert (H := rpc_memory_bounded (S := Z) (I := list (list Z)) Ex.lim 1000000 Ex.text None true 5
    {[ 7 := RpcHandler 0 false false ]} Ex.finished ltac:(vm_compute; discriminate) Ex.run_finished).
  split; [reflexivity|]. split; [reflexivity|]. destruct H as (_ & _ & H). apply H; reflexivity.
Defined.
