(* ===== verification/RpcNegotiation.v ===== *)
(** * The negotiation of an RPC connection

    The frames that the two sides exchange, for any options, and the state that both are in
    afterwards. *)

From S2P Require Import Prelude Core RpcWire RpcWireSpec Rpc RpcSpec.
From stdpp Require Import base numbers option list.

#[local] Open Scope Z_scope.

(** A feature that is there when it is asked for. *)
Definition feature_if (b : bool) (k : Z) (v : list Z) : feature_map := if b then [(k, v)] else [].

Section Negotiation.
Context {LE : LeCodec} {I : Type} {IN : InputStream I}.
Variable o : client_options.
Variable cf : option compressor_factory.
Variable domain : bool.
Variable id : Z.

(** The compressor that the factories of the two sides agree on. *)
Definition agreed_compressor : option compressor :=
  match o_compressor_factory o, cf with
  | Some f, Some g => f_negotiate g (f_supported f) true
  | _, _ => None
  end.
Definition agreed_parent : option Z := if id_valid (stream_parent o) then Some (stream_parent o) else None.

(** What the client's factory makes of the name that the server's factory answers. *)
Definition factories_agree : Prop :=
  forall f g c, o_compressor_factory o = Some f -> cf = Some g -> f_negotiate g (f_supported f) true = Some c ->
    f_negotiate f (c_name c) false = Some c /\ zlen (c_name c) < 2 ^ 30.

Definition asked : feature_map :=
  match o_compressor_factory o with Some f => [(feature_compress, f_supported f)] | None => [] end ++
  feature_if (send_timeout_data o) feature_timeout [] ++
  feature_if (id_valid (stream_parent o)) feature_stream_parent (serialize_connection_id (stream_parent o)) ++
  feature_if (bool_decide (isolation_cookie o <> [])) feature_isolation (isolation_cookie o).

Definition answered_features : feature_map :=
  match agreed_compressor with Some c => [(feature_compress, c_name c)] | None => [] end ++
  feature_if (send_timeout_data o) feature_timeout [] ++
  feature_if domain feature_connection_id (serialize_connection_id id) ++
  feature_if (bool_decide (isolation_cookie o <> [])) feature_isolation (isolation_cookie o).

Lemma serialized_id n : is_uint 64 n -> deserialize_connection_id (serialize_connection_id n) = Some n.
Proof.
  intros [H1 H2]. unfold deserialize_connection_id, serialize_connection_id. rewrite zlen_app, zlen_write_le. cbn -[read_le].
  rewrite read_write_le_small; [done|]. done.
Qed.

Lemma client_asks : client_features o = asked.
Proof.
  unfold client_features, asked, feature_if. rewrite bool_decide_not.
  destruct (o_compressor_factory o), (send_timeout_data o), (id_valid (stream_parent o)), (bool_decide _); reflexivity.
Qed.

Hypothesis Hid : is_uint 64 id.
Hypothesis Hparent : is_uint 64 (stream_parent o).
Hypothesis Hdomain : id_valid (stream_parent o) = true -> domain = true.
Hypothesis Hagree : factories_agree.

Lemma server_answers : server_negotiate cf domain asked (conn_init id) =
  Some (opened agreed_compressor (send_timeout_data o) (conn_init id), answered_features, agreed_parent, false).
Proof.
  unfold asked, server_negotiate, answered_features, agreed_compressor, agreed_parent, feature_if.
  destruct (id_valid (stream_parent o)); [rewrite (Hdomain eq_refl)|];
    destruct (o_compressor_factory o) as [f|], cf as [g|], (send_timeout_data o), (bool_decide _);
    cbn -[deserialize_connection_id serialize_connection_id]; rewrite ?serialized_id by done;
    try (destruct (f_negotiate g (f_supported f) true)); cbn -[deserialize_connection_id serialize_connection_id]; try done;
    destruct domain; done.
Qed.

(** The identity that the client learns. *)
Definition learned_id : Z := if domain then id else invalid_connection_id.

Lemma client_accepts : client_negotiate o (answered_features) (conn_init invalid_connection_id) =
  Some (inl (opened agreed_compressor (send_timeout_data o) (conn_init learned_id))).
Proof.
  unfold answered_features, learned_id, feature_if, agreed_compressor. specialize (Hagree).
  unfold factories_agree in Hagree. destruct (o_compressor_factory o) as [f|] eqn:Ef, cf as [g|] eqn:Eg; rewrite ?Ef;
    try (destruct (f_negotiate g (f_supported f) true) as [c|] eqn:Ec; [destruct (Hagree f g c eq_refl eq_refl Ec) as [Hn _]|]);
    destruct (send_timeout_data o), domain, (bool_decide _); cbn -[deserialize_connection_id serialize_connection_id];
    rewrite ?Ef, ?Hn; cbn -[deserialize_connection_id serialize_connection_id]; rewrite ?serialized_id by done; done.
Qed.

Ltac listed := repeat match goal with
  | |- Sorted.StronglySorted _ [] => apply Sorted.SSorted_nil
  | |- Sorted.StronglySorted _ (_ :: _) => apply Sorted.SSorted_cons
  | |- Forall _ [] => apply Forall_nil_2
  | |- Forall _ (_ :: _) => apply Forall_cons_2
  end.

Lemma asked_ok : features_ok asked.
Proof.
  unfold asked, feature_if, features_ok.
  destruct (o_compressor_factory o), (send_timeout_data o), (id_valid (stream_parent o)), (bool_decide _);
    (split; cbn; listed; done).
Qed.

Lemma answered_ok : features_ok answered_features.
Proof.
  unfold answered_features, feature_if, features_ok.
  destruct agreed_compressor, (send_timeout_data o), domain, (bool_decide _);
    (split; cbn; listed; done).
Qed.

Lemma features_size_app m n : features_size (m ++ n) = features_size m + features_size n.
Proof. induction m as [|[k v] m IH]; [done|]. rewrite <- app_comm_cons, !features_size_cons. lia. Qed.

Lemma feature_if_size b k v : features_size (feature_if b k v) <= 8 + zlen v.
Proof. pose proof (zlen_nonneg v). destruct b; cbn; lia. Qed.

Hypothesis Hcookie : zlen (isolation_cookie o) < 2 ^ 30.
Hypothesis Hsupported : forall f, o_compressor_factory o = Some f -> zlen (f_supported f) < 2 ^ 30.

Lemma asked_size : features_size asked < 2 ^ 32.
Proof.
  unfold asked. rewrite !features_size_app.
  pose proof (feature_if_size (send_timeout_data o) feature_timeout []).
  pose proof (feature_if_size (id_valid (stream_parent o)) feature_stream_parent (serialize_connection_id (stream_parent o))).
  pose proof (feature_if_size (bool_decide (isolation_cookie o <> [])) feature_isolation (isolation_cookie o)).
  unfold serialize_connection_id in *. rewrite zlen_write_le in *. change (zlen []) with 0 in *.
  destruct (o_compressor_factory o) as [f|] eqn:Ef; [specialize (Hsupported f eq_refl)|]; cbn [features_size fold_right snd]; lia.
Qed.

Lemma answered_size : features_size answered_features < 2 ^ 32.
Proof.
  unfold answered_features. rewrite !features_size_app.
  pose proof (feature_if_size (send_timeout_data o) feature_timeout []).
  pose proof (feature_if_size domain feature_connection_id (serialize_connection_id id)).
  pose proof (feature_if_size (bool_decide (isolation_cookie o <> [])) feature_isolation (isolation_cookie o)).
  unfold serialize_connection_id in *. rewrite zlen_write_le in *. change (zlen []) with 0 in *.
  match goal with |- features_size ?m + _ < _ => assert (Hc : features_size m < 8 + 2 ^ 30) end.
  { unfold agreed_compressor. unfold factories_agree in Hagree. destruct (o_compressor_factory o) as [f|] eqn:Ef, cf as [g|] eqn:Eg; try done.
    destruct (f_negotiate g (f_supported f) true) as [c|] eqn:Ec; [|done].
    destruct (Hagree f g c eq_refl eq_refl Ec) as [_ Hn]. cbn [features_size fold_right snd]. lia. }
  lia.
Qed.

(** C29. The negotiation of a connection: the client's frame is read by the server,
    whose answer is read by the client, whatever follows each on the wire; both sides
    then have the same compressor, both send timeouts or neither does, as the client's
    options ask, and the client knows the identity of its connection when the server
    has a streaming domain. *)
Theorem rpc_negotiation_agrees :
  exists hello, client_hello o = Some hello /\ forall (i : I) rest, in_pending i = hello ++ rest ->
  exists i' answer, in_pending i' = rest /\
    server_negotiate_protocol cf domain (conn_init id) i =
      Some (NDone (opened agreed_compressor (send_timeout_data o) (conn_init id)) answer agreed_parent, i') /\
  forall (j : I) rest', in_pending j = answer ++ rest' ->
  exists j', in_pending j' = rest' /\
    client_negotiate_protocol o (cl_conn client_init) j =
      Some (NDone (opened agreed_compressor (send_timeout_data o) (conn_init learned_id)) [] None, j').
Proof.
  unfold client_hello. rewrite client_asks.
  destruct (negotiation_transferred asked asked_ok asked_size) as (hello & -> & Hh). exists hello. split; [done|].
  intros i rest Hi. destruct (Hh i rest Hi) as (i' & Er & Hp).
  destruct (negotiation_transferred (I := I) answered_features answered_ok answered_size) as (answer & Ea & Ha).
  exists i', answer. split; [done|]. split.
  - unfold server_negotiate_protocol. rewrite Er. cbn [mbind option_bind]. rewrite server_answers. cbn [mbind option_bind]. by rewrite Ea.
  - intros j rest' Hj. destruct (Ha j rest' Hj) as (j' & Er' & Hp'). exists j'. split; [done|].
    unfold client_negotiate_protocol. rewrite Er'. cbn [mbind option_bind cl_conn client_init]. by rewrite client_accepts.
Qed.
End Negotiation.

Module Ex.
Import Core.Impl.

(** A factory that offers one compressor, by its name. *)
Definition reverser_factory : compressor_factory :=
  CompressorFactory [82] (fun offered _ => if bool_decide (offered = [82]) then Some RpcWireSpec.Ex.reverser else None).

Definition options : client_options := ClientOptions (Some reverser_factory) true invalid_connection_id [99; 111].
End Ex.

Import Core.Impl.

Lemma rpc_negotiation_agrees_witness :
  agreed_compressor Ex.options (Some Ex.reverser_factory) = Some RpcWireSpec.Ex.reverser /\
  exists hello, client_hello Ex.options = Some hello /\ exists i' answer, in_pending i' = [] /\
    server_negotiate_protocol (Some Ex.reverser_factory) true (conn_init 65536) [take 9 hello; drop 9 hello] =
      Some (NDone (opened (Some RpcWireSpec.Ex.reverser) true (conn_init 65536)) answer None, i') /\
    exists j', client_negotiate_protocol Ex.options (cl_conn client_init) [answer] =
      Some (NDone (opened (Some RpcWireSpec.Ex.reverser) true (conn_init 65536)) [] None, j').
Proof.
  split; [reflexivity|].
  destruct (rpc_negotiation_agrees (I := list (list Z)) Ex.options (Some Ex.reverser_factory) true 65536) as (hello & E & H).
  - split; vm_compute; congruence.
  - split; vm_compute; congruence.
  - reflexivity.
  - intros f g c [= <-] [= <-] [= <-]. split; reflexivity.
  - reflexivity.
  - intros f [= <-]. reflexivity.
  - exists hello. split; [exact E|]. destruct (H [take 9 hello; drop 9 hello] []) as (i' & answer & Hp & Hs & Hc).
    + vm_compute in E. injection E as <-. reflexivity.
    + exists i', answer. split; [exact Hp|]. split; [exact Hs|].
      destruct (Hc [answer] []) as (j' & _ & Hj); [cbn; by rewrite !app_nil_r|]. exists j'. exact Hj.
Defined.
