(* ===== verification/RpcStream.v ===== *)
(** * Streams over an RPC connection: src/rpc/rpc.cc, include/nil/actor/rpc/rpc_impl.hh, rpc.hh

    One end of a stream: its connection, the [sink_impl] that sends and the
    [source_impl] that receives.  A sink and a source may live on another shard than
    the connection: what they submit to it, and what it answers, are lists in the
    order of the submissions.  A future that is not ready is a step that is not
    enabled. *)

From S2P Require Import Prelude Core RpcWire Rpc.
From stdpp Require Import base numbers option list.

#[local] Open Scope Z_scope.

Definition max_queued_stream_buffers : Z := 50.
Definition max_stream_buffers_memory : Z := 100 * 1024.

(** A received buffer with the units of the semaphore that it holds. *)
Abbreviation held_buf := (rcv_buf * Z)%type.

(** A frame that has been read: it waits for units, or for room in the queue. *)
Inductive incoming := WaitUnits (b : rcv_buf) | WaitRoom (b : held_buf).

(** The units that a buffer of a size takes. *)
Definition stream_units (size : Z) : Z := Z.min size max_stream_buffers_memory.

(** [rcv_buf(-1U)]: the end of the stream. *)
Definition end_marker : rcv_buf := RcvBuf (u32 (-1)) (Many []).
Definition is_end (b : rcv_buf) : bool := r_size b =? u32 (-1).

Section Stream.
Context {TB : TemporaryBuffer} {LE : LeCodec} {S : Type} {SO : SemaphoreOps S} {Q : Type} {QO : QueueOps Q held_buf}.

(** The connection: [sink_closed] to [stream_incoming]; the sink: its semaphore, its
    first error, the messages on their way to the connection with their units, and
    the answers on their way back; the close in progress, by its entry; the source:
    the buffers taken from the connection. *)
Record endpoint := Endpoint {
  st_conn : conn; sink_closed : bool; source_closed : bool;
  stream_queue : Q; stream_aborted : bool; stream_sem : S; stream_incoming : option incoming;
  sink_sem : S; sink_ex : bool; submitted : list (snd_buf * Z); sink_answers : list (Z * bool); closing : option nat;
  source_bufs : list held_buf }.

Definition endpoint_init (k : conn) : endpoint :=
  Endpoint k false false (q_make max_queued_stream_buffers) false (sem_make max_stream_buffers_memory) None
    (sem_make max_stream_buffers_memory) false [] [] None [].

Definition set_stconn (k : conn) (e : endpoint) : endpoint :=
  Endpoint k (sink_closed e) (source_closed e) (stream_queue e) (stream_aborted e) (stream_sem e) (stream_incoming e)
    (sink_sem e) (sink_ex e) (submitted e) (sink_answers e) (closing e) (source_bufs e).
Definition set_closed (sink source : bool) (e : endpoint) : endpoint :=
  Endpoint (st_conn e) sink source (stream_queue e) (stream_aborted e) (stream_sem e) (stream_incoming e)
    (sink_sem e) (sink_ex e) (submitted e) (sink_answers e) (closing e) (source_bufs e).
Definition set_received (q : Q) (ab : bool) (a : S) (inc : option incoming) (bufs : list held_buf) (e : endpoint) : endpoint :=
  Endpoint (st_conn e) (sink_closed e) (source_closed e) q ab a inc
    (sink_sem e) (sink_ex e) (submitted e) (sink_answers e) (closing e) bufs.
Definition set_sink (a : S) (ex : bool) (sub : list (snd_buf * Z)) (ans : list (Z * bool)) (cl : option nat) (e : endpoint) : endpoint :=
  Endpoint (st_conn e) (sink_closed e) (source_closed e) (stream_queue e) (stream_aborted e) (stream_sem e) (stream_incoming e)
    a ex sub ans cl (source_bufs e).

(** [stream_close()]: the output is closed, and [stop()] marks the connection. *)
Definition stream_close (e : endpoint) : endpoint := set_stconn (set_error (st_conn e)) e.

(** [close_sink()], [close_source()] *)
Definition close_sink (e : endpoint) : endpoint :=
  let e := set_closed true (source_closed e) e in if source_closed e then stream_close e else e.
Definition close_source (e : endpoint) : endpoint :=
  let e := set_closed (sink_closed e) true e in if sink_closed e then stream_close e else e.

(** ** The sink *)

(** [sink_impl::operator()(args)], once the units are there; whether it succeeds. *)
Definition sink_put (args : list Z) (e : endpoint) : option (endpoint * bool) :=
  data ← stream_message args;
  let size := stream_units (s_size data) in
  a ← sem_try_wait (sink_sem e) size;
  Some (if sink_ex e then (e, false)
        else (set_sink a (sink_ex e) (submitted e ++ [(data, size)]) (sink_answers e) (closing e) e, true)).

(** What was submitted runs on the shard of the connection. *)
Definition sink_arrive (now : Z) (e : endpoint) : option endpoint :=
  match submitted e with
  | [] => None
  | (data, size) :: l =>
      let fail := set_sink (sink_sem e) (sink_ex e) l (sink_answers e ++ [(size, true)]) (closing e) e in
      Some (if cn_error (st_conn e) then fail
            else if sink_closed e then fail
            else let '(k, r) := conn_send now data None None size (st_conn e) in
                 match r with
                 | SendQueued _ => set_stconn k (set_sink (sink_sem e) (sink_ex e) l (sink_answers e) (closing e) e)
                 | SendReady => set_sink (sink_sem e) (sink_ex e) l (sink_answers e ++ [(size, false)]) (closing e) e
                 | SendClosed => fail
                 end)
  end.

(** The answer is back: the units are returned, the first error is kept. *)
Definition sink_answered (e : endpoint) : option endpoint :=
  match sink_answers e with
  | [] => None
  | (size, failed) :: l =>
      Some (set_sink (sem_signal (sink_sem e) size) (sink_ex e || failed) (submitted e) l (closing e) e)
  end.

(** [sink_impl::flush()] *)
Definition sink_flush (e : endpoint) : option bool :=
  _ ← sem_try_wait (sink_sem e) max_stream_buffers_memory; Some (negb (sink_ex e)).

(** [sink_impl::close()], once it holds all units; whether the end was sent. *)
Definition sink_close (now : Z) (e : endpoint) : option (endpoint * bool) :=
  a ← sem_try_wait (sink_sem e) max_stream_buffers_memory;
  if sink_closed e then Some (e, false)
  else if cn_error (st_conn e) || sink_ex e then Some (close_sink e, false)
  else
    data ← stream_end;
    let '(k, r) := conn_send now data None None max_stream_buffers_memory (st_conn e) in
    match r with
    | SendQueued n => Some (set_stconn k (set_sink a (sink_ex e) (submitted e) (sink_answers e) (Some n) e), true)
    | _ => Some (close_sink (set_stconn k e), false)
    end.

(** The future of the entry [d] resolves. *)
Definition entry_gone (d : entry) (e : endpoint) : endpoint :=
  let ends := match closing e with Some n => (n =? e_id d)%nat | None => false end in
  let e := set_sink (sink_sem e) (sink_ex e) (submitted e) (sink_answers e ++ [(e_permit d, false)])
             (if ends then None else closing e) e in
  if ends then close_sink e else e.

(** A round of the send loop. *)
Definition stream_send_loop (now : Z) (e : endpoint) : option (endpoint * list Z) :=
  '(k, w) ← send_loop_round false now (st_conn e);
  Some (match w with
        | Some (d, bs) => (entry_gone d (set_stconn k e), bs)
        | None => (set_stconn k e, [])
        end).

(** ** Receiving *)

(** [handle_stream_frame()]; no frame waits while another is read. *)
Definition handle_stream_frame (v : option rcv_buf) (e : endpoint) : endpoint :=
  match v with
  | None => set_stconn (set_error (st_conn e)) e
  | Some b => set_received (stream_queue e) (stream_aborted e) (stream_sem e) (Some (WaitUnits b)) (source_bufs e) e
  end.

(** [stream_process_incoming(buf)]: the units, then [push_eventually]. *)
Definition incoming_units (e : endpoint) : option endpoint :=
  match stream_incoming e with
  | Some (WaitUnits b) =>
      a ← sem_try_wait (stream_sem e) (stream_units (r_size b));
      Some (set_received (stream_queue e) (stream_aborted e) a (Some (WaitRoom (b, stream_units (r_size b)))) (source_bufs e) e)
  | _ => None
  end.
Definition incoming_push (e : endpoint) : option endpoint :=
  match stream_incoming e with
  | Some (WaitRoom b) =>
      if stream_aborted e then
        Some (set_stconn (set_error (st_conn e)) (set_received (stream_queue e) true (sem_signal (stream_sem e) (snd b)) None (source_bufs e) e))
      else q ← q_push b (stream_queue e); Some (set_received q (stream_aborted e) (stream_sem e) None (source_bufs e) e)
  | _ => None
  end.

(** [queue::consume] with the function of [stream_receive]: the buffers before the end
    of the stream, and the end itself when it was met. *)
Fixpoint consume (fuel : nat) (q : Q) (bufs : list held_buf) : Q * list held_buf * option held_buf :=
  match fuel with
  | O => (q, bufs, None)
  | Datatypes.S fuel =>
      match q_pop q with
      | None => (q, bufs, None)
      | Some (b, q) => if is_end (fst b) then (q, bufs, Some b) else consume fuel q (bufs ++ [b])
      end
  end.

(** [stream_receive(bufs)] once the queue is not empty; [None] is the assertion. *)
Definition stream_receive (e : endpoint) : option endpoint :=
  let '(q, bufs, eof) := consume (length (q_items (stream_queue e))) (stream_queue e) [] in
  match eof with
  | None => Some (set_received q (stream_aborted e) (stream_sem e) (stream_incoming e) bufs e)
  | Some b =>
      let a := sem_signal (stream_sem e) (snd b) in
      if bool_decide (bufs = []) then Some (set_received q (stream_aborted e) a (stream_incoming e) [] e)
      else if bool_decide (q_items q = []) then
        let q := default q (q_push (end_marker, 0) q) in Some (set_received q (stream_aborted e) a (stream_incoming e) bufs e)
      else None
  end.

(** What [source_impl::operator()] gives. *)
Inductive source_result := SItem (bs : list Z) | SEof | SClosed | SStopped.

Definition process_one_buffer (e : endpoint) : option (endpoint * source_result) :=
  match source_bufs e with
  | [] => None
  | b :: l => Some (set_received (stream_queue e) (stream_aborted e) (sem_signal (stream_sem e) (snd b)) (stream_incoming e) l e,
                    SItem (flat (r_bufs (fst b))))
  end.

(** [source_impl::operator()()]; [None]: the queue is empty. *)
Definition source_next (e : endpoint) : option (endpoint * source_result) :=
  match source_bufs e with
  | _ :: _ => process_one_buffer e
  | [] =>
      if source_closed e then Some (e, SClosed)
      else if stream_aborted e then Some (close_source e, SClosed)
      else if bool_decide (q_items (stream_queue e) = []) then None
      else match stream_receive e with
           | None => Some (e, SStopped)
           | Some e => match source_bufs e with
                       | [] => Some (close_source e, SEof)
                       | _ :: _ => process_one_buffer e
                       end
           end
  end.

(** [_outgoing_queue.clear()] *)
Fixpoint drop_entries (q : list entry) (e : endpoint) : endpoint :=
  match q with
  | [] => e
  | d :: q => drop_entries q (entry_gone d (set_stconn (set_queue q (st_conn e)) e))
  end.

(** The end of the loop of the connection: the queue is aborted, what was not sent is
    dropped. *)
Definition stream_teardown (e : endpoint) : endpoint :=
  let e := set_received (q_abort (stream_queue e)) true
             (fold_left (fun a b => sem_signal a (snd b)) (q_items (stream_queue e)) (stream_sem e)) (stream_incoming e) (source_bufs e)
             (set_stconn (set_error (st_conn e)) e) in
  drop_entries (outgoing_queue (st_conn e)) e.
End Stream.
#[global] Arguments endpoint : clear implicits.
