(* ===== verification/RpcStreamSpec.v ===== *)
(** * Streams deliver what is put into them

    Two endpoints of RpcStream.v and the connection between them as a step relation; the
    specification is a list: what a source gives is a prefix of what was put into its sink. *)

From S2P Require Import Prelude Core RpcWire RpcWireSpec Rpc RpcSpec RpcMemory RpcStream.
From stdpp Require Import base numbers option list.

#[local] Open Scope Z_scope.

(** What a stream carries. *)
Inductive item := Data (bs : list Z) | End.

Definition item_of (b : rcv_buf) : item := if is_end b then End else Data (flat (r_bufs b)).

Section Wire.
Context {TB : TemporaryBuffer} {LE : LeCodec} {I : Type} {IN : InputStream I}.
Variable comp : option compressor.
Hypothesis Hcomp : comp_ok comp.

(** A frame that is read as an item, and a message that is sent as one. *)
Definition is_item (it : item) (v : option rcv_buf) : Prop := exists rb, v = Some rb /\ item_of rb = it.
Definition item_bytes (it : item) (bs : list Z) : Prop := bs <> [] /\ reads_as (I := I) (read_stream comp) bs (is_item it).
Definition sends_item (b : snd_buf) (it : item) : Prop := exists bs, sent_as comp b bs /\ item_bytes it bs.

Lemma item_bytes_nonempty it bs : reads_as (I := I) (read_stream comp) bs (is_item it) -> bs <> [].
Proof.
  intros Hr ->. destruct (Hr (in_of_chunks []) []) as (v & i' & Er & (rb & -> & _) & _); [by rewrite in_pending_chunks|].
  destruct (read_empty stream_frame comp (in_of_chunks [] : I)) as [i2 E2]; [done|by rewrite in_pending_chunks|].
  unfold read_stream in Er. rewrite E2 in Er. discriminate.
Qed.

Lemma stream_message_sent args : zlen args + 4 < max_message comp -> zlen args < 2 ^ 32 - 1 ->
  exists b, stream_message args = Some b /\ sends_item b (Data args) /\ s_size b = 4 + zlen args.
Proof.
  intros Hz Hn. pose proof (zlen_nonneg args). pose proof (max_message_le comp). unfold stream_message.
  destruct (marshall_message 4 args) as (b & f & r & hd & -> & Hm & Hf & Hh & H4); [done|lia|]. cbn [mbind option_bind].
  assert (Es : s_size b = 4 + zlen args) by (destruct Hm as [-> _]; rewrite Hf, zlen_app; lia).
  rewrite Es. replace (4 + zlen args - 4) with (zlen args) by lia. rewrite wrap_small by lia.
  destruct (write_field b f r [] hd args (write_le 4 (zlen args)) Hm Hf) as (b1 & f1 & W1 & Hm1 & Hf1 & _);
    [rewrite zlen_write_le; lia|rewrite zlen_nil; lia|]. rewrite zlen_nil in W1. rewrite W1. exists b1.
  assert (Hd : decode_header stream_frame (write_le 4 (zlen args)) = (zlen args, false)).
  { cbn [decode_header stream_frame]. rewrite <- (app_nil_r (write_le 4 _)), read_write_le_small by (change (2 ^ (8 * Z.of_nat 4)) with (2 ^ 32); lia).
    change (u32 (-1)) with (2 ^ 32 - 1). destruct (Z.eqb_spec (zlen args) (2 ^ 32 - 1)); [lia|done]. }
  destruct (compressed_frame (I := I) stream_frame comp b1 f1 r (write_le 4 (zlen args)) args Hcomp Hm1) as (bs & Hs & Hr).
  - exact Hf1.
  - done.
  - by rewrite zlen_write_le.
  - by rewrite Hd.
  - rewrite zlen_app, zlen_write_le. lia.
  - split; [done|]. split.
    + exists bs. split; [done|]. assert (Hra : reads_as (I := I) (read_stream comp) bs (is_item (Data args))).
      { intros i rest E. destruct (Hr i rest E) as (v & i' & Er & (rb & F1 & F2 & ->) & E'). eexists _, i'. split_and!; [done| |done].
        rewrite Hd. exists rb. split; [done|]. unfold item_of, is_end. rewrite F2. change (u32 (-1)) with (2 ^ 32 - 1).
        destruct (Z.eqb_spec (zlen args) (2 ^ 32 - 1)); [lia|by rewrite F1]. }
      split; [by eapply item_bytes_nonempty|done].
    + destruct Hm1 as [-> _]. rewrite Hf1. cbn [app]. rewrite zlen_app, zlen_write_le. lia.
Qed.

Lemma stream_end_sent : 4 < max_message comp -> exists b, stream_end = Some b /\ sends_item b End.
Proof.
  intros Hz. unfold stream_end.
  destruct (marshall_message 4 []) as (b & f & r & hd & -> & Hm & Hf & Hh & H4); [done|done|]. cbn [mbind option_bind].
  destruct (write_field b f r [] hd [] (write_le 4 (u32 (-1))) Hm Hf) as (b1 & f1 & W1 & Hm1 & Hf1 & _);
    [rewrite zlen_write_le; lia|rewrite zlen_nil; lia|]. rewrite zlen_nil in W1. rewrite W1. exists b1. split; [done|].
  assert (Hd : decode_header stream_frame (write_le 4 (u32 (-1))) = (0, true)).
  { cbn [decode_header stream_frame]. rewrite <- (app_nil_r (write_le 4 _)), read_write_le_small; [done|].
    change (2 ^ (8 * Z.of_nat 4)) with (2 ^ 32). apply wrap_range. lia. }
  destruct (compressed_frame (I := I) stream_frame comp b1 f1 r (write_le 4 (u32 (-1))) [] Hcomp Hm1) as (bs & Hs & Hr).
  - exact Hf1.
  - done.
  - by rewrite zlen_write_le.
  - by rewrite Hd.
  - rewrite zlen_app, zlen_write_le. change (zlen []) with 0. lia.
  - exists bs. split; [done|]. assert (Hra : reads_as (I := I) (read_stream comp) bs (is_item End)).
    { intros i rest E. destruct (Hr i rest E) as (v & i' & Er & (rb & F1 & F2 & ->) & E'). eexists _, i'. split_and!; [done| |done].
      rewrite Hd. by eexists. }
    split; [by eapply item_bytes_nonempty|done].
Qed.
End Wire.

(** ** The sending end *)

Section Ends.
Context {TB : TemporaryBuffer} {LE : LeCodec} {I : Type} {IN : InputStream I}
  {S : Type} {SO : SemaphoreOps S} {Q : Type} {QO : QueueOps Q held_buf}.
Variable comp : option compressor.
Hypothesis Hcomp : comp_ok comp.

Definition log_of (puts : list (list Z)) (ended : bool) : list item := map Data puts ++ (if ended then [End] else []).

(** The units of the sink that are out. *)
Definition sink_held (e : endpoint S Q) : Z :=
  units (map snd (submitted e)) + units (map e_permit (outgoing_queue (st_conn e))) + units (map fst (sink_answers e)).

(** Only the end of the stream is in the queue, and holds all units. *)
Definition only_end (e : endpoint S Q) : Prop :=
  exists d, outgoing_queue (st_conn e) = [d] /\ e_permit d = max_stream_buffers_memory /\ closing e = Some (e_id d).

(** [down]: what has been written. *)
Record sender (puts : list (list Z)) (ended : bool) (down : list item) (e : endpoint S Q) : Prop := {
  sn_comp : cn_compressor (st_conn e) = comp;
  sn_units : sem_units (sink_sem e) + sink_held e = max_stream_buffers_memory;
  sn_available : 0 <= sem_units (sink_sem e);
  sn_submitted : Forall (fun p => 0 < snd p) (submitted e);
  sn_queue : Forall (fun d => 0 < e_permit d) (outgoing_queue (st_conn e));
  sn_answers : Forall (fun p => 0 < fst p) (sink_answers e);
  sn_ended : ended = true -> sink_closed e = true \/ only_end e;
  sn_closing : is_Some (closing e) -> ended = true;
  sn_items : exists oq sb,
    Forall2 (fun d it => sends_item (I := I) comp (e_buf d) it) (outgoing_queue (st_conn e)) oq /\
    Forall2 (fun p it => sends_item (I := I) comp (fst p) it) (submitted e) sb /\
    (if cn_error (st_conn e) then down `prefix_of` log_of puts ended
     else if sink_closed e then down ++ oq = log_of puts ended else down ++ oq ++ sb = log_of puts ended) }.

Lemma units_pos {A} (f : A -> Z) l : Forall (fun x => 0 < f x) l -> 0 <= units (map f l) /\ (units (map f l) <= 0 -> l = []).
Proof.
  intros H. assert (Hn : forall l, Forall (fun x => 0 < f x) l -> 0 <= units (map f l)).
  { clear. intros l Hl. apply (units_nonneg f). eapply Forall_impl; [exact Hl|]. cbn. lia. }
  split; [by apply Hn|]. destruct H as [|x l Hx Hl]; [done|]. cbn [map]. rewrite units_cons. specialize (Hn l Hl). lia.
Qed.

(** When all units are there, nothing is on its way. *)
Lemma all_units puts ended down e : sender puts ended down e -> max_stream_buffers_memory <= sem_units (sink_sem e) ->
  submitted e = [] /\ outgoing_queue (st_conn e) = [].
Proof.
  intros [_ Hu _ H1 H2 H3 _ _ _] Hs. unfold sink_held in Hu.
  destruct (units_pos _ _ H1) as [P1 Q1], (units_pos _ _ H2) as [P2 Q2], (units_pos _ _ H3) as [P3 Q3]. split; [apply Q1|apply Q2]; lia.
Qed.

Lemma only_end_units puts ended down e : sender puts ended down e -> only_end e ->
  sem_units (sink_sem e) = 0 /\ submitted e = [].
Proof.
  intros [_ Hu Ha H1 H2 H3 _ _ _] (d & Eq & Ed & _). unfold sink_held in Hu. rewrite Eq in Hu. cbn [map] in Hu.
  rewrite units_cons, Ed in Hu. change (units []) with 0 in Hu.
  destruct (units_pos _ _ H1) as [P1 Q1], (units_pos _ _ H3) as [P3 Q3]. split; [lia|]. apply Q1. lia.
Qed.

(** An endpoint that differs in what it receives, or is marked. *)
Lemma sender_same puts ended down e e' : sender puts ended down e ->
  outgoing_queue (st_conn e') = outgoing_queue (st_conn e) -> cn_compressor (st_conn e') = cn_compressor (st_conn e) ->
  (cn_error (st_conn e) = true -> cn_error (st_conn e') = true) -> sink_closed e' = sink_closed e -> sink_sem e' = sink_sem e ->
  submitted e' = submitted e -> sink_answers e' = sink_answers e -> closing e' = closing e -> sender puts ended down e'.
Proof.
  intros [H1 H2 H3 H4 H5 H6 H7 H8 (oq & sb & H9 & H10 & H11)] E1 E2 E3 E4 E5 E6 E7 E8.
  constructor; unfold sink_held, only_end in *; rewrite ?E1, ?E2, ?E4, ?E5, ?E6, ?E7, ?E8; try done.
  exists oq, sb. split_and!; [done|done|]. destruct (cn_error (st_conn e)); [by rewrite E3|].
  assert (Hp : down `prefix_of` log_of puts ended) by (destruct (sink_closed e); rewrite <- H11; by eexists).
  by destruct (cn_error (st_conn e')).
Qed.

Lemma log_of_put puts args : log_of puts false ++ [Data args] = log_of (puts ++ [args]) false.
Proof. unfold log_of. by rewrite !app_nil_r, map_app. Qed.

Lemma prefix_log_put puts ended args down : ended = false -> down `prefix_of` log_of puts ended -> down `prefix_of` log_of (puts ++ [args]) ended.
Proof. intros -> H. rewrite <- log_of_put. by apply prefix_app_r. Qed.

Lemma put_sender puts ended down args e e' : sender puts ended down e -> zlen args + 4 < max_message comp -> zlen args < 2 ^ 32 - 1 ->
  sink_put args e = Some (e', true) ->
  if sink_closed e then sender puts ended down e' else ended = false /\ sender (puts ++ [args]) ended down e'.
Proof.
  intros Hs Hz Hn. destruct (stream_message_sent (I := I) comp Hcomp args Hz Hn) as (b & Eb & Hb & Esz).
  unfold sink_put. rewrite Eb. cbn [mbind option_bind]. rewrite Esz. pose proof (zlen_nonneg args).
  pose proof (sem_try_wait_spec (sink_sem e) (stream_units (4 + zlen args))) as Ht.
  destruct (sem_try_wait _ _) as [a|]; [|done]. destruct Ht as [Ht Ha]. cbn [mbind option_bind].
  destruct (sink_ex e); [done|]. intros [= <-].
  assert (Hu : 0 < stream_units (4 + zlen args)) by (unfold stream_units, max_stream_buffers_memory; lia).
  assert (He : ended = true -> sink_closed e = true).
  { intros E. destruct (sn_ended _ _ _ _ Hs E) as [|Ho]; [done|]. destruct (only_end_units _ _ _ _ Hs Ho) as [H0 _]. lia. }
  destruct Hs as [H1 H2 H3 H4 H5 H6 H7 H8 (oq & sb & H9 & H10 & H11)].
  assert (Hall : forall puts', (if cn_error (st_conn e) then down `prefix_of` log_of puts' ended
      else if sink_closed e then down ++ oq = log_of puts' ended else down ++ oq ++ (sb ++ [Data args]) = log_of puts' ended) ->
    sender puts' ended down (set_sink a false (submitted e ++ [(b, stream_units (4 + zlen args))]) (sink_answers e) (closing e) e)).
  { intros puts' Hl. constructor; cbn [set_sink st_conn sink_closed sink_sem submitted sink_answers closing]; try done.
    - unfold sink_held in *. cbn [set_sink st_conn submitted sink_answers]. rewrite map_app, units_app. cbn [map snd].
      rewrite units_cons. change (units []) with 0. lia.
    - lia.
    - apply Forall_app. split; [done|]. by apply Forall_singleton.
    - exists oq, (sb ++ [Data args]). split_and!; [done| |done]. apply Forall2_app; [done|]. by constructor. }
  destruct (sink_closed e) eqn:Ec.
  - apply Hall. by destruct (cn_error (st_conn e)).
  - assert (ended = false) as -> by (destruct ended; [by specialize (He eq_refl)|done]). split; [done|]. apply Hall.
    destruct (cn_error (st_conn e)); [by apply prefix_log_put|]. by rewrite <- log_of_put, <- H11, <- !app_assoc.
Qed.

(** An answer goes back for units that leave the front. *)
Lemma close_sink_sender puts ended down e : sender puts ended down e -> submitted e = [] -> sender puts ended down (close_sink e).
Proof.
  intros [H1 H2 H3 H4 H5 H6 H7 H8 (oq & sb & H9 & H10 & H11)] Es.
  assert (Hsb : sb = []) by (rewrite Es in H10; by inversion H10). subst sb. rewrite app_nil_r in H11.
  assert (Hk : sender puts ended down (set_closed true (source_closed e) e)).
  { constructor; try done; [by left|]. exists oq, []. split_and!; [done|done|]. cbn. destruct (cn_error (st_conn e)); [done|].
    by destruct (sink_closed e). }
  unfold close_sink. destruct (source_closed e) eqn:E; rewrite ?E in Hk; cbn zeta; [|done]. by eapply sender_same.
Qed.

Lemma sink_arrive_sender now puts ended down e e' : sender puts ended down e -> sink_arrive now e = Some e' -> sender puts ended down e'.
Proof.
  intros Hs. unfold sink_arrive. destruct (submitted e) as [|[b n] l] eqn:El; [done|].
  assert (Hne : ~ only_end e) by (intros Ho; destruct (only_end_units _ _ _ _ Hs Ho) as [_ H0]; congruence).
  destruct Hs as [H1 H2 H3 H4 H5 H6 H7 H8 (oq & sb & H9 & H10 & H11)]. rewrite El in *.
  apply Forall_cons in H4 as [Hn H4]. cbn in Hn. apply Forall2_cons_inv_l in H10 as (it & sb' & Hb & H10 & ->). cbn in Hb.
  unfold sink_held in H2. rewrite El in H2. cbn [map snd] in H2. rewrite units_cons in H2.
  assert (Hfail : cn_error (st_conn e) = true \/ sink_closed e = true ->
    sender puts ended down (set_sink (sink_sem e) (sink_ex e) l (sink_answers e ++ [(n, true)]) (closing e) e)).
  { intros Hor. constructor; cbn [set_sink st_conn sink_closed sink_sem submitted sink_answers closing]; try done.
    - unfold sink_held. cbn [set_sink st_conn submitted sink_answers]. rewrite map_app, units_app. cbn [map fst].
      rewrite units_cons. change (units []) with 0. lia.
    - apply Forall_app. split; [done|]. by apply Forall_singleton.
    - exists oq, sb'. split_and!; [done|done|]. destruct (cn_error (st_conn e)); [done|]. destruct Hor as [Hor|Hor]; [done|]. by rewrite Hor in *. }
  destruct (cn_error (st_conn e)) eqn:Ee; [by intros [= <-]; apply Hfail; left|].
  destruct (sink_closed e) eqn:Ec; [by intros [= <-]; apply Hfail; right|].
  unfold conn_send. rewrite Ee. cbn match. intros [= <-].
  constructor; cbn [set_sink set_stconn st_conn sink_closed sink_sem submitted sink_answers closing cn_compressor cn_error outgoing_queue]; try done.
  - unfold sink_held. cbn [set_sink set_stconn st_conn submitted sink_answers outgoing_queue]. rewrite map_app, units_app. cbn [map e_permit].
    rewrite units_cons. change (units []) with 0. lia.
  - apply Forall_app. split; [done|]. by apply Forall_singleton.
  - intros E. destruct (H7 E) as [|Ho]; [congruence|done].
  - exists (oq ++ [it]), sb'. split_and!; [apply Forall2_app; [done|by constructor]|done|]. rewrite Ec. by rewrite <- app_assoc.
Qed.

Lemma sink_answered_sender puts ended down e e' : sender puts ended down e -> sink_answered e = Some e' -> sender puts ended down e'.
Proof.
  intros Hs. unfold sink_answered. destruct (sink_answers e) as [|[n f] l] eqn:El; [done|]. intros [= <-].
  destruct Hs as [H1 H2 H3 H4 H5 H6 H7 H8 H9]. rewrite El in H6. apply Forall_cons in H6 as [Hn H6]. cbn in Hn.
  unfold sink_held in H2. rewrite El in H2. cbn [map fst] in H2. rewrite units_cons in H2.
  constructor; cbn [set_sink st_conn sink_closed sink_sem submitted sink_answers closing]; rewrite ?sem_units_signal; try done.
  - unfold sink_held. cbn [set_sink st_conn submitted sink_answers]. lia.
  - lia.
Qed.

Lemma sink_close_sender now puts ended down e e' ok : 4 < max_message comp -> sender puts ended down e ->
  sink_close now e = Some (e', ok) ->
  if ok then ended = false /\ sender puts true down e' else sender puts ended down e'.
Proof.
  intros Hz Hs. unfold sink_close. pose proof (sem_try_wait_spec (sink_sem e) max_stream_buffers_memory) as Ht.
  destruct (sem_try_wait _ _) as [a|]; [|done]. destruct Ht as [Ht Ha]. cbn [mbind option_bind].
  destruct (all_units _ _ _ _ Hs Ht) as [Hsub Hq]. destruct (sink_closed e) eqn:Ec; [by intros [= <- <-]|].
  destruct (cn_error (st_conn e)) eqn:Ee; [intros [= <- <-]; by apply close_sink_sender|].
  destruct (sink_ex e) eqn:Ex; [intros [= <- <-]; by apply close_sink_sender|]. cbn [orb].
  destruct (stream_end_sent (I := I) comp Hcomp Hz) as (b & -> & Hb). cbn [mbind option_bind]. unfold conn_send. rewrite Ee. cbn match.
  intros [= <- <-].
  assert (He : ended = false).
  { destruct ended; [|done]. destruct (sn_ended _ _ _ _ Hs eq_refl) as [|(d & Eq & _)]; congruence. }
  split; [done|]. subst ended. destruct Hs as [H1 H2 H3 H4 H5 H6 H7 H8 (oq & sb & H9 & H10 & H11)]. unfold sink_held in H2.
  rewrite Hq in *. rewrite Hsub in *. apply Forall2_nil_inv_l in H9 as ->. apply Forall2_nil_inv_l in H10 as ->.
  constructor; cbn [set_sink set_stconn st_conn sink_closed sink_sem submitted sink_answers closing cn_compressor cn_error outgoing_queue app]; try done.
  - unfold sink_held. cbn [set_sink set_stconn st_conn submitted sink_answers outgoing_queue map e_permit app].
    cbn [map]. rewrite units_cons. cbn [map] in H2. change (units []) with 0 in *. lia.
  - lia.
  - by apply Forall_singleton.
  - intros _. right. eexists. split; [reflexivity|]. split; [done|]. done.
  - exists [End], []. split_and!; [by constructor|done|]. rewrite Ec, Ee in *. cbn [app] in *. rewrite app_nil_r in H11.
    unfold log_of in *. rewrite app_nil_r in H11. by rewrite H11.
Qed.

(** An entry leaves the queue, written or - when the connection is marked - dropped. *)
Lemma entry_gone_sender puts ended down e k d q : sender puts ended down e -> outgoing_queue (st_conn e) = d :: q ->
  outgoing_queue k = q -> cn_compressor k = comp -> (cn_error (st_conn e) = true -> cn_error k = true) ->
  exists it, sends_item (I := I) comp (e_buf d) it /\
    sender puts ended (if cn_error k then down else down ++ [it]) (entry_gone d (set_stconn k e)).
Proof.
  intros Hs Eq Ek Ec Hk.
  assert (Hends : (match closing e with Some n => (n =? e_id d)%nat | None => false end) = true -> sink_closed e = true \/ submitted e = []).
  { intros H. destruct (closing e) as [n|] eqn:En; [|done]. destruct (sn_ended _ _ _ _ Hs) as [|Ho]; [apply (sn_closing _ _ _ _ Hs); by rewrite En|by left|].
    right. by apply (only_end_units _ _ _ _ Hs Ho). }
  assert (Hnot : (match closing e with Some n => (n =? e_id d)%nat | None => false end) = false -> ended = true -> sink_closed e = true).
  { intros H E. destruct (sn_ended _ _ _ _ Hs E) as [|(d' & Eq' & _ & En)]; [done|]. rewrite Eq in Eq'. injection Eq' as <- _.
    rewrite En, Nat.eqb_refl in H. done. }
  destruct Hs as [H1 H2 H3 H4 H5 H6 H7 H8 (oq & sb & H9 & H10 & H11)]. rewrite Eq in *. unfold sink_held in H2. rewrite Eq in H2.
  cbn [map] in H2. rewrite units_cons in H2. apply Forall_cons in H5 as [Hd H5]. apply Forall2_cons_inv_l in H9 as (it & oq' & Hit & H9 & ->).
  exists it. split; [done|]. unfold entry_gone. cbn [set_stconn closing]. set (ends := match closing e with Some n => _ | None => _ end) in *.
  set (e1 := set_closed (ends || sink_closed e) (source_closed e)
    (set_sink (sink_sem e) (sink_ex e) (submitted e) (sink_answers e ++ [(e_permit d, false)]) (if ends then None else closing e) (set_stconn k e))).
  assert (Hs1 : sender puts ended (if cn_error k then down else down ++ [it]) e1).
  { constructor; unfold e1; cbn [set_closed set_sink set_stconn st_conn sink_closed sink_sem submitted sink_answers closing]; rewrite ?Ek; try done.
    - unfold sink_held. cbn [set_closed set_sink set_stconn st_conn submitted sink_answers]. rewrite Ek, map_app, units_app. cbn [map fst].
      rewrite units_cons. change (units []) with 0. lia.
    - apply Forall_app. split; [done|]. by apply Forall_singleton.
    - intros E. left. destruct ends eqn:En; [done|]. by rewrite Hnot.
    - destruct ends; [by intros [x Hx]|done].
    - exists oq', sb. split_and!; [done|done|]. destruct (cn_error (st_conn e)); [by rewrite Hk|].
      assert (Hp : down `prefix_of` log_of puts ended) by (destruct (sink_closed e); rewrite <- H11; by eexists).
      destruct (cn_error k); [done|]. destruct (sink_closed e) eqn:Es; [by rewrite orb_true_r, <- app_assoc|].
      destruct ends; cbn [orb]; [|by rewrite <- app_assoc]. destruct (Hends eq_refl) as [|Hsub]; [done|]. rewrite Hsub in H10.
      apply Forall2_nil_inv_l in H10 as ->. rewrite app_nil_r in H11. by rewrite <- app_assoc. }
  destruct ends; [|by eapply sender_same]. unfold close_sink. cbn [set_sink set_stconn source_closed].
  destruct (source_closed e) eqn:Es; cbn zeta; (eapply sender_same; [exact Hs1|done..]).
Qed.

Lemma set_stconn_id (e : endpoint S Q) : set_stconn (st_conn e) e = e.
Proof. by destruct e. Qed.

Lemma stream_send_sender now puts ended down e e' bs : sender puts ended down e -> stream_send_loop now e = Some (e', bs) ->
  (bs = [] /\ sender puts ended down e') \/ exists it, item_bytes (I := I) comp it bs /\ sender puts ended (down ++ [it]) e'.
Proof.
  intros Hs. unfold stream_send_loop. destruct (send_loop_round false now (st_conn e)) as [[k [[d b]|]]|] eqn:E; [..|done];
    cbn [mbind option_bind].
  2:{ intros [= <- <-]. apply send_loop_idle in E as ->. left. by rewrite set_stconn_id. }
  intros [= <- <-]. right. assert (Hek : cn_error (st_conn e) = false /\ cn_error k = false).
  { unfold send_loop_round in E. destruct (cn_error (st_conn e)) eqn:Ee; [done|]. destruct (outgoing_queue (st_conn e)); [done|].
    cbn [mbind option_bind] in E. destruct (compress _ _); [|done]. cbn [mbind option_bind] in E. injection E as <- _ _. by split. }
  destruct Hek as [He Hk]. apply send_loop_takes in E as (q & b1 & Eq & Eq' & Ec & Et & E1 & Esent). injection E1 as <-.
  destruct (entry_gone_sender puts ended down e k d q Hs Eq Eq') as (it & (bs & Hb & Hib) & Hs'); [rewrite Ec; apply Hs|congruence|].
  rewrite Hk in Hs'. exists it. split; [|done]. rewrite (sn_comp _ _ _ _ Hs) in Esent. destruct Esent as (b2 & F1 & F2), Hb as (b3 & G1 & G2).
  rewrite F1 in G1. injection G1 as <-. rewrite <- F2, G2. done.
Qed.

Lemma drop_entries_sender puts ended down q e : sender puts ended down e -> outgoing_queue (st_conn e) = q -> cn_error (st_conn e) = true ->
  sender puts ended down (drop_entries q e).
Proof.
  revert e. induction q as [|d q IH]; intros e Hs Eq Ee; [done|]. cbn [drop_entries].
  destruct (entry_gone_sender puts ended down e (set_queue q (st_conn e)) d q Hs Eq eq_refl) as (it & _ & Hs'); [apply Hs|done|].
  cbn [set_queue cn_error] in Hs'. rewrite Ee in Hs'.
  apply IH; [done|..]; unfold entry_gone, close_sink, stream_close; cbn [set_stconn closing];
    destruct (match closing e with Some n => _ | None => _ end); cbn [set_sink set_stconn source_closed]; try done; by destruct (source_closed e).
Qed.

Lemma teardown_sender puts ended down e : sender puts ended down e -> sender puts ended down (stream_teardown e).
Proof.
  intros Hs. apply drop_entries_sender; [|done|done]. by eapply sender_same.
Qed.

(** ** The receiving end *)

Definition incoming_items (i : option incoming) : list item :=
  match i with Some (WaitUnits b) => [item_of b] | Some (WaitRoom b) => [item_of (fst b)] | None => [] end.
Definition buffered (l : list held_buf) : list item := map (fun b => item_of (fst b)) l.

(** What the source has given, and what it holds. *)
Definition received (got : list (list Z)) (eof : bool) (e : endpoint S Q) : list item :=
  map Data got ++ buffered (source_bufs e) ++ (if eof then [End] else []).

(** [wl]: what is on the wire. *)
Record receiver (got : list (list Z)) (eof : bool) (wl down : list item) (e : endpoint S Q) : Prop := {
  rc_bufs : Forall (fun b => is_end (fst b) = false) (source_bufs e);
  rc_eof : eof = true -> source_closed e = true;
  rc_closed : source_closed e = true -> source_bufs e = [];
  rc_size : q_max_size (stream_queue e) = max_queued_stream_buffers;
  rc_items : if stream_aborted e then received got eof e `prefix_of` down
             else received got eof e ++ buffered (q_items (stream_queue e)) ++ incoming_items (stream_incoming e) ++ wl = down }.

Lemma receiver_same got eof wl down e e' : receiver got eof wl down e ->
  source_bufs e' = source_bufs e -> source_closed e' = source_closed e -> stream_queue e' = stream_queue e ->
  stream_aborted e' = stream_aborted e -> stream_incoming e' = stream_incoming e -> receiver got eof wl down e'.
Proof.
  intros [H1 H2 H3 H4 H5] E1 E2 E3 E4 E5. constructor; unfold received in *; rewrite ?E1, ?E2, ?E3, ?E4, ?E5; done.
Qed.

Lemma receiver_written got eof wl down e it : receiver got eof wl down e -> receiver got eof (wl ++ [it]) (down ++ [it]) e.
Proof.
  intros [H1 H2 H3 H4 H5]. constructor; try done. destruct (stream_aborted e); [by apply prefix_app_r|]. by rewrite <- H5, <- !app_assoc.
Qed.

Lemma item_of_data b : is_end b = false -> item_of b = Data (flat (r_bufs b)).
Proof. unfold item_of. by intros ->. Qed.

(** [consume] takes the buffers up to the end of the stream. *)
Lemma consume_spec n q bufs : (length (q_items q) <= n)%nat ->
  exists q' l eof, consume n q bufs = (q', bufs ++ l, eof) /\ Forall (fun b => is_end (fst b) = false) l /\
    q_max_size q' = q_max_size q /\ q_items q = l ++ match eof with Some b => b :: q_items q' | None => [] end /\
    match eof with Some b => is_end (fst b) = true | None => q_items q' = [] end.
Proof.
  revert q bufs. induction n as [|n IH]; intros q bufs Hn.
  { exists q, [], None. rewrite app_nil_r. assert (q_items q = []) as -> by (destruct (q_items q); [done|cbn in Hn; lia]). done. }
  cbn [consume]. pose proof (q_pop_spec q) as Hp. destruct (q_pop q) as [[b q1]|].
  - destruct Hp as [Hp Hm]. destruct (is_end (fst b)) eqn:Eb.
    + exists q1, [], (Some b). rewrite app_nil_r. by split_and!.
    + destruct (IH q1 (bufs ++ [b])) as (q' & l & eof & Ec & Hl & Hm' & Hi & He); [rewrite Hp in Hn; cbn in Hn; lia|].
      exists q', (b :: l), eof. split_and!; try done; [etransitivity; [exact Ec|by rewrite <- app_assoc]|by constructor|congruence|]. by rewrite Hp, Hi.
  - exists q, [], None. rewrite app_nil_r. rewrite Hp. done.
Qed.

(** The end of the stream, when it was met, is the last there is. *)
Definition end_last (l : list item) : Prop := forall a b, l = a ++ End :: b -> b = [].

Lemma log_end_last puts ended : end_last (log_of puts ended).
Proof.
  unfold log_of. intros a b. revert a. induction puts as [|p puts IH]; intros a; cbn [map app].
  - destruct ended; [|by destruct a]. destruct a as [|x a]; [by intros [= <-]|]. by destruct a.
  - destruct a as [|x a]; [done|]. intros [= _ E]. by eapply IH.
Qed.

Lemma end_last_prefix k l : k `prefix_of` l -> end_last l -> end_last k.
Proof. intros [m ->] H a b ->. rewrite <- app_assoc in H. cbn in H. specialize (H _ _ eq_refl). by apply app_eq_nil in H as [-> _]. Qed.

Lemma receive_receiver got wl down e : end_last down -> receiver got false wl down e -> source_bufs e = [] -> stream_aborted e = false ->
  q_items (stream_queue e) <> [] ->
  exists e', stream_receive e = Some e' /\ source_closed e' = source_closed e /\
    (source_bufs e' <> [] -> receiver got false wl down e' \/ source_closed e = true) /\
    (source_bufs e' = [] -> receiver got true wl down (set_closed (sink_closed e') true e')).
Proof.
  intros He [H1 H2 H3 H4 H5] Eb Ea Hq. rewrite Ea in H5. unfold received in H5. rewrite Eb in H5. cbn [buffered map app] in H5. rewrite app_nil_r in H5.
  unfold stream_receive. destruct (consume_spec (length (q_items (stream_queue e))) (stream_queue e) []) as (q & l & eof & -> & Hl & Hm & Hi & Hf); [lia|].
  cbn [app]. destruct eof as [b|].
  - assert (Hend : buffered (q_items q) ++ incoming_items (stream_incoming e) ++ wl = []).
    { rewrite Hi in H5. unfold buffered in H5. rewrite map_app in H5. cbn [map] in H5. unfold item_of at 2 in H5. rewrite Hf in H5.
      apply (He (map Data got ++ buffered l)). rewrite <- H5, <- !app_assoc. done. }
    apply app_eq_nil in Hend as [Hq' Hend]. assert (Eq : q_items q = []) by (destruct (q_items q); [done|discriminate]).
    rewrite Hi, Eq in H5. unfold buffered in H5. rewrite map_app in H5. cbn [map] in H5. unfold item_of at 2 in H5. rewrite Hf in H5.
    rewrite Hend, app_nil_r in H5. case_bool_decide as El.
    + subst l. eexists. split; [done|]. split_and!; [done|done|]. intros _. constructor; try done.
      cbn [set_received set_closed stream_aborted stream_queue stream_incoming source_bufs]. rewrite ?Ea. congruence.
      cbn [set_received set_closed stream_aborted stream_queue stream_incoming source_bufs]. rewrite Ea, Eq. unfold received. cbn.
      rewrite Hend, app_nil_r. exact H5.
    + rewrite bool_decide_eq_true_2 by done. eexists. split; [done|]. split_and!; [done| |done]. intros _.
      pose proof (q_push_spec (end_marker, 0) q) as Hp. destruct (q_push (end_marker, 0) q) as [q2|].
      2:{ exfalso. rewrite Eq, Hm, H4 in Hp. unfold max_queued_stream_buffers in Hp. change (zlen []) with 0 in Hp. lia. }
      destruct Hp as (_ & Hp & Hm2). destruct (source_closed e) eqn:Es; [by right|left].
      constructor; cbn [set_received default stream_aborted stream_queue stream_incoming source_bufs source_closed]; try done; [by rewrite Es|unfold id; congruence|].
      rewrite Ea. unfold received, id. cbn [set_received source_bufs]. rewrite Hp, Eq. cbn [app buffered map]. rewrite Hend, app_nil_r.
      rewrite <- app_assoc. exact H5.
  - eexists. split; [done|]. rewrite app_nil_r in Hi. subst l. split_and!; [done| |].
    + intros Hb. destruct (source_closed e) eqn:Es; [by right|left].
      constructor; cbn [set_received stream_aborted stream_queue stream_incoming source_bufs source_closed]; try done; [by rewrite Es|congruence|].
      rewrite Ea, Hf. unfold received. cbn [set_received source_bufs]. by rewrite app_nil_r, <- app_assoc.
    + cbn [set_received source_bufs]. intros El. by rewrite El in Hq.
Qed.

Lemma process_one_receiver got wl down e e' r : receiver got false wl down e -> process_one_buffer e = Some (e', r) ->
  exists bs, r = SItem bs /\ receiver (got ++ [bs]) false wl down e'.
Proof.
  intros [H1 H2 H3 H4 H5]. unfold process_one_buffer, received in *. destruct (source_bufs e) as [|b l] eqn:Eb; [done|]. intros [= <- <-].
  eexists. split; [done|]. apply Forall_cons in H1 as [Hb H1].
  constructor; cbn [set_received source_bufs source_closed stream_queue stream_aborted stream_incoming]; try done.
  - intros E. by specialize (H3 E).
  - unfold received. cbn [set_received source_bufs]. cbn [buffered map] in H5. rewrite (item_of_data _ Hb) in H5. rewrite map_app. cbn [map].
    destruct (stream_aborted e); by rewrite <- !app_assoc in *.
Qed.

Definition given (r : source_result) : list (list Z) := match r with SItem bs => [bs] | _ => [] end.
Definition is_eof (r : source_result) : bool := match r with SEof => true | _ => false end.

Lemma close_source_receiver got eof wl down (e : endpoint S Q) : receiver got eof wl down (set_closed (sink_closed e) true e) ->
  receiver got eof wl down (close_source e).
Proof. intros H. unfold close_source. cbn zeta. destruct (sink_closed e); [|done]. by eapply receiver_same. Qed.

Lemma source_next_receiver got eof wl down e e' r : end_last down -> receiver got eof wl down e -> source_next e = Some (e', r) ->
  r <> SStopped /\ receiver (got ++ given r) (eof || is_eof r) wl down e'.
Proof.
  intros He Hr. unfold source_next. destruct (source_bufs e) as [|b l] eqn:Eb.
  2:{ intros E. assert (eof = false) as ->.
      { destruct eof; [|done]. pose proof (rc_closed _ _ _ _ _ Hr (rc_eof _ _ _ _ _ Hr eq_refl)). congruence. }
      by destruct (process_one_receiver _ _ _ _ _ _ Hr E) as (bs & -> & H). }
  destruct (source_closed e) eqn:Ec; [intros [= <- <-]; by rewrite app_nil_r, orb_false_r|].
  assert (eof = false) as -> by (destruct eof; [by rewrite (rc_eof _ _ _ _ _ Hr eq_refl) in Ec|done]).
  destruct (stream_aborted e) eqn:Ea.
  { intros [= <- <-]. rewrite app_nil_r. split; [done|]. apply close_source_receiver. destruct Hr as [H1 H2 H3 H4 H5]. by constructor. }
  case_bool_decide as Eq; [done|].
  destruct (receive_receiver got wl down e He Hr Eb Ea Eq) as (e1 & -> & Ec1 & Hk & Hd).
  destruct (source_bufs e1) as [|b l] eqn:Eb1.
  - intros [= <- <-]. rewrite app_nil_r. split; [done|]. by apply close_source_receiver, Hd.
  - intros E. destruct (Hk ltac:(done)) as [Hr1|]; [|congruence]. by destruct (process_one_receiver _ _ _ _ _ _ Hr1 E) as (bs & -> & H).
Qed.

Lemma frame_receiver got eof it wl down rb e : receiver got eof (it :: wl) down e -> item_of rb = it -> stream_incoming e = None ->
  receiver got eof wl down (handle_stream_frame (Some rb) e).
Proof.
  intros [H1 H2 H3 H4 H5] <- Ei. constructor; try done. cbn. rewrite Ei in H5. by destruct (stream_aborted e).
Qed.

Lemma units_receiver got eof wl down e e' : receiver got eof wl down e -> incoming_units e = Some e' -> receiver got eof wl down e'.
Proof.
  intros [H1 H2 H3 H4 H5]. unfold incoming_units. destruct (stream_incoming e) as [[b|b]|] eqn:Ei; try done.
  destruct (sem_try_wait _ _) as [a|]; [|done]. cbn [mbind option_bind]. intros [= <-]. by constructor.
Qed.

Lemma push_receiver got eof wl down e e' : receiver got eof wl down e -> incoming_push e = Some e' -> receiver got eof wl down e'.
Proof.
  intros [H1 H2 H3 H4 H5]. unfold incoming_push. destruct (stream_incoming e) as [[b|b]|] eqn:Ei; try done.
  destruct (stream_aborted e) eqn:Ea; [intros [= <-]; by constructor|].
  pose proof (q_push_spec b (stream_queue e)) as Hp. destruct (q_push b _) as [q|]; [|done]. destruct Hp as (_ & Hq & Hm).
  cbn [mbind option_bind]. intros [= <-]. constructor; try done; cbn; [congruence|].
  rewrite <- H5, Hq. unfold buffered. by rewrite map_app, <- app_assoc.
Qed.

(** What receives does not change. *)
Definition same_receiving (e e' : endpoint S Q) : Prop :=
  source_bufs e' = source_bufs e /\ source_closed e' = source_closed e /\ stream_queue e' = stream_queue e /\
  stream_aborted e' = stream_aborted e /\ stream_incoming e' = stream_incoming e.

Lemma same_receiving_receiver got eof wl down e e' : receiver got eof wl down e -> same_receiving e e' -> receiver got eof wl down e'.
Proof. intros H (E1 & E2 & E3 & E4 & E5). by eapply receiver_same. Qed.

Lemma close_sink_receiving e : same_receiving e (close_sink e).
Proof. unfold close_sink. by destruct (source_closed e) eqn:E; repeat split. Qed.

Lemma same_receiving_trans e1 e2 e3 : same_receiving e1 e2 -> same_receiving e2 e3 -> same_receiving e1 e3.
Proof. intros (A1 & A2 & A3 & A4 & A5) (B1 & B2 & B3 & B4 & B5). repeat split; congruence. Qed.

Lemma put_receiving args e e' ok : sink_put args e = Some (e', ok) -> same_receiving e e' /\ (ok = false -> e' = e).
Proof.
  unfold sink_put. destruct (stream_message args); [|done]. cbn [mbind option_bind]. destruct (sem_try_wait _ _); [|done]. cbn [mbind option_bind].
  destruct (sink_ex e); by intros [= <- <-].
Qed.

Lemma arrive_receiving now e e' : sink_arrive now e = Some e' -> same_receiving e e'.
Proof.
  unfold sink_arrive. destruct (submitted e) as [|[b n] l]; [done|]. destruct (cn_error _); [by intros [= <-]|]. destruct (sink_closed e); [by intros [= <-]|].
  destruct (conn_send _ _ _ _ _ _) as [k r]. destruct r; by intros [= <-].
Qed.

Lemma answered_receiving e e' : sink_answered e = Some e' -> same_receiving e e'.
Proof. unfold sink_answered. destruct (sink_answers e) as [|[n f] l]; [done|]. by intros [= <-]. Qed.

Lemma sink_close_receiving now e e' ok : sink_close now e = Some (e', ok) -> same_receiving e e'.
Proof.
  unfold sink_close. destruct (sem_try_wait _ _); [|done]. cbn [mbind option_bind]. destruct (sink_closed e); [by intros [= <- <-]|].
  destruct (_ || _); [intros [= <- <-]; apply close_sink_receiving|]. destruct stream_end as [b|]; [|done]. cbn [mbind option_bind].
  destruct (conn_send _ _ _ _ _ _) as [k r].
  destruct r; intros [= <- <-]; try done; (eapply same_receiving_trans; [|apply close_sink_receiving]; done).
Qed.

Lemma gone_receiving d e : same_receiving e (entry_gone d e).
Proof.
  unfold entry_gone. cbn zeta. destruct (match closing e with Some n => _ | None => _ end); [|done].
  eapply same_receiving_trans; [|apply close_sink_receiving]. done.
Qed.

Lemma stream_send_receiving now e e' bs : stream_send_loop now e = Some (e', bs) -> same_receiving e e'.
Proof.
  unfold stream_send_loop. destruct (send_loop_round _ _ _) as [[k [[d b]|]]|]; [..|done]; cbn [mbind option_bind]; intros [= <- <-]; [|done].
  eapply same_receiving_trans; [|apply gone_receiving]. done.
Qed.

Lemma drop_receiving q e : same_receiving e (drop_entries q e).
Proof.
  revert e. induction q as [|d q IH]; intros e; [done|]. cbn [drop_entries]. eapply same_receiving_trans; [|apply IH].
  eapply same_receiving_trans; [|apply gone_receiving]. done.
Qed.

Lemma teardown_receiver got eof wl down e : receiver got eof wl down e -> receiver got eof wl down (stream_teardown e).
Proof.
  intros [H1 H2 H3 H4 H5]. eapply same_receiving_receiver; [|apply drop_receiving].
  destruct (q_abort_spec (stream_queue e)) as [Hq Hm]. constructor; try done; cbn; [congruence|].
  unfold received in *. cbn. destruct (stream_aborted e); [done|]. rewrite <- H5. by eexists.
Qed.

(** What sends does not change, but the connection may be marked. *)
Definition same_sending (e e' : endpoint S Q) : Prop :=
  outgoing_queue (st_conn e') = outgoing_queue (st_conn e) /\ cn_compressor (st_conn e') = cn_compressor (st_conn e) /\
  (cn_error (st_conn e) = true -> cn_error (st_conn e') = true) /\ sink_closed e' = sink_closed e /\ sink_sem e' = sink_sem e /\
  submitted e' = submitted e /\ sink_answers e' = sink_answers e /\ closing e' = closing e.

Lemma same_sending_sender puts ended down e e' : sender puts ended down e -> same_sending e e' -> sender puts ended down e'.
Proof. intros H (E1 & E2 & E3 & E4 & E5 & E6 & E7 & E8). by eapply sender_same. Qed.

Lemma same_sending_trans e1 e2 e3 : same_sending e1 e2 -> same_sending e2 e3 -> same_sending e1 e3.
Proof. intros (A1 & A2 & A3 & A4 & A5 & A6 & A7 & A8) (B1 & B2 & B3 & B4 & B5 & B6 & B7 & B8). split_and!; try congruence. by intros H; apply B3, A3. Qed.

Lemma close_source_sending e : same_sending e (close_source e).
Proof. unfold close_source. cbn zeta. by destruct (sink_closed e) eqn:E. Qed.

Lemma frame_sending v e : same_sending e (handle_stream_frame v e).
Proof. by destruct v. Qed.

Lemma units_sending e e' : incoming_units e = Some e' -> same_sending e e'.
Proof. unfold incoming_units. destruct (stream_incoming e) as [[b|b]|]; try done. destruct (sem_try_wait _ _); [|done]. by intros [= <-]. Qed.

Lemma push_sending e e' : incoming_push e = Some e' -> same_sending e e'.
Proof.
  unfold incoming_push. destruct (stream_incoming e) as [[b|b]|]; try done. destruct (stream_aborted e); [by intros [= <-]|].
  destruct (q_push _ _); [|done]. by intros [= <-].
Qed.

Lemma receive_sending e e' : stream_receive e = Some e' -> same_sending e e'.
Proof.
  unfold stream_receive. destruct (consume _ _ _) as [[q bufs] [b|]]; [|by intros [= <-]].
  case_bool_decide; [by intros [= <-]|]. case_bool_decide; [by intros [= <-]|done].
Qed.

Lemma process_one_sending e e' r : process_one_buffer e = Some (e', r) -> same_sending e e'.
Proof. unfold process_one_buffer. destruct (source_bufs e); [done|]. by intros [= <- _]. Qed.

Lemma source_next_sending e e' r : source_next e = Some (e', r) -> same_sending e e'.
Proof.
  unfold source_next. destruct (source_bufs e) as [|b l]; [|by apply process_one_sending].
  destruct (source_closed e); [by intros [= <- _]|]. destruct (stream_aborted e); [intros [= <- _]; apply close_source_sending|].
  case_bool_decide; [done|]. destruct (stream_receive e) as [e1|] eqn:E; [|by intros [= <- _]]. apply receive_sending in E.
  destruct (source_bufs e1).
  - intros [= <- _]. eapply same_sending_trans; [exact E|apply close_source_sending].
  - intros E1. eapply same_sending_trans; [exact E|by eapply process_one_sending].
Qed.

(** ** The system *)

(** An end with its history: what was put, whether the end was sent, what the source
    gave, whether it gave the end; the bytes that it has written and the other end
    has not read. *)
Record side := Side { s_end : endpoint S Q; s_puts : list (list Z); s_ended : bool; s_got : list (list Z); s_eof : bool; s_out : list Z }.

Definition side_init (k : conn) : side :=
  Side (endpoint_init (Conn false [] (next_entry k) comp (timeout_negotiated k) (cn_id k) (sent_messages k))) [] false [] false [].
Definition with_end (e : endpoint S Q) (x : side) : side := Side e (s_puts x) (s_ended x) (s_got x) (s_eof x) (s_out x).
Definition log_put (args : list Z) (x : side) : side := Side (s_end x) (s_puts x ++ [args]) (s_ended x) (s_got x) (s_eof x) (s_out x).
Definition log_ended (b : bool) (x : side) : side := Side (s_end x) (s_puts x) (s_ended x || b) (s_got x) (s_eof x) (s_out x).
Definition log_given (r : source_result) (x : side) : side := Side (s_end x) (s_puts x) (s_ended x) (s_got x ++ given r) (s_eof x || is_eof r) (s_out x).
Definition log_written (bs : list Z) (x : side) : side := Side (s_end x) (s_puts x) (s_ended x) (s_got x) (s_eof x) (s_out x ++ bs).
Definition set_out (w : list Z) (x : side) : side := Side (s_end x) (s_puts x) (s_ended x) (s_got x) (s_eof x) w.

Definition put_fits (args : list Z) : Prop := zlen args + 4 < max_message comp /\ zlen args < 2 ^ 32 - 1.

(** A step of the end [x]; [w], what the other end has written. *)
Inductive side_step (w : list Z) (x : side) : list Z -> side -> Prop :=
  | step_put args e : sink_put args (s_end x) = Some (e, true) -> put_fits args ->
      side_step w x w (if sink_closed (s_end x) then with_end e x else log_put args (with_end e x))
  | step_arrive now e : sink_arrive now (s_end x) = Some e -> side_step w x w (with_end e x)
  | step_answered e : sink_answered (s_end x) = Some e -> side_step w x w (with_end e x)
  | step_close now e ok : sink_close now (s_end x) = Some (e, ok) -> side_step w x w (log_ended ok (with_end e x))
  | step_stream_send now e bs : stream_send_loop now (s_end x) = Some (e, bs) -> side_step w x w (log_written bs (with_end e x))
  | step_frame (i : I) rb i' : stream_incoming (s_end x) = None -> stream_aborted (s_end x) = false -> in_pending i = w -> w <> [] ->
      read_stream (cn_compressor (st_conn (s_end x))) i = Some (Some rb, i') ->
      side_step w x (in_pending i') (with_end (handle_stream_frame (Some rb) (s_end x)) x)
  | step_lost : side_step w x w (with_end (handle_stream_frame None (s_end x)) x)
  | step_units e : incoming_units (s_end x) = Some e -> side_step w x w (with_end e x)
  | step_push e : incoming_push (s_end x) = Some e -> side_step w x w (with_end e x)
  | step_next e r : source_next (s_end x) = Some (e, r) -> side_step w x w (log_given r (with_end e x))
  | step_teardown : stream_incoming (s_end x) = None -> side_step w x w (with_end (stream_teardown (s_end x)) x).

Inductive stream_step : side * side -> side * side -> Prop :=
  | step_left x y w x' : side_step (s_out y) x w x' -> stream_step (x, y) (x', set_out w y)
  | step_right x y w y' : side_step (s_out x) y w y' -> stream_step (x, y) (set_out w x, y').

Inductive stream_run (k l : conn) : side * side -> Prop :=
  | stream_start : stream_run k l (side_init k, side_init l)
  | stream_more p p' : stream_run k l p -> stream_step p p' -> stream_run k l p'.

(** What holds of what [x] sends to [y]. *)
Definition flows (x y : side) : Prop := exists wl down,
  (exists bss, s_out x = concat bss /\ Forall2 (item_bytes (I := I) comp) wl bss) /\
  sender (s_puts x) (s_ended x) down (s_end x) /\ receiver (s_got y) (s_eof y) wl down (s_end y).

Lemma flows_end_last puts ended down e : sender puts ended down e -> end_last down.
Proof.
  intros [_ _ _ _ _ _ _ _ (oq & sb & _ & _ & H)]. apply (end_last_prefix _ (log_of puts ended)); [|apply log_end_last].
  destruct (cn_error (st_conn e)); [done|]. destruct (sink_closed e); rewrite <- H; by eexists.
Qed.


Hypothesis Hroom : 4 < max_message comp.

Lemma flows_sending x y e : flows x y -> same_sending (s_end x) e -> flows (with_end e x) y.
Proof. intros (wl & down & Hw & Hs & Hr) H. exists wl, down. split_and!; [done|by eapply same_sending_sender|done]. Qed.

Lemma flows_sender x y e : flows x y -> (forall down, sender (s_puts x) (s_ended x) down (s_end x) -> sender (s_puts x) (s_ended x) down e) ->
  flows (with_end e x) y.
Proof. intros (wl & down & Hw & Hs & Hr) H. exists wl, down. split_and!; [done|by apply H|done]. Qed.

Lemma step_sends w x w' x' y : flows x y -> side_step w x w' x' -> flows x' y.
Proof.
  intros Hf Hstep. destruct Hstep.
  - destruct H0 as [Hz Hn]. destruct Hf as (wl & down & Hw & Hs & Hr). exists wl, down.
    pose proof (put_sender _ _ _ _ _ _ Hs Hz Hn H) as Hp. destruct (sink_closed (s_end x)); [done|]. by destruct Hp.
  - apply flows_sender; [done|]. intros down Hs. by eapply sink_arrive_sender.
  - apply flows_sender; [done|]. intros down Hs. by eapply sink_answered_sender.
  - destruct Hf as (wl & down & Hw & Hs & Hr). exists wl, down. split_and!; [done| |done].
    pose proof (sink_close_sender _ _ _ _ _ _ _ Hroom Hs H) as Hc. cbn [log_ended with_end s_puts s_ended s_end].
    destruct ok; [|by rewrite orb_false_r]. destruct Hc as [-> Hc]. exact Hc.
  - destruct Hf as (wl & down & (bss & Hw & Hws) & Hs & Hr).
    destruct (stream_send_sender _ _ _ _ _ _ _ Hs H) as [[-> Hs']|(it & Hb & Hs')].
    + exists wl, down. split_and!; [|done|done]. exists bss. split; [|done]. cbn. by rewrite app_nil_r.
    + exists (wl ++ [it]), (down ++ [it]). split_and!; [|done|by apply receiver_written]. exists (bss ++ [bs]).
      split; [|apply Forall2_app; [done|by constructor]]. cbn. rewrite Hw, concat_app. cbn. by rewrite app_nil_r.
  - apply flows_sending; [done|apply frame_sending].
  - apply flows_sending; [done|apply frame_sending].
  - apply flows_sending; [done|by apply units_sending].
  - apply flows_sending; [done|by apply push_sending].
  - exact (flows_sending _ _ _ Hf (source_next_sending _ _ _ H)).
  - apply flows_sender; [done|]. intros down Hs. by apply teardown_sender.
Qed.

Lemma flows_receiving x y e : flows y x -> same_receiving (s_end x) e -> flows (set_out (s_out y) y) (with_end e x).
Proof. intros (wl & down & Hw & Hs & Hr) H. exists wl, down. split_and!; [done|done|by eapply same_receiving_receiver]. Qed.

Lemma flows_receiver x y e : flows y x -> (forall wl down, receiver (s_got x) (s_eof x) wl down (s_end x) ->
  receiver (s_got x) (s_eof x) wl down e) -> flows (set_out (s_out y) y) (with_end e x).
Proof. intros (wl & down & Hw & Hs & Hr) H. exists wl, down. split_and!; [done|done|by apply H]. Qed.

Lemma step_receives x y w x' : flows x y -> flows y x -> side_step (s_out y) x w x' -> flows (set_out w y) x'.
Proof.
  intros Hx Hf Hstep. destruct Hstep.
  - pose proof (flows_receiving _ _ _ Hf (proj1 (put_receiving _ _ _ _ H))) as Hr. by destruct (sink_closed (s_end x)).
  - apply flows_receiving; [done|by eapply arrive_receiving].
  - apply flows_receiving; [done|by eapply answered_receiving].
  - exact (flows_receiving _ _ _ Hf (sink_close_receiving _ _ _ _ H)).
  - exact (flows_receiving _ _ _ Hf (stream_send_receiving _ _ _ _ H)).
  - destruct Hf as (wl & down & (bss & Hw & Hws) & Hs & Hr). destruct Hx as (_ & dx & _ & Hsx & _). rewrite (sn_comp _ _ _ _ Hsx) in H3.
    destruct Hws as [|it bs wl bss [Hne Hit] Hws]; [by rewrite Hw in H2|]. cbn [concat] in Hw. rewrite Hw in H1.
    destruct (Hit i (concat bss) H1) as (v & i2 & Er & (rb2 & -> & Hi) & Hp). rewrite Er in H3. injection H3 as <- <-.
    exists wl, down. split_and!; [|done|by eapply frame_receiver]. exists bss. by split.
  - apply flows_receiving; [done|done].
  - apply flows_receiver; [done|]. intros wl down Hr. by eapply units_receiver.
  - apply flows_receiver; [done|]. intros wl down Hr. by eapply push_receiver.
  - destruct Hf as (wl & down & Hw & Hs & Hr). exists wl, down. split_and!; [done|done|].
    by apply (source_next_receiver _ _ _ _ _ _ _ (flows_end_last _ _ _ _ Hs) Hr H).
  - apply flows_receiver; [done|]. intros wl down Hr. by apply teardown_receiver.
Qed.

Lemma flows_init k l : flows (side_init k) (side_init l).
Proof.
  exists [], []. split_and!; [by exists []| |].
  - constructor; cbn; try done; [unfold sink_held; cbn; by rewrite sem_units_make|by rewrite sem_units_make|]. by exists [], [].
  - constructor; cbn; try done; [by rewrite q_max_size_make|]. by rewrite q_items_make.
Qed.

Lemma stream_flows k l p : stream_run k l p -> flows p.1 p.2 /\ flows p.2 p.1.
Proof.
  induction 1 as [|p p' _ [H1 H2] Hs]; [split; apply flows_init|]. destruct Hs as [x y w x' Hs|x y w y' Hs]; cbn [fst snd] in *.
  - split; [exact (step_sends _ _ _ _ _ H1 Hs)|by eapply step_receives].
  - split; [by eapply step_receives|exact (step_sends _ _ _ _ _ H2 Hs)].
Qed.

Lemma data_prefix k l ended : map Data k `prefix_of` log_of l ended -> k `prefix_of` l.
Proof.
  revert l. induction k as [|a k IH]; intros l H; [apply prefix_nil|]. destruct l as [|b l].
  - unfold log_of in H. cbn in H. destruct ended; [|by apply prefix_nil_not in H]. apply prefix_cons_inv_1 in H. discriminate.
  - unfold log_of in H. cbn in H. pose proof (prefix_cons_inv_1 _ _ _ _ H) as E. injection E as ->.
    apply prefix_cons_inv_2 in H. by apply prefix_cons, IH.
Qed.

Lemma data_inj k l : map Data k = map Data l -> k = l.
Proof. revert l. induction k as [|a k IH]; intros [|b l]; try done. intros [= -> E]. f_equal. by apply IH. Qed.

Lemma flows_delivers x y : flows x y -> s_got y `prefix_of` s_puts x /\ (s_eof y = true -> s_ended x = true /\ s_got y = s_puts x) /\
  forall e r, source_next (s_end y) = Some (e, r) -> r <> SStopped.
Proof.
  intros (wl & down & Hw & Hs & Hr). pose proof (flows_end_last _ _ _ _ Hs) as Hend.
  assert (Hp : received (s_got y) (s_eof y) (s_end y) `prefix_of` log_of (s_puts x) (s_ended x)).
  { assert (Hd : down `prefix_of` log_of (s_puts x) (s_ended x)).
    { destruct Hs as [_ _ _ _ _ _ _ _ (oq & sb & _ & _ & H)]. destruct (cn_error _); [done|]. destruct (sink_closed _); rewrite <- H; by eexists. }
    etransitivity; [|exact Hd]. pose proof (rc_items _ _ _ _ _ Hr) as H. destruct (stream_aborted (s_end y)); [done|]. rewrite <- H. by eexists. }
  unfold received in Hp. split_and!.
  - apply (data_prefix _ _ (s_ended x)). etransitivity; [|exact Hp]. by eexists.
  - intros E. rewrite E, (rc_closed _ _ _ _ _ Hr (rc_eof _ _ _ _ _ Hr E)) in Hp. cbn [buffered map app] in Hp.
    destruct Hp as [m Hp]. rewrite <- app_assoc in Hp. cbn [app] in Hp. pose proof (log_end_last _ _ _ _ Hp) as ->.
    unfold log_of in Hp. destruct (s_ended x) eqn:Ee.
    + split; [done|]. apply app_inj_tail in Hp as [Hp _]. by apply data_inj.
    + rewrite app_nil_r in Hp. exfalso. assert (Hin : End ∈ map Data (s_puts x)) by (rewrite Hp; apply elem_of_app; right; by apply list_elem_of_singleton).
      by apply list_elem_of_fmap in Hin as (bs & ? & _).
  - intros e r E. exact (proj1 (source_next_receiver _ _ _ _ _ _ _ Hend Hr E)).
Qed.

(** C26. The streams of a connection, in both directions and under any timing: what a
    source gives is a prefix of what was put into the sink at the other end; it gives
    the end only when that sink was closed and everything put into it was given; and
    the assertion of [stream_receive] holds. *)
Theorem rpc_stream_delivers k l x y : stream_run k l (x, y) ->
  (s_got y `prefix_of` s_puts x /\ (s_eof y = true -> s_ended x = true /\ s_got y = s_puts x)) /\
  (s_got x `prefix_of` s_puts y /\ (s_eof x = true -> s_ended y = true /\ s_got x = s_puts y)) /\
  (forall e r, source_next (s_end y) = Some (e, r) -> r <> SStopped) /\
  (forall e r, source_next (s_end x) = Some (e, r) -> r <> SStopped).
Proof.
  intros H. apply stream_flows in H as [H1 H2]. cbn [fst snd] in *.
  apply flows_delivers in H1 as (A1 & A2 & A3). apply flows_delivers in H2 as (B1 & B2 & B3). done.
Qed.
End Ends.

(** ** Concrete inputs *)

Module Ex.
Import Core.Impl.

Abbreviation end_side := (side (S := Z) (Q := queue_list held_buf)).

(** Steps by name; a frame is read from the bytes cut after three. *)
Inductive op := Put (args : list Z) | Arrive | Answered | Close | Send | Frame | Units | Push | Next.

Definition exec (o : op) (w : list Z) (x : end_side) : option (list Z * end_side) :=
  match o with
  | Put args =>
      if (zlen args + 4 <? 2 ^ 32) && (zlen args <? 2 ^ 32 - 1) then
        match sink_put args (s_end x) with
        | Some (e, true) => Some (w, if sink_closed (s_end x) then with_end e x else log_put args (with_end e x))
        | _ => None
        end
      else None
  | Arrive => e ← sink_arrive 0 (s_end x); Some (w, with_end e x)
  | Answered => e ← sink_answered (s_end x); Some (w, with_end e x)
  | Close => '(e, ok) ← sink_close 0 (s_end x); Some (w, log_ended ok (with_end e x))
  | Send => '(e, bs) ← stream_send_loop 0 (s_end x); Some (w, log_written bs (with_end e x))
  | Frame =>
      match stream_incoming (s_end x), stream_aborted (s_end x), w, read_stream (I := list (list Z)) (cn_compressor (st_conn (s_end x))) [take 3 w; drop 3 w] with
      | None, false, _ :: _, Some (Some rb, i) => Some (concat i, with_end (handle_stream_frame (Some rb) (s_end x)) x)
      | _, _, _, _ => None
      end
  | Units => e ← incoming_units (s_end x); Some (w, with_end e x)
  | Push => e ← incoming_push (s_end x); Some (w, with_end e x)
  | Next => '(e, r) ← source_next (s_end x); Some (w, log_given r (with_end e x))
  end.

Lemma exec_step o w x w' x' : exec o w x = Some (w', x') -> side_step (I := list (list Z)) None w x w' x'.
Proof.
  destruct o; cbn [exec].
  - destruct (_ && _) eqn:Ef; [|done]. apply andb_prop in Ef as [E1 E2]. destruct (sink_put _ _) as [[e []]|] eqn:E; try done.
    intros [= <- <-]. constructor; [done|]. unfold put_fits, max_message. lia.
  - destruct (sink_arrive _ _) as [e|] eqn:E; [|done]. intros [= <- <-]. by eapply step_arrive.
  - destruct (sink_answered _) as [e|] eqn:E; [|done]. intros [= <- <-]. by constructor.
  - destruct (sink_close _ _) as [[e ok]|] eqn:E; [|done]. intros [= <- <-]. by eapply step_close.
  - destruct (stream_send_loop _ _) as [[e bs]|] eqn:E; [|done]. intros [= <- <-]. by eapply step_stream_send.
  - destruct (stream_incoming (s_end x)) eqn:Ei; [done|]. destruct (stream_aborted (s_end x)) eqn:Ea; [done|].
    destruct w as [|b w]; [done|]. destruct (read_stream _ _) as [[[rb|] i]|] eqn:E; [|done|done]. intros [= <- <-].
    change (concat i) with (in_pending (I := list (list Z)) i).
    apply (step_frame (I := list (list Z)) None (b :: w) x [take 3 (b :: w); drop 3 (b :: w)] rb i); [done|done| |done|done].
    cbn [in_pending chunk_stream concat]. by rewrite app_nil_r, take_drop.
  - destruct (incoming_units _) as [e|] eqn:E; [|done]. intros [= <- <-]. by constructor.
  - destruct (incoming_push _) as [e|] eqn:E; [|done]. intros [= <- <-]. by constructor.
  - destruct (source_next _) as [[e r]|] eqn:E; [|done]. intros [= <- <-]. by constructor.
Qed.

(** A sequence of steps; [true]: of the left end. *)
Fixpoint exec_all (l : list (bool * op)) (p : end_side * end_side) : option (end_side * end_side) :=
  match l with
  | [] => Some p
  | (here, o) :: l =>
      if (here : bool) then '(w, x) ← exec o (s_out (snd p)) (fst p); exec_all l (x, set_out w (snd p))
      else '(w, y) ← exec o (s_out (fst p)) (snd p); exec_all l (set_out w (fst p), y)
  end.

Lemma exec_all_run k1 k2 l p p' : exec_all l p = Some p' -> stream_run (I := list (list Z)) None k1 k2 p -> stream_run (I := list (list Z)) None k1 k2 p'.
Proof.
  revert p. induction l as [|[[] o] l IH]; intros [x y] E Hr; cbn [exec_all fst snd] in E; [by injection E as <-|..].
  - destruct (exec _ _ _) as [[w x']|] eqn:Ex; [|done]. eapply IH; [exact E|]. eapply stream_more; [exact Hr|]. constructor. by apply exec_step in Ex.
  - destruct (exec _ _ _) as [[w y']|] eqn:Ex; [|done]. eapply IH; [exact E|]. eapply stream_more; [exact Hr|]. constructor. by apply exec_step in Ex.
Qed.

Definition k : conn := conn_init 1.

(** Two items and the end, from left to right. *)
Definition script : list (bool * op) :=
  [(true, Put [1; 2]); (true, Put []); (true, Arrive); (true, Send); (true, Arrive); (true, Send); (false, Frame); (false, Units); (false, Push);
   (true, Answered); (true, Answered); (true, Close); (true, Send); (false, Frame); (false, Units); (false, Push); (false, Next); (false, Next);
   (false, Frame); (false, Units); (false, Push); (false, Next)].
Definition final : end_side * end_side := Eval vm_compute in
  match exec_all script (side_init None k, side_init None k) with Some p => p | None => (side_init None k, side_init None k) end.

Lemma run_final : stream_run (I := list (list Z)) None k k final.
Proof.
  destruct (exec_all script (side_init None k, side_init None k)) as [p|] eqn:E; [|vm_compute in E; discriminate].
  pose proof (exec_all_run k k _ _ _ E (stream_start None k k)) as H. vm_compute in E. injection E as <-. exact H.
Qed.
End Ex.

Import Core.Impl.

Lemma rpc_stream_delivers_witness : s_got (snd Ex.final) = [[1; 2]; []] /\ s_eof (snd Ex.final) = true /\
  s_got (snd Ex.final) = s_puts (fst Ex.final).
Proof.
  split; [reflexivity|]. split; [reflexivity|].
  destruct (rpc_stream_delivers (I := list (list Z)) None Logic.I ltac:(reflexivity) Ex.k Ex.k (fst Ex.final) (snd Ex.final) Ex.run_final)
    as ([_ H] & _). apply H. reflexivity.
Defined.
