(* ===== verification/RpcStreamLimits.v ===== *)
(** * What a stream may hold, and frames behind its end

    The buffers that an endpoint keeps are bounded whatever its peer sends; a frame behind the
    end of a stream can make an assertion fail. *)

From S2P Require Import Prelude Core RpcWire RpcWireSpec Rpc RpcSpec RpcMemory RpcStream RpcStreamSpec.
From stdpp Require Import base numbers option list.

#[local] Open Scope Z_scope.

Section Limits.
Context {TB : TemporaryBuffer} {LE : LeCodec} {S : Type} {SO : SemaphoreOps S} {Q : Type} {QO : QueueOps Q held_buf}.

(** A frame: the end of the stream, or a buffer whose size is that of its bytes. *)
Definition framed (rb : rcv_buf) : Prop := is_end rb = true \/ r_size rb = zlen (flat (r_bufs rb)).

(** What an end receives, whatever the peer sends: any frames at all. *)
Inductive receive_step (e : endpoint S Q) : endpoint S Q -> Prop :=
  | receive_frame rb : framed rb -> stream_incoming e = None -> receive_step e (handle_stream_frame (Some rb) e)
  | receive_lost : receive_step e (handle_stream_frame None e)
  | receive_units e' : incoming_units e = Some e' -> receive_step e e'
  | receive_push e' : incoming_push e = Some e' -> receive_step e e'
  | receive_next e' r : source_next e = Some (e', r) -> receive_step e e'.

Inductive receive_run (k : conn) : endpoint S Q -> Prop :=
  | receive_start : receive_run k (endpoint_init k)
  | receive_more e e' : receive_run k e -> receive_step e e' -> receive_run k e'.

Definition incoming_held (i : option incoming) : list held_buf := match i with Some (WaitRoom b) => [b] | _ => [] end.
Definition held_all (e : endpoint S Q) : list held_buf :=
  source_bufs e ++ q_items (stream_queue e) ++ incoming_held (stream_incoming e).

(** A buffer holds the units of its size; an end may hold none. *)
Definition holds_units (b : held_buf) : Prop :=
  0 <= snd b /\ (is_end (fst b) = false -> snd b = stream_units (zlen (flat (r_bufs (fst b))))).

(** [u] units are out but with no buffer. *)
Record bounded (u : Z) (e : endpoint S Q) : Prop := {
  bd_units : sem_units (stream_sem e) + units (map snd (held_all e)) + u = max_stream_buffers_memory;
  bd_free : 0 <= sem_units (stream_sem e);
  bd_holds : Forall holds_units (held_all e);
  bd_incoming : forall b, stream_incoming e = Some (WaitUnits b) -> framed b;
  bd_size : q_max_size (stream_queue e) = max_queued_stream_buffers;
  bd_room : zlen (q_items (stream_queue e)) <= max_queued_stream_buffers }.

Lemma bounded_same u e e' : bounded u e -> stream_sem e' = stream_sem e -> held_all e' = held_all e ->
  stream_incoming e' = stream_incoming e -> stream_queue e' = stream_queue e -> bounded u e'.
Proof. intros [H1 H2 H3 H4 H5 H6] E1 E2 E3 E4. constructor; rewrite ?E1, ?E2, ?E3, ?E4; done. Qed.

Lemma close_source_bounded u e : bounded u e -> bounded u (close_source e).
Proof. intros H. unfold close_source. cbn zeta. destruct (sink_closed e); by eapply bounded_same. Qed.

Lemma framed_units b : framed b -> holds_units (b, stream_units (r_size b)) \/ (is_end b = true).
Proof.
  intros [|Hs]; [by right|left]. pose proof (zlen_nonneg (flat (r_bufs b))). unfold holds_units, stream_units, max_stream_buffers_memory. cbn [fst snd].
  rewrite Hs. split; [lia|done].
Qed.

Lemma framed_holds b : framed b -> holds_units (b, stream_units (r_size b)).
Proof.
  intros H. destruct (framed_units b H) as [|He]; [done|]. split; cbn [fst snd]; [|by rewrite He].
  unfold is_end in He. apply Z.eqb_eq in He. rewrite He. done.
Qed.

Lemma units_bounded e e' : bounded 0 e -> incoming_units e = Some e' -> bounded 0 e'.
Proof.
  intros [H1 H2 H3 H4 H5 H6]. unfold incoming_units. destruct (stream_incoming e) as [[b|b]|] eqn:Ei; try done.
  pose proof (sem_try_wait_spec (stream_sem e) (stream_units (r_size b))) as Ht. destruct (sem_try_wait _ _) as [a|]; [|done].
  destruct Ht as [Ht Ha]. cbn [mbind option_bind]. intros [= <-]. unfold held_all in *. rewrite Ei in *. cbn [incoming_held] in *. rewrite app_nil_r in *.
  constructor; unfold held_all; cbn [set_received stream_sem source_bufs stream_queue stream_incoming incoming_held]; try done.
  - rewrite Ha, app_assoc, map_app, units_app. cbn [map snd]. rewrite units_cons. change (units []) with 0. lia.
  - lia.
  - rewrite app_assoc. apply Forall_app. split; [done|]. apply Forall_singleton. by apply framed_holds, H4.
Qed.

Lemma push_bounded e e' : bounded 0 e -> incoming_push e = Some e' -> bounded 0 e'.
Proof.
  intros [H1 H2 H3 H4 H5 H6]. unfold incoming_push. destruct (stream_incoming e) as [[b|b]|] eqn:Ei; try done.
  unfold held_all in *. rewrite Ei in *. cbn [incoming_held] in *. rewrite app_assoc in *. rewrite map_app, units_app in H1.
  cbn [map] in H1. rewrite units_cons in H1. change (units []) with 0 in H1. apply Forall_app in H3 as [H3 Hb]. apply Forall_cons in Hb as [Hb _]. pose proof (proj1 Hb) as Hb0.
  destruct (stream_aborted e).
  - intros [= <-]. constructor; unfold held_all; cbn [set_received set_stconn stream_sem source_bufs stream_queue stream_incoming incoming_held];
      rewrite ?app_nil_r, ?sem_units_signal; try done; lia.
  - pose proof (q_push_spec b (stream_queue e)) as Hp. destruct (q_push b _) as [q|]; [|done]. destruct Hp as (Hl & Hq & Hm).
    cbn [mbind option_bind]. intros [= <-]. constructor; unfold held_all;
      cbn [set_received stream_sem source_bufs stream_queue stream_incoming incoming_held]; rewrite ?Hq, ?app_nil_r, ?app_assoc; try done.
    + rewrite map_app, units_app. cbn [map]. rewrite units_cons. change (units []) with 0. lia.
    + apply Forall_app. split; [done|]. by apply Forall_singleton.
    + congruence.
    + rewrite zlen_app. change (zlen [b]) with 1. lia.
Qed.

Lemma process_one_bounded e e' r : bounded 0 e -> process_one_buffer e = Some (e', r) -> bounded 0 e'.
Proof.
  intros [H1 H2 H3 H4 H5 H6]. unfold process_one_buffer, held_all in *. destruct (source_bufs e) as [|b l]; [done|]. intros [= <- _].
  cbn [app map] in H1. rewrite units_cons in H1. cbn [app] in H3. apply Forall_cons in H3 as [[Hb _] H3].
  constructor; unfold held_all; cbn [set_received stream_sem source_bufs stream_queue stream_incoming]; rewrite ?sem_units_signal; try done; lia.
Qed.

Lemma receive_bounded e e' : bounded 0 e -> source_bufs e = [] -> stream_receive e = Some e' -> bounded 0 e'.
Proof.
  intros [H1 H2 H3 H4 H5 H6] Eb. unfold stream_receive, held_all in *. rewrite Eb in *. cbn [app] in *.
  destruct (consume_spec (length (q_items (stream_queue e))) (stream_queue e) []) as (q & l & eof & -> & Hl & Hm & Hi & Hf); [lia|]. cbn [app].
  rewrite Hi in *. destruct eof as [b|].
  - rewrite <- app_assoc in *. cbn [app] in *. rewrite map_app, units_app in H1. cbn [map] in H1. rewrite units_cons, map_app, units_app in H1.
    apply Forall_app in H3 as [Hl1 H3]. apply Forall_cons in H3 as [[Hb _] H3]. rewrite zlen_app, zlen_cons in H6.
    pose proof (zlen_nonneg l). case_bool_decide as El.
    + subst l. intros [= <-]. cbn [map] in H1. change (units []) with 0 in H1. change (zlen []) with 0 in H6.
      constructor; unfold held_all; cbn [set_received stream_sem source_bufs stream_queue stream_incoming app]; rewrite ?sem_units_signal; try done;
        [rewrite map_app, units_app; lia|lia|congruence|lia].
    + case_bool_decide as Eq; [|done]. intros [= <-]. rewrite Eq in *. cbn [app map] in H1, H3. change (units []) with 0 in H1.
      pose proof (q_push_spec (end_marker, 0) q) as Hp. destruct (q_push (end_marker, 0) q) as [q2|].
      2:{ exfalso. rewrite Eq, Hm, H5 in Hp. unfold max_queued_stream_buffers in Hp. change (zlen []) with 0 in Hp. lia. }
      destruct Hp as (_ & Hp & Hm2). rewrite Eq in Hp. unfold default, id.
      constructor; unfold held_all; cbn [set_received stream_sem source_bufs stream_queue stream_incoming]; rewrite ?Hp, ?sem_units_signal; try done.
      * cbn [app]. rewrite map_app, units_app. cbn [map snd]. rewrite units_cons. lia.
      * lia.
      * apply Forall_app. split; [done|]. cbn [app]. by constructor.
      * congruence.
  - rewrite app_nil_r in *. intros [= <-]. constructor; unfold held_all; cbn [set_received stream_sem source_bufs stream_queue stream_incoming]; rewrite ?Hf; try done.
    congruence.
Qed.

Lemma source_next_bounded e e' r : bounded 0 e -> source_next e = Some (e', r) -> bounded 0 e'.
Proof.
  intros H. unfold source_next. destruct (source_bufs e) as [|b l] eqn:Eb; [|by apply process_one_bounded].
  destruct (source_closed e); [by intros [= <- _]|]. destruct (stream_aborted e); [intros [= <- _]; by apply close_source_bounded|].
  case_bool_decide; [done|]. destruct (stream_receive e) as [e1|] eqn:E; [|by intros [= <- _]]. apply receive_bounded in E; [|done|done].
  destruct (source_bufs e1); [intros [= <- _]; by apply close_source_bounded|]. by apply process_one_bounded.
Qed.

Lemma receive_run_bounded k e : receive_run k e -> bounded 0 e.
Proof.
  induction 1 as [|e e' _ IH Hs].
  - constructor; unfold held_all; cbn [endpoint_init stream_sem source_bufs stream_queue stream_incoming incoming_held app];
      rewrite ?q_items_make, ?q_max_size_make, ?sem_units_make; done.
  - destruct Hs as [rb Hf Hi| |e' E|e' E|e' r E].
    + destruct IH as [H1 H2 H3 H4 H5 H6]. unfold held_all in *. rewrite Hi in *. constructor; try done. by intros b [= <-].
    + by eapply bounded_same.
    + by eapply units_bounded.
    + by eapply push_bounded.
    + by eapply source_next_bounded.
Qed.

(** The data that waits at an end. *)
Definition data_of (b : held_buf) : option (list Z) := if is_end (fst b) then None else Some (flat (r_bufs (fst b))).
Definition waiting_data (e : endpoint S Q) : list (list Z) := omap data_of (held_all e).

Lemma data_units l : Forall holds_units l -> units (map (fun d => stream_units (zlen d)) (omap data_of l)) <= units (map snd l).
Proof.
  induction 1 as [|b l [Hb0 Hb] _ IH]; [done|]. cbn [map]. rewrite units_cons. change (omap data_of (b :: l)) with (match data_of b with Some d => d :: omap data_of l | None => omap data_of l end).
  unfold data_of at 1. destruct (is_end (fst b)) eqn:E; [lia|]. cbn [map]. rewrite units_cons, <- Hb by done. lia.
Qed.

(** C28. What a stream holds, whatever frames the peer sends and however slowly the
    source is read: at most 50 buffers wait in the queue, and the data that waits takes
    at most 100 KiB together, a larger buffer counting as 100 KiB and so waiting
    alone but for empty ones. *)
Theorem rpc_stream_bounded k e : receive_run k e ->
  zlen (q_items (stream_queue e)) <= 50 /\
  units (map (fun d => Z.min (zlen d) (100 * 1024)) (waiting_data e)) <= 100 * 1024.
Proof.
  intros H. destruct (receive_run_bounded k e H) as [H1 H2 H3 H4 H5 H6]. split; [done|]. pose proof (data_units _ H3) as Hd.
  unfold stream_units, max_stream_buffers_memory in *. unfold waiting_data. lia.
Qed.

(** C40. A frame behind the end of a stream: when the source has not taken a buffer
    that waits in front of the end, the assertion of [stream_receive] fails. *)
Theorem rpc_stream_frame_behind_end (e : endpoint S Q) l m b r :
  source_bufs e = [] -> source_closed e = false -> stream_aborted e = false ->
  q_items (stream_queue e) = l ++ m :: b :: r -> l <> [] -> Forall (fun x => is_end (fst x) = false) l -> is_end (fst m) = true ->
  source_next e = Some (e, SStopped).
Proof.
  intros E1 E2 E3 Eq Hl Hd Hm. unfold source_next. rewrite E1, E2, E3, Eq. rewrite bool_decide_eq_false_2 by (by destruct l).
  unfold stream_receive. destruct (consume_spec (length (q_items (stream_queue e))) (stream_queue e) []) as (q & l' & eof & -> & Hl' & _ & Hi & Hf); [lia|].
  cbn [app]. assert (Hs : exists m', eof = Some m' /\ l' = l /\ q_items q = b :: r).
  { rewrite Eq in Hi. clear Eq. revert l' Hl' Hi. induction Hd as [|x l Hx Hd IH]; [done|]. intros [|x' l'] Hl' Hi; cbn [app] in Hi.
    - destruct eof; [|done]. injection Hi as <- _. congruence.
    - injection Hi as <- Hi. apply Forall_cons in Hl' as [_ Hl']. destruct l as [|y l].
      + destruct l' as [|z l']; cbn [app] in Hi.
        * destruct eof as [m'|]; [|done]. injection Hi as <- Hi. by exists m.
        * injection Hi as <- _. apply Forall_cons in Hl' as [Hl' _]. congruence.
      + destruct (IH ltac:(done) l' Hl' Hi) as (m' & -> & -> & Hq). by exists m'. }
  destruct Hs as (m' & -> & -> & Hq). rewrite bool_decide_eq_false_2 by done. by rewrite Hq, bool_decide_eq_false_2.
Qed.
End Limits.

(** ** Concrete inputs *)

Module Ex.
Import Core.Impl.

Abbreviation end_state := (endpoint Z (queue_list held_buf)).

(** An end that reads the bytes of a frame and queues it; it stays as it is when
    something fails. *)
Definition frame_of_wire (bs : list Z) : rcv_buf :=
  match read_stream (I := list (list Z)) None [bs] with Some (Some rb, _) => rb | _ => rcv_buf_init end.
Definition take_frame (bs : list Z) (e : end_state) : end_state :=
  let e := handle_stream_frame (Some (frame_of_wire bs)) e in
  match incoming_units e with
  | Some e => match incoming_push e with Some e => e | None => e end
  | None => e
  end.

Definition fresh : end_state := endpoint_init (conn_init 1).
Definition one_item : end_state := Eval vm_compute in take_frame [2; 0; 0; 0; 5; 6] fresh.

Lemma one_item_run : receive_run (conn_init 1) one_item.
Proof.
  assert (H0 : receive_run (conn_init 1) fresh) by apply receive_start.
  assert (H1 : receive_run (conn_init 1) (handle_stream_frame (Some (frame_of_wire [2; 0; 0; 0; 5; 6])) fresh)).
  { apply (receive_more _ _ _ H0). apply receive_frame; [right; reflexivity|reflexivity]. }
  destruct (incoming_units (handle_stream_frame (Some (frame_of_wire [2; 0; 0; 0; 5; 6])) fresh)) as [e1|] eqn:E1; [|vm_compute in E1; discriminate].
  pose proof (receive_more _ _ _ H1 (receive_units _ _ E1)) as H2.
  vm_compute in E1. injection E1 as <-.
  match type of H2 with receive_run _ ?e => destruct (incoming_push e) as [e2|] eqn:E2; [|vm_compute in E2; discriminate] end.
  pose proof (receive_more _ _ _ H2 (receive_push _ _ E2)) as H3. vm_compute in E2. injection E2 as <-. exact H3.
Qed.

(** An empty fragment, the end of the stream, an empty fragment: twelve bytes. *)
Definition attacked : end_state := Eval vm_compute in
  take_frame [0; 0; 0; 0] (take_frame [255; 255; 255; 255] (take_frame [0; 0; 0; 0] fresh)).
End Ex.

Import Core.Impl.

Lemma rpc_stream_bounded_witness : waiting_data Ex.one_item = [[5; 6]] /\
  units (map (fun d => Z.min (zlen d) (100 * 1024)) (waiting_data Ex.one_item)) <= 100 * 1024.
Proof. split; [reflexivity|]. apply (rpc_stream_bounded (conn_init 1) Ex.one_item Ex.one_item_run). Defined.

Lemma rpc_stream_frame_behind_end_witness : length (q_items (stream_queue Ex.attacked)) = 3%nat /\
  source_next Ex.attacked = Some (Ex.attacked, SStopped).
Proof.
  split; [reflexivity|].
  apply (rpc_stream_frame_behind_end Ex.attacked [(rcv_buf_init, 0)] (end_marker, max_stream_buffers_memory) (rcv_buf_init, 0) []);
    try reflexivity; [discriminate|]. constructor; [reflexivity|constructor].
Defined.
