(* ===== verification/RpcLz4.v ===== *)
(** * Compression of RPC messages: src/rpc/lz4_compressor.cc, lz4_fragmented_compressor.cc

    The two compressors and the factory of several.  LZ4 is a library: what it promises is
    the class [Lz4].  Its streaming functions read the bytes of earlier blocks where those
    were, so the memory of the blocks is modelled: a [place] is a buffer's number and an
    offset in it. *)

From S2P Require Import Prelude Core RpcWire.
From stdpp Require Import base numbers option list.

#[local] Open Scope Z_scope.

(** ** Results: a call returns, throws, or has undefined behaviour *)

Inductive lz4_result (A : Type) := Returned (a : A) | Thrown | Undefined.
Arguments Returned {A} a.
Arguments Thrown {A}.
Arguments Undefined {A}.

#[global] Instance result_ret : MRet lz4_result := fun A a => Returned a.
#[global] Instance result_bind : MBind lz4_result := fun A B f o =>
  match o with Returned a => f a | Thrown => Thrown | Undefined => Undefined end.
#[global] Instance result_fmap : FMap lz4_result := fun A B f o => a ← o; Returned (f a).
Definition defined {A} (o : option A) : lz4_result A := match o with Some a => Returned a | None => Undefined end.
Definition thrown_if_none {A} (o : option A) : lz4_result A := match o with Some a => Returned a | None => Thrown end.
Definition returned_or {A} (x : A) (o : lz4_result A) : A := match o with Returned a => a | _ => x end.

(** ** <lz4.h> *)

Definition lz4_max_input_size : Z := 2113929216.
(** [LZ4_COMPRESSBOUND(isize)], [LZ4_compressBound(isize)] *)
Definition lz4_compressbound (isize : Z) : Z := if lz4_max_input_size <? isize then 0 else isize + isize / 255 + 16.

Record place := Place { p_buf : nat; p_off : Z }.
#[global] Instance place_eq : EqDecision place.
Proof. solve_decision. Defined.
Definition block_mem : Type := nat -> list Z.
Definition load (m : block_mem) (p : place) (n : Z) : list Z := slice (p_off p) n (m (p_buf p)).

(** Bytes of blocks that lie one behind the other. *)
Record run := Run { run_at : place; run_bytes : list Z }.
Definition no_run : run := Run (Place 0 0) [].
Definition run_end (r : run) : place := Place (p_buf (run_at r)) (p_off (run_at r) + zlen (run_bytes r)).
Definition extend (r : run) (p : place) (b : list Z) : run :=
  if decide (run_end r = p) then Run (run_at r) (run_bytes r ++ b) else Run p b.

Definition last_bytes (n : Z) (l : list Z) : list Z := drop (length l - Z.to_nat n) l.
(** The last [n] bytes of a run, or all of it, are still where they were. *)
Definition held (n : Z) (m : block_mem) (r : run) : Prop :=
  let k := Z.min n (zlen (run_bytes r)) in
  0 <= p_off (run_at r) /\ load m (Place (p_buf (run_at r)) (p_off (run_end r) - k)) k = last_bytes k (run_bytes r).
(** What is written from [p] on does not lie in a run. *)
Definition clear_of (r : run) (p : place) : Prop := p_buf p <> p_buf (run_at r) \/ p_off (run_end r) <= p_off p.

(** The runs that a decoder knows are the last and the one before. *)
Definition extend_decode (d : run * run) (q : place) (b : list Z) : run * run :=
  if decide (run_end (snd d) = q) then (fst d, extend (snd d) q b) else (snd d, Run q b).
(** What it can look up for a block that comes at [q]: where the last run goes on, the one
    before it too. *)
Definition available (d : run * run) (q : place) : list Z :=
  if decide (run_end (snd d) = q) then run_bytes (fst d) ++ run_bytes (snd d) else run_bytes (snd d).

(** [lz4_compress_default] gives what is written to a buffer of [LZ4_compressBound] bytes, and
    nothing where the function returns zero; the decoders are told how much room there is
    and give what they write, or fail.

    A block is compressed with the last 64 KB of the run in front of it, which have to be
    unmodified at that time; it is decompressed where the decoder's runs are unmodified, have
    at least these bytes, and the block is written behind them. *)
Class Lz4 := {
  lz4_compress_default : list Z -> list Z;
  lz4_decompress_safe : list Z -> Z -> option (list Z);
  lz4_default_undone : forall s n, 0 < zlen s <= lz4_max_input_size -> zlen s <= n ->
    0 < zlen (lz4_compress_default s) <= lz4_compressbound (zlen s) /\
    lz4_decompress_safe (lz4_compress_default s) n = Some s;

  lz4_stream : Type;
  lz4_reset_stream : lz4_stream;
  lz4_compress_fast_continue : lz4_stream -> block_mem -> place -> Z -> list Z * lz4_stream;
  lz4_dict : lz4_stream -> run;
  lz4_dict_reset : lz4_dict lz4_reset_stream = no_run;
  lz4_dict_continue : forall s m p n,
    lz4_dict (snd (lz4_compress_fast_continue s m p n)) = extend (lz4_dict s) p (load m p n);
  lz4_continue_size : forall s m p n,
    0 < n <= lz4_max_input_size -> zlen (load m p n) = n -> held 65536 m (lz4_dict s) ->
    0 < zlen (fst (lz4_compress_fast_continue s m p n)) <= lz4_compressbound n;

  lz4_stream_decode : Type;
  lz4_set_stream_decode : option lz4_stream_decode;
  lz4_decompress_safe_continue : lz4_stream_decode -> block_mem -> place -> list Z -> Z -> option (list Z * lz4_stream_decode);
  lz4_dict_decode : lz4_stream_decode -> run * run;
  lz4_set_stream_decode_ok : exists d, lz4_set_stream_decode = Some d /\ lz4_dict_decode d = (no_run, no_run);
  lz4_continue_undone : forall s m p n d m' q cap,
    0 < n <= lz4_max_input_size -> zlen (load m p n) = n -> n <= cap ->
    held 65536 m (lz4_dict s) ->
    (let '(r, r') := lz4_dict_decode d in
     held (zlen (run_bytes r)) m' r /\ held (zlen (run_bytes r')) m' r' /\ clear_of r q /\ clear_of r' q) ->
    last_bytes 65536 (run_bytes (lz4_dict s)) `suffix_of` available (lz4_dict_decode d) q ->
    exists d', lz4_decompress_safe_continue d m' q (fst (lz4_compress_fast_continue s m p n)) cap = Some (load m p n, d') /\
      lz4_dict_decode d' = extend_decode (lz4_dict_decode d) q (load m p n)
}.

Section Lz4.
Context {TB : TemporaryBuffer} {LE : LeCodec} {LZ : Lz4}.

(** A store at an offset of a buffer, which has to have the room. *)
Definition store (off : Z) (bs l : list Z) : lz4_result (list Z) :=
  if off + zlen bs <=? zlen l then Returned (splice off bs l) else Undefined.

(** ** [class reusable_buffer]: its bytes; a null pointer has none *)

Definition reserve_buffer (n : Z) (data : list Z) : list Z := if zlen data <? n then uninit n else data.

(** [prepare(input, size)]: the bytes from the pointer on, and the buffer. *)
Definition prepare (input : bufs) (size : Z) (data : list Z) : lz4_result (list Z * list Z) :=
  match input with
  | One b => Returned (b, data)
  | Many l => data ← store 0 (concat l) (reserve_buffer size data); Returned (data, data)
  end.

(** The loop of [with_reserved], over what is left. *)
Fixpoint copy_out (fuel : nat) (pos : list Z) : option (list (list Z)) :=
  if zlen pos =? 0 then Some []
  else match fuel with
  | O => None
  | S fuel =>
    let this_size := Z.min (zlen pos) chunk_size in
    l ← copy_out fuel (drop (Z.to_nat this_size) pos); Some (take (Z.to_nat this_size) pos :: l)
  end.

(** [with_reserved(max_size, fn)]: [fn] gives the buffer as it leaves it and how much of it is
    the result, with what else it changes. *)
Definition with_reserved {A} (max_size : Z) (fn : list Z -> lz4_result (list Z * Z * A)) (data : list Z) : lz4_result (Z * bufs * list Z * A) :=
  if max_size <=? chunk_size then
    '(dst, dst_size, x) ← fn (uninit max_size);
    let dst := take (Z.to_nat dst_size) dst in Returned (zlen dst, One dst, data, x)
  else
    '(data, dst_size, x) ← fn (reserve_buffer max_size data);
    let dst := take (Z.to_nat dst_size) data in
    if dst_size <=? chunk_size then Returned (zlen dst, One dst, data, x)
    else l ← defined (copy_out (S (Z.to_nat (dst_size / chunk_size))) dst); Returned (dst_size, Many l, data, x).

(** The buffers that a thread keeps. *)
Record lz4_buffers := Lz4Buffers { compressed_data : list Z; decompressed_data : list Z; buffer_use_count : Z }.
Definition drop_buffers_trigger : Z := 100000.
Definition after_buffer_use (t : lz4_buffers) : lz4_buffers :=
  if buffer_use_count t =? drop_buffers_trigger then Lz4Buffers [] [] 0
  else Lz4Buffers (compressed_data t) (decompressed_data t) (buffer_use_count t + 1).

(** ** [class lz4_compressor] *)

Definition lz4_compress (head_space : Z) (data : snd_buf) (t : lz4_buffers) : lz4_result (snd_buf * lz4_buffers) :=
  let head_space := head_space + 4 in
  let dst_size := head_space + lz4_compressbound (s_size data) in
  '(n, b, c, d) ← with_reserved dst_size (fun dst =>
      let src_size := s_size data in
      '(src, d) ← prepare (s_bufs data) src_size (decompressed_data t);
      let out := lz4_compress_default (take (Z.to_nat src_size) src) in
      if zlen out =? 0 then Thrown
      else
        dst ← store head_space out dst;
        dst ← store (head_space - 4) (write_le 4 src_size) dst;
        Returned (dst, zlen out + head_space, d)) (compressed_data t);
  Returned (SndBuf (u32 n) b, after_buffer_use (Lz4Buffers c d (buffer_use_count t))).

Definition lz4_decompress (data : rcv_buf) (t : lz4_buffers) : lz4_result (rcv_buf * lz4_buffers) :=
  if r_size data <? 4 then Returned (rcv_buf_init, t)
  else
    let src_size := r_size data in
    '(src, d) ← prepare (r_bufs data) (r_size data) (decompressed_data t);
    let dst_size := read_le 4 src in
    if dst_size =? 0 then Thrown
    else
      let src := drop 4 src in
      let src_size := src_size - 4 in
      '(n, b, c, _) ← with_reserved dst_size (fun dst =>
          out ← thrown_if_none (lz4_decompress_safe (take (Z.to_nat src_size) src) dst_size);
          dst ← store 0 out dst; Returned (dst, dst_size, tt)) (compressed_data t);
      Returned (RcvBuf (u32 n) b, after_buffer_use (Lz4Buffers c d (buffer_use_count t))).
(** ** [class lz4_fragmented_compressor] *)

Definition last_chunk_flag : Z := 2 ^ 31.
Definition chunk_header_size : Z := 4.
Definition data_chunk_size : Z := 32 * 1024.
Definition chunk_compress_bound : Z := lz4_compressbound data_chunk_size.
Definition chunk_maximum_compressed_size : Z := chunk_compress_bound + chunk_header_size.
Definition lin_buf_size : Z := 65536 + 14 + data_chunk_size.

(** The fragments from [src] on, its number, and the offset in it. *)
Record source := Source { src_rest : list (list Z); src_no : nat; src_offset : Z }.

Definition advance_src (n : Z) (s : source) : lz4_result source :=
  match src_rest s with
  | [] => Undefined
  | f :: rest =>
    let off := src_offset s + n in
    Returned (if zlen f <=? off then Source rest (S (src_no s)) 0 else Source (src_rest s) (src_no s) off)
  end.

(** The loop of [maybe_linearize]: the bytes that it copies.  A round that does not come to
    the end of its fragment is the last. *)
Fixpoint linearize_loop (rest : list (list Z)) (no : nat) (off left : Z) : lz4_result (list Z * source) :=
  if left =? 0 then Returned ([], Source rest no off)
  else match rest with
  | [] => Undefined
  | f :: rest' =>
    let this_size := Z.min (zlen f - off) left in
    if zlen f <=? off + this_size then
      '(bs, s) ← linearize_loop rest' (S no) 0 (left - this_size); Returned (slice off this_size f ++ bs, s)
    else Returned (slice off this_size f, Source rest no (off + this_size))
  end.

(** [src], [src_left], [temporary_chunk_data], [lin_off], the stream. *)
Record encoder := Encoder { e_src : source; e_left : Z; e_lin : list Z; e_lin_off : Z; e_stream : lz4_stream }.

(** The buffers of the blocks: [temporary_chunk_data], and the fragments. *)
Definition block_memory (frags : list (list Z)) (lin : list Z) : block_mem :=
  fun k => match k with O => lin | S i => nth i frags [] end.

Definition maybe_linearize (size : Z) (e : encoder) : lz4_result (place * encoder) :=
  let s := e_src e in
  match src_rest s with
  | [] => Undefined
  | f :: rest =>
    if zlen f - src_offset s <? size then
      let lin_off := if lin_buf_size - e_lin_off e <? size then 0 else e_lin_off e in
      '(bs, s) ← linearize_loop (src_rest s) (src_no s) (src_offset s) size;
      lin ← store lin_off bs (e_lin e);
      Returned (Place 0 lin_off, Encoder s (u32 (e_left e - size)) lin (lin_off + size) (e_stream e))
    else
      let p := Place (S (src_no s)) (src_offset s) in
      s ← advance_src data_chunk_size s;
      Returned (p, Encoder s (u32 (e_left e - data_chunk_size)) (e_lin e) 0 (e_stream e))
  end.

(** [dst_buffers] but the last, the last, and [dst_offset]. *)
Record dest := Dest { d_done : list (list Z); d_last : list Z; d_off : Z }.
Definition dest_bufs (d : dest) : list (list Z) := d_done d ++ [d_last d].
Definition trim_dest (d : dest) : list (list Z) := d_done d ++ [take (Z.to_nat (d_off d)) (d_last d)].

(** Another buffer, where the last has no room for [n] bytes. *)
Definition make_room (n : Z) (d : dest) : dest :=
  if zlen (d_last d) <? d_off d + n then Dest (trim_dest d) (uninit chunk_size) 0 else d.
(** A chunk is compressed behind its header. *)
Definition write_chunk (header : Z) (c : list Z) (d : dest) : lz4_result dest :=
  last ← store (d_off d) (write_le 4 (u32 header) ++ c) (d_last d);
  Returned (Dest (d_done d) last (d_off d + zlen c + chunk_header_size)).

Definition compress_block (frags : list (list Z)) (p : place) (n : Z) (e : encoder) : list Z * encoder :=
  let '(c, stream) := lz4_compress_fast_continue (e_stream e) (block_memory frags (e_lin e)) p n in
  (c, Encoder (e_src e) (e_left e) (e_lin e) (e_lin_off e) stream).

(** The loop over the chunks but the last; what is left decreases by [data_chunk_size]. *)
Fixpoint compress_loop (fuel : nat) (frags : list (list Z)) (e : encoder) (d : dest) (total : Z) : lz4_result (encoder * dest * Z) :=
  if negb (data_chunk_size <? e_left e) then Returned (e, d, total)
  else match fuel with
  | O => Undefined
  | S fuel =>
    let d := make_room chunk_maximum_compressed_size d in
    '(p, e) ← maybe_linearize data_chunk_size e;
    let '(c, e) := compress_block frags p data_chunk_size e in
    d ← write_chunk (zlen c) c d;
    compress_loop fuel frags e d (total + zlen c + chunk_header_size)
  end.

(** What follows the fast path; [lin] is what [temporary_chunk_data] holds from before. *)
Definition compress_chunks (lin : list Z) (head_space : Z) (data : snd_buf) : lz4_result snd_buf :=
  let frags := chunks_of (s_bufs data) in
  let e := Encoder (Source frags 0 0) (s_size data) lin 0 lz4_reset_stream in
  '(e, d, total) ← compress_loop (Z.to_nat (s_size data / data_chunk_size)) frags e (Dest [] (uninit (Z.max head_space chunk_size)) head_space) 0;
  let rem := e_left e in
  let d := make_room (lz4_compressbound rem + chunk_header_size) d in
  '(p, e) ← maybe_linearize rem e;
  let '(c, e) := compress_block frags p rem e in
  d ← write_chunk (Z.lor last_chunk_flag rem) c d;
  let total := total + zlen c + chunk_header_size + head_space in
  Returned (match trim_dest d with
            | [b] => SndBuf (u32 (zlen b)) (One b)
            | l => SndBuf (u32 total) (Many l)
            end).

Definition fragmented_compress (lin : list Z) (head_space : Z) (data : snd_buf) : lz4_result snd_buf :=
  let size_left := s_size data in
  let frags := chunks_of (s_bufs data) in
  match frags with
  | [] => Undefined
  | src :: _ =>
    let single_chunk_size := lz4_compressbound size_left + head_space + chunk_header_size in
    if (single_chunk_size <=? data_chunk_size) && (size_left <=? data_chunk_size) && (zlen src =? size_left) then
      let '(c, _) := lz4_compress_fast_continue lz4_reset_stream (block_memory frags lin) (Place 1 0) size_left in
      dst ← store head_space (write_le 4 (Z.lor last_chunk_flag size_left) ++ c) (uninit single_chunk_size);
      let dst := take (Z.to_nat (head_space + chunk_header_size + zlen c)) dst in
      Returned (SndBuf (u32 (zlen dst)) (One dst))
    else compress_chunks lin head_space data
  end.

(** *** [decompress] *)

(** The fragments from [src] on, [src_offset], [src_left]. *)
Record chunk_reader := Reader { rd_rest : list (list Z); rd_off : Z; rd_left : Z }.

(** The loop of [copy_src]: a round that leaves something to copy has come to the end of its
    fragment. *)
Fixpoint copy_loop (rest : list (list Z)) (off n : Z) : lz4_result (list Z * (list (list Z) * Z)) :=
  if n =? 0 then Returned ([], (rest, off))
  else match rest with
  | [] => Undefined
  | f :: rest' =>
    if off =? zlen f then copy_loop rest' 0 n
    else
      let this_size := Z.min n (zlen f - off) in
      if n - this_size =? 0 then Returned (slice off this_size f, (rest, off + this_size))
      else '(bs, s) ← copy_loop rest' 0 (n - this_size); Returned (slice off this_size f ++ bs, s)
  end.
(** [copy_src(dst, n)]: the bytes that the pointer points at; [dst] has the room. *)
Definition copy_src (n : Z) (r : chunk_reader) : lz4_result (list Z * chunk_reader) :=
  match rd_rest r with
  | [] => Undefined
  | f :: _ =>
    if n <=? zlen f - rd_off r then Returned (slice (rd_off r) n f, Reader (rd_rest r) (rd_off r + n) (u64 (rd_left r - n)))
    else '(bs, (rest, off)) ← copy_loop (rd_rest r) (rd_off r) n; Returned (bs, Reader rest off (u64 (rd_left r - n)))
  end.
Definition read_header (r : chunk_reader) : lz4_result (Z * chunk_reader) :=
  '(bs, r) ← copy_src chunk_header_size r; Returned (read_le 4 bs, r).

Definition is_last_chunk (header : Z) : bool := negb (Z.land header last_chunk_flag =? 0).
Definition without_flag (header : Z) : Z := Z.land header (2 ^ 31 - 1).

Definition dst_buf_size : Z := 64 * 1024.
(** [get_dest(size)]; no buffers are there at first. *)
Definition get_dest (size : Z) (d : option dest) : place * dest :=
  let d := match d with None => Dest [] (uninit dst_buf_size) 0 | Some d => d end in
  let d := if zlen (d_last d) - d_off d <? size then Dest (trim_dest d) (uninit dst_buf_size) 0 else d in
  (Place (length (d_done d)) (d_off d), Dest (d_done d) (d_last d) (d_off d + size)).

(** A block is decompressed where [get_dest] says. *)
Definition decompress_at (s : lz4_stream_decode) (src : list Z) (size : Z) (q : place) (d : dest) : lz4_result (lz4_stream_decode * dest) :=
  '(b, s) ← thrown_if_none (lz4_decompress_safe_continue s (fun k => nth k (dest_bufs d) []) q src size);
  last ← store (p_off q) b (d_last d);
  Returned (s, Dest (d_done d) last (d_off d)).
Definition decompress_block (s : lz4_stream_decode) (src : list Z) (size : Z) (d : option dest) : lz4_result (lz4_stream_decode * dest) :=
  let '(q, d) := get_dest size d in decompress_at s src size q d.

(** The chunks but the last; each has a header of four bytes. *)
Fixpoint decompress_loop (fuel : nat) (header : Z) (r : chunk_reader) (s : lz4_stream_decode) (d : option dest) (total_size : Z)
    : lz4_result (Z * chunk_reader * lz4_stream_decode * option dest * Z) :=
  if is_last_chunk header then Returned (header, r, s, d, total_size)
  else match fuel with
  | O => Undefined
  | S fuel =>
    '(src, r) ← copy_src header r;
    '(s, d) ← decompress_block s src data_chunk_size d;
    '(header, r) ← read_header r;
    decompress_loop fuel header r s (Some d) (total_size + data_chunk_size)
  end.

(** What follows the fast path. *)
Definition decompress_chunks (data : rcv_buf) (s : lz4_stream_decode) : lz4_result rcv_buf :=
  '(header, r) ← read_header (Reader (chunks_of (r_bufs data)) 0 (r_size data));
  '(header, r, s, d, total_size) ← decompress_loop (length (flat (r_bufs data))) header r s None 0;
  let header := without_flag header in
  let total_size := total_size + header in
  '(src, r) ← copy_src (rd_left r) r;
  '(s, d) ← decompress_block s src header d;
  Returned (match trim_dest d with
            | [b] => RcvBuf (u32 (zlen b)) (One b)
            | l => RcvBuf (u32 total_size) (Many l)
            end).

Definition fragmented_decompress (data : rcv_buf) : lz4_result rcv_buf :=
  if r_size data <? 4 then Returned rcv_buf_init
  else
    s ← thrown_if_none lz4_set_stream_decode;
    match r_bufs data with
    | One src =>
      let header := read_le 4 src in
      if is_last_chunk header then
        let header := without_flag header in
        let dst := uninit header in
        '(b, _) ← thrown_if_none (lz4_decompress_safe_continue s (fun _ => dst) (Place 0 0) (slice 4 (r_size data - 4) src) header);
        dst ← store 0 b dst; Returned (RcvBuf (u32 (zlen dst)) (One dst))
      else decompress_chunks data s
    | Many _ => decompress_chunks data s
    end.

(** ** The compressors and their factories

    An exception is not a buffer; what a compressor gives is what the call returns. *)

Definition name_lz4 : list Z := [76; 90; 52].
Definition name_lz4_fragmented : list Z := [76; 90; 52; 95; 70; 82; 65; 71; 77; 69; 78; 84; 69; 68].

Definition lz4_compressor (t t' : lz4_buffers) : compressor :=
  Compressor (fun head data => returned_or (SndBuf 0 (Many [])) (fst <$> lz4_compress head data t))
    (fun data => returned_or rcv_buf_init (fst <$> lz4_decompress data t')) name_lz4.
Definition lz4_fragmented_compressor (lin : list Z) : compressor :=
  Compressor (fun head data => returned_or (SndBuf 0 (Many [])) (fragmented_compress lin head data))
    (fun data => returned_or rcv_buf_init (fragmented_decompress data)) name_lz4_fragmented.

(** [factory::supported()], [factory::negotiate(feature, is_server)] *)
Definition lz4_factory (t t' : lz4_buffers) : compressor_factory :=
  CompressorFactory name_lz4 (fun feature _ => if decide (feature = name_lz4) then Some (lz4_compressor t t') else None).
Definition lz4_fragmented_factory (lin : list Z) : compressor_factory :=
  CompressorFactory name_lz4_fragmented
    (fun feature _ => if decide (feature = name_lz4_fragmented) then Some (lz4_fragmented_compressor lin) else None).
End Lz4.

(** ** [class multi_algo_compressor_factory]: rpc/multi_algo_compressor_factory.hh *)

Definition comma : Z := 44.
(** [boost::algorithm::join] with a comma, [boost::split] at every comma. *)
Fixpoint join_names (names : list (list Z)) : list Z :=
  match names with [] => [] | [n] => n | n :: names => n ++ comma :: join_names names end.
Fixpoint split_names (feature : list Z) : list (list Z) :=
  match feature with
  | [] => [[]]
  | c :: feature =>
    match split_names feature with
    | n :: names => if c =? comma then [] :: n :: names else (c :: n) :: names
    | [] => [[c]]
    end
  end.

(** The first that is there. *)
Fixpoint first_some {A B} (f : A -> option B) (l : list A) : option B :=
  match l with [] => None | a :: l => match f a with Some b => Some b | None => first_some f l end end.

Definition multi_negotiate (factories : list compressor_factory) (feature : list Z) (is_server : bool) : option compressor :=
  let names := split_names feature in
  if is_server then first_some (fun n => first_some (fun f => f_negotiate f n is_server) factories) names
  else first_some (fun f => first_some (fun n => f_negotiate f n is_server) names) factories.
Definition multi_algo_compressor_factory (factories : list compressor_factory) : compressor_factory :=
  CompressorFactory (join_names (f_supported <$> factories)) (multi_negotiate factories).
