(* ===== verification/RpcLz4Spec.v ===== *)
(** * What is compressed is decompressed

    The two compressors keep what the connections rely on ([compressor_ok]): [lz4_undone],
    [lz4_fragmented_undone].  For the fragmented one, the blocks of a message form the
    relation [coded]; both ends are compared with it.  The several-algorithm factory: the
    sides agree on the client's first name that the server supports. *)

From S2P Require Import Prelude Core RpcWire RpcWireSpec RpcLz4.
From stdpp Require Import base numbers option list.

#[local] Open Scope Z_scope.

(** ** Byte strings *)

Lemma splice_at_start (bs l : list Z) : zlen bs <= zlen l -> exists z, splice 0 bs l = bs ++ z.
Proof. intros _. unfold splice. rewrite take_0. by eexists. Qed.

Lemma splice_here (a m z bs : list Z) off : off = zlen a -> zlen bs = zlen m -> splice off bs (a ++ m ++ z) = a ++ bs ++ z.
Proof.
  intros -> H. unfold splice, zlen in *. rewrite Nat2Z.id, take_app_length. f_equal. f_equal.
  replace (length a + length bs)%nat with (length (a ++ m)) by (rewrite length_app; lia). by rewrite app_assoc, drop_app_length.
Qed.

Lemma take_to_nat {A} (l k : list A) n : n = zlen l -> take (Z.to_nat n) (l ++ k) = l.
Proof. intros ->. unfold zlen. by rewrite Nat2Z.id, take_app_length. Qed.

Lemma drop_to_nat {A} (l k : list A) n : n = zlen l -> drop (Z.to_nat n) (l ++ k) = k.
Proof. intros ->. unfold zlen. by rewrite Nat2Z.id, drop_app_length. Qed.

Lemma flat_one b : flat (One b) = b.
Proof. apply app_nil_r. Qed.

Lemma compressbound_range n : 0 <= n <= lz4_max_input_size -> n + 16 <= lz4_compressbound n <= 2 ^ 31 - 1.
Proof.
  unfold lz4_compressbound, lz4_max_input_size. intros H. destruct (Z.ltb_spec 2113929216 n); [lia|].
  pose proof (Z.div_pos n 255 ltac:(lia) ltac:(lia)). pose proof (Z.div_le_mono n 2113929216 255 ltac:(lia) ltac:(lia)).
  change (2113929216 / 255) with 8289918 in *. lia.
Qed.

Lemma compressbound_mono n m : 0 <= n <= m -> m <= lz4_max_input_size -> lz4_compressbound n <= lz4_compressbound m.
Proof.
  unfold lz4_compressbound. intros H Hm. destruct (Z.ltb_spec lz4_max_input_size n), (Z.ltb_spec lz4_max_input_size m); try lia.
  pose proof (Z.div_le_mono n m 255). lia.
Qed.

Section Undone.
Context {TB : TemporaryBuffer} {LE : LeCodec} {LZ : Lz4}.

(** ** [lz4_compressor] *)

Lemma reserve_len n l : 0 <= n -> n <= zlen (reserve_buffer n l).
Proof. intros H. unfold reserve_buffer. destruct (Z.ltb_spec (zlen l) n); [by rewrite uninit_len|lia]. Qed.

Lemma store_here a m z bs off l : l = a ++ m ++ z -> off = zlen a -> zlen bs = zlen m -> store off bs l = Returned (a ++ bs ++ z).
Proof.
  intros -> Ho Hb. unfold store. rewrite !zlen_app. pose proof (zlen_nonneg z). destruct (Z.leb_spec (off + zlen bs) (zlen a + (zlen m + zlen z))); [|lia].
  by rewrite (splice_here a m z bs off Ho Hb).
Qed.

(** A store splits the buffer. *)
Lemma store_spec off bs l : 0 <= off -> off + zlen bs <= zlen l ->
  store off bs l = Returned (take (Z.to_nat off) l ++ bs ++ drop (Z.to_nat (off + zlen bs)) l).
Proof.
  intros H0 H. unfold store. destruct (Z.leb_spec (off + zlen bs) (zlen l)); [|lia]. unfold splice.
  replace (Z.to_nat (off + zlen bs)) with (Z.to_nat off + length bs)%nat by (unfold zlen; lia). done.
Qed.

Lemma prepare_spec input size data : size = zlen (flat input) -> exists z data', prepare input size data = Returned (flat input ++ z, data').
Proof.
  intros ->. destruct input as [b|l]; simpl.
  - exists [], data. by rewrite flat_one, app_nil_r.
  - change (flat (Many l)) with (concat l). pose proof (zlen_nonneg (concat l)). pose proof (reserve_len (zlen (concat l)) data).
    rewrite store_spec by lia. by eexists _, _.
Qed.

Lemma copy_out_spec fuel : forall pos, zlen pos <= Z.of_nat fuel * chunk_size ->
  exists l, copy_out fuel pos = Some l /\ concat l = pos /\ (0 < zlen pos -> exists k, l = take (Z.to_nat (Z.min (zlen pos) chunk_size)) pos :: k).
Proof.
  induction fuel as [|fuel IH]; intros pos Hp; cbn [copy_out]; pose proof (zlen_nonneg pos); unfold chunk_size in *;
    (destruct (Z.eqb_spec (zlen pos) 0) as [E|E]; [exists []; rewrite E; apply zlen_0_nil in E as ->; by split_and!|]); [lia|].
  destruct (IH (drop (Z.to_nat (Z.min (zlen pos) (128 * 1024))) pos)) as (l & -> & Hl & _); [rewrite zlen_drop by lia; lia|].
  eexists. split; [done|]. split; [|intros _; by eexists]. simpl. rewrite Hl. apply take_drop.
Qed.

(** What [with_reserved] gives is what the function wrote. *)
Lemma with_reserved_spec {A} (P : list Z -> Prop) max_size (fn : list Z -> lz4_result (list Z * Z * A)) data x :
  0 <= max_size ->
  (forall buf, max_size <= zlen buf -> exists out z, fn buf = Returned (out ++ z, zlen out, x) /\ 0 < zlen out /\ P out) ->
  exists out b data', with_reserved max_size fn data = Returned (zlen out, b, data', x) /\ P out /\ flat b = out /\
    match b with One _ => True | Many l => exists k, l = take (Z.to_nat (Z.min (zlen out) chunk_size)) out :: k end.
Proof.
  intros Hm Hf. unfold with_reserved. destruct (Z.leb_spec max_size chunk_size).
  - destruct (Hf (uninit max_size)) as (out & z & -> & Ho & HP); [by rewrite uninit_len|]. cbn [mbind result_bind]. rewrite take_to_nat by done.
    eexists out, _, _. split; [done|]. split; [done|]. split; [apply flat_one|done].
  - destruct (Hf (reserve_buffer max_size data)) as (out & z & -> & Ho & HP); [by apply reserve_len|]. cbn [mbind result_bind]. rewrite take_to_nat by done.
    destruct (Z.leb_spec (zlen out) chunk_size).
    + eexists out, _, _. split; [done|]. split; [done|]. split; [apply flat_one|done].
    + destruct (copy_out_spec (S (Z.to_nat (zlen out / chunk_size))) out) as (l & -> & Hl & Hk).
      { unfold chunk_size in *. pose proof (Z.mod_pos_bound (zlen out) (128 * 1024) ltac:(lia)). pose proof (Z.div_mod (zlen out) (128 * 1024) ltac:(lia)).
        pose proof (Z.div_pos (zlen out) (128 * 1024) ltac:(lia) ltac:(lia)). lia. }
      cbn [mbind result_bind defined]. eexists out, _, _. split; [done|]. split; [done|]. split; [done|]. by apply Hk.
Qed.

Lemma lz4_compress_spec head data t :
  0 <= head -> s_size data = zlen (flat (s_bufs data)) -> 0 < s_size data <= lz4_max_input_size ->
  exists h n b t', lz4_compress head data t = Returned (SndBuf (u32 n) b, t') /\ zlen h = head /\ n = zlen (flat b) /\
    flat b = h ++ write_le 4 (s_size data) ++ lz4_compress_default (flat (s_bufs data)) /\
    match b with One _ => True | Many l => exists k, l = take (Z.to_nat (Z.min n chunk_size)) (flat b) :: k end.
Proof.
  intros Hh Hs Hz. destruct (lz4_default_undone (flat (s_bufs data)) (s_size data)) as [Hc _]; [lia|lia|].
  set (c := lz4_compress_default _) in *. pose proof (compressbound_range (s_size data) ltac:(lia)). rewrite <- Hs in Hc.
  unfold lz4_compress.
  destruct (prepare_spec (s_bufs data) (s_size data) (decompressed_data t) Hs) as (z & d & Ep).
  match goal with |- context [with_reserved ?m ?fn ?dt] =>
    destruct (with_reserved_spec (fun out => exists h, zlen h = head /\ out = h ++ write_le 4 (s_size data) ++ c) m fn dt d ltac:(lia))
      as (out & b & cd & -> & (h & Hl & Ho) & Hb & Hk) end.
  { intros buf Hbuf. rewrite Ep. cbn [mbind result_bind]. rewrite take_to_nat by done. fold c.
    destruct (Z.eqb_spec (zlen c) 0); [lia|]. rewrite store_spec by lia. cbn [mbind result_bind].
    rewrite (store_here (take (Z.to_nat head) buf) (slice head 4 buf) (c ++ drop (Z.to_nat (head + 4 + zlen c)) buf)).
    - cbn [mbind result_bind]. exists (take (Z.to_nat head) buf ++ write_le 4 (s_size data) ++ c), (drop (Z.to_nat (head + 4 + zlen c)) buf).
      assert (zlen (take (Z.to_nat head) buf) = head) as Hh' by (apply zlen_take; lia).
      assert (zlen (take (Z.to_nat head) buf ++ write_le 4 (s_size data) ++ c) = zlen c + (head + 4)) as Hn
        by (rewrite !zlen_app, zlen_write_le, Hh'; lia).
      rewrite Hn. split; [by rewrite <- !app_assoc|]. split; [lia|by eexists].
    - unfold slice. rewrite (app_assoc (take (Z.to_nat head) buf)), take_take_drop. by replace (Z.to_nat head + Z.to_nat 4)%nat with (Z.to_nat (head + 4)) by lia.
    - rewrite zlen_take; lia.
    - rewrite zlen_write_le, zlen_slice; lia. }
  cbn [mbind result_bind]. eexists h, (zlen out), b, _. split_and!; [done|done|by rewrite Hb|by rewrite Hb|].
  destruct b; [done|]. by rewrite Hb.
Qed.

Lemma lz4_decompress_spec m data t :
  0 < zlen m <= lz4_max_input_size -> flat (r_bufs data) = write_le 4 (zlen m) ++ lz4_compress_default m -> r_size data = zlen (flat (r_bufs data)) ->
  exists b t', lz4_decompress data t = Returned (RcvBuf (zlen m) b, t') /\ flat b = m.
Proof.
  intros Hm Hf Hs. destruct (lz4_default_undone m (zlen m)) as [Hc Hd]; [done|lia|]. set (c := lz4_compress_default m) in *.
  unfold lz4_decompress. rewrite Hs, Hf, zlen_app, zlen_write_le. destruct (Z.ltb_spec (Z.of_nat 4 + zlen c) 4); [lia|].
  destruct (prepare_spec (r_bufs data) (r_size data) (decompressed_data t) Hs) as (z & d & Ep).
  rewrite Hs, Hf, zlen_app, zlen_write_le in Ep. rewrite Ep. cbn [mbind result_bind]. rewrite <- app_assoc.
  unfold lz4_max_input_size in *. rewrite read_write_le_small by (change (2 ^ (8 * Z.of_nat 4)) with (2 ^ 32); lia). destruct (Z.eqb_spec (zlen m) 0); [lia|].
  rewrite (drop_write_le 4), take_to_nat by lia. rewrite Hd.
  match goal with |- context [with_reserved ?x ?fn ?dt] => destruct (with_reserved_spec (fun out => out = m) x fn dt tt ltac:(lia)) as (out & b & cd & -> & -> & Hb & _) end.
  { intros buf Hbuf. cbn [thrown_if_none mbind result_bind]. rewrite store_spec by lia. cbn [mbind result_bind]. eexists m, _. split; [done|]. split; [lia|done]. }
  cbn [mbind result_bind]. rewrite wrap_small by lia. by eexists _, _.
Qed.

(** Every message is undone, whatever the buffers of the two threads hold. *)
Theorem lz4_undone t t' : compressor_ok (lz4_compressor t t').
Proof.
  intros b f r Hm Hz. unfold compressor_limit in Hz. pose proof (message_flat _ _ _ Hm) as Hflat. destruct Hm as [Hsize _].
  assert (0 < s_size b <= lz4_max_input_size) as Hs by (unfold lz4_max_input_size; lia).
  destruct (lz4_compress_spec 4 b t) as (h & n & b1 & t1 & Ec & Hh & Hn & Hb1 & Hk); [lia|congruence|done|].
  rewrite Hflat in Hb1. destruct (lz4_default_undone (f ++ r) (zlen (f ++ r))) as [Hc _]; [rewrite <- Hsize; done|lia|].
  pose proof (compressbound_range _ (conj (zlen_nonneg (f ++ r)) (eq_ind _ (fun z => z <= _) (proj2 Hs) _ Hsize))).
  set (c := lz4_compress_default (f ++ r)) in *. cbn [c_compress c_decompress lz4_compressor]. rewrite Ec.
  assert (zlen (flat b1) = 8 + zlen c) as Hl by (rewrite Hb1, !zlen_app, zlen_write_le, Hh; lia).
  assert (exists f' r', match b1 with One c => c = f' /\ r' = [] | Many (c :: k) => c = f' /\ concat k = r' | Many [] => False end /\ 4 <= zlen f')
    as (f' & r' & Hfr & Hf4).
  { destruct b1 as [x|l].
    - exists x, []. rewrite flat_one in Hl. split; [done|lia].
    - destruct Hk as (k & ->). eexists _, _. split; [done|]. rewrite zlen_take; unfold chunk_size; lia. }
  assert (flat b1 = f' ++ r') as Hfl.
  { destruct b1 as [x|[|x l]]; [|done|]; [destruct Hfr as [-> ->]; by rewrite flat_one, app_nil_r|by destruct Hfr as [-> <-]]. }
  exists f', r', (write_le 4 (s_size b) ++ c). cbn [returned_or fmap result_fmap mbind result_bind fst]. split.
  { split; cbn [s_size s_bufs]; [|done]. rewrite <- Hfl, Hn. apply wrap_small. lia. }
  split; [done|]. split; [rewrite <- Hfl, Hb1; by apply (drop_to_nat h _ 4)|]. split; [rewrite zlen_app, zlen_write_le; lia|].
  intros rb Hr Hrs. rewrite Hsize in Hr. destruct (lz4_decompress_spec (f ++ r) rb t') as (b2 & t2 & -> & Hb2); [by rewrite <- Hsize|done|congruence|done].
Qed.

(** ** Blocks in memory *)

Lemma suffix_last n (r a h : list Z) : r `suffix_of` h -> a `suffix_of` h -> Z.min n (zlen h) <= zlen a -> last_bytes n r `suffix_of` a.
Proof.
  intros [h1 ->] [h2 E] Hn. unfold last_bytes, zlen in *.
  assert (drop (length r - Z.to_nat n) r = drop (length h1 + (length r - Z.to_nat n)) (h1 ++ r)) as ->
    by (by rewrite <- drop_drop, drop_app_length).
  pose proof (f_equal length E) as El. rewrite !length_app in El. rewrite length_app in Hn. rewrite E.
  exists (take (length h1 + (length r - Z.to_nat n) - length h2) a). rewrite drop_app_ge by lia. by rewrite take_drop.
Qed.

Lemma extend_suffix r p b h : run_bytes r `suffix_of` h -> run_bytes (extend r p b) `suffix_of` h ++ b.
Proof.
  intros [k ->]. unfold extend. case_decide; simpl; [exists k|exists (k ++ run_bytes r)]; by rewrite ?app_assoc.
Qed.

(** The last bytes of a list are those of a run that it ends with. *)
Lemma last_bytes_all l : last_bytes (zlen l) l = l.
Proof. unfold last_bytes, zlen. by replace (length l - Z.to_nat (Z.of_nat (length l)))%nat with 0%nat by lia. Qed.

(** A run whose bytes are in memory as a whole. *)
Definition in_memory (m : block_mem) (r : run) : Prop :=
  0 <= p_off (run_at r) /\ load m (run_at r) (zlen (run_bytes r)) = run_bytes r.

Lemma in_memory_held n m r : 0 <= n -> in_memory m r -> held n m r.
Proof.
  intros Hn [H0 H]. split; [done|]. unfold run_end, load in *. cbn [p_buf p_off]. set (k := Z.min n (zlen (run_bytes r))).
  pose proof (zlen_nonneg (run_bytes r)). unfold last_bytes.
  replace (length (run_bytes r) - Z.to_nat k)%nat with (Z.to_nat (zlen (run_bytes r) - k)) by (unfold zlen in *; lia).
  transitivity (drop (Z.to_nat (zlen (run_bytes r) - k)) (slice (p_off (run_at r)) (zlen (run_bytes r)) (m (p_buf (run_at r))))); [|by rewrite H].
  rewrite drop_slice by lia. f_equal; lia.
Qed.

(** ** The chain of blocks *)

Inductive coded : lz4_stream -> list (list Z) -> list (list Z) -> Prop :=
  | coded_nil s : coded s [] []
  | coded_cons s m p b bs cs : 0 < zlen b <= data_chunk_size -> load m p (zlen b) = b -> held 65536 m (lz4_dict s) ->
      coded (snd (lz4_compress_fast_continue s m p (zlen b))) bs cs ->
      coded s (b :: bs) (fst (lz4_compress_fast_continue s m p (zlen b)) :: cs).

(** What is written: the chunks but the last, and the last. *)
Definition wire (cs : list (list Z)) (n : Z) (c : list Z) : list Z :=
  concat ((fun c => write_le 4 (zlen c) ++ c) <$> cs) ++ write_le 4 (last_chunk_flag + n) ++ c.

(** ** The source of the compressor *)

Definition src_at (frags : list (list Z)) (rem : list Z) (s : source) : Prop :=
  src_rest s = drop (src_no s) frags /\ 0 <= src_offset s /\
  match src_rest s with [] => src_offset s = 0 | f :: _ => src_offset s <= zlen f end /\
  rem = drop (Z.to_nat (src_offset s)) (concat (src_rest s)).

Lemma src_at_split frags rem f rest no off : src_at frags rem (Source (f :: rest) no off) ->
  nth no frags [] = f /\ src_at frags (concat rest) (Source rest (S no) 0) /\ 0 <= off <= zlen f /\ rem = drop (Z.to_nat off) f ++ concat rest.
Proof.
  intros (H1 & H2 & H3 & ->). cbn [src_rest src_no src_offset] in *. simpl. rewrite drop_app_le by (unfold zlen in *; lia).
  assert (frags !! no = Some f) as Hf by (rewrite <- (Nat.add_0_r no), <- lookup_drop, <- H1; done).
  split; [by apply nth_lookup_Some|]. split; [|split; [lia|done]]. split; [|split_and!; [done| |done]].
  - cbn [src_rest src_no]. rewrite (drop_S frags f no Hf) in H1. by injection H1.
  - cbn. destruct rest as [|g rest]; [done|]. apply zlen_nonneg.
Qed.

Lemma src_at_within frags rem f rest no off n :
  src_at frags rem (Source (f :: rest) no off) -> 0 <= n <= zlen f - off ->
  slice off n f = take (Z.to_nat n) rem /\
  src_at frags (drop (Z.to_nat n) rem) (if zlen f <=? off + n then Source rest (S no) 0 else Source (f :: rest) no (off + n)).
Proof.
  intros H Hn. destruct (src_at_split _ _ _ _ _ _ H) as (Hf & Hr & Ho & ->). pose proof H as (H1 & _).
  pose proof (zlen_drop f off ltac:(lia)) as Hd. split.
  - unfold slice. rewrite take_app_le; [done|]. unfold zlen in *. lia.
  - destruct (Z.leb_spec (zlen f) (off + n)).
    + by rewrite drop_to_nat by lia.
    + split_and!; cbn [src_rest src_no src_offset]; [done|lia|lia|]. simpl. unfold zlen in *.
      rewrite !drop_app_le by lia. rewrite drop_drop. do 2 f_equal. lia.
Qed.

Lemma linearize_spec frags rest : forall no off left rem,
  src_at frags rem (Source rest no off) -> 0 <= left <= zlen rem ->
  exists s, linearize_loop rest no off left = Returned (take (Z.to_nat left) rem, s) /\ src_at frags (drop (Z.to_nat left) rem) s.
Proof.
  induction rest as [|f rest IH]; intros no off left rem H Hl; cbn [linearize_loop];
    (destruct (Z.eqb_spec left 0) as [->|Hl0]; [by eexists|]).
  - destruct H as (_ & _ & _ & ->). cbn in Hl. rewrite drop_nil in Hl. change (zlen []) with 0 in Hl. lia.
  - destruct (src_at_split _ _ _ _ _ _ H) as (_ & Hr & Ho & E).
    destruct (src_at_within _ _ _ _ _ _ (Z.min (zlen f - off) left) H ltac:(lia)) as (-> & Hs). set (n := Z.min (zlen f - off) left) in *.
    assert (zlen rem = zlen f - off + zlen (concat rest)) as Hz by (rewrite E, zlen_app, zlen_drop by lia; done).
    destruct (Z.leb_spec (zlen f) (off + n)).
    + assert (drop (Z.to_nat n) rem = concat rest) as Hd.
      { rewrite E. apply drop_to_nat. rewrite zlen_drop; lia. }
      destruct (IH (S no) 0 (left - n) (concat rest) Hr ltac:(lia)) as (s & -> & Hs'). cbn [mbind result_bind]. exists s.
      rewrite <- Hd, take_take_drop, drop_drop in *. by replace (Z.to_nat n + Z.to_nat (left - n))%nat with (Z.to_nat left) in * by lia.
    + replace n with left by lia. eexists. split; [done|]. by replace left with n by lia.
Qed.

(** ** Where the compressor's dictionary is: in a fragment, or at the start of the buffer of
    chunks that are put together *)

Inductive dict_at (frags : list (list Z)) (lin : list Z) (lin_off : Z) (r : run) : Prop :=
  | dict_frag : lin_off = 0 -> (forall lin', in_memory (block_memory frags lin') r) -> run_bytes r = [] \/ p_buf (run_at r) <> 0%nat ->
      dict_at frags lin lin_off r
  | dict_lin k : lin_off = k * data_chunk_size -> 1 <= k <= 3 -> r = Run (Place 0 0) (take (Z.to_nat lin_off) lin) ->
      dict_at frags lin lin_off r.

Lemma slice_join {A} a n m (l : list A) : 0 <= a -> 0 <= n -> 0 <= m -> slice a n l ++ slice (a + n) m l = slice a (n + m) l.
Proof. intros. unfold slice. rewrite !Z2Nat.inj_add, <- drop_drop by lia. apply take_take_drop. Qed.

Lemma slice_here {A} (l k z : list A) n m : n = zlen l -> m = zlen k -> slice n m (l ++ k ++ z) = k.
Proof. intros -> ->. unfold slice. rewrite drop_to_nat by done. by apply take_to_nat. Qed.

Lemma slice_splice_after {A} (bs l : list A) off a n : 0 <= off -> off + zlen bs <= a -> off + zlen bs <= zlen l -> slice a n (splice off bs l) = slice a n l.
Proof.
  unfold slice, splice, zlen. intros H0 Ha Hl. f_equal. rewrite app_assoc, drop_app_ge; rewrite length_app, length_take; [|lia].
  rewrite drop_drop. f_equal. lia.
Qed.

Lemma last_of_take (l : list Z) n k : 0 <= k <= n -> n <= zlen l -> last_bytes k (take (Z.to_nat n) l) = slice (n - k) k l.
Proof.
  intros Hk Hn. unfold last_bytes, slice, zlen in *. rewrite skipn_firstn_comm, length_take. f_equal; [lia|f_equal; lia].
Qed.

Lemma lin_in_memory frags lin n : 0 <= n <= zlen lin -> in_memory (block_memory frags lin) (Run (Place 0 0) (take (Z.to_nat n) lin)).
Proof. intros Hn. split; [done|]. unfold load. cbn [run_at run_bytes p_off p_buf block_memory]. by rewrite zlen_take. Qed.

Lemma direct_dict frags lin lin_off r no off n :
  zlen lin = lin_buf_size -> dict_at frags lin lin_off r -> 0 <= off -> 0 <= n -> off + n <= zlen (nth no frags []) ->
  held 65536 (block_memory frags lin) r /\ dict_at frags lin 0 (extend r (Place (S no) off) (slice off n (nth no frags []))).
Proof.
  intros Hl H Ho Hn Hin.
  assert (in_memory (block_memory frags lin) r) as Hm.
  { destruct H as [_ H _|k -> Hk ->]; [apply H|apply lin_in_memory; unfold lin_buf_size, data_chunk_size in *; lia]. }
  split; [by apply in_memory_held|]. apply dict_frag; [done| |].
  - intros lin'. unfold extend. case_decide as He.
    + destruct H as [_ Hf _|k -> Hk ->]; [|by injection He]. destruct (Hf lin') as [H0 Hb].
      split; cbn [run_at run_bytes]; [done|]. unfold load, run_end in *. injection He as E1 E2. rewrite E1 in *. cbn [block_memory] in *.
      pose proof (zlen_nonneg (run_bytes r)). rewrite zlen_app, zlen_slice, <- slice_join by lia. by rewrite Hb, E2.
    + split; [done|]. unfold load. cbn [run_at run_bytes p_off p_buf block_memory]. by rewrite zlen_slice.
  - right. unfold extend. case_decide as He; [|done]. injection He as E1 _. cbn [run_at]. by rewrite E1.
Qed.

Lemma lin_dict frags lin lin_off r b :
  zlen lin = lin_buf_size -> dict_at frags lin lin_off r -> 0 < zlen b <= data_chunk_size ->
  let o := if lin_buf_size - lin_off <? zlen b then 0 else lin_off in
  exists lin', store o b lin = Returned lin' /\ zlen lin' = lin_buf_size /\ load (block_memory frags lin') (Place 0 o) (zlen b) = b /\
    held 65536 (block_memory frags lin') r /\
    (zlen b = data_chunk_size -> dict_at frags lin' (o + zlen b) (extend r (Place 0 o) b)).
Proof.
  intros Hl H Hb o.
  assert (0 <= o /\ o + zlen b <= zlen lin) as [Ho Hroom].
  { unfold o. destruct H as [-> _ _|k -> Hk ->]; unfold lin_buf_size, data_chunk_size in *; bcase; lia. }
  exists (splice o b lin). split; [unfold store; by destruct (Z.leb_spec (o + zlen b) (zlen lin)); [|lia]|].
  split; [by rewrite zlen_splice|]. split; [apply slice_splice; pose proof (zlen_nonneg b); lia|].
  assert (forall n, 0 <= n <= o -> take (Z.to_nat n) (splice o b lin) = take (Z.to_nat n) lin) as Hbefore.
  { intros n Hn. unfold splice. rewrite take_app_le by (rewrite length_take; unfold zlen in *; lia). rewrite take_take. f_equal. lia. }
  assert (take (Z.to_nat (o + zlen b)) (splice o b lin) = take (Z.to_nat o) lin ++ b) as Hto.
  { unfold splice. rewrite app_assoc. apply take_to_nat. rewrite zlen_app, zlen_take; lia. }
  destruct H as [-> Hm Hp|k -> Hk ->].
  - assert (o = 0) as Eo by (unfold o, lin_buf_size, data_chunk_size in *; bcase; lia). rewrite Eo in *. split; [by apply in_memory_held|].
    intros Hz. apply (dict_lin _ _ _ _ 1); [rewrite Hz; lia|lia|]. rewrite Hto. unfold extend. case_decide as He; [|done].
    destruct Hp as [Hp|Hp]; [|by injection He]. rewrite Hp in *. unfold run_end in He. rewrite Hp in He. destruct r as [[k a] bs]. cbn in *.
    injection He as -> He. change (zlen []) with 0 in He. by replace a with 0 by lia.
  - set (r := Run _ _). assert (run_end r = Place 0 (k * data_chunk_size)) as Er.
    { unfold run_end, r. cbn [run_at run_bytes p_off p_buf]. rewrite zlen_take; [done|]. unfold lin_buf_size, data_chunk_size in *; lia. }
    unfold extend. rewrite Er. destruct (Z.ltb_spec (lin_buf_size - k * data_chunk_size) (zlen b)) as [Hlt|Hge].
    + assert (k = 3) as -> by (unfold lin_buf_size, data_chunk_size in *; lia). split.
      * split; [done|]. rewrite Er. unfold r at 1 2 3. cbn [run_at run_bytes p_off p_buf].
        rewrite zlen_take by (unfold lin_buf_size, data_chunk_size in *; lia).
        assert (zlen (run_bytes r) = 3 * data_chunk_size) as Hzr by (unfold r; cbn [run_bytes]; rewrite zlen_take; unfold lin_buf_size, data_chunk_size in *; lia).
        rewrite Hzr. change (65536 `min` (3 * data_chunk_size)) with 65536. unfold load. cbn [p_off p_buf block_memory].
        rewrite slice_splice_after by (unfold o, data_chunk_size in *; lia). symmetry. apply last_of_take; unfold lin_buf_size, data_chunk_size in *; lia.
      * intros Hz. apply (dict_lin _ _ _ _ 1); [rewrite Hz; unfold o; lia|lia|]. rewrite Hto. case_decide as He; [by injection He|done].
    + split; [apply in_memory_held; [done|]|].
      * unfold r. rewrite <- (Hbefore (k * data_chunk_size)); [apply lin_in_memory; rewrite ?zlen_splice|]; unfold o; unfold lin_buf_size, data_chunk_size in *; lia.
      * intros Hz. apply (dict_lin _ _ _ _ (k + 1)); [rewrite Hz; unfold o; lia|unfold lin_buf_size, data_chunk_size in *; lia|].
        rewrite Hto. rewrite decide_True by done. done.
Qed.

(** ** Compressing *)

Record enc_at (frags : list (list Z)) (rem : list Z) (e : encoder) : Prop := {
  at_src : src_at frags rem (e_src e); at_left : e_left e = zlen rem; at_lin : zlen (e_lin e) = lin_buf_size;
  at_dict : dict_at frags (e_lin e) (e_lin_off e) (lz4_dict (e_stream e)) }.

Lemma maybe_linearize_spec frags rem e size :
  enc_at frags rem e -> 0 < size <= data_chunk_size -> size <= zlen rem < 2 ^ 32 ->
  exists p e', maybe_linearize size e = Returned (p, e') /\ e_stream e' = e_stream e /\
    load (block_memory frags (e_lin e')) p size = take (Z.to_nat size) rem /\
    held 65536 (block_memory frags (e_lin e')) (lz4_dict (e_stream e)) /\
    (size = data_chunk_size -> src_at frags (drop (Z.to_nat size) rem) (e_src e') /\ e_left e' = zlen rem - size /\ zlen (e_lin e') = lin_buf_size /\
       dict_at frags (e_lin e') (e_lin_off e') (extend (lz4_dict (e_stream e)) p (take (Z.to_nat size) rem))).
Proof.
  intros [Hs Hleft Hlin Hd] Hsize Hrem. unfold maybe_linearize. rewrite Hleft.
  destruct (e_src e) as [[|f rest] no off] eqn:Es; cbn [src_rest src_no src_offset].
  { destruct Hs as (_ & _ & _ & E). cbn in E. rewrite drop_nil in E. subst rem. change (zlen []) with 0 in Hrem. lia. }
  destruct (src_at_split _ _ _ _ _ _ Hs) as (Hf & _ & Ho & _).
  destruct (Z.ltb_spec (zlen f - off) size) as [Hlt|Hge].
  - destruct (linearize_spec frags (f :: rest) no off size rem Hs ltac:(lia)) as (s' & -> & Hs'). cbn [mbind result_bind].
    assert (zlen (take (Z.to_nat size) rem) = size) as Hz by (apply zlen_take; lia).
    destruct (lin_dict frags (e_lin e) (e_lin_off e) _ (take (Z.to_nat size) rem) Hlin Hd ltac:(lia)) as (lin' & Est & Hl' & Hload & Hheld & Hd').
    rewrite Hz in *. rewrite Est. cbn [mbind result_bind]. eexists _, _. split; [done|]. cbn [e_stream e_lin e_src e_left e_lin_off].
    split_and!; [done|done|done|]. intros Hc. split_and!; [done|apply wrap_small; unfold data_chunk_size in *; lia|done|by apply Hd'].
  - unfold advance_src. cbn [src_rest src_no src_offset mbind result_bind]. rewrite <- Hf in Hge.
    destruct (direct_dict frags (e_lin e) (e_lin_off e) _ no off size Hlin Hd ltac:(lia) ltac:(lia) ltac:(lia)) as [Hheld Hd'].
    destruct (src_at_within _ _ _ _ _ _ size Hs ltac:(rewrite <- Hf; lia)) as [Hsl Hs']. rewrite Hf, Hsl in Hd'.
    eexists _, _. split; [done|]. cbn [e_stream e_lin e_src e_left e_lin_off].
    split_and!; [done|by unfold load; cbn [p_buf p_off block_memory]; rewrite Hf|done|].
    intros ->. split_and!; [done|apply wrap_small; unfold data_chunk_size in *; lia|done|done].
Qed.

Definition dest_ok (head : Z) (d : dest) : Prop :=
  0 <= d_off d <= zlen (d_last d) /\ match d_done d with [] => head <= d_off d | f :: _ => head <= zlen f end.

Lemma dest_front head d : dest_ok head d -> exists f k, trim_dest d = f :: k /\ head <= zlen f.
Proof.
  intros [Ho H]. unfold trim_dest. destruct (d_done d) as [|f k]; simpl; eexists _, _; (split; [done|]); [|done]. rewrite zlen_take; lia.
Qed.

Lemma write_chunk_spec head n h c d :
  0 <= head -> dest_ok head d -> zlen c + 4 <= n <= chunk_size ->
  exists d', write_chunk h c (make_room n d) = Returned d' /\ dest_ok head d' /\
    concat (trim_dest d') = concat (trim_dest d) ++ write_le 4 (u32 h) ++ c.
Proof.
  intros Hh Hd Hn.
  assert (exists d1, make_room n d = d1 /\ dest_ok head d1 /\ d_off d1 + n <= zlen (d_last d1) /\ concat (trim_dest d1) = concat (trim_dest d))
    as (d1 & -> & [Ho Hf] & Hroom & Hc).
  { unfold make_room. destruct (Z.ltb_spec (zlen (d_last d)) (d_off d + n)); [|by eexists].
    eexists. split; [done|]. pose proof (zlen_nonneg c). destruct (dest_front head d Hd) as (f & k & E & Hk). split.
    - split; cbn [d_off d_last d_done]; [rewrite uninit_len; unfold chunk_size; lia|by rewrite E].
    - cbn [d_off d_last]. rewrite uninit_len by (unfold chunk_size; lia). split; [lia|].
      change (concat (trim_dest d ++ [take 0 (uninit chunk_size)]) = concat (trim_dest d)). rewrite concat_app. apply app_nil_r. }
  assert (zlen (write_le 4 (u32 h) ++ c) = zlen c + 4) as Hz by (rewrite zlen_app, zlen_write_le; lia). pose proof (zlen_nonneg c).
  unfold write_chunk. rewrite store_spec by lia. cbn [mbind result_bind]. rewrite Hz. eexists. split; [done|]. unfold chunk_header_size.
  set (last := take _ _ ++ _ ++ _).
  assert (take (Z.to_nat (d_off d1 + zlen c + 4)) last = take (Z.to_nat (d_off d1)) (d_last d1) ++ write_le 4 (u32 h) ++ c) as Hlast.
  { unfold last. rewrite app_assoc. apply take_to_nat. rewrite zlen_app, Hz, zlen_take; lia. }
  split.
  - split; cbn [d_off d_last d_done]; [|destruct (d_done d1); [lia|done]]. unfold last. rewrite !zlen_app, zlen_take, zlen_drop, zlen_write_le by lia. lia.
  - rewrite <- Hc. unfold trim_dest. cbn [d_off d_last d_done]. by rewrite Hlast, !concat_app, <- !app_assoc; cbn [concat]; rewrite !app_nil_r.
Qed.

(** A block that is compressed: what follows is coded from the stream that is left. *)
Lemma block_coded frags rem e size :
  enc_at frags rem e -> 0 < size <= data_chunk_size -> size <= zlen rem < 2 ^ 32 ->
  exists p e', maybe_linearize size e = Returned (p, e') /\
    let '(c, e2) := compress_block frags p size e' in
    0 < zlen c <= lz4_compressbound size /\
    (forall bs cs, coded (e_stream e2) bs cs -> coded (e_stream e) (take (Z.to_nat size) rem :: bs) (c :: cs)) /\
    (size = data_chunk_size -> enc_at frags (drop (Z.to_nat size) rem) e2).
Proof.
  intros He Hsize Hrem. destruct (maybe_linearize_spec frags rem e size He Hsize Hrem) as (p & e' & -> & Est & Hload & Hheld & Hnext).
  exists p, e'. split; [done|]. unfold compress_block. destruct (lz4_compress_fast_continue _ _ _ _) as [c st] eqn:Ec.
  assert (zlen (take (Z.to_nat size) rem) = size) as Hz by (apply zlen_take; lia). rewrite Est in Ec.
  split; [|split].
  - pose proof (lz4_continue_size (e_stream e) (block_memory frags (e_lin e')) p size) as H. rewrite Hload, Ec in H. apply H; [|done|done].
    unfold lz4_max_input_size, data_chunk_size in *. lia.
  - intros bs cs Hc. cbn [e_stream] in Hc.
    pose proof (coded_cons (e_stream e) (block_memory frags (e_lin e')) p (take (Z.to_nat size) rem) bs cs) as H. rewrite Hz, Ec in H.
    by apply H.
  - intros Hc. destruct (Hnext Hc) as (H1 & H2 & H3 & H4). split; cbn [e_src e_left e_lin e_lin_off e_stream]; [done| |done|].
    + rewrite H2, zlen_drop; lia.
    + pose proof (lz4_dict_continue (e_stream e) (block_memory frags (e_lin e')) p size) as H. rewrite Ec, Hload in H. cbn [snd] in H. by rewrite H.
Qed.

Definition mids (cs : list (list Z)) : list Z := concat ((fun c => write_le 4 (zlen c) ++ c) <$> cs).

Lemma mids_length cs : (length cs <= length (mids cs))%nat.
Proof.
  induction cs as [|c cs IH]; [done|]. change (mids (c :: cs)) with ((write_le 4 (zlen c) ++ c) ++ mids cs).
  pose proof (zlen_write_le 4 (zlen c)) as Hw. unfold zlen at 1 in Hw. rewrite !length_app. simpl. lia.
Qed.

Lemma chunk_bound : chunk_maximum_compressed_size = 32916.
Proof. done. Qed.

Lemma compress_loop_spec frags head fuel : 0 <= head -> forall e d total rem,
  enc_at frags rem e -> dest_ok head d -> 0 < zlen rem < 2 ^ 32 -> zlen rem <= (Z.of_nat fuel + 1) * data_chunk_size ->
  exists bs cs rem' e' d', compress_loop fuel frags e d total = Returned (e', d', total + zlen (mids cs)) /\
    rem = concat bs ++ rem' /\ enc_at frags rem' e' /\ dest_ok head d' /\ 0 < zlen rem' <= data_chunk_size /\
    Forall (fun b => zlen b = data_chunk_size) bs /\ concat (trim_dest d') = concat (trim_dest d) ++ mids cs /\
    zlen (mids cs) <= zlen bs * chunk_maximum_compressed_size /\
    (forall bs2 cs2, coded (e_stream e') bs2 cs2 -> coded (e_stream e) (bs ++ bs2) (cs ++ cs2)).
Proof.
  intros Hh. induction fuel as [|fuel IH]; intros e d total rem He Hd Hrem Hfuel; cbn [compress_loop]; rewrite (at_left _ _ _ He).
  1: destruct (Z.ltb_spec data_chunk_size (zlen rem)); [unfold data_chunk_size in *; lia|].
  2: destruct (Z.ltb_spec data_chunk_size (zlen rem)) as [Hlt|].
  1,3: cbn [negb]; exists [], [], rem, e, d; change (zlen (mids [])) with 0; rewrite Z.add_0_r, app_nil_r;
    split_and!; try done; lia.
  cbn [negb]. destruct (block_coded frags rem e data_chunk_size He) as (p & e1 & -> & Hb); [unfold data_chunk_size; lia|lia|].
  cbn [mbind result_bind]. destruct (compress_block _ _ _ _) as [c e2]. destruct Hb as (Hc & Hcoded & Hnext). fold chunk_compress_bound in Hc.
  destruct (write_chunk_spec head chunk_maximum_compressed_size (zlen c) c d Hh Hd) as (d1 & -> & Hd1 & E1).
  { unfold chunk_maximum_compressed_size, chunk_header_size. change chunk_compress_bound with 32912 in *. unfold chunk_size. lia. }
  cbn [mbind result_bind]. specialize (Hnext eq_refl).
  assert (zlen (drop (Z.to_nat data_chunk_size) rem) = zlen rem - data_chunk_size) as Hz by (apply zlen_drop; unfold data_chunk_size in *; lia).
  destruct (IH e2 d1 (total + zlen c + chunk_header_size) _ Hnext Hd1) as (bs & cs & rem' & e' & d' & -> & Er & He' & Hd' & Hr' & Hbs & Ed & Hn & Hco);
    [rewrite Hz; unfold data_chunk_size in *; lia..|].
  change chunk_compress_bound with 32912 in Hc.
  assert (mids (c :: cs) = (write_le 4 (zlen c) ++ c) ++ mids cs) as Em by done.
  assert (zlen (write_le 4 (zlen c) ++ c) = zlen c + 4) as Hw by (rewrite zlen_app, zlen_write_le; lia).
  exists (take (Z.to_nat data_chunk_size) rem :: bs), (c :: cs), rem', e', d'. split_and!; try done; try lia.
  - rewrite Em, zlen_app, Hw. unfold chunk_header_size. do 2 f_equal. lia.
  - simpl. by rewrite <- app_assoc, <- Er, take_drop.
  - constructor; [|done]. apply zlen_take. unfold data_chunk_size in *. lia.
  - rewrite Ed, E1, Em, <- app_assoc. rewrite wrap_small by lia. done.
  - rewrite chunk_bound in Hn |- *. rewrite Em, zlen_app, Hw, zlen_cons. lia.
  - intros bs2 cs2 H2. cbn [app]. by apply Hcoded, Hco.
Qed.

Lemma land_flag n : 0 <= n < 2 ^ 31 -> Z.land n last_chunk_flag = 0.
Proof.
  intros Hn. apply Z.bits_inj'. intros i Hi. rewrite Z.land_spec, Z.bits_0. unfold last_chunk_flag. rewrite Z.pow2_bits_eqb by lia.
  destruct (Z.eqb_spec 31 i) as [<-|]; [|apply andb_false_r]. by rewrite <- (Z.mod_small n (2 ^ 31)), Z.mod_pow2_bits_high by lia.
Qed.

Lemma lor_flag n : 0 <= n < 2 ^ 31 -> Z.lor last_chunk_flag n = last_chunk_flag + n.
Proof. intros Hn. symmetry. apply Z.add_nocarry_lor. rewrite Z.land_comm. by apply land_flag. Qed.

Lemma concat_len {A} n (l : list (list A)) : Forall (fun b => zlen b = n) l -> zlen (concat l) = zlen l * n.
Proof. induction 1 as [|b l Hb _ IH]; [done|]. simpl. rewrite zlen_app, zlen_cons, IH, Hb. lia. Qed.

(** A message that was compressed: its blocks, and what they were compressed to. *)
Definition compressed (head : Z) (m : list Z) (b : snd_buf) : Prop :=
  exists h bs cs x c f r, zlen h = head /\ message b f r /\ head <= zlen f /\ f ++ r = h ++ wire cs (zlen x) c /\
    coded lz4_reset_stream (bs ++ [x]) (cs ++ [c]) /\ concat bs ++ x = m /\ Forall (fun b => zlen b = data_chunk_size) bs /\
    0 < zlen x <= data_chunk_size /\ zlen (wire cs (zlen x) c) < 2 ^ 32 - 2 ^ 24 /\ 0 < zlen c.

Lemma enc_start frags lin size : zlen lin = lin_buf_size -> size = zlen (concat frags) ->
  enc_at frags (concat frags) (Encoder (Source frags 0 0) size lin 0 lz4_reset_stream).
Proof.
  intros Hl Hs. split; cbn [e_src e_left e_lin e_lin_off e_stream]; [|done|done|].
  - split_and!; cbn; [by rewrite drop_0|done|destruct frags; [done|apply zlen_nonneg]|by rewrite drop_0].
  - rewrite lz4_dict_reset. apply dict_frag; [done| |by left]. intros lin'. split; [done|]. done.
Qed.

Lemma compress_chunks_spec lin head data :
  zlen lin = lin_buf_size -> 0 <= head <= 2 ^ 20 -> s_size data = zlen (flat (s_bufs data)) -> 0 < s_size data <= lz4_max_input_size ->
  exists b, compress_chunks lin head data = Returned b /\ compressed head (flat (s_bufs data)) b.
Proof.
  intros Hlin Hh Hs Hz. unfold compress_chunks. set (frags := chunks_of (s_bufs data)). unfold lz4_max_input_size in Hz.
  pose proof (enc_start frags lin (s_size data) Hlin Hs) as He. set (e0 := Encoder _ _ _ _ _) in *.
  assert (dest_ok head (Dest [] (uninit (Z.max head chunk_size)) head)) as Hd.
  { split; cbn [d_off d_last d_done]; [rewrite uninit_len; unfold chunk_size; lia|lia]. }
  assert (zlen (uninit (Z.max head chunk_size)) = Z.max head chunk_size) as Hu by (apply uninit_len; unfold chunk_size; lia).
  pose proof (Z.mod_pos_bound (s_size data) data_chunk_size ltac:(done)). pose proof (Z.div_mod (s_size data) data_chunk_size ltac:(done)).
  pose proof (Z.div_pos (s_size data) data_chunk_size ltac:(lia) ltac:(done)).
  destruct (compress_loop_spec frags head (Z.to_nat (s_size data / data_chunk_size)) ltac:(lia) e0 _ 0 (concat frags) He Hd)
    as (bs & cs & rem & e & d & -> & Er & He' & Hd' & Hrem & Hbs & Ed & Hn & Hco); [change (concat frags) with (flat (s_bufs data)); unfold data_chunk_size in *; lia..|].
  cbn [mbind result_bind]. rewrite (at_left _ _ _ He').
  destruct (block_coded frags rem e (zlen rem) He' Hrem) as (p & e1 & -> & Hb); [unfold data_chunk_size in *; lia|].
  cbn [mbind result_bind]. destruct (compress_block _ _ _ _) as [c e2]. destruct Hb as (Hc & Hcoded & _).
  assert (lz4_compressbound (zlen rem) <= 32912) as Hbound.
  { change 32912 with (lz4_compressbound data_chunk_size). apply compressbound_mono; [lia|done]. }
  destruct (write_chunk_spec head (lz4_compressbound (zlen rem) + chunk_header_size) (Z.lor last_chunk_flag (zlen rem)) c d) as (d1 & -> & Hd1 & E1);
    [lia|done|unfold chunk_header_size, chunk_size; lia|].
  cbn [mbind result_bind]. eexists. split; [done|].
  destruct (dest_front head d1 Hd1) as (f & k & Ef & Hf).
  rewrite lor_flag in E1 by (unfold data_chunk_size in *; lia). rewrite wrap_small in E1 by (unfold last_chunk_flag, data_chunk_size in *; lia).
  set (h := take (Z.to_nat head) (uninit (Z.max head chunk_size))).
  assert (zlen h = head) as Hh' by (apply zlen_take; lia).
  assert (f ++ concat k = h ++ wire cs (zlen rem) c) as Hall.
  { change (f ++ concat k) with (concat (f :: k)). rewrite <- Ef, E1, Ed. unfold trim_dest at 1. cbn [d_done d_last d_off app concat].
    rewrite app_nil_r, <- app_assoc. done. }
  assert (zlen (mids cs) + (zlen c + 4) = zlen (wire cs (zlen rem) c)) as Hw by (unfold wire; rewrite !zlen_app, zlen_write_le; unfold mids; lia).
  assert (zlen (wire cs (zlen rem) c) < 2 ^ 32 - 2 ^ 24) as Hwire.
  { pose proof (f_equal zlen Er) as Hl. rewrite zlen_app, (concat_len data_chunk_size bs Hbs) in Hl. change (concat frags) with (flat (s_bufs data)) in Hl.
    rewrite chunk_bound in Hn. unfold data_chunk_size in *. lia. }
  exists h, bs, cs, rem, c, f, (concat k). split; [done|]. split; [|split_and!; try done; try lia].
  2:{ apply Hco. pose proof (Hcoded [] [] (coded_nil _)) as Hlast. rewrite take_ge in Hlast by (unfold zlen; lia). exact Hlast. }
  pose proof (f_equal zlen Hall) as Hl. rewrite (zlen_app h), Hh' in Hl. rewrite Ef.
  unfold message. destruct k as [|g k]; cbn [s_size s_bufs].
  - split; [|done]. cbn [concat] in *. rewrite app_nil_r in *. apply wrap_small. lia.
  - split; [|done]. unfold chunk_header_size. pose proof (zlen_nonneg (mids cs)). rewrite Hl, wrap_small; lia.
Qed.

Lemma no_run_in_memory m : in_memory m no_run.
Proof. split; done. Qed.

Lemma fragmented_compress_spec lin head data f0 r0 :
  zlen lin = lin_buf_size -> 0 <= head <= 2 ^ 20 -> message data f0 r0 -> 0 < zlen (f0 ++ r0) <= lz4_max_input_size ->
  exists b, fragmented_compress lin head data = Returned b /\ compressed head (f0 ++ r0) b.
Proof.
  intros Hlin Hh Hm Hz. pose proof (message_flat _ _ _ Hm) as Hflat. destruct Hm as [Hs Hb0]. rewrite <- Hflat in *. unfold fragmented_compress.
  destruct (chunks_of (s_bufs data)) as [|src rest] eqn:Ef; [unfold flat in Hz; rewrite Ef in Hz; change (zlen (concat [])) with 0 in Hz; lia|].
  destruct (_ && _) eqn:Efast; [|by apply compress_chunks_spec; lia].
  b2p. assert (flat (s_bufs data) = src ++ concat rest) as Efl by (unfold flat; by rewrite Ef).
  assert (concat rest = []) as Er by (apply zlen_0_nil; rewrite Efl, zlen_app in Hs; lia). rewrite Er, app_nil_r in Efl. rewrite Efl in *.
  set (m := block_memory (src :: rest) lin).
  assert (load m (Place 1 0) (s_size data) = src) as Hload by (rewrite Hs; apply slice_all).
  assert (held 65536 m (lz4_dict lz4_reset_stream)) as Hheld by (rewrite lz4_dict_reset; apply in_memory_held; [done|apply no_run_in_memory]).
  pose proof (lz4_continue_size lz4_reset_stream m (Place 1 0) (s_size data)) as Hc. rewrite Hload in Hc. specialize (Hc ltac:(lia) ltac:(lia) Hheld).
  pose proof (coded_cons lz4_reset_stream m (Place 1 0) src [] []) as Hco. rewrite <- Hs, Hload in Hco. specialize (Hco ltac:(lia) eq_refl Hheld (coded_nil _)).
  destruct (lz4_compress_fast_continue _ _ _ _) as [c st]. cbn [fst] in *. unfold data_chunk_size, chunk_header_size in *.
  rewrite lor_flag by lia. set (single := lz4_compressbound (s_size data) + head + 4) in *.
  assert (zlen (write_le 4 (last_chunk_flag + s_size data) ++ c) = zlen c + 4) as Hw by (rewrite zlen_app, zlen_write_le; lia).
  assert (zlen (uninit single) = single) as Hu by (apply uninit_len; lia).
  rewrite store_spec by lia. cbn [mbind result_bind]. rewrite app_assoc.
  set (h := take (Z.to_nat head) (uninit single)). assert (zlen h = head) as Hh' by (apply zlen_take; lia).
  rewrite take_to_nat by (rewrite zlen_app, Hw; lia). eexists. split; [done|].
  assert (zlen (h ++ write_le 4 (last_chunk_flag + s_size data) ++ c) = head + 4 + zlen c) as Hall by (rewrite zlen_app, Hw; lia).
  exists h, [], [], src, c, (h ++ write_le 4 (last_chunk_flag + s_size data) ++ c), []. rewrite <- Hs. split_and!; try done; try lia.
  - split; cbn [s_size s_bufs]; [|done]. rewrite app_nil_r. apply wrap_small. lia.
  - by rewrite app_nil_r.
  - change (wire [] (s_size data) c) with (write_le 4 (last_chunk_flag + s_size data) ++ c). lia.
Qed.

(** ** Decompressing *)

Definition rd_at (rem : list Z) (r : chunk_reader) : Prop :=
  0 <= rd_off r /\ match rd_rest r with [] => rd_off r = 0 | f :: _ => rd_off r <= zlen f end /\
  rem = drop (Z.to_nat (rd_off r)) (concat (rd_rest r)) /\ rd_left r = zlen rem.

Lemma copy_loop_spec rest : forall off n, 0 <= off -> match rest with [] => off = 0 | f :: _ => off <= zlen f end ->
  0 <= n <= zlen (drop (Z.to_nat off) (concat rest)) ->
  exists rest' off', copy_loop rest off n = Returned (take (Z.to_nat n) (drop (Z.to_nat off) (concat rest)), (rest', off')) /\
    0 <= off' /\ match rest' with [] => off' = 0 | f :: _ => off' <= zlen f end /\
    drop (Z.to_nat off') (concat rest') = drop (Z.to_nat n) (drop (Z.to_nat off) (concat rest)).
Proof.
  induction rest as [|f rest IH]; intros off n Ho Hf Hn; cbn [copy_loop];
    (destruct (Z.eqb_spec n 0) as [->|Hn0]; [by eexists _, _|]).
  - cbn in Hn. rewrite drop_nil in Hn. change (zlen []) with 0 in Hn. lia.
  - assert (0 <= match rest with [] => 0 | f :: _ => zlen f end) as H0 by (destruct rest; [done|apply zlen_nonneg]).
    assert (drop (Z.to_nat off) (concat (f :: rest)) = drop (Z.to_nat off) f ++ concat rest) as E.
    { simpl. apply drop_app_le. unfold zlen in Hf. lia. }
    pose proof (zlen_drop f off ltac:(lia)) as Hd. rewrite E, zlen_app in *.
    assert (forall k, 0 <= k <= zlen (concat rest) -> exists rest' off',
       copy_loop rest 0 k = Returned (take (Z.to_nat k) (concat rest), (rest', off')) /\ 0 <= off' /\
       match rest' with [] => off' = 0 | f :: _ => off' <= zlen f end /\ drop (Z.to_nat off') (concat rest') = drop (Z.to_nat k) (concat rest)) as IH'.
    { intros k Hk. apply (IH 0 k); [done|destruct rest; [done|lia]|done]. }
    clear IH. destruct (Z.eqb_spec off (zlen f)) as [->|Hof].
    + rewrite (zlen_0_nil (drop _ f)) by lia. cbn [app]. apply IH'. rewrite (zlen_0_nil (drop _ f)) in Hn by lia. change (zlen []) with 0 in Hn. lia.
    + destruct (Z.eqb_spec (n - Z.min n (zlen f - off)) 0) as [Hl|Hl].
      * replace (Z.min n (zlen f - off)) with n by lia. eexists _, _. split.
        { unfold slice. rewrite take_app_le; [done|]. unfold zlen in *. lia. }
        split; [lia|]. split; [lia|]. simpl. unfold zlen in *. rewrite !drop_app_le by lia. rewrite drop_drop. do 2 f_equal. lia.
      * replace (Z.min n (zlen f - off)) with (zlen f - off) by lia.
        destruct (IH' (n - (zlen f - off)) ltac:(lia)) as (rest' & off' & -> & H1 & H2 & H3). cbn [mbind result_bind].
        eexists _, _. split; [|split; [done|split; [done|]]].
        -- unfold slice. rewrite (take_ge (drop _ f)) by (unfold zlen in *; lia). do 2 f_equal.
           rewrite take_app_ge by (unfold zlen in *; lia). do 2 f_equal. unfold zlen in *. lia.
        -- rewrite H3. rewrite drop_app_ge by (unfold zlen in *; lia). f_equal. unfold zlen in *. lia.
Qed.

Lemma copy_src_spec rem r n : rd_at rem r -> 0 < n <= zlen rem -> zlen rem < 2 ^ 32 ->
  exists r', copy_src n r = Returned (take (Z.to_nat n) rem, r') /\ rd_at (drop (Z.to_nat n) rem) r'.
Proof.
  intros (Ho & Hf & Hr & Hl) Hn Hlt. unfold copy_src. destruct r as [rest off left]. cbn [rd_rest rd_off rd_left] in *.
  destruct rest as [|f rest]; [subst rem; cbn in Hn; rewrite drop_nil in Hn; change (zlen []) with 0 in Hn; lia|].
  assert (rd_left (Reader [] 0 (u64 (left - n))) = zlen (drop (Z.to_nat n) rem)) as Hleft.
  { cbn [rd_left]. rewrite zlen_drop, Hl by lia. apply wrap_small. lia. }
  destruct (Z.leb_spec n (zlen f - off)).
  - exists (Reader (f :: rest) (off + n) (u64 (left - n))). split; [|split_and!; cbn [rd_rest rd_off rd_left]; [lia|lia| |exact Hleft]].
    + subst rem. unfold slice. simpl. rewrite drop_app_le, take_app_le by (rewrite ?length_drop; unfold zlen in *; lia). done.
    + subst rem. simpl. rewrite drop_drop. do 2 f_equal. lia.
  - destruct (copy_loop_spec (f :: rest) off n Ho Hf) as (rest' & off' & -> & H1 & H2 & H3); [by rewrite <- Hr; lia|].
    cbn [mbind result_bind]. rewrite <- Hr in *. eexists. split; [done|]. split_and!; [done|done|done|exact Hleft].
Qed.

(** ** Where the decompressor's dictionary is

    Buffers of 64 KB are filled with two blocks each: what the decoder can look up is all
    that was decompressed, or at least 64 KB of it. *)

Definition buffers_of (l : list (list Z)) : block_mem := fun k => nth k l [].

Inductive dec_at : list Z -> option dest -> lz4_stream_decode -> Prop :=
  | dec_start s : lz4_dict_decode s = (no_run, no_run) -> dec_at [] None s
  | dec_going done last k r s :
      zlen last = dst_buf_size -> 1 <= k <= 2 ->
      lz4_dict_decode s = (r, Run (Place (length done) 0) (take (Z.to_nat (k * data_chunk_size)) last)) ->
      (forall z, in_memory (buffers_of (done ++ z)) r) -> r = no_run \/ (p_buf (run_at r) < length done)%nat ->
      run_bytes r `suffix_of` concat done -> done = [] \/ zlen (run_bytes r) = dst_buf_size ->
      dec_at (concat done ++ take (Z.to_nat (k * data_chunk_size)) last) (Some (Dest done last (k * data_chunk_size))) s.

Lemma last_in_memory done last n : 0 <= n <= zlen last -> in_memory (buffers_of (done ++ [last])) (Run (Place (length done) 0) (take (Z.to_nat n) last)).
Proof.
  intros Hn. split; [done|]. unfold load, buffers_of. cbn [run_at run_bytes p_off p_buf]. rewrite nth_middle, zlen_take by done. done.
Qed.

(** A block that is decompressed where there is room for it. *)
Lemma block_stored (e : lz4_stream) m p b s done last off :
  0 < zlen b <= data_chunk_size -> load m p (zlen b) = b -> held 65536 m (lz4_dict e) ->
  (let '(r, r') := lz4_dict_decode s in
   in_memory (buffers_of (done ++ [last])) r /\ in_memory (buffers_of (done ++ [last])) r' /\
   clear_of r (Place (length done) off) /\ clear_of r' (Place (length done) off)) ->
  last_bytes 65536 (run_bytes (lz4_dict e)) `suffix_of` available (lz4_dict_decode s) (Place (length done) off) ->
  0 <= off -> off + zlen b <= zlen last ->
  exists s' last',
    decompress_at s (fst (lz4_compress_fast_continue e m p (zlen b))) (zlen b) (Place (length done) off) (Dest done last (off + zlen b)) =
      Returned (s', Dest done last' (off + zlen b)) /\
    zlen last' = zlen last /\ take (Z.to_nat (off + zlen b)) last' = take (Z.to_nat off) last ++ b /\
    lz4_dict_decode s' = extend_decode (lz4_dict_decode s) (Place (length done) off) b.
Proof.
  intros Hb Hload Hheld Hmem Hsuf Hoff Hroom.
  destruct (lz4_continue_undone e m p (zlen b) s (buffers_of (done ++ [last])) (Place (length done) off) (zlen b)) as (s' & E & Hd);
    [unfold lz4_max_input_size, data_chunk_size in *; lia|by rewrite Hload|lia|done| |done|].
  { destruct (lz4_dict_decode s) as [r r']. destruct Hmem as (H1 & H2 & H3 & H4). split_and!; [by apply in_memory_held, H1; apply zlen_nonneg| |done|done].
    apply in_memory_held, H2. apply zlen_nonneg. }
  unfold decompress_at. change (fun k => nth k (dest_bufs (Dest done last (off + zlen b))) []) with (buffers_of (done ++ [last])). rewrite E, Hload.
  cbn [thrown_if_none mbind result_bind d_last d_off d_done p_off]. rewrite store_spec by lia. cbn [mbind result_bind]. eexists s', _. split; [done|].
  rewrite Hload in Hd. split; [|split; [|done]].
  - rewrite !zlen_app, zlen_take, zlen_drop; lia.
  - rewrite app_assoc. apply take_to_nat. rewrite zlen_app, zlen_take; lia.
Qed.

Lemma decompress_block_spec (e : lz4_stream) m p b s h d :
  0 < zlen b <= data_chunk_size -> load m p (zlen b) = b -> held 65536 m (lz4_dict e) -> run_bytes (lz4_dict e) `suffix_of` h -> dec_at h d s ->
  exists s' d', decompress_block s (fst (lz4_compress_fast_continue e m p (zlen b))) (zlen b) d = Returned (s', d') /\
    concat (trim_dest d') = h ++ b /\ (zlen b = data_chunk_size -> dec_at (h ++ b) (Some d') s').
Proof.
  intros Hb Hload Hheld Hsuf Hd. unfold decompress_block, get_dest.
  destruct Hd as [s Hs|done last k r s Hlast Hk Hs Hr Hp Hrs Hrl].
  - cbn [d_last d_off d_done]. assert (zlen (uninit dst_buf_size) = dst_buf_size) as Hu by (by apply uninit_len).
    rewrite Hu. destruct (Z.ltb_spec (dst_buf_size - 0) (zlen b)) as [?|_]; [unfold dst_buf_size, data_chunk_size in *; lia|]. cbn [d_last d_off d_done p_off].
    destruct (block_stored e m p b s [] (uninit dst_buf_size) 0) as (s' & last' & -> & Hz & Ht & Hd'); try done; try lia.
    + rewrite Hs. split_and!; try apply no_run_in_memory; by right.
    + rewrite Hs. destruct Hsuf as [z Hz]. symmetry in Hz. apply app_nil in Hz as [_ ->]. by exists [].
    + unfold dst_buf_size, data_chunk_size in *. lia.
    + eexists _, _. split; [done|]. unfold trim_dest. cbn [d_done d_last d_off app concat]. rewrite Ht, app_nil_r. split; [done|]. intros Hc.
      replace (0 + zlen b) with (1 * data_chunk_size) in * by lia. pose proof (dec_going [] last' 1 no_run s') as G.
      rewrite Ht in G. apply G; [congruence|lia| |intros z; apply no_run_in_memory|by left|done|by left].
      rewrite Hd', Hs. unfold extend_decode. cbn [fst snd]. by rewrite decide_True.
  - remember (k * data_chunk_size) as off eqn:Hk2. set (cur := Run (Place (length done) 0) (take (Z.to_nat off) last)) in *.
    assert (0 < off <= zlen last) as Hoff by (unfold dst_buf_size, data_chunk_size in *; lia).
    assert (zlen (take (Z.to_nat off) last) = off) as Hzt by (apply zlen_take; lia).
    assert (run_end cur = Place (length done) off) as Hend by (unfold run_end, cur; cbn [run_at run_bytes p_off p_buf]; by rewrite Hzt).
    cbn [d_last d_off d_done]. rewrite Hlast. destruct (Z.ltb_spec (dst_buf_size - off) (zlen b)) as [Hnew|Hroom]; cbn [d_last d_off d_done p_off].
    + assert (off = dst_buf_size) as Eoff by (unfold dst_buf_size, data_chunk_size in *; lia).
      change (trim_dest (Dest done last off)) with (done ++ [run_bytes cur]). set (done' := done ++ [run_bytes cur]).
      assert (length done' = S (length done)) as Hld by (unfold done'; rewrite length_app; simpl; lia).
      assert (forall z, in_memory (buffers_of (done' ++ z)) cur) as Hcur.
      { intros z. split; [done|]. unfold load, buffers_of, done'. rewrite <- app_assoc. cbn [run_at run_bytes p_off p_buf cur app].
        rewrite nth_middle. apply slice_all. }
      assert (concat done ++ run_bytes cur = concat done') as Hc' by (unfold done'; rewrite concat_app; simpl; by rewrite app_nil_r).
      assert (Place (length done) off <> Place (length done') 0) as Hne by (intros [= He _]; lia).
      destruct (block_stored e m p b s done' (uninit dst_buf_size) 0) as (s' & last' & -> & Hz & Ht & Hd'); try done; try lia.
      * rewrite Hs. split_and!; [unfold done'; rewrite <- app_assoc; apply Hr|apply Hcur|left; cbn [p_buf]..].
        -- destruct Hp as [->|Hp]; [cbn; lia|lia].
        -- cbn. lia.
      * rewrite Hs. unfold available. cbn [fst snd]. rewrite decide_False by (by rewrite Hend). apply (suffix_last _ _ _ _ Hsuf); [by exists (concat done)|].
        cbn [run_bytes cur]. rewrite Hzt, Eoff. unfold dst_buf_size. lia.
      * rewrite uninit_len; unfold dst_buf_size, data_chunk_size in *; lia.
      * eexists _, _. split; [done|]. unfold trim_dest. cbn [d_done d_last d_off]. rewrite concat_app, Ht, <- Hc'. cbn [concat]. rewrite app_nil_r. split; [done|].
        intros Hc. replace (0 + zlen b) with (1 * data_chunk_size) in * by lia. pose proof (dec_going done' last' 1 cur s') as G.
        rewrite Ht, <- Hc' in G. change (take (Z.to_nat 0) (uninit dst_buf_size) ++ b) with b in G.
        change (concat done ++ take (Z.to_nat off) last) with (concat done ++ run_bytes cur). apply G; [rewrite Hz; by apply uninit_len|lia| |done|right; cbn; lia|by exists (concat done)|right].
        -- rewrite Hd', Hs. unfold extend_decode. cbn [fst snd]. by rewrite decide_False by (by rewrite Hend).
        -- cbn [run_bytes cur]. by rewrite Hzt.
    + destruct (block_stored e m p b s done last off) as (s' & last' & -> & Hz & Ht & Hd'); try done; try lia.
      * rewrite Hs. split_and!; [apply Hr|apply last_in_memory; lia| |].
        -- destruct Hp as [->|Hp]; [right; change (p_off (run_end no_run)) with 0; cbn [p_off]; lia|left; cbn [p_buf]; lia].
        -- right. rewrite Hend. cbn [p_off]. lia.
      * rewrite Hs. unfold available. cbn [fst snd]. rewrite decide_True by done. cbn [run_bytes cur]. apply (suffix_last _ _ _ (concat done ++ take (Z.to_nat off) last)); [done| |].
        -- destruct Hrs as [z ->]. exists z. by rewrite app_assoc.
        -- rewrite !zlen_app, Hzt. destruct Hrl as [->|Hrl]; [|rewrite Hrl; unfold dst_buf_size; lia]. cbn [concat]. change (zlen []) with 0. pose proof (zlen_nonneg (run_bytes r)). lia.
      * eexists _, _. split; [done|]. unfold trim_dest. cbn [d_done d_last d_off app]. rewrite concat_app, Ht. cbn [concat]. rewrite app_nil_r, app_assoc. split; [done|].
        intros Hc. replace (off + zlen b) with ((k + 1) * data_chunk_size) in * by lia.
        pose proof (dec_going done last' (k + 1) r s') as G. rewrite Ht, app_assoc in G. apply G; [congruence| | |done|done|done|done].
        -- unfold dst_buf_size, data_chunk_size in *. lia.
        -- rewrite Hd', Hs. unfold extend_decode. cbn [fst snd]. rewrite decide_True by done. f_equal. unfold extend. by rewrite decide_True.
Qed.

(** ** The chunks of a message *)

Lemma is_last_chunk_flag n : 0 <= n < 2 ^ 31 -> is_last_chunk (last_chunk_flag + n) = true /\ without_flag (last_chunk_flag + n) = n.
Proof.
  intros Hn. split.
  - unfold is_last_chunk. rewrite <- lor_flag, Z.land_lor_distr_l, (land_flag n Hn), Z.lor_0_r, Z.land_diag by exact Hn. reflexivity.
  - unfold without_flag, last_chunk_flag. change (2 ^ 31 - 1) with (Z.ones 31). rewrite Z.land_ones by lia.
    rewrite <- (Z.mul_1_l (2 ^ 31)) at 1. rewrite Z.add_comm, Z_mod_plus_full. by apply Z.mod_small.
Qed.

Lemma is_last_chunk_plain n : 0 <= n < 2 ^ 31 -> is_last_chunk n = false.
Proof. intros Hn. unfold is_last_chunk. by rewrite land_flag. Qed.

(** The header that comes first, and what is behind it. *)
Definition next_header (cs : list (list Z)) (n : Z) : Z := match cs with [] => last_chunk_flag + n | c :: _ => zlen c end.
Definition behind_header (cs : list (list Z)) (n : Z) (c : list Z) : list Z := match cs with [] => c | c1 :: cs => c1 ++ wire cs n c end.

Lemma wire_header cs n c : wire cs n c = write_le 4 (next_header cs n) ++ behind_header cs n c.
Proof. destruct cs as [|c1 cs]; [done|]. unfold wire. simpl. by rewrite <- !app_assoc. Qed.

Lemma coded_cons_inv e b bs c cs : coded e (b :: bs) (c :: cs) -> exists m p,
  0 < zlen b <= data_chunk_size /\ load m p (zlen b) = b /\ held 65536 m (lz4_dict e) /\
  c = fst (lz4_compress_fast_continue e m p (zlen b)) /\ coded (snd (lz4_compress_fast_continue e m p (zlen b))) bs cs /\ 0 < zlen c < 2 ^ 31.
Proof.
  intros H. inversion H as [|? m p ? ? ? H1 H2 H3 H4]; subst. exists m, p. split_and!; try done; try lia.
  all: assert (0 < zlen b <= lz4_max_input_size) as Hb by (unfold lz4_max_input_size, data_chunk_size in *; lia);
    pose proof (lz4_continue_size e m p (zlen b) Hb ltac:(by rewrite H2) H3); pose proof (compressbound_range (zlen b) ltac:(lia)); lia.
Qed.

Lemma coded_lengths e bs cs : coded e bs cs -> length bs = length cs.
Proof. induction 1; simpl; congruence. Qed.

Lemma read_header_spec cs n c r : rd_at (wire cs n c) r -> zlen (wire cs n c) < 2 ^ 32 -> 0 <= next_header cs n < 2 ^ 32 ->
  exists r', read_header r = Returned (next_header cs n, r') /\ rd_at (behind_header cs n c) r'.
Proof.
  intros Hr Hl Hn. assert (zlen (wire cs n c) = 4 + zlen (behind_header cs n c)) as Hz by (rewrite wire_header, zlen_app, zlen_write_le; done).
  pose proof (zlen_nonneg (behind_header cs n c)). destruct (copy_src_spec _ r 4 Hr) as (r' & E & Hr'); [lia|done|].
  unfold read_header, chunk_header_size. rewrite E. cbn [mbind result_bind]. exists r'. rewrite wire_header in *.
  rewrite take_to_nat, drop_to_nat in * by (by rewrite zlen_write_le). split; [|done]. do 2 f_equal.
  rewrite <- (app_nil_r (write_le 4 _)). by apply read_write_le_small.
Qed.

Lemma decompress_loop_spec x c cs : forall bs e s h d r fuel total,
  coded e (bs ++ [x]) (cs ++ [c]) -> Forall (fun b => zlen b = data_chunk_size) bs -> run_bytes (lz4_dict e) `suffix_of` h ->
  dec_at h d s -> rd_at (behind_header cs (zlen x) c) r -> zlen (behind_header cs (zlen x) c) < 2 ^ 32 -> (length cs <= fuel)%nat ->
  exists e' r' s' d', decompress_loop fuel (next_header cs (zlen x)) r s d total =
      Returned (last_chunk_flag + zlen x, r', s', d', total + zlen bs * data_chunk_size) /\
    rd_at c r' /\ dec_at (h ++ concat bs) d' s' /\ coded e' [x] [c] /\ run_bytes (lz4_dict e') `suffix_of` h ++ concat bs.
Proof.
  induction cs as [|c1 cs IH]; intros bs e s h d r fuel total Hco Hbs Hsuf Hd Hr Hl Hfuel; pose proof (coded_lengths _ _ _ Hco) as Hlen;
    rewrite !length_app in Hlen; cbn [length] in Hlen.
  - destruct bs as [|b bs]; [|simpl in Hlen; lia]. cbn [next_header app concat] in *. destruct (coded_cons_inv _ _ _ _ _ Hco) as (m & p & Hx & _).
    exists e, r, s, d. rewrite app_nil_r. split_and!; try done.
    destruct (is_last_chunk_flag (zlen x)) as [Hf _]; [unfold data_chunk_size in *; lia|].
    destruct fuel; cbn [decompress_loop]; rewrite Hf; do 2 f_equal; change (zlen []) with 0; lia.
  - destruct bs as [|b bs]; [simpl in Hlen; lia|]. destruct fuel as [|fuel]; [simpl in Hfuel; lia|]. apply Forall_cons in Hbs as [Hb Hbs].
    cbn [app] in Hco. destruct (coded_cons_inv _ _ _ _ _ Hco) as (m & p & Hbz & Hload & Hheld & Ec & Hco' & Hc1).
    cbn [next_header behind_header decompress_loop] in *. rewrite is_last_chunk_plain by lia. rewrite zlen_app in Hl. pose proof (zlen_nonneg (wire cs (zlen x) c)).
    destruct (copy_src_spec _ r (zlen c1) Hr) as (r1 & -> & Hr1); [rewrite zlen_app; lia|rewrite zlen_app; lia|]. cbn [mbind result_bind].
    rewrite take_to_nat, drop_to_nat in * by done.
    destruct (decompress_block_spec e m p b s h d Hbz Hload Hheld Hsuf Hd) as (s1 & d1 & E & _ & Hd1). rewrite <- Ec, Hb in E. rewrite E.
    cbn [mbind result_bind]. specialize (Hd1 Hb).
    assert (0 <= next_header cs (zlen x) < 2 ^ 32) as Hn.
    { destruct cs as [|c2 cs], bs as [|b2 bs]; try (simpl in Hlen; lia); cbn [app] in Hco'; destruct (coded_cons_inv _ _ _ _ _ Hco') as (? & ? & ? & _ & _ & _ & _ & ?);
        unfold next_header, last_chunk_flag, data_chunk_size in *; lia. }
    destruct (read_header_spec cs (zlen x) c r1 Hr1 ltac:(lia) Hn) as (r2 & -> & Hr2). cbn [mbind result_bind].
    assert (zlen (behind_header cs (zlen x) c) < 2 ^ 32) as Hl2 by (rewrite wire_header, zlen_app, zlen_write_le in Hl; lia).
    assert (run_bytes (lz4_dict (snd (lz4_compress_fast_continue e m p (zlen b)))) `suffix_of` h ++ b) as Hsuf'
      by (rewrite lz4_dict_continue, Hload; by apply extend_suffix).
    destruct (IH bs _ s1 (h ++ b) (Some d1) r2 fuel (total + data_chunk_size) Hco' Hbs Hsuf' Hd1 Hr2 Hl2 ltac:(simpl in Hfuel; lia))
      as (e' & r' & s' & d' & -> & H1 & H2 & H3 & H4).
    exists e', r', s', d'. simpl concat. rewrite app_assoc, zlen_cons. split_and!; try done. do 2 f_equal. lia.
Qed.

Lemma decompress_chunks_spec bs cs x c data s :
  coded lz4_reset_stream (bs ++ [x]) (cs ++ [c]) -> Forall (fun b => zlen b = data_chunk_size) bs -> lz4_dict_decode s = (no_run, no_run) ->
  flat (r_bufs data) = wire cs (zlen x) c -> r_size data = zlen (flat (r_bufs data)) -> zlen (flat (r_bufs data)) < 2 ^ 32 ->
  exists b, decompress_chunks data s = Returned b /\ flat (r_bufs b) = concat bs ++ x.
Proof.
  intros Hco Hbs Hs Hf Hsize Hl. unfold decompress_chunks.
  assert (rd_at (wire cs (zlen x) c) (Reader (chunks_of (r_bufs data)) 0 (r_size data))) as Hr.
  { rewrite <- Hf. split_and!; cbn [rd_off rd_rest rd_left]; [done|destruct (chunks_of _); [done|apply zlen_nonneg]|by rewrite drop_0|done]. }
  assert (exists b1 bs1 c1 cs1, bs ++ [x] = b1 :: bs1 /\ cs ++ [c] = c1 :: cs1) as (b1 & bs1 & c1 & cs1 & E1 & E2)
    by (destruct bs, cs; simpl; by eexists _, _, _, _).
  pose proof (coded_lengths _ _ _ Hco) as Hlen. rewrite !length_app in Hlen. cbn [length] in Hlen. pose proof Hco as Hco1. rewrite E1, E2 in Hco1.
  destruct (coded_cons_inv _ _ _ _ _ Hco1) as (? & ? & Hb1 & _ & _ & _ & _ & Hc1).
  assert (0 <= next_header cs (zlen x) < 2 ^ 32) as Hn.
  { destruct cs as [|c2 cs], bs as [|b2 bs]; try (simpl in Hlen; lia); injection E1 as -> _; injection E2 as -> _; unfold next_header, last_chunk_flag, data_chunk_size in *; lia. }
  rewrite Hf in *. destruct (read_header_spec cs (zlen x) c _ Hr Hl Hn) as (r1 & -> & Hr1). cbn [mbind result_bind].
  assert (zlen (behind_header cs (zlen x) c) < 2 ^ 32) as Hl1 by (rewrite wire_header, zlen_app, zlen_write_le in Hl; lia).
  assert (length cs <= length (wire cs (zlen x) c))%nat as Hfuel.
  { unfold wire. rewrite length_app. fold (mids cs). pose proof (mids_length cs). lia. }
  destruct (decompress_loop_spec x c cs bs lz4_reset_stream s [] None r1 (length (wire cs (zlen x) c)) 0 Hco Hbs) as (e' & r2 & s2 & d2 & -> & Hr2 & Hd2 & Hco2 & Hsuf2);
    [by rewrite lz4_dict_reset; exists []|by apply dec_start|done|done|exact Hfuel|].
  cbn [mbind result_bind app]. destruct (coded_cons_inv _ _ _ _ _ Hco2) as (m & p & Hx & Hload & Hheld & Ec & _ & Hc).
  destruct (is_last_chunk_flag (zlen x)) as [_ ->]; [unfold data_chunk_size in *; lia|].
  destruct (copy_src_spec c r2 (rd_left r2) Hr2) as (r3 & -> & _); [destruct Hr2 as (_ & _ & _ & ->); lia|lia|]. cbn [mbind result_bind].
  destruct Hr2 as (_ & _ & _ & ->). rewrite take_ge by (unfold zlen; lia).
  destruct (decompress_block_spec e' m p x s2 _ d2 Hx Hload Hheld Hsuf2 Hd2) as (s3 & d3 & E3 & Hd3 & _). rewrite <- Ec in E3. rewrite E3.
  cbn [mbind result_bind]. eexists. split; [done|]. cbn [app] in Hd3. rewrite <- Hd3. destruct (trim_dest d3) as [|y [|z l]] eqn:Et; cbn [r_bufs]; [|by rewrite flat_one; simpl; rewrite app_nil_r|done].
  done.
Qed.

Lemma fragmented_decompress_spec bs cs x c data :
  coded lz4_reset_stream (bs ++ [x]) (cs ++ [c]) -> Forall (fun b => zlen b = data_chunk_size) bs -> 0 < zlen x <= data_chunk_size ->
  flat (r_bufs data) = wire cs (zlen x) c -> r_size data = zlen (flat (r_bufs data)) -> zlen (flat (r_bufs data)) < 2 ^ 32 ->
  exists b, fragmented_decompress data = Returned b /\ flat (r_bufs b) = concat bs ++ x.
Proof.
  intros Hco Hbs Hx Hf Hsize Hl. destruct lz4_set_stream_decode_ok as (s & Es & Hs). unfold fragmented_decompress. rewrite Es. cbn [thrown_if_none mbind result_bind].
  pose proof (wire_header cs (zlen x) c) as Hw. assert (4 <= r_size data) as H4.
  { rewrite Hsize, Hf, Hw, zlen_app, zlen_write_le. pose proof (zlen_nonneg (behind_header cs (zlen x) c)). lia. }
  destruct (Z.ltb_spec (r_size data) 4); [lia|].
  destruct (r_bufs data) as [src|l] eqn:Eb; [|rewrite <- Eb in *; by eapply decompress_chunks_spec].
  rewrite flat_one in *. destruct (is_last_chunk (read_le 4 src)) eqn:Elast; [|apply (decompress_chunks_spec bs cs x c data s); rewrite ?Eb, ?flat_one; try done; congruence].
  pose proof (coded_lengths _ _ _ Hco) as Hlen. rewrite !length_app in Hlen. cbn [length] in Hlen.
  destruct cs as [|c1 cs].
  2:{ exfalso. destruct bs as [|b bs]; [simpl in Hlen; lia|]. cbn [app] in Hco. destruct (coded_cons_inv _ _ _ _ _ Hco) as (? & ? & _ & _ & _ & _ & _ & Hc).
    rewrite Hf, Hw in Elast. cbn [next_header] in Elast. rewrite read_write_le_small, is_last_chunk_plain in Elast; try done; [lia|]. change (2 ^ (8 * Z.of_nat 4)) with (2 ^ 32). lia. }
  destruct bs as [|b bs]; [|simpl in Hlen; lia]. cbn [app concat next_header behind_header] in *.
  destruct (coded_cons_inv _ _ _ _ _ Hco) as (m & p & _ & Hload & Hheld & Ec & _ & Hc).
  assert (0 <= zlen x < 2 ^ 31) as Hx2 by (unfold data_chunk_size in *; lia). destruct (is_last_chunk_flag (zlen x) Hx2) as [_ Hwf].
  rewrite Hf, Hw in *. rewrite read_write_le_small, Hwf by (change (2 ^ (8 * Z.of_nat 4)) with (2 ^ 32); unfold last_chunk_flag; lia).
  assert (slice 4 (r_size data - 4) (write_le 4 (last_chunk_flag + zlen x) ++ c) = c) as ->.
  { rewrite <- (app_nil_r c) at 1. apply slice_here; [by rewrite zlen_write_le|]. rewrite Hsize, zlen_app, zlen_write_le. lia. }
  assert (zlen (uninit (zlen x)) = zlen x) as Hu by (apply uninit_len; lia).
  destruct (lz4_continue_undone lz4_reset_stream m p (zlen x) s (fun _ => uninit (zlen x)) (Place 0 0) (zlen x)) as (s' & E & _);
    [unfold lz4_max_input_size, data_chunk_size in *; lia|by rewrite Hload|lia|done| | |].
  - rewrite Hs. split_and!; try (apply in_memory_held; [done|apply no_run_in_memory]); by right.
  - rewrite Hs, lz4_dict_reset. by exists [].
  - rewrite <- Ec in E. rewrite E. cbn [thrown_if_none mbind result_bind]. rewrite Hload, store_spec by lia. cbn [mbind result_bind].
    eexists. split; [done|]. cbn [r_bufs]. rewrite flat_one, Z.add_0_l, drop_ge by (unfold zlen in *; lia). rewrite app_nil_r. done.
Qed.

(** C27. Every message that the fragmented compressor takes, in whatever fragments and whatever
    its buffer holds from before, leaves room in front, and is what the decompressor gives
    back, in whatever buffers it arrives: where chunks are put together, what LZ4 looks up is
    not overwritten, and where they are decompressed it is there. *)
Theorem lz4_fragmented_undone lin : zlen lin = lin_buf_size -> compressor_ok (lz4_fragmented_compressor lin).
Proof.
  intros Hlin b f r Hm Hz. destruct (fragmented_compress_spec lin 4 b f r Hlin ltac:(lia) Hm Hz)
    as (b' & E & h & bs & cs & x & c & f' & r' & Hh & Hm' & Hf' & Ew & Hco & Hcat & Hbs & Hx & Hl & Hc).
  cbn [c_compress c_decompress lz4_fragmented_compressor]. rewrite E. cbn [returned_or]. exists f', r', (wire cs (zlen x) c).
  split; [done|]. split; [done|]. split; [rewrite Ew; by apply (drop_to_nat h _ 4)|]. split; [lia|]. intros rb Hr Hs.
  destruct (fragmented_decompress_spec bs cs x c rb Hco Hbs Hx Hr) as (b2 & -> & Hb2); [congruence|rewrite Hr; lia|]. cbn [returned_or].
  by rewrite Hb2, Hcat.
Qed.

(** A last chunk that says that it has more than 64 KB, as a peer may send, is written beyond
    the buffer that it is decompressed to. *)
Lemma overlong_last_chunk s src size b s' :
  dst_buf_size < size -> dst_buf_size < zlen b ->
  lz4_decompress_safe_continue s (buffers_of [take 0 (uninit dst_buf_size); uninit dst_buf_size]) (Place 1 0) src size = Some (b, s') ->
  decompress_block s src size None = Undefined.
Proof.
  intros Hs Hb E. unfold decompress_block, get_dest. cbn [d_last d_off d_done]. assert (zlen (uninit dst_buf_size) = dst_buf_size) as Hu by (by apply uninit_len).
  rewrite Hu. destruct (Z.ltb_spec (dst_buf_size - 0) size); [|lia]. unfold decompress_at, trim_dest. cbn [d_last d_off d_done p_off app].
  change (length [take (Z.to_nat 0) (uninit dst_buf_size)]) with 1%nat.
  change (fun k => nth k (dest_bufs _) []) with (buffers_of [take 0 (uninit dst_buf_size); uninit dst_buf_size]). rewrite E.
  cbn [thrown_if_none mbind result_bind]. unfold store. rewrite Hu. destruct (Z.leb_spec (0 + zlen b) dst_buf_size); [lia|done].
Qed.
End Undone.

(** ** Several algorithms *)

(** A factory of one algorithm, whose name has no comma. *)
Definition single_algo (f : compressor_factory) : Prop :=
  comma ∉ f_supported f /\ forall n is_server, match f_negotiate f n is_server with
                                               | Some c => n = f_supported f /\ c_name c = n
                                               | None => n <> f_supported f end.

Lemma split_name n : comma ∉ n -> split_names n = [n].
Proof.
  induction n as [|c n IH]; intros H; [done|]. apply not_elem_of_cons in H as [Hc H]. cbn [split_names]. rewrite (IH H).
  by destruct (Z.eqb_spec c comma).
Qed.

Lemma split_name_app n rest : comma ∉ n -> split_names (n ++ comma :: rest) = n :: split_names rest.
Proof.
  induction n as [|c n IH]; intros H; cbn [app split_names].
  - destruct (split_names rest) as [|x l] eqn:E; [|done]. exfalso. destruct rest as [|y rest]; cbn [split_names] in E; [done|].
    destruct (split_names rest); [done|]. by destruct (y =? comma).
  - apply not_elem_of_cons in H as [Hc H]. rewrite (IH H). by destruct (Z.eqb_spec c comma).
Qed.

Lemma split_join names : names <> [] -> Forall (fun n => comma ∉ n) names -> split_names (join_names names) = names.
Proof.
  intros Hne H. induction H as [|n names Hn _ IH]; [done|]. destruct names as [|n2 names]; [by apply split_name|].
  cbn [join_names]. rewrite split_name_app by done. f_equal. by apply IH.
Qed.

Lemma first_some_named (g : compressor_factory -> option compressor) n gs :
  Forall (fun f => match g f with Some c => n = f_supported f /\ c_name c = n | None => n <> f_supported f end) gs ->
  match first_some g gs with Some c => n ∈ f_supported <$> gs /\ c_name c = n | None => n ∉ f_supported <$> gs end.
Proof.
  induction 1 as [|f gs Hf _ IH]; cbn [first_some]; [apply not_elem_of_nil|]. rewrite fmap_cons. destruct (g f) as [c|].
  - destruct Hf as [-> Hc]. split; [by left|done].
  - destruct (first_some g gs) as [c|]; [|by apply not_elem_of_cons]. destruct IH. split; [by right|done].
Qed.

(** The first of the client's names that the server supports. *)
Definition common_name (fs gs : list compressor_factory) : option (list Z) :=
  head (filter (fun n => n ∈ f_supported <$> gs) (f_supported <$> fs)).

(** C30. Sides with several algorithms each agree on the first of the client's that the server
    supports, and the client takes the one that the server answers; they do not compress
    where there is none. *)
Theorem multi_algo_agree fs gs :
  fs <> [] -> Forall single_algo fs -> Forall single_algo gs ->
  let f := multi_algo_compressor_factory fs in let g := multi_algo_compressor_factory gs in
  c_name <$> f_negotiate g (f_supported f) true = common_name fs gs /\
  forall c, f_negotiate g (f_supported f) true = Some c -> c_name <$> f_negotiate f (c_name c) false = Some (c_name c).
Proof.
  intros Hne Hfs Hgs f g. unfold f, g. cbn [f_negotiate f_supported multi_algo_compressor_factory multi_negotiate].
  rewrite split_join; [|by destruct fs|apply Forall_fmap; eapply Forall_impl; [exact Hfs|by intros ? []]]. unfold common_name.
  assert (forall n b, match first_some (fun f => f_negotiate f n b) gs with Some c => n ∈ f_supported <$> gs /\ c_name c = n | None => n ∉ f_supported <$> gs end) as Hg.
  { intros n b. apply first_some_named. eapply Forall_impl; [exact Hgs|]. intros h [_ H]. apply H. }
  assert (forall l, match first_some (fun n => first_some (fun f => f_negotiate f n true) gs) l with
                    | Some c => c_name c ∈ l /\ Some (c_name c) = head (filter (fun n => n ∈ f_supported <$> gs) l)
                    | None => head (filter (fun n => n ∈ f_supported <$> gs) l) = None end) as Hfirst.
  { induction l as [|n l IH]; [done|]. cbn [first_some]. specialize (Hg n true). destruct (first_some (fun f => f_negotiate f n true) gs) as [c|].
    - destruct Hg as [Hin <-]. rewrite filter_cons_True by done. split; [by left|done].
    - rewrite filter_cons_False by done. destruct (first_some _ l); [|done]. destruct IH. split; [by right|done]. }
  specialize (Hfirst (f_supported <$> fs)). destruct (first_some _ (f_supported <$> fs)) as [c|] eqn:E; [|by split].
  destruct Hfirst as [Hin Hh]. split; [done|]. intros c' [= <-]. clear E Hh Hg.
  assert (comma ∉ c_name c) as Hcomma.
  { apply list_elem_of_fmap in Hin as (h & -> & Hh). rewrite Forall_forall in Hfs. by destruct (Hfs h Hh). }
  unfold multi_negotiate. rewrite split_name by done. cbn [first_some].
  pose proof (first_some_named (fun f => match f_negotiate f (c_name c) false with Some x => Some x | None => None end) (c_name c) fs) as Hn.
  destruct (first_some _ fs) as [x|]; cbn [fmap option_fmap option_map].
  - f_equal. apply Hn. eapply Forall_impl; [exact Hfs|]. intros h [_ H]. specialize (H (c_name c) false). by destruct (f_negotiate h (c_name c) false).
  - exfalso. apply Hn; [|done]. eapply Forall_impl; [exact Hfs|]. intros h [_ H]. specialize (H (c_name c) false). by destruct (f_negotiate h (c_name c) false).
Qed.

Section Factories.
Context {TB : TemporaryBuffer} {LE : LeCodec} {LZ : Lz4}.

Lemma lz4_factory_single t t' : single_algo (lz4_factory t t').
Proof. split; [by apply (bool_decide_unpack _)|]. intros n b. cbn. by case_decide. Qed.

Lemma lz4_fragmented_factory_single lin : single_algo (lz4_fragmented_factory lin).
Proof. split; [by apply (bool_decide_unpack _)|]. intros n b. cbn. by case_decide. Qed.
End Factories.

(** ** Concrete inputs: an encoder that looks for a block right in front of where it is *)

Module Ex.
Import Core.Impl.

(** The bytes of the runs, read where they are. *)
Definition run_load (m : block_mem) (r : run) : list Z := load m (run_at r) (zlen (run_bytes r)).
Definition avail_load (m : block_mem) (d : run * run) (q : place) : list Z :=
  if decide (run_end (snd d) = q) then run_load m (fst d) ++ run_load m (snd d) else run_load m (snd d).

Definition repeats (m : block_mem) (s : run) (p : place) (n : Z) : bool :=
  (n <=? Z.min 65536 (zlen (run_bytes s))) &&
  bool_decide (load m (Place (p_buf (run_at s)) (p_off (run_end s) - n)) n = load m p n).
Definition ex_compress (s : run) (m : block_mem) (p : place) (n : Z) : list Z * run :=
  (if repeats m s p n then [0; n] else 1 :: load m p n, extend s p (load m p n)).
Definition ex_decompress (d : run * run) (m : block_mem) (q : place) (c : list Z) (cap : Z) : option (list Z * (run * run)) :=
  match c with
  | 1 :: b => if zlen b <=? cap then Some (b, extend_decode d q b) else None
  | [0; n] => if n <=? cap then let b := last_bytes n (avail_load m d q) in Some (b, extend_decode d q b) else None
  | _ => None
  end.

Lemma held_load n m r : 0 <= n -> n <= zlen (run_bytes r) -> forall k, n <= k -> held k m r ->
  load m (Place (p_buf (run_at r)) (p_off (run_end r) - n)) n = last_bytes n (run_bytes r).
Proof.
  intros H0 Hn k Hk [Hp H]. unfold load in *. cbn [p_buf p_off] in *. set (j := Z.min k (zlen (run_bytes r))) in *.
  transitivity (drop (Z.to_nat (j - n)) (slice (p_off (run_end r) - j) j (m (p_buf (run_at r))))).
  - rewrite drop_slice by (unfold run_end; cbn [p_off]; lia). f_equal; lia.
  - rewrite H. unfold last_bytes. rewrite drop_drop. f_equal. unfold zlen in *. lia.
Qed.

Lemma held_run_load m r : held (zlen (run_bytes r)) m r -> run_load m r = run_bytes r.
Proof.
  intros H. pose proof (held_load (zlen (run_bytes r)) m r (zlen_nonneg _) ltac:(lia) (zlen (run_bytes r)) ltac:(lia) H) as E. rewrite last_bytes_all in E.
  unfold run_load. rewrite <- E at 2. unfold run_end. cbn [p_off]. replace (p_off (run_at r) + _ - _) with (p_off (run_at r)) by lia.
  by destruct (run_at r).
Qed.

Lemma last_bytes_suffix n k l a : 0 <= n <= k -> n <= zlen l -> last_bytes k l `suffix_of` a -> last_bytes n a = last_bytes n l.
Proof.
  intros Hn Hl [z ->]. unfold last_bytes, zlen in *. rewrite length_app, length_drop. rewrite drop_app_ge by lia. rewrite drop_drop. f_equal. lia.
Qed.

Lemma repeats_spec m s p n : 0 <= n -> held 65536 m s -> repeats m s p n = true ->
  n <= Z.min 65536 (zlen (run_bytes s)) /\ load m p n = last_bytes n (run_bytes s).
Proof.
  intros Hn Hh H. unfold repeats in H. apply andb_true_iff in H as [H1 H2]. apply Z.leb_le in H1. apply bool_decide_eq_true in H2.
  split; [done|]. rewrite <- H2. apply (held_load n m s Hn ltac:(lia) 65536); [lia|done].
Qed.

#[export, refine] Instance ex_lz4 : Lz4 := {
  lz4_compress_default s := 1 :: s;
  lz4_decompress_safe c n := match c with 1 :: s => if zlen s <=? n then Some s else None | _ => None end;
  lz4_stream := run; lz4_reset_stream := no_run; lz4_compress_fast_continue := ex_compress; lz4_dict s := s;
  lz4_stream_decode := run * run; lz4_set_stream_decode := Some (no_run, no_run);
  lz4_decompress_safe_continue := ex_decompress; lz4_dict_decode d := d }.
Proof.
  - intros s n Hs Hn. rewrite zlen_cons. pose proof (compressbound_range (zlen s) ltac:(lia)). split; [lia|]. by destruct (Z.leb_spec (zlen s) n); [|lia].
  - done.
  - done.
  - intros s m p n Hn Hl Hh. pose proof (compressbound_range n ltac:(lia)). unfold ex_compress. cbn [fst].
    destruct (repeats m s p n); rewrite ?zlen_cons, ?Hl; [change (zlen []) with 0|]; lia.
  - by eexists.
  - intros s m p n [r r'] m' q cap Hn Hl Hcap Hh (H1 & H2 & _) Hsuf. unfold ex_compress. cbn [fst]. eexists. split; [|done].
    destruct (repeats m s p n) eqn:Er; unfold ex_decompress.
    + destruct (repeats_spec m s p n ltac:(lia) Hh Er) as [Hle E]. destruct (Z.leb_spec n cap); [|lia].
      assert (avail_load m' (r, r') q = available (r, r') q) as -> by (unfold avail_load, available; cbn [fst snd]; by rewrite (held_run_load m' r H1), (held_run_load m' r' H2)).
      rewrite (last_bytes_suffix n 65536 (run_bytes s)) by (done || lia). by rewrite E.
    + rewrite Hl. by destruct (Z.leb_spec n cap); [|lia].
Defined.

(** Fragments of 40000 and 30000 bytes: the second of two chunks and the rest are repetitions,
    the second chunk is put together from both fragments. *)
Definition text : list Z := replicate (Z.to_nat 70000) 7.
Definition sent : snd_buf := SndBuf 70000 (Many [take (Z.to_nat 40000) text; drop (Z.to_nat 40000) text]).
Definition lin0 : list Z := repeat 0 (Z.to_nat lin_buf_size).
Definition given (o : lz4_result snd_buf) : rcv_buf := match o with Returned b => RcvBuf (s_size b - 4) (Many [[]; drop 4 (flat (s_bufs b))]) | _ => rcv_buf_init end.

Example fragments_undone :
  match fragmented_decompress (given (fragmented_compress lin0 4 sent)) with
  | Returned b => bool_decide (flat (r_bufs b) = text) && (r_size b =? 70000) | _ => false end = true /\
  r_size (given (fragmented_compress lin0 4 sent)) = (4 + 32769) + (4 + 2) + (4 + 2).
Proof. by vm_compute. Qed.

(** The peer says that its last chunk has 70000 bytes. *)
Example chunk_too_long : fragmented_decompress (RcvBuf 70005 (Many [write_le 4 (last_chunk_flag + 70000); 1 :: text])) = Undefined.
Proof. by vm_compute. Qed.

(** The peer says that a chunk has more bytes than the message. *)
Example chunk_beyond_message : fragmented_decompress (RcvBuf 6 (Many [write_le 4 1000; [1; 2]])) = Undefined.
Proof. by vm_compute. Qed.
End Ex.

Import Core.Impl Ex.

Lemma lz4_fragmented_undone_witness : zlen lin0 = lin_buf_size /\ compressor_ok (lz4_fragmented_compressor lin0).
Proof.
  assert (zlen lin0 = lin_buf_size) as H by (unfold lin0, zlen; rewrite repeat_length, Z2Nat.id; [done|by vm_compute]).
  split; [exact H|exact (lz4_fragmented_undone lin0 H)].
Defined.

Lemma multi_algo_agree_witness :
  let t := Lz4Buffers [] [] 0 in
  let fs := [lz4_fragmented_factory lin0; lz4_factory t t] in let gs := [lz4_factory t t] in
  common_name fs gs = Some name_lz4 /\
  c_name <$> f_negotiate (multi_algo_compressor_factory gs) (f_supported (multi_algo_compressor_factory fs)) true = common_name fs gs.
Proof.
  intros t fs gs. split; [by vm_compute|].
  exact (proj1 (multi_algo_agree fs gs ltac:(done)
    (Forall_cons_2 _ _ _ (lz4_fragmented_factory_single lin0) (Forall_cons_2 _ _ _ (lz4_factory_single t t) (Forall_nil_2 _)))
    (Forall_cons_2 _ _ _ (lz4_factory_single t t) (Forall_nil_2 _)))).
Defined.
