(* ===== verification/Json.v ===== *)
(** * JSON output: src/json/formatter.cc, json_elements.cc, include/nil/actor/json/formatter.hh, json_elements.hh

    The formatter's overloads by the shape of the value; the text that the library
    makes of a number that is not an integer, and of a date, is given with the value.
    [json_base] is an object whose elements may be unset. *)

From S2P Require Import Prelude.
From stdpp Require Import base numbers option list strings.

#[local] Open Scope Z_scope.
#[local] Set Warnings "-register-all".

(** A text as its bytes. *)
Definition bytes_of (s : string) : list Z := map (fun c => Z.of_N (Ascii.N_of_ascii c)) (String.list_ascii_of_string s).
#[global] Arguments bytes_of s%_string_scope.

(** [std::to_string], [to_sstring] of an integer *)
Fixpoint digits (fuel : nat) (n : Z) (acc : list Z) : list Z :=
  let acc := (48 + n mod 10) :: acc in
  match fuel with
  | O => acc
  | S fuel => if n / 10 =? 0 then acc else digits fuel (n / 10) acc
  end.
Definition natural (n : Z) : list Z := digits (Z.to_nat (Z.log2 n)) n [].
Definition decimal (n : Z) : list Z := if n <? 0 then 45 :: natural (- n) else natural n.

(** A value that the formatter takes: a string, an integer, a bool, a number or a date
    by its text, a vector, a map, a vector of pairs, a [json_base] whose elements
    have a name and may be set. *)
Inductive value :=
  | VString (s : list Z)
  | VInt (n : Z)
  | VBool (b : bool)
  | VText (text : list Z)
  | VArray (l : list value)
  | VMap (l : list (value * value))
  | VPairs (l : list (value * value))
  | VObject (l : list (list Z * option value)).

(** [enum class state]; [begin(s)], [end(s)] *)
Inductive fstate := SNone | SArray | SMap.
Definition fbegin (s : fstate) : list Z := match s with SArray => bytes_of "[" | SMap => bytes_of "{" | SNone => [] end.
Definition fend (s : fstate) : list Z := match s with SArray => bytes_of "]" | SMap => bytes_of "}" | SNone => [] end.

(** [to_json(const char * )]: a string ends at its first zero byte. *)
Definition quote : list Z := [34].
Fixpoint c_str (s : list Z) : list Z := match s with [] => [] | c :: s => if c =? 0 then [] else c :: c_str s end.
Definition to_json_str (s : list Z) : list Z := quote ++ c_str s ++ quote.

(** What [to_json(state, Iter, Iter)] puts between the items. *)
Fixpoint separated (sep : list Z) (l : list (list Z)) : list Z :=
  match l with
  | [] => []
  | [x] => x
  | x :: l => x ++ sep ++ separated sep l
  end.

(** [json_builder::add(name, str)] without the separator. *)
Definition field (name text : list Z) : list Z := quote ++ name ++ quote ++ bytes_of ": " ++ text.

(** [to_json]: a pair in a map, a pair in a vector ([to_json(state::array, pair)]),
    [json_base::to_json()]. *)
Definition pair_json (k v : list Z) : list Z := k ++ bytes_of ":" ++ v.
Definition range_json (s : fstate) (l : list (list Z)) : list Z := fbegin s ++ separated (bytes_of ",") l ++ fend s.
Definition object_json (l : list (list Z * option (list Z))) : list Z :=
  bytes_of "{" ++ separated (bytes_of ", ") (omap (fun e => field (fst e) <$> snd e) l) ++ bytes_of "}".

Fixpoint to_json (v : value) : list Z :=
  match v with
  | VString s => to_json_str s
  | VInt n => decimal n
  | VBool b => if b then bytes_of "true" else bytes_of "false"
  | VText t => t
  | VArray l => range_json SArray (map to_json l)
  | VMap l => range_json SMap (map (fun p => pair_json (to_json (fst p)) (to_json (snd p))) l)
  | VPairs l => range_json SArray (map (fun p => bytes_of "{" ++ pair_json (to_json (fst p)) (to_json (snd p)) ++ bytes_of "}") l)
  | VObject l => object_json (map (fun e => (fst e, match snd e with Some v => Some (to_json v) | None => None end)) l)
  end.

(** [json_base::write(s)]: what [json_stream_builder] writes. *)
Definition stream_object (l : list (list Z * option (list Z))) : list Z :=
  let fields := omap (fun e => (fun t => quote ++ fst e ++ quote ++ bytes_of ":" ++ t) <$> snd e) l in
  (if bool_decide (fields = []) then [] else bytes_of "{") ++ separated (bytes_of ",") fields ++ bytes_of "}".

(** [is_verify()]: every element that is mandatory is set. *)
Definition is_verify (l : list (bool * bool)) : bool := forallb (fun e => negb (fst e && negb (snd e))) l.

Example decimal_ok : decimal 0 = bytes_of "0" /\ decimal (-1205) = bytes_of "-1205" /\ decimal 99 = bytes_of "99" /\ decimal 10 = bytes_of "10".
Proof. by vm_compute. Qed.

Example to_json_ok :
  to_json (VObject [(bytes_of "message", Some (VString (bytes_of "Not found"))); (bytes_of "x", None); (bytes_of "code", Some (VInt 404))]) =
  bytes_of "{" ++ quote ++ bytes_of "message" ++ quote ++ bytes_of ": " ++ quote ++ bytes_of "Not found" ++ quote ++ bytes_of ", " ++
    quote ++ bytes_of "code" ++ quote ++ bytes_of ": 404}".
Proof. by vm_compute. Qed.
