(* ===== verification/JsonSpec.v ===== *)
(** * JSON output is read back, unless a string needs an escape or a key is no string *)

From S2P Require Import Prelude Json.
From stdpp Require Import base numbers option list strings.

#[local] Open Scope Z_scope.
#[local] Set Warnings "-register-all".

(** ** A reader of JSON without escapes

    As RFC 8259 says, a string has no control characters, and a key is a string. *)

Inductive tree :=
  | TString (s : list Z)
  | TInt (n : Z)
  | TBool (b : bool)
  | TArray (l : list tree)
  | TObject (l : list (list Z * tree)).

Definition is_digit (c : Z) : bool := (48 <=? c) && (c <=? 57).

Fixpoint read_string (s : list Z) : option (list Z * list Z) :=
  match s with
  | [] => None
  | c :: s => if c =? 34 then Some ([], s) else if (c =? 92) || (c <? 32) then None else '(t, s) ← read_string s; Some (c :: t, s)
  end.
Fixpoint read_digits (n : Z) (s : list Z) : Z * list Z :=
  match s with
  | c :: s' => if is_digit c then read_digits (10 * n + (c - 48)) s' else (n, s)
  | [] => (n, s)
  end.
Definition skip (s : list Z) : list Z := match s with 32 :: s => s | _ => s end.
Definition expect (c : Z) (s : list Z) : option (list Z) := match s with d :: s => if d =? c then Some s else None | [] => None end.
Definition strip (p s : list Z) : option (list Z) := if bool_decide (take (length p) s = p) then Some (drop (length p) s) else None.

Fixpoint read (fuel : nat) (s : list Z) : option (tree * list Z) :=
  match fuel, s with
  | S fuel, c :: s' =>
      if c =? 34 then '(t, s) ← read_string s'; Some (TString t, s)
      else if c =? 91 then
        match expect 93 s' with
        | Some s => Some (TArray [], s)
        | None => '(l, s) ← read_items fuel s'; Some (TArray l, s)
        end
      else if c =? 123 then
        match expect 125 s' with
        | Some s => Some (TObject [], s)
        | None => '(l, s) ← read_fields fuel s'; Some (TObject l, s)
        end
      else if c =? 45 then
        match s' with d :: _ => if is_digit d then let '(n, s) := read_digits 0 s' in Some (TInt (- n), s) else None | [] => None end
      else if is_digit c then let '(n, s) := read_digits 0 s in Some (TInt n, s)
      else match strip (bytes_of "true") s with
           | Some s => Some (TBool true, s)
           | None => s ← strip (bytes_of "false") s; Some (TBool false, s)
           end
  | _, _ => None
  end
with read_items (fuel : nat) (s : list Z) : option (list tree * list Z) :=
  match fuel with
  | O => None
  | S fuel =>
      '(t, s) ← read fuel s;
      match expect 44 s with
      | Some s => '(l, s) ← read_items fuel (skip s); Some (t :: l, s)
      | None => s ← expect 93 s; Some ([t], s)
      end
  end
with read_fields (fuel : nat) (s : list Z) : option (list (list Z * tree) * list Z) :=
  match fuel with
  | O => None
  | S fuel =>
      s ← expect 34 s; '(k, s) ← read_string s; s ← expect 58 s;
      '(t, s) ← read fuel (skip s);
      match expect 44 s with
      | Some s => '(l, s) ← read_fields fuel (skip s); Some ((k, t) :: l, s)
      | None => s ← expect 125 s; Some ([(k, t)], s)
      end
  end.

(** ** What a value stands for *)

(** A string without quotes, backslashes and control characters. *)
Definition clean_str (s : list Z) : Prop := Forall (fun c => c <> 34 /\ c <> 92 /\ 32 <= c) s.

Fixpoint tree_of (v : value) : tree :=
  match v with
  | VString s => TString s
  | VInt n => TInt n
  | VBool b => TBool b
  | VText t => TString t
  | VArray l => TArray (map tree_of l)
  | VMap l => TObject (map (fun p => (match fst p with VString s => s | _ => [] end, tree_of (snd p))) l)
  | VPairs l => TArray (map (fun p => TObject [(match fst p with VString s => s | _ => [] end, tree_of (snd p))]) l)
  | VObject l => TObject (omap (fun e => (fun t => (fst e, t)) <$> match snd e with Some v => Some (tree_of v) | None => None end) l)
  end.

(** The strings of a value are clean, the keys of its maps are strings, and it holds
    no text of the library's. *)
Fixpoint clean (v : value) : Prop :=
  match v with
  | VString s => clean_str s
  | VInt _ | VBool _ => True
  | VText _ => False
  | VArray l => fold_right (fun x P => clean x /\ P) True l
  | VMap l | VPairs l => fold_right (fun p P => (match fst p with VString s => clean_str s | _ => False end) /\ clean (snd p) /\ P) True l
  | VObject l => fold_right (fun e P => clean_str (fst e) /\ (match snd e with Some v => clean v | None => True end) /\ P) True l
  end.

(** What follows a value does not go on with a number. *)
Definition ends (s : list Z) : Prop := match s with c :: _ => is_digit c = false | [] => True end.

Lemma c_str_clean s : clean_str s -> c_str s = s.
Proof. induction 1 as [|c s (_ & _ & H) _ IH]; [done|]. cbn. destruct (Z.eqb_spec c 0); [lia|by rewrite IH]. Qed.

Lemma c_str_app s t : clean_str s -> c_str (s ++ t) = s ++ c_str t.
Proof. induction 1 as [|c s (_ & _ & H) _ IH]; [done|]. cbn. destruct (Z.eqb_spec c 0); [lia|by rewrite IH]. Qed.

Lemma read_string_clean s rest : clean_str s -> read_string (s ++ 34 :: rest) = Some (s, rest).
Proof.
  induction 1 as [|c s (H1 & H2 & H3) _ IH]; [done|]. cbn [app read_string]. destruct (Z.eqb_spec c 34), (Z.eqb_spec c 92), (Z.ltb_spec c 32); try done; [lia|]. cbn [orb]. by rewrite IH.
Qed.

(** Digits read what they print. *)
Lemma is_digit_mod n : is_digit (48 + n mod 10) = true.
Proof. unfold is_digit. pose proof (Z.mod_pos_bound n 10). lia. Qed.

Lemma read_digits_cons m n rest : read_digits m ((48 + n mod 10) :: rest) = read_digits (10 * m + n mod 10) rest.
Proof. cbn [read_digits]. rewrite is_digit_mod. f_equal. lia. Qed.

Lemma digits_read fuel n acc : 0 <= n < 2 ^ (Z.of_nat fuel + 1) ->
  exists c k, digits fuel n acc = (c :: k) ++ acc /\ is_digit c = true /\
    forall (m : Z) rest, read_digits m ((c :: k) ++ rest) = read_digits (m * 10 ^ Z.of_nat (length (c :: k)) + n) rest.
Proof.
  revert n acc. induction fuel as [|fuel IH]; intros n acc Hn; cbn [digits].
  - exists (48 + n mod 10), []. split; [done|]. split; [apply is_digit_mod|]. intros m rest. cbn [app]. rewrite read_digits_cons.
    change (2 ^ (Z.of_nat 0 + 1)) with 2 in Hn. rewrite Z.mod_small by lia. f_equal. cbn. lia.
  - pose proof (Z.div_mod n 10 ltac:(lia)) as Hd. destruct (Z.eqb_spec (n / 10) 0) as [E|E].
    + exists (48 + n mod 10), []. split; [done|]. split; [apply is_digit_mod|]. intros m rest. cbn [app]. rewrite read_digits_cons.
      f_equal. change (length [48 + n mod 10]) with 1%nat. lia.
    + assert (Hp : 2 ^ (Z.of_nat (S fuel) + 1) = 2 * 2 ^ (Z.of_nat fuel + 1)) by (rewrite <- Z.pow_succ_r by lia; f_equal; lia).
      destruct (IH (n / 10) ((48 + n mod 10) :: acc)) as (c & k & -> & Hc & Hr); [pose proof (Z.div_pos n 10); Z.div_mod_to_equations; lia|].
      exists c, (k ++ [48 + n mod 10]). change (c :: k ++ [48 + n mod 10]) with ((c :: k) ++ [48 + n mod 10]).
      split; [by rewrite <- app_assoc|]. split; [done|]. intros m rest. rewrite <- app_assoc, Hr. change ([48 + n mod 10] ++ rest) with ((48 + n mod 10) :: rest). rewrite read_digits_cons. f_equal.
      rewrite length_app, Nat2Z.inj_add. change (Z.of_nat (length [48 + n mod 10])) with 1. rewrite Z.pow_add_r by lia. lia.
Qed.

Lemma read_digits_end m rest : ends rest -> read_digits m rest = (m, rest).
Proof. destruct rest as [|c rest]; [done|]. cbn. by intros ->. Qed.

Lemma natural_read n rest : 0 <= n -> ends rest ->
  exists c k, natural n = c :: k /\ is_digit c = true /\ read_digits 0 ((c :: k) ++ rest) = (n, rest).
Proof.
  intros Hn He. unfold natural. destruct (digits_read (Z.to_nat (Z.log2 n)) n []) as (c & k & -> & Hc & Hr).
  - split; [done|]. pose proof (Z.log2_nonneg n). rewrite Z2Nat.id, Z.add_1_r by lia. destruct (Z.eq_dec n 0) as [->|]; [done|].
    apply Z.log2_spec. lia.
  - exists c, k. rewrite app_nil_r. split; [done|]. split; [done|]. by rewrite Hr, read_digits_end.
Qed.

Lemma digit_other c : is_digit c = true -> (c =? 34) = false /\ (c =? 91) = false /\ (c =? 123) = false /\ (c =? 45) = false.
Proof. unfold is_digit. lia. Qed.

Lemma decimal_read fuel n rest : ends rest -> read (S fuel) (decimal n ++ rest) = Some (TInt n, rest).
Proof.
  intros He. unfold decimal. destruct (Z.ltb_spec n 0) as [Hn|Hn].
  - destruct (natural_read (- n) rest ltac:(lia) He) as (c & k & -> & Hc & Hr). cbn [app read]. change (45 =? 34) with false.
    change (45 =? 91) with false. change (45 =? 123) with false. change (45 =? 45) with true. cbn match. rewrite Hc.
    cbn [app] in Hr. rewrite Hr. by rewrite Z.opp_involutive.
  - destruct (natural_read n rest Hn He) as (c & k & -> & Hc & Hr). cbn [app read].
    destruct (digit_other c Hc) as (-> & -> & -> & ->). rewrite Hc. cbn [app] in Hr. by rewrite Hr.
Qed.

(** ** Texts that read as a tree *)

Definition reads (text : list Z) (t : tree) : Prop :=
  (exists c k, text = c :: k /\ c <> 32 /\ c <> 93 /\ c <> 125) /\
  forall fuel rest, ends rest -> (length text <= fuel)%nat -> read fuel (text ++ rest) = Some (t, rest).

(** The space that may follow a comma or a colon. *)
Definition space (sp : list Z) : Prop := sp = [] \/ sp = [32].

Lemma skip_space sp c s : space sp -> c <> 32 -> skip (sp ++ c :: s) = c :: s.
Proof.
  intros [-> | ->] Hc; [|done]. cbn. destruct c as [|p|p]; try done. do 5 (destruct p as [p|p|]; try done). destruct p as [p|p|]; done.
Qed.

Lemma separated_cons sep x y l : separated sep (x :: y :: l) = x ++ sep ++ separated sep (y :: l).
Proof. done. Qed.

Lemma expect_eq c s : expect c (c :: s) = Some s.
Proof. cbn. by rewrite Z.eqb_refl. Qed.

Lemma expect_ne c d s : d <> c -> expect c (d :: s) = None.
Proof. intros H. cbn. by destruct (Z.eqb_spec d c). Qed.

Lemma items_read (l : list (list Z * tree)) fuel rest : l <> [] -> Forall (fun p => reads (fst p) (snd p)) l ->
  (length (separated [44%Z] (map fst l)) < fuel)%nat ->
  read_items fuel (separated [44] (map fst l) ++ 93 :: rest) = Some (map snd l, rest).
Proof.
  revert fuel. induction l as [|[x t] l IH]; intros fuel Hne Hl Hf; [done|]. apply Forall_cons in Hl as [[(c & k & Ex & _) Hr] Hl].
  destruct fuel as [|fuel]; [lia|]. cbn [fst snd] in *. destruct l as [|[y u] l].
  - cbn [map separated fst snd] in *. cbn [read_items]. rewrite Hr by (done || lia). cbn [mbind option_bind].
    by rewrite expect_ne, expect_eq.
  - cbn [map fst snd] in *. rewrite separated_cons in *. rewrite !length_app in Hf. cbn [length] in Hf. cbn [read_items].
    rewrite <- !app_assoc. rewrite Hr by (done || lia). cbn [mbind option_bind app]. rewrite expect_eq.
    pose proof Hl as Hl2. apply Forall_cons in Hl2 as [[(d & j & Ey & Hd & _) _] _]. cbn [fst] in Ey.
    assert (Es : exists s, separated [44] (y :: map fst l) ++ 93 :: rest = d :: s).
    { rewrite Ey. destruct (map fst l); cbn [separated app]; by eexists. }
    assert (Hsk : skip (separated [44] (y :: map fst l) ++ 93 :: rest) = separated [44] (y :: map fst l) ++ 93 :: rest).
    { destruct Es as [s ->]. exact (skip_space [] d s (or_introl eq_refl) Hd). }
    rewrite Hsk. rewrite (IH fuel) by (done || lia). done.
Qed.

(** A field, with the space behind its colon. *)
Definition field_text (sp : list Z) (k text : list Z) : list Z := quote ++ k ++ quote ++ 58 :: sp ++ text.

Lemma fields_read sp cp (l : list (list Z * (list Z * tree))) fuel rest : space sp -> space cp -> l <> [] ->
  Forall (fun p => clean_str (fst p) /\ reads (fst (snd p)) (snd (snd p))) l ->
  (length (separated (44%Z :: cp) (map (fun p => field_text sp (fst p) (fst (snd p))) l)) < fuel)%nat ->
  read_fields fuel (separated (44 :: cp) (map (fun p => field_text sp (fst p) (fst (snd p))) l) ++ 125 :: rest) =
    Some (map (fun p => (fst p, snd (snd p))) l, rest).
Proof.
  intros Hsp Hcp. revert fuel. induction l as [|[k [x t]] l IH]; intros fuel Hne Hl Hf; [done|].
  apply Forall_cons in Hl as [[Hk [(c & j & Ex & Hc & _) Hr]] Hl]. destruct fuel as [|fuel]; [lia|]. cbn [fst snd] in *.
  assert (Hone : forall s, ends s -> (length x <= fuel)%nat ->
    (s ← expect 34 (field_text sp k x ++ s); '(k, s) ← read_string s; s ← expect 58 s; '(t, s) ← read fuel (skip s);
     match expect 44 s with
     | Some s => '(l, s) ← read_fields fuel (skip s); Some ((k, t) :: l, s)
     | None => s ← expect 125 s; Some ([(k, t)], s)
     end) =
    match expect 44 s with
    | Some s => '(l, s) ← read_fields fuel (skip s); Some ((k, t) :: l, s)
    | None => s ← expect 125 s; Some ([(k, t)], s)
    end).
  { intros s Hs Hx. unfold field_text, quote. cbn [app]. rewrite expect_eq. cbn [mbind option_bind]. rewrite <- !app_assoc. cbn [app].
    rewrite read_string_clean by done. cbn [mbind option_bind]. rewrite expect_eq. cbn [mbind option_bind]. rewrite <- app_assoc.
    assert (Hsk : skip (sp ++ x ++ s) = x ++ s) by (rewrite Ex; by apply skip_space). rewrite Hsk, Hr by done. done. }
  assert (Hlen : (length x <= length (field_text sp k x))%nat) by (unfold field_text; rewrite !length_app; cbn [length]; rewrite length_app; lia).
  destruct l as [|[k2 [y u]] l].
  - cbn [map separated fst snd] in *. cbn [read_fields]. rewrite (Hone (125 :: rest)) by (done || lia). by rewrite expect_ne, expect_eq.
  - cbn [map fst snd] in *. rewrite separated_cons in *. rewrite !length_app in Hf. cbn [length] in Hf. cbn [read_fields].
    rewrite <- !app_assoc. rewrite Hone by (done || lia). cbn [app]. rewrite expect_eq.
    assert (Hsk : forall s, skip (cp ++ separated (44 :: cp) (field_text sp k2 y :: map (fun p => field_text sp (fst p) (fst (snd p))) l) ++ s) =
      separated (44 :: cp) (field_text sp k2 y :: map (fun p => field_text sp (fst p) (fst (snd p))) l) ++ s).
    { intros s. assert (Es : exists s', separated (44 :: cp) (field_text sp k2 y :: map (fun p => field_text sp (fst p) (fst (snd p))) l) ++ s = 34 :: s').
      { unfold field_text at 1, quote. destruct (map _ l); cbn [separated app]; by eexists. }
      destruct Es as [s' ->]. by apply skip_space. }
    rewrite Hsk. rewrite (IH fuel) by (done || lia). done.
Qed.

Lemma array_reads (l : list (list Z * tree)) : Forall (fun p => reads (fst p) (snd p)) l ->
  reads (range_json SArray (map fst l)) (TArray (map snd l)).
Proof.
  intros Hl. split; [by eexists _, _|]. intros fuel rest He Hf. unfold range_json in *. cbn [fbegin fend] in *.
  change (bytes_of "[") with [91] in *. change (bytes_of "]") with [93] in *. change (bytes_of ",") with [44] in *.
  rewrite !length_app in Hf. cbn [length] in Hf. destruct fuel as [|fuel]; [lia|]. rewrite <- !app_assoc. cbn [app read].
  change (91 =? 34) with false. change (91 =? 91) with true. cbn match. destruct l as [|p l].
  - cbn [map separated app]. by rewrite expect_eq.
  - pose proof Hl as Hl2. apply Forall_cons in Hl2 as [[(c & k & Ex & _ & Hc & _) _] _].
    assert (Es : exists s, separated [44] (map fst (p :: l)) ++ 93 :: rest = c :: s).
    { cbn [map]. rewrite Ex. destruct (map fst l); cbn [separated app]; by eexists. }
    assert (En : expect 93 (separated [44] (map fst (p :: l)) ++ 93 :: rest) = None) by (destruct Es as [s ->]; by apply expect_ne).
    rewrite En, items_read by (done || lia). done.
Qed.

Lemma object_reads sp cp (l : list (list Z * (list Z * tree))) : space sp -> space cp ->
  Forall (fun p => clean_str (fst p) /\ reads (fst (snd p)) (snd (snd p))) l ->
  reads (123 :: separated (44 :: cp) (map (fun p => field_text sp (fst p) (fst (snd p))) l) ++ [125])
    (TObject (map (fun p => (fst p, snd (snd p))) l)).
Proof.
  intros Hsp Hcp Hl. split; [by eexists _, _|]. intros fuel rest He Hf. cbn [length] in Hf. rewrite length_app in Hf. cbn [length] in Hf.
  destruct fuel as [|fuel]; [lia|]. cbn [app read]. rewrite <- app_assoc. cbn [app].
  change (123 =? 34) with false. change (123 =? 91) with false. change (123 =? 123) with true. cbn match. destruct l as [|p l].
  - cbn [map separated app]. by rewrite expect_eq.
  - assert (En : expect 125 (separated (44 :: cp) (map (fun p => field_text sp (fst p) (fst (snd p))) (p :: l)) ++ 125 :: rest) = None).
    { cbn [map]. unfold field_text at 1, quote. destruct (map _ l); cbn [separated app]; by apply expect_ne. }
    rewrite En, fields_read by (done || lia). done.
Qed.

Lemma separated_length sep l t : t ∈ l -> (length t <= length (separated sep l))%nat.
Proof.
  induction l as [|x l IH]; [by intros ?%elem_of_nil|]. intros [->|Ht]%elem_of_cons; destruct l as [|y l].
  - done.
  - rewrite separated_cons, length_app. lia.
  - by apply elem_of_nil in Ht.
  - rewrite separated_cons, !length_app. specialize (IH Ht). lia.
Qed.

Lemma string_reads s : clean_str s -> reads (to_json_str s) (TString s).
Proof.
  intros Hs. unfold to_json_str, quote. rewrite c_str_clean by done. split; [by eexists _, _|]. intros fuel rest _ Hf. cbn [app length] in *.
  destruct fuel as [|fuel]; [lia|]. cbn [read]. change (34 =? 34) with true. cbn match. rewrite <- app_assoc. cbn [app]. by rewrite read_string_clean.
Qed.

Lemma decimal_reads n : reads (decimal n) (TInt n).
Proof.
  assert (Hh : exists c k, decimal n = c :: k /\ (c = 45 \/ is_digit c = true)).
  { unfold decimal. destruct (Z.ltb_spec n 0); [by eexists _, _; split; [done|left]|].
    destruct (natural_read n [] ltac:(lia) Logic.I) as (c & k & -> & Hc & _). exists c, k. auto. }
  destruct Hh as (c & k & E & Hc). split; [exists c, k; split; [done|]; unfold is_digit in Hc; lia|]. intros fuel rest He Hf.
  rewrite E in Hf. cbn [length] in Hf. destruct fuel as [|fuel]; [lia|]. by apply decimal_read.
Qed.

Lemma bool_reads (b : bool) : reads (if b then bytes_of "true" else bytes_of "false") (TBool b).
Proof.
  destruct b; (split; [by eexists _, _|]); intros fuel rest _ Hf; (destruct fuel as [|fuel]; [cbn in Hf; lia|]); done.
Qed.

Lemma fold_clean {A} (P : A -> Prop) l : fold_right (fun x Q => P x /\ Q) True l -> Forall P l.
Proof. induction l as [|x l IH]; [done|]. cbn. intros [H1 H2]. constructor; auto. Qed.

Lemma fold_clean2 {A} (P Q : A -> Prop) l : fold_right (fun x R => P x /\ Q x /\ R) True l -> Forall (fun x => P x /\ Q x) l.
Proof. induction l as [|x l IH]; [done|]. cbn. intros (H1 & H2 & H3). constructor; auto. Qed.

(** A pair of a map is a field. *)
Definition key (v : value) : list Z := match v with VString s => s | _ => [] end.
Definition clean_key (v : value) : Prop := match v with VString s => clean_str s | _ => False end.

Lemma pair_field k v : clean_key k -> pair_json (to_json k) v = field_text [] (key k) v /\ clean_str (key k).
Proof.
  destruct k as [s| | | | | | |]; try done. intros Hs. split; [|done]. unfold pair_json, field_text. cbn [to_json key]. unfold to_json_str.
  rewrite c_str_clean by done. by rewrite <- !app_assoc.
Qed.

(** The fields that [fields_read] is about. *)
Definition pair_triple (p : value * value) : list Z * (list Z * tree) := (key (fst p), (to_json (snd p), tree_of (snd p))).

Lemma pairs_fields (l : list (value * value)) : Forall (fun p => clean_key (fst p) /\ clean (snd p)) l ->
  map (fun p => pair_json (to_json (fst p)) (to_json (snd p))) l = map (fun p => field_text [] (fst p) (fst (snd p))) (map pair_triple l).
Proof.
  induction 1 as [|p l [Hk _] _ IH]; [done|]. cbn [map]. rewrite IH. f_equal. unfold pair_triple. cbn [fst snd]. by apply pair_field.
Qed.

Lemma range_length s l t : t ∈ l -> s <> SNone -> (length t < length (range_json s l))%nat.
Proof.
  intros Ht Hs. unfold range_json. rewrite !length_app. pose proof (separated_length (bytes_of ",") l t Ht).
  destruct s; [done|..]; cbn [fbegin]; change (length (bytes_of "[")) with 1%nat; change (length (bytes_of "{")) with 1%nat; lia.
Qed.

(** The elements of an object that are set. *)
Definition object_fields (l : list (list Z * option value)) : list (list Z * (list Z * tree)) :=
  omap (fun e => (fun v => (fst e, (to_json v, tree_of v))) <$> snd e) l.

Lemma object_text l : to_json (VObject l) =
  123 :: separated (44 :: [32]) (map (fun p => field_text [32] (fst p) (fst (snd p))) (object_fields l)) ++ [125].
Proof.
  cbn [to_json]. unfold object_json. change (bytes_of "{") with [123]. change (bytes_of "}") with [125]. cbn [app].
  do 3 f_equal. unfold object_fields. induction l as [|[k [v|]] l IH]; [done| |exact IH]. cbn. f_equal. exact IH.
Qed.

Lemma object_tree l : tree_of (VObject l) = TObject (map (fun p => (fst p, snd (snd p))) (object_fields l)).
Proof. cbn [tree_of]. f_equal. unfold object_fields. induction l as [|[k [v|]] l IH]; [done| |exact IH]. cbn. f_equal. exact IH. Qed.

Lemma json_reads n v : (length (to_json v) < n)%nat -> clean v -> reads (to_json v) (tree_of v).
Proof.
  revert v. induction n as [|n IH]; intros v Hn Hv; [lia|]. destruct v as [s|z|b|t|l|l|l|l].
  - by apply string_reads.
  - apply decimal_reads.
  - apply bool_reads.
  - done.
  - apply fold_clean in Hv. pose proof (array_reads (map (fun x => (to_json x, tree_of x)) l)) as H. rewrite !map_map in H. apply H.
    apply Forall_forall. intros p (x & -> & Hx)%list_elem_of_fmap. cbn [fst snd]. rewrite Forall_forall in Hv. apply IH, Hv; [|done].
    pose proof (range_length SArray (map to_json l) (to_json x) ltac:(by apply list_elem_of_fmap_2) ltac:(done)). cbn [to_json] in Hn. lia.
  - apply (fold_clean2 (fun p => clean_key (fst p)) (fun p => clean (snd p))) in Hv.
    pose proof (object_reads [] [] (map pair_triple l) (or_introl eq_refl) (or_introl eq_refl)) as H.
    rewrite <- pairs_fields, map_map in H by done. apply H. apply Forall_forall. intros p (x & -> & Hx)%list_elem_of_fmap.
    rewrite Forall_forall in Hv. destruct (Hv x Hx) as [Hk Hc]. unfold pair_triple. cbn [fst snd]. split; [by apply (pair_field _ [])|].
    apply IH, Hc. pose proof (range_length SMap (map (fun p => pair_json (to_json (fst p)) (to_json (snd p))) l)
      (pair_json (to_json (fst x)) (to_json (snd x))) ltac:(by apply (list_elem_of_fmap_2 (fun p => pair_json (to_json (fst p)) (to_json (snd p))))) ltac:(done)) as Hl.
    unfold pair_json in Hl at 1. rewrite !length_app in Hl. cbn [to_json] in Hn. lia.
  - apply (fold_clean2 (fun p => clean_key (fst p)) (fun p => clean (snd p))) in Hv.
    pose proof (array_reads (map (fun p => (bytes_of "{" ++ pair_json (to_json (fst p)) (to_json (snd p)) ++ bytes_of "}",
      TObject [(key (fst p), tree_of (snd p))])) l)) as H. rewrite !map_map in H. apply H.
    apply Forall_forall. intros p (x & -> & Hx)%list_elem_of_fmap. cbn [fst snd]. rewrite Forall_forall in Hv. destruct (Hv x Hx) as [Hk Hc].
    destruct (pair_field (fst x) (to_json (snd x)) Hk) as [E Hkc]. rewrite E.
    apply (object_reads [] [] [(key (fst x), (to_json (snd x), tree_of (snd x)))] (or_introl eq_refl) (or_introl eq_refl)).
    apply Forall_singleton. split; [done|]. cbn [fst snd]. apply IH, Hc.
    pose proof (range_length SArray (map (fun p => bytes_of "{" ++ pair_json (to_json (fst p)) (to_json (snd p)) ++ bytes_of "}") l)
      (bytes_of "{" ++ pair_json (to_json (fst x)) (to_json (snd x)) ++ bytes_of "}")
      ltac:(by apply (list_elem_of_fmap_2 (fun p => bytes_of "{" ++ pair_json (to_json (fst p)) (to_json (snd p)) ++ bytes_of "}"))) ltac:(done)) as Hl.
    rewrite !length_app in Hl. unfold pair_json in Hl at 1. rewrite !length_app in Hl. cbn [to_json] in Hn. lia.
  - apply (fold_clean2 (fun e => clean_str (fst e)) (fun e => match snd e with Some v => clean v | None => True end)) in Hv.
    rewrite object_text, object_tree. rewrite object_text in Hn. apply object_reads; [by right|by right|].
    apply Forall_forall. intros p Hp. unfold object_fields in Hp. apply list_elem_of_omap in Hp as ([k [v|]] & Hin & E); [|done].
    injection E as <-. rewrite Forall_forall in Hv. destruct (Hv _ Hin) as [Hk Hc]. cbn [fst snd] in *. split; [done|]. apply IH, Hc.
    assert (Hf : (k, (to_json v, tree_of v)) ∈ object_fields l) by (apply list_elem_of_omap; by exists (k, Some v)).
    apply (list_elem_of_fmap_2 (fun p => field_text [32] (fst p) (fst (snd p)))), (separated_length (44 :: [32])) in Hf. cbn [fst snd] in Hf.
    unfold field_text in Hf at 1. rewrite !length_app in Hf. cbn [length] in Hf. rewrite length_app in Hf. cbn [length] in Hn.
    rewrite length_app in Hn. change (fmap (M := list)) with (@map (list Z * (list Z * tree)) (list Z)) in Hf. lia.
Qed.

Lemma json_reads_back v : clean v -> read (length (to_json v)) (to_json v) = Some (tree_of v, []).
Proof.
  intros Hv. destruct (json_reads (S (length (to_json v))) v ltac:(lia) Hv) as [_ Hr].
  specialize (Hr (length (to_json v)) [] Logic.I ltac:(lia)). by rewrite app_nil_r in Hr.
Qed.

(** C24. JSON is read back: whatever the formatter prints of strings, integers, bools,
    vectors, maps and vectors of pairs whose keys are strings, and objects with elements
    that may not be set, nested in any way - a JSON reader takes for the value that was
    printed, when the strings hold no quote, backslash or control character.  Numbers
    that are no integers and dates, whose text is the library's, are left out; of keys
    that are no strings see [integer_keys_no_json], of the characters
    [json_quote_not_escaped] and [newline_no_json]. *)
Theorem json_read_back v : clean v -> read (length (to_json v)) (to_json v) = Some (tree_of v, []).
Proof. apply json_reads_back. Qed.

(** A string with a quote changes the structure: an object with one string prints
    as an object with a field more, and the reader takes it for that. *)
Theorem json_quote_not_escaped k s k' t : clean_str s -> clean_str k' -> clean_str t ->
  to_json (VObject [(k, Some (VString (s ++ quote ++ bytes_of ", " ++ quote ++ k' ++ quote ++ bytes_of ": " ++ quote ++ t)))]) =
  to_json (VObject [(k, Some (VString s)); (k', Some (VString t))]).
Proof.
  intros Hs Hk Ht. cbn [to_json map fst snd]. unfold object_json, field. cbn [omap list_omap fst snd fmap option_fmap option_map separated].
  unfold to_json_str. rewrite (c_str_clean s), (c_str_clean t) by done.
  assert (Hc : c_str (s ++ quote ++ bytes_of ", " ++ quote ++ k' ++ quote ++ bytes_of ": " ++ quote ++ t) =
    s ++ quote ++ bytes_of ", " ++ quote ++ k' ++ quote ++ bytes_of ": " ++ quote ++ t).
  { rewrite c_str_app by done. f_equal. change (quote ++ bytes_of ", " ++ quote ++ k' ++ quote ++ bytes_of ": " ++ quote ++ t)
      with (34 :: 44 :: 32 :: 34 :: k' ++ 34 :: 58 :: 32 :: 34 :: t). cbn. rewrite c_str_app by done. do 5 f_equal. cbn. by rewrite c_str_clean. }
  rewrite Hc. by rewrite <- !app_assoc.
Qed.

(** A map with integer keys is printed with keys that are not strings, and a string with
    a newline as it is: no JSON reader takes them. *)
Theorem integer_keys_no_json fuel : read fuel (to_json (VMap [(VInt 1, VInt 2); (VInt 3, VInt 4)])) = None.
Proof. by destruct fuel as [|[|fuel]]. Qed.

Theorem newline_no_json fuel s t : clean_str s -> read fuel (to_json (VString (s ++ 10 :: t))) = None.
Proof.
  intros Hs. destruct fuel as [|fuel]; [done|]. cbn [to_json]. unfold to_json_str. rewrite c_str_app by done. cbn [quote app read].
  change (34 =? 34) with true. cbn match. rewrite <- app_assoc. replace (read_string _) with (@None (list Z * list Z)); [done|].
  induction Hs as [|c s (H1 & H2 & H3) _ IH]; [done|]. cbn [app read_string]. destruct (Z.eqb_spec c 34), (Z.eqb_spec c 92), (Z.ltb_spec c 32); try done.
  cbn [orb]. by rewrite <- IH.
Qed.

Lemma newline_no_json_witness : read 5 (to_json (VString (bytes_of "ab" ++ 10 :: bytes_of "c"))) = None.
Proof. apply (newline_no_json 5 (bytes_of "ab") (bytes_of "c")). unfold clean_str. repeat (split || constructor); discriminate. Defined.

Lemma json_read_back_witness :
  let v := VObject [(bytes_of "message", Some (VString (bytes_of "Not found"))); (bytes_of "x", None); (bytes_of "codes", Some (VArray [VInt (-404); VBool true; VMap [(VString [], VInt 0)]]))] in
  read (length (to_json v)) (to_json v) = Some (tree_of v, []).
Proof. intros v. apply (json_read_back v). cbn. unfold clean_str. repeat (split || constructor); discriminate. Defined.

Lemma json_quote_not_escaped_witness :
  let q := VObject [(bytes_of "message", Some (VString (bytes_of "x" ++ quote ++ bytes_of ", " ++ quote ++ bytes_of "code" ++ quote ++ bytes_of ": " ++ quote ++ bytes_of "y")))] in
  to_json q = to_json (VObject [(bytes_of "message", Some (VString (bytes_of "x"))); (bytes_of "code", Some (VString (bytes_of "y")))]).
Proof. intros q. apply (json_quote_not_escaped (bytes_of "message") (bytes_of "x") (bytes_of "code") (bytes_of "y")); unfold clean_str; repeat (split || constructor); discriminate. Defined.
