(* ===== verification/Http.v ===== *)
(** * HTTP routing: src/http/routes.cc, matcher.cc, common.cc, mime_types.cc, reply.cc, json_path.cc and their headers

    Strings are byte strings, positions in them natural numbers with [None] for
    [npos].  A handler is known by its address, a natural number; what it does is an
    argument of [handle]. *)

From S2P Require Import Prelude Json.
From stdpp Require Import base numbers option gmap list strings.

#[local] Open Scope Z_scope.

Abbreviation sstring := (list Z).

(** [find(c, pos)], [find(str, pos)] of a string *)
Fixpoint index_of (c : Z) (s : sstring) : option nat :=
  match s with [] => None | d :: s => if d =? c then Some O else S <$> index_of c s end.
Definition find_char (s : sstring) (c : Z) (pos : nat) : option nat := (fun i => (pos + i)%nat) <$> index_of c (drop pos s).

Definition is_prefix (p s : sstring) : bool := bool_decide (take (length p) s = p).
Fixpoint search (p s : sstring) : option nat :=
  if is_prefix p s then Some O else match s with [] => None | _ :: s => S <$> search p s end.
Definition find_str (s p : sstring) (pos : nat) : option nat := (fun i => (pos + i)%nat) <$> search p (drop pos s).

Definition slash : Z := 47.

(** ** [class parameters] *)

Definition parameters : Type := gmap sstring sstring.

(** [path(key)], [operator[](key)]: without its first character; [None] throws. *)
Definition param_path (key : sstring) (p : parameters) : option sstring := p !! key.
Definition param_get (key : sstring) (p : parameters) : option sstring :=
  v ← p !! key; match v with [] => None | _ :: v => Some v end.

(** ** Matchers *)

(** [class param_matcher], [class str_matcher] *)
Inductive matcher := ParamMatcher (name : sstring) (entire_path : bool) | StrMatcher (cmp : sstring).

Definition find_end_param (url : sstring) (ind : nat) (entire_path : bool) : nat :=
  if entire_path then length url
  else match find_char url slash (S ind) with None => length url | Some pos => pos end.

(** [match(url, ind, param)]: the end of the matched part. *)
Definition param_match (name : sstring) (entire_path : bool) (url : sstring) (ind : nat) (p : parameters) : option nat * parameters :=
  let last := find_end_param url ind entire_path in
  if (last =? ind)%nat then
    if entire_path then (Some ind, <[name := []]> p) else (None, p)
  else (Some last, <[name := take (last - ind) (drop ind url)]> p).

Definition str_match (cmp url : sstring) (ind : nat) (p : parameters) : option nat * parameters :=
  let len := Z.to_nat (u32 (zlen cmp)) in
  if ((len + ind <=? length url)%nat && bool_decide (find_str url cmp ind = Some ind) &&
      ((length url =? len + ind)%nat || bool_decide (url !! (len + ind)%nat = Some slash)))
  then (Some (len + ind)%nat, p) else (None, p).

Definition match_one (m : matcher) : sstring -> nat -> parameters -> option nat * parameters :=
  match m with ParamMatcher name entire => param_match name entire | StrMatcher cmp => str_match cmp end.

(** [class match_rule] *)
Definition handler : Type := nat.
Record match_rule := MatchRule { match_list : list matcher; rule_handler : handler }.

Fixpoint match_all (l : list matcher) (url : sstring) (ind : nat) (p : parameters) : option nat * parameters :=
  match l with
  | [] => (Some ind, p)
  | m :: l => match match_one m url ind p with (Some ind, p) => match_all l url ind p | r => r end
  end.

(** [get(url, params)] *)
Definition rule_get (r : match_rule) (url : sstring) (p : parameters) : option handler * parameters :=
  match match_list r with
  | [] => (Some (rule_handler r), p)
  | l => match match_all l url 0 p with
         | (Some ind, p) => (if (length url <=? ind + 1)%nat then Some (rule_handler r) else None, p)
         | (None, p) => (None, p)
         end
  end.

(** ** [class routes] *)

Inductive operation_type := GET | POST | PUT | DELETE | HEAD | OPTIONS | TRACE | CONNECT.
#[global] Instance operation_type_eq : EqDecision operation_type.
Proof. solve_decision. Defined.

(** [str2type(type)] *)
Definition str2type (type : sstring) : operation_type :=
  if bool_decide (type = bytes_of "DELETE") then DELETE
  else if bool_decide (type = bytes_of "POST") then POST
  else if bool_decide (type = bytes_of "PUT") then PUT
  else if bool_decide (type = bytes_of "HEAD") then HEAD
  else if bool_decide (type = bytes_of "OPTIONS") then OPTIONS
  else if bool_decide (type = bytes_of "TRACE") then TRACE
  else if bool_decide (type = bytes_of "CONNECT") then CONNECT
  else GET.

(** The exact matches and the rules of each operation, the rules by ascending
    cookie; the next cookie; the default handler. *)
Record routes := Routes {
  r_map : operation_type -> gmap sstring handler; r_rules : operation_type -> list (Z * match_rule);
  r_rover : Z; r_default : option handler }.

Definition routes_init : routes := Routes (fun _ => ∅) (fun _ => []) 0 None.

Definition update {A} (t : operation_type) (a : A) (f : operation_type -> A) : operation_type -> A :=
  fun t' => if decide (t' = t) then a else f t'.

(** [_rules[type][cookie] = rule], a [std::map] *)
Fixpoint set_rule (cookie : Z) (r : match_rule) (l : list (Z * match_rule)) : list (Z * match_rule) :=
  match l with
  | [] => [(cookie, r)]
  | (c, r') :: l' => if cookie <? c then (cookie, r) :: l else if cookie =? c then (cookie, r) :: l' else (c, r') :: set_rule cookie r l'
  end.

(** [put], which throws when the url has a handler; [drop]; [add_default_handler]. *)
Definition routes_put (t : operation_type) (url : sstring) (h : handler) (r : routes) : option routes :=
  match r_map r t !! url with
  | Some _ => None
  | None => Some (Routes (update t (<[url := h]> (r_map r t)) (r_map r)) (r_rules r) (r_rover r) (r_default r))
  end.
Definition routes_drop (t : operation_type) (url : sstring) (r : routes) : routes * option handler :=
  (Routes (update t (delete url (r_map r t)) (r_map r)) (r_rules r) (r_rover r) (r_default r), r_map r t !! url).
Definition add_default_handler (h : handler) (r : routes) : routes := Routes (r_map r) (r_rules r) (r_rover r) (Some h).

(** [add_cookie(rule, type)], [add(rule, type)]: the cookie; [del_cookie]. *)
Definition add_cookie (rule : match_rule) (t : operation_type) (r : routes) : routes * Z :=
  (Routes (r_map r) (update t (set_rule (r_rover r) rule (r_rules r t)) (r_rules r)) (u64 (r_rover r + 1)) (r_default r), r_rover r).
Definition del_cookie (cookie : Z) (t : operation_type) (r : routes) : routes * option match_rule :=
  (Routes (r_map r) (update t (List.filter (fun e => negb (fst e =? cookie)) (r_rules r t)) (r_rules r)) (r_rover r) (r_default r),
   snd <$> List.find (fun e => fst e =? cookie) (r_rules r t)).

(** [add(type, url, handler)] *)
Definition routes_add (t : operation_type) (path param : sstring) (h : handler) (r : routes) : routes :=
  fst (add_cookie (MatchRule (StrMatcher path :: (if bool_decide (param = []) then [] else [ParamMatcher param true])) h) t r).

(** [normalize_url(url)] *)
Definition normalize_url (url : sstring) : sstring :=
  if (length url <? 2)%nat || negb (bool_decide (last url = Some slash)) then url else take (length url - 1) url.

(** [get_exact_match], and the loop of [get_handler] over the rules. *)
Definition get_exact_match (t : operation_type) (url : sstring) (r : routes) : option handler := r_map r t !! url.
Fixpoint try_rules (l : list (Z * match_rule)) (url : sstring) (p : parameters) : option handler * parameters :=
  match l with
  | [] => (None, p)
  | (_, rule) :: l => match rule_get rule url p with (Some h, p) => (Some h, p) | (None, _) => try_rules l url ∅ end
  end.
Definition routes_get (t : operation_type) (url : sstring) (p : parameters) (r : routes) : option handler * parameters :=
  match get_exact_match t url r with
  | Some h => (Some h, p)
  | None => match try_rules (r_rules r t) url p with (Some h, p) => (Some h, p) | (None, p) => (r_default r, p) end
  end.

(** ** [struct path_description] *)

Inductive path_part := Param (name : sstring) | ParamUntilEnd (name : sstring) | FixedString (name : sstring).
Record path_description := PathDescription {
  d_path : sstring; d_params : list path_part; d_method : operation_type; d_mandatory : list sstring }.

Definition part_matcher (p : path_part) : matcher :=
  match p with Param name => ParamMatcher name false | ParamUntilEnd name => ParamMatcher name true | FixedString s => StrMatcher s end.

(** The mandatory parameters of each handler; [handler->mandatory(param)] *)
Definition mandatory_params : Type := handler -> list sstring.
Definition mandatory (h : handler) (l : list sstring) (m : mandatory_params) : mandatory_params :=
  fun h' => if (h' =? h)%nat then l else m h'.

(** [set(routes, handler)]: the handler has its mandatory parameters even when [put]
    throws; the cookie is given when the path has parameters. *)
Definition path_set (d : path_description) (h : handler) (m : mandatory_params) (r : routes) : mandatory_params * option (routes * option Z) :=
  (mandatory h (m h ++ d_mandatory d) m,
   match d_params d with
   | [] => (fun r => (r, None)) <$> routes_put (d_method d) (d_path d) h r
   | l => let '(r, c) := add_cookie (MatchRule (StrMatcher (d_path d) :: map part_matcher l) h) (d_method d) r in Some (r, Some c)
   end).

(** [unset(routes)] *)
Definition path_unset (d : path_description) (cookie : Z) (r : routes) : routes :=
  match d_params d with
  | [] => fst (routes_drop (d_method d) (d_path d) r)
  | _ => fst (del_cookie cookie (d_method d) r)
  end.

(** [add_alias(old_path, new_path)]: the path that is looked up, and the copy [h] of the
    handler that is found, which is set at the new path; [None] when nothing is found. *)
Definition alias_path (d : path_description) : sstring :=
  d_path d ++ concat (map (fun p => match p with FixedString s => s | _ => bytes_of "/k" end) (d_params d)).
Definition add_alias (old new : path_description) (h : handler) (m : mandatory_params) (r : routes) :
    option (mandatory_params * option (routes * option Z)) :=
  a ← fst (routes_get (d_method old) (alias_path old) ∅ r);
  Some (path_set new h (mandatory h (m a) m) r).
