(* ===== verification/HttpSpec.v ===== *)
(** * HTTP routing: what a rule matches and which handler a request gets

    [walks] says, without positions, how the parts of a rule divide a url;
    [rule_matches] that [match_rule::get] decides it and fills the parameters with
    it.  [dispatches] is the abstract table of routes, a history of registrations,
    and [routes_dispatch] that [get_handler] answers from it. *)

From S2P Require Import Prelude Json Http.
From stdpp Require Import base numbers option gmap list strings.

#[local] Open Scope Z_scope.

(** ** Lemmas on searching *)

Lemma is_prefix_spec p s : is_prefix p s = true <-> exists t, s = p ++ t.
Proof.
  unfold is_prefix. rewrite bool_decide_eq_true. split.
  - intros H. exists (drop (length p) s). rewrite <- (take_drop (length p) s) at 1. by rewrite H.
  - intros [t ->]. by rewrite take_app_length.
Qed.

Lemma search_0 p s : search p s = Some O <-> exists t, s = p ++ t.
Proof.
  rewrite <- is_prefix_spec. destruct s as [|c s]; simpl; destruct (is_prefix p _) eqn:E; try done.
  destruct (search p s); done.
Qed.

Lemma find_str_here s p pos : (pos <= length s)%nat -> find_str s p pos = Some pos <-> exists t, drop pos s = p ++ t.
Proof.
  intros Hp. unfold find_str. rewrite <- search_0. destruct (search p (drop pos s)) as [i|]; simpl; [|done].
  split; intros [= H]; [by replace i with O by lia|by subst; rewrite Nat.add_0_r].
Qed.

(** A segment: what is in front of the next slash. *)
Definition at_slash (s : sstring) : Prop := s = [] \/ exists s', s = slash :: s'.

Lemma index_of_split c s :
  match index_of c s with
  | Some i => exists a b, s = a ++ c :: b /\ c ∉ a /\ length a = i
  | None => c ∉ s
  end.
Proof.
  induction s as [|d s IH]; simpl; [apply not_elem_of_nil|]. destruct (Z.eqb_spec d c) as [->|Hd].
  - exists [], s. split_and!; [done|apply not_elem_of_nil|done].
  - destruct (index_of c s) as [i|]; simpl.
    + destruct IH as (a & b & -> & Ha & <-). exists (d :: a), b. split_and!; [done|apply not_elem_of_cons; by split; [congruence|]|done].
    + apply not_elem_of_cons. by split; [congruence|].
Qed.

Lemma index_of_app c a b : c ∉ a -> index_of c (a ++ c :: b) = Some (length a).
Proof.
  induction a as [|d a IH]; simpl; [by rewrite Z.eqb_refl|]. intros [H1 H2]%not_elem_of_cons.
  destruct (Z.eqb_spec d c); [congruence|]. by rewrite IH.
Qed.

Lemma index_of_none c s : c ∉ s -> index_of c s = None.
Proof. pose proof (index_of_split c s). destruct (index_of c s) as [i|]; [|done].
  destruct H as (a & b & -> & _). intros []. apply elem_of_app. right. by left. Qed.

(** ** What a rule matches *)

(** [walks l s b t]: the matchers [l] divide [s], binding [b] and leaving [t]. *)
Inductive walks : list matcher -> sstring -> list (sstring * sstring) -> sstring -> Prop :=
  | walks_end s : walks [] s [] s
  | walks_str cmp s l b t : at_slash s -> walks l s b t -> walks (StrMatcher cmp :: l) (cmp ++ s) b t
  | walks_rest name s l b t : walks l [] b t -> walks (ParamMatcher name true :: l) s ((name, s) :: b) t
  | walks_param name c seg s l b t : slash ∉ seg -> at_slash s -> walks l s b t ->
      walks (ParamMatcher name false :: l) (c :: seg ++ s) ((name, c :: seg) :: b) t.

Definition bind_all (b : list (sstring * sstring)) (p : parameters) : parameters := fold_left (fun p e => <[fst e := snd e]> p) b p.

Definition short (m : matcher) : Prop := match m with StrMatcher cmp => zlen cmp < 2 ^ 32 | _ => True end.

(** One matcher at the position behind [a]. *)
Definition takes (m : matcher) (s : sstring) (b : list (sstring * sstring)) (s' : sstring) : Prop :=
  match m with
  | StrMatcher cmp => s = cmp ++ s' /\ at_slash s' /\ b = []
  | ParamMatcher name true => s' = [] /\ b = [(name, s)]
  | ParamMatcher name false => exists c seg, s = c :: seg ++ s' /\ slash ∉ seg /\ at_slash s' /\ b = [(name, c :: seg)]
  end.

Lemma walks_cons m l s b t : walks (m :: l) s b t <-> exists b1 b2 s', takes m s b1 s' /\ b = b1 ++ b2 /\ walks l s' b2 t.
Proof.
  split.
  - inversion 1; subst; simpl.
    + exists [], b, s0. done.
    + exists [(name, s)], b0, []. done.
    + exists [(name, c :: seg)], b0, s0. split_and!; [|done|done]. by exists c, seg.
  - intros (b1 & b2 & s' & Hm & -> & Hw). destruct m as [name [|]|cmp]; simpl in Hm.
    + destruct Hm as [-> ->]. by apply walks_rest.
    + destruct Hm as (c & seg & -> & H1 & H2 & ->). by apply walks_param.
    + destruct Hm as (-> & H1 & ->). by apply walks_str.
Qed.

Lemma walks_nil s b t : walks [] s b t <-> b = [] /\ t = s.
Proof. split; [by inversion 1|]. intros [-> ->]. constructor. Qed.

Lemma bind_app b1 b2 p : bind_all (b1 ++ b2) p = bind_all b2 (bind_all b1 p).
Proof. unfold bind_all. apply fold_left_app. Qed.

Lemma param_end a s : find_end_param (a ++ s) (length a) false =
  (length a + match s with [] => 0 | c :: s => S (match index_of slash s with Some i => i | None => length s end) end)%nat.
Proof.
  unfold find_end_param, find_char. destruct s as [|c s].
  - rewrite drop_ge by (rewrite length_app; simpl; lia). simpl. rewrite length_app. simpl. lia.
  - replace (drop (S (length a)) (a ++ c :: s)) with s
      by (replace (S (length a)) with (length a + 1)%nat by lia; by rewrite <- drop_drop, drop_app_length).
    destruct (index_of slash s); simpl; [lia|]. rewrite length_app. simpl. lia.
Qed.

Lemma param_end_rest a s : find_end_param (a ++ s) (length a) true = length (a ++ s).
Proof. done. Qed.

Lemma at_slash_index seg s : slash ∉ seg -> at_slash s ->
  match index_of slash (seg ++ s) with Some i => i | None => length (seg ++ s) end = length seg.
Proof.
  intros Hs [->|[s' ->]].
  - rewrite app_nil_r, (index_of_none _ _ Hs). done.
  - by rewrite index_of_app.
Qed.

Lemma one_takes m a s b d s' p : short m -> takes m s b s' -> s = d ++ s' ->
  match_one m (a ++ s) (length a) p = (Some (length (a ++ d)), bind_all b p).
Proof.
  intros Hlen Ht ->. destruct m as [name [|]|cmp]; simpl in *.
  - destruct Ht as [-> ->]. rewrite app_nil_r. unfold param_match. rewrite param_end_rest, length_app.
    destruct d as [|c d]; simpl; [by rewrite Nat.add_0_r, Nat.eqb_refl|].
    destruct (Nat.eqb_spec (length a + S (length d)) (length a)); [lia|]. unfold bind_all. simpl. do 3 f_equal.
    rewrite drop_app_length, take_ge by (simpl; lia). done.
  - destruct Ht as (c & seg & H & H1 & H2 & ->). assert (d = c :: seg) as ->.
    { change (c :: seg ++ s') with ((c :: seg) ++ s') in H. by apply app_inv_tail in H. }
    unfold param_match. simpl ((c :: seg) ++ s'). rewrite param_end, at_slash_index by done.
    destruct (Nat.eqb_spec (length a + S (length seg)) (length a)); [lia|]. rewrite length_app. simpl.
    unfold bind_all. simpl. do 3 f_equal. rewrite drop_app_length.
    replace (length a + S (length seg) - length a)%nat with (length (c :: seg)) by (simpl; lia).
    change (c :: seg ++ s') with ((c :: seg) ++ s'). by rewrite take_app_length.
  - destruct Ht as (H & H1 & ->). apply app_inv_tail in H as <-. unfold str_match.
    rewrite wrap_small by (pose proof (zlen_nonneg d); lia). unfold zlen. rewrite Nat2Z.id.
    replace (length d + length a <=? length (a ++ d ++ s'))%nat with true by (symmetry; apply Nat.leb_le; rewrite !length_app; lia). simpl.
    rewrite bool_decide_true by (apply find_str_here; [rewrite !length_app; lia|rewrite drop_app_length; eauto]). simpl.
    destruct H1 as [->|[s'' ->]].
    + rewrite app_nil_r, length_app, (Nat.add_comm (length a)), Nat.eqb_refl. done.
    + rewrite (bool_decide_true (_ !! _ = _)); [by rewrite orb_true_r, (length_app a d), Nat.add_comm|].
      rewrite app_assoc, lookup_app_r by (rewrite length_app; lia). rewrite length_app.
      by replace (length d + length a - (length a + length d))%nat with O by lia.
Qed.

Lemma one_complete m a s i p p' : short m -> match_one m (a ++ s) (length a) p = (Some i, p') ->
  exists b d s', s = d ++ s' /\ takes m s b s' /\ i = length (a ++ d) /\ p' = bind_all b p.
Proof.
  intros Hlen. destruct m as [name [|]|cmp]; simpl.
  - intros H. exists [(name, s)], s, []. rewrite app_nil_r. split_and!; [done|done|done| |].
    + revert H. unfold param_match. rewrite param_end_rest. case_match eqn:E; intros [= <- _]; [by apply Nat.eqb_eq in E|done].
    + pose proof (one_takes (ParamMatcher name true) a s [(name, s)] s [] p) as H2. simpl in H2.
      rewrite app_nil_r in H2. rewrite H2 in H by done. by inversion H.
  - unfold param_match. rewrite param_end. destruct s as [|c s]; [by rewrite Nat.add_0_r, Nat.eqb_refl|].
    set (n := match index_of slash s with Some i => i | None => length s end).
    destruct (Nat.eqb_spec (length a + S n) (length a)); [lia|]. intros [= <- <-].
    assert (slash ∉ take n s /\ at_slash (drop n s) /\ (n <= length s)%nat) as (H1 & H2 & H3).
    { pose proof (index_of_split slash s) as Hi. subst n. destruct (index_of slash s) as [i|].
      - destruct Hi as (x & y & -> & Hx & <-). rewrite take_app_length, drop_app_length, length_app. simpl.
        split_and!; [done|right; eauto|lia].
      - rewrite take_ge, drop_ge by lia. split_and!; [done|by left|done]. }
    exists [(name, c :: take n s)], (c :: take n s), (drop n s). split_and!.
    + simpl. by rewrite take_drop.
    + exists c, (take n s). by rewrite take_drop.
    + rewrite length_app. simpl. rewrite length_take. lia.
    + unfold bind_all. simpl. f_equal. rewrite drop_app_length.
      replace (length a + S n - length a)%nat with (S n) by lia. done.
  - unfold str_match. rewrite wrap_small by (simpl in Hlen; pose proof (zlen_nonneg cmp); lia). unfold zlen. rewrite Nat2Z.id.
    case_match eqn:E; [|done]. intros [= <- <-]. apply andb_true_iff in E as [E E3]. apply andb_true_iff in E as [E1 E2].
    apply Nat.leb_le in E1. apply bool_decide_eq_true in E2. apply find_str_here in E2 as [t Ht]; [|lia].
    rewrite drop_app_length in Ht. subst s. exists [], cmp, t. split_and!; [done|done| |done|rewrite length_app; lia|done].
    apply orb_true_iff in E3 as [E3|E3]; [left|right].
    + apply Nat.eqb_eq in E3. rewrite !length_app in E3. destruct t; [done|simpl in E3; lia].
    + apply bool_decide_eq_true in E3. rewrite app_assoc, lookup_app_r in E3 by (rewrite length_app; lia).
      rewrite length_app in E3. replace (length cmp + length a - (length a + length cmp))%nat with O in E3 by lia.
      destruct t as [|c t]; [done|]. simpl in E3. inversion E3. eauto.
Qed.

Lemma all_walks l a s i p p' : Forall short l -> match_all l (a ++ s) (length a) p = (Some i, p') <->
  exists b t, walks l s b t /\ (i + length t)%nat = (length a + length s)%nat /\ p' = bind_all b p.
Proof.
  revert a s p. induction l as [|m l IH]; intros a s p Hl; simpl.
  - split.
    + intros [= <- <-]. exists [], s. split; [constructor|done].
    + intros (b & t & [-> ->]%walks_nil & H & ->). simpl. do 2 f_equal. lia.
  - apply Forall_cons in Hl as [Hm Hl]. split.
    + destruct (match_one m (a ++ s) (length a) p) as [[j|] q] eqn:E; [|done]. intros H.
      apply one_complete in E as (b1 & d & s' & -> & Ht & -> & ->); [|done]. rewrite app_assoc in H. apply IH in H as (b2 & t & Hw & Hi & ->); [|done].
      exists (b1 ++ b2), t. split_and!; [apply walks_cons; eauto 10|rewrite !length_app in *; lia|by rewrite bind_app].
    + intros (b & t & (b1 & b2 & s' & Ht & -> & Hw)%walks_cons & Hi & ->).
      assert (exists d, s = d ++ s') as [d ->].
      { destruct m as [name [|]|cmp]; simpl in Ht; [destruct Ht as [-> _]; exists s; by rewrite app_nil_r| |destruct Ht as [-> _]; eauto].
        destruct Ht as (c & seg & -> & _). by exists (c :: seg). }
      rewrite (one_takes m a (d ++ s') b1 d s' p) by done. rewrite app_assoc. apply IH; [done|]. exists b2, t.
      split_and!; [done|rewrite !length_app in *; lia|by rewrite bind_app].
Qed.

Definition accepts (r : match_rule) (url : sstring) (b : list (sstring * sstring)) : Prop :=
  (match_list r = [] /\ b = []) \/
  (match_list r <> [] /\ exists t, walks (match_list r) url b t /\ (length t <= 1)%nat).

Lemma rule_get_accepts r url p h p' : Forall short (match_list r) ->
  rule_get r url p = (Some h, p') <-> h = rule_handler r /\ exists b, accepts r url b /\ p' = bind_all b p.
Proof.
  intros Hs. unfold rule_get, accepts. destruct (match_list r) as [|m l] eqn:E.
  - split; [intros [= <- <-]; eauto 10|]. intros (-> & b & [[_ ->]|[? _]] & ->); done.
  - pose proof (all_walks (m :: l) [] url) as Hw. simpl app in Hw. split.
    + destruct (match_all (m :: l) url 0 p) as [[i|] q] eqn:Em; [|done].
      destruct (Nat.leb_spec (length url) (i + 1)); [|done]. intros [= <- <-]. apply Hw in Em as (b & t & H1 & H2 & ->); [|done].
      split; [done|]. exists b. split; [|done]. right. split; [done|]. exists t. split; [done|]. simpl in H2. lia.
    + intros (-> & b & [[? _]|[_ (t & H1 & H2)]] & ->); [done|].
      pose proof (proj2 (Hw (length url - length t)%nat p (bind_all b p) Hs)) as Hm. simpl length in Hm. rewrite Hm.
      * destruct (Nat.leb_spec (length url) (length url - length t + 1)); [done|lia].
      * exists b, t. split_and!; [done| |done]. simpl. assert (length t <= length url)%nat; [|lia].
        clear -H1. induction H1; simpl in *; rewrite ?length_app; simpl; rewrite ?length_app; lia.
Qed.

Lemma rule_get_none r url p p' : Forall short (match_list r) -> rule_get r url p = (None, p') -> forall b, ~ accepts r url b.
Proof.
  intros Hs H b Hb. pose proof (rule_get_accepts r url p (rule_handler r) (bind_all b p) Hs) as [_ Hr].
  rewrite Hr in H by eauto. done.
Qed.

(** ** The table of routes *)

(** A history of registrations, the newest first. *)
Inductive registration :=
  | Put (t : operation_type) (url : sstring) (h : handler)
  | Drop (t : operation_type) (url : sstring)
  | Add (t : operation_type) (rule : match_rule)
  | Del (t : operation_type) (cookie : Z)
  | Default (h : handler).

Definition register (e : registration) (r : routes) : routes :=
  match e with
  | Put t url h => default r (routes_put t url h r)
  | Drop t url => fst (routes_drop t url r)
  | Add t rule => fst (add_cookie rule t r)
  | Del t c => fst (del_cookie c t r)
  | Default h => add_default_handler h r
  end.
Definition table (hist : list registration) : routes := foldr register routes_init hist.

(** The handler that a url has: the first that was put and not dropped since. *)
Fixpoint exact_of (t : operation_type) (url : sstring) (hist : list registration) : option handler :=
  match hist with
  | [] => None
  | Put t' url' h :: hist =>
    match exact_of t url hist with
    | Some h' => Some h'
    | None => if decide (t' = t /\ url' = url) then Some h else None
    end
  | Drop t' url' :: hist => if decide (t' = t /\ url' = url) then None else exact_of t url hist
  | _ :: hist => exact_of t url hist
  end.

(** The rules that are registered, in the order of their registration. *)
Definition added (hist : list registration) : Z := zlen (List.filter (fun e => match e with Add _ _ => true | _ => false end) hist).
Fixpoint live (t : operation_type) (hist : list registration) : list (Z * match_rule) :=
  match hist with
  | [] => []
  | Add t' rule :: hist => live t hist ++ (if decide (t' = t) then [(added hist, rule)] else [])
  | Del t' c :: hist => if decide (t' = t) then List.filter (fun e => negb (fst e =? c)) (live t hist) else live t hist
  | _ :: hist => live t hist
  end.
Fixpoint default_of (hist : list registration) : option handler :=
  match hist with [] => None | Default h :: _ => Some h | _ :: hist => default_of hist end.

Lemma set_rule_last c r l : Forall (fun e => fst e < c) l -> set_rule c r l = l ++ [(c, r)].
Proof.
  induction 1 as [|[c' r'] l H _ IH]; simpl in *; [done|].
  destruct (Z.ltb_spec c c'); [lia|]. destruct (Z.eqb_spec c c'); [lia|]. by rewrite IH.
Qed.

Lemma added_cons e hist : added (e :: hist) = added hist + match e with Add _ _ => 1 | _ => 0 end.
Proof. unfold added. destruct e; simpl; rewrite ?zlen_cons; lia. Qed.

Lemma live_below t hist : Forall (fun e => fst e < added hist) (live t hist).
Proof.
  induction hist as [|e hist IH]; simpl; [constructor|].
  assert (Forall (fun x => fst x < added (e :: hist)) (live t hist)) as H.
  { eapply Forall_impl; [exact IH|]. intros x. rewrite added_cons. destruct e; lia. }
  destruct e as [| |t' rule|t' c|]; try done.
  - apply Forall_app. split; [done|]. destruct (decide (t' = t)); [|constructor].
    repeat constructor. simpl. rewrite added_cons. lia.
  - destruct (decide (t' = t)); [|done]. rewrite List.Forall_forall in *. intros x [Hx _]%filter_In. by apply H.
Qed.

(** The table is the history. *)
Definition is_table (hist : list registration) (r : routes) : Prop :=
  r_rover r = added hist /\ r_default r = default_of hist /\
  (forall t, r_rules r t = live t hist) /\ (forall t url, r_map r t !! url = exact_of t url hist).

Lemma update_eq {A} t t' (a : A) f : update t a f t' = if decide (t = t') then a else f t'.
Proof. unfold update. repeat destruct (decide _); congruence. Qed.

Lemma put_table t url h hist r : is_table hist r -> is_table (Put t url h :: hist) (register (Put t url h) r).
Proof.
  intros (H1 & H2 & H3 & H4). unfold is_table. rewrite added_cons, Z.add_0_r. simpl. unfold routes_put. rewrite H4.
  destruct (exact_of t url hist) as [h'|] eqn:E; simpl.
  - split_and!; try done. intros t' url'. rewrite H4. destruct (exact_of t' url' hist) eqn:E'; [done|].
    destruct (decide _) as [[-> ->]|]; congruence.
  - split_and!; try done. intros t' url'. rewrite update_eq. destruct (decide (t = t')) as [<-|Ht].
    + destruct (decide (url = url')) as [<-|Hu].
      * rewrite lookup_insert_eq, E. by rewrite decide_True.
      * rewrite lookup_insert_ne, H4 by done. destruct (exact_of t url' hist); [done|]. rewrite decide_False; [done|by intros [? ?]].
    + rewrite H4. destruct (exact_of t' url' hist); [done|]. rewrite decide_False; [done|by intros [? ?]].
Qed.

Lemma drop_table t url hist r : is_table hist r -> is_table (Drop t url :: hist) (register (Drop t url) r).
Proof.
  intros (H1 & H2 & H3 & H4). unfold is_table. rewrite added_cons, Z.add_0_r. simpl. split_and!; try done.
  intros t' url'. rewrite update_eq. destruct (decide (t = t')) as [<-|Ht].
  - destruct (decide (url = url')) as [<-|Hu].
    + by rewrite lookup_delete_eq, decide_True.
    + rewrite lookup_delete_ne by done. rewrite decide_False by (by intros [? ?]). apply H4.
  - rewrite decide_False by (by intros [? ?]). apply H4.
Qed.

Lemma register_table e hist r : added (e :: hist) < 2 ^ 64 -> is_table hist r -> is_table (e :: hist) (register e r).
Proof.
  intros Hb Hr. destruct e as [t url h|t url|t rule|t c|h]; [by apply put_table|by apply drop_table| | |];
    destruct Hr as (H1 & H2 & H3 & H4); unfold is_table; rewrite added_cons in *; simpl; split_and!; try done; try lia.
  - rewrite H1. apply wrap_small. pose proof (zlen_nonneg (List.filter (fun e => match e with Add _ _ => true | _ => false end) hist)).
    unfold added in *. lia.
  - intros t'. rewrite update_eq, !H3, H1. destruct (decide (t = t')) as [<-|]; [|by rewrite app_nil_r].
    apply set_rule_last, live_below.
  - intros t'. rewrite update_eq, !H3. by destruct (decide (t = t')) as [<-|].
Qed.

Lemma table_history hist : added hist < 2 ^ 64 -> is_table hist (table hist).
Proof.
  induction hist as [|e hist IH]; intros H; simpl; [done|]. apply register_table; [done|]. apply IH.
  rewrite added_cons in H. destruct e; lia.
Qed.

(** ** Which handler a request gets *)

Definition refuses (l : list (Z * match_rule)) (url : sstring) : Prop := forall c r b, (c, r) ∈ l -> ~ accepts r url b.

(** [dispatches t url p hist h p']: an exact match first, then the first rule in the
    order of registration that accepts the url, then the default handler.  The
    parameters that the request comes with are lost when a rule was tried. *)
Inductive dispatches (t : operation_type) (url : sstring) (p : parameters) (hist : list registration) : handler -> parameters -> Prop :=
  | dispatch_exact h : exact_of t url hist = Some h -> dispatches t url p hist h p
  | dispatch_rule l1 c r l2 b : exact_of t url hist = None -> live t hist = l1 ++ (c, r) :: l2 -> refuses l1 url -> accepts r url b ->
      dispatches t url p hist (rule_handler r) (bind_all b (match l1 with [] => p | _ => ∅ end))
  | dispatch_default h : exact_of t url hist = None -> refuses (live t hist) url -> default_of hist = Some h ->
      dispatches t url p hist h (match live t hist with [] => p | _ => ∅ end).

Definition all_short (l : list (Z * match_rule)) : Prop := Forall (fun e => Forall short (match_list (snd e))) l.

Lemma refuses_cons c r l url : refuses ((c, r) :: l) url <-> (forall b, ~ accepts r url b) /\ refuses l url.
Proof.
  split.
  - intros H. split; [intros b; apply (H c r b); by left|]. intros c' r' b Hin. apply (H c' r' b). by right.
  - intros [H1 H2] c' r' b [[= -> ->]|Hin]%elem_of_cons; [apply H1|by eapply H2].
Qed.

Lemma try_rules_spec l url p : all_short l ->
  match try_rules l url p with
  | (Some h, p') => exists l1 c r l2 b, l = l1 ++ (c, r) :: l2 /\ refuses l1 url /\ accepts r url b /\ h = rule_handler r /\
      p' = bind_all b (match l1 with [] => p | _ => ∅ end)
  | (None, p') => refuses l url /\ p' = match l with [] => p | _ => ∅ end
  end.
Proof.
  revert p. induction l as [|[c r] l IH]; intros p Hl; simpl.
  - split; [|done]. intros c r b []%not_elem_of_nil.
  - apply Forall_cons in Hl as [Hr Hl]. simpl in Hr. destruct (rule_get r url p) as [[h|] q] eqn:E.
    + apply rule_get_accepts in E as (-> & b & Hb & ->); [|done]. exists [], c, r, l, b.
      split_and!; try done. intros ??? []%not_elem_of_nil.
    + pose proof (rule_get_none _ _ _ _ Hr E) as Hn. specialize (IH ∅ Hl). destruct (try_rules l url ∅) as [[h|] p'].
      * destruct IH as (l1 & c' & r' & l2 & b & -> & H1 & H2 & -> & ->). exists ((c, r) :: l1), c', r', l2, b.
        split_and!; [done|by apply refuses_cons|done|done|]. by destruct l1.
      * destruct IH as [H1 ->]. split; [by apply refuses_cons|]. by destruct l.
Qed.

Lemma elem_split_first {A} (l1 l2 k1 k2 : list A) x y : l1 ++ x :: l2 = k1 ++ y :: k2 ->
  (l1 = k1 /\ x = y) \/ x ∈ k1 \/ y ∈ l1.
Proof.
  revert k1. induction l1 as [|a l1 IH]; intros [|b k1]; simpl; intros [= -> H].
  - by left.
  - right. left. by left.
  - right. right. by left.
  - destruct (IH k1 H) as [[-> ->]|[?|?]]; [by left|right; left; by right|right; right; by right].
Qed.

Lemma walks_fun l s b1 t1 b2 t2 : Forall short l -> walks l s b1 t1 -> walks l s b2 t2 -> forall p, bind_all b1 p = bind_all b2 p.
Proof.
  intros Hs H1 H2 p. pose proof (all_walks l [] s) as Hw. simpl app in Hw.
  assert (forall b t, walks l s b t -> match_all l s 0 p = (Some (length s - length t)%nat, bind_all b p)) as Hm.
  { intros b t H. apply (Hw _ p (bind_all b p) Hs). exists b, t. split_and!; [done| |done]. simpl.
    assert (length t <= length s)%nat; [|lia]. clear -H. induction H; simpl in *; rewrite ?length_app; simpl; rewrite ?length_app; lia. }
  pose proof (Hm _ _ H1) as E1. rewrite (Hm _ _ H2) in E1. by inversion E1.
Qed.

Lemma accepts_fun r url b1 b2 : Forall short (match_list r) -> accepts r url b1 -> accepts r url b2 -> forall p, bind_all b1 p = bind_all b2 p.
Proof.
  intros Hs [[H1 ->]|(H1 & t1 & Hw1 & _)] [[H2 ->]|(H2 & t2 & Hw2 & _)] p; try done. by eapply walks_fun.
Qed.

Lemma dispatch_spec hist t url p h p' : added hist < 2 ^ 64 -> all_short (live t hist) ->
  routes_get t url p (table hist) = (Some h, p') <-> dispatches t url p hist h p'.
Proof.
  intros Hb Hs. destruct (table_history hist Hb) as (_ & H2 & H3 & H4). unfold routes_get, get_exact_match. rewrite H4, H3, H2.
  pose proof (try_rules_spec (live t hist) url p Hs) as Ht. split.
  - destruct (exact_of t url hist) as [h'|] eqn:E; [intros [= <- <-]; by constructor|].
    destruct (try_rules (live t hist) url p) as [[h'|] q].
    + intros [= <- <-]. destruct Ht as (l1 & c & r & l2 & b & Hl & ? & ? & -> & ->). by eapply dispatch_rule.
    + destruct Ht as [Hr ->]. intros [= Hd <-]. by constructor.
  - inversion 1 as [h' E|l1 c r l2 b E Hl Hr Ha|h' E Hr Hd]; subst.
    + by rewrite E.
    + rewrite E. destruct (try_rules (live t hist) url p) as [[h'|] q].
      * destruct Ht as (k1 & c' & r' & k2 & b' & Hk & Hr' & Ha' & -> & ->). rewrite Hl in Hk.
        destruct (elem_split_first _ _ _ _ _ _ Hk) as [[-> [= -> ->]]|[Hin|Hin]].
        -- f_equal. eapply accepts_fun; [|done|done]. unfold all_short in Hs. rewrite Hl in Hs.
           apply Forall_app in Hs as [_ [Hs _]%Forall_cons]. done.
        -- by destruct (Hr' _ _ _ Hin Ha).
        -- by destruct (Hr _ _ _ Hin Ha').
      * destruct Ht as [Hr' _]. destruct (Hr' c r b); [|done]. rewrite Hl. apply elem_of_app. right. by left.
    + rewrite E. destruct (try_rules (live t hist) url p) as [[h'|] q].
      * destruct Ht as (k1 & c' & r' & k2 & b' & Hk & _ & Ha' & _). destruct (Hr c' r' b'); [|done].
        rewrite Hk. apply elem_of_app. right. by left.
      * destruct Ht as [_ ->]. by rewrite Hd.
Qed.

(** C12. [get_handler] answers from the table of routes that the registrations made,
    fewer than 2^64 of them rules: the handler that was put for the url and not
    dropped since; otherwise that of the first rule, in the order in which they were
    added and without the deleted ones, whose parts divide the url up to one last
    character, with the parameters that the division binds; otherwise the default
    handler; otherwise none. *)
Theorem routes_dispatch hist t url p : added hist < 2 ^ 64 -> all_short (live t hist) ->
  (forall h p', routes_get t url p (table hist) = (Some h, p') <-> dispatches t url p hist h p') /\
  ((exists p', routes_get t url p (table hist) = (None, p')) <->
   exact_of t url hist = None /\ refuses (live t hist) url /\ default_of hist = None).
Proof.
  intros Hb Hs. split; [intros h p'; by apply dispatch_spec|].
  destruct (table_history hist Hb) as (_ & H2 & H3 & H4). unfold routes_get, get_exact_match. rewrite H4, H3, H2.
  pose proof (try_rules_spec (live t hist) url p Hs) as Ht.
  destruct (exact_of t url hist) as [h'|]; [split; [intros [? ?]|intros [? _]]; done|].
  destruct (try_rules (live t hist) url p) as [[h'|] q].
  - split; [intros [? ?]; done|]. destruct Ht as (l1 & c & r & l2 & b & -> & _ & Ha & _). intros (_ & Hr & _).
    destruct (Hr c r b); [|done]. apply elem_of_app. right. by left.
  - destruct Ht as [Hr _]. split; [intros [p' [= Hd _]]; done|]. intros (_ & _ & ->). eauto.
Qed.

(** ** Witness *)

Definition files : match_rule := MatchRule [StrMatcher (bytes_of "/file"); ParamMatcher (bytes_of "path") true] 1%nat.
Definition api : match_rule := MatchRule [StrMatcher (bytes_of "/api"); ParamMatcher (bytes_of "id") false; StrMatcher (bytes_of "/x")] 2%nat.
Definition example_hist : list registration :=
  [Default 9%nat; Del GET 0; Add GET api; Put GET (bytes_of "/file/a") 5%nat; Add GET files; Add GET (MatchRule [] 7%nat)].

Lemma routes_dispatch_witness :
  dispatches GET (bytes_of "/file/etc/hosts") ∅ example_hist 1%nat {[bytes_of "path" := bytes_of "/etc/hosts"]} /\
  dispatches GET (bytes_of "/file/a") ∅ example_hist 5%nat ∅ /\
  dispatches GET (bytes_of "/api/17/x/") ∅ example_hist 2%nat {[bytes_of "id" := bytes_of "/17"]} /\
  dispatches GET (bytes_of "/api/17/y") ∅ example_hist 9%nat ∅ /\
  dispatches POST (bytes_of "/file/a") ∅ example_hist 9%nat ∅.
Proof.
  assert (forall t, all_short (live t example_hist)) as Hs.
  { intros []; repeat constructor. }
  assert (added example_hist < 2 ^ 64) as Hb by (by vm_compute).
  split_and!; refine (proj1 (proj1 (routes_dispatch example_hist _ _ _ Hb (Hs _)) _ _) _); vm_compute; reflexivity.
Defined.
