(* ===== verification/HttpUrl.v ===== *)
(** * Query parameters: [url_decode], [add_param], [set_query_param] of src/http/httpd.cc

    [encoded] relates a text to every way of writing it in a query; the parameters
    that [set_query_param] finds are the ones that were written. *)

From S2P Require Import Prelude Json Http HttpSpec.
From stdpp Require Import base numbers option gmap list strings.

#[local] Open Scope Z_scope.

Abbreviation percent := 37.
Abbreviation ampersand := 38.
Abbreviation plus := 43.
Abbreviation equals := 61.
Abbreviation question := 63.

(** A [char] is signed. *)
Definition schar (c : Z) : Z := if c <? 128 then c else c - 256.

(** [hex_to_byte(c)], [hexstr_to_char(in, from)] *)
Definition hex_to_byte (c : Z) : Z :=
  let c := schar c in
  if (97 <=? c) && (c <=? 122) then c - 97 + 10
  else if (65 <=? c) && (c <=? 90) then c - 65 + 10
  else c - 48.
Definition hexstr_to_char (a b : Z) : Z := u8 (hex_to_byte a * 16 + hex_to_byte b).

(** [url_decode(in, out)]; [None] for [false]. *)
Fixpoint url_decode (s : sstring) : option sstring :=
  match s with
  | [] => Some []
  | c :: s =>
    if c =? percent then match s with a :: b :: s => cons (hexstr_to_char a b) <$> url_decode s | _ => None end
    else if c =? plus then cons 32 <$> url_decode s
    else cons c <$> url_decode s
  end.

(** [add_param(req, param)] *)
Definition add_param (param : sstring) (q : gmap sstring sstring) : gmap sstring sstring :=
  let split := find_char param equals 0 in
  let at_end := match split with Some n => u64 (zlen param - 1) <=? Z.of_nat n | None => true end in
  let text := match split with Some n => take n param | None => param end in
  if at_end then match url_decode text with Some key => <[key := []]> q | None => q end
  else match url_decode text, url_decode (match split with Some n => drop (S n) param | None => [] end) with
       | Some key, Some value => <[key := value]> q
       | _, _ => q
       end.

(** The loop of [set_query_param(req)] and what comes after it; the path that it returns. *)
Fixpoint add_params (fuel : nat) (url : sstring) (curr : nat) (q : gmap sstring sstring) : gmap sstring sstring :=
  match fuel with
  | O => q
  | S fuel =>
    match find_char url ampersand curr with
    | Some end_param => add_params fuel url (S end_param) (add_param (take (end_param - curr) (drop curr url)) q)
    | None => add_param (drop curr url) q
    end
  end.
Definition set_query_param (url : sstring) (q : gmap sstring sstring) : sstring * gmap sstring sstring :=
  match find_char url question 0 with
  | None => (url, q)
  | Some pos => (take pos url, add_params (S (length url)) url (S pos) q)
  end.

(** ** How a text is written in a query *)

Inductive hex_digit : Z -> Z -> Prop :=
  | hex_decimal n : 0 <= n < 10 -> hex_digit n (48 + n)
  | hex_upper n : 10 <= n < 16 -> hex_digit n (55 + n)
  | hex_lower n : 10 <= n < 16 -> hex_digit n (87 + n).

Definition reserved (c : Z) : Prop := c = percent \/ c = plus \/ c = ampersand \/ c = equals.

Inductive encoded : sstring -> sstring -> Prop :=
  | encoded_end : encoded [] []
  | encoded_plain c s t : ~ reserved c -> encoded s t -> encoded (c :: s) (c :: t)
  | encoded_space s t : encoded s t -> encoded (32 :: s) (plus :: t)
  | encoded_code h l a b s t : hex_digit h a -> hex_digit l b -> encoded s t -> encoded (16 * h + l :: s) (percent :: a :: b :: t).

(** A text whose last percent sign does not have two characters. *)
Inductive truncated : sstring -> Prop :=
  | truncated_end s t u : encoded s t -> (length u < 2)%nat -> equals ∉ u -> ampersand ∉ u -> truncated (t ++ percent :: u).

(** A parameter, and what it sets. *)
Inductive param_text : sstring -> option (sstring * sstring) -> Prop :=
  | text_pair k v kt vt : encoded k kt -> encoded v vt -> param_text (kt ++ equals :: vt) (Some (k, v))
  | text_flag k kt : encoded k kt -> param_text kt (Some (k, []))
  | text_bad_flag kt : truncated kt -> param_text kt None
  | text_bad_key kt v vt : truncated kt -> encoded v vt -> param_text (kt ++ equals :: vt) None
  | text_bad_value k kt vt : encoded k kt -> truncated vt -> param_text (kt ++ equals :: vt) None.

Definition set_param (o : option (sstring * sstring)) (q : gmap sstring sstring) : gmap sstring sstring :=
  match o with Some (k, v) => <[k := v]> q | None => q end.

Lemma hex_digit_char h a : hex_digit h a -> hex_to_byte a = h /\ 0 <= h < 16 /\ ~ reserved a.
Proof.
  unfold hex_to_byte, schar, reserved.
  inversion 1; subst; repeat match goal with |- context [if ?b then _ else _] => destruct b eqn:? end; lia.
Qed.

Lemma encoded_decodes s t u : encoded s t -> url_decode (t ++ u) = (app s) <$> url_decode u.
Proof.
  induction 1 as [|c s t Hc _ IH|s t _ IH|h l a b s t Ha Hb _ IH].
  - simpl. by destruct (url_decode u).
  - simpl. unfold reserved in Hc. destruct (Z.eqb_spec c percent); [tauto|]. destruct (Z.eqb_spec c plus); [tauto|].
    rewrite IH. by destruct (url_decode u).
  - simpl. rewrite IH. by destruct (url_decode u).
  - simpl. rewrite IH. apply hex_digit_char in Ha as (Ha & ? & _), Hb as (Hb & ? & _).
    unfold hexstr_to_char. rewrite Ha, Hb, wrap_small by lia. rewrite (Z.mul_comm h). by destruct (url_decode u).
Qed.

Lemma encoded_decode s t : encoded s t -> url_decode t = Some s.
Proof. intros H. rewrite <- (app_nil_r t), (encoded_decodes s t [] H). simpl. by rewrite app_nil_r. Qed.

Lemma truncated_decode t : truncated t -> url_decode t = None.
Proof.
  intros [s t' u H Hu _ _]. rewrite (encoded_decodes s t' _ H). simpl. destruct u as [|a [|b u]]; simpl in Hu; [done|done|lia].
Qed.

Lemma encoded_no_sep s t c : c = equals \/ c = ampersand -> encoded s t -> c ∉ t.
Proof.
  intros Hc. induction 1 as [|d s t Hd _ IH|s t _ IH|h l a b s t Ha Hb _ IH].
  - apply not_elem_of_nil.
  - apply not_elem_of_cons. split; [|done]. intros ->. apply Hd. unfold reserved. tauto.
  - apply not_elem_of_cons. split; [lia|done].
  - apply hex_digit_char in Ha as (_ & _ & Ha), Hb as (_ & _ & Hb).
    repeat (apply not_elem_of_cons; split; [|]); [lia| | |done]; intros ->; unfold reserved in *; tauto.
Qed.

Lemma truncated_no_sep t c : c = equals \/ c = ampersand -> truncated t -> c ∉ t.
Proof.
  intros Hc [s t' u H _ H1 H2]. rewrite not_elem_of_app, not_elem_of_cons. split; [by eapply encoded_no_sep|].
  split; [lia|]. destruct Hc as [->| ->]; done.
Qed.

Lemma find_char_0 c s : find_char s c 0 = index_of c s.
Proof. unfold find_char. rewrite drop_0. by destruct (index_of c s). Qed.

(** A parameter with an equals sign, and one without. *)
Lemma add_param_pair kt vt q : equals ∉ kt -> zlen (kt ++ equals :: vt) < 2 ^ 64 ->
  add_param (kt ++ equals :: vt) q =
  match url_decode kt, url_decode vt with Some k, Some v => <[k := v]> q | _, _ => q end.
Proof.
  intros Hk Hl. unfold add_param. rewrite find_char_0, index_of_app by done. simpl. rewrite take_app_length.
  replace (drop (S (length kt)) (kt ++ equals :: vt)) with vt
    by (replace (S (length kt)) with (length kt + 1)%nat by lia; by rewrite <- drop_drop, drop_app_length).
  rewrite zlen_app, zlen_cons in *. rewrite wrap_small by (pose proof (zlen_nonneg kt); pose proof (zlen_nonneg vt); lia).
  destruct (Z.leb_spec (zlen kt + (1 + zlen vt) - 1) (Z.of_nat (length kt))) as [H|H]; [|done].
  destruct vt as [|c vt]; [|rewrite zlen_cons in H; unfold zlen in H; lia]. simpl. by destruct (url_decode kt).
Qed.

Lemma add_param_flag kt q : equals ∉ kt -> add_param kt q = match url_decode kt with Some k => <[k := []]> q | None => q end.
Proof. intros Hk. unfold add_param. by rewrite find_char_0, index_of_none. Qed.

Lemma add_param_text t o q : param_text t o -> zlen t < 2 ^ 64 -> add_param t q = set_param o q.
Proof.
  inversion 1; subst; intros Hl.
  - rewrite add_param_pair by (done || (eapply encoded_no_sep; eauto)). erewrite !encoded_decode by eauto. done.
  - rewrite add_param_flag by (eapply encoded_no_sep; eauto). erewrite encoded_decode by eauto. done.
  - rewrite add_param_flag by (eapply truncated_no_sep; eauto). rewrite truncated_decode by done. done.
  - rewrite add_param_pair by (done || (eapply truncated_no_sep; eauto)). rewrite truncated_decode by done. done.
  - rewrite add_param_pair by (done || (eapply encoded_no_sep; eauto)). erewrite encoded_decode by eauto.
    rewrite (truncated_decode vt) by done. done.
Qed.

Lemma param_text_no_sep t o : param_text t o -> ampersand ∉ t.
Proof.
  assert (ampersand ∉ ([equals] : list Z)) as He by (intros H%list_elem_of_singleton; done).
  inversion 1; subst; rewrite ?(cons_middle equals), ?not_elem_of_app; split_and?;
    first [done|by eapply encoded_no_sep; eauto|by eapply truncated_no_sep; eauto].
Qed.

(** ** The whole query *)

Definition query (l : list sstring) : sstring := separated [ampersand] l.

Lemma add_params_query fuel a l os q : Forall2 param_text l os -> l <> [] -> (length l <= fuel)%nat ->
  zlen (a ++ query l) < 2 ^ 64 -> add_params fuel (a ++ query l) (length a) q = foldl (fun q o => set_param o q) q os.
Proof.
  intros H. revert fuel a q. induction H as [|t o l os Ht Hl IH]; [done|]. intros [|fuel] a q _ Hf Hz; [simpl in Hf; lia|].
  pose proof (param_text_no_sep t o Ht) as Hn. simpl add_params. unfold find_char. rewrite drop_app_length. rewrite zlen_app in Hz.
  destruct l as [|t' l]; simpl in *.
  - inversion Hl; subst. unfold query; simpl in *. rewrite index_of_none by done. simpl.
    apply add_param_text; [done|]. change (query [t]) with t in Hz. pose proof (zlen_nonneg a). lia.
  - change (query (t :: t' :: l)) with (t ++ ampersand :: query (t' :: l)) in *. rewrite index_of_app by done. simpl.
    replace (length a + length t - length a)%nat with (length t) by lia. rewrite take_app_length.
    rewrite zlen_app, zlen_cons in Hz. rewrite (add_param_text t o) by (done || (pose proof (zlen_nonneg a); pose proof (zlen_nonneg (query (t' :: l))); lia)).
    replace (a ++ t ++ ampersand :: query (t' :: l)) with ((a ++ t ++ [ampersand]) ++ query (t' :: l)) by (by rewrite <- !app_assoc).
    replace (S (length a + length t)) with (length (a ++ t ++ [ampersand])) by (rewrite !length_app; simpl; lia).
    apply IH; [done|lia|]. rewrite !zlen_app. change (zlen [ampersand]) with 1. lia.
Qed.

Lemma query_length l : (length l <= S (length (query l)))%nat.
Proof.
  induction l as [|t [|t' l] IH]; [simpl; lia|simpl; lia|].
  change (query (t :: t' :: l)) with (t ++ ampersand :: query (t' :: l)). rewrite length_app. simpl in *. lia.
Qed.

(** C15. The query of a url: whatever way the parameters are written in (plainly, with
    [+] for a space, with percent codes), [set_query_param] returns the path in front of
    the question mark and sets each parameter, in order, to the value that was written,
    the empty one when there is no equals sign; a parameter that ends inside a percent
    code is left out, and a url without a question mark sets nothing. *)
Theorem query_round_trip path l os q : question ∉ path -> Forall2 param_text l os -> l <> [] ->
  zlen (path ++ question :: query l) < 2 ^ 64 ->
  set_query_param (path ++ question :: query l) q = (path, foldl (fun q o => set_param o q) q os) /\
  set_query_param path q = (path, q).
Proof.
  intros Hp Hl Hne Hz. unfold set_query_param. rewrite !find_char_0, index_of_app, (index_of_none _ path) by done. split; [|done].
  rewrite take_app_length. f_equal. rewrite (cons_middle question), app_assoc in *.
  replace (S (length path)) with (length (path ++ [question])) by (rewrite length_app; simpl; lia).
  apply add_params_query; [done|done| |done]. pose proof (query_length l). rewrite length_app. lia.
Qed.

(** A percent code takes any letter for a digit: [%zz] is the character [S] (35 * 16 +
    35 modulo 256), though the function is said to convert a hex encoded substring. *)
Theorem hex_code_not_checked a b : 97 <= a <= 122 -> 97 <= b <= 122 ->
  url_decode [percent; a; b] = Some [((a - 87) * 16 + (b - 87)) mod 256].
Proof.
  intros Ha Hb. unfold url_decode. simpl. unfold hexstr_to_char, hex_to_byte, schar.
  repeat match goal with |- context [if ?b then _ else _] => destruct b eqn:?; [|lia] end.
  unfold u8, wrap. do 3 f_equal. lia.
Qed.

(** ** Witnesses *)

Definition example_params : list (sstring * option (sstring * sstring)) :=
  [(bytes_of "a+b=%41%7a", Some (bytes_of "a b", bytes_of "Az")); (bytes_of "k=x%3Dy", Some (bytes_of "k", bytes_of "x=y"));
   (bytes_of "flag", Some (bytes_of "flag", [])); (bytes_of "bad%4", None)].

(** Writes a text out plainly where it can. *)
Ltac spell :=
  repeat first
    [ apply encoded_end
    | apply (encoded_code 4 1); [apply (hex_decimal 4); lia|apply (hex_decimal 1); lia|]
    | apply (encoded_code 7 10); [apply (hex_decimal 7); lia|apply (hex_lower 10); lia|]
    | apply (encoded_code 3 13); [apply (hex_decimal 3); lia|apply (hex_upper 13); lia|]
    | apply encoded_plain; [unfold reserved; lia|]
    | apply encoded_space ].

Lemma query_round_trip_witness :
  set_query_param (bytes_of "/p?a+b=%41%7a&k=x%3Dy&flag&bad%4") ∅ =
  (bytes_of "/p", <[bytes_of "flag" := []]> (<[bytes_of "k" := bytes_of "x=y"]> (<[bytes_of "a b" := bytes_of "Az"]> ∅))).
Proof.
  refine (proj1 (query_round_trip (bytes_of "/p") (map fst example_params) (map snd example_params) ∅ _ _ _ _)).
  - intros H. repeat (apply elem_of_cons in H as [H|H]; [by vm_compute in H|]). by apply not_elem_of_nil in H.
  - cbn. do 4 (rewrite Forall2_cons). split_and!; [| | | |constructor].
    + refine (text_pair (bytes_of "a b") (bytes_of "Az") (bytes_of "a+b") (bytes_of "%41%7a") _ _); cbn; spell.
    + refine (text_pair (bytes_of "k") (bytes_of "x=y") (bytes_of "k") (bytes_of "x%3Dy") _ _); cbn; spell.
    + refine (text_flag (bytes_of "flag") (bytes_of "flag") _); cbn; spell.
    + refine (text_bad_flag (bytes_of "bad%4") (truncated_end (bytes_of "bad") (bytes_of "bad") [52] _ _ _ _)).
      * cbn; spell.
      * cbn; lia.
      * by intros H%list_elem_of_singleton.
      * by intros H%list_elem_of_singleton.
  - done.
  - by vm_compute.
Defined.

Lemma hex_code_not_checked_witness : url_decode (bytes_of "%zz") = Some (bytes_of "S").
Proof. apply (hex_code_not_checked 122 122); lia. Defined.
