(* ===== verification/HttpParser.v ===== *)
(** * The request parser: include/nil/actor/http/request_parser.hh (from src/http/request_parser.rl)

    The state machine by its transitions, each with the actions of the file in their
    order.  [sstring_builder] is the core library's: [StringBuilder] is what the parser
    relies on, positions being offsets in the block that is parsed. *)

From S2P Require Import Prelude Json Http HttpUrl.
From stdpp Require Import base numbers option gmap list strings.

#[local] Open Scope Z_scope.

(** ** The builder of strings

    The text that it has, and where the text that goes on was marked.  The guard of a
    block keeps, at its end, what is marked; at the start of the next block the text of
    a builder that is not empty goes on. *)
Class StringBuilder (B : Type) := {
  sb_value : B -> sstring;
  sb_start : B -> option nat;
  sb_reset : B;
  guard_enter : B -> B;
  guard_leave : sstring -> B -> B;
  mark_start : option nat -> B -> B;
  mark_end : sstring -> nat -> B -> B;
  get_str : B -> sstring * B;
  sb_reset_spec : sb_value sb_reset = [] /\ sb_start sb_reset = None;
  guard_enter_spec b : sb_value (guard_enter b) = sb_value b /\
    sb_start (guard_enter b) = if bool_decide (sb_value b = []) then sb_start b else Some O;
  guard_leave_spec blk b :
    sb_value (guard_leave blk b) = sb_value b ++ (match sb_start b with Some s => drop s blk | None => [] end) /\
    sb_start (guard_leave blk b) = None;
  mark_start_spec p b : sb_value (mark_start p b) = sb_value b /\ sb_start (mark_start p b) = p;
  mark_end_spec blk s p b : sb_start b = Some s -> (s <= p <= length blk)%nat ->
    sb_value (mark_end blk p b) = sb_value b ++ take (p - s) (drop s blk) /\ sb_start (mark_end blk p b) = None;
  get_str_spec b : fst (get_str b) = sb_value b /\ sb_value (snd (get_str b)) = [] /\ sb_start (snd (get_str b)) = sb_start b
}.

(** ** [struct request]

    The headers are found without regard to the case of their names: a name is kept in
    lower case, its spelling is not. *)

Definition tolower (c : Z) : Z := if (65 <=? c) && (c <=? 90) then c + 32 else c.
Definition lower (s : sstring) : sstring := map tolower s.

Record request := Request {
  q_method : sstring; q_url : sstring; q_version : sstring; q_headers : gmap sstring sstring;
  q_content_length : Z; q_query : gmap sstring sstring; q_param : parameters; q_content : sstring; q_protocol_name : sstring }.
Definition request_init : request := Request [] [] [] ∅ 0 ∅ ∅ [] (bytes_of "http").
Definition with_headers (h : gmap sstring sstring) (r : request) : request :=
  Request (q_method r) (q_url r) (q_version r) h (q_content_length r) (q_query r) (q_param r) (q_content r) (q_protocol_name r).
Definition set_line (m u v : sstring) (r : request) : request :=
  Request m u v (q_headers r) (q_content_length r) (q_query r) (q_param r) (q_content r) (q_protocol_name r).

(** [get_header(name)], [get_query_param(name)] *)
Definition get_header (name : sstring) (r : request) : sstring := default [] (q_headers r !! lower name).
Definition get_query_param (name : sstring) (r : request) : sstring := default [] (q_query r !! name).

(** ** The actions *)

Inductive action :=
  | Mark | StoreMethod | StoreUri | StoreVersion | StoreFieldName | NoMarkStoreValue | Checkpoint | AssignField | ExtendField | Done.

#[global] Instance action_eq : EqDecision action.
Proof. solve_decision. Defined.

(** [enum class state] *)
Inductive pstate := PError | PEof | PDone.

Section Parser.
Context {B : Type} {SB : StringBuilder B}.

Record parser := Parser {
  fsm_cs : Z; builder : B; req : request; field_name : sstring; field_value : sstring; parser_state : pstate }.
Definition set_cs (cs : Z) (s : parser) : parser := Parser cs (builder s) (req s) (field_name s) (field_value s) (parser_state s).
Definition set_builder (b : B) (s : parser) : parser := Parser (fsm_cs s) b (req s) (field_name s) (field_value s) (parser_state s).
Definition set_req (r : request) (s : parser) : parser := Parser (fsm_cs s) (builder s) r (field_name s) (field_value s) (parser_state s).
Definition set_field (name value : sstring) (s : parser) : parser := Parser (fsm_cs s) (builder s) (req s) name value (parser_state s).
Definition set_pstate (t : pstate) (s : parser) : parser := Parser (fsm_cs s) (builder s) (req s) (field_name s) (field_value s) t.

(** [init()] *)
Definition parser_init (s : parser) : parser := Parser 1 sb_reset request_init (field_name s) (field_value s) PEof.

(** [str()]: the text up to [p]. *)
Definition str (blk : sstring) (p : nat) (s : parser) : sstring * parser :=
  let '(t, b) := get_str (mark_end blk p (builder s)) in (t, set_builder b s).

Definition assign_field (name value : sstring) (h : gmap sstring sstring) : gmap sstring sstring :=
  match h !! lower name with
  | Some v => <[lower name := v ++ bytes_of "," ++ value]> h
  | None => <[lower name := value]> h
  end.
Definition extend_field (name value : sstring) (h : gmap sstring sstring) : gmap sstring sstring :=
  <[lower name := default [] (h !! lower name) ++ bytes_of " " ++ value]> h.

Definition act (blk : sstring) (p : nat) (a : action) (s : parser) : parser :=
  let r := req s in
  match a with
  | Mark => set_builder (mark_start (Some p) (builder s)) s
  | StoreMethod => let '(t, s) := str blk p s in set_req (set_line t (q_url r) (q_version r) r) s
  | StoreUri => let '(t, s) := str blk p s in set_req (set_line (q_method r) t (q_version r) r) s
  | StoreVersion => let '(t, s) := str blk p s in set_req (set_line (q_method r) (q_url r) t r) s
  | StoreFieldName => let '(t, s) := str blk p s in set_field t (field_value s) s
  | NoMarkStoreValue => let '(t, b) := get_str (builder s) in set_builder (mark_start None b) (set_field (field_name s) t s)
  | Checkpoint => set_builder (mark_start (Some p) (mark_end blk p (builder s))) s
  | AssignField => set_field (field_name s) [] (set_req (with_headers (assign_field (field_name s) (field_value s) (q_headers r)) r) s)
  | ExtendField => set_field (field_name s) [] (set_req (with_headers (extend_field (field_name s) (field_value s) (q_headers r)) r) s)
  | Done => s
  end.

End Parser.
Arguments parser B : clear implicits.

(** ** The transitions

    [None] is [goto _st0]. *)

Definition is_digit (c : Z) : bool := (48 <=? c) && (c <=? 57).
Definition is_upper (c : Z) : bool := (65 <=? c) && (c <=? 90).
Definition is_tchar (c : Z) : bool :=
  if (c =? 33) || (c =? 124) || (c =? 126) then true
  else if c <? 45 then (if 39 <? c then (42 <=? c) && (c <=? 43) else 35 <=? c)
  else if 46 <? c then (if c <? 65 then is_digit c else if 90 <? c then (94 <=? c) && (c <=? 122) else true)
  else true.
Definition is_blank (c : Z) : bool := (c =? 9) || (c =? 32).
Definition is_control (c : Z) : bool := (c =? 127) || ((0 <=? c) && (c <=? 31)).

(** The method and the url. *)
Definition from_method (cs c : Z) : option (list action * Z) :=
  match cs with
  | 1 => if is_upper c then Some ([Mark], 2) else None
  | 2 => if c =? 32 then Some ([StoreMethod], 3) else if is_upper c then Some ([], 2) else None
  | 3 => if c =? 13 then Some ([Mark], 5) else if c =? 32 then None else Some ([Mark], 4)
  | 4 => if c =? 13 then Some ([], 5) else if c =? 32 then Some ([StoreUri], 6) else Some ([], 4)
  | 5 => if c =? 10 then None else if c =? 13 then Some ([], 5) else if c =? 32 then Some ([StoreUri], 6) else Some ([], 4)
  | _ => None
  end.
(** The version, to the end of the line. *)
Definition from_version (cs c : Z) : option (list action * Z) :=
  match cs with
  | 6 => if c =? 72 then Some ([], 7) else None
  | 7 => if c =? 84 then Some ([], 8) else None
  | 8 => if c =? 84 then Some ([], 9) else None
  | 9 => if c =? 80 then Some ([], 10) else None
  | 10 => if c =? 47 then Some ([], 11) else None
  | 11 => if is_digit c then Some ([Mark], 12) else None
  | 12 => if c =? 46 then Some ([], 13) else None
  | 13 => if is_digit c then Some ([], 14) else None
  | 14 => if c =? 13 then Some ([StoreVersion], 15) else None
  | 15 => if c =? 10 then Some ([], 16) else None
  | _ => None
  end.
(** A header, or the empty line; the end; the name of a header. *)
Definition from_name (cs c : Z) : option (list action * Z) :=
  match cs with
  | 16 => if c =? 13 then Some ([], 17) else if is_tchar c then Some ([Mark], 18) else None
  | 17 => if c =? 10 then Some ([Done], 29) else None
  | 18 => if c =? 58 then Some ([StoreFieldName], 19) else if is_tchar c then Some ([], 18) else None
  | _ => None
  end.
(** The text of a header: the blanks in front of it, it, blanks in it, the end of the line. *)
Definition from_value (cs c : Z) : option (list action * Z) :=
  match cs with
  | 19 => if is_blank c then Some ([], 19) else if c =? 13 then Some ([Mark; NoMarkStoreValue], 22)
          else if is_control c then None else Some ([Mark], 20)
  | 20 => if is_blank c then Some ([Checkpoint], 21) else if c =? 13 then Some ([Checkpoint; NoMarkStoreValue], 22)
          else if is_control c then None else Some ([Checkpoint], 20)
  | 21 => if is_blank c then Some ([], 21) else if c =? 13 then Some ([NoMarkStoreValue], 22)
          else if is_control c then None else Some ([], 20)
  | 22 => if c =? 10 then Some ([], 23) else None
  | _ => None
  end.
(** Behind the line of a header. *)
Definition from_line (cs c : Z) : option (list action * Z) :=
  match cs with
  | 23 => if is_blank c then Some ([AssignField], 24) else if c =? 13 then Some ([AssignField], 17)
          else if is_tchar c then Some ([AssignField; Mark], 18) else None
  | _ => None
  end.
(** The text of a line that goes on, and behind it. *)
Definition from_more (cs c : Z) : option (list action * Z) :=
  match cs with
  | 24 => if is_blank c then Some ([], 24) else if c =? 13 then Some ([Mark; NoMarkStoreValue], 27)
          else if is_control c then None else Some ([Mark], 25)
  | 25 => if is_blank c then Some ([Checkpoint], 26) else if c =? 13 then Some ([Checkpoint; NoMarkStoreValue], 27)
          else if is_control c then None else Some ([Checkpoint], 25)
  | 26 => if is_blank c then Some ([], 26) else if c =? 13 then Some ([NoMarkStoreValue], 27)
          else if is_control c then None else Some ([], 25)
  | 27 => if c =? 10 then Some ([], 28) else None
  | 28 => if is_blank c then Some ([ExtendField], 24) else if c =? 13 then Some ([ExtendField], 17)
          else if is_tchar c then Some ([ExtendField; Mark], 18) else None
  | _ => None
  end.

Definition transition (cs c : Z) : option (list action * Z) :=
  match cs with
  | 1 | 2 | 3 | 4 | 5 => from_method cs c
  | 6 | 7 | 8 | 9 | 10 | 11 | 12 | 13 | 14 | 15 => from_version cs c
  | 16 | 17 | 18 => from_name cs c
  | 19 | 20 | 21 | 22 => from_value cs c
  | 23 => from_line cs c
  | 24 | 25 | 26 | 27 | 28 => from_more cs c
  | _ => None
  end.

Section Parse.
Context {B : Type} {SB : StringBuilder B}.

(** The machine over what is left of the block: where it stops, and whether it is done. *)
Fixpoint exec (blk rest : sstring) (p : nat) (s : parser B) : parser B * nat * bool :=
  match rest with
  | [] => (s, p, false)
  | c :: rest =>
    match transition (fsm_cs s) (schar c) with
    | None => (set_cs 0 s, p, false)
    | Some (acts, cs) =>
      let s := set_cs cs (foldl (fun s a => act blk p a s) s acts) in
      if cs =? 29 then (s, S p, true) else exec blk rest (S p) s
    end
  end.

(** [parse(p, pe, eof)]: where it stops in the block, [None] for [nullptr].  [at_eof] says
    that [eof] is [pe]. *)
Definition parse (blk : sstring) (at_eof : bool) (s : parser B) : parser B * option nat :=
  let s := set_builder (guard_enter (builder s)) s in
  let s := match blk with [] => s | _ => set_pstate PError s end in
  let '(s, p, done) := exec blk blk O s in
  let '(s, r) :=
    if done then (set_pstate PDone s, Some p)
    else if (p =? length blk)%nat then (if at_eof then (set_pstate PEof s, Some p) else (s, None))
    else (set_pstate PError s, Some p) in
  (set_builder (guard_leave blk (builder s)) s, r).

Definition parser_eof (s : parser B) : bool := match parser_state s with PEof => true | _ => false end.
Definition parser_failed (s : parser B) : bool := match parser_state s with PError => true | _ => false end.

End Parse.

(** ** A builder *)
Module Build.

Record bld := Bld { b_value : sstring; b_start : option nat }.

#[refine] #[export] Instance bld_builder : StringBuilder bld := {
  sb_value := b_value; sb_start := b_start; sb_reset := Bld [] None;
  guard_enter b := if bool_decide (b_value b = []) then b else Bld (b_value b) (Some O);
  guard_leave blk b := Bld (b_value b ++ match b_start b with Some s => drop s blk | None => [] end) None;
  mark_start p b := Bld (b_value b) p;
  mark_end blk p b := match b_start b with Some s => Bld (b_value b ++ take (p - s) (drop s blk)) None | None => b end;
  get_str b := (b_value b, Bld [] (b_start b)) }.
Proof.
  - done.
  - intros b. by case_bool_decide.
  - done.
  - done.
  - intros blk s p b H _. by rewrite H.
  - done.
Defined.

End Build.

Import Build.

Example parse_ok :
  let r := parse (bytes_of "GET /a HTTP/1.1" ++ [13; 10] ++ bytes_of "Host: x y" ++ [13; 10; 13; 10; 71]) false
    (parser_init (B := Build.bld) (Parser 0 (Build.Bld [] None) request_init [] [] PEof)) in
  snd r = Some 30%nat /\ q_method (req (fst r)) = bytes_of "GET" /\ q_url (req (fst r)) = bytes_of "/a" /\
  q_version (req (fst r)) = bytes_of "1.1" /\ get_header (bytes_of "hOST") (req (fst r)) = bytes_of "x y".
Proof. by vm_compute. Qed.
