(* ===== verification/HttpParserSpec.v ===== *)
(** * The request parser: any cut into blocks, and the round trip

    [astep] is the machine without a builder: it keeps the text that is marked.  The
    parser does the same over blocks cut anywhere ([run_blocks]), and [http_request_text]
    is the text of a request, which it reads back. *)

From S2P Require Import Prelude Json Http HttpUrl HttpParser.
From stdpp Require Import base numbers option gmap list strings.

#[local] Open Scope Z_scope.


(** ** The machine on texts *)

Record astate := AState { a_cs : Z; a_held : option sstring; a_req : request; a_name : sstring; a_value : sstring }.

(** [None]: an action that the abstract machine does not have, [NoMarkStoreValue] with
    text behind the last checkpoint ([blank]). *)
Definition aact (blank : bool) (a : action) (x : astate) : option astate :=
  let r := a_req x in
  let text := default [] (a_held x) in
  let x' := AState (a_cs x) None r (a_name x) (a_value x) in
  match a with
  | Mark => Some (AState (a_cs x) (Some []) r (a_name x) (a_value x))
  | StoreMethod => Some (AState (a_cs x) None (set_line text (q_url r) (q_version r) r) (a_name x) (a_value x))
  | StoreUri => Some (AState (a_cs x) None (set_line (q_method r) text (q_version r) r) (a_name x) (a_value x))
  | StoreVersion => Some (AState (a_cs x) None (set_line (q_method r) (q_url r) text r) (a_name x) (a_value x))
  | StoreFieldName => Some (AState (a_cs x) None r text (a_value x))
  | NoMarkStoreValue => if blank then None else Some (AState (a_cs x) None r (a_name x) text)
  | AssignField => Some (AState (a_cs x) (a_held x) (with_headers (assign_field (a_name x) (a_value x) (q_headers r)) r) (a_name x) [])
  | ExtendField => Some (AState (a_cs x) (a_held x) (with_headers (extend_field (a_name x) (a_value x) (q_headers r)) r) (a_name x) [])
  | Checkpoint | Done => Some x
  end.

Definition aacts (blank : bool) (l : list action) (x : astate) : option astate :=
  foldl (fun x a => x ≫= aact blank a) (Some x) l.

Definition astep (c : Z) (x : astate) : option astate :=
  '(l, cs) ← transition (a_cs x) (schar c);
  x ← aacts ((a_cs x =? 21) || (a_cs x =? 26)) l x;
  Some (AState cs (if cs =? 29 then a_held x else (fun t => t ++ [c]) <$> a_held x) (a_req x) (a_name x) (a_value x)).

Fixpoint arun (l : sstring) (x : astate) : option astate :=
  match l with [] => Some x | c :: l => x ← astep c x; arun l x end.

Lemma arun_app k l x : arun (k ++ l) x = x ← arun k x; arun l x.
Proof. revert x. induction k as [|c k IH]; intros x; simpl; [done|]. destruct (astep c x); simpl; [apply IH|done]. Qed.

(** ** The parser does what the machine does *)

Section Refines.
Context {B : Type} {SB : StringBuilder B}.

Definition marked (b : B) (blk : sstring) (p : nat) : sstring :=
  sb_value b ++ match sb_start b with Some s => take (p - s) (drop s blk) | None => [] end.

Definition holds (b : B) (blk : sstring) (p : nat) (h : option sstring) : Prop :=
  match h with
  | None => sb_value b = [] /\ sb_start b = None
  | Some t => marked b blk p = t /\ exists s, sb_start b = Some s /\ (s <= p)%nat
  end.

(** The states in which a text is marked: what was read of it is not empty. *)
Definition marking (cs : Z) : bool := bool_decide (cs ∈ [2; 4; 5; 12; 13; 14; 18; 20; 21; 25; 26]).
Definition refines (s : parser B) (blk : sstring) (p : nat) (x : astate) : Prop :=
  fsm_cs s = a_cs x /\ holds (builder s) blk p (a_held x) /\ (if marking (a_cs x) then exists t, a_held x = Some t /\ t <> [] else a_held x = None) /\
  req s = a_req x /\ field_name s = a_name x /\ field_value s = a_value x.

(** Within a transition: the actions only. *)
Definition acts_refine (s : parser B) (blk : sstring) (p : nat) (x : astate) : Prop :=
  holds (builder s) blk p (a_held x) /\ req s = a_req x /\ field_name s = a_name x /\ field_value s = a_value x.

Lemma str_refines blk p s t : holds (builder s) blk p (Some t) -> (p <= length blk)%nat ->
  fst (str blk p s) = t /\ holds (builder (snd (str blk p s))) blk p None /\
  exists b, snd (str blk p s) = set_builder b s.
Proof.
  intros [<- (st & Hs & Hp)] Hl. unfold str, marked. destruct (mark_end_spec blk st p (builder s) Hs) as [H1 H2]; [lia|].
  pose proof (get_str_spec (mark_end blk p (builder s))) as (H3 & H4 & H5). destruct (get_str _) as [t' b']. simpl in *.
  rewrite Hs, H3, H1. split_and!; [done|done|congruence|eauto].
Qed.

Lemma checkpoint_refines blk p b t : holds b blk p (Some t) -> (p <= length blk)%nat ->
  let b' := mark_start (Some p) (mark_end blk p b) in holds b' blk p (Some t) /\ sb_value b' = t.
Proof.
  intros [<- (st & Hs & Hp)] Hl. simpl. unfold marked. destruct (mark_end_spec blk st p b Hs) as [H1 H2]; [lia|].
  destruct (mark_start_spec (Some p) (mark_end blk p b)) as [H3 H4]. rewrite H4, H3, H1, Hs, Nat.sub_diag, take_0, app_nil_r.
  split_and!; [done|eauto|done].
Qed.

Lemma mark_refines blk p b : holds b blk p None -> holds (mark_start (Some p) b) blk p (Some []).
Proof.
  intros [H1 _]. destruct (mark_start_spec (Some p) b) as [H3 H4]. simpl. unfold marked. rewrite H4, H3, H1, Nat.sub_diag. split; [done|eauto].
Qed.

(** What an action needs: whether a text is marked. *)
Definition needs (a : action) (h : option sstring) : Prop :=
  match a with
  | Mark => h = None
  | StoreMethod | StoreUri | StoreVersion | StoreFieldName | Checkpoint => is_Some h
  | _ => True
  end.

Lemma act_refines blank blk p a s x x' : acts_refine s blk p x -> (p <= length blk)%nat -> needs a (a_held x) -> a <> NoMarkStoreValue ->
  aact blank a x = Some x' -> acts_refine (act blk p a s) blk p x'.
Proof.
  intros (H1 & H2 & H3 & H4) Hp Hn Ha. destruct x as [cs h r n v]; simpl in *. subst r n v.
  destruct a; simpl in *; try done; intros [= <-]; unfold acts_refine; simpl; try done.
  1: by subst h; split; [apply mark_refines|].
  all: try (destruct Hn as [t ->]; destruct (str_refines blk p s t H1 Hp) as (E1 & E2 & b & E3);
            destruct (str blk p s) as [t' s']; simpl in *; by subst).
  destruct Hn as [t ->]. destruct (checkpoint_refines blk p (builder s) t H1 Hp) as [E _]. done.
Qed.

Lemma nmsv_refines blk p s x x' : acts_refine s blk p x -> sb_value (builder s) = default [] (a_held x) ->
  aact false NoMarkStoreValue x = Some x' -> acts_refine (act blk p NoMarkStoreValue s) blk p x'.
Proof.
  intros (H1 & H2 & H3 & H4) Hv. destruct x as [cs h r n v]; simpl in *. subst r n v. intros [= <-]. unfold acts_refine. simpl.
  destruct (get_str_spec (builder s)) as (E1 & E2 & E3). destruct (get_str (builder s)) as [t b]. simpl in *.
  destruct (mark_start_spec None b) as [E4 E5]. split_and!; try done; congruence.
Qed.

(** The lists of actions that a transition has, and the states around them. *)
Definition shape (cs : Z) (l : list action) (cs' : Z) : bool :=
  match l with
  | [] => bool_decide (marking cs = marking cs')
  | [Mark] => negb (marking cs) && marking cs'
  | [StoreMethod] | [StoreUri] | [StoreVersion] | [StoreFieldName] => marking cs && negb (marking cs')
  | [Checkpoint] => marking cs && marking cs'
  | [Checkpoint; NoMarkStoreValue] => marking cs && negb (marking cs')
  | [Mark; NoMarkStoreValue] | [AssignField] | [ExtendField] | [Done] => negb (marking cs) && negb (marking cs')
  | [AssignField; Mark] | [ExtendField; Mark] => negb (marking cs) && marking cs'
  | [NoMarkStoreValue] => (cs =? 21) || (cs =? 26)
  | _ => false
  end.

Lemma transition_shape cs c l cs' : transition cs c = Some (l, cs') -> shape cs l cs' = true /\ ((cs' =? 29) = true <-> l = [Done]).
Proof.
  unfold transition, from_method, from_version, from_name, from_value, from_line, from_more. destruct cs as [|n|]; [done| |done].
  do 5 (try destruct n as [n|n|]; try done); repeat case_match; intros [= <- <-]; done.
Qed.

Lemma holds_advance b blk p h c : holds b blk p h -> blk !! p = Some c -> holds b blk (S p) ((fun t => t ++ [c]) <$> h).
Proof.
  intros H Hc. destruct h as [t|]; [|done]. destruct H as [<- (st & Hs & Hp)]. simpl. unfold marked. rewrite Hs.
  split; [|eauto with lia]. rewrite <- app_assoc. f_equal. replace (S p - st)%nat with (S (p - st)) by lia.
  rewrite (take_S_r _ _ c); [done|]. rewrite lookup_drop. by replace (st + (p - st))%nat with p by lia.
Qed.

Lemma held_marking (cs : Z) (h : option sstring) : (if marking cs then exists t, h = Some t /\ t <> [] else h = None) ->
  (marking cs = true -> is_Some h) /\ (marking cs = false -> h = None).
Proof. destruct (marking cs); [intros (t & -> & _)|]; naive_solver. Qed.

Lemma aact_then blank a1 a2 x y : (Some x ≫= aact blank a1) ≫= aact blank a2 = Some y ->
  exists z, aact blank a1 x = Some z /\ aact blank a2 z = Some y.
Proof. simpl. destruct (aact blank a1 x) as [z|]; simpl; [eauto|done]. Qed.

(** One character. *)
Lemma step_refines s blk p c x l cs' x' : refines s blk p x -> blk !! p = Some c -> transition (a_cs x) (schar c) = Some (l, cs') ->
  astep c x = Some x' -> let s' := set_cs cs' (foldl (fun s a => act blk p a s) s l) in
  if cs' =? 29 then l = [Done] /\ s' = set_cs 29 s /\ x' = AState 29 (a_held x) (a_req x) (a_name x) (a_value x)
  else refines s' blk (S p) x'.
Proof.
  intros (H1 & H2 & H3 & H4 & H5 & H6) Hc Ht. unfold astep. rewrite Ht. simpl.
  destruct (transition_shape _ _ _ _ Ht) as [Hs Hd]. destruct (held_marking _ _ H3) as [Hm Hn].
  assert (Hp : (p <= length blk)%nat) by (apply lookup_lt_Some in Hc; lia).
  destruct (aacts _ l x) as [y|] eqn:Ey; simpl; [|done]. intros [= <-].
  destruct (cs' =? 29) eqn:E29.
  { apply Z.eqb_eq in E29 as ->. rewrite (proj1 Hd eq_refl) in *. simpl in *. by inversion Ey. }
  assert (acts_refine (foldl (fun s a => act blk p a s) s l) blk p y /\
    (if marking cs' then is_Some (a_held y) else a_held y = None)) as [(G1 & G2 & G3 & G4) G5].
  2:{ unfold refines. simpl. split_and!; try done; [by apply holds_advance|].
      destruct (marking cs'); [|by rewrite G5]. destruct G5 as [t ->]. exists (t ++ [c]). split; [done|]. by destruct t. }
  assert (acts_refine s blk p x) as H by done. clear H1 H2 H3 H4 H5 H6 Hc Ht Hd E29.
  destruct l as [|a1 [|a2 [|a3 l]]]; simpl in Hs.
  - simpl in Ey. inversion Ey; subst. apply bool_decide_eq_true in Hs. split; [done|]. rewrite <- Hs.
    destruct (marking (a_cs y)); [by apply Hm|by apply Hn].
  - unfold aacts in Ey. simpl in Ey. destruct (decide (a1 = NoMarkStoreValue)) as [->|Ha].
    { simpl in Ey. by rewrite Hs in Ey. }
    assert (needs a1 (a_held x)) as Hna by (destruct a1; simpl in *; try done; apply andb_true_iff in Hs as [Hs _];
      first [by apply Hm|apply Hn; by apply negb_true_iff]).
    split; [by eapply act_refines|].
    destruct a1; simpl in *; try done; apply andb_true_iff in Hs as [Hs1 Hs2]; inversion Ey; subst; simpl;
      rewrite ?Hs2; rewrite ?(proj1 (negb_true_iff _) Hs2); rewrite ?(proj1 (negb_true_iff _) Hs1) in *; auto.
  - destruct a1, a2; simpl in Hs; try done; apply andb_true_iff in Hs as [Hs1 Hs2].
    all: try apply negb_true_iff in Hs2; rewrite Hs2; unfold aacts in Ey; cbn [foldl] in Ey.
    + specialize (Hn (proj1 (negb_true_iff _) Hs1)). destruct (aact_then _ _ _ _ _ Ey) as (z & E1 & E2).
      assert (G : acts_refine (act blk p Mark s) blk p z) by (by eapply act_refines).
      destruct (_ || _); [done|]. split; [|by inversion E2]. refine (nmsv_refines blk p _ _ _ G _ E2).
      inversion E1; subst. destruct G as [[G _] _]. by apply app_eq_nil in G as [G _].
    + destruct (Hm Hs1) as [t Ht]. destruct (aact_then _ _ _ _ _ Ey) as (z & E1 & E2).
      assert (G : acts_refine (act blk p Checkpoint s) blk p z) by (by eapply (act_refines _ blk p Checkpoint); [done|done|exists t|done|]).
      destruct (_ || _); [done|]. split; [|by inversion E2]. refine (nmsv_refines blk p _ _ _ G _ E2).
      inversion E1; subst. rewrite Ht. destruct H as [H _]. rewrite Ht in H. by apply (checkpoint_refines blk p).
    + specialize (Hn (proj1 (negb_true_iff _) Hs1)). destruct (aact_then _ _ _ _ _ Ey) as (z & E1 & E2).
      assert (G : acts_refine (act blk p AssignField s) blk p z) by (by eapply act_refines).
      split; [|by inversion E2]. refine (act_refines _ blk p Mark _ _ _ G Hp _ _ E2); [by inversion E1; subst|done].
    + specialize (Hn (proj1 (negb_true_iff _) Hs1)). destruct (aact_then _ _ _ _ _ Ey) as (z & E1 & E2).
      assert (G : acts_refine (act blk p ExtendField s) blk p z) by (by eapply act_refines).
      split; [|by inversion E2]. refine (act_refines _ blk p Mark _ _ _ G Hp _ _ E2); [by inversion E1; subst|done].
  - destruct a1; try done; destruct a2; done.
Qed.

Lemma exec_refines pre : forall blk post p s x x', drop p blk = pre ++ post -> refines s blk p x -> a_cs x <> 29 -> arun pre x = Some x' ->
  exists s', if a_cs x' =? 29 then exec blk (pre ++ post) p s = (s', (p + length pre)%nat, true) /\ req s' = a_req x'
  else exec blk (pre ++ post) p s = exec blk post (p + length pre) s' /\ refines s' blk (p + length pre) x'.
Proof.
  induction pre as [|c pre IH]; intros blk post p s x x' Hd Hr H29 Ha; simpl in *.
  - inversion Ha; subst. exists s. destruct (Z.eqb_spec (a_cs x') 29); [done|]. by rewrite Nat.add_0_r.
  - destruct (astep c x) as [y|] eqn:Ey; [|done]. simpl in Ha.
    assert (Hc : blk !! p = Some c) by (rewrite <- (Nat.add_0_r p), <- lookup_drop, Hd; done).
    assert (Hd' : drop (S p) blk = pre ++ post) by (replace (S p) with (p + 1)%nat by lia; by rewrite <- drop_drop, Hd).
    pose proof Ey as Ey'. unfold astep in Ey'. destruct (transition (a_cs x) (schar c)) as [[l cs']|] eqn:Et; [|done]. simpl in Ey'.
    destruct (aacts _ l x) as [z|]; [|done]. simpl in Ey'.
    pose proof (step_refines s blk p c x l cs' y Hr Hc Et Ey) as Hs. simpl in Hs.
    rewrite (proj1 Hr), Et. destruct (cs' =? 29) eqn:E29.
    + destruct Hs as (_ & Hs & Hy). subst y. assert (pre = [] /\ x' = AState 29 (a_held x) (a_req x) (a_name x) (a_value x)) as [-> ->].
      { destruct pre as [|d pre]; simpl in Ha; [by inversion Ha|]. done. }
      exists (set_cs 29 s). simpl in *. split; [|apply Hr]. by rewrite Hs, Nat.add_1_r.
    + assert (a_cs y <> 29) as Hy by (inversion Ey'; simpl; by apply Z.eqb_neq).
      destruct (IH blk post (S p) _ y x' Hd' Hs Hy Ha) as [s' Hs']. exists s'.
      replace (p + S (length pre))%nat with (S p + length pre)%nat by lia. done.
Qed.

(** ** Between blocks *)

Definition between (s : parser B) (x : astate) : Prop :=
  fsm_cs s = a_cs x /\ sb_value (builder s) = default [] (a_held x) /\ sb_start (builder s) = None /\
  (if marking (a_cs x) then exists t, a_held x = Some t /\ t <> [] else a_held x = None) /\
  req s = a_req x /\ field_name s = a_name x /\ field_value s = a_value x.

Lemma enter_refines s blk x t : between s x -> refines (set_pstate t (set_builder (guard_enter (builder s)) s)) blk 0 x.
Proof.
  intros (H1 & H2 & H3 & H4 & H5 & H6 & H7). unfold refines. simpl. split_and!; try done.
  destruct (guard_enter_spec (builder s)) as [E1 E2]. destruct (marking (a_cs x)).
  - destruct H4 as (u & Hu & Hne). rewrite Hu in *. simpl in *. unfold marked. rewrite E2, E1, H2, bool_decide_false by done.
    simpl. rewrite app_nil_r. split; [done|eauto].
  - rewrite H4 in *. simpl in *. by rewrite E2, E1, H2, H3.
Qed.

Lemma leave_between s blk x : refines s blk (length blk) x -> between (set_builder (guard_leave blk (builder s)) s) x.
Proof.
  intros (H1 & H2 & H3 & H4 & H5 & H6). destruct (guard_leave_spec blk (builder s)) as [E1 E2]. unfold between. simpl.
  split_and!; try done. rewrite E1. destruct (a_held x) as [t|]; simpl in *.
  - destruct H2 as [<- (st & Hs & Hp)]. unfold marked. rewrite Hs. f_equal. rewrite take_ge; [done|]. rewrite length_drop. lia.
  - destruct H2 as [-> ->]. done.
Qed.

Lemma parse_more blk s x x' : blk <> [] -> between s x -> a_cs x <> 29 -> arun blk x = Some x' -> a_cs x' <> 29 ->
  exists s', parse blk false s = (s', None) /\ between s' x'.
Proof.
  intros Hne Hb H29 Ha H29'. unfold parse. pose proof (enter_refines s blk x PError Hb) as He.
  destruct (exec_refines blk blk [] 0 _ x x' ltac:(by rewrite app_nil_r) He H29 Ha) as [s' Hs]. rewrite app_nil_r in Hs.
  destruct (Z.eqb_spec (a_cs x') 29); [done|]. destruct Hs as [Hs Hr]. destruct blk as [|c blk]; [done|].
  cbv zeta. rewrite Hs. simpl. rewrite Nat.eqb_refl. eexists. split; [done|]. by apply leave_between.
Qed.

Lemma parse_stops pre post s x x' : pre <> [] -> between s x -> a_cs x <> 29 -> arun pre x = Some x' -> a_cs x' = 29 ->
  exists s', parse (pre ++ post) false s = (s', Some (length pre)) /\ parser_state s' = PDone /\ req s' = a_req x'.
Proof.
  intros Hne Hb H29 Ha H29'. unfold parse. pose proof (enter_refines s (pre ++ post) x PError Hb) as He.
  destruct (exec_refines pre (pre ++ post) post 0 _ x x' eq_refl He H29 Ha) as [s' Hs]. rewrite H29' in Hs. simpl in Hs.
  destruct Hs as [Hs Hr]. destruct pre as [|c pre]; [done|].
  cbv zeta. simpl app in *. cbv iota. rewrite Hs. eexists. split; [done|]. done.
Qed.

(** Calls of [parse] for consecutive blocks, until it stops: the parser and what is left. *)
Fixpoint run_blocks (blks : list sstring) (s : parser B) : option (parser B * list sstring) :=
  match blks with
  | [] => None
  | b :: blks =>
    match parse b false s with
    | (s, None) => run_blocks blks s
    | (s, Some n) => Some (s, drop n b :: blks)
    end
  end.

Lemma arun_29 pre post x x' : arun pre x = Some x' -> a_cs x' = 29 -> arun (pre ++ post) x = Some x' \/ arun (pre ++ post) x = None.
Proof. intros H1 H2. rewrite arun_app, H1. simpl. destruct post as [|c post]; [by left|right]. simpl. unfold astep. by rewrite H2. Qed.

Lemma run_blocks_cut blks : forall text rest s x x', Forall (fun b => b <> []) blks -> concat blks = text ++ rest -> text <> [] ->
  between s x -> a_cs x <> 29 -> arun text x = Some x' -> a_cs x' = 29 ->
  exists s' left, run_blocks blks s = Some (s', left) /\ concat left = rest /\ parser_state s' = PDone /\ req s' = a_req x'.
Proof.
  induction blks as [|b blks IH]; intros text rest s x x' Hne Hc Ht Hb H29 Ha H29'; simpl in *.
  - symmetry in Hc. by apply app_eq_nil in Hc as [? _].
  - apply Forall_cons in Hne as [Hb0 Hne]. destruct (decide (length b < length text)%nat) as [Hl|Hl].
    + assert (exists t2, text = b ++ t2 /\ concat blks = t2 ++ rest) as (t2 & -> & Hc2).
      { exists (drop (length b) text). split.
        - rewrite <- (take_drop (length b) text) at 1. f_equal. rewrite <- (take_app_le text rest), <- Hc by lia. by rewrite take_app_length.
        - rewrite <- (drop_app_le text rest), <- Hc by lia. by rewrite drop_app_length. }
      rewrite arun_app in Ha. destruct (arun b x) as [y|] eqn:Ey; [|done]. simpl in Ha.
      assert (a_cs y <> 29) as Hy.
      { intros Hy. destruct t2 as [|c t2]; [rewrite app_nil_r in Hl; lia|]. simpl in Ha. unfold astep in Ha. by rewrite Hy in Ha. }
      destruct (parse_more b s x y Hb0 Hb H29 Ey Hy) as (s' & -> & Hb'). apply (IH t2 rest s' y x'); try done.
      intros ->. rewrite app_nil_r in Hl. lia.
    + assert (b = text ++ drop (length text) b) as Hb1.
      { rewrite <- (take_drop (length text) b) at 1. f_equal. rewrite <- (take_app_le b (concat blks)), Hc by lia. by rewrite take_app_length. }
      rewrite Hb1 in Hc. rewrite <- app_assoc in Hc. apply app_inv_head in Hc.
      destruct (parse_stops text (drop (length text) b) s x x' Ht Hb H29 Ha H29') as (s' & Hp & H1 & H2). rewrite Hb1, Hp.
      eexists s', _. split; [done|]. rewrite drop_app_length. done.
Qed.

End Refines.

(** ** The text of a request *)

Definition crlf : sstring := [13; 10].

(** A header: its name, the blanks behind the colon, its text, and the lines that go on
    with it, blanks and a text each. *)
Record header_text := HeaderText { ht_name : sstring; ht_blanks : sstring; ht_text : sstring; ht_more : list (sstring * sstring) }.

Definition more_text (l : list (sstring * sstring)) : sstring := concat (map (fun e => fst e ++ snd e ++ crlf) l).
Definition print_header (h : header_text) : sstring := ht_name h ++ 58 :: ht_blanks h ++ ht_text h ++ crlf ++ more_text (ht_more h).
Definition http_request_text (m u v : sstring) (hs : list header_text) : sstring :=
  m ++ 32 :: u ++ bytes_of " HTTP/" ++ v ++ crlf ++ concat (map print_header hs) ++ crlf.

Definition vchar (c : Z) : bool := (0 <=? c) && (c <? 256) && negb (is_blank c) && negb (is_control (schar c)).
Definition uri_char (c : Z) : bool := (0 <=? c) && (c <? 256) && negb (c =? 32) && negb (c =? 13).

(** A text starts and ends with a character that can be seen. *)
Definition good_text (t : sstring) : Prop :=
  Forall (fun c => is_blank c || vchar c = true) t /\
  match t with [] => True | c :: _ => vchar c = true end /\ match last t with Some c => vchar c = true | None => True end.
Definition blanks (b : sstring) : Prop := Forall (fun c => is_blank c = true) b.
Definition good_header (h : header_text) : Prop :=
  ht_name h <> [] /\ Forall (fun c => is_tchar c = true) (ht_name h) /\ blanks (ht_blanks h) /\ good_text (ht_text h) /\
  Forall (fun e => fst e <> [] /\ blanks (fst e) /\ good_text (snd e)) (ht_more h).
Definition good_request (m u v : sstring) (hs : list header_text) : Prop :=
  m <> [] /\ Forall (fun c => is_upper c = true) m /\ u <> [] /\ Forall (fun c => uri_char c = true) u /\
  (exists a b, v = [a; 46; b] /\ is_digit a = true /\ is_digit b = true) /\ Forall good_header hs.

(** The headers that it sets. *)
Definition more_lines (name : sstring) (l : list (sstring * sstring)) (h : gmap sstring sstring) : gmap sstring sstring :=
  foldl (fun h e => extend_field name (snd e) h) h l.
Definition add_header (h : gmap sstring sstring) (e : header_text) : gmap sstring sstring :=
  more_lines (ht_name e) (ht_more e) (assign_field (ht_name e) (ht_text e) h).

(** ** Running the machine on it *)

Lemma schar_small c : c < 128 -> schar c = c.
Proof. unfold schar. by destruct (Z.ltb_spec c 128); [|lia]. Qed.

Lemma astep_to c x l cs y : transition (a_cs x) (schar c) = Some (l, cs) -> cs <> 29 ->
  aacts ((a_cs x =? 21) || (a_cs x =? 26)) l x = Some y ->
  astep c x = Some (AState cs ((fun t => t ++ [c]) <$> a_held y) (a_req y) (a_name y) (a_value y)).
Proof. intros H1 H2 H3. unfold astep. rewrite H1. simpl. rewrite H3. simpl. destruct (Z.eqb_spec cs 29); [done|]. done. Qed.

(** A run of characters that leave the machine where it is. *)
Lemma arun_loop (P : Z -> bool) cs l h r n v : cs <> 29 -> (forall c, P c = true -> transition cs (schar c) = Some ([], cs)) ->
  Forall (fun c => P c = true) l -> arun l (AState cs h r n v) = Some (AState cs ((fun t => t ++ l) <$> h) r n v).
Proof.
  intros H29 HP Hl. revert h. induction Hl as [|c l Hc _ IH]; intros h; simpl.
  - destruct h as [t|]; simpl; [by rewrite app_nil_r|done].
  - rewrite (astep_to c _ [] cs (AState cs h r n v)) by (simpl; auto). simpl. rewrite IH.
    destruct h as [t|]; simpl; [by rewrite <- app_assoc|done].
Qed.

Ltac chars := unfold vchar, uri_char, is_tchar, is_digit, is_upper, is_blank, is_control, schar in *;
  repeat match goal with
  | |- context [if ?b then _ else _] => destruct b eqn:?
  | H : context [if ?b then _ else _] |- _ => destruct b eqn:?
  end; first [done|lia].

Lemma run_method m : m <> [] -> Forall (fun c => is_upper c = true) m ->
  forall r n v, arun (m ++ [32]) (AState 1 None r n v) = Some (AState 3 None (set_line m (q_url r) (q_version r) r) n v).
Proof.
  intros Hm Hu r n v. destruct m as [|c m]; [done|]. apply Forall_cons in Hu as [Hc Hu].
  assert (forall d, is_upper d = true -> d < 128) as Hs by (intros d; chars).
  rewrite <- app_comm_cons. simpl. rewrite (astep_to c _ [Mark] 2 (AState 1 (Some []) r n v)); [|simpl; rewrite schar_small, Hc by auto; done|done|done].
  simpl. rewrite arun_app. rewrite (arun_loop is_upper) by (first [done|intros d Hd; simpl; rewrite schar_small, Hd by auto; destruct (Z.eqb_spec d 32); [chars|done]]).
  simpl. done.
Qed.

Lemma run_uri u : u <> [] -> Forall (fun c => uri_char c = true) u ->
  forall r n v, arun (u ++ bytes_of " HTTP/") (AState 3 None r n v) = Some (AState 11 None (set_line (q_method r) u (q_version r) r) n v).
Proof.
  intros Hm Hu r n v. destruct u as [|c u]; [done|]. apply Forall_cons in Hu as [Hc Hu].
  assert (forall d, uri_char d = true -> (schar d =? 13) = false /\ (schar d =? 32) = false) as Hs by (intros d; chars).
  destruct (Hs c Hc) as [E1 E2].
  rewrite <- app_comm_cons. simpl. rewrite (astep_to c _ [Mark] 4 (AState 3 (Some []) r n v)); [|simpl; by rewrite E1, E2|done|done].
  simpl. rewrite arun_app. rewrite (arun_loop uri_char) by (first [done|intros d Hd; simpl; destruct (Hs d Hd) as [-> ->]; done]).
  simpl. done.
Qed.

Lemma run_version a b : is_digit a = true -> is_digit b = true -> forall r n v,
  arun ([a; 46; b] ++ crlf) (AState 11 None r n v) = Some (AState 16 None (set_line (q_method r) (q_url r) [a; 46; b] r) n v).
Proof.
  intros Ha Hb r n v. assert (forall d, is_digit d = true -> d < 128) as Hs by (intros d; chars).
  simpl. rewrite (astep_to a _ [Mark] 12 (AState 11 (Some []) r n v)); [|simpl; rewrite schar_small, Ha by auto; done|done|done].
  simpl. rewrite (astep_to b _ [] 14 (AState 13 (Some [a; 46]) r n v)); [|simpl; rewrite schar_small, Hb by auto; done|done|done].
  done.
Qed.

Lemma vchar_kind d : vchar d = true -> is_blank (schar d) = false /\ (schar d =? 13) = false /\ is_control (schar d) = false.
Proof. chars. Qed.
Lemma blank_schar d : is_blank d = true -> schar d = d.
Proof. chars. Qed.

(** The five states of the text of a line: of a header, or of a line that goes on with it. *)
Definition base (more : bool) : Z := if more then 24 else 19.

Lemma last_match {A} (P : A -> Prop) (Q R : Prop) (x y : A) l :
  match last (x :: y :: l) with Some c => P c | None => Q end -> match last (y :: l) with Some c => P c | None => R end.
Proof. change (last (x :: y :: l)) with (last (y :: l)). destruct (last (y :: l)) eqn:E; [done|]. by apply last_None in E. Qed.

Lemma run_text_chars k t : Forall (fun c => is_blank c || vchar c = true) t -> forall cs u r n v, cs = base k + 1 \/ cs = base k + 2 ->
  match last t with Some c => vchar c = true | None => cs = base k + 1 end ->
  arun t (AState cs (Some u) r n v) = Some (AState (base k + 1) (Some (u ++ t)) r n v).
Proof.
  induction 1 as [|c t Hc Ht IH]; intros cs u r n v Hcs Hl; simpl in *; [by subst; rewrite app_nil_r|].
  pose proof vchar_kind as Hv. pose proof blank_schar as Hb.
  destruct (is_blank c) eqn:Ec.
  - rewrite (astep_to c _ (if cs =? base k + 1 then [Checkpoint] else []) (base k + 2) (AState cs (Some u) r n v)).
    + simpl. rewrite (IH _ (u ++ [c])); [by rewrite <- app_assoc|by right|]. destruct t as [|z t]; [|by eapply last_match].
      simpl in Hl. destruct (Hv c Hl) as [E1 _]. rewrite Hb in E1 by done. congruence.
    + simpl. rewrite Hb by done. destruct k, Hcs as [->| ->]; simpl; by rewrite Ec.
    + by destruct k.
    + by destruct (cs =? _).
  - simpl in Hc. destruct (Hv c Hc) as (E1 & E2 & E3).
    rewrite (astep_to c _ (if cs =? base k + 1 then [Checkpoint] else []) (base k + 1) (AState cs (Some u) r n v)).
    + simpl. rewrite (IH _ (u ++ [c])); [by rewrite <- app_assoc|by left|]. destruct t as [|z t]; [done|by eapply last_match].
    + simpl. destruct k, Hcs as [->| ->]; simpl; by rewrite E1, E2, E3.
    + by destruct k.
    + by destruct (cs =? _).
Qed.

(** A line of text, from behind the colon or the first blank to the end of the line. *)
Lemma run_text k b t : blanks b -> good_text t -> forall r n v,
  arun (b ++ t ++ crlf) (AState (base k) None r n v) = Some (AState (base k + 4) None r n t).
Proof.
  intros Hb (Hc & Hf & Hl) r n v. rewrite arun_app.
  rewrite (arun_loop is_blank) by (first [by destruct k|done|intros d Hd; rewrite blank_schar by done; destruct k; simpl; by rewrite Hd]).
  simpl. destruct t as [|c t]; [by destruct k|].
  destruct (vchar_kind c Hf) as (E1 & E2 & E3).
  rewrite <- app_comm_cons. simpl. rewrite (astep_to c _ [Mark] (base k + 1) (AState (base k) (Some []) r n v)); [|by destruct k; simpl; rewrite E1, E2, E3|by destruct k|done].
  simpl. rewrite arun_app, (run_text_chars k t).
  - simpl. by destruct k.
  - by apply Forall_cons in Hc as [_ Hc].
  - by left.
  - destruct t as [|z t]; [done|by eapply last_match].
Qed.

(** ** Headers *)

(** The line that was read and not yet stored: none, a header, or a line that goes on. *)
Definition after (p : option bool) : Z := match p with None => 16 | Some k => base k + 4 end.
Definition unstored (p : option bool) : list action := match p with None => [] | Some false => [AssignField] | Some true => [ExtendField] end.
Definition stored (p : option bool) (n v : sstring) (h : gmap sstring sstring) : gmap sstring sstring :=
  match p with None => h | Some false => assign_field n v h | Some true => extend_field n v h end.
Definition store (p : option bool) (n v : sstring) (r : request) : request := with_headers (stored p n v (q_headers r)) r.

Lemma set_headers_id r : with_headers (q_headers r) r = r.
Proof. by destruct r. Qed.

Lemma aacts_pending p l blank h r n v :
  aacts blank (unstored p ++ l) (AState (after p) h r n v) =
  aacts blank l (AState (after p) h (store p n v r) n (match p with None => v | _ => [] end)).
Proof. unfold aacts. rewrite foldl_app. destruct p as [[|]|]; unfold store; simpl; by rewrite ?set_headers_id. Qed.

Lemma run_more_lines l : Forall (fun e => fst e <> [] /\ blanks (fst e) /\ good_text (snd e)) l -> forall k r n v, exists k' r' v',
  arun (more_text l) (AState (base k + 4) None r n v) = Some (AState (base k' + 4) None r' n v') /\
  store (Some k') n v' r' = with_headers (more_lines n l (stored (Some k) n v (q_headers r))) r.
Proof.
  induction 1 as [|[b t] l (Hb1 & Hb2 & Ht) _ IH]; intros k r n v; [by exists k, r, v|]. simpl in *.
  destruct b as [|c b]; [done|]. apply Forall_cons in Hb2 as [Hc Hb2].
  destruct (IH true (store (Some k) n v r) n t) as (k' & r' & v' & H1 & H2). exists k', r', v'. split; [|by rewrite H2; destruct k].
  unfold more_text in *. simpl. rewrite (astep_to c _ (unstored (Some k) ++ []) 24 (AState (base k + 4) None (store (Some k) n v r) n [])).
  - simpl. rewrite !app_assoc, arun_app, <- app_assoc. pose proof (run_text true b t Hb2 Ht (store (Some k) n v r) n []) as Hr.
    simpl base in Hr. rewrite Hr. exact H1.
  - simpl. rewrite blank_schar by done. destruct k; simpl; by rewrite Hc.
  - done.
  - rewrite (aacts_pending (Some k) []). done.
Qed.

Lemma tchar_kind c : is_tchar c = true -> c < 128 /\ is_blank c = false /\ (c =? 13) = false /\ (c =? 58) = false.
Proof. chars. Qed.

Lemma run_header p h : good_header h -> forall r n v, exists k r' v',
  arun (print_header h) (AState (after p) None r n v) = Some (AState (after (Some k)) None r' (ht_name h) v') /\
  store (Some k) (ht_name h) v' r' = with_headers (add_header (stored p n v (q_headers r)) h) r.
Proof.
  intros (Hn & Hc & Hb & Ht & Hm) r n v. destruct h as [name b t more]; simpl in *. unfold print_header. simpl.
  destruct name as [|c name]; [done|]. apply Forall_cons in Hc as [Hc0 Hc].
  destruct (tchar_kind c Hc0) as (E1 & E2 & E3 & _).
  destruct (run_more_lines more Hm false (store p n v r) (c :: name) t) as (k & r' & v' & H1 & H2). exists k, r', v'.
  split; [|rewrite H2; unfold add_header, store; simpl; by destruct r]. simpl.
  rewrite (astep_to c _ (unstored p ++ [Mark]) 18 (AState (after p) (Some []) (store p n v r) n (match p with None => v | _ => [] end))).
  - simpl. rewrite arun_app.
    rewrite (arun_loop is_tchar) by (first [done|intros d Hd; destruct (tchar_kind d Hd) as (F1 & _ & _ & F4); simpl; rewrite schar_small by done; by rewrite F4, Hd]).
    simpl. change (13 :: 10 :: more_text more) with (crlf ++ more_text more). rewrite (app_assoc t), (app_assoc b), arun_app. pose proof (run_text false b t Hb Ht (store p n v r) (c :: name) (match p with None => v | _ => [] end)) as Hr.
    simpl base in Hr. rewrite Hr. exact H1.
  - simpl. rewrite schar_small by done. destruct p as [[|]|]; simpl; by rewrite ?E2, E3, Hc0.
  - done.
  - rewrite aacts_pending. done.
Qed.

Lemma run_headers hs : Forall good_header hs -> forall p r n v, exists p' r' n' v',
  arun (concat (map print_header hs)) (AState (after p) None r n v) = Some (AState (after p') None r' n' v') /\
  store p' n' v' r' = with_headers (foldl add_header (stored p n v (q_headers r)) hs) r.
Proof.
  induction 1 as [|h hs Hh _ IH]; intros p r n v; [by exists p, r, n, v|]. simpl.
  destruct (run_header p h Hh r n v) as (k & r1 & v1 & H1 & H2).
  destruct (IH (Some k) r1 (ht_name h) v1) as (p' & r' & n' & v' & H3 & H4). exists p', r', n', v'.
  split; [by rewrite arun_app, H1|]. rewrite H4.
  assert (E : stored (Some k) (ht_name h) v1 (q_headers r1) = add_header (stored p n v (q_headers r)) h) by exact (f_equal q_headers H2).
  rewrite E. destruct r1, r. unfold store, with_headers in *. simpl in *. by inversion H2.
Qed.

Lemma run_request m u v hs n w : good_request m u v hs -> exists n' w',
  arun (http_request_text m u v hs) (AState 1 None request_init n w) =
  Some (AState 29 None (with_headers (foldl add_header ∅ hs) (set_line m u v request_init)) n' w').
Proof.
  intros (Hm & Hmu & Hu & Huu & (a & b & -> & Ha & Hb) & Hh). unfold http_request_text.
  destruct (run_headers hs Hh None (set_line m u [a; 46; b] request_init) n w) as (p & r & n' & w' & H1 & H2).
  exists n', (match p with None => w' | _ => [] end).
  rewrite cons_middle, app_assoc, arun_app, (run_method m Hm Hmu). cbn [mbind option_bind].
  rewrite app_assoc, arun_app, (run_uri u Hu Huu). cbn [mbind option_bind].
  rewrite app_assoc, arun_app, (run_version a b Ha Hb). cbn [mbind option_bind]. simpl after in H1.
  match goal with |- context [AState 16 None ?x n w] => change x with (set_line m u [a; 46; b] request_init) end.
  rewrite arun_app, H1. cbn [mbind option_bind].
  unfold crlf. simpl. rewrite (astep_to 13 _ (unstored p ++ []) 17 (AState (after p) None (store p n' w' r) n' (match p with None => w' | _ => [] end))).
  - simpl. by rewrite H2.
  - by destruct p as [[|]|].
  - done.
  - by rewrite aacts_pending.
Qed.

(** ** The round trip *)

Section RoundTrip.
Context {B : Type} {SB : StringBuilder B}.

Lemma init_between (s : parser B) : between (parser_init s) (AState 1 None request_init (field_name s) (field_value s)).
Proof. destruct sb_reset_spec as [H1 H2]. unfold between. simpl. rewrite H1, H2. done. Qed.

Lemma request_parsed m u v hs blks rest (s : parser B) : good_request m u v hs -> Forall (fun b => b <> []) blks ->
  concat blks = http_request_text m u v hs ++ rest ->
  exists s' left, run_blocks blks (parser_init s) = Some (s', left) /\ concat left = rest /\ parser_state s' = PDone /\
    req s' = with_headers (foldl add_header ∅ hs) (set_line m u v request_init).
Proof.
  intros Hg Hne Hc. destruct (run_request m u v hs (field_name s) (field_value s) Hg) as (n' & w' & Hr).
  refine (run_blocks_cut blks _ rest _ _ _ Hne Hc _ (init_between s) _ Hr _); [|done|done].
  destruct Hg as [Hm _]. unfold http_request_text. by destruct m.
Qed.

Lemma parse_at_eof (s : parser B) : exists s', parse [] true s = (s', Some O) /\ parser_state s' = PEof.
Proof. eexists. split; [reflexivity|]. done. Qed.

(** C11. The text of a request - a method in upper case, a url without spaces, a version, and
    headers whose texts start and end with a visible character, each perhaps on several
    lines - is read back however it is cut into blocks: the parser stops right behind it
    with what follows left in the buffers, and the request has the method, the url, the
    version and the headers, the texts of one name joined by commas in the order of the
    headers, the lines of one header by spaces, names without regard to case. *)
Theorem http_request_round_trip m u v hs blks rest (s : parser B) : good_request m u v hs -> Forall (fun b => b <> []) blks ->
  concat blks = http_request_text m u v hs ++ rest ->
  exists s' left, run_blocks blks (parser_init s) = Some (s', left) /\ concat left = rest /\ parser_state s' = PDone /\
    q_method (req s') = m /\ q_url (req s') = u /\ q_version (req s') = v /\ q_headers (req s') = foldl add_header ∅ hs.
Proof.
  intros Hg Hne Hc. destruct (request_parsed m u v hs blks rest s Hg Hne Hc) as (s' & left & H1 & H2 & H3 & H4).
  exists s', left. rewrite H4. done.
Qed.

End RoundTrip.

(** ** Witness: two headers of one name, one of them on two lines, cut inside both *)

Import Build.

Definition example_headers : list header_text :=
  [HeaderText (bytes_of "Accept") [32] (bytes_of "a b") [([9], bytes_of "c")]; HeaderText (bytes_of "ACCEPT") [] (bytes_of "d") []].
Definition example_text : sstring := http_request_text (bytes_of "GET") (bytes_of "/x") (bytes_of "1.1") example_headers.
Definition start : parser bld := Parser 0 (Bld [] None) request_init [] [] PEof.
Definition blks : list sstring := [take 7 example_text; take 24 (drop 7 example_text); drop 31 example_text ++ [1; 2]].

Lemma http_request_round_trip_witness : exists s' left, run_blocks blks (parser_init start) = Some (s', left) /\ concat left = [1; 2] /\
  get_header (bytes_of "accept") (req s') = bytes_of "a b c,d".
Proof.
  assert (good_request (bytes_of "GET") (bytes_of "/x") (bytes_of "1.1") example_headers) as Hg.
  { unfold good_request, good_header, good_text, blanks.
    split_and!; try done; try (by repeat constructor).
    by exists 49, 49. }
  assert (Forall (fun b => b <> []) blks) as Hne by (by repeat constructor).
  destruct (http_request_round_trip (bytes_of "GET") (bytes_of "/x") (bytes_of "1.1") example_headers blks [1; 2] start Hg Hne eq_refl)
    as (s' & left & H1 & H2 & _ & _ & _ & _ & H3).
  exists s', left. split_and!; [done|done|]. unfold get_header. rewrite H3. by vm_compute.
Defined.
