(* ===== verification/HttpReply.v ===== *)
(** * Replies: include/nil/actor/http/reply.hh, exception.hh, src/http/reply.cc, mime_types.cc, routes.cc, file_handler.cc

    A reply and the bytes that it is sent as; exceptions and the replies that they
    become; [routes::handle].  What a handler does is an argument, and so is the order
    in which an [unordered_map] gives its headers. *)

From S2P Require Import Prelude Json Http HttpParser.
From stdpp Require Import base numbers option gmap list strings.

#[local] Open Scope Z_scope.

Definition eol : sstring := [13; 10].

(** [enum class status_type]: any code, the ones below have a text. *)
Definition status_type : Type := Z.

(** [status_strings::to_string(status)] *)
Definition status_string (s : status_type) : sstring :=
  match s with
  | 100 => bytes_of " 100 Continue"
  | 200 => bytes_of " 200 OK"
  | 201 => bytes_of " 201 Created"
  | 202 => bytes_of " 202 Accepted"
  | 204 => bytes_of " 204 No Content"
  | 300 => bytes_of " 300 Multiple Choices"
  | 301 => bytes_of " 301 Moved Permanently"
  | 302 => bytes_of " 302 Moved Temporarily"
  | 304 => bytes_of " 304 Not Modified"
  | 400 => bytes_of " 400 Bad Request"
  | 401 => bytes_of " 401 Unauthorized"
  | 403 => bytes_of " 403 Forbidden"
  | 404 => bytes_of " 404 Not Found"
  | 411 => bytes_of " 411 Length Required"
  | 413 => bytes_of " 413 Payload Too Large"
  | 500 => bytes_of " 500 Internal Server Error"
  | 501 => bytes_of " 501 Not Implemented"
  | 502 => bytes_of " 502 Bad Gateway"
  | 503 => bytes_of " 503 Service Unavailable"
  | _ => bytes_of " 500 Internal Server Error"
  end ++ eol.

(** [mime_types::extension_to_type(extension)] *)
Definition mappings : list (sstring * sstring) :=
  [(bytes_of "json", bytes_of "application/json"); (bytes_of "gif", bytes_of "image/gif"); (bytes_of "htm", bytes_of "text/html");
   (bytes_of "css", bytes_of "text/css"); (bytes_of "js", bytes_of "text/javascript"); (bytes_of "html", bytes_of "text/html");
   (bytes_of "jpg", bytes_of "image/jpeg"); (bytes_of "png", bytes_of "image/png"); (bytes_of "txt", bytes_of "text/plain");
   (bytes_of "ico", bytes_of "image/x-icon"); (bytes_of "bin", bytes_of "application/octet-stream");
   (bytes_of "proto", bytes_of "application/vnd.google.protobuf; proto=io.prometheus.client.MetricFamily; encoding=delimited")].
Definition extension_to_type (extension : sstring) : sstring :=
  match List.find (fun m => bool_decide (fst m = extension)) mappings with Some m => snd m | None => bytes_of "text/plain" end.

(** [struct reply]; a body writer is the buffers that it gives the chunked stream's sink,
    and whether it succeeds. *)
Record reply := Reply {
  p_status : status_type; p_headers : gmap sstring sstring; p_version : sstring; p_content : sstring;
  p_response_line : sstring; p_body_writer : option (list sstring * bool) }.
Definition reply_init : reply := Reply 200 ∅ [] [] [] None.

Definition add_header (h value : sstring) (r : reply) : reply :=
  Reply (p_status r) (<[h := value]> (p_headers r)) (p_version r) (p_content r) (p_response_line r) (p_body_writer r).
Definition set_version (v : sstring) (r : reply) : reply :=
  Reply (p_status r) (p_headers r) v (p_content r) (p_response_line r) (p_body_writer r).
Definition set_status (s : status_type) (content : sstring) (r : reply) : reply :=
  Reply s (p_headers r) (p_version r) (if bool_decide (content = []) then p_content r else content) (p_response_line r) (p_body_writer r).
Definition set_mime_type (mime : sstring) : reply -> reply := add_header (bytes_of "Content-Type") mime.
Definition set_content_type (content_type : sstring) : reply -> reply := set_mime_type (extension_to_type content_type).

(** [response_line()], [done()], [done(content_type)] *)
Definition response_line (r : reply) : sstring := bytes_of "HTTP/" ++ p_version r ++ status_string (p_status r).
Definition reply_done (r : reply) : reply :=
  Reply (p_status r) (p_headers r) (p_version r) (p_content r) (response_line r) (p_body_writer r).
Definition reply_done_type (content_type : sstring) (r : reply) : reply := reply_done (set_content_type content_type r).

(** [write_body(content_type, body_writer)], [write_body(content_type, content)] *)
Definition write_body_writer (content_type : sstring) (w : list sstring * bool) (r : reply) : reply :=
  let r := set_content_type content_type r in
  Reply (p_status r) (p_headers r) (p_version r) (p_content r) (p_response_line r) (Some w).
Definition write_body_content (content_type content : sstring) (r : reply) : reply :=
  reply_done_type content_type (Reply (p_status r) (p_headers r) (p_version r) content (p_response_line r) (p_body_writer r)).

(** ** The bytes of a reply *)

(** [format("{:x}", s)] *)
Definition hex_char (d : Z) : Z := if d <? 10 then 48 + d else 87 + d.
Fixpoint hex_digits (fuel : nat) (n : Z) (acc : sstring) : sstring :=
  let acc := hex_char (n mod 16) :: acc in
  match fuel with
  | O => acc
  | S fuel => if n / 16 =? 0 then acc else hex_digits fuel (n / 16) acc
  end.
Definition hex (n : Z) : sstring := hex_digits (Z.to_nat (Z.log2 n)) n [].

(** [http_chunked_data_sink_impl::put(buf)] *)
Definition put_chunk (buf : sstring) : sstring := match buf with [] => [] | _ => hex (zlen buf) ++ eol ++ buf ++ eol end.

Section Bytes.
(** The order in which the headers of a reply are written. *)
Variable header_order : gmap sstring sstring -> list (sstring * sstring).

(** [write_reply_headers(con)] *)
Definition write_reply_headers (r : reply) : sstring :=
  concat (map (fun h => fst h ++ bytes_of ": " ++ snd h ++ eol) (header_order (p_headers r))).

(** [write_reply_to_connection(con)]: what it writes; whether it succeeds is the body writer's. *)
Definition write_reply_to_connection (w : list sstring) (r : reply) : sstring :=
  let r := add_header (bytes_of "Transfer-Encoding") (bytes_of "chunked") r in
  response_line r ++ write_reply_headers r ++ eol ++ concat (map put_chunk w).

(** [connection::set_headers(resp)]; [connection::start_response()]: the bytes, and whether
    it went well. *)
Definition set_reply_headers (date : sstring) (r : reply) : reply :=
  add_header (bytes_of "Date") date (add_header (bytes_of "Server") (bytes_of "Actor httpd") r).
Definition start_response (date : sstring) (r : reply) : sstring * bool :=
  match p_body_writer r with
  | Some (w, true) => (write_reply_to_connection w r ++ bytes_of "0" ++ eol ++ eol, true)
  | Some (w, false) => (write_reply_to_connection w r, false)
  | None =>
    let r := add_header (bytes_of "Content-Length") (decimal (zlen (p_content r))) (set_reply_headers date r) in
    (p_response_line r ++ write_reply_headers r ++ eol ++ p_content r, true)
  end.
End Bytes.

(** ** Exceptions *)

(** [base_exception] and the classes derived from it by their message and status,
    [redirect_exception], any other with its description. *)
Inductive exception :=
  | BaseException (msg : sstring) (status : status_type)
  | RedirectException (url : sstring)
  | OtherException (description : sstring).
Definition not_found_exception (msg : sstring) : exception := BaseException msg 404.
Definition bad_request_exception (msg : sstring) : exception := BaseException msg 400.
Definition missing_param_exception (param : sstring) : exception :=
  bad_request_exception (bytes_of "Missing mandatory parameter '" ++ param ++ bytes_of "'").
Definition server_error_exception (msg : sstring) : exception := BaseException msg 500.

(** [json_exception]: its [to_json()]. *)
Definition json_exception (msg : sstring) (code : status_type) : sstring :=
  to_json (VObject [(bytes_of "message", Some (VString msg)); (bytes_of "code", Some (VInt code))]).

(** [routes::exception_reply(eptr)]: an exception handler returns a reply or throws. *)
Fixpoint run_exception_handlers (l : list (exception -> reply + exception)) (e : exception) : reply + exception :=
  match l with
  | [] => inr e
  | f :: l => match f e with inl r => inl r | inr e => run_exception_handlers l e end
  end.
Definition exception_reply (handlers : list (exception -> reply + exception)) (e : exception) : reply :=
  match run_exception_handlers handlers e with
  | inl r => r
  | inr e =>
    reply_done_type (bytes_of "json")
      match e with
      | BaseException msg status => set_status status (json_exception msg status) reply_init
      | RedirectException _ => set_status 301 (json_exception [] 301) reply_init
      | OtherException d => set_status 500 (json_exception d 500) reply_init
      end
  end.

(** ** [routes::handle(path, req, rep)] *)

(** What a handler does: it throws, or its future has a reply or fails. *)
Inductive handler_outcome := Threw (e : exception) | Replied (r : reply) | Failed (e : exception).

Definition set_param (p : parameters) (r : request) : request :=
  Request (q_method r) (q_url r) (q_version r) (q_headers r) (q_content_length r) (q_query r) p (q_content r) (q_protocol_name r).

(** [verify_param(req, param)] throws when the parameter is missing or empty. *)
Definition verify_param (req : request) (param : sstring) : bool := negb (bool_decide (get_query_param param req = [])).

Section Handle.
Variable run : handler -> sstring -> request -> reply -> handler_outcome.
Variable mandatory : mandatory_params.
Variable exceptions : list (exception -> reply + exception).

Definition routes_handle (r : routes) (path : sstring) (req : request) (rep : reply) : reply :=
  match routes_get (str2type (q_method req)) (normalize_url path) (q_param req) r with
  | (Some h, p) =>
    let req := set_param p req in
    match List.find (fun param => negb (verify_param req param)) (mandatory h) with
    | Some param => exception_reply exceptions (missing_param_exception param)
    | None =>
      match run h path req rep with
      | Replied rep => rep
      | Failed e => exception_reply exceptions e
      | Threw (RedirectException url) => reply_done_type (bytes_of "json") (set_status 301 [] (add_header (bytes_of "Location") url reply_init))
      | Threw e => exception_reply exceptions e
      end
    end
  | (None, _) => reply_done_type (bytes_of "json") (set_status 404 (json_exception (bytes_of "Not found") 404) reply_init)
  end.
End Handle.

(** ** [file_interaction_handler] *)

(** [find_last_of(c)] *)
Definition find_last_of (s : sstring) (c : Z) : option nat := (fun i => (length s - S i)%nat) <$> index_of c (rev s).

(** [get_extension(file)]: [npos] is greater than every position. *)
Definition get_extension (file : sstring) : sstring :=
  match find_last_of file 46, find_last_of file slash with
  | Some dot, Some sl => if (sl <? dot)%nat then drop (S dot) file else []
  | _, _ => []
  end.

(** [request::get_url()], [redirect_if_needed(req, rep)] *)
Definition get_url (r : request) : sstring := q_protocol_name r ++ bytes_of "://" ++ get_header (bytes_of "Host") r ++ q_url r.
Definition redirect_if_needed (req : request) (rep : reply) : option reply :=
  match last (q_url req) with
  | Some c => if c =? slash then None
              else Some (reply_done (add_header (bytes_of "Location") (get_url req ++ bytes_of "/") (set_status 301 [] rep)))
  | None => Some (reply_done (add_header (bytes_of "Location") (get_url req ++ bytes_of "/") (set_status 301 [] rep)))
  end.

(** [read(file_name, req, rep)]: the body is what the file, through the transformer, gives. *)
Definition file_read (contents : sstring -> list sstring * bool) (file : sstring) (rep : reply) : reply :=
  write_body_writer (get_extension file) (contents file) rep.

(** [file_handler::handle], [directory_handler::handle]; [file_type] is the file system's:
    [Some true] for a directory, [Some false] for another file. *)
Definition file_handle (contents : sstring -> list sstring * bool) (force_path : bool) (file : sstring) (req : request) (rep : reply) : reply :=
  match (if force_path then redirect_if_needed req rep else None) with
  | Some rep => rep
  | None => file_read contents file rep
  end.
Definition directory_handle (contents : sstring -> list sstring * bool) (file_type : sstring -> option bool)
    (doc_root : sstring) (req : request) (rep : reply) : option reply :=
  path ← param_get (bytes_of "path") (q_param req);
  let full_path := doc_root ++ path in
  Some match file_type full_path with
       | Some true =>
         match redirect_if_needed req rep with
         | Some rep => rep
         | None => file_read contents (full_path ++ bytes_of "/index.html") rep
         end
       | Some false => file_read contents full_path rep
       | None => reply_done (set_status 404 [] rep)
       end.

Example hex_ok : hex 0 = bytes_of "0" /\ hex 255 = bytes_of "ff" /\ hex 32000 = bytes_of "7d00" /\ hex 16 = bytes_of "10".
Proof. by vm_compute. Qed.

Example extension_ok : get_extension (bytes_of "/a.b/c.html") = bytes_of "html" /\ get_extension (bytes_of "/a.b/c") = [].
Proof. by vm_compute. Qed.
