(* ===== verification/HttpReplySpec.v ===== *)
(** * Replies: what a client reads, and the replies to errors

    [read_http] reads a response the way RFC 7230 delimits it (section 3.3.3): a line,
    headers up to an empty line, then no body after a request for the head alone or a
    status that has none, else a chunked body or one of [Content-Length] bytes or all up
    to the end of the connection.  It is no part of the program. *)

From S2P Require Import Prelude Json JsonSpec Http HttpSpec HttpParser HttpReply.
From stdpp Require Import base numbers option gmap list strings.

#[local] Open Scope Z_scope.

(** ** A reader *)

Definition read_line (s : sstring) : option (sstring * sstring) :=
  i ← index_of 13 s;
  match drop i s with 13 :: 10 :: t => Some (take i s, t) | _ => None end.

Fixpoint read_headers (fuel : nat) (s : sstring) : option (list (sstring * sstring) * sstring) :=
  match fuel with
  | O => None
  | S fuel =>
    '(l, s) ← read_line s;
    match l with
    | [] => Some ([], s)
    | _ => i ← index_of 58 l; '(hs, s) ← read_headers fuel s; Some ((take i l, drop (i + 2) l) :: hs, s)
    end
  end.

Definition hex_value (c : Z) : Z := if c <? 58 then c - 48 else c - 87.
Definition read_hex (l : sstring) : Z := foldl (fun n c => 16 * n + hex_value c) 0 l.

Fixpoint read_chunks (fuel : nat) (s : sstring) : option (sstring * sstring) :=
  match fuel with
  | O => None
  | S fuel =>
    '(l, s) ← read_line s;
    let n := read_hex l in
    if n =? 0 then '(_, s) ← read_line s; Some ([], s)
    else '(_, t) ← read_line (drop (Z.to_nat n) s);
         '(body, t) ← read_chunks fuel t;
         Some (take (Z.to_nat n) s ++ body, t)
  end.

Record response := Response { s_line : sstring; s_headers : gmap sstring sstring; s_body : sstring }.

(** The names of headers are told apart without regard to case. *)
Definition header_named (name : sstring) (h : gmap sstring sstring) : option sstring :=
  snd <$> List.find (fun kv => bool_decide (lower (fst kv) = lower name)) (map_to_list h).

(** The code behind the version; informational responses, No Content and Not Modified
    have no body. *)
Definition status_code (line : sstring) : Z :=
  match index_of 32 line with Some i => fst (read_digits 0 (drop (S i) line)) | None => 0 end.
Definition bodiless (code : Z) : bool := ((100 <=? code) && (code <? 200)) || (code =? 204) || (code =? 304).

(** [head]: whether the request was for the head alone. *)
Definition read_http (head : bool) (s : sstring) : option (response * sstring) :=
  '(line, s) ← read_line s;
  '(hs, s) ← read_headers (S (length s)) s;
  let h : gmap sstring sstring := list_to_map hs in
  if head || bodiless (status_code line) then Some (Response line h [], s)
  else if bool_decide (header_named (bytes_of "Transfer-Encoding") h = Some (bytes_of "chunked")) then
    '(body, s) ← read_chunks (S (length s)) s; Some (Response line h body, s)
  else
    match header_named (bytes_of "Content-Length") h with
    | Some d => let n := fst (read_digits 0 d) in
                if n <=? zlen s then Some (Response line h (take (Z.to_nat n) s), drop (Z.to_nat n) s) else None
    | None => Some (Response line h s, [])
    end.

Lemma header_named_exact k h : (forall k' v, h !! k' = Some v -> lower k' = lower k -> k' = k) -> header_named k h = h !! k.
Proof.
  intros H. unfold header_named. destruct (List.find _ _) as [[k' v]|] eqn:E; simpl.
  - apply List.find_some in E as [Hin Hk]. apply list_elem_of_In, elem_of_map_to_list in Hin. apply bool_decide_eq_true in Hk. simpl in Hk.
    by rewrite <- (H k' v Hin Hk).
  - destruct (h !! k) as [v|] eqn:Ek; [|done]. apply elem_of_map_to_list, list_elem_of_In in Ek.
    apply (List.find_none _ _ E) in Ek. simpl in Ek. by rewrite bool_decide_true in Ek.
Qed.

(** ** Lines *)

Lemma read_line_eol l s : 13 ∉ l -> read_line (l ++ eol ++ s) = Some (l, s).
Proof.
  intros H. unfold read_line. change (eol ++ s) with (13 :: 10 :: s). rewrite index_of_app by done. simpl. by rewrite drop_app_length, take_app_length.
Qed.

Lemma read_line_empty s : read_line (eol ++ s) = Some ([], s).
Proof. exact (read_line_eol [] s (not_elem_of_nil _)). Qed.

#[local] Opaque eol.

Definition clean_header (h : sstring * sstring) : Prop := 13 ∉ fst h /\ 58 ∉ fst h /\ 13 ∉ snd h.
Definition header_line (h : sstring * sstring) : sstring := fst h ++ bytes_of ": " ++ snd h ++ eol.

Lemma read_headers_lines l s fuel : Forall clean_header l -> (length l < fuel)%nat ->
  read_headers fuel (concat (map header_line l) ++ eol ++ s) = Some (l, s).
Proof.
  intros H. revert fuel. induction H as [|[k v] l (H1 & H2 & H3) _ IH]; intros [|fuel] Hf; simpl in *; try lia.
  - by rewrite read_line_empty.
  - assert (E : (header_line (k, v) ++ concat (map header_line l)) ++ eol ++ s =
      (k ++ 58 :: 32 :: v) ++ eol ++ (concat (map header_line l) ++ eol ++ s)).
    { unfold header_line. simpl. rewrite <- !app_assoc. simpl. by rewrite <- !app_assoc. }
    rewrite E, read_line_eol. 2:{ rewrite not_elem_of_app, !not_elem_of_cons. done. }
    simpl. destruct (k ++ 58 :: 32 :: v) eqn:E'; [by destruct k|]. rewrite <- E', index_of_app by done. simpl.
    rewrite IH by lia. simpl. rewrite take_app_length.
    replace (drop (length k + 2) (k ++ 58 :: 32 :: v)) with v by (by rewrite <- drop_drop, drop_app_length). done.
Qed.

(** ** Chunks *)

Lemma hex_char_value d : 0 <= d < 16 -> hex_value (hex_char d) = d /\ hex_char d <> 13.
Proof. unfold hex_value, hex_char. intros H. repeat match goal with |- context [if ?b then _ else _] => destruct b eqn:? end; lia. Qed.

Lemma hex_digits_read fuel n acc : 0 <= n < 2 ^ (Z.of_nat fuel + 1) ->
  exists k, hex_digits fuel n acc = k ++ acc /\ 13 ∉ k /\ forall m, foldl (fun n c => 16 * n + hex_value c) m k = m * 16 ^ zlen k + n.
Proof.
  revert n acc. induction fuel as [|fuel IH]; intros n acc Hn; cbn [hex_digits];
    destruct (hex_char_value (n mod 16) ltac:(apply Z.mod_pos_bound; lia)) as [Hv Hc]; pose proof (Z.div_mod n 16 ltac:(lia)) as Hd.
  - exists [hex_char (n mod 16)]. split; [done|]. split; [intros E0%list_elem_of_singleton; congruence|]. intros m. simpl. rewrite Hv.
    change (2 ^ (Z.of_nat 0 + 1)) with 2 in Hn. change (16 ^ zlen [hex_char (n mod 16)]) with 16. rewrite Z.mod_small by lia. lia.
  - destruct (Z.eqb_spec (n / 16) 0) as [E|E].
    + exists [hex_char (n mod 16)]. split; [done|]. split; [intros E0%list_elem_of_singleton; congruence|]. intros m. simpl. rewrite Hv.
      change (16 ^ zlen [hex_char (n mod 16)]) with 16. lia.
    + assert (Hp : 2 ^ (Z.of_nat (S fuel) + 1) = 2 * 2 ^ (Z.of_nat fuel + 1)) by (rewrite <- Z.pow_succ_r by lia; f_equal; lia).
      destruct (IH (n / 16) (hex_char (n mod 16) :: acc)) as (k & -> & Hk & Hr); [pose proof (Z.div_pos n 16); Z.div_mod_to_equations; lia|].
      exists (k ++ [hex_char (n mod 16)]). split; [by rewrite <- app_assoc|]. split.
      * rewrite not_elem_of_app. split; [done|]. intros E0%list_elem_of_singleton; congruence.
      * intros m. rewrite foldl_app, Hr. simpl. rewrite Hv, zlen_app. change (zlen [hex_char (n mod 16)]) with 1.
        rewrite Z.pow_add_r by (try lia; apply zlen_nonneg). lia.
Qed.

Lemma hex_read n : 0 <= n -> read_hex (hex n) = n /\ 13 ∉ hex n.
Proof.
  intros Hn. unfold hex, read_hex. destruct (hex_digits_read (Z.to_nat (Z.log2 n)) n []) as (k & -> & Hk & Hr).
  - split; [done|]. pose proof (Z.log2_nonneg n). rewrite Z2Nat.id, Z.add_1_r by lia. destruct (Z.eq_dec n 0) as [->|]; [done|].
    apply Z.log2_spec. lia.
  - rewrite app_nil_r, Hr. split; [lia|done].
Qed.

Lemma read_chunks_put w s fuel : (length (concat (map put_chunk w)) < fuel)%nat ->
  read_chunks fuel (concat (map put_chunk w) ++ bytes_of "0" ++ eol ++ eol ++ s) = Some (concat w, s).
Proof.
  change (bytes_of "0") with [48]. revert fuel. induction w as [|b w IH]; intros [|fuel] Hf; simpl in *; try lia.
  - pose proof (read_line_eol [48] (eol ++ s)) as H. simpl in H. rewrite H by (by intros ?%list_elem_of_singleton). simpl.
    by rewrite read_line_empty.
  - destruct b as [|c b].
    + simpl in *. specialize (IH (S fuel) ltac:(lia)). exact IH.
    + unfold put_chunk at 1 in Hf. unfold put_chunk at 1. set (buf := c :: b) in *. rewrite !length_app in Hf. change (length buf) with (S (length b)) in Hf. destruct (hex_read (zlen buf) (zlen_nonneg buf)) as [Hr Hn].
      replace ((hex (zlen buf) ++ eol ++ buf ++ eol) ++ concat (map put_chunk w))
        with (hex (zlen buf) ++ eol ++ buf ++ eol ++ concat (map put_chunk w)) by (by rewrite <- !app_assoc).
      rewrite <- !app_assoc, read_line_eol by done. cbn [mbind option_bind]. rewrite Hr.
      destruct (Z.eqb_spec (zlen buf) 0) as [E|_]; [apply zlen_0_nil in E; done|]. unfold zlen. rewrite Nat2Z.id, drop_app_length.
      rewrite read_line_empty. cbn [mbind option_bind]. rewrite IH by lia. cbn [mbind option_bind].
      by rewrite take_app_length.
Qed.

(** ** A whole response *)

(** Its text begins with a blank and its code; a status without a text of its own gets
    the code 500. *)
Lemma status_line s : exists t, status_string s = (32 :: t) ++ eol /\ 13 ∉ t /\ (bodiless (fst (read_digits 0 t)) = true -> bodiless s = true).
Proof.
  unfold status_string. repeat case_match; eexists; (split; [reflexivity|]);
    (split; [refine (bool_decide_unpack (_ ∉ _) _); by vm_compute|by vm_compute]).
Qed.

Lemma status_code_at v t : 32 ∉ v -> status_code (bytes_of "HTTP/" ++ v ++ 32 :: t) = fst (read_digits 0 t).
Proof.
  intros Hv. unfold status_code. rewrite app_assoc, index_of_app by (rewrite not_elem_of_app; split; [refine (bool_decide_unpack (_ ∉ _) _); by vm_compute|done]).
  generalize (bytes_of "HTTP/" ++ v). intros l. replace (drop (S (length l)) (l ++ 32 :: t)) with t; [done|].
  by rewrite <- Nat.add_1_r, <- drop_drop, drop_app_length.
Qed.

Section Responses.
Variable header_order : gmap sstring sstring -> list (sstring * sstring).
Hypothesis header_order_spec : forall h, header_order h ≡ₚ map_to_list h.

Definition clean_headers (h : gmap sstring sstring) : Prop := map_Forall (fun k v => clean_header (k, v)) h.

Lemma header_order_map h : list_to_map (header_order h) = h.
Proof.
  rewrite <- (list_to_map_to_list h) at 2. apply list_to_map_proper; [|apply header_order_spec].
  rewrite header_order_spec. apply NoDup_fst_map_to_list.
Qed.

Lemma header_order_clean h : clean_headers h -> Forall clean_header (header_order h).
Proof.
  intros H. apply Forall_forall. intros [k v] Hin. rewrite header_order_spec in Hin. apply elem_of_map_to_list in Hin. by apply (H k v).
Qed.

Lemma read_head head line h body s : 13 ∉ line -> clean_headers h ->
  read_http head ((line ++ eol) ++ concat (map header_line (header_order h)) ++ eol ++ body ++ s) =
  if head || bodiless (status_code line) then Some (Response line h [], body ++ s)
  else if bool_decide (header_named (bytes_of "Transfer-Encoding") h = Some (bytes_of "chunked")) then
    '(b, s) ← read_chunks (S (length (body ++ s))) (body ++ s); Some (Response line h b, s)
  else
    match header_named (bytes_of "Content-Length") h with
    | Some d => let n := fst (read_digits 0 d) in
                if n <=? zlen (body ++ s) then Some (Response line h (take (Z.to_nat n) (body ++ s)), drop (Z.to_nat n) (body ++ s)) else None
    | None => Some (Response line h (body ++ s), [])
    end.
Proof.
  intros Hl Hh. unfold read_http. rewrite <- app_assoc, read_line_eol by done. cbn [mbind option_bind].
  rewrite read_headers_lines; [|by apply header_order_clean|].
  - cbn [mbind option_bind]. by rewrite header_order_map.
  - rewrite !length_app. assert (length (header_order h) <= length (concat (map header_line (header_order h))))%nat; [|lia].
    generalize (header_order h). intros l. induction l as [|[k v] l IH]; [done|]. simpl. rewrite length_app. unfold header_line at 1.
    rewrite !length_app. simpl. lia.
Qed.

(** The headers that a response is sent with. *)
Definition sent_headers (date : sstring) (r : reply) : gmap sstring sstring :=
  match p_body_writer r with
  | Some _ => <[bytes_of "Transfer-Encoding" := bytes_of "chunked"]> (p_headers r)
  | None => <[bytes_of "Content-Length" := decimal (zlen (p_content r))]> (<[bytes_of "Date" := date]> (<[bytes_of "Server" := bytes_of "Actor httpd"]> (p_headers r)))
  end.
Definition sent_body (r : reply) : sstring := match p_body_writer r with Some (w, _) => concat w | None => p_content r end.
Definition writes_body (r : reply) : bool := match p_body_writer r with Some (_, ok) => ok | None => true end.

(** What a reply must be like for a client to find its end: no line break in the version
    and the headers, no blank in the version and no colon in a header's name; no
    [Transfer-Encoding] of its own, and no [Content-Length] in other letters; and no
    content and no body writer for a status that has no body. *)
Definition clean_reply (date : sstring) (r : reply) : Prop :=
  p_response_line r = response_line r /\ 13 ∉ p_version r /\ 32 ∉ p_version r /\ 13 ∉ date /\ clean_headers (p_headers r) /\
  map_Forall (fun k _ => lower k <> lower (bytes_of "Transfer-Encoding") /\ (lower k = lower (bytes_of "Content-Length") -> k = bytes_of "Content-Length")) (p_headers r) /\
  (bodiless (p_status r) = true -> p_body_writer r = None /\ p_content r = []).

Lemma clean_insert k v h : clean_header (k, v) -> clean_headers h -> clean_headers (<[k := v]> h).
Proof. intros H1 H2. by apply map_Forall_insert_2. Qed.

Lemma decimal_clean n : 0 <= n -> 13 ∉ decimal n.
Proof.
  intros Hn. unfold decimal. destruct (Z.ltb_spec n 0); [lia|]. unfold natural. generalize (Z.to_nat (Z.log2 n)) as fuel. intros fuel.
  assert (forall acc, 13 ∉ acc -> 13 ∉ digits fuel n acc) as H'; [|apply H', not_elem_of_nil]. revert n Hn H.
  induction fuel as [|fuel IH]; intros n Hn _ acc Ha; cbn [digits]; pose proof (Z.mod_pos_bound n 10 ltac:(lia)).
  - apply not_elem_of_cons. split; [lia|done].
  - assert (13 ∉ (48 + n mod 10) :: acc) as Ha' by (apply not_elem_of_cons; split; [lia|done]).
    destruct (n / 10 =? 0); [done|]. pose proof (Z.div_pos n 10 Hn ltac:(lia)). by apply IH.
Qed.

Lemma decimal_read_back n : 0 <= n -> fst (read_digits 0 (decimal n)) = n.
Proof.
  intros Hn. unfold decimal. destruct (Z.ltb_spec n 0); [lia|]. destruct (natural_read n [] Hn I) as (c & k & -> & _ & H').
  rewrite app_nil_r in H'. by rewrite H'.
Qed.

Lemma sent_clean date r : clean_reply date r -> clean_headers (sent_headers date r).
Proof.
  intros (_ & _ & _ & Hd & Hh & _). unfold sent_headers.
  assert (forall k v : sstring, bool_decide (13 ∉ k /\ 58 ∉ k) = true -> 13 ∉ v -> clean_header (k, v)) as Hc.
  { intros k v [H1 H2]%bool_decide_eq_true Hv. done. }
  destruct (p_body_writer r); repeat apply clean_insert; try done; apply Hc; try done.
  - refine (bool_decide_unpack (_ ∉ _) _); by vm_compute.
  - apply decimal_clean, zlen_nonneg.
  - refine (bool_decide_unpack (_ ∉ _) _); by vm_compute.
Qed.

(** The headers that delimit the body, among those of the reply. *)
Lemma sent_framing date r : clean_reply date r ->
  header_named (bytes_of "Transfer-Encoding") (sent_headers date r) = (if p_body_writer r then Some (bytes_of "chunked") else None) /\
  (p_body_writer r = None -> header_named (bytes_of "Content-Length") (sent_headers date r) = Some (decimal (zlen (p_content r)))).
Proof.
  intros (_ & _ & _ & _ & _ & Hf & _).
  assert (p_headers r !! bytes_of "Transfer-Encoding" = None) as Ht.
  { destruct (p_headers r !! bytes_of "Transfer-Encoding") as [v|] eqn:E; [|done]. by destruct (Hf _ _ E). }
  unfold sent_headers. destruct (p_body_writer r) as [w|]; (split; [|try done]).
  - rewrite header_named_exact; [by rewrite lookup_insert_eq|]. intros k v [[<- _]|[_ E]]%lookup_insert_Some Hk; [done|]. by destruct (Hf k v E).
  - rewrite header_named_exact; [by rewrite !lookup_insert_ne, Ht by done|].
    intros k v E Hk. repeat apply lookup_insert_Some in E as [[<- _]|[_ E]]; try (by vm_compute in Hk). by destruct (Hf k v E).
  - intros _. rewrite header_named_exact; [by rewrite lookup_insert_eq|].
    intros k v E Hk. repeat apply lookup_insert_Some in E as [[<- _]|[_ E]]; try done; try (by vm_compute in Hk). by apply (Hf k v E).
Qed.

Lemma response_read date r rest : clean_reply date r -> writes_body r = true -> exists line,
  response_line r = line ++ eol /\
  read_http false (fst (start_response header_order date r) ++ rest) = Some (Response line (sent_headers date r) (sent_body r), rest).
Proof.
  intros Hr Hw. pose proof (sent_clean date r Hr) as Hc. destruct (sent_framing date r Hr) as [Ht Hlen]. destruct Hr as (Hl & Hv & Hv2 & _ & _ & _ & Hb).
  destruct (status_line (p_status r)) as (t & Hs & Hn & Hcode). exists (bytes_of "HTTP/" ++ p_version r ++ 32 :: t).
  assert (response_line r = (bytes_of "HTTP/" ++ p_version r ++ 32 :: t) ++ eol) as E by (unfold response_line; by rewrite Hs, <- !app_assoc).
  assert (13 ∉ bytes_of "HTTP/" ++ p_version r ++ 32 :: t) as Hline.
  { rewrite !not_elem_of_app, not_elem_of_cons. split_and!; [|done|done|done]. refine (bool_decide_unpack (_ ∉ _) _); by vm_compute. }
  split; [done|]. set (line := bytes_of "HTTP/" ++ p_version r ++ 32 :: t) in *.
  assert (bodiless (status_code line) = true -> p_body_writer r = None /\ p_content r = []) as Hnone by (unfold line; rewrite status_code_at by done; auto).
  unfold start_response, sent_headers, sent_body, writes_body in *.
  destruct (p_body_writer r) as [[w ok]|]; simpl in Hw; [subst ok|]; cbn [fst].
  - unfold write_reply_to_connection. change (response_line (add_header _ _ r)) with (response_line r). rewrite E.
    unfold write_reply_headers. cbn [p_headers add_header]. rewrite <- !app_assoc.
    set (body := concat (map put_chunk w) ++ bytes_of "0" ++ eol ++ eol).
    pose proof (read_head false line _ body rest Hline Hc) as Hr. unfold header_line in Hr.
    rewrite <- !app_assoc in Hr. unfold body in Hr. rewrite <- !app_assoc in Hr. rewrite Hr. clear Hr body.
    rewrite Ht. destruct (bodiless (status_code line)); [by destruct Hnone|]. cbn [orb].
    rewrite bool_decide_true by done. rewrite read_chunks_put; [done|].
    rewrite !length_app. lia.
  - unfold write_reply_headers. cbn [p_headers p_response_line p_content add_header set_reply_headers]. rewrite Hl, E.
    pose proof (read_head false line _ (p_content r) rest Hline Hc) as Hr. unfold header_line in Hr.
    rewrite <- !app_assoc in Hr. rewrite <- !app_assoc, Hr. clear Hr. rewrite Ht, Hlen by done. cbn [orb].
    destruct (bodiless (status_code line)); [destruct Hnone as [_ ->]; done|]. rewrite bool_decide_false by done. cbv zeta.
    rewrite decimal_read_back by apply zlen_nonneg. destruct (Z.leb_spec (zlen (p_content r)) (zlen (p_content r ++ rest))) as [_|H].
    + unfold zlen. rewrite Nat2Z.id, take_app_length, drop_app_length. done.
    + rewrite zlen_app in H. pose proof (zlen_nonneg rest). lia.
Qed.

(** C13. A client that delimits responses as RFC 7230 says reads back the response to a
    request other than HEAD: its line, its headers, whichever order they are written in,
    and its body - the content, by its length, or what the body writer wrote, by chunks,
    empty buffers among them written as nothing - and it is left with exactly what follows
    the response on the connection; when the reply is clean, which asks that a reply of
    status 204, 304 or 1xx has no content.  [content_without_body] shows what happens to
    others. *)
Theorem http_response_round_trip date r rest : clean_reply date r -> writes_body r = true -> exists line,
  response_line r = line ++ eol /\
  read_http false (fst (start_response header_order date r) ++ rest) = Some (Response line (sent_headers date r) (sent_body r), rest).
Proof. apply response_read. Qed.

End Responses.

(** ** Replies to exceptions *)

(** The body of a reply to an error. *)
Definition error_body (msg : sstring) (code : status_type) : value :=
  VObject [(bytes_of "message", Some (VString msg)); (bytes_of "code", Some (VInt code))].

(** An exception without a registered handler that takes it becomes a reply with the
    status of the exception, or 500, whose body - when the message needs no escapes -
    reads back as a JSON object with the message and the status; registered handlers are
    asked in order, each about what the one before it threw. *)
Theorem exception_reply_reads handlers e msg status :
  (run_exception_handlers handlers e = inr (BaseException msg status) \/
   status = 500 /\ run_exception_handlers handlers e = inr (OtherException msg)) -> clean_str msg ->
  let r := exception_reply handlers e in
  p_status r = status /\ p_response_line r = response_line r /\
  p_headers r !! bytes_of "Content-Type" = Some (bytes_of "application/json") /\
  read (length (p_content r)) (p_content r) =
    Some (TObject [(bytes_of "message", TString msg); (bytes_of "code", TInt status)], []).
Proof.
  intros H Hm. assert (exception_reply handlers e = reply_done_type (bytes_of "json") (set_status status (json_exception msg status) reply_init)) as ->.
  { unfold exception_reply. by destruct H as [->|[-> ->]]. }
  cbn zeta. split; [done|]. split; [done|]. split; [by vm_compute|].
  assert (p_content (reply_done_type (bytes_of "json") (set_status status (json_exception msg status) reply_init)) = to_json (error_body msg status)) as ->.
  { unfold reply_done_type, set_status. cbn [p_content reply_done set_content_type set_mime_type add_header]. by rewrite bool_decide_false. }
  rewrite (json_reads_back (error_body msg status)); [done|]. unfold error_body. simpl. split_and!; try done; by repeat constructor.
Qed.

(** A redirect that a handler throws gets its [Location]; the same redirect from the
    handler's future is answered with status 301 and no [Location] at all. *)
Theorem asynchronous_redirect run mandatory r path req rep h p url :
  routes_get (str2type (q_method req)) (normalize_url path) (q_param req) r = (Some h, p) -> mandatory h = [] ->
  (run h path (set_param p req) rep = Threw (RedirectException url) ->
   p_headers (routes_handle run mandatory [] r path req rep) !! bytes_of "Location" = Some url) /\
  (run h path (set_param p req) rep = Failed (RedirectException url) ->
   p_headers (routes_handle run mandatory [] r path req rep) !! bytes_of "Location" = None) /\
  (forall e, e = Threw (RedirectException url) \/ e = Failed (RedirectException url) ->
   run h path (set_param p req) rep = e -> p_status (routes_handle run mandatory [] r path req rep) = 301).
Proof.
  intros Hg Hm. unfold routes_handle. rewrite Hg, Hm. simpl. split_and!.
  - intros ->. by vm_compute.
  - intros ->. by vm_compute.
  - intros e [->| ->] ->; by vm_compute.
Qed.

(** The extension of a file whose name has no slash is not found, whatever its name:
    [find_last_of] gives the greatest position for the missing slash. *)
Lemma extension_needs_slash file : slash ∉ file -> get_extension file = [].
Proof.
  intros H. unfold get_extension. destruct (find_last_of file 46); [|done].
  unfold find_last_of. rewrite index_of_none; [done|].
  by intros Hi%list_elem_of_In%in_rev%list_elem_of_In.
Qed.


(** Content is also sent where there is no body - in answer to HEAD, and with the status
    204 or 304: the client takes it for the beginning of the next response. *)
Theorem content_without_body :
  let r status := reply_done (Reply status ∅ (bytes_of "1.1") (bytes_of "hello") [] None) in
  let left_over head status := snd <$> read_http head (fst (start_response map_to_list (bytes_of "now") (r status))) in
  left_over true 200 = Some (bytes_of "hello") /\ left_over false 204 = Some (bytes_of "hello") /\
  left_over false 304 = Some (bytes_of "hello") /\ left_over false 200 = Some [].
Proof. by vm_compute. Qed.

(** ** Witnesses *)

Definition example_reply (w : option (list sstring * bool)) : reply :=
  let r := Reply 200 {[bytes_of "Content-Type" := bytes_of "text/html"]} (bytes_of "1.1") (bytes_of "hello") [] w in reply_done r.

Lemma example_clean w : clean_reply (bytes_of "now") (example_reply w).
Proof.
  unfold clean_reply. split_and!; try done.
  - refine (bool_decide_unpack (_ ∉ _) _); by vm_compute.
  - refine (bool_decide_unpack (_ ∉ _) _); by vm_compute.
  - refine (bool_decide_unpack (_ ∉ _) _); by vm_compute.
  - apply map_Forall_singleton. split_and!; refine (bool_decide_unpack (_ ∉ _) _); by vm_compute.
  - apply map_Forall_singleton. by vm_compute.
Qed.

Definition read_of (w : option (list sstring * bool)) : option (sstring * sstring) :=
  (fun p => (s_body (fst p), snd p)) <$> read_http false (fst (start_response map_to_list (bytes_of "now") (example_reply w)) ++ [7]).

Lemma http_response_round_trip_witness :
  read_of None = Some (bytes_of "hello", [7]) /\
  read_of (Some ([bytes_of "abc"; []; bytes_of "defghijklmnopqrstuv"], true)) = Some (bytes_of "abcdefghijklmnopqrstuv", [7]).
Proof.
  split; unfold read_of.
  - destruct (http_response_round_trip map_to_list (fun h => reflexivity _) (bytes_of "now") (example_reply None) [7]
      (example_clean _) eq_refl) as (line & _ & ->). by vm_compute.
  - destruct (http_response_round_trip map_to_list (fun h => reflexivity _) (bytes_of "now")
      (example_reply (Some ([bytes_of "abc"; []; bytes_of "defghijklmnopqrstuv"], true))) [7] (example_clean _) eq_refl) as (line & _ & ->). by vm_compute.
Defined.

Lemma exception_reply_reads_witness :
  let r := exception_reply [fun e => inr (not_found_exception (bytes_of "gone"))] (OtherException (bytes_of "x")) in
  p_status r = 404 /\ p_content r = to_json (error_body (bytes_of "gone") 404).
Proof.
  destruct (exception_reply_reads [fun e => inr (not_found_exception (bytes_of "gone"))] (OtherException (bytes_of "x")) (bytes_of "gone") 404)
    as (H1 & _); [by left|by repeat constructor|]. split; [exact H1|by vm_compute].
Defined.

Definition example_redirect (h : handler) (path : sstring) (req : request) (rep : reply) : handler_outcome :=
  if bool_decide (path = bytes_of "/a") then Threw (RedirectException (bytes_of "/b")) else Failed (RedirectException (bytes_of "/b")).

Lemma asynchronous_redirect_witness :
  let r := add_default_handler 1%nat routes_init in
  p_headers (routes_handle example_redirect (fun _ => []) [] r (bytes_of "/a") request_init reply_init) !! bytes_of "Location" = Some (bytes_of "/b") /\
  p_headers (routes_handle example_redirect (fun _ => []) [] r (bytes_of "/c") request_init reply_init) !! bytes_of "Location" = None.
Proof.
  split.
  - apply (asynchronous_redirect example_redirect (fun _ => []) (add_default_handler 1%nat routes_init) (bytes_of "/a") request_init reply_init 1%nat ∅
      (bytes_of "/b")); by vm_compute.
  - apply (asynchronous_redirect example_redirect (fun _ => []) (add_default_handler 1%nat routes_init) (bytes_of "/c") request_init reply_init 1%nat ∅
      (bytes_of "/b")); by vm_compute.
Defined.
