(* ===== verification/HttpServer.v ===== *)
(** * The HTTP server's connection: src/http/httpd.cc

    [connection::read()] and [connection::respond()] run at the same time over the queue
    of replies; a step is what one of them does without waiting.  The input stream is
    an [InputStream] that gives its buffers one by one ([BufferStream]); what comes before
    its end is in it from the start, and a step that reads may be as late as it likes.
    The routes, what the handlers do, the clock and the limits are arguments. *)

From S2P Require Import Prelude Core Json Http HttpUrl HttpParser HttpReply.
From stdpp Require Import base numbers option gmap list strings.

#[local] Open Scope Z_scope.

(** <nil/actor/core/iostream.hh>: [consume] takes the next buffer, which is not empty before
    the end, and puts back what the consumer leaves. *)
Class BufferStream (I : Type) {IS : InputStream I} := {
  in_next : I -> option (sstring * I);
  in_unget : sstring -> I -> I;
  in_next_spec : forall i,
    match in_next i with
    | Some (b, i') => b <> [] /\ in_pending i = b ++ in_pending i'
    | None => in_pending i = []
    end;
  in_unget_spec : forall b i, in_pending (in_unget b i) = b ++ in_pending i
}.

(** [strtol(s, nullptr, 10)] *)
Definition is_space (c : Z) : bool := (c =? 32) || ((9 <=? c) && (c <=? 13)).
Fixpoint skip_spaces (s : sstring) : sstring := match s with c :: s' => if is_space c then skip_spaces s' else s | [] => [] end.
Fixpoint decimal_prefix (n : Z) (s : sstring) : Z :=
  match s with c :: s => if is_digit c then decimal_prefix (10 * n + (c - 48)) s else n | [] => n end.
Definition strtol (s : sstring) : Z :=
  match skip_spaces (c_str s) with
  | 45 :: s => Z.max (- 2 ^ 63) (- decimal_prefix 0 s)
  | 43 :: s => Z.min (2 ^ 63 - 1) (decimal_prefix 0 s)
  | s => Z.min (2 ^ 63 - 1) (decimal_prefix 0 s)
  end.

Definition set_content_length (n : Z) (r : request) : request :=
  Request (q_method r) (q_url r) (q_version r) (q_headers r) n (q_query r) (q_param r) (q_content r) (q_protocol_name r).
Definition set_content (c : sstring) (r : request) : request :=
  Request (q_method r) (q_url r) (q_version r) (q_headers r) (q_content_length r) (q_query r) (q_param r) c (q_protocol_name r).
Definition set_query (q : gmap sstring sstring) (r : request) : request :=
  Request (q_method r) (q_url r) (q_version r) (q_headers r) (q_content_length r) q (q_param r) (q_content r) (q_protocol_name r).
Definition set_protocol (p : sstring) (r : request) : request :=
  Request (q_method r) (q_url r) (q_version r) (q_headers r) (q_content_length r) (q_query r) (q_param r) (q_content r) p.

(** ** What the server has *)

Record server := Server {
  run_handler : handler -> sstring -> request -> reply -> handler_outcome;
  mandatory_of : mandatory_params;
  exception_handlers : list (exception -> reply + exception);
  routes_of : routes;
  order_of : gmap sstring sstring -> list (sstring * sstring);
  date_of : sstring;
  with_credentials : bool;
  content_length_limit : Z }.

Section Connection.
Variable sv : server.

(** [set_headers(resp)], [start_response()] *)
Definition set_headers (r : reply) : reply := set_reply_headers (date_of sv) r.
Definition response (r : reply) : sstring * bool := start_response (order_of sv) (date_of sv) r.

(** [generate_reply(req)]: the reply, and whether the connection is to be closed. *)
Definition generate_reply (req : request) : reply * bool :=
  let it := q_headers req !! lower (bytes_of "Connection") in
  let conn_keep_alive := bool_decide (it = Some (bytes_of "Keep-Alive")) in
  let conn_close := bool_decide (it = Some (bytes_of "Close")) in
  let resp := set_version (q_version req) reply_init in
  let '(resp, should_close) :=
    if bool_decide (q_version req = bytes_of "1.0") then
      (if conn_keep_alive then add_header (bytes_of "Connection") (bytes_of "Keep-Alive") resp else resp, negb conn_keep_alive)
    else if bool_decide (q_version req = bytes_of "1.1") then (resp, conn_close)
    else (resp, true) in
  let '(url, q) := set_query_param (q_url req) (q_query req) in
  let rep := routes_handle (run_handler sv) (mandatory_of sv) (exception_handlers sv) (routes_of sv) url (set_query q req) (set_headers resp) in
  (reply_done (set_version (q_version req) rep), should_close).

(** The reply of [generate_error_reply_and_close(req, status, msg)]. *)
Definition error_reply (req : request) (status : status_type) (msg : sstring) : reply :=
  reply_done (set_status status msg (set_version (q_version req) reply_init)).

(** The condition and the reply of [maybe_reply_continue]. *)
Definition lower_eq (a b : sstring) : bool := bool_decide (lower a = lower b).
Definition expects_continue (req : request) : bool :=
  bool_decide (q_version req = bytes_of "1.1") && lower_eq (get_header (bytes_of "Expect") req) (bytes_of "100-continue").
Definition continue_reply (req : request) : reply :=
  reply_done (set_status 100 [] (set_version (q_version req) (set_headers reply_init))).

(** The message of a request that is too long. *)
Definition too_long (n : Z) : sstring :=
  bytes_of "Content length limit (" ++ decimal (content_length_limit sv) ++ bytes_of ") exceeded: " ++ decimal n.

(** ** The connection *)

(** Where [read()] is: at the condition of its loop, parsing, about to send the continue
    reply, about to read the body, waiting for room, in the handler, at its end. *)
Inductive reader :=
  | RNext | RParse | RContinue (req : request) | RBody (req : request) | RWait (req : request) | RHandle (req : request) | REof | REnd.

Context {B : Type} {SB : StringBuilder B} {I : Type} {IS : InputStream I} {BS : BufferStream I} {Q : Type} {QO : QueueOps Q (option reply)}.

Record connection := Connection {
  c_in : I; c_parser : parser B; c_reader : reader; c_responding : bool; c_replies : Q; c_aborted : bool; c_done : bool;
  c_out : sstring; c_served : Z; c_read_errors : Z; c_respond_errors : Z }.

Definition connection_init (i : I) (p : parser B) : connection := Connection i p RNext true (q_make 10) false false [] 0 0 0.

Definition at_reader (r : reader) (c : connection) : connection :=
  Connection (c_in c) (c_parser c) r (c_responding c) (c_replies c) (c_aborted c) (c_done c) (c_out c) (c_served c) (c_read_errors c) (c_respond_errors c).
Definition with_input (i : I) (p : parser B) (c : connection) : connection :=
  Connection i p (c_reader c) (c_responding c) (c_replies c) (c_aborted c) (c_done c) (c_out c) (c_served c) (c_read_errors c) (c_respond_errors c).
Definition with_replies (q : Q) (c : connection) : connection :=
  Connection (c_in c) (c_parser c) (c_reader c) (c_responding c) q (c_aborted c) (c_done c) (c_out c) (c_served c) (c_read_errors c) (c_respond_errors c).
Definition with_done (d : bool) (c : connection) : connection :=
  Connection (c_in c) (c_parser c) (c_reader c) (c_responding c) (c_replies c) (c_aborted c) d (c_out c) (c_served c) (c_read_errors c) (c_respond_errors c).
Definition count_served (c : connection) : connection :=
  Connection (c_in c) (c_parser c) (c_reader c) (c_responding c) (c_replies c) (c_aborted c) (c_done c) (c_out c) (c_served c + 1) (c_read_errors c) (c_respond_errors c).
Definition count_read_error (c : connection) : connection :=
  Connection (c_in c) (c_parser c) (c_reader c) (c_responding c) (c_replies c) (c_aborted c) (c_done c) (c_out c) (c_served c) (c_read_errors c + 1) (c_respond_errors c).
Definition count_respond_error (c : connection) : connection :=
  Connection (c_in c) (c_parser c) (c_reader c) (c_responding c) (c_replies c) (c_aborted c) (c_done c) (c_out c) (c_served c) (c_read_errors c) (c_respond_errors c + 1).
Definition with_out (o : sstring) (c : connection) : connection :=
  Connection (c_in c) (c_parser c) (c_reader c) (c_responding c) (c_replies c) (c_aborted c) (c_done c) o (c_served c) (c_read_errors c) (c_respond_errors c).
Definition stop_responding (c : connection) : connection :=
  Connection (c_in c) (c_parser c) (c_reader c) false (c_replies c) (c_aborted c) (c_done c) (c_out c) (c_served c) (c_read_errors c) (c_respond_errors c).
Definition abort_replies (c : connection) : connection :=
  Connection (c_in c) (c_parser c) (c_reader c) (c_responding c) (q_abort (c_replies c)) true (c_done c) (c_out c) (c_served c) (c_read_errors c) (c_respond_errors c).

(** [_replies.push(rep)], whose result nobody looks at: a reply for which there is no room
    is gone. *)
Definition push_reply (r : option reply) (c : connection) : connection :=
  match q_push r (c_replies c) with Some q => with_replies q c | None => c end.
Definition is_full (c : connection) : bool := q_max_size (c_replies c) <=? zlen (q_items (c_replies c)).

(** [generate_error_reply_and_close(req, status, msg)] *)
Definition generate_error_reply_and_close (req : request) (status : status_type) (msg : sstring) (c : connection) : connection :=
  push_reply (Some (error_reply req status msg)) (with_done true c).

(** [read_one()], from the end of [consume]. *)
Definition request_parsed (c : connection) : connection :=
  let s := c_parser c in
  if parser_eof s then at_reader RNext (with_done true c)
  else
    let c := count_served c in
    let req := if with_credentials sv then set_protocol (bytes_of "https") (req s) else req s in
    if parser_failed s then
      let req := match q_version req with [] => set_line (q_method req) (q_url req) (bytes_of "1.1") req | _ => req end in
      at_reader RNext (generate_error_reply_and_close req 400 (bytes_of "Can't parse the request") c)
    else
      let n := u64 (strtol (get_header (bytes_of "Content-Length") req)) in
      let req := set_content_length n req in
      if content_length_limit sv <? n then at_reader RNext (generate_error_reply_and_close req 413 (too_long n) c)
      else at_reader (if expects_continue req then RContinue req else RBody req) c.

(** [not_full()] and what comes after it: it fails when the queue was aborted. *)
Definition when_not_full (c c' : connection) : option connection :=
  if c_aborted c then Some (at_reader REof (count_read_error c)) else if is_full c then None else Some c'.

(** What [read()] does next; [None]: it waits, or has ended. *)
Definition read_step (c : connection) : option connection :=
  match c_reader c with
  | RNext => if c_done c then Some (at_reader REof c) else Some (at_reader RParse (with_input (c_in c) (parser_init (c_parser c)) c))
  | RParse =>
    match in_next (c_in c) with
    | None => let '(s, _) := parse [] true (c_parser c) in Some (request_parsed (with_input (c_in c) s c))
    | Some (b, i) =>
      match parse b false (c_parser c) with
      | (s, None) => Some (with_input i s c)
      | (s, Some n) => Some (request_parsed (with_input (in_unget (drop n b) i) s c))
      end
    end
  | RContinue req => when_not_full c (at_reader (RBody req) (push_reply (Some (continue_reply req)) c))
  | RBody req =>
    if q_content_length req =? 0 then Some (at_reader (RWait req) c)
    else let '(body, i) := read_exactly (q_content_length req) (c_in c) in
         Some (at_reader (RWait (set_content body req)) (with_input i (c_parser c) c))
  | RWait req => when_not_full c (at_reader (RHandle req) c)
  | RHandle req =>
    let '(rep, should_close) := generate_reply req in
    Some (at_reader RNext (with_done should_close (push_reply (Some rep) c)))
  | REof => if c_aborted c then Some (at_reader REnd c) else if is_full c then None else Some (at_reader REnd (push_reply None c))
  | REnd => None
  end.

(** What [respond()] does next. *)
Definition write_step (c : connection) : option connection :=
  if c_responding c then
    if c_aborted c then Some (stop_responding (count_respond_error c))
    else match q_pop (c_replies c) with
         | None => None
         | Some (None, q) => Some (stop_responding (with_replies q c))
         | Some (Some rep, q) =>
           let '(bs, ok) := response rep in
           let c := with_out (c_out c ++ bs) (with_replies q c) in
           Some (if ok then c else push_reply None (abort_replies (with_done true (count_respond_error c))))
         end
  else None.

Definition connection_step (c c' : connection) : Prop := read_step c = Some c' \/ write_step c = Some c'.

End Connection.
Arguments connection B I Q : clear implicits.

(** ** A stream of buffers *)

Module Buffers.

#[refine] #[export] Instance chunk_buffers : BufferStream (IS := Core.Impl.chunk_stream) (list (list Z)) := {
  in_next i := match List.filter (fun b => negb (bool_decide (b = []))) i with [] => None | b :: i => Some (b, i) end;
  in_unget b i := b :: i }.
Proof.
  - intros i. assert (forall l : list (list Z), concat (List.filter (fun b => negb (bool_decide (b = []))) l) = concat l) as Hc.
    { induction l as [|b l IH]; simpl; [done|]. case_bool_decide; simpl; [by subst|by rewrite IH]. }
    pose proof (Hc i) as H. destruct (List.filter _ i) as [|b l] eqn:E; simpl in *; [done|]. split; [|done].
    intros ->. assert (In [] (List.filter (fun b : list Z => negb (bool_decide (b = []))) i)) as Hin by (rewrite E; by left).
    apply filter_In in Hin as [_ Hin]. by rewrite bool_decide_true in Hin.
  - done.
Defined.

End Buffers.
