(* ===== verification/HttpServerSpec.v ===== *)
(** * The HTTP connection: what it answers, in which order, and that it ends

    [answers] is what the requests of a connection are to be answered with, one after the
    other; [serves] the invariant by which the two loops and the queue between them give
    exactly that. *)

From S2P Require Import Prelude Core Json Http HttpUrl HttpParser HttpParserSpec HttpReply HttpReplySpec HttpServer.
From stdpp Require Import base numbers option gmap list strings relations.

#[local] Open Scope Z_scope.

(** A request as it is sent: its head and its body. *)
Record message := Message { m_method : sstring; m_url : sstring; m_version : sstring; m_headers : list header_text; m_body : sstring }.
Definition head_text (m : message) : sstring := http_request_text (m_method m) (m_url m) (m_version m) (m_headers m).
Definition wire (m : message) : sstring := head_text m ++ m_body m.
Definition wires (ms : list message) : sstring := concat (map wire ms).

(** What the parser makes of its head. *)
Definition head (m : message) : request :=
  HttpParser.with_headers (foldl HttpParserSpec.add_header ∅ (m_headers m)) (set_line (m_method m) (m_url m) (m_version m) request_init).

Section Serve.
Variable sv : server.
Context {B : Type} {SB : StringBuilder B} {I : Type} {IS : InputStream I} {BS : BufferStream I} {Q : Type} {QO : QueueOps Q (option reply)}.

Definition head_of (m : message) : request :=
  set_content_length (zlen (m_body m)) (if with_credentials sv then set_protocol (bytes_of "https") (head m) else head m).
Definition request_of (m : message) : request := set_content (m_body m) (head_of m).

(** A message whose head is good and whose [Content-Length] says how long its body is. *)
Definition good_message (m : message) : Prop :=
  good_request (m_method m) (m_url m) (m_version m) (m_headers m) /\
  u64 (strtol (get_header (bytes_of "Content-Length") (head m))) = zlen (m_body m) /\ zlen (m_body m) <= content_length_limit sv.

(** The replies to a list of requests: the continue reply where it is asked for, then the
    reply; nothing after one that closes the connection. *)
Definition reply_to (m : message) : reply := fst (generate_reply sv (request_of m)).
Definition closes (m : message) : bool := snd (generate_reply sv (request_of m)).
Definition continues (m : message) : list reply := if expects_continue (head_of m) then [continue_reply sv (head_of m)] else [].
Fixpoint answers (ms : list message) : list reply :=
  match ms with [] => [] | m :: ms => continues m ++ reply_to m :: (if closes m then [] else answers ms) end.
Definition then_answers (m : message) (ms : list message) : list reply := reply_to m :: (if closes m then [] else answers ms).

(** ** The invariant *)

(** What the reader is about to push, by where it is, what it has read and what is still
    in the stream. *)
Definition todo (c : connection B I Q) (l : list reply) : Prop :=
  match c_reader c with
  | RNext => if c_done c then l = [] else exists ms, l = answers ms /\ Forall good_message ms /\ in_pending (c_in c) = wires ms
  | RParse => exists ms, l = answers ms /\ Forall good_message ms /\
      match ms with
      | [] => in_pending (c_in c) = []
      | m :: ms => exists pre post n v x, head_text m = pre ++ post /\ HttpParserSpec.between (c_parser c) x /\ arun pre (AState 1 None request_init n v) = Some x /\
          a_cs x <> 29 /\ in_pending (c_in c) = post ++ m_body m ++ wires ms
      end
  | RContinue q => exists m ms, l = continue_reply sv (head_of m) :: then_answers m ms /\ good_message m /\ Forall good_message ms /\
      q = head_of m /\ in_pending (c_in c) = m_body m ++ wires ms
  | RBody q => exists m ms, l = then_answers m ms /\ good_message m /\ Forall good_message ms /\ q = head_of m /\
      in_pending (c_in c) = m_body m ++ wires ms
  | RWait q => exists m ms, l = then_answers m ms /\ Forall good_message ms /\ q = request_of m /\ in_pending (c_in c) = wires ms
  | RHandle q => zlen (q_items (c_replies c)) < 10 /\
      exists m ms, l = then_answers m ms /\ Forall good_message ms /\ q = request_of m /\ in_pending (c_in c) = wires ms
  | REof | REnd => l = []
  end.

Definition ended (r : reader) : bool := match r with REnd => true | _ => false end.

(** The replies [l] are sent, queued or to come, in this order. *)
Definition serves (l : list reply) (c : connection B I Q) : Prop := exists sent queued rest,
  l = sent ++ queued ++ rest /\ todo c rest /\ c_aborted c = false /\ q_max_size (c_replies c) = 10 /\
  c_out c = concat (map (fun r => fst (response sv r)) sent) /\
  (if c_responding c then q_items (c_replies c) = map Some queued ++ (if ended (c_reader c) then [None] else [])
   else ended (c_reader c) = true /\ queued = []).

Lemma push_room r (c : connection B I Q) : q_max_size (c_replies c) = 10 -> zlen (q_items (c_replies c)) < 10 ->
  exists q, push_reply r c = with_replies q c /\ q_items q = q_items (c_replies c) ++ [r] /\ q_max_size q = 10.
Proof.
  intros Hm Hl. unfold push_reply. pose proof (q_push_spec r (c_replies c)) as H. destruct (q_push r (c_replies c)) as [q|]; [|lia].
  destruct H as (_ & H1 & H2). exists q. by rewrite H2.
Qed.

Lemma head_of_head m : q_version (head_of m) = q_version (head m) /\ q_headers (head_of m) = q_headers (head m).
Proof. unfold head_of. by destruct (with_credentials sv). Qed.

(** The end of [consume] on a good head. *)
Lemma parsed_good (c : connection B I Q) m : parser_state (c_parser c) = PDone -> req (c_parser c) = head m -> good_message m ->
  request_parsed sv c = at_reader (if expects_continue (head_of m) then RContinue (head_of m) else RBody (head_of m)) (count_served c).
Proof.
  intros H1 H2 (_ & H3 & H4). unfold request_parsed, parser_eof, parser_failed. rewrite H1. simpl. rewrite H2.
  assert (get_header (bytes_of "Content-Length") (if with_credentials sv then set_protocol (bytes_of "https") (head m) else head m) =
          get_header (bytes_of "Content-Length") (head m)) as E by (by destruct (with_credentials sv)).
  rewrite E, H3. destruct (Z.ltb_spec (content_length_limit sv) (zlen (m_body m))); [lia|]. done.
Qed.

Lemma answers_cons m ms : answers (m :: ms) = continues m ++ then_answers m ms.
Proof. done. Qed.

(** Only the reader and what it reads has changed. *)
Lemma serves_reader l c c' : serves l c -> ended (c_reader c) = false -> ended (c_reader c') = false ->
  c_responding c' = c_responding c -> c_replies c' = c_replies c -> c_aborted c' = c_aborted c -> c_out c' = c_out c ->
  (forall rest, todo c rest -> todo c' rest) -> serves l c'.
Proof.
  intros (sent & queued & rest & H1 & H2 & H3 & H4 & H5 & H6) He He' E1 E2 E3 E4 Ht. exists sent, queued, rest.
  rewrite E1, E2, E3, E4, He'. rewrite He in H6. split_and!; auto.
Qed.

Lemma serves_responding l c : serves l c -> ended (c_reader c) = false -> c_responding c = true.
Proof. intros (sent & queued & rest & _ & _ & _ & _ & _ & H) He. destruct (c_responding c); [done|]. rewrite He in H. by destruct H. Qed.

(** The reader pushes the first reply that it has to push. *)
Lemma serves_push l c c' r : serves l c -> ended (c_reader c) = false -> zlen (q_items (c_replies c)) < 10 -> ended (c_reader c') = false ->
  c_responding c' = c_responding c -> c_replies c' = c_replies (push_reply (Some r) c) -> c_aborted c' = c_aborted c -> c_out c' = c_out c ->
  (forall rest, todo c rest -> exists rest', rest = r :: rest' /\ todo c' rest') -> serves l c'.
Proof.
  intros Hs He Hz He' E1 E2 E3 E4 Ht. pose proof (serves_responding l c Hs He) as Hr.
  destruct Hs as (sent & queued & rest & H1 & H2 & H3 & H4 & H5 & H6). destruct (Ht rest H2) as (rest' & -> & H7).
  destruct (push_room (Some r) c H4 Hz) as (q & Hq & Hi & Hm). rewrite Hq in E2. simpl in E2.
  exists sent, (queued ++ [r]), rest'. rewrite E1, E2, E3, E4, He', Hr. rewrite Hr, He in H6. split_and!; try done.
  - by rewrite H1, <- !app_assoc.
  - rewrite Hi, H6, map_app, <- !app_assoc. done.
Qed.

(** ** Each step of the reader *)

Lemma next_serves l c c' : serves l c -> c_reader c = RNext -> read_step sv c = Some c' -> serves l c'.
Proof.
  intros Hs Hr. unfold read_step. rewrite Hr. destruct (c_done c) eqn:Hd; intros [= <-]; apply (serves_reader l c _ Hs); try done;
    try (by rewrite Hr); intros rest; unfold todo; rewrite Hr, Hd; simpl.
  - done.
  - intros (ms & -> & Hg & Hp). exists ms. split; [done|]. split; [done|]. destruct ms as [|m ms]; [done|].
    exists [], (head_text m), (field_name (c_parser c)), (field_value (c_parser c)), (AState 1 None request_init (field_name (c_parser c)) (field_value (c_parser c))).
    split; [done|]. split; [apply init_between|]. split; [done|]. split; [done|]. rewrite Hp. unfold wires. simpl. unfold wire at 1. by rewrite <- app_assoc.
Qed.

Lemma head_run m n v : good_message m -> exists n' v',
  arun (head_text m) (AState 1 None request_init n v) = Some (AState 29 None (head m) n' v').
Proof. intros [Hg _]. destruct (run_request _ _ _ _ n v Hg) as (n' & v' & H). by exists n', v'. Qed.

(** What a step of the reader that pushes nothing leaves alone. *)
Definition frame (c c' : connection B I Q) : Prop :=
  ended (c_reader c') = false /\ c_responding c' = c_responding c /\ c_replies c' = c_replies c /\ c_aborted c' = c_aborted c /\ c_out c' = c_out c.

Lemma frame_serves l c c' : serves l c -> ended (c_reader c) = false -> frame c c' -> (forall rest, todo c rest -> todo c' rest) -> serves l c'.
Proof. intros Hs He (H1 & H2 & H3 & H4 & H5). by apply serves_reader. Qed.

(** The text of a head, cut where the parser is; the next buffer. *)
Lemma parse_block m ms pre post n v x b i (c : connection B I Q) : good_message m -> head_text m = pre ++ post ->
  HttpParserSpec.between (c_parser c) x -> arun pre (AState 1 None request_init n v) = Some x -> a_cs x <> 29 ->
  b <> [] -> b ++ in_pending i = post ++ m_body m ++ wires ms ->
  (exists s' y p2, parse b false (c_parser c) = (s', None) /\ post = b ++ p2 /\ HttpParserSpec.between s' y /\ arun (pre ++ b) (AState 1 None request_init n v) = Some y /\
     a_cs y <> 29 /\ in_pending i = p2 ++ m_body m ++ wires ms) \/
  (exists s' k, parse b false (c_parser c) = (s', Some k) /\ parser_state s' = PDone /\ req s' = head m /\
     in_pending (in_unget (drop k b) i) = m_body m ++ wires ms).
Proof.
  intros Hm E Hbt Ha H29 Hb Hp. destruct (head_run m n v Hm) as (n' & v' & Hrun). rewrite E, arun_app, Ha in Hrun. simpl in Hrun.
  destruct (decide (length b < length post)%nat) as [Hl|Hl]; [left|right].
  - assert (exists p2, post = b ++ p2 /\ in_pending i = p2 ++ m_body m ++ wires ms) as (p2 & -> & Hp2).
    { exists (drop (length b) post). split.
      - rewrite <- (take_drop (length b) post) at 1. f_equal. rewrite <- (take_app_le post (m_body m ++ wires ms)), <- Hp by lia. by rewrite take_app_length.
      - rewrite <- (drop_app_le post (m_body m ++ wires ms)), <- Hp by lia. by rewrite drop_app_length. }
    rewrite arun_app in Hrun. destruct (arun b x) as [y|] eqn:Ey; [|done]. simpl in Hrun.
    assert (a_cs y <> 29) as Hy.
    { intros Hy. destruct p2 as [|d p2]; [rewrite app_nil_r in Hl; lia|]. simpl in Hrun. unfold astep in Hrun. by rewrite Hy in Hrun. }
    destruct (parse_more b (c_parser c) x y Hb Hbt H29 Ey Hy) as (s' & Hs' & Hbt'). exists s', y, p2.
    split_and!; try done. by rewrite arun_app, Ha.
  - assert (post <> []) as Hpost by (intros ->; simpl in Hrun; inversion Hrun; subst; by simpl in H29).
    assert (b = post ++ drop (length post) b) as Hb1.
    { rewrite <- (take_drop (length post) b) at 1. f_equal. rewrite <- (take_app_le b (in_pending i)), Hp by lia. by rewrite take_app_length. }
    destruct (parse_stops post (drop (length post) b) (c_parser c) x _ Hpost Hbt H29 Hrun eq_refl) as (s' & Hs' & H1 & H2).
    rewrite <- Hb1 in Hs'. exists s', (length post). split_and!; try done. rewrite in_unget_spec.
    rewrite Hb1, <- app_assoc in Hp. by apply app_inv_head in Hp.
Qed.

Lemma parse_frame (c : connection B I Q) rest : todo c rest -> c_reader c = RParse -> exists c', read_step sv c = Some c' /\ frame c c' /\ todo c' rest.
Proof.
  intros Ht Hr. unfold todo in Ht. rewrite Hr in Ht. destruct Ht as (ms0 & -> & Hg & Ht). unfold read_step. rewrite Hr.
  pose proof (in_next_spec (c_in c)) as Hn. destruct ms0 as [|m ms].
  - destruct (in_next (c_in c)) as [[b i]|].
    { destruct Hn as [Hb Hp]. rewrite Ht in Hp. symmetry in Hp. by apply app_eq_nil in Hp as [? _]. }
    destruct (parse_at_eof (c_parser c)) as (s' & -> & Hs'). eexists. split; [done|]. unfold request_parsed, parser_eof. simpl. rewrite Hs'. done.
  - apply Forall_cons in Hg as [Hm Hg]. destruct Ht as (pre & post & n & v & x & E & Hbt & Ha & H29 & Hpend).
    destruct (in_next (c_in c)) as [[b i]|].
    + destruct Hn as [Hb Hp]. rewrite Hp in Hpend.
      destruct (parse_block m ms pre post n v x b i c Hm E Hbt Ha H29 Hb Hpend) as [(s' & y & p2 & -> & -> & ? & ? & ? & ?)|(s' & k & -> & H1 & H2 & H3)].
      * eexists. split; [done|]. split; [unfold frame; simpl; by rewrite Hr|]. unfold todo. simpl. rewrite Hr. exists (m :: ms). split; [done|]. split; [by constructor|].
        exists (pre ++ b), p2, n, v, y. rewrite E, <- app_assoc. done.
      * eexists. split; [done|]. rewrite (parsed_good (with_input (in_unget (drop k b) i) s' c) m H1 H2 Hm). unfold todo. rewrite answers_cons. unfold continues.
        destruct (expects_continue (head_of m)); (split; [done|]); simpl; by exists m, ms.
    + exfalso. rewrite Hn in Hpend. symmetry in Hpend. apply app_eq_nil in Hpend as [-> _]. rewrite app_nil_r in E. subst pre.
      destruct (head_run m n v Hm) as (n' & v' & Hrun). rewrite Ha in Hrun. inversion Hrun; subst. by simpl in H29.
Qed.

Lemma body_frame (c : connection B I Q) q rest : todo c rest -> c_reader c = RBody q -> exists c', read_step sv c = Some c' /\ frame c c' /\ todo c' rest.
Proof.
  intros Ht Hr. unfold todo in Ht. rewrite Hr in Ht. destruct Ht as (m & ms & -> & Hm & Hg & -> & Hp). unfold read_step. rewrite Hr.
  change (q_content_length (head_of m)) with (zlen (m_body m)). destruct (Z.eqb_spec (zlen (m_body m)) 0) as [E|E].
  - apply zlen_0_nil in E. eexists. split; [done|]. split; [done|]. unfold todo. simpl. exists m, ms.
    split_and!; try done; [|by rewrite Hp, E]. unfold request_of. rewrite E. unfold head_of. by destruct (with_credentials sv).
  - pose proof (read_exactly_spec (zlen (m_body m)) (c_in c) (zlen_nonneg _)) as [H1 H2].
    destruct (read_exactly (zlen (m_body m)) (c_in c)) as [body i]. simpl in *. eexists. split; [done|]. split; [done|]. unfold todo. simpl.
    exists m, ms. unfold zlen in H1, H2. rewrite Nat2Z.id, Hp in H1, H2. rewrite take_app_length in H1. rewrite drop_app_length in H2. by subst.
Qed.

Lemma not_full_room (c : connection B I Q) : is_full c = false -> q_max_size (c_replies c) = 10 -> zlen (q_items (c_replies c)) < 10.
Proof. unfold is_full. intros H1 H2. rewrite H2 in H1. by apply Z.leb_gt in H1. Qed.

Lemma read_serves l c c' : serves l c -> read_step sv c = Some c' -> serves l c'.
Proof.
  intros Hs. pose proof Hs as (_ & _ & rest & _ & Ht & Hab & Hm & _). destruct (c_reader c) as [| |q|q|q|q| |] eqn:Hr.
  - by apply next_serves.
  - destruct (parse_frame c rest Ht Hr) as (c1 & H1 & H2 & _). rewrite H1. intros [= <-].
    apply (frame_serves l c); [done|by rewrite Hr|done|]. intros r0 H0. destruct (parse_frame c r0 H0 Hr) as (c2 & E & _ & ?). congruence.
  - unfold read_step. rewrite Hr. unfold when_not_full. rewrite Hab. destruct (is_full c) eqn:Hf; [done|]. intros [= <-].
    pose proof (not_full_room c Hf Hm) as Hz. apply (serves_push l c _ (continue_reply sv q)); try done; try (by rewrite Hr).
    1,2,3: unfold push_reply; by destruct (q_push _ _).
    intros r0. unfold todo. rewrite Hr. intros (m & ms & -> & ? & ? & -> & ?). eexists. split; [done|]. unfold todo. simpl.
    exists m, ms. unfold push_reply. by destruct (q_push _ _).
  - destruct (body_frame c q rest Ht Hr) as (c1 & H1 & H2 & _). rewrite H1. intros [= <-].
    apply (frame_serves l c); [done|by rewrite Hr|done|]. intros r0 H0. destruct (body_frame c q r0 H0 Hr) as (c2 & E & _ & ?). congruence.
  - unfold read_step. rewrite Hr. unfold when_not_full. rewrite Hab. destruct (is_full c) eqn:Hf; [done|]. intros [= <-].
    apply (frame_serves l c); [done|by rewrite Hr|done|]. intros r0. unfold todo. rewrite Hr. simpl. intros H. split; [by apply not_full_room|done].
  - unfold read_step. rewrite Hr. destruct (generate_reply sv q) as [rep close] eqn:Hgen. intros [= <-].
    unfold todo in Ht. rewrite Hr in Ht. destruct Ht as [Hz _]. apply (serves_push l c _ rep); try done; try (by rewrite Hr).
    1,2,3: unfold push_reply; by destruct (q_push _ _).
    intros r0. unfold todo at 1. rewrite Hr. intros (_ & m & ms & -> & Hg & -> & Hp). unfold then_answers, reply_to, closes. rewrite Hgen. simpl.
    eexists. split; [done|]. unfold todo. simpl. destruct close; [done|]. exists ms. unfold push_reply. by destruct (q_push _ _).
  - unfold read_step. rewrite Hr, Hab. destruct (is_full c) eqn:Hf; [done|]. intros [= <-].
    destruct Hs as (sent & queued & r0 & H1 & H2 & _ & H4 & H5 & H6). rewrite Hr in H6.
    destruct (push_room None c H4 (not_full_room c Hf Hm)) as (qq & Hq & Hi & Hm'). exists sent, queued, r0. rewrite Hq. simpl. split_and!; try done.
    + unfold todo in *. by rewrite Hr in H2.
    + rewrite Hi. destruct (c_responding c); [|by destruct H6]. rewrite H6. simpl. by rewrite app_nil_r.
  - unfold read_step. by rewrite Hr.
Qed.

(** ** The writer, and every run *)

Lemma response_ok r : snd (response sv r) = writes_body r.
Proof. unfold response, start_response, writes_body. by destruct (p_body_writer r) as [[w [|]]|]. Qed.

Lemma write_serves l c c' : Forall (fun r => writes_body r = true) l -> serves l c -> write_step sv c = Some c' -> serves l c'.
Proof.
  intros Hw (sent & queued & rest & -> & H2 & H3 & H4 & H5 & H6). unfold write_step. rewrite H3. destruct (c_responding c) eqn:Hr; [|done].
  pose proof (q_pop_spec (c_replies c)) as Hp. destruct (q_pop (c_replies c)) as [[[rep|] q]|]; [|intros [= <-]|done].
  - destruct Hp as [Hi Hm]. pose proof (f_equal zlen Hi) as Hlen. rewrite zlen_cons in Hlen. destruct queued as [|r queued]; [simpl in H6; destruct (ended (c_reader c)); by rewrite H6 in Hi|].
    rewrite H6 in Hi. simpl in Hi. injection Hi as Er Hq. subst rep.
    assert (writes_body r = true) as Hr'.
    { apply Forall_app in Hw as [_ Hw]. by apply Forall_cons in Hw as [Hw _]. }
    pose proof (response_ok r) as Ho. destruct (response sv r) as [bs ok] eqn:Eb. simpl in Ho. rewrite Ho, Hr'. intros [= <-].
    exists (sent ++ [r]), queued, rest. simpl. rewrite Hr. split_and!; try done; try congruence.
    + by rewrite <- !app_assoc.
    + unfold todo in *. simpl in *. destruct (c_reader c); try done. destruct H2 as [Hz H2]. split; [lia|done].
    + rewrite H5, map_app, concat_app. simpl. by rewrite Eb, app_nil_r.
  - destruct Hp as [Hi Hm]. rewrite H6 in Hi. destruct queued as [|r queued]; [|done]. destruct (ended (c_reader c)) eqn:He; [|done].
    exists sent, [], rest. simpl. split_and!; try done; try congruence.
    unfold todo in *. simpl in *. by destruct (c_reader c).
Qed.

Lemma init_serves ms i (p : parser B) : Forall good_message ms -> in_pending i = wires ms -> serves (answers ms) (connection_init i p).
Proof.
  intros Hg Hp. exists [], [], (answers ms). unfold connection_init. simpl. rewrite q_items_make, q_max_size_make.
  split_and!; try done. unfold todo. simpl. by exists ms.
Qed.

Lemma run_serves ms i (p : parser B) c : Forall good_message ms -> in_pending i = wires ms ->
  Forall (fun r => writes_body r = true) (answers ms) -> rtc (connection_step sv) (connection_init i p) c -> serves (answers ms) c.
Proof.
  intros Hg Hp Hw Hr. remember (connection_init i p) as c0 eqn:E0. assert (serves (answers ms) c0) as H0 by (subst; by apply init_serves).
  clear E0. induction Hr as [c|c c1 c2 Hs _ IH]; [done|]. apply IH. destruct Hs as [Hs|Hs]; [by eapply read_serves|by eapply write_serves].
Qed.

(** The two loops have ended. *)
Definition finished (c : connection B I Q) : Prop := c_reader c = REnd /\ c_responding c = false.

Definition sent_for (l : list reply) : sstring := concat (map (fun r => fst (response sv r)) l).

Lemma serves_out l c : serves l c -> (exists k, c_out c = sent_for (take k l)) /\ (finished c -> c_out c = sent_for l).
Proof.
  intros (sent & queued & rest & -> & H2 & _ & H4 & H5 & H6). split; [exists (length sent); by rewrite take_app_length|].
  intros [Hf Hr]. rewrite Hr in H6. destruct H6 as [_ ->]. unfold todo in H2. rewrite Hf in H2. subst. by rewrite !app_nil_r.
Qed.

(** ** The queue, and where the loops wait: any input *)

(** At most ten replies wait.  Who waits for room has a writer to make it; who waits for
    a reply has a reader, or the mark of the end. *)
Definition sized (r : reader) : Prop := match r with RContinue q | RBody q => 0 <= q_content_length q | _ => True end.
Definition sound (c : connection B I Q) : Prop :=
  q_max_size (c_replies c) = 10 /\ zlen (q_items (c_replies c)) <= 10 /\
  (c_responding c = false -> c_aborted c = true \/ c_reader c = REnd) /\
  (c_responding c = true -> c_aborted c = false -> c_reader c = REnd -> exists l, q_items (c_replies c) = l ++ [None]) /\
  sized (c_reader c) /\
  (c_aborted c = false -> c_reader c <> REnd -> None ∉ q_items (c_replies c)).

Lemma push_reply_bounded r (c : connection B I Q) : q_max_size (c_replies c) = 10 -> zlen (q_items (c_replies c)) <= 10 ->
  exists q, push_reply r c = with_replies q c /\ q_max_size q = 10 /\ zlen (q_items q) <= 10 /\
    zlen (q_items q) <= zlen (q_items (c_replies c)) + 1 /\ (zlen (q_items (c_replies c)) < 10 -> q_items q = q_items (c_replies c) ++ [r]).
Proof.
  intros Hm Hz. unfold push_reply. pose proof (q_push_spec r (c_replies c)) as H. destruct (q_push r (c_replies c)) as [q|].
  - destruct H as (H1 & H2 & H3). exists q. rewrite H3, H2, zlen_app. change (zlen [r]) with 1. split_and!; (done || lia).
  - exists (c_replies c). split_and!; try done; try lia. by destruct c.
Qed.

Lemma push_some r (c : connection B I Q) q : push_reply (Some r) c = with_replies q c -> None ∉ q_items (c_replies c) -> None ∉ q_items q.
Proof.
  unfold push_reply. pose proof (q_push_spec (Some r) (c_replies c)) as H. destruct (q_push (Some r) (c_replies c)) as [q'|].
  - intros E Hn. apply (f_equal c_replies) in E. simpl in E. subst q'. destruct H as (_ & -> & _). rewrite not_elem_of_app. split; [done|].
    by intros ?%list_elem_of_singleton.
  - intros E. apply (f_equal c_replies) in E. simpl in E. by subst.
Qed.

(** A step that changes neither loop's end. *)
Lemma sound_mid c c' : sound c -> c_reader c <> REnd -> c_reader c' <> REnd -> sized (c_reader c') -> c_responding c' = c_responding c -> c_aborted c' = c_aborted c ->
  q_max_size (c_replies c') = 10 -> zlen (q_items (c_replies c')) <= 10 ->
  (None ∉ q_items (c_replies c) -> None ∉ q_items (c_replies c')) -> sound c'.
Proof.
  intros (H1 & H2 & H3 & H4 & _ & H7) Hn Hn' Hsz E1 E2 H5 H6 H8. unfold sound. rewrite E1, E2. split_and!; try done.
  - intros Hr. destruct (H3 Hr) as [?|?]; [by left|done].
  - intros Ha _. by apply H8, H7.
Qed.

(** What is left to do: the bytes that were not read, where the reader is, the replies
    that wait, and the writer. *)
Definition phase (c : connection B I Q) : Z :=
  match c_reader c with
  | RNext => if c_done c then 3 else 6
  | RParse => 5
  | RContinue _ => 13
  | RBody _ => 11
  | RWait _ => 10
  | RHandle _ => 9
  | REof => 2
  | REnd => 0
  end.
Definition left_to_do (c : connection B I Q) : Z :=
  14 * zlen (in_pending (c_in c)) + phase c + zlen (q_items (c_replies c)) + (if c_responding c then 1 else 0) + (if c_aborted c then 0 else 2).

(** A step of the reader: what it keeps, and that less is left to do. *)
Definition reads (c c' : connection B I Q) : Prop :=
  sound c' /\ left_to_do c' < left_to_do c.

Lemma reads_quiet c c' : sound c -> c_reader c <> REnd -> c_reader c' <> REnd -> sized (c_reader c') -> c_responding c' = c_responding c -> c_aborted c' = c_aborted c ->
  c_replies c' = c_replies c -> 14 * zlen (in_pending (c_in c')) + phase c' < 14 * zlen (in_pending (c_in c)) + phase c -> reads c c'.
Proof.
  intros Hs Hn Hn' Hsz E1 E2 E3 Hm. pose proof Hs as (H1 & H2 & _). split; [eapply sound_mid; eauto; by rewrite E3|].
  unfold left_to_do. rewrite E1, E2, E3. lia.
Qed.

Lemma reads_push c c' r : sound c -> c_reader c <> REnd -> c_reader c' <> REnd -> sized (c_reader c') -> c_responding c' = c_responding c -> c_aborted c' = c_aborted c ->
  c_replies c' = c_replies (push_reply (Some r) c) -> 14 * zlen (in_pending (c_in c')) + phase c' + 1 < 14 * zlen (in_pending (c_in c)) + phase c -> reads c c'.
Proof.
  intros Hs Hn Hn' Hsz E1 E2 E3 Hm. pose proof Hs as (H1 & H2 & _). destruct (push_reply_bounded (Some r) c H1 H2) as (q & Hq & Hqm & Hqz & Hz & Hi).
  rewrite Hq in E3. simpl in E3. split; [eapply sound_mid; eauto; rewrite E3; try done; by apply (push_some r c q)|]. unfold left_to_do. rewrite E1, E2, E3. lia.
Qed.

Lemma push_fields r (c : connection B I Q) : c_in (push_reply r c) = c_in c /\ c_responding (push_reply r c) = c_responding c /\
  c_aborted (push_reply r c) = c_aborted c /\ c_done (push_reply r c) = c_done c.
Proof. unfold push_reply. by destruct (q_push r (c_replies c)). Qed.

Lemma push_same r (c c' : connection B I Q) : c_replies c' = c_replies c -> c_replies (push_reply r c') = c_replies (push_reply r c).
Proof. intros E. unfold push_reply. rewrite E. by destruct (q_push r (c_replies c)). Qed.

(** The end of [consume], when no more is left than before: the parser is not done, or at
    least one byte was taken. *)
Lemma parsed_reads c i s : sound c -> c_reader c = RParse -> zlen (in_pending i) <= zlen (in_pending (c_in c)) ->
  (parser_state s = PDone -> zlen (in_pending i) < zlen (in_pending (c_in c))) -> reads c (request_parsed sv (with_input i s c)).
Proof.
  intros Hs Hr Hi Hd. unfold request_parsed, parser_eof, parser_failed, generate_error_reply_and_close. cbn [c_parser with_input].
  assert (forall r c1, c_reader c <> REnd -> c_responding c1 = c_responding c -> c_aborted c1 = c_aborted c -> c_in c1 = i -> c_replies c1 = c_replies c ->
    c_done c1 = true -> reads c (at_reader RNext (push_reply (Some r) c1))) as Hpush.
  { intros r c1 Hn E1 E2 E3 E4 E5. destruct (push_fields (Some r) c1) as (F1 & F2 & F3 & F4). apply (reads_push c _ r); try done; try congruence.
    - simpl. by rewrite F2.
    - simpl. by rewrite F3.
    - simpl. by apply push_same.
    - unfold phase. simpl. rewrite F4, E5, Hr, F1, E3. lia. }
  assert (c_reader c <> REnd) as Hn by congruence.
  destruct (parser_state s) eqn:Es.
  - by apply Hpush.
  - apply reads_quiet; try done. unfold phase. simpl. rewrite Hr. lia.
  - specialize (Hd eq_refl). destruct (_ <? _); [by apply Hpush|].
    destruct (expects_continue _); (apply reads_quiet; try done; [by apply wrap_range|unfold phase; simpl; rewrite Hr; lia]).
Qed.

Lemma exec_done blk rest : forall p (s s' : parser B) n, exec blk rest p s = (s', n, true) -> (p < n)%nat.
Proof.
  induction rest as [|c rest IH]; intros p s s' n; simpl; [done|]. destruct (transition _ _) as [[l cs]|]; [|done].
  destruct (cs =? 29); [intros [= _ <-]; lia|]. intros H. apply IH in H. lia.
Qed.

Lemma exec_pstate blk rest : forall p (s s' : parser B) n d, exec blk rest p s = (s', n, d) -> parser_state s' = parser_state s.
Proof.
  assert (forall p l (s : parser B), parser_state (foldl (fun s a => act blk p a s) s l) = parser_state s) as Ha.
  { intros p l. induction l as [|a l IH]; intros s; simpl; [done|]. rewrite IH. destruct a; simpl; try done; unfold str; by destruct (get_str _). }
  induction rest as [|c rest IH]; intros p s s' n d; simpl; [by intros [= <- _ _]|]. destruct (transition _ _) as [[l cs]|]; [|by intros [= <- _ _]].
  destruct (cs =? 29); [intros [= <- _ _]; apply Ha|]. intros H. apply IH in H. rewrite H. apply Ha.
Qed.

Lemma parse_done_some b (s s' : parser B) r : b <> [] -> parse b false s = (s', r) -> parser_state s' = PDone -> exists n, r = Some (S n).
Proof.
  intros Hb. unfold parse. destruct b as [|c b]; [done|]. destruct (exec _ _ _ _) as [[s1 n] [|]] eqn:E.
  - intros [= <- <-] _. apply exec_done in E. destruct n as [|n]; [lia|]. by exists n.
  - destruct (n =? _)%nat eqn:En; intros [= <- <-]; simpl.
    + intros Hp. exfalso. revert Hp. apply exec_pstate in E. rewrite E. done.
    + done.
Qed.

Lemma when_not_full_reads c c' c1 : sound c -> c_reader c <> REnd -> 2 < phase c -> when_not_full c c' = Some c1 -> (is_full c = false -> reads c c') -> reads c c1.
Proof.
  intros Hs Hn Hp. unfold when_not_full. destruct (c_aborted c) eqn:Ha; [|destruct (is_full c); [done|]; intros [= <-] H; by apply H].
  intros [= <-] _. apply reads_quiet; try done. unfold phase in *. simpl. lia.
Qed.

Lemma read_reads c c' : sound c -> read_step sv c = Some c' -> reads c c'.
Proof.
  intros Hs. pose proof Hs as (H1 & H2 & H3 & H4 & H5 & H6). unfold read_step. destruct (c_reader c) as [| |q|q|q|q| |] eqn:Hr; try done.
  - destruct (c_done c) eqn:Hd; intros [= <-]; (apply reads_quiet; try done; try congruence; unfold phase; simpl; rewrite Hr, Hd; lia).
  - pose proof (in_next_spec (c_in c)) as Hn. destruct (in_next (c_in c)) as [[b i]|].
    + destruct Hn as [Hb Hp]. pose proof (f_equal zlen Hp) as Hz. rewrite zlen_app in Hz. pose proof (zlen_nonneg b).
      assert (0 < zlen b) by (destruct b; [done|rewrite zlen_cons; pose proof (zlen_nonneg b); lia]).
      destruct (parse b false (c_parser c)) as [s [n|]] eqn:Ep; intros [= <-].
      * apply parsed_reads; try done; rewrite in_unget_spec, zlen_app, Hz.
        -- unfold zlen. rewrite length_drop. lia.
        -- intros Hd. destruct (parse_done_some b _ s _ Hb Ep Hd) as [k [= ->]]. unfold zlen in *. rewrite length_drop. lia.
      * apply reads_quiet; try done; simpl; try congruence. unfold phase. simpl. rewrite Hr. lia.
    + destruct (parse_at_eof (c_parser c)) as (s & -> & Hst). intros [= <-]. apply parsed_reads; try done. congruence.
  - intros H. eapply (when_not_full_reads c _ _ Hs); [congruence|unfold phase; rewrite Hr; lia|exact H|]. intros _.
    destruct (push_fields (Some (continue_reply sv q)) c) as (F1 & F2 & F3 & F4).
    apply (reads_push c _ (continue_reply sv q)); try done; try congruence. unfold phase. simpl. rewrite Hr, F1. lia.
  - destruct (q_content_length q =? 0); [intros [= <-]; apply reads_quiet; try done; try congruence; unfold phase; simpl; rewrite Hr; lia|].
    destruct (read_exactly _ _) as [body i] eqn:Eb. intros [= <-]. apply reads_quiet; try done; try congruence. unfold phase. simpl. rewrite Hr.
    pose proof (read_exactly_spec (q_content_length q) (c_in c) H5) as [_ E]. rewrite Eb in E. simpl in E. rewrite E.
    unfold zlen. rewrite length_drop. lia.
  - intros H. eapply (when_not_full_reads c _ _ Hs); [congruence|unfold phase; rewrite Hr; lia|exact H|]. intros _.
    apply reads_quiet; try done; try congruence. unfold phase. simpl. rewrite Hr. lia.
  - destruct (generate_reply sv q) as [rep close]. intros [= <-]. destruct (push_fields (Some rep) c) as (F1 & F2 & F3 & F4).
    apply (reads_push c _ rep); try done; try congruence. unfold phase. simpl. rewrite Hr, F1. destruct close; lia.
  - destruct (c_aborted c) eqn:Ha; [|destruct (is_full c) eqn:Hf; [done|]]; intros [= <-].
    + split; [|unfold left_to_do, phase; simpl; rewrite Hr; lia]. unfold sound. simpl. split_and!; try done; [by right|congruence].
    + destruct (push_reply_bounded None c H1 H2) as (qq & Hq & Hm & Hz & Hz1 & Hi). specialize (Hi (not_full_room c Hf H1)).
      rewrite Hq. split; [|unfold left_to_do, phase; simpl; rewrite Hr; lia]. unfold sound. simpl. split_and!; try done; [by right|].
      intros _ _ _. by exists (q_items (c_replies c)).
Qed.

Lemma push_aborted c : q_max_size (c_replies c) = 10 ->
  zlen (q_items (c_replies (push_reply None (abort_replies (Q := Q) (I := I) (B := B) c)))) <= 1 /\
  q_max_size (c_replies (push_reply None (abort_replies c))) = 10.
Proof.
  intros Hm. destruct (q_abort_spec (c_replies c)) as [H1 H2].
  destruct (push_reply_bounded None (abort_replies c)) as (q & Hq & Hqm & _ & Hz & _); [simpl; by rewrite H2|simpl; by rewrite H1|].
  rewrite Hq. simpl in *. rewrite H1 in Hz. done.
Qed.

Lemma phase_done c : c_reader c <> RNext -> forall d : bool, phase (with_done d c) = phase c.
Proof. unfold phase. simpl. by destruct (c_reader c). Qed.

Lemma write_reads c c' : sound c -> write_step sv c = Some c' -> reads c c'.
Proof.
  intros (H1 & H2 & H3 & H4 & H5 & H6). unfold write_step. destruct (c_responding c) eqn:Hr; [|done]. destruct (c_aborted c) eqn:Ha.
  { intros [= <-]. split; [|unfold left_to_do, phase; simpl; rewrite Hr; lia]. unfold sound. simpl. split_and!; try done; [by left|congruence]. }
  pose proof (q_pop_spec (c_replies c)) as Hp. destruct (q_pop (c_replies c)) as [[[rep|] q]|]; [|intros [= <-]|done].
  - destruct Hp as [Hi Hm]. pose proof (f_equal zlen Hi) as Hz. rewrite zlen_cons in Hz.
    destruct (response sv rep) as [bs [|]]; intros [= <-].
    + split; [|unfold left_to_do, phase; simpl; rewrite Hr, Ha; lia]. unfold sound. simpl. rewrite Hr, Ha. split_and!; try done; try lia.
      * intros _ _ He. destruct (H4 eq_refl eq_refl He) as [l Hl]. rewrite Hi in Hl. destruct l as [|x l]; [done|]. injection Hl as _ Hl. by exists l.
      * intros _ He Hin. apply (H6 eq_refl He). rewrite Hi. by right.
    + set (d := with_done true _). destruct (push_aborted d) as [Hz1 Hm1]; [simpl; congruence|].
      destruct (push_fields None (abort_replies d)) as (F1 & F2 & F3 & F4).
      assert (c_reader (push_reply None (abort_replies d)) = c_reader c) as F5 by (unfold push_reply; by destruct (q_push _ _)).
      split.
      * unfold sound. rewrite Hm1, F3, F5. split_and!; try done; [lia|intros _; by left].
      * unfold left_to_do. rewrite F1, F2, F3. simpl. rewrite Hr, Ha.
        assert (phase (push_reply None (abort_replies d)) <= phase c).
        { unfold phase. rewrite F5, F4. simpl. destruct (c_reader c); try lia. destruct (c_done c); lia. }
        pose proof (zlen_nonneg (q_items q)). lia.
  - destruct Hp as [Hi Hm]. pose proof (f_equal zlen Hi) as Hz. rewrite zlen_cons in Hz.
    split; [|unfold left_to_do, phase; simpl; rewrite Hr, Ha; lia]. unfold sound. simpl. split_and!; try done; try lia; try congruence.
    + intros _. right. destruct (c_reader c) eqn:Hc; try done; (destruct (H6 eq_refl ltac:(done)); rewrite Hi; by left).
    + intros _ He Hin. apply (H6 eq_refl He). rewrite Hi. by right.
Qed.

Lemma init_sound i (p : parser B) : sound (connection_init i p).
Proof.
  unfold sound, connection_init. simpl. rewrite q_items_make, q_max_size_make. split_and!; try done. intros _ _. apply not_elem_of_nil.
Qed.

Lemma step_reads c c' : sound c -> connection_step sv c c' -> reads c c'.
Proof. intros Hs [H|H]; [by apply read_reads|by apply write_reads]. Qed.

Lemma left_nonneg c : 0 <= left_to_do c.
Proof.
  unfold left_to_do, phase. pose proof (zlen_nonneg (in_pending (c_in c))). pose proof (zlen_nonneg (q_items (c_replies c))).
  destruct (c_reader c), (c_responding c), (c_aborted c), (c_done c); lia.
Qed.

Lemma steps_left n c c' : sound c -> nsteps (connection_step sv) n c c' -> sound c' /\ left_to_do c' + Z.of_nat n <= left_to_do c.
Proof.
  intros Hs H. induction H as [c|n c c1 c2 Hst _ IH]; [split; [done|lia]|].
  destruct (step_reads c c1 Hs Hst) as [H1 H2]. destruct (IH H1) as [H3 H4]. split; [done|lia].
Qed.

(** Nobody waits for ever. *)
Lemma sound_progress c : sound c -> finished c \/ exists c', connection_step sv c c'.
Proof.
  intros (H1 & H2 & H3 & H4 & H5 & H6). destruct (read_step sv c) as [c'|] eqn:Er; [right; exists c'; by left|].
  destruct (write_step sv c) as [c'|] eqn:Ew; [right; exists c'; by right|]. left.
  assert (c_responding c = false \/ c_aborted c = false /\ q_items (c_replies c) = []) as Hw.
  { unfold write_step in Ew. destruct (c_responding c); [right|by left]. destruct (c_aborted c); [done|]. split; [done|].
    pose proof (q_pop_spec (c_replies c)) as Hp. destruct (q_pop (c_replies c)) as [[[rep|] q]|]; [|done|done].
    by destruct (response sv rep) as [bs [|]]. }
  assert (c_reader c = REnd \/ c_aborted c = false /\ is_full c = true) as Hr.
  { unfold read_step, when_not_full in Er. repeat case_match; try done; auto; destruct (is_full c) eqn:?; try done; auto. }
  unfold is_full in Hr. rewrite H1 in Hr. destruct Hw as [Hw|[Ha Hq]].
  - split; [|done]. destruct Hr as [Hr|[Ha _]]; [done|]. destruct (H3 Hw) as [?|?]; [congruence|done].
  - destruct Hr as [Hr|[_ Hf]]; [|by rewrite Hq in Hf]. split; [done|]. destruct (c_responding c) eqn:Hc; [|done].
    destruct (H4 eq_refl Ha Hr) as [l Hl]. rewrite Hq in Hl. by destruct l.
Qed.

(** ** The properties *)

(** C5. A connection answers its requests in order, however the input is cut into buffers and
    however the two loops take turns: when the input is a list of good requests, what
    was written at any time is the responses to the first of the replies that the requests
    call for - a continue reply where it is asked for, the reply of the handler that the
    routes choose, nothing after one that closes the connection - and when both loops
    have ended, the responses to all of them. *)
Theorem http_connection_serves ms i (p : parser B) c : Forall good_message ms -> in_pending i = wires ms ->
  Forall (fun r => writes_body r = true) (answers ms) -> rtc (connection_step sv) (connection_init i p) c ->
  (exists k, c_out c = sent_for (take k (answers ms))) /\ (finished c -> c_out c = sent_for (answers ms)).
Proof. intros Hg Hp Hw Hr. apply serves_out. by eapply run_serves. Qed.

(** C10. A connection ends, whatever its input and whatever the handlers return: a run has no more
    steps than fourteen for each byte of the input and nine, and until both loops have
    ended one of them can go on; at most ten replies wait at any time. *)
Theorem http_connection_ends i (p : parser B) n c : nsteps (connection_step sv) n (connection_init i p) c ->
  Z.of_nat n <= 14 * zlen (in_pending i) + 9 /\ zlen (q_items (c_replies c)) <= 10 /\ (finished c \/ exists c', connection_step sv c c').
Proof.
  intros Hn. destruct (steps_left n _ c (init_sound i p) Hn) as [Hs Hl]. pose proof (left_nonneg c). split_and!.
  - unfold left_to_do at 2 in Hl. unfold connection_init, phase in Hl. simpl in Hl. rewrite q_items_make in Hl. change (zlen []) with 0 in Hl. lia.
  - apply Hs.
  - by apply sound_progress.
Qed.

End Serve.

(** ** Witnesses *)

Module Ex.

Import Core.Impl Build Buffers.

Definition http_conn : Type := connection bld (list (list Z)) (queue_list (option reply)).

(** A server with one handler, which sends the body back; [/stop] closes nothing, but fails. *)
Definition echo (h : handler) (path : sstring) (req : request) (rep : reply) : handler_outcome :=
  if bool_decide (path = bytes_of "/stop") then Failed (not_found_exception (bytes_of "stop"))
  else Replied (write_body_content (bytes_of "txt") (q_content req) rep).
Definition example_server : server :=
  Server echo (fun _ => []) [] (add_default_handler 1%nat routes_init) map_to_list (bytes_of "now") false 1000.

(** The steps of a schedule: [true] for the reader, [false] for the writer; a step that
    cannot be made is left out. *)
Definition move (b : bool) (c : http_conn) : option http_conn := if b then read_step example_server c else write_step example_server c.
Fixpoint drive (l : list bool) (c : http_conn) : http_conn :=
  match l with
  | [] => c
  | b :: l => drive l (match move b c with Some c => c | None => c end)
  end.

Lemma drive_run l c : rtc (connection_step example_server) c (drive l c).
Proof.
  revert c. induction l as [|b l IH]; intros c; [apply rtc_refl|]. cbn [drive].
  destruct (move b c) as [c'|] eqn:E; [|apply IH]. eapply rtc_l; [|apply IH]. destruct b; [by left|by right].
Qed.

Definition post : message :=
  Message (bytes_of "POST") (bytes_of "/a?x=1") (bytes_of "1.1")
    [HeaderText (bytes_of "content-length") [32] (bytes_of "3") []; HeaderText (bytes_of "Expect") [] (bytes_of "100-continue") []] [1; 2; 3].
Definition last_one : message :=
  Message (bytes_of "GET") (bytes_of "/stop") (bytes_of "1.0") [] [].
Definition messages : list message := [post; last_one; post].

Definition first_run : list bool := concat (replicate 40 [true; false]).
Definition final : http_conn := drive first_run (connection_init [take 30 (wires messages); drop 30 (wires messages)] (Parser 0 (Bld [] None) request_init [] [] PEof)).

(** Ten requests and a line that is none. *)
Definition ten : list message := replicate 10 (Message (bytes_of "GET") (bytes_of "/") (bytes_of "1.1") [] []).
Definition noise : sstring := bytes_of "what" ++ crlf.
Definition start_ten : http_conn := connection_init [wires ten; noise] (Parser 0 (Bld [] None) request_init [] [] PEof).
Definition bad_reply : reply := error_reply (set_line [] [] (bytes_of "1.1") request_init) 400 (bytes_of "Can't parse the request").
(** The reader first, then the writer; the two in turns. *)
Definition reader_first : list bool := replicate 80 true ++ replicate 12 false ++ [true; false; true; false].
Definition in_turns : list bool := concat (replicate 80 [true; false]).

Lemma messages_good : Forall (good_message example_server) messages.
Proof.
  assert (good_message example_server post) as Hp.
  { unfold good_message, good_request, good_header, good_text, blanks. split_and!; try done; try (by repeat constructor); try (by vm_compute).
    by exists 49, 49. }
  assert (good_message example_server last_one) as Hl.
  { unfold good_message, good_request. split_and!; try done; try (by repeat constructor); try (by vm_compute).
    by exists 49, 48. }
  by apply Forall_cons; split; [|apply Forall_cons; split; [|apply Forall_cons; split; [|constructor]]].
Qed.

End Ex.

Import Core.Impl Build Buffers.

(** The reply to a request that cannot be parsed is pushed without room being waited for: ten
    requests and a line that is none are answered with ten responses and a [400 Bad Request]
    when the loops take turns, but with the ten responses alone when the reader is so far
    ahead that the queue is full, and the connection ends the same way. *)
Theorem http_error_reply_lost : exists c1 c2 : Ex.http_conn,
  rtc (connection_step Ex.example_server) Ex.start_ten c1 /\ rtc (connection_step Ex.example_server) Ex.start_ten c2 /\
  finished c1 /\ finished c2 /\ c_served c1 = 11 /\ c_served c2 = 11 /\ c_read_errors c1 = 0 /\
  c_out c1 = sent_for Ex.example_server (answers Ex.example_server Ex.ten ++ [Ex.bad_reply]) /\
  c_out c2 = sent_for Ex.example_server (answers Ex.example_server Ex.ten).
Proof.
  exists (Ex.drive Ex.in_turns Ex.start_ten), (Ex.drive Ex.reader_first Ex.start_ten). split; [apply Ex.drive_run|]. split; [apply Ex.drive_run|].
  split_and!; by vm_compute.
Qed.

Lemma http_connection_serves_witness :
  c_out Ex.final = sent_for Ex.example_server (answers Ex.example_server Ex.messages) /\
  map p_status (answers Ex.example_server Ex.messages) = [100; 200; 404].
Proof.
  split; [|by vm_compute].
  refine (proj2 (http_connection_serves Ex.example_server Ex.messages _ _ Ex.final Ex.messages_good _ _ (Ex.drive_run Ex.first_run _)) _).
  - by vm_compute.
  - vm_compute. by repeat constructor.
  - by vm_compute.
Defined.

Lemma http_connection_ends_witness : finished Ex.final \/ exists c', connection_step Ex.example_server Ex.final c'.
Proof.
  destruct (proj1 (rtc_nsteps _ _) (Ex.drive_run Ex.first_run (connection_init [take 30 (wires Ex.messages); drop 30 (wires Ex.messages)]
    (Parser 0 (Build.Bld [] None) request_init [] [] PEof)))) as [n Hn].
  apply (http_connection_ends Ex.example_server _ _ n _ Hn).
Defined.
