(* ===== verification/HttpTransform.v ===== *)
(** * Files that are rewritten: src/http/transformers.cc, transformers.hh

    [content_replace] puts the protocol and the host of a request in place of
    [{{Protocol}}] and [{{Host}}] in a file that is sent.  The text comes in buffers cut
    anywhere; [replaced] says what the whole text becomes, and [replace_blocks_spec] that
    the buffers become it, where three braces do not follow one another. *)

From S2P Require Import Prelude Json Http HttpSpec HttpParser HttpReply.
From stdpp Require Import base numbers option gmap list strings.

#[local] Open Scope Z_scope.

Abbreviation brace := 123.
Abbreviation close_brace := 125.

(** ** [struct potential_match_entry], [class buffer_replace]

    [begin] and [end] are positions in the key of the value number [pos]; the state
    [_current] is the list of the matches that are left. *)

Record potential_match_entry := Entry { e_begin : nat; e_end : nat; e_pos : nat }.
Record buffer_replace := Replace { br_values : list (sstring * sstring); br_current : list potential_match_entry }.

Definition br_init : buffer_replace := Replace [] [].
Definition add_value (key value : sstring) (br : buffer_replace) : buffer_replace :=
  Replace (br_values br ++ [([brace; brace] ++ key ++ [close_brace; close_brace], value)]) (br_current br).
Definition is_consuming (br : buffer_replace) : bool := bool_decide (br_current br <> []).

(** [buffer_replace_state::get_pos], [get_remaining_length], [last]: there is a first match. *)
Definition get_pos (current : list potential_match_entry) : option nat := e_pos <$> head current.
Definition get_remaining_length (current : list potential_match_entry) : option nat :=
  (fun e => (e_end e - e_begin e)%nat) <$> head current.
Definition is_last (current : list potential_match_entry) : bool := (length current =? 1)%nat.

(** [find_braces(s, end)] *)
Fixpoint find_braces (s : sstring) : option nat :=
  match s with
  | [] => None
  | c :: s' => if (c =? brace) && match s' with [] => true | d :: _ => d =? brace end then Some 0%nat
               else S <$> find_braces s'
  end.

(** [strncmp(a, b, n) != 0]: the comparison ends behind a zero. *)
Fixpoint strncmp (n : nat) (a b : sstring) : bool :=
  match n, a, b with
  | S n, x :: a, y :: b => if x =? y then (if x =? 0 then false else strncmp n a b) else true
  | _, _, _ => false
  end.

(** [get_remaining()] *)
Definition get_remaining (vs : list (sstring * sstring)) (current : list potential_match_entry) : option sstring :=
  match current with
  | [] => Some []
  | _ => pos ← get_pos current; left ← get_remaining_length current; kv ← vs !! pos;
         Some (take (length (fst kv) - left) (fst kv))
  end.

(** The loop of [match(buf)]: the matches before the iterator and from it on.  What it
    gives is what is written, what is left of the buffer, and the matches that are left. *)
Fixpoint match_loop (vs : list (sstring * sstring)) (buf : sstring) (before from : list potential_match_entry)
    : option (sstring * sstring * list potential_match_entry) :=
  match from with
  | [] => Some ([], [], before)
  | first :: rest =>
    kv ← vs !! e_pos first;
    let len_compare := Nat.min (length buf) (e_end first - e_begin first) in
    if strncmp len_compare (drop (e_begin first) (fst kv)) buf then
      if is_last (before ++ from) then res ← get_remaining vs (before ++ from); Some (res, buf, [])
      else match_loop vs buf before rest
    else if (e_begin first + len_compare =? e_end first)%nat then
      pos ← get_pos (before ++ from); value ← vs !! pos; Some (snd value, drop len_compare buf, [])
    else match_loop vs buf (before ++ [Entry (e_begin first + len_compare) (e_end first) (e_pos first)]) rest
  end.

(** [replace(buf)]: what is written, what is left of the buffer. *)
Definition replace (buf : sstring) (br : buffer_replace) : option (sstring * sstring * buffer_replace) :=
  let vs := br_values br in
  match buf with
  | [] => Some ([], [], br)
  | _ =>
    if is_consuming br then
      '(res, buf, current) ← match_loop vs buf [] (br_current br); Some (res, buf, Replace vs current)
    else match find_braces buf with
         | Some start =>
           Some (take start buf, drop (S start) buf,
                 Replace vs (br_current br ++ imap (fun pos kv => Entry 1 (length (fst kv)) pos) vs))
         | None => Some (buf, [], br)
         end
  end.

(** [content_replace_data_sink_impl]: [put(buf)] repeats until the buffer is empty, [close()]
    writes what is being matched.  What is given is what [_out] is given. *)
Fixpoint put_loop (fuel : nat) (buf : sstring) (br : buffer_replace) : option (sstring * buffer_replace) :=
  match fuel with
  | O => None
  | S fuel =>
    '(res, buf, br) ← replace buf br;
    match buf with
    | [] => Some (res, br)
    | _ => '(out, br) ← put_loop fuel buf br; Some (res ++ out, br)
    end
  end.
Definition sink_put (buf : sstring) (br : buffer_replace) : option (sstring * buffer_replace) :=
  match buf with [] => Some ([], br) | _ => put_loop (2 * length buf + 2) buf br end.
Definition sink_close (br : buffer_replace) : option sstring :=
  if is_consuming br then get_remaining (br_values br) (br_current br) else Some [].

Fixpoint replace_blocks (blocks : list sstring) (br : buffer_replace) : option sstring :=
  match blocks with
  | [] => sink_close br
  | buf :: blocks => '(out, br) ← sink_put buf br; app out <$> replace_blocks blocks br
  end.

(** [content_replace(only)::transform(req, extension, s)] writes what it is given to [s],
    as it is ([None]) or through the sink.  [transform_blocks] is a file that is sent: it
    reaches the sink in blocks that the output stream makes. *)
Definition content_replace (only : sstring) (req : request) (extension : sstring) : option buffer_replace :=
  let host := get_header (bytes_of "Host") req in
  if bool_decide (host = []) || (bool_decide (only <> []) && bool_decide (extension <> only)) then None
  else Some (add_value (bytes_of "Host") host (add_value (bytes_of "Protocol") (q_protocol_name req) br_init)).
Definition transform_blocks (only : sstring) (req : request) (extension : sstring) (blocks : list sstring) : option sstring :=
  match content_replace only req extension with
  | None => Some (concat blocks)
  | Some br => replace_blocks blocks br
  end.

(** ** What a text becomes: each key, from the left, its value *)

Definition is_prefix (a b : sstring) : bool := bool_decide (a `prefix_of` b).
Definition key_at (vs : list (sstring * sstring)) (text : sstring) : option (sstring * sstring) :=
  List.find (fun kv => is_prefix (fst kv) text) vs.
Fixpoint replaced (vs : list (sstring * sstring)) (skip : nat) (text : sstring) : sstring :=
  match text with
  | [] => []
  | c :: rest =>
    match skip with
    | S skip => replaced vs skip rest
    | O => match key_at vs text with
           | Some (key, value) => value ++ replaced vs (pred (length key)) rest
           | None => c :: replaced vs 0 rest
           end
    end
  end.

Definition replace_values (protocol host : sstring) : list (sstring * sstring) :=
  [(bytes_of "{{Protocol}}", protocol); (bytes_of "{{Host}}", host)].

(** Three braces do not follow one another. *)
Definition no_three_braces (text : sstring) : Prop :=
  forall i, ~ (text !! i = Some brace /\ text !! S i = Some brace /\ text !! S (S i) = Some brace).

Definition sample_request : request := with_headers {[bytes_of "host" := bytes_of "a.b"]} request_init.

Example transform_ok :
  transform_blocks (bytes_of "json") sample_request (bytes_of "json")
    [bytes_of "x {{Pro"; bytes_of "tocol}}://{"; bytes_of "{Host}}/ {{y}} {{Ho"] = Some (bytes_of "x http://a.b/ {{y}} {{Ho")
  /\ replaced (replace_values (bytes_of "http") (bytes_of "a.b")) 0 (bytes_of "x {{Protocol}}://{{Host}}/ {{y}} {{Ho")
     = bytes_of "x http://a.b/ {{y}} {{Ho".
Proof. by vm_compute. Qed.

(** With three braces it depends on where the text is cut. *)
Example three_braces_cut :
  transform_blocks [] sample_request [] [bytes_of "{{{Host}}"] = Some (bytes_of "{a.b") /\
  transform_blocks [] sample_request [] [bytes_of "{{"; bytes_of "{Host}}"] = Some (bytes_of "{{{Host}}").
Proof. by vm_compute. Qed.

(** ** Keys in the text *)

Lemma strncmp_same n (a b : sstring) :
  0 ∉ a -> (n <= length a)%nat -> (n <= length b)%nat -> strncmp n a b = false <-> take n a = take n b.
Proof.
  revert a b. induction n as [|n IH]; intros [|x a] [|y b] H0 Ha Hb; simpl in *; try done; try lia.
  apply not_elem_of_cons in H0 as (Hx & H0).
  destruct (Z.eqb_spec x y) as [->|Hxy]; [|split; [done|intros E; by injection E]].
  destruct (Z.eqb_spec y 0) as [->|_]; [done|]. rewrite IH by (done || lia). split; [by intros ->|intros E; by injection E].
Qed.

(** Two texts of which one begins with the other. *)
Definition compatible (a b : sstring) : Prop := a `prefix_of` b \/ b `prefix_of` a.

Lemma prefixes_compatible (a b t : sstring) : a `prefix_of` t -> b `prefix_of` t -> compatible a b.
Proof. intros Ha Hb. destruct (prefix_weak_total a b t Ha Hb); [left|right]; done. Qed.

Lemma prefix_same (a b : sstring) : a `prefix_of` b -> length b = length a -> a = b.
Proof. intros (k & ->) H. rewrite length_app in H. destruct k; [by rewrite app_nil_r|simpl in H; lia]. Qed.

Section Values.
Variable vs : list (sstring * sstring).

(** A key is a name without braces and zero bytes, in pairs of braces. *)
Definition good_key (key : sstring) : Prop :=
  exists name, key = [brace; brace] ++ name ++ [close_brace; close_brace] /\ brace ∉ name /\ close_brace ∉ name /\ 0 ∉ name.
Hypothesis keys_good : Forall (fun kv => good_key (fst kv)) vs.
Hypothesis keys_distinct : NoDup (fst <$> vs).

Lemma key_good i kv : vs !! i = Some kv -> good_key (fst kv).
Proof. by apply (Forall_lookup_1 _ _ _ _ keys_good). Qed.

Lemma key_unique i j k v w : vs !! i = Some (k, v) -> vs !! j = Some (k, w) -> i = j.
Proof. intros Hi Hj. eapply NoDup_lookup; [exact keys_distinct|rewrite list_lookup_fmap, Hi; done|rewrite list_lookup_fmap, Hj; done]. Qed.

Lemma good_key_length k : good_key k -> (4 <= length k)%nat.
Proof. intros (n & -> & _). rewrite !length_app. simpl. lia. Qed.

Lemma good_key_no_zero k : good_key k -> 0 ∉ k.
Proof.
  intros (n & -> & _ & _ & H) E. repeat (apply elem_of_cons in E as [E|E]; [done|]). apply elem_of_app in E as [E|E]; [done|].
  by repeat (apply elem_of_cons in E as [E|E]; [done|]); apply elem_of_nil in E.
Qed.

(** A brace that opens is one of the first two bytes. *)
Lemma good_key_brace k i : good_key k -> k !! i = Some brace <-> (i < 2)%nat.
Proof.
  intros (n & -> & H & _ & _). destruct i as [|[|i]]; simpl; [split; [lia|done]..|].
  split; [|lia]. intros E. apply list_elem_of_lookup_2, elem_of_app in E as [E|E]; [done|].
  repeat (apply elem_of_cons in E as [E|E]; [done|]). by apply elem_of_nil in E.
Qed.

(** No key is a proper beginning of another. *)
Lemma good_keys_prefix k k' : good_key k -> good_key k' -> k `prefix_of` k' -> k = k'.
Proof.
  intros (n & -> & _ & Hc & _) (n' & -> & _ & Hc' & _) H. do 2 apply prefix_cons_inv_2 in H. do 2 f_equal.
  revert n' Hc' H. induction n as [|x n IH]; intros [|y n'] Hc' H; simpl in *.
  - done.
  - apply prefix_cons_inv_1 in H as <-. by apply not_elem_of_cons in Hc' as (Hc' & _).
  - apply prefix_cons_inv_1 in H as ->. by apply not_elem_of_cons in Hc as (Hc & _).
  - pose proof (prefix_cons_inv_1 _ _ _ _ H) as ->. apply prefix_cons_inv_2 in H.
    apply not_elem_of_cons in Hc as (_ & Hc), Hc' as (_ & Hc'). f_equal. auto.
Qed.

Lemma key_at_spec text kv :
  key_at vs text = Some kv <-> (exists i, vs !! i = Some kv) /\ fst kv `prefix_of` text.
Proof.
  unfold key_at. split.
  - intros H. apply List.find_some in H as (H & E). split; [by apply list_elem_of_lookup, list_elem_of_In|by apply bool_decide_eq_true in E].
  - intros ((i & Hi) & Hp). destruct (List.find _ vs) as [kv'|] eqn:E.
    + apply List.find_some in E as (E1 & E2). apply bool_decide_eq_true in E2.
      apply list_elem_of_In, list_elem_of_lookup in E1 as (j & Hj).
      assert (fst kv' = fst kv) as Ek.
      { destruct (prefixes_compatible _ _ _ E2 Hp); [|symmetry]; apply good_keys_prefix; eauto using key_good. }
      destruct kv as [k v], kv' as [k' v']. simpl in Ek. subst k'. pose proof (key_unique _ _ _ _ _ Hi Hj) as ->. congruence.
    + assert (is_prefix (fst kv) text = false) as Ef; [|unfold is_prefix in Ef; by apply bool_decide_eq_false in Ef].
      apply (List.find_none _ _ E). by apply list_elem_of_In, list_elem_of_lookup; eauto.
Qed.

Lemma key_at_none text : key_at vs text = None <-> forall i kv, vs !! i = Some kv -> ~ fst kv `prefix_of` text.
Proof.
  split.
  - intros E i kv Hi Hp. enough (key_at vs text = Some kv) by congruence. apply key_at_spec. eauto.
  - intros H. destruct (key_at vs text) as [kv|] eqn:E; [|done]. apply key_at_spec in E as ((i & Hi) & Hp). by destruct (H i kv Hi).
Qed.

Lemma key_at_brace text : (forall c d s, text = c :: d :: s -> ~ (c = brace /\ d = brace)) -> key_at vs text = None.
Proof.
  intros H. apply key_at_none. intros i kv Hi Hp. apply key_good in Hi as (n & E & _). rewrite E in Hp.
  destruct Hp as (s & ->). by eapply H.
Qed.

Lemma replaced_skip n text : replaced vs n text = replaced vs 0 (drop n text).
Proof. revert n. induction text as [|c text IH]; intros [|n]; simpl; auto. Qed.

Lemma replaced_key i k v text : vs !! i = Some (k, v) -> replaced vs 0 (k ++ text) = v ++ replaced vs 0 text.
Proof.
  intros Hi. assert (key_at vs (k ++ text) = Some (k, v)) as E by (apply key_at_spec; split; [eauto|by apply prefix_app_r]).
  pose proof (good_key_length _ (key_good _ _ Hi)) as Hl. destruct k as [|c k]; [simpl in Hl; lia|]. cbn [app replaced] in E |- *.
  rewrite E, replaced_skip. simpl. by rewrite drop_app_length.
Qed.

(** A text in which no key begins is left as it is. *)
Lemma replaced_app a text : (forall i, (i < length a)%nat -> key_at vs (drop i (a ++ text)) = None) -> replaced vs 0 (a ++ text) = a ++ replaced vs 0 text.
Proof.
  induction a as [|c a IH]; intros H; [done|]. cbn [app replaced].
  pose proof (H 0%nat ltac:(simpl; lia)) as H0. cbn [app drop] in H0. rewrite H0. f_equal.
  apply IH. intros i Hi. apply (H (S i)). simpl. lia.
Qed.

Lemma find_braces_spec s T :
  match find_braces s with
  | Some i => s !! i = Some brace /\ forall j, (j < i)%nat -> key_at vs (drop j (s ++ T)) = None
  | None => forall j, (j < length s)%nat -> key_at vs (drop j (s ++ T)) = None
  end.
Proof.
  induction s as [|c s IH]; simpl; [lia|].
  destruct ((c =? brace) && _) eqn:E; [apply andb_true_iff in E as (E%Z.eqb_eq & _); subst c; split; [done|lia]|].
  assert (s <> [] \/ c <> brace -> key_at vs (c :: s ++ T) = None) as H0.
  { intros Hs. apply key_at_brace. intros c' d t Et (-> & ->). injection Et as -> Et. destruct s as [|e s]; [naive_solver|].
    injection Et as -> Et. by rewrite !Z.eqb_refl in E. }
  assert (s <> [] \/ c <> brace) as Hs by (destruct s; [right; apply Z.eqb_neq; by rewrite <- (andb_true_r (c =? brace))|by left]). specialize (H0 Hs).
  destruct (find_braces s) as [i|]; simpl.
  - destruct IH as (Hi & IH). split; [done|]. intros [|j] Hj; [done|]. simpl. apply IH. lia.
  - intros [|j] Hj; [done|]. simpl. apply IH. lia.
Qed.

(** ** The matches that are left stand for the keys that begin with what was consumed *)

Definition entry_for (c : sstring) (e : potential_match_entry) : Prop :=
  exists kv, vs !! e_pos e = Some kv /\ e_begin e = length c /\ e_end e = length (fst kv) /\
             c `prefix_of` fst kv /\ (length c < length (fst kv))%nat.
Definition covers (c buf : sstring) (current : list potential_match_entry) : Prop :=
  forall i kv, vs !! i = Some kv -> c `prefix_of` fst kv -> compatible (c ++ buf) (fst kv) -> i ∈ e_pos <$> current.

Definition pending (c : sstring) (br : buffer_replace) : Prop :=
  br_values br = vs /\
  (c = [] /\ br_current br = [] \/
   c <> [] /\ br_current br <> [] /\ Forall (entry_for c) (br_current br) /\ covers c [] (br_current br)).

Lemma compatible_take a b : compatible a b <-> take (Nat.min (length a) (length b)) a = take (Nat.min (length a) (length b)) b.
Proof.
  split.
  - intros [(r & ->)|(r & ->)]; rewrite length_app.
    + rewrite Nat.min_l by lia. rewrite take_app_le by lia. done.
    + rewrite Nat.min_r by lia. rewrite (take_app_le b) by lia. done.
  - intros E. destruct (Nat.min_spec (length a) (length b)) as [(H & Hm)|(H & Hm)]; rewrite Hm in E.
    + left. rewrite firstn_all in E. exists (drop (length a) b). rewrite E at 1. by rewrite take_drop.
    + right. rewrite firstn_all in E. exists (drop (length b) a). rewrite <- E at 1. by rewrite take_drop.
Qed.

Lemma compatible_app c a b : compatible (c ++ a) (c ++ b) <-> compatible a b.
Proof.
  unfold compatible. split; (intros [H|H]; [left|right]); first [by apply prefix_app_inv in H | by apply prefix_app].
Qed.

(** The comparison of [match]. *)
Lemma entry_compares c e buf kv :
  entry_for c e -> vs !! e_pos e = Some kv ->
  strncmp (Nat.min (length buf) (e_end e - e_begin e)) (drop (e_begin e) (fst kv)) buf = false <-> compatible (c ++ buf) (fst kv).
Proof.
  intros (kv' & E & Eb & Ee & (r & Hr) & Hl) E'. rewrite E' in E. injection E as <-. rewrite Eb, Ee.
  pose proof (good_key_no_zero _ (key_good _ _ E')) as H0. rewrite Hr in H0 |- *. rewrite drop_app_length, length_app.
  replace (length c + length r - length c)%nat with (length r) by lia. rewrite strncmp_same, compatible_app, compatible_take by (rewrite elem_of_app in H0; first [tauto|lia]).
  split; by intros ->.
Qed.

(** What a match leaves: matches with more consumed, a key that was read, or none. *)
Inductive match_outcome (c buf : sstring) : sstring * sstring * list potential_match_entry -> Prop :=
  | outcome_partial current : current <> [] -> Forall (entry_for (c ++ buf)) current -> covers (c ++ buf) [] current ->
      match_outcome c buf ([], [], current)
  | outcome_key i k v buf' : vs !! i = Some (k, v) -> c ++ buf = k ++ buf' -> (length buf' < length buf)%nat -> match_outcome c buf (v, buf', [])
  | outcome_none i kv : vs !! i = Some kv -> c `prefix_of` fst kv -> (length c < length (fst kv))%nat ->
      (forall T i kv, vs !! i = Some kv -> ~ fst kv `prefix_of` c ++ buf ++ T) ->
      match_outcome c buf (c, buf, []).

Lemma key_not_longer i j kv kv' c : vs !! i = Some kv -> vs !! j = Some kv' -> fst kv `prefix_of` c -> c `prefix_of` fst kv' -> (length (fst kv') <= length c)%nat.
Proof.
  intros Hi Hj H H'. rewrite <- (good_keys_prefix _ _ (key_good _ _ Hi) (key_good _ _ Hj) ltac:(by etrans)). by apply prefix_length.
Qed.

(** When the only match that is left fails, no key begins with what was consumed. *)
Lemma last_match_fails c e kv buf T i kv' :
  entry_for c e -> vs !! e_pos e = Some kv -> ~ compatible (c ++ buf) (fst kv) -> covers c buf [e] -> vs !! i = Some kv' ->
  ~ fst kv' `prefix_of` c ++ buf ++ T.
Proof.
  intros (kv0 & Hkv & _ & _ & Hp & Hl) Hkv' Hno Hc Hi Hk. rewrite Hkv in Hkv'. injection Hkv' as ->.
  assert (c ++ buf `prefix_of` c ++ buf ++ T) as Hcb by (rewrite app_assoc; by apply prefix_app_r).
  destruct (prefixes_compatible _ _ _ Hk (prefix_app_r c c (buf ++ T) ltac:(done))) as [H|H].
  - pose proof (key_not_longer _ _ _ _ _ Hi Hkv H Hp). lia.
  - pose proof (Hc i _ Hi H (prefixes_compatible _ _ _ Hcb Hk)) as Hin. simpl in Hin. apply list_elem_of_singleton in Hin as ->.
    rewrite Hkv in Hi. injection Hi as ->. by apply Hno, (prefixes_compatible _ _ _ Hcb).
Qed.

Lemma match_loop_outcome c buf before from :
  buf <> [] -> before ++ from <> [] -> Forall (entry_for (c ++ buf)) before -> Forall (entry_for c) from -> covers c buf (before ++ from) ->
  exists o, match_loop vs buf before from = Some o /\ match_outcome c buf o.
Proof.
  intros Hbuf. revert before. induction from as [|e rest IH]; intros before Hne Hb Hf Hc.
  - rewrite app_nil_r in Hne, Hc. eexists; split; [done|]. apply outcome_partial; [done..|].
    intros i kv Hi Hp _. apply (Hc i kv Hi); [|by left]. etrans; [|exact Hp]. by apply prefix_app_r.
  - apply Forall_cons in Hf as (He & Hf). pose proof He as (kv & Hkv & Eb & Ee & Hp & Hl). cbn [match_loop]. rewrite Hkv. cbn [mbind option_bind].
    pose proof (entry_compares c e buf kv He Hkv) as Hcmp. set (n := Nat.min _ _) in *.
    destruct (strncmp n _ buf).
    + assert (~ compatible (c ++ buf) (fst kv)) as Hno by (intros H; by apply Hcmp in H).
      unfold is_last. destruct (Nat.eqb_spec (length (before ++ e :: rest)) 1) as [H1|H1].
      * assert (before = [] /\ rest = []) as (-> & ->) by (rewrite length_app in H1; destruct before, rest; simpl in H1; (done || lia)).
        simpl. rewrite Hkv. cbn [mbind option_bind]. rewrite Eb, Ee. eexists; split; [done|].
        replace (take _ (fst kv)) with c; [apply (outcome_none _ _ (e_pos e) kv); try done; eauto using last_match_fails|].
        destruct Hp as (r & ->). rewrite length_app. replace (_ - _)%nat with (length c) by lia. by rewrite take_app_length.
      * apply (IH before); [|done..|].
        -- intros H. apply H1. destruct before; [|done]. simpl in H. by subst rest.
        -- intros i kv' Hi Hp' Hc'. specialize (Hc i kv' Hi Hp' Hc'). rewrite fmap_app, fmap_cons, elem_of_app, elem_of_cons in Hc. rewrite fmap_app, elem_of_app.
           destruct Hc as [Hc|[->|Hc]]; [by left| |by right]. rewrite Hkv in Hi. by injection Hi as <-.
    + assert (compatible (c ++ buf) (fst kv)) as Hyes by (by apply Hcmp). clear Hcmp. destruct kv as [k v], Hp as (r & Hr). simpl in *. subst k.
      apply compatible_app in Hyes. rewrite length_app in Hl, Ee. assert (n = Nat.min (length buf) (length r)) as En by (unfold n; f_equal; lia). clearbody n.
      destruct (Nat.eqb_spec (e_begin e + n) (e_end e)) as [Hn|Hn].
      * assert (r `prefix_of` buf) as (b' & ->).
        { destruct Hyes as [H|H]; [|done]. assert (buf = r) as ->; [|done]. apply prefix_same; [done|]. apply prefix_length in H. lia. }
        destruct before as [|d before].
        -- simpl. rewrite Hkv. cbn [mbind option_bind]. eexists; split; [done|]. replace n with (length r) by lia. rewrite drop_app_length.
           apply (outcome_key _ _ (e_pos e) (c ++ r)); [done|by rewrite app_assoc|rewrite length_app; lia].
        -- exfalso. apply Forall_cons in Hb as ((kd & Hd & _ & _ & Hpd & Hld) & _).
           pose proof (key_not_longer _ _ _ _ (c ++ r ++ b') Hkv Hd ltac:(simpl; rewrite app_assoc; by apply prefix_app_r) Hpd). lia.
      * assert (length buf < length r)%nat as Hlt by lia. assert (n = length buf) as -> by lia.
        assert (buf `prefix_of` r) as Hpre by (destruct Hyes as [H|H]; [done|apply prefix_length in H; lia]).
        apply (IH (before ++ [Entry (e_begin e + length buf) (e_end e) (e_pos e)])); [by destruct before| |done|].
        -- apply Forall_app; split; [done|]. apply Forall_singleton. exists (c ++ r, v). simpl. rewrite !length_app.
           repeat split; [done|lia|lia|by apply prefix_app|lia].
        -- intros i kv' Hi Hp' Hc'. specialize (Hc i kv' Hi Hp' Hc'). rewrite <- app_assoc. by rewrite fmap_app in Hc |- *.
Qed.

(** ** One buffer *)

Lemma no_three_suffix p t : no_three_braces (p ++ t) -> no_three_braces t.
Proof.
  intros H i Hi. apply (H (length p + i)%nat). rewrite <- !Nat.add_succ_r. by rewrite !(lookup_app_r p) by lia; rewrite !Nat.add_sub_swap, !Nat.sub_diag by lia.
Qed.

(** What was consumed is written as it is when no key begins with it. *)
Lemma pending_plain c i kv T :
  vs !! i = Some kv -> c `prefix_of` fst kv -> (length c < length (fst kv))%nat ->
  (forall i kv, vs !! i = Some kv -> ~ fst kv `prefix_of` c ++ T) -> no_three_braces (c ++ T) ->
  replaced vs 0 (c ++ T) = c ++ replaced vs 0 T.
Proof.
  intros Hi (r & Hr) Hl Hno H3. pose proof (key_good _ _ Hi) as Hg. apply replaced_app. intros [|j] Hj; [by apply key_at_none|].
  apply key_at_brace. intros x y s Es (-> & ->).
  assert (forall m, (m < length c)%nat -> fst kv !! m = (c ++ T) !! m) as Hc by (intros m Hm; by rewrite Hr, !lookup_app_l).
  assert (forall m, drop (S j) (c ++ T) !! m = (c ++ T) !! (S j + m)%nat) as Hd by (intros m; by rewrite lookup_drop). rewrite Es in Hd.
  assert (j = 0%nat) as ->.
  { enough (S j < 2)%nat by lia. rewrite <- (good_key_brace (fst kv)), Hc by done. specialize (Hd 0%nat). by rewrite Nat.add_0_r in Hd. }
  assert ((c ++ T) !! 0%nat = Some brace) as H0 by (rewrite <- Hc by lia; apply good_key_brace; [done|lia]).
  apply (H3 0%nat). destruct (c ++ T) as [|z l]; [done|]. simpl in *. rewrite drop_0 in Es. by subst l.
Qed.

Definition measure (buf c : sstring) : nat := 2 * length buf + match c with [] => 0 | _ => 1 end.

Hypothesis some_value : vs <> [].

Lemma first_matches :
  pending [brace] (Replace vs (imap (fun pos kv => Entry 1 (length (fst kv)) pos) vs)).
Proof.
  split; [done|]. right. simpl. split; [done|]. split; [|split].
  - destruct vs; [by destruct some_value|done].
  - apply Forall_lookup. intros i e Hi. rewrite list_lookup_imap in Hi. destruct (vs !! i) as [kv|] eqn:E; [|done].
    injection Hi as <-. pose proof (key_good _ _ E) as Hg. pose proof (good_key_length _ Hg). exists kv. simpl.
    repeat split; [done| |lia]. destruct Hg as (n & -> & _). by eexists.
  - intros i kv Hi _ _. apply list_elem_of_lookup. exists i. by rewrite list_lookup_fmap, list_lookup_imap, Hi.
Qed.

Lemma replace_step c buf br T :
  pending c br -> buf <> [] -> no_three_braces (c ++ buf ++ T) ->
  exists res buf' br' c' p, replace buf br = Some (res, buf', br') /\ pending c' br' /\
    replaced vs 0 (c ++ buf ++ T) = res ++ replaced vs 0 (c' ++ buf' ++ T) /\
    c ++ buf ++ T = p ++ c' ++ buf' ++ T /\ (measure buf' c' < measure buf c)%nat.
Proof.
  intros (Hvs & Hcur) Hbuf H3. unfold replace. rewrite Hvs. destruct buf as [|x buf]; [done|]. set (b := x :: buf) in *.
  destruct Hcur as [(-> & Hcur)|(Hc & Hcur & He & Hcov)]; unfold is_consuming.
  - rewrite bool_decide_false by (rewrite Hcur; auto). rewrite Hcur. cbn [app] in *.
    pose proof (find_braces_spec b T) as Hf. destruct (find_braces b) as [start|].
    + destruct Hf as (Hb & Hf). pose proof (lookup_lt_Some _ _ _ Hb) as Hlt. pose proof (take_drop_middle b start brace Hb) as Hm.
      assert (b ++ T = take start b ++ ([brace] ++ drop (S start) b ++ T)) as Es by (rewrite <- Hm at 1; by rewrite <- app_assoc).
      exists (take start b), (drop (S start) b), (Replace vs (imap (fun pos kv => Entry 1 (length (fst kv)) pos) vs)), [brace], (take start b).
      split; [done|]. split; [exact first_matches|]. split; [|split].
      * rewrite Es at 1. apply replaced_app. intros i Hi. rewrite length_take in Hi. rewrite <- Es. apply Hf. lia.
      * exact Es.
      * unfold measure. rewrite length_drop. lia.
    + exists b, [], br, [], b. split; [done|]. split; [by split; [|left]|]. split; [by apply replaced_app|]. split; [done|]. unfold measure, b. simpl. lia.
  - rewrite bool_decide_true by done.
    destruct (match_loop_outcome c b [] (br_current br) Hbuf Hcur (Forall_nil_2 _) He) as (o & -> & Ho).
    { intros i kv Hi Hp _. apply (Hcov i kv Hi Hp). rewrite app_nil_r. by left. }
    cbn [mbind option_bind]. assert (b <> [] -> measure b c = S (2 * length b)) as Hm by (unfold measure; destruct c; [done|lia]). specialize (Hm Hbuf).
    destruct Ho as [cur' Hne He' Hcov'|i k v buf' Hi E Hl|i kv Hi Hp Hl Hno].
    + exists [], [], (Replace vs cur'), (c ++ b), []. split; [done|]. split; [split; [done|right; split; [by destruct c|done]]|].
      cbn [app]. rewrite app_assoc. split; [done|]. split; [done|]. rewrite Hm. unfold measure, b. destruct c; simpl; lia.
    + exists v, buf', (Replace vs []), [], k. split; [done|]. split; [by split; [|left]|]. cbn [app]. rewrite !app_assoc, E, <- !app_assoc.
      split; [by eapply replaced_key|]. split; [done|]. rewrite Hm. unfold measure. lia.
    + exists c, b, (Replace vs []), [], c. split; [done|]. split; [by split; [|left]|]. cbn [app].
      split; [exact (pending_plain c i kv (b ++ T) Hi Hp Hl (Hno T) H3)|]. split; [done|]. rewrite Hm. unfold measure. lia.
Qed.

Lemma put_loop_spec fuel c buf br T :
  pending c br -> buf <> [] -> no_three_braces (c ++ buf ++ T) -> (measure buf c < fuel)%nat ->
  exists out br' c' p, put_loop fuel buf br = Some (out, br') /\ pending c' br' /\
    replaced vs 0 (c ++ buf ++ T) = out ++ replaced vs 0 (c' ++ T) /\ c ++ buf ++ T = p ++ c' ++ T.
Proof.
  revert c buf br. induction fuel as [|fuel IH]; intros c buf br Hp Hb H3 Hf; [lia|].
  destruct (replace_step c buf br T Hp Hb H3) as (res & buf' & br' & c' & p & Hr & Hp' & HR & Hs & Hm).
  cbn [put_loop]. rewrite Hr. cbn [mbind option_bind]. destruct buf' as [|x buf'].
  - exists res, br', c', p. done.
  - rewrite Hs in H3. apply no_three_suffix in H3.
    destruct (IH c' (x :: buf') br' Hp' ltac:(done) H3 ltac:(lia)) as (out & br2 & c2 & p2 & -> & Hp2 & HR2 & Hs2).
    exists (res ++ out), br2, c2, (p ++ p2). split; [done|]. split; [done|]. rewrite HR, HR2, Hs, Hs2, <- !app_assoc. done.
Qed.

(** However the text is cut, what is written is the text with its keys replaced. *)
Lemma replace_blocks_spec c blocks br :
  pending c br -> no_three_braces (c ++ concat blocks) -> replace_blocks blocks br = Some (replaced vs 0 (c ++ concat blocks)).
Proof.
  revert c br. induction blocks as [|buf blocks IH]; intros c br Hp H3; cbn [replace_blocks concat] in *.
  - rewrite app_nil_r in H3 |- *. destruct Hp as (Hvs & [(-> & Hcur)|(Hc & Hcur & He & _)]); unfold sink_close, is_consuming.
    + by rewrite bool_decide_false by (rewrite Hcur; auto).
    + rewrite bool_decide_true by done. destruct (br_current br) as [|e cur]; [done|].
      apply Forall_cons in He as ((kv & Hkv & Eb & Ee & Hpre & Hl) & _). simpl. rewrite Hvs, Hkv. cbn [mbind option_bind]. rewrite Eb, Ee. f_equal.
      replace (take _ (fst kv)) with c; [|destruct Hpre as (r & ->); rewrite length_app; replace (_ - _)%nat with (length c) by lia; by rewrite take_app_length].
      rewrite <- (app_nil_r c) in H3. pose proof (pending_plain c _ kv [] Hkv Hpre Hl) as H. rewrite app_nil_r in H, H3. simpl in H. rewrite app_nil_r in H. symmetry. apply H; [|done].
      intros i kv' Hi Hk. pose proof (key_not_longer _ _ _ _ _ Hi Hkv Hk Hpre). lia.
  - unfold sink_put. destruct buf as [|x buf]; [cbn [mbind option_bind app]; rewrite (IH c br Hp H3); done|]. set (b := x :: buf) in *.
    destruct (put_loop_spec (2 * length b + 2) c b br (concat blocks) Hp ltac:(done) H3) as (out & br' & c' & p & -> & Hp' & HR & Hs).
    { unfold measure. destruct c; lia. }
    cbn [mbind option_bind]. rewrite Hs in H3. apply no_three_suffix in H3. rewrite (IH c' br' Hp' H3), HR. done.
Qed.
End Values.

Lemma good_name name : brace ∉ name -> close_brace ∉ name -> 0 ∉ name -> good_key ([brace; brace] ++ name ++ [close_brace; close_brace]).
Proof. intros. exists name. done. Qed.

(** C25. A file that is sent through the transformer: whatever the blocks in which its text
    reaches it, what is written is the text with the protocol and the host of the request in
    place of their keys, if three braces do not follow one another in it; without a host, and
    for another extension, it is the text itself. *)
Theorem content_replaced (only : sstring) (req : request) (extension : sstring) (blocks : list sstring) :
  no_three_braces (concat blocks) ->
  let host := get_header (bytes_of "Host") req in
  transform_blocks only req extension blocks =
    Some (if bool_decide (host <> [] /\ (only = [] \/ extension = only))
          then replaced (replace_values (q_protocol_name req) host) 0 (concat blocks) else concat blocks).
Proof.
  intros H3 host. unfold transform_blocks, content_replace. fold host. destruct (decide (host = [])) as [->|Hh].
  - rewrite bool_decide_true by done. rewrite (bool_decide_false (_ /\ _)) by (intros (H & _); done). done.
  - rewrite (bool_decide_false (host = [])) by done. cbn [orb].
    destruct (decide (only = [] \/ extension = only)) as [Ho|Ho].
    + rewrite (bool_decide_true (host <> [] /\ _)) by done. replace (_ && _) with false by (symmetry; apply andb_false_iff; rewrite !bool_decide_eq_false; destruct Ho; [left|right]; tauto).
      apply (replace_blocks_spec (replace_values (q_protocol_name req) host)) with (c := []); [..|by split; [|left]|done].
      * apply Forall_cons_2; [|apply Forall_cons_2; [|apply Forall_nil_2]];
          [apply (good_name (bytes_of "Protocol"))|apply (good_name (bytes_of "Host"))]; apply (bool_decide_unpack _); exact I.
      * apply (bool_decide_unpack _); exact I.
      * done.
    + rewrite (bool_decide_false (host <> [] /\ _)) by tauto. rewrite !bool_decide_true by tauto. done.
Qed.

Lemma content_replaced_witness :
  no_three_braces (bytes_of "x {{Host}}") /\
  transform_blocks [] sample_request [] [bytes_of "x {{Ho"; bytes_of "st}}"] =
    Some (replaced (replace_values (bytes_of "http") (bytes_of "a.b")) 0 (bytes_of "x {{Host}}")).
Proof.
  assert (no_three_braces (bytes_of "x {{Host}}")) as H.
  { intros i (H1 & H2 & H3). do 10 (destruct i as [|i]; [by vm_compute in H1, H2, H3|]). by vm_compute in H1. }
  split; [exact H|]. exact (content_replaced [] sample_request [] [bytes_of "x {{Ho"; bytes_of "st}}"] H).
Defined.
