(* ===== verification/HttpResponse.v ===== *)
(** * The response parser: include/nil/actor/http/response_parser.hh (from src/http/response_parser.rl)

    The state machine by its transitions, and the abstract machine on texts, as for requests
    (HttpParser.v, HttpParserSpec.v).  What the server writes, in [HttpReply], is what it
    reads: [http_response_parsed].  Lines that go on with a header are not: their texts are
    taken where none is marked. *)

From S2P Require Import Prelude Json Http HttpUrl HttpParser HttpParserSpec HttpReply HttpReplySpec.
From stdpp Require Import base numbers option gmap list strings.

#[local] Open Scope Z_scope.

(** ** [struct http_response], the actions *)

Record http_response := HttpResponse { rs_version : sstring; rs_headers : gmap sstring sstring }.

Inductive response_action := RMark | RVersion | RName | RValue | RAssign | RExtend | RDone.

Section Parser.
Context {B : Type} {SB : StringBuilder B}.

Record response_parser := ResponseParser {
  rp_cs : Z; rp_builder : B; rp_rsp : http_response; rp_name : sstring; rp_value : sstring; rp_state : pstate }.

(** [init()] *)
Definition response_init (s : response_parser) : response_parser :=
  ResponseParser 1 sb_reset (HttpResponse [] ∅) (rp_name s) (rp_value s) PEof.

(** An action at the position [p] of a block; [str()] ends what is marked.  The text that
    is moved out of [_value] is taken to leave it empty. *)
Definition response_act (blk : sstring) (p : nat) (a : response_action) (s : response_parser) : response_parser :=
  let r := rp_rsp s in
  let '(t, b) := get_str (mark_end blk p (rp_builder s)) in
  match a with
  | RMark => ResponseParser (rp_cs s) (mark_start (Some p) (rp_builder s)) r (rp_name s) (rp_value s) (rp_state s)
  | RVersion => ResponseParser (rp_cs s) b (HttpResponse t (rs_headers r)) (rp_name s) (rp_value s) (rp_state s)
  | RName => ResponseParser (rp_cs s) b r t (rp_value s) (rp_state s)
  | RValue => ResponseParser (rp_cs s) b r (rp_name s) t (rp_state s)
  | RAssign => ResponseParser (rp_cs s) (rp_builder s) (HttpResponse (rs_version r) (<[rp_name s := rp_value s]> (rs_headers r))) (rp_name s) [] (rp_state s)
  | RExtend =>
    ResponseParser (rp_cs s) (rp_builder s)
      (HttpResponse (rs_version r) (<[rp_name s := default [] (rs_headers r !! rp_name s) ++ bytes_of " " ++ rp_value s]> (rs_headers r)))
      (rp_name s) [] (rp_state s)
  | RDone => s
  end.
End Parser.
Arguments response_parser B : clear implicits.

(** ** The transitions; [None] is [goto _st0]. *)

Definition is_space (c : Z) : bool := (c =? 32) || ((9 <=? c) && (c <=? 13)).

(** The version, the code, the reason, to the end of the line. *)
Definition from_start_line (cs c : Z) : option (list response_action * Z) :=
  match cs with
  | 1 => if c =? 72 then Some ([], 2) else None
  | 2 => if c =? 84 then Some ([], 3) else None
  | 3 => if c =? 84 then Some ([], 4) else None
  | 4 => if c =? 80 then Some ([], 5) else None
  | 5 => if c =? 47 then Some ([], 6) else None
  | 6 => if is_digit c then Some ([RMark], 7) else None
  | 7 => if c =? 46 then Some ([], 8) else None
  | 8 => if is_digit c then Some ([], 9) else None
  | 9 => if is_space c then Some ([RVersion], 10) else None
  | 10 => if is_digit c then Some ([], 11) else None
  | 11 => if is_digit c then Some ([], 12) else None
  | 12 => if is_digit c then Some ([], 13) else None
  | 13 => if is_space c then Some ([], 14) else None
  | 14 => if c =? 10 then None else if c =? 13 then Some ([], 15) else Some ([], 14)
  | 15 => if c =? 10 then Some ([], 16) else None
  | _ => None
  end.
(** A header or the empty line; the end; a name and the blanks behind it. *)
Definition from_response_name (cs c : Z) : option (list response_action * Z) :=
  match cs with
  | 16 => if c =? 13 then Some ([], 17) else if is_tchar c then Some ([RMark], 18) else None
  | 17 => if c =? 10 then Some ([RDone], 34) else None
  | 18 => if is_blank c then Some ([RName], 19) else if c =? 58 then Some ([RName], 20) else if is_tchar c then Some ([], 18) else None
  | 19 => if is_blank c then Some ([], 19) else if c =? 58 then Some ([], 20) else None
  | _ => None
  end.
(** The text of a header, and behind its line. *)
Definition from_response_value (cs c : Z) : option (list response_action * Z) :=
  match cs with
  | 20 => if c =? 13 then Some ([RMark; RValue], 22) else Some ([RMark], 21)
  | 21 => if c =? 13 then Some ([RValue], 22) else Some ([], 21)
  | 22 => if c =? 10 then Some ([], 23) else None
  | 23 => if is_blank c then Some ([RAssign], 24) else if c =? 13 then Some ([RAssign], 17)
          else if is_tchar c then Some ([RAssign; RMark], 18) else None
  | _ => None
  end.
(** A line that goes on with a header. *)
Definition from_folded (cs c : Z) : option (list response_action * Z) :=
  match cs with
  | 24 => if is_blank c then Some ([RMark; RValue], 24) else if c =? 13 then Some ([RMark; RValue], 26) else Some ([RMark], 25)
  | 25 => if is_blank c then Some ([RValue], 25) else if c =? 13 then Some ([RValue], 26) else Some ([], 25)
  | 26 => if is_blank c then Some ([RValue], 25) else if c =? 10 then Some ([], 27) else if c =? 13 then Some ([RValue], 26) else Some ([], 25)
  | _ => None
  end.
(** Behind such a line: another, the end, or a header, of which the text may be more of it. *)
Definition from_folded_name (cs c : Z) : option (list response_action * Z) :=
  match cs with
  | 27 => if is_blank c then Some ([RValue; RExtend], 24) else if c =? 13 then Some ([RExtend], 17)
          else if is_tchar c then Some ([RExtend; RMark], 28) else Some ([], 25)
  | 28 => if is_blank c then Some ([RName; RValue], 29) else if c =? 13 then Some ([RValue], 26)
          else if c =? 58 then Some ([RName], 30) else if is_tchar c then Some ([], 28) else Some ([], 25)
  | 29 => if is_blank c then Some ([RValue], 29) else if c =? 13 then Some ([RValue], 26)
          else if c =? 58 then Some ([], 30) else Some ([], 25)
  | _ => None
  end.
Definition from_folded_value (cs c : Z) : option (list response_action * Z) :=
  match cs with
  | 30 => if is_blank c then Some ([RMark; RValue], 31) else if c =? 13 then Some ([RMark; RValue], 32) else Some ([RMark], 31)
  | 31 => if is_blank c then Some ([RValue], 31) else if c =? 13 then Some ([RValue], 32) else Some ([], 31)
  | 32 => if is_blank c then Some ([RValue], 25) else if c =? 10 then Some ([], 33) else if c =? 13 then Some ([RValue], 26) else Some ([], 25)
  | 33 => if is_blank c then Some ([RAssign; RValue; RExtend], 24) else if c =? 13 then Some ([RAssign; RExtend], 17)
          else if is_tchar c then Some ([RAssign; RExtend; RMark], 28) else Some ([], 25)
  | _ => None
  end.

Definition response_transition (cs c : Z) : option (list response_action * Z) :=
  if cs <=? 15 then from_start_line cs c
  else if cs <=? 19 then from_response_name cs c
  else if cs <=? 23 then from_response_value cs c
  else if cs <=? 26 then from_folded cs c
  else if cs <=? 29 then from_folded_name cs c
  else from_folded_value cs c.

Section Parse.
Context {B : Type} {SB : StringBuilder B}.

Definition with_cs (cs : Z) (s : response_parser B) : response_parser B :=
  ResponseParser cs (rp_builder s) (rp_rsp s) (rp_name s) (rp_value s) (rp_state s).
Definition with_builder (b : B) (s : response_parser B) : response_parser B :=
  ResponseParser (rp_cs s) b (rp_rsp s) (rp_name s) (rp_value s) (rp_state s).
Definition with_state (t : pstate) (s : response_parser B) : response_parser B :=
  ResponseParser (rp_cs s) (rp_builder s) (rp_rsp s) (rp_name s) (rp_value s) t.

Fixpoint response_exec (blk rest : sstring) (p : nat) (s : response_parser B) : response_parser B * nat * bool :=
  match rest with
  | [] => (s, p, false)
  | c :: rest =>
    match response_transition (rp_cs s) (schar c) with
    | None => (with_cs 0 s, p, false)
    | Some (acts, cs) =>
      let s := with_cs cs (foldl (fun s a => response_act blk p a s) s acts) in
      if cs =? 34 then (s, S p, true) else response_exec blk rest (S p) s
    end
  end.

(** [parse(p, pe, eof)]: where it is done, [None] for [nullptr]. *)
Definition parse_response (blk : sstring) (s : response_parser B) : response_parser B * option nat :=
  let s := with_builder (guard_enter (rp_builder s)) s in
  let s := match blk with [] => s | _ => with_state PError s end in
  let '(s, p, done) := response_exec blk blk O s in
  let s := if done then with_state PDone s else s in
  (with_builder (guard_leave blk (rp_builder s)) s, if done then Some p else None).

Definition response_eof (s : response_parser B) : bool := match rp_state s with PEof => true | _ => false end.

(** Calls of [parse] for consecutive blocks, until it is done: the parser and what is left. *)
Fixpoint response_blocks (blks : list sstring) (s : response_parser B) : option (response_parser B * list sstring) :=
  match blks with
  | [] => None
  | b :: blks =>
    match parse_response b s with
    | (s, None) => response_blocks blks s
    | (s, Some n) => Some (s, drop n b :: blks)
    end
  end.
End Parse.

(** ** The machine on texts: [None] where a text is taken that is not marked, or marked twice. *)

Record rstate := RState { r_cs : Z; r_held : option sstring; r_rsp : http_response; r_name : sstring; r_value : sstring }.

Definition ract (a : response_action) (x : rstate) : option rstate :=
  let r := r_rsp x in
  match a, r_held x with
  | RMark, None => Some (RState (r_cs x) (Some []) r (r_name x) (r_value x))
  | RVersion, Some t => Some (RState (r_cs x) None (HttpResponse t (rs_headers r)) (r_name x) (r_value x))
  | RName, Some t => Some (RState (r_cs x) None r t (r_value x))
  | RValue, Some t => Some (RState (r_cs x) None r (r_name x) t)
  | RAssign, h => Some (RState (r_cs x) h (HttpResponse (rs_version r) (<[r_name x := r_value x]> (rs_headers r))) (r_name x) [])
  | RExtend, h =>
    Some (RState (r_cs x) h (HttpResponse (rs_version r) (<[r_name x := default [] (rs_headers r !! r_name x) ++ bytes_of " " ++ r_value x]> (rs_headers r))) (r_name x) [])
  | RDone, _ => Some x
  | _, _ => None
  end.
Definition racts (l : list response_action) (x : rstate) : option rstate := foldl (fun x a => x ≫= ract a) (Some x) l.
Definition rstep (c : Z) (x : rstate) : option rstate :=
  '(l, cs) ← response_transition (r_cs x) (schar c);
  x ← racts l x;
  Some (RState cs (if cs =? 34 then r_held x else (fun t => t ++ [c]) <$> r_held x) (r_rsp x) (r_name x) (r_value x)).
Fixpoint rrun (l : sstring) (x : rstate) : option rstate :=
  match l with [] => Some x | c :: l => x ← rstep c x; rrun l x end.

Lemma rrun_app k l x : rrun (k ++ l) x = x ← rrun k x; rrun l x.
Proof. revert x. induction k as [|c k IH]; intros x; simpl; [done|]. destruct (rstep c x); simpl; [apply IH|done]. Qed.

(** ** The parser does what the machine does, over blocks cut anywhere *)

Section Refines.
Context {B : Type} {SB : StringBuilder B}.

Definition response_acts_refine (s : response_parser B) (blk : sstring) (p : nat) (x : rstate) : Prop :=
  holds (rp_builder s) blk p (r_held x) /\ rp_rsp s = r_rsp x /\ rp_name s = r_name x /\ rp_value s = r_value x.
Definition response_refines (s : response_parser B) (blk : sstring) (p : nat) (x : rstate) : Prop :=
  rp_cs s = r_cs x /\ response_acts_refine s blk p x /\ r_held x <> Some [].

Lemma end_marked blk p b t : holds b blk p (Some t) -> (p <= length blk)%nat ->
  fst (get_str (mark_end blk p b)) = t /\ holds (snd (get_str (mark_end blk p b))) blk p None.
Proof.
  intros [<- (st & Hs & Hp)] Hl. unfold marked. destruct (mark_end_spec blk st p b Hs) as [H1 H2]; [lia|].
  pose proof (get_str_spec (mark_end blk p b)) as (H3 & H4 & H5). simpl. rewrite H3, H1, Hs. split_and!; [done|done|congruence].
Qed.

Lemma response_act_refines blk p a s x x' : response_acts_refine s blk p x -> (p <= length blk)%nat -> ract a x = Some x' ->
  response_acts_refine (response_act blk p a s) blk p x'.
Proof.
  intros (H1 & H2 & H3 & H4) Hp E. unfold response_act. pose proof (fun t => end_marked blk p (rp_builder s) t) as Hm.
  destruct (get_str (mark_end blk p (rp_builder s))) as [t b]. simpl in Hm. destruct x as [cs h r n v]; simpl in *. subst r n v.
  destruct a; simpl in E; try destruct h as [u|]; simplify_eq/=; unfold response_acts_refine; simpl; try done.
  - split; [by apply mark_refines|done].
  - destruct (Hm u H1 Hp) as (-> & Hb). done.
  - destruct (Hm u H1 Hp) as (-> & Hb). done.
  - destruct (Hm u H1 Hp) as (-> & Hb). done.
Qed.

Lemma response_acts_refines blk p l : (p <= length blk)%nat -> forall s x x', response_acts_refine s blk p x -> racts l x = Some x' ->
  response_acts_refine (foldl (fun s a => response_act blk p a s) s l) blk p x'.
Proof.
  intros Hp. unfold racts. induction l as [|a l IH]; intros s x x' H E; simpl in *; [by simplify_eq|].
  destruct (ract a x) as [y|] eqn:Ey.
  - apply (IH _ y); [by eapply response_act_refines|done].
  - exfalso. clear -E. induction l as [|b l IH]; simpl in E; [done|auto].
Qed.

Lemma response_step_refines s blk p c x x' : response_refines s blk p x -> blk !! p = Some c -> rstep c x = Some x' ->
  exists l, response_transition (rp_cs s) (schar c) = Some (l, r_cs x') /\
  let s' := with_cs (r_cs x') (foldl (fun s a => response_act blk p a s) s l) in
  rp_rsp s' = r_rsp x' /\ (r_cs x' <> 34 -> response_refines s' blk (S p) x').
Proof.
  intros (H1 & H2 & H3) Hc E. unfold rstep in E. rewrite H1. destruct (response_transition (r_cs x) (schar c)) as [[l cs]|]; [|done].
  simpl in E. destruct (racts l x) as [y|] eqn:Ey; [|done]. simpl in E. injection E as <-. exists l. split; [done|]. cbn [r_cs r_rsp].
  assert (p <= length blk)%nat as Hp by (apply lookup_lt_Some in Hc; lia).
  destruct (response_acts_refines blk p l Hp s x y H2 Ey) as (G1 & G2 & G3 & G4). split; [done|]. intros H34.
  destruct (Z.eqb_spec cs 34); [done|]. split; [done|]. split; [split; [by apply holds_advance|done]|].
  simpl. destruct (r_held y) as [t|]; [|done]. simpl. by destruct t.
Qed.

Lemma response_exec_refines pre : forall blk post p s x x', drop p blk = pre ++ post -> response_refines s blk p x -> r_cs x <> 34 -> rrun pre x = Some x' ->
  exists s', if r_cs x' =? 34 then response_exec blk (pre ++ post) p s = (s', (p + length pre)%nat, true) /\ rp_rsp s' = r_rsp x'
  else response_exec blk (pre ++ post) p s = response_exec blk post (p + length pre) s' /\ response_refines s' blk (p + length pre) x'.
Proof.
  induction pre as [|c pre IH]; intros blk post p s x x' Hd Hr H34 Ha; simpl in *.
  - injection Ha as <-. exists s. destruct (Z.eqb_spec (r_cs x) 34); [done|]. by rewrite Nat.add_0_r.
  - destruct (rstep c x) as [y|] eqn:Ey; [|done]. simpl in Ha.
    assert (Hc : blk !! p = Some c) by (rewrite <- (Nat.add_0_r p), <- lookup_drop, Hd; done).
    assert (Hd' : drop (S p) blk = pre ++ post) by (replace (S p) with (p + 1)%nat by lia; by rewrite <- drop_drop, Hd).
    destruct (response_step_refines s blk p c x y Hr Hc Ey) as (l & -> & Hq & Hs). simpl in Hs.
    set (s1 := with_cs (r_cs y) _) in *. destruct (Z.eqb_spec (r_cs y) 34) as [H|H].
    + destruct pre as [|d pre]; [|simpl in Ha; unfold rstep in Ha; by rewrite H in Ha]. injection Ha as <-. rewrite H. simpl.
      exists s1. by rewrite Nat.add_1_r.
    + destruct (IH blk post (S p) s1 y x' Hd' (Hs H) H Ha) as (s' & Hs'). exists s'.
      by replace (p + S (length pre))%nat with (S p + length pre)%nat by lia.
Qed.

Definition response_between (s : response_parser B) (x : rstate) : Prop :=
  rp_cs s = r_cs x /\ sb_value (rp_builder s) = default [] (r_held x) /\ sb_start (rp_builder s) = None /\ r_held x <> Some [] /\
  rp_rsp s = r_rsp x /\ rp_name s = r_name x /\ rp_value s = r_value x.

Lemma response_enter s blk x t : response_between s x -> response_refines (with_state t (with_builder (guard_enter (rp_builder s)) s)) blk 0 x.
Proof.
  intros (H1 & H2 & H3 & H4 & H5 & H6 & H7). split; [done|]. split; [|done]. split; [|done]. simpl.
  destruct (guard_enter_spec (rp_builder s)) as [E1 E2]. rewrite H2 in *. destruct (r_held x) as [u|]; simpl in *.
  - unfold marked. rewrite E2, E1, bool_decide_false by congruence. simpl. rewrite app_nil_r. split; [done|eauto].
  - by rewrite E2, E1, H3.
Qed.

Lemma response_leave s blk x : response_refines s blk (length blk) x -> response_between (with_builder (guard_leave blk (rp_builder s)) s) x.
Proof.
  intros (H1 & (H2 & H3 & H4 & H5) & H6). destruct (guard_leave_spec blk (rp_builder s)) as [E1 E2]. unfold response_between. simpl.
  split_and!; try done. rewrite E1. destruct (r_held x) as [t|]; simpl in *.
  - destruct H2 as [<- (st & Hs & Hp)]. unfold marked. rewrite Hs. f_equal. rewrite take_ge; [done|]. rewrite length_drop. lia.
  - destruct H2 as [-> ->]. done.
Qed.

Lemma parse_response_more blk s x x' : blk <> [] -> response_between s x -> r_cs x <> 34 -> rrun blk x = Some x' -> r_cs x' <> 34 ->
  exists s', parse_response blk s = (s', None) /\ response_between s' x'.
Proof.
  intros Hne Hb H34 Ha H34'. unfold parse_response. pose proof (response_enter s blk x PError Hb) as He.
  destruct (response_exec_refines blk blk [] 0 _ x x' ltac:(by rewrite app_nil_r) He H34 Ha) as [s' Hs]. rewrite app_nil_r in Hs.
  destruct (Z.eqb_spec (r_cs x') 34); [done|]. destruct Hs as [Hs Hr]. destruct blk as [|c blk]; [done|].
  cbv zeta. rewrite Hs. simpl. eexists. split; [done|]. by apply response_leave.
Qed.

Lemma parse_response_done pre post s x x' : pre <> [] -> response_between s x -> r_cs x <> 34 -> rrun pre x = Some x' -> r_cs x' = 34 ->
  exists s', parse_response (pre ++ post) s = (s', Some (length pre)) /\ rp_state s' = PDone /\ rp_rsp s' = r_rsp x'.
Proof.
  intros Hne Hb H34 Ha H34'. unfold parse_response. pose proof (response_enter s (pre ++ post) x PError Hb) as He.
  destruct (response_exec_refines pre (pre ++ post) post 0 _ x x' eq_refl He H34 Ha) as [s' Hs]. rewrite H34' in Hs. simpl in Hs.
  destruct Hs as [Hs Hr]. destruct pre as [|c pre]; [done|].
  cbv zeta. simpl app in *. cbv iota. rewrite Hs. eexists. split; [done|]. done.
Qed.

Lemma response_blocks_cut blks : forall text rest s x x', Forall (fun b => b <> []) blks -> concat blks = text ++ rest -> text <> [] ->
  response_between s x -> r_cs x <> 34 -> rrun text x = Some x' -> r_cs x' = 34 ->
  exists s' left, response_blocks blks s = Some (s', left) /\ concat left = rest /\ rp_state s' = PDone /\ rp_rsp s' = r_rsp x'.
Proof.
  induction blks as [|b blks IH]; intros text rest s x x' Hne Hc Ht Hb H34 Ha H34'; simpl in *.
  - symmetry in Hc. by apply app_eq_nil in Hc as [? _].
  - apply Forall_cons in Hne as [Hb0 Hne]. apply app_eq_inv in Hc as [(b2 & -> & ->)|(t2 & -> & Hc)].
    2:{ destruct t2 as [|c t2].
      { rewrite app_nil_r in *. destruct (parse_response_done b [] s x x' Ht Hb H34 Ha H34') as (s' & Hp & H1 & H2). rewrite app_nil_r in Hp. rewrite Hp.
        eexists s', _. split; [done|]. by rewrite drop_all. }
      rewrite rrun_app in Ha. destruct (rrun b x) as [y|] eqn:Ey; [|done]. cbn [mbind option_bind] in Ha.
      assert (r_cs y <> 34) as Hy by (intros Hy; simpl in Ha; unfold rstep in Ha; by rewrite Hy in Ha).
      destruct (parse_response_more b s x y Hb0 Hb H34 Ey Hy) as (s' & -> & Hb'). by apply (IH (c :: t2) rest s' y x'). }
    destruct (parse_response_done text b2 s x x' Ht Hb H34 Ha H34') as (s' & -> & H1 & H2).
      eexists s', _. split; [done|]. cbn [concat]. by rewrite drop_app_length.
Qed.

Lemma response_init_between (s : response_parser B) : response_between (response_init s) (RState 1 None (HttpResponse [] ∅) (rp_name s) (rp_value s)).
Proof. destruct sb_reset_spec as [H1 H2]. unfold response_between. simpl. by rewrite H1, H2. Qed.
End Refines.

(** ** The head of a response *)

Definition value_char (c : Z) : bool := (0 <=? c) && (c <? 256) && negb (c =? 13).
Definition reason_char (c : Z) : bool := value_char c && negb (c =? 10).

Lemma value_char_schar c : value_char c = true -> (schar c =? 13) = false.
Proof. unfold value_char, schar. repeat case_match; lia. Qed.
Lemma reason_char_schar c : reason_char c = true -> (schar c =? 13) = false /\ (schar c =? 10) = false.
Proof. unfold reason_char, value_char, schar. repeat case_match; lia. Qed.

Lemma rstep_to c x l cs y : response_transition (r_cs x) (schar c) = Some (l, cs) -> cs <> 34 -> racts l x = Some y ->
  rstep c x = Some (RState cs ((fun t => t ++ [c]) <$> r_held y) (r_rsp y) (r_name y) (r_value y)).
Proof. intros H1 H2 H3. unfold rstep. rewrite H1. simpl. rewrite H3. simpl. by destruct (Z.eqb_spec cs 34). Qed.

Lemma rrun_loop (P : Z -> bool) cs l h r n v : cs <> 34 -> (forall c, P c = true -> response_transition cs (schar c) = Some ([], cs)) ->
  Forall (fun c => P c = true) l -> rrun l (RState cs h r n v) = Some (RState cs ((fun t => t ++ l) <$> h) r n v).
Proof.
  intros H34 HP Hl. revert h. induction Hl as [|c l Hc _ IH]; intros h; simpl.
  - destruct h as [t|]; simpl; [by rewrite app_nil_r|done].
  - rewrite (rstep_to c _ [] cs (RState cs h r n v)) by (simpl; auto). simpl. rewrite IH.
    destruct h as [t|]; simpl; [by rewrite <- app_assoc|done].
Qed.

(** What [status_string] gives: a code of three digits and a reason. *)
Definition code_text (t : sstring) : Prop :=
  exists d1 d2 d3 reason, t = 32 :: d1 :: d2 :: d3 :: 32 :: reason /\
    is_digit d1 = true /\ is_digit d2 = true /\ is_digit d3 = true /\ Forall (fun c => reason_char c = true) reason.

Lemma status_code_text s : exists t, status_string s = t ++ eol /\ code_text t.
Proof.
  unfold status_string, code_text. repeat case_match; eexists; (split; [reflexivity|]);
    do 4 eexists; split_and!; try reflexivity; refine (bool_decide_unpack (Forall _ _) _); by vm_compute.
Qed.

Lemma digit_schar d : is_digit d = true -> schar d = d.
Proof. intros H. apply schar_small. unfold is_digit in H. lia. Qed.

Ltac transit := unfold response_transition; simpl.

Lemma run_start_line a b t r n v : is_digit a = true -> is_digit b = true -> code_text t ->
  rrun (bytes_of "HTTP/" ++ [a; 46; b] ++ t ++ crlf) (RState 1 None r n v) = Some (RState 16 None (HttpResponse [a; 46; b] (rs_headers r)) n v).
Proof.
  intros Ha Hb (d1 & d2 & d3 & reason & -> & H1 & H2 & H3 & Hr).
  pose proof (digit_schar a Ha) as Ea. pose proof (digit_schar b Hb) as Eb. pose proof (digit_schar d1 H1) as E1.
  pose proof (digit_schar d2 H2) as E2. pose proof (digit_schar d3 H3) as E3. simpl.
  rewrite (rstep_to a _ [RMark] 7 (RState 6 (Some []) r n v)); [|transit; by rewrite Ea, Ha|done|done]. simpl.
  rewrite (rstep_to b _ [] 9 (RState 8 (Some [a; 46]) r n v)); [|transit; by rewrite Eb, Hb|done|done]. simpl.
  set (r' := HttpResponse [a; 46; b] (rs_headers r)).
  rewrite (rstep_to d1 _ [] 11 (RState 10 None r' n v)); [|transit; by rewrite E1, H1|done|done]. simpl.
  rewrite (rstep_to d2 _ [] 12 (RState 11 None r' n v)); [|transit; by rewrite E2, H2|done|done]. simpl.
  rewrite (rstep_to d3 _ [] 13 (RState 12 None r' n v)); [|transit; by rewrite E3, H3|done|done]. simpl.
  rewrite rrun_app, (rrun_loop reason_char); [done|done| |done].
  intros c Hc. destruct (reason_char_schar c Hc) as [F1 F2]. unfold response_transition. simpl. by rewrite F1, F2.
Qed.

(** Headers: [pending] says that a line was read and is not yet stored. *)
Definition line_state (pending : bool) : Z := if pending then 23 else 16.
Definition line_acts (pending : bool) : list response_action := if pending then [RAssign] else [].
Definition line_stored (pending : bool) (n v : sstring) (r : http_response) : http_response :=
  if pending then HttpResponse (rs_version r) (<[n := v]> (rs_headers r)) else r.

Definition good_response_header (h : sstring * sstring) : Prop :=
  fst h <> [] /\ Forall (fun c => is_tchar c = true) (fst h) /\ Forall (fun c => value_char c = true) (snd h).

Lemma run_response_header p h r n v : good_response_header h ->
  rrun (header_line h) (RState (line_state p) None r n v) = Some (RState 23 None (line_stored p n v r) (fst h) (32 :: snd h)).
Proof.
  intros (Hn & Hc & Hv). destruct h as [name text]; simpl in *. unfold header_line. destruct name as [|c name]; [done|].
  apply Forall_cons in Hc as [Hc0 Hc]. destruct (tchar_kind c Hc0) as (E1 & E2 & E3 & _). simpl.
  rewrite (rstep_to c _ (line_acts p ++ [RMark]) 18 (RState (line_state p) (Some []) (line_stored p n v r) n (if p then [] else v))).
  - simpl. rewrite rrun_app, (rrun_loop is_tchar); [|done| |done].
    + simpl. rewrite rrun_app, (rrun_loop value_char); [done|done| |done].
      intros d Hd. unfold response_transition. simpl. by rewrite (value_char_schar d Hd).
    + intros d Hd. destruct (tchar_kind d Hd) as (F1 & F2 & _ & F4). unfold response_transition. simpl. by rewrite schar_small, F2, F4, Hd by done.
  - simpl. rewrite schar_small by done. unfold response_transition. destruct p; simpl; by rewrite ?E2, E3, Hc0.
  - done.
  - by destruct p.
Qed.

(** The headers that are set: the last text of each name, with the blank behind the colon. *)
Definition set_lines (l : list (sstring * sstring)) (h : gmap sstring sstring) : gmap sstring sstring :=
  foldl (fun h e => <[fst e := 32 :: snd e]> h) h l.

Lemma run_response_headers l : Forall good_response_header l -> forall p r n v, exists p' r' n' v',
  rrun (concat (map header_line l)) (RState (line_state p) None r n v) = Some (RState (line_state p') None r' n' v') /\
  line_stored p' n' v' r' = HttpResponse (rs_version r) (set_lines l (rs_headers (line_stored p n v r))).
Proof.
  induction 1 as [|h l Hh _ IH]; intros p r n v.
  - exists p, r, n, v. split; [done|]. by destruct r, p.
  - cbn [map concat]. destruct (IH true (line_stored p n v r) (fst h) (32 :: snd h)) as (p' & r' & n' & v' & H1 & H2).
    exists p', r', n', v'. split; [by rewrite rrun_app, (run_response_header p h r n v Hh)|]. rewrite H2. by destruct p.
Qed.

Lemma run_head a b t l n v : is_digit a = true -> is_digit b = true -> code_text t -> Forall good_response_header l -> exists n' v',
  rrun ((bytes_of "HTTP/" ++ [a; 46; b] ++ t ++ crlf) ++ concat (map header_line l) ++ crlf) (RState 1 None (HttpResponse [] ∅) n v) =
  Some (RState 34 None (HttpResponse [a; 46; b] (set_lines l ∅)) n' v').
Proof.
  intros Ha Hb Ht Hl. destruct (run_response_headers l Hl false (HttpResponse [a; 46; b] ∅) n v) as (p & r & n' & v' & H1 & H2).
  exists n', (if p then [] else v'). rewrite rrun_app, (run_start_line a b t _ n v Ha Hb Ht). cbn [mbind option_bind rs_headers].
  rewrite rrun_app. simpl line_state in H1. rewrite H1. cbn [mbind option_bind]. unfold crlf. simpl.
  rewrite (rstep_to 13 _ (line_acts p) 17 (RState (line_state p) None (line_stored p n' v' r) n' (if p then [] else v'))).
  - simpl. rewrite H2. done.
  - by destruct p.
  - done.
  - by destruct p.
Qed.

(** ** The round trip with the server's replies *)

Section RoundTrip.
Context {B : Type} {SB : StringBuilder B}.
Variable header_order : gmap sstring sstring -> list (sstring * sstring).
Hypothesis header_order_spec : forall h, header_order h ≡ₚ map_to_list h.

Lemma set_lines_lookup l h k : NoDup (fst <$> l) ->
  set_lines l h !! k = match (list_to_map l : gmap sstring sstring) !! k with Some v => Some (32 :: v) | None => h !! k end.
Proof.
  revert h. induction l as [|[k' v] l IH]; intros h Hd; [done|]. apply NoDup_cons in Hd as [Hn Hd]. simpl. unfold set_lines in *. simpl.
  rewrite IH by done. destruct (decide (k = k')) as [->|Hk].
  - rewrite lookup_insert_eq, (not_elem_of_list_to_map_1 l k' Hn). simpl. by rewrite lookup_insert_eq.
  - by rewrite !lookup_insert_ne by congruence.
Qed.

Lemma set_lines_order h : set_lines (header_order h) ∅ = cons 32 <$> h.
Proof.
  apply map_eq. intros k. rewrite set_lines_lookup, lookup_fmap by (rewrite header_order_spec; apply NoDup_fst_map_to_list).
  replace (list_to_map (header_order h)) with h.
  - by destruct (h !! k).
  - symmetry. rewrite <- (list_to_map_to_list h) at 2. apply list_to_map_proper; [|apply header_order_spec].
    rewrite header_order_spec. apply NoDup_fst_map_to_list.
Qed.

(** What follows the head of a response. *)
Definition sent_bytes (r : reply) : sstring :=
  match p_body_writer r with
  | Some (w, true) => concat (map put_chunk w) ++ bytes_of "0" ++ eol ++ eol
  | Some (w, false) => concat (map put_chunk w)
  | None => p_content r
  end.

Definition good_response_headers (h : gmap sstring sstring) : Prop := map_Forall (fun k v => good_response_header (k, v)) h.

Lemma good_ordered h : good_response_headers h -> Forall good_response_header (header_order h).
Proof.
  intros H. apply Forall_forall. intros [k v] Hin. rewrite header_order_spec in Hin. apply elem_of_map_to_list in Hin. by apply (H k v).
Qed.

Lemma response_text date r t : p_response_line r = response_line r -> status_string (p_status r) = t ++ eol ->
  fst (start_response header_order date r) =
    (bytes_of "HTTP/" ++ p_version r ++ t ++ crlf) ++ (concat (map header_line (header_order (sent_headers date r))) ++ crlf) ++ sent_bytes r.
Proof.
  intros Hl Ht. unfold start_response, sent_headers, sent_bytes, write_reply_to_connection, write_reply_headers.
  destruct (p_body_writer r) as [[w []]|]; cbn [fst p_headers p_response_line p_content add_header set_reply_headers];
    [change (response_line (add_header _ _ r)) with (response_line r)| |rewrite Hl]; unfold response_line; cbn [p_version p_status add_header];
    rewrite Ht; unfold header_line; change crlf with eol; by rewrite <- ?app_assoc.
Qed.

(** C14. The parser of responses reads what the server writes, however it is cut into blocks:
    for a reply of a version x.y whose headers have names of token characters and texts
    without a line break, it stops right behind the empty line, with the body and what
    follows left in the buffers, and has the version and every header with its text - the
    blank behind the colon in front of it. *)
Theorem http_response_parsed date r a b blks rest (s : response_parser B) :
  p_response_line r = response_line r -> p_version r = [a; 46; b] -> is_digit a = true -> is_digit b = true ->
  good_response_headers (sent_headers date r) -> Forall (fun b => b <> []) blks ->
  concat blks = fst (start_response header_order date r) ++ rest ->
  exists s' left, response_blocks blks (response_init s) = Some (s', left) /\ concat left = sent_bytes r ++ rest /\
    rp_state s' = PDone /\ rp_rsp s' = HttpResponse (p_version r) (cons 32 <$> sent_headers date r).
Proof.
  intros Hl Hv Ha Hb Hh Hne Hc. destruct (status_code_text (p_status r)) as (t & Ht & Hcode).
  rewrite (response_text date r t Hl Ht), Hv, (app_assoc _ _ (sent_bytes r)), <- app_assoc in Hc.
  destruct (run_head a b t _ (rp_name s) (rp_value s) Ha Hb Hcode (good_ordered _ Hh)) as (n' & v' & Hr).
  destruct (response_blocks_cut blks _ _ _ _ _ Hne Hc ltac:(done) (response_init_between s) ltac:(done) Hr eq_refl) as (s' & left & H1 & H2 & H3 & H4).
  exists s', left. split_and!; [done|done|done|]. rewrite H4, Hv, <- set_lines_order. done.
Qed.
End RoundTrip.

(** ** A reply, cut inside its line and its headers *)

Import Build.

Definition response_start : response_parser bld := ResponseParser 0 (Bld [] None) (HttpResponse [] ∅) [] [] PEof.
Definition sample_reply : reply :=
  reply_done (HttpReply.add_header (bytes_of "Content-Type") (bytes_of "text/html")
    (Reply 200 ∅ (bytes_of "1.1") (bytes_of "abc") [] None)).
Definition sample_text : sstring := fst (start_response map_to_list (bytes_of "now") sample_reply).

Definition sample_blocks : list sstring := [take 7 sample_text; take 20 (drop 7 sample_text); drop 27 sample_text ++ [1; 2]].

Lemma sample_good : good_response_headers (sent_headers (bytes_of "now") sample_reply).
Proof.
  assert (forall k v : sstring, k <> [] -> forallb is_tchar k = true -> forallb value_char v = true -> good_response_header (k, v)) as H.
  { intros k v Hk H1 H2. split; [done|]. by rewrite !Forall_forall; rewrite forallb_forall in H1, H2; split; intros c Hc; [apply H1|apply H2]; apply list_elem_of_In. }
  unfold good_response_headers, sent_headers. change (p_body_writer sample_reply) with (@None (list sstring * bool)). cbv iota.
  repeat (apply map_Forall_insert_2; [apply H; [done|by vm_compute..]|]). apply map_Forall_empty.
Qed.

Lemma http_response_parsed_witness :
  exists s' left, response_blocks sample_blocks (response_init response_start) = Some (s', left) /\
    concat left = bytes_of "abc" ++ [1; 2] /\ rs_headers (rp_rsp s') !! bytes_of "Content-Type" = Some (bytes_of " text/html").
Proof.
  assert (Forall (fun b : sstring => b <> []) sample_blocks) as Hb by (refine (bool_decide_unpack (Forall _ _) _); by vm_compute).
  assert (concat sample_blocks = sample_text ++ [1; 2]) as Hc by (vm_compute; reflexivity).
  destruct (http_response_parsed (B := bld) map_to_list (fun h => Permutation_refl _) (bytes_of "now") sample_reply 49 49
    sample_blocks [1; 2] response_start eq_refl eq_refl eq_refl eq_refl sample_good Hb Hc) as (s' & left & H1 & H2 & _ & H4).
  exists s', left. split; [exact H1|]. split; [exact H2|]. rewrite H4. vm_compute. reflexivity.
Defined.

(** Behind a line that goes on, the text of the next header is taken where none is marked. *)
Example folded_line_unmarked :
  rrun (bytes_of "HTTP/1.1 200 OK" ++ crlf ++ bytes_of "A: x" ++ crlf ++ bytes_of " y" ++ crlf ++ bytes_of "B: z")
    (RState 1 None (HttpResponse [] ∅) [] []) =
    Some (RState 31 None (HttpResponse (bytes_of "1.1") {[bytes_of "A" := bytes_of " x y"]}) (bytes_of "B") []) /\
  response_transition 31 13 = Some ([RValue], 32).
Proof. by vm_compute. Qed.
