(* ===== verification/PosixAccept.v ===== *)
(** * Accepting on several shards: src/network/posix-stack.cc, posix-stack.hh

    A listener of the POSIX stack takes the connections of the kernel on one shard and gives
    each to the shard that [conntrack] selects; there [posix_ap_server_socket_impl] hands it
    to the call of [accept] that waits, or keeps it for the next.  The kernel's queue, when
    sockets are closed, and which of several entries with one key an [unordered_multimap]
    finds ([pick]) are told by the steps and by a parameter.  An execution is about one
    listener; the tables of the shards are those of all. *)

From S2P Require Import Prelude.
From stdpp Require Import base numbers option gmap list relations.

#[local] Open Scope Z_scope.

(** ** [conntrack::load_balancer] *)

(** [std::min_element]: the first of the least. *)
Fixpoint min_element (l : list Z) : nat :=
  match l with
  | [] => 0%nat
  | x :: l' => match l' !! min_element l' with Some y => if y <? x then S (min_element l') else 0%nat | None => 0%nat end
  end.

(** [force_cpu(cpu)], [next_cpu()], [closed_cpu(cpu)] on [_cpu_load]; an index outside of it
    is [None]. *)
Definition force_cpu (cpu : nat) (load : list Z) : option (nat * list Z) :=
  n ← load !! cpu; Some (cpu, <[cpu := u32 (n + 1)]> load).
Definition next_cpu (load : list Z) : option (nat * list Z) :=
  let cpu := min_element load in n ← load !! cpu; Some (cpu, <[cpu := u32 (n + 1)]> load).
Definition closed_cpu (cpu : nat) (load : list Z) : option (list Z) :=
  n ← load !! cpu; Some (<[cpu := u32 (n - 1)]> load).

(** [server_socket::load_balancing_algorithm] *)
Inductive load_balancing_algorithm := connection_distribution | by_port | fixed.

(** An address is known by its value and its port in host order; the tables are keyed by
    protocol and local address.  A connection holds the handle that names its shard. *)
Definition socket_address : Type := Z * Z.
Definition protocol_and_socket_address : Type := Z * socket_address.
Record connection := Connection { c_fd : Z; c_addr : socket_address; c_cpu : nat }.

(** How often [x] occurs. *)
Definition occ {A} `{EqDecision A} (x : A) (l : list A) : nat := count_occ (fun y z => decide (y = z)) l x.

#[global] Instance connection_eq : EqDecision connection.
Proof. solve_decision. Defined.

(** ** [posix_data_source_impl::get]: the size of the buffer that is read into

    [connected_socket_input_stream_config], of [unsigned]s; [n] bytes were read. *)

Record input_config := InputConfig { buffer_size : Z; min_buffer_size : Z; max_buffer_size : Z }.

Definition buffer_read (n : Z) (c : input_config) : input_config :=
  if buffer_size c <=? n then InputConfig (Z.min (u32 (buffer_size c * 2)) (max_buffer_size c)) (min_buffer_size c) (max_buffer_size c)
  else if n <=? buffer_size c / 4 then InputConfig (Z.max (buffer_size c / 2) (min_buffer_size c)) (min_buffer_size c) (max_buffer_size c)
  else c.

(** The size stays within its bounds, if doubling it does not wrap. *)
Lemma buffer_size_bounded reads c :
  0 <= min_buffer_size c -> min_buffer_size c <= buffer_size c <= max_buffer_size c -> max_buffer_size c < 2 ^ 31 ->
  let c' := foldl (fun c n => buffer_read n c) c reads in
  min_buffer_size c' = min_buffer_size c /\ max_buffer_size c' = max_buffer_size c /\ min_buffer_size c <= buffer_size c' <= max_buffer_size c.
Proof.
  revert c. induction reads as [|n reads IH]; intros c H0 H Hm; [done|]. simpl.
  assert (min_buffer_size (buffer_read n c) = min_buffer_size c /\ max_buffer_size (buffer_read n c) = max_buffer_size c /\
          min_buffer_size c <= buffer_size (buffer_read n c) <= max_buffer_size c) as (H1 & H2 & H3).
  { unfold buffer_read. repeat case_match; simpl; try (rewrite wrap_small by lia); (split; [done|split; [done|]]);
      try (assert (buffer_size c / 2 <= buffer_size c) by (apply Z.div_le_upper_bound; lia)); lia. }
  destruct (IH (buffer_read n c)) as (E1 & E2 & E3); rewrite ?H1, ?H2 in *; [lia..|]. done.
Qed.

Section Accept.
Variable smp_count : nat.
Variable host_shard : nat.
Variable key : protocol_and_socket_address.
Variable lba : load_balancing_algorithm.
Variable fixed_cpu : nat.
Variable pick : list connection -> nat.
Hypothesis pick_one : forall l, l <> [] -> (pick l < length l)%nat.

(** The handle that [accept] gets for a connection from [sa]. *)
Definition get_handle (sa : socket_address) (load : list Z) : option (nat * list Z) :=
  match lba with
  | connection_distribution => next_cpu load
  | by_port => if (smp_count =? 0)%nat then None else force_cpu (Z.to_nat (snd sa) mod smp_count) load
  | fixed => force_cpu fixed_cpu load
  end.

(** ** The tables of a shard: [sockets], the promises that wait; [conn_q] *)

Record ap := Ap { ap_sockets : gmap protocol_and_socket_address nat; ap_conn_q : list (protocol_and_socket_address * connection) }.
Definition ap_init : ap := Ap ∅ [].

Definition queued (k : protocol_and_socket_address) (a : ap) : list connection :=
  snd <$> filter (fun e => fst e = k) (ap_conn_q a).

(** The entry number [n] of a key, and the others. *)
Fixpoint take_entry (k : protocol_and_socket_address) (n : nat) (l : list (protocol_and_socket_address * connection))
    : option (connection * list (protocol_and_socket_address * connection)) :=
  match l with
  | [] => None
  | e :: l =>
    if decide (fst e = k) then
      match n with O => Some (snd e, l) | S n => '(c, l) ← take_entry k n l; Some (c, e :: l) end
    else '(c, l) ← take_entry k n l; Some (c, e :: l)
  end.

(** [accept()] with its promise: a connection that waits, or the promise waits; two may not
    ([assert(i.second)]). *)
Definition ap_accept (k : protocol_and_socket_address) (p : nat) (a : ap) : option (ap * option connection) :=
  match take_entry k (pick (queued k a)) (ap_conn_q a) with
  | Some (c, q) => Some (Ap (ap_sockets a) q, Some c)
  | None => match ap_sockets a !! k with
            | Some _ => None
            | None => Some (Ap (<[k := p]> (ap_sockets a)) (ap_conn_q a), None)
            end
  end.

(** [abort_accept()]: the connections that it drops, the promise that fails. *)
Definition ap_abort_accept (k : protocol_and_socket_address) (a : ap) : ap * list connection * option nat :=
  (Ap (delete k (ap_sockets a)) (filter (fun e => fst e <> k) (ap_conn_q a)), queued k a, ap_sockets a !! k).

(** [move_connected_socket(...)]: the promise that gets the connection. *)
Definition move_connected_socket (k : protocol_and_socket_address) (c : connection) (a : ap) : ap * option nat :=
  match ap_sockets a !! k with
  | Some p => (Ap (delete k (ap_sockets a)) (ap_conn_q a), Some p)
  | None => (Ap (ap_sockets a) (ap_conn_q a ++ [(k, c)]), None)
  end.

(** ** The listener and its shards

    [moving] are the calls of [move_connected_socket] that were submitted, [closing] those of
    [closed_cpu], [opened] the connections that users hold, [results] what was accepted on
    which shard by which promise ([None] when it was aborted).  [accepted] and [dropped]
    tell what the kernel gave and [abort_accept] closed. *)

Record world := World {
  cpu_load : list Z; accepting : option nat; aps : list ap; moving : list connection; closing : list nat;
  opened : list connection; results : list (nat * nat * option connection);
  accepted : list connection; dropped : list connection }.

Definition world_init : world := World (replicate smp_count 0) None (replicate smp_count ap_init) [] [] [] [] [] [].

(** The user calls [accept()] on the listener. *)
Definition server_accept (p : nat) (w : world) : world :=
  World (cpu_load w) (Some p) (aps w) (moving w) (closing w) (opened w) (results w) (accepted w) (dropped w).
(** The continuation of [_lfd.accept()]: the connection is for this shard, or it is moved
    and the listener accepts again. *)
Definition server_accepted (fd : Z) (sa : socket_address) (w : world) : option world :=
  p ← accepting w;
  '(cpu, load) ← get_handle sa (cpu_load w);
  let c := Connection fd sa cpu in
  Some (if (cpu =? host_shard)%nat
        then World load None (aps w) (moving w) (closing w) (opened w ++ [c]) (results w ++ [(host_shard, p, Some c)]) (accepted w ++ [c]) (dropped w)
        else World load (Some p) (aps w) (moving w ++ [c]) (closing w) (opened w) (results w) (accepted w ++ [c]) (dropped w)).
(** [abort_accept()] of the listener. *)
Definition server_abort_accept (w : world) : world :=
  World (cpu_load w) None (aps w) (moving w) (closing w) (opened w)
    (results w ++ match accepting w with Some p => [(host_shard, p, None)] | None => [] end) (accepted w) (dropped w).

(** A shard runs the first call that was submitted to it. *)
Definition run_move (before : list connection) (c : connection) (after : list connection) (w : world) : option world :=
  a ← aps w !! c_cpu c;
  let '(a, p) := move_connected_socket key c a in
  let aps := <[c_cpu c := a]> (aps w) in
  Some (match p with
        | Some p => World (cpu_load w) (accepting w) aps (before ++ after) (closing w) (opened w ++ [c]) (results w ++ [(c_cpu c, p, Some c)]) (accepted w) (dropped w)
        | None => World (cpu_load w) (accepting w) aps (before ++ after) (closing w) (opened w) (results w) (accepted w) (dropped w)
        end).
Definition shard_accept (i p : nat) (w : world) : option world :=
  a ← aps w !! i;
  '(a, c) ← ap_accept key p a;
  let aps := <[i := a]> (aps w) in
  Some (match c with
        | Some c => World (cpu_load w) (accepting w) aps (moving w) (closing w) (opened w ++ [c]) (results w ++ [(i, p, Some c)]) (accepted w) (dropped w)
        | None => World (cpu_load w) (accepting w) aps (moving w) (closing w) (opened w) (results w) (accepted w) (dropped w)
        end).
(** The handles of the connections that are dropped tell the listener's shard. *)
Definition shard_abort_accept (i : nat) (w : world) : option world :=
  a ← aps w !! i;
  let '(a, cs, p) := ap_abort_accept key a in
  Some (World (cpu_load w) (accepting w) (<[i := a]> (aps w)) (moving w) (closing w ++ (c_cpu <$> cs)) (opened w)
          (results w ++ match p with Some p => [(i, p, None)] | None => [] end) (accepted w) (dropped w ++ cs)).
(** A socket is closed and its handle destroyed; [closed_cpu] runs. *)
Definition close_socket (before : list connection) (c : connection) (after : list connection) (w : world) : world :=
  World (cpu_load w) (accepting w) (aps w) (moving w) (closing w ++ [c_cpu c]) (before ++ after) (results w) (accepted w) (dropped w).
Definition run_closed (before : list nat) (cpu : nat) (after : list nat) (w : world) : option world :=
  load ← closed_cpu cpu (cpu_load w);
  Some (World load (accepting w) (aps w) (moving w) (before ++ after) (opened w) (results w) (accepted w) (dropped w)).

(** A promise is made once. *)
Definition promises (w : world) : list nat :=
  option_list (accepting w) ++ (a ← aps w; option_list (ap_sockets a !! key)) ++ (snd ∘ fst <$> results w).

(** The listener's user calls it once at a time; the users of the other shards, who do the
    same, use the tables of theirs. *)
Inductive step : world -> world -> Prop :=
  | step_accept p w : accepting w = None -> p ∉ promises w -> step w (server_accept p w)
  | step_accepted fd sa w w' : server_accepted fd sa w = Some w' -> step w w'
  | step_abort w : step w (server_abort_accept w)
  | step_move before c after w w' : moving w = before ++ c :: after -> c_cpu c ∉ c_cpu <$> before ->
      run_move before c after w = Some w' -> step w w'
  | step_shard_accept i p w w' : i <> host_shard -> p ∉ promises w -> shard_accept i p w = Some w' -> step w w'
  | step_shard_abort i w w' : i <> host_shard -> shard_abort_accept i w = Some w' -> step w w'
  | step_close before c after w : opened w = before ++ c :: after -> step w (close_socket before c after w)
  | step_closed before cpu after w w' : closing w = before ++ cpu :: after -> run_closed before cpu after w = Some w' -> step w w'.

(** ** Counting *)

Lemma perm_count {A} `{EqDecision A} (l l' : list A) : l ≡ₚ l' <-> forall x, occ x l = occ x l'.
Proof. apply (Permutation_count_occ (fun y z => decide (y = z))). Qed.

Lemma occ_app {A} `{EqDecision A} (x : A) l l' : occ x (l ++ l') = (occ x l + occ x l')%nat.
Proof. apply count_occ_app. Qed.

Lemma occ_cons {A} `{EqDecision A} (x y : A) l : occ x (y :: l) = (occ x [y] + occ x l)%nat.
Proof. apply (occ_app x [y] l). Qed.

Lemma bind_insert {A B} (f : A -> list B) (l : list A) i a a' :
  l !! i = Some a -> (<[i := a']> l ≫= f) ++ f a ≡ₚ (l ≫= f) ++ f a'.
Proof.
  intros H. pose proof (lookup_lt_Some _ _ _ H) as Hl. rewrite insert_take_drop by done.
  rewrite <- (take_drop_middle l i a H) at 3. rewrite !bind_app, !bind_cons, <- !app_assoc. apply Permutation_app_head.
  rewrite (Permutation_app_comm (drop (S i) l ≫= f) (f a)), (Permutation_app_comm _ (f a')), !app_assoc.
  apply Permutation_app_tail, Permutation_app_comm.
Qed.

Lemma take_entry_perm k n l c l' :
  take_entry k n l = Some (c, l') -> snd <$> filter (fun e => fst e = k) l ≡ₚ c :: (snd <$> filter (fun e => fst e = k) l').
Proof.
  revert n c l'. induction l as [|[k' c'] l IH]; intros n c l' H; [done|]. simpl in H. rewrite filter_cons. simpl.
  destruct (decide (k' = k)) as [->|Hk].
  - destruct n as [|n]; [by injection H as <- <-|]. destruct (take_entry k n l) as [[c2 l2]|] eqn:E; [|done]. injection H as <- <-.
    rewrite filter_cons_True by done. simpl. rewrite (IH _ _ _ E). apply Permutation_swap.
  - destruct (take_entry k n l) as [[c2 l2]|] eqn:E; [|done]. injection H as <- <-. rewrite filter_cons_False by done. by apply (IH n).
Qed.

Lemma take_entry_finds k n l :
  (n < length (filter (fun e => fst e = k) l))%nat -> is_Some (take_entry k n l).
Proof.
  revert n. induction l as [|e l IH]; intros n Hn; simpl in *; [lia|]. rewrite filter_cons in Hn. destruct (decide (fst e = k)) as [Hk|Hk].
  - destruct n as [|n]; [by eexists|]. simpl in Hn. destruct (IH n ltac:(lia)) as ([c l2] & ->). by eexists.
  - destruct (IH n Hn) as ([c l2] & ->). by eexists.
Qed.

Lemma occ_nil {A} `{EqDecision A} (x : A) : occ x [] = 0%nat.
Proof. done. Qed.

Lemma NoDup_perm {A} (l l' : list A) : l' ≡ₚ l -> NoDup l -> NoDup l'.
Proof. by intros ->. Qed.

(** Permutations that follow from others, by counting. *)
Ltac count_all :=
  repeat match goal with H : _ ≡ₚ _ |- _ => rewrite perm_count in H end; apply perm_count; let x := fresh "x" in intros x;
  repeat match goal with H : forall y, occ y _ = occ y _ |- _ => specialize (H x) end;
  rewrite ?fmap_app, ?fmap_cons, ?fmap_nil, ?occ_app in *; cbn [fmap list_fmap c_cpu] in *;
  repeat match goal with
         | H : context [occ x (?y :: ?l)] |- _ => lazymatch l with [] => fail | _ => rewrite (occ_cons x y l) in H end
         | |- context [occ x (?y :: ?l)] => lazymatch l with [] => fail | _ => rewrite (occ_cons x y l) end
         end; rewrite ?occ_app, ?occ_nil in *; lia.

(** ** What holds in every execution *)

Definition all_queued (w : world) : list connection := a ← aps w; queued key a.
Definition given (w : world) : list connection := omap snd (results w).
(** The shards of the connections that have a handle, or of which one was just destroyed. *)
Definition live (w : world) : list nat := (c_cpu <$> moving w ++ all_queued w ++ opened w) ++ closing w.

(** The load of a shard is the number of its handles; what the kernel gave is on its way,
    waits on a shard, was accepted there or dropped; it waits and is accepted on the shard
    that its handle names; on no shard does a call wait while a connection does; a promise
    waits at one place or was answered once. *)
Record consistent (w : world) : Prop := {
  load_length : length (cpu_load w) = smp_count;
  aps_length : length (aps w) = smp_count;
  load_counts : forall cpu n, cpu_load w !! cpu = Some n -> n = u32 (Z.of_nat (occ cpu (live w)));
  live_shards : Forall (fun cpu => (cpu < smp_count)%nat) (live w);
  conserved : accepted w ≡ₚ moving w ++ all_queued w ++ given w ++ dropped w;
  right_queue : forall i a c, aps w !! i = Some a -> c ∈ queued key a -> c_cpu c = i;
  right_result : forall i p c, (i, p, Some c) ∈ results w -> c_cpu c = i;
  not_both : forall i a p, aps w !! i = Some a -> ap_sockets a !! key = Some p -> queued key a = [];
  answered_once : NoDup (promises w)
}.

(** An operation on the tables of one shard. *)
Lemma aps_change w i a a' :
  aps w !! i = Some a ->
  (b ← <[i := a']> (aps w); queued key b) ++ queued key a ≡ₚ all_queued w ++ queued key a' /\
  (b ← <[i := a']> (aps w); option_list (ap_sockets b !! key)) ++ option_list (ap_sockets a !! key) ≡ₚ
    (b ← aps w; option_list (ap_sockets b !! key)) ++ option_list (ap_sockets a' !! key).
Proof. intros H. split; by apply (bind_insert (fun b => _) (aps w) i a a'). Qed.

(** What a step does to the handles: nothing, one more, one less. *)
Inductive effect (w w' : world) : Prop :=
  | same_handles : accepted w' = accepted w -> live w' ≡ₚ live w -> effect w w'
  | one_more fd sa cpu load : get_handle sa (cpu_load w) = Some (cpu, load) -> accepted w' = accepted w ++ [Connection fd sa cpu] ->
      live w' ≡ₚ cpu :: live w -> effect w w'
  | one_less cpu : accepted w' = accepted w -> live w ≡ₚ cpu :: live w' -> effect w w'.

Lemma aps_lookup w i a' j b : <[i := a']> (aps w) !! j = Some b -> aps w !! j = Some b \/ j = i /\ b = a'.
Proof. intros H. apply list_lookup_insert_Some in H as [(-> & -> & _)|(_ & H)]; auto. Qed.

Lemma table_op w w' i a a' :
  consistent w -> aps w !! i = Some a -> aps w' = <[i := a']> (aps w) -> cpu_load w' = cpu_load w -> accepted w' = accepted w -> live w' ≡ₚ live w ->
  accepted w' ≡ₚ moving w' ++ all_queued w' ++ given w' ++ dropped w' ->
  (forall c, c ∈ queued key a' -> c_cpu c = i) ->
  (forall j p c, (j, p, Some c) ∈ results w' -> (j, p, Some c) ∈ results w \/ c_cpu c = j) ->
  (forall p, ap_sockets a' !! key = Some p -> queued key a' = []) ->
  NoDup (promises w') -> consistent w' /\ effect w w'.
Proof.
  intros [H1 H2 H3 H4 H5 H6 H7 H8 H9] Ha Haps Hload Hacc Hlive Hcons Hq Hr Hb Hp. split; [|by apply same_handles]. split; auto.
  - congruence.
  - by rewrite Haps, length_insert.
  - intros cpu n Hn. rewrite Hload in Hn. rewrite (proj1 (perm_count _ _) Hlive). auto.
  - by rewrite Hlive.
  - intros j b c Hj Hc. rewrite Haps in Hj. apply aps_lookup in Hj as [Hj|(-> & ->)]; [eauto|auto].
  - intros j p c Hin. destruct (Hr j p c Hin); [eauto|done].
  - intros j b p Hj Hs. rewrite Haps in Hj. apply aps_lookup in Hj as [Hj|(-> & ->)]; eauto.
Qed.

Lemma queued_snoc s q c : queued key (Ap s (q ++ [(key, c)])) = queued key (Ap s q) ++ [c].
Proof. unfold queued. simpl. by rewrite filter_app, fmap_app, filter_cons_True. Qed.

Lemma run_move_consistent before c after w w' :
  consistent w -> moving w = before ++ c :: after -> run_move before c after w = Some w' -> consistent w' /\ effect w w'.
Proof.
  intros Hw Hm H. unfold run_move in H. destruct (aps w !! c_cpu c) as [a|] eqn:Ha; [|done]. cbn [mbind option_bind] in H.
  unfold move_connected_socket in H. pose proof (conserved w Hw) as Hc. pose proof (answered_once w Hw) as Hp.
  destruct (ap_sockets a !! key) as [p|] eqn:Es; injection H as <-.
  - pose proof (not_both w Hw _ _ _ Ha Es) as Hq.
    destruct (aps_change w (c_cpu c) a (Ap (delete key (ap_sockets a)) (ap_conn_q a)) Ha) as (Q & P).
    change (queued key (Ap (delete key (ap_sockets a)) (ap_conn_q a))) with (queued key a) in *. rewrite Hq in *. simpl in P. rewrite lookup_delete_eq, Es in P. simpl in P.
    pose proof (fmap_Permutation c_cpu _ _ Q) as Q'.
    eapply (table_op w _ (c_cpu c) a); [done|exact Ha|done|done|done|..].
    + unfold live, all_queued in *. simpl. rewrite Hm. count_all.
    + unfold given, all_queued in *. simpl. rewrite Hm in Hc. rewrite omap_app. simpl. count_all.
    + intros c' Hc'. change (c' ∈ queued key a) in Hc'. rewrite Hq in Hc'. by apply elem_of_nil in Hc'.
    + simpl. intros j p' c' Hin. apply elem_of_app in Hin as [Hin|Hin]; [by left|right]. apply list_elem_of_singleton in Hin. congruence.
    + simpl. by rewrite lookup_delete_eq.
    + unfold promises in *. simpl. rewrite fmap_app. simpl. eapply NoDup_perm; [|exact Hp]. count_all.
  - destruct (aps_change w (c_cpu c) a (Ap (ap_sockets a) (ap_conn_q a ++ [(key, c)])) Ha) as (Q & P).
    rewrite queued_snoc in Q. simpl in P. change (queued key (Ap (ap_sockets a) (ap_conn_q a))) with (queued key a) in Q.
    pose proof (fmap_Permutation c_cpu _ _ Q) as Q'.
    eapply (table_op w _ (c_cpu c) a); [done|exact Ha|done|done|done|..].
    + unfold live, all_queued in *. simpl. rewrite Hm. count_all.
    + unfold given, all_queued in *. simpl. rewrite Hm in Hc. count_all.
    + rewrite queued_snoc. intros c' Hc'. apply elem_of_app in Hc' as [Hc'|Hc']; [by apply (right_queue w Hw _ a)|]. by apply list_elem_of_singleton in Hc' as ->.
    + simpl. auto.
    + simpl. by rewrite Es.
    + unfold promises in *. simpl. eapply NoDup_perm; [|exact Hp]. count_all.
Qed.

Lemma shard_accept_consistent i p w w' :
  consistent w -> p ∉ promises w -> shard_accept i p w = Some w' -> consistent w' /\ effect w w'.
Proof.
  intros Hw Hf H. unfold shard_accept in H. destruct (aps w !! i) as [a|] eqn:Ha; [|done]. cbn [mbind option_bind] in H.
  unfold ap_accept in H. pose proof (conserved w Hw) as Hc. pose proof (NoDup_cons_2 _ _ Hf (answered_once w Hw)) as Hp. clear Hf.
  destruct (take_entry key _ (ap_conn_q a)) as [[c q]|] eqn:E.
  - apply take_entry_perm in E. change (queued key a ≡ₚ c :: queued key (Ap (ap_sockets a) q)) in E. injection H as <-.
    destruct (aps_change w i a (Ap (ap_sockets a) q) Ha) as (Q & P). simpl in P.
    pose proof (fmap_Permutation c_cpu _ _ Q) as Q'. pose proof (fmap_Permutation c_cpu _ _ E) as E'.
    assert (c_cpu c = i) as Hi by (apply (right_queue w Hw i a); [done|rewrite E; by left]).
    eapply (table_op w _ i a); [done|exact Ha|done|done|done|..].
    + unfold live, all_queued in *. simpl. count_all.
    + unfold given, all_queued in *. simpl. rewrite omap_app. simpl. count_all.
    + intros c' Hc'. apply (right_queue w Hw i a); [done|]. rewrite E. by right.
    + simpl. intros j p' c' Hin. apply elem_of_app in Hin as [Hin|Hin]; [by left|right]. apply list_elem_of_singleton in Hin. congruence.
    + simpl. intros p' Hs. rewrite (not_both w Hw i a p' Ha Hs) in E. by apply Permutation_nil_cons in E.
    + unfold promises in *. simpl. rewrite fmap_app. simpl. eapply NoDup_perm; [|exact Hp]. count_all.
  - assert (queued key a = []) as Hq.
    { destruct (queued key a) as [|c l] eqn:Eq; [done|]. exfalso. pose proof (pick_one (c :: l) ltac:(done)) as Hl. rewrite <- Eq in Hl at 2.
      unfold queued in Hl. rewrite length_fmap in Hl. apply take_entry_finds in Hl as (? & Hl). congruence. }
    destruct (ap_sockets a !! key) eqn:Es; [done|]. injection H as <-.
    destruct (aps_change w i a (Ap (<[key := p]> (ap_sockets a)) (ap_conn_q a)) Ha) as (Q & P). simpl in P. rewrite lookup_insert_eq, Es in P. simpl in P.
    change (queued key (Ap (<[key := p]> (ap_sockets a)) (ap_conn_q a))) with (queued key a) in Q. pose proof (fmap_Permutation c_cpu _ _ Q) as Q'.
    eapply (table_op w _ i a); [done|exact Ha|done|done|done|..].
    + unfold live, all_queued in *. simpl. count_all.
    + unfold given, all_queued in *. simpl. count_all.
    + intros c' Hc'. change (c' ∈ queued key a) in Hc'. rewrite Hq in Hc'. by apply elem_of_nil in Hc'.
    + simpl. auto.
    + intros p' _. exact Hq.
    + unfold promises in *. simpl. eapply NoDup_perm; [|exact Hp]. count_all.
Qed.

Lemma queued_erased s q : queued key (Ap s (filter (fun e => fst e <> key) q)) = [].
Proof.
  unfold queued. simpl. induction q as [|e q IH]; [done|]. rewrite filter_cons. destruct (decide (fst e <> key)); [|done].
  by rewrite filter_cons_False by done.
Qed.

Lemma omap_no_connection i p : omap snd (match p with Some p => [((i, p), None)] | None => [] end : list (nat * nat * option connection)) = [].
Proof. by destruct p. Qed.

Lemma shard_abort_consistent i w w' : consistent w -> shard_abort_accept i w = Some w' -> consistent w' /\ effect w w'.
Proof.
  intros Hw H. unfold shard_abort_accept in H. destruct (aps w !! i) as [a|] eqn:Ha; [|done]. cbn [mbind option_bind] in H. injection H as <-.
  pose proof (conserved w Hw) as Hc. pose proof (answered_once w Hw) as Hp.
  destruct (aps_change w i a (Ap (delete key (ap_sockets a)) (filter (fun e => fst e <> key) (ap_conn_q a))) Ha) as (Q & P).
  rewrite queued_erased in Q. simpl in P. rewrite lookup_delete_eq in P. simpl in P. pose proof (fmap_Permutation c_cpu _ _ Q) as Q'.
  eapply (table_op w _ i a); [done|exact Ha|done|done|done|..].
  - unfold live, all_queued in *. simpl. count_all.
  - unfold given, all_queued in *. simpl. rewrite omap_app, omap_no_connection. count_all.
  - intros c Hin. rewrite queued_erased in Hin. by apply elem_of_nil in Hin.
  - simpl. intros j p' c' Hin. apply elem_of_app in Hin as [Hin|Hin]; [by left|right]. destruct (ap_sockets a !! key); [|by apply elem_of_nil in Hin].
    by apply list_elem_of_singleton in Hin.
  - intros p _. apply queued_erased.
  - unfold promises in *. simpl. eapply NoDup_perm; [|exact Hp]. destruct (ap_sockets a !! key); simpl in *; rewrite fmap_app; simpl; count_all.
Qed.

(** The listener and the handles. *)

Lemma u32_succ n k : u32 (u32 (Z.of_nat n) + Z.of_nat k) = u32 (Z.of_nat (n + k)).
Proof. unfold u32, wrap. rewrite Zplus_mod_idemp_l. f_equal. lia. Qed.

Lemma force_cpu_spec cpu load cpu' load' :
  force_cpu cpu load = Some (cpu', load') ->
  cpu' = cpu /\ (cpu < length load)%nat /\ length load' = length load /\
  forall i n, load' !! i = Some n -> exists m, load !! i = Some m /\ n = if decide (i = cpu) then u32 (m + 1) else m.
Proof.
  unfold force_cpu. destruct (load !! cpu) as [n|] eqn:E; [|done]. intros H. injection H as <- <-.
  split; [done|]. split; [by eapply lookup_lt_Some|]. split; [apply length_insert|]. intros i m Hi.
  apply list_lookup_insert_Some in Hi as [(<- & <- & _)|(Hne & Hi)]; [exists n|exists m]; by rewrite ?decide_True, ?decide_False by congruence.
Qed.

Lemma get_handle_force sa load : exists cpu, get_handle sa load = None \/ get_handle sa load = force_cpu cpu load.
Proof.
  unfold get_handle, next_cpu. destruct lba; [exists (min_element load); by right| |exists fixed_cpu; by right].
  destruct (smp_count =? 0)%nat; [exists 0%nat; by left|eexists; by right].
Qed.

Lemma occ_one {A} `{EqDecision A} (x y : A) : occ x [y] = if decide (y = x) then 1%nat else 0%nat.
Proof. unfold occ. simpl. by destruct (decide (y = x)). Qed.

Lemma server_accepted_consistent fd sa w w' : consistent w -> server_accepted fd sa w = Some w' -> consistent w' /\ effect w w'.
Proof.
  intros Hw H. unfold server_accepted in H. destruct (accepting w) as [p|] eqn:Ep; [|done]. cbn [mbind option_bind] in H.
  destruct (get_handle sa (cpu_load w)) as [[cpu load]|] eqn:Eh; [|done].
  destruct (get_handle_force sa (cpu_load w)) as (cpu' & [Hn|Hn]); rewrite Hn in Eh; [done|]. pose proof (eq_trans Hn Eh) as Hget. apply force_cpu_spec in Eh as (-> & Hlt & Hlen & Hload).
  pose proof (conserved w Hw) as Hc. pose proof (answered_once w Hw) as Hp. set (c := Connection fd sa cpu').
  assert (live w' ≡ₚ cpu' :: live w /\ accepted w' ≡ₚ moving w' ++ all_queued w' ++ given w' ++ dropped w' /\ aps w' = aps w /\ cpu_load w' = load /\
    (forall j p c, (j, p, Some c) ∈ results w' -> (j, p, Some c) ∈ results w \/ c_cpu c = j) /\ promises w' ≡ₚ promises w /\ accepted w' = accepted w ++ [c]) as (E1 & E2 & E3 & E4 & E5 & E6 & E7).
  { cbn beta iota zeta delta [option_bind mbind] in H. revert H. destruct (Nat.eqb_spec cpu' host_shard) as [->|Hh]; intros H; injection H as <-; unfold live, given, promises, all_queued in *; simpl; rewrite Ep; simpl.
    - rewrite omap_app. simpl. split; [count_all|]. split; [count_all|]. split; [done|]. split; [done|]. split; [|split; [rewrite fmap_app; simpl; count_all|done]].
      intros j q c' Hin. apply elem_of_app in Hin as [Hin|Hin]; [by left|right]. apply list_elem_of_singleton in Hin. by simplify_eq.
    - split; [count_all|]. split; [count_all|]. split; [done|]. split; [done|]. split; [auto|done]. }
  split; [|by eapply one_more].
  destruct Hw as [H1 H2 H3 H4 H5 H6 H7 H8 H9]. split; rewrite ?E3, ?E4; auto; [congruence|..].
  - intros i n Hi. apply Hload in Hi as (m & Hm & ->). rewrite (proj1 (perm_count _ _) E1), occ_cons, occ_one, (H3 i m Hm).
    destruct (decide (i = cpu')) as [->|Hne].
    + rewrite decide_True by done. rewrite (u32_succ _ 1). f_equal. lia.
    + by rewrite decide_False by congruence.
  - rewrite E1. apply Forall_cons. split; [by rewrite <- H1|done].
  - intros j q c' Hin. destruct (E5 j q c' Hin); [eauto|done].
  - by eapply NoDup_perm.
Qed.

(** An operation that only moves handles between the listener's lists. *)
Lemma listener_op w w' :
  consistent w -> aps w' = aps w -> cpu_load w' = cpu_load w -> accepted w' = accepted w -> live w' ≡ₚ live w ->
  accepted w' ≡ₚ moving w' ++ all_queued w' ++ given w' ++ dropped w' ->
  (forall j p c, (j, p, Some c) ∈ results w' -> (j, p, Some c) ∈ results w) -> NoDup (promises w') -> consistent w' /\ effect w w'.
Proof.
  intros [H1 H2 H3 H4 H5 H6 H7 H8 H9] Haps Hload Hacc Hlive Hc Hr Hp. split; [|by apply same_handles]. split; rewrite ?Haps, ?Hload, ?Hlive; eauto.
  intros cpu n Hn. rewrite (proj1 (perm_count _ _) Hlive). auto.
Qed.

Lemma run_closed_consistent before cpu after w w' :
  consistent w -> closing w = before ++ cpu :: after -> run_closed before cpu after w = Some w' -> consistent w' /\ effect w w'.
Proof.
  intros [H1 H2 H3 H4 H5 H6 H7 H8 H9] Hcl H. unfold run_closed, closed_cpu in H. destruct (cpu_load w !! cpu) as [n|] eqn:En; [|done].
  cbn [mbind option_bind] in H. injection H as <-. set (w' := World _ _ _ _ _ _ _ _ _).
  assert (live w ≡ₚ cpu :: live w') as Hl by (unfold live, all_queued; simpl; rewrite Hcl; count_all).
  split; [|by eapply one_less]. split; auto.
  - simpl. by rewrite length_insert.
  - intros i m Hi. simpl in Hi. apply list_lookup_insert_Some in Hi as [(<- & <- & _)|(Hne & Hi)].
    + rewrite (H3 _ _ En), (proj1 (perm_count _ _) Hl), occ_cons, occ_one, decide_True by done.
      unfold u32, wrap. rewrite Zminus_mod_idemp_l. f_equal. lia.
    + rewrite (H3 _ _ Hi), (proj1 (perm_count _ _) Hl), occ_cons, occ_one, decide_False by congruence. done.
  - rewrite Hl in H4. by apply Forall_cons in H4 as (_ & H4).
Qed.

Lemma world_init_consistent : consistent world_init.
Proof.
  assert (forall i a, aps world_init !! i = Some a -> a = ap_init) as Hi by (intros i a H; by apply lookup_replicate in H as (-> & _)).
  assert (forall B (f : ap -> list B), f ap_init = [] -> (replicate smp_count ap_init ≫= f) = []) as Hb.
  { intros B f Hf. induction smp_count as [|n IH]; [done|]. simpl. by rewrite Hf. }
  assert (all_queued world_init = []) as Hq by by apply Hb.
  split.
  - apply length_replicate.
  - apply length_replicate.
  - intros cpu n Hn. apply lookup_replicate in Hn as (-> & _). unfold live. by rewrite Hq.
  - unfold live. rewrite Hq. apply Forall_nil_2.
  - by rewrite Hq.
  - intros i a c Ha Hc. rewrite (Hi _ _ Ha) in Hc. by apply elem_of_nil in Hc.
  - intros i p c Hin. by apply elem_of_nil in Hin.
  - intros i a p Ha _. by rewrite (Hi _ _ Ha).
  - unfold promises. simpl. rewrite Hb by done. apply NoDup_nil_2.
Qed.

Lemma step_consistent w w' : consistent w -> step w w' -> consistent w' /\ effect w w'.
Proof.
  intros Hw H. pose proof (conserved w Hw) as Hc. pose proof (answered_once w Hw) as Hp.
  destruct H as [p w Ha Hf|fd sa w w' H|w|before c after w w' Hm _ H|i p w w' _ Hf H|i w w' _ H|before c after w Ho|before cpu after w w' Hcl H];
    eauto using server_accepted_consistent, run_move_consistent, shard_accept_consistent, shard_abort_consistent, run_closed_consistent.
  - apply (listener_op w); try done. unfold promises in *. simpl. rewrite Ha in *. simpl in *. by apply NoDup_cons.
  - apply (listener_op w); try done.
    + unfold given in *. simpl. by rewrite omap_app, omap_no_connection, app_nil_r.
    + intros j p c Hin. simpl in Hin. apply elem_of_app in Hin as [Hin|Hin]; [done|]. destruct (accepting w); [|by apply elem_of_nil in Hin].
      by apply list_elem_of_singleton in Hin.
    + unfold promises in *. simpl. eapply NoDup_perm; [|exact Hp]. destruct (accepting w); simpl; rewrite fmap_app; simpl; count_all.
  - apply (listener_op w); try done. unfold live, all_queued. simpl. rewrite Ho. count_all.
Qed.

Lemma execution_consistent w : rtc step world_init w -> consistent w.
Proof.
  assert (forall w w', rtc step w w' -> consistent w -> consistent w') as H by
    (induction 1 as [|w1 w2 w3 Hs _ IH]; [done|intros Hw; apply IH; by destruct (step_consistent _ _ Hw Hs)]).
  intros Hr. by eapply H, world_init_consistent.
Qed.

(** An invariant of the handles alone. *)
Lemma execution_handles (P : list nat -> list connection -> Prop) :
  P [] [] ->
  (forall l l' a, l ≡ₚ l' -> P l a -> P l' a) ->
  (forall w fd sa cpu load, consistent w -> P (live w) (accepted w) -> get_handle sa (cpu_load w) = Some (cpu, load) ->
     P (cpu :: live w) (accepted w ++ [Connection fd sa cpu])) ->
  (forall cpu l a, P (cpu :: l) a -> P l a) ->
  forall w, rtc step world_init w -> P (live w) (accepted w).
Proof.
  intros H0 Hperm Hmore Hless.
  assert (forall w w', rtc step w w' -> consistent w -> P (live w) (accepted w) -> P (live w') (accepted w')) as H.
  { induction 1 as [|w1 w2 w3 Hs _ IH]; [done|]. intros Hw HP. destruct (step_consistent _ _ Hw Hs) as (Hw2 & He). apply IH; [done|].
    destruct He as [E1 E2|fd sa cpu load Hg E1 E2|cpu E1 E2]; rewrite E1.
    - by apply (Hperm (live w1)).
    - apply (Hperm (cpu :: live w1)); [done|]. by apply (Hmore w1 fd sa cpu load).
    - apply (Hless cpu). by apply (Hperm (live w1)). }
  intros w Hr. apply (H _ _ Hr world_init_consistent). unfold live, all_queued. simpl.
  replace (replicate smp_count ap_init ≫= _) with (@nil connection); [done|]. symmetry. clear. induction smp_count as [|n IH]; [done|exact IH].
Qed.

(** The shard that the algorithm names. *)
Definition chosen (c : connection) : Prop :=
  match lba with
  | connection_distribution => True
  | by_port => c_cpu c = (Z.to_nat (snd (c_addr c)) mod smp_count)%nat
  | fixed => c_cpu c = fixed_cpu
  end.

Lemma execution_chosen w : rtc step world_init w -> Forall chosen (accepted w).
Proof.
  apply (execution_handles (fun _ a => Forall chosen a)); auto.
  intros w1 fd sa cpu load _ HP Hg. apply Forall_app. split; [done|]. apply Forall_singleton. unfold chosen, get_handle in *. simpl.
  destruct lba; [done| |by apply force_cpu_spec in Hg as (-> & _)]. destruct (smp_count =? 0)%nat; [done|]. by apply force_cpu_spec in Hg as (-> & _).
Qed.

Lemma min_element_least l : l <> [] -> exists m, l !! min_element l = Some m /\ Forall (fun x => m <= x) l.
Proof.
  induction l as [|x l IH]; [done|]. intros _. destruct l as [|y l]; [exists x; simpl; auto using Forall_cons_2, Forall_nil_2, Z.le_refl|].
  destruct IH as (m & Hm & Hl); [done|]. set (l' := y :: l) in *. cbn [min_element]. rewrite Hm. destruct (Z.ltb_spec m x).
  - exists m. split; [done|]. apply Forall_cons. split; [lia|done].
  - exists x. split; [done|]. apply Forall_cons. split; [lia|]. eapply Forall_impl; [exact Hl|]. simpl. lia.
Qed.

Lemma occ_length {A} `{EqDecision A} (x : A) l : (occ x l <= length l)%nat.
Proof. induction l as [|y l IH]; [done|]. rewrite occ_cons, occ_one. simpl. destruct (decide (y = x)); lia. Qed.

(** While no handle has been given back, any two shards have as many connections, or one more. *)
Definition even (l : list nat) : Prop :=
  forall i j, (i < smp_count)%nat -> (j < smp_count)%nat -> (occ i l <= occ j l + 1)%nat.

Lemma execution_even w :
  lba = connection_distribution -> rtc step world_init w -> Z.of_nat (length (accepted w)) < 2 ^ 32 ->
  (length (live w) <= length (accepted w))%nat /\ (length (live w) = length (accepted w) -> even (live w)).
Proof.
  intros Hl Hr. revert w Hr.
  apply (execution_handles (fun l a => Z.of_nat (length a) < 2 ^ 32 -> (length l <= length a)%nat /\ (length l = length a -> even l))).
  - split; [done|]. intros _ i j _ _. simpl. lia.
  - intros l l' a Hp H Ha. destruct (H Ha) as (H1 & H2). rewrite <- (Permutation_length Hp). split; [done|]. intros He i j Hi Hj. rewrite perm_count in Hp. rewrite <- !Hp. by apply H2.
  - intros w fd sa cpu load Hw H Hg Ha. rewrite length_app in *. simpl in *. destruct H as (H1 & H2); [lia|]. split; [lia|]. intros He.
    assert (even (live w)) as Heven by (apply H2; lia). unfold get_handle in Hg. rewrite Hl in Hg. apply force_cpu_spec in Hg as (-> & Hlt & _).
    destruct (min_element_least (cpu_load w)) as (m & Hm & Hmin); [intros E; rewrite E in Hlt; simpl in Hlt; lia|].
    assert (forall i n, cpu_load w !! i = Some n -> n = Z.of_nat (occ i (live w))) as Hn.
    { intros i n Hi. rewrite (load_counts w Hw i n Hi). apply wrap_small. pose proof (occ_length i (live w)). lia. }
    assert (forall j, (j < smp_count)%nat -> (occ (min_element (cpu_load w)) (live w) <= occ j (live w))%nat) as Hleast.
    { intros j Hj. rewrite <- (load_length w Hw) in Hj. apply lookup_lt_is_Some in Hj as (n & Hj).
      pose proof (Forall_lookup_1 _ _ _ _ Hmin Hj) as Hle. simpl in Hle. rewrite (Hn _ _ Hj), (Hn _ _ Hm) in Hle. lia. }
    intros i j Hi Hj. rewrite (occ_cons i), (occ_cons j), !occ_one. specialize (Heven i j Hi Hj). specialize (Hleast j Hj).
    destruct (decide (min_element _ = i)) as [<-|], (decide (min_element _ = j)); lia.
  - intros cpu l a H Ha. destruct (H Ha) as (H1 & H2). simpl in *. split; lia.
Qed.

Lemma move_runs before c after w : consistent w -> moving w = before ++ c :: after -> is_Some (run_move before c after w).
Proof.
  intros Hw Hm. unfold run_move. assert (c_cpu c < smp_count)%nat as Hc.
  { apply (Forall_forall (fun cpu => (cpu < smp_count)%nat) (live w)); [by apply live_shards|]. unfold live. rewrite Hm, !fmap_app. simpl. rewrite !elem_of_app, elem_of_cons. tauto. }
  rewrite <- (aps_length w Hw) in Hc. apply lookup_lt_is_Some in Hc as (a & ->). cbn [mbind option_bind].
  destruct (move_connected_socket key c a) as [a' []]; by eexists.
Qed.

Lemma closed_runs before cpu after w : consistent w -> closing w = before ++ cpu :: after -> is_Some (run_closed before cpu after w).
Proof.
  intros Hw Hm. unfold run_closed, closed_cpu. assert (cpu < smp_count)%nat as Hc.
  { apply (Forall_forall (fun cpu => (cpu < smp_count)%nat) (live w)); [by apply live_shards|]. unfold live. rewrite Hm, !elem_of_app, elem_of_cons. tauto. }
  rewrite <- (load_length w Hw) in Hc. apply lookup_lt_is_Some in Hc as (n & ->). by eexists.
Qed.

(** C22. In every execution of a listener and its shards: each connection that the kernel gave
    is on its way, waits, was accepted once, or was dropped by an abort; it waits and is
    accepted on the shard that its handle names, which is the one that the algorithm asks
    for; no call of accept waits where a connection does; a shard's load is the number of
    its handles; and what is submitted to a shard runs. *)
Theorem posix_connections (w : world) :
  rtc step world_init w ->
  consistent w /\ Forall chosen (accepted w) /\
  (forall before c after, moving w = before ++ c :: after -> is_Some (run_move before c after w)) /\
  (forall before cpu after, closing w = before ++ cpu :: after -> is_Some (run_closed before cpu after w)).
Proof.
  intros Hr. pose proof (execution_consistent w Hr) as Hw. split; [done|]. split; [by apply execution_chosen|].
  split; intros; [by apply move_runs|by apply closed_runs].
Qed.

(** Under [connection_distribution], as long as no handle was given back, any two shards
    have as many connections, or one of them one more. *)
Theorem posix_connections_even (w : world) :
  lba = connection_distribution -> rtc step world_init w -> Z.of_nat (length (accepted w)) < 2 ^ 32 ->
  length (live w) = length (accepted w) ->
  forall i j, (i < smp_count)%nat -> (j < smp_count)%nat -> (occ i (live w) <= occ j (live w) + 1)%nat.
Proof. intros Hl Hr Ha He. by apply execution_even. Qed.
End Accept.

(** ** An execution: a connection for the listener's shard, one that is moved and accepted. *)

Module Ex.
Definition ex_key : protocol_and_socket_address := (6, (16909060, 80)).
Definition first (l : list connection) : nat := 0.
Definition one : connection := Connection 10 (167772161, 4000) 0.
Definition two : connection := Connection 11 (167772162, 4001) 1.

Definition shard_one (q : list (protocol_and_socket_address * connection)) : list ap := [ap_init; Ap ∅ q].
Definition w_listening : world := World [0; 0] (Some 1%nat) (shard_one []) [] [] [] [] [] [].
Definition w_local : world := World [1; 0] None (shard_one []) [] [] [one] [(0%nat, 1%nat, Some one)] [one] [].
Definition w_again : world := World [1; 0] (Some 2%nat) (shard_one []) [] [] [one] [(0%nat, 1%nat, Some one)] [one] [].
Definition w_moving : world := World [1; 1] (Some 2%nat) (shard_one []) [two] [] [one] [(0%nat, 1%nat, Some one)] [one; two] [].
Definition w_queued : world := World [1; 1] (Some 2%nat) (shard_one [(ex_key, two)]) [] [] [one] [(0%nat, 1%nat, Some one)] [one; two] [].
Definition w_both : world :=
  World [1; 1] (Some 2%nat) (shard_one []) [] [] [one; two] [(0%nat, 1%nat, Some one); (1%nat, 3%nat, Some two)] [one; two] [].

Lemma accept_run : rtc (step 2 0 ex_key connection_distribution 0 first) (world_init 2) w_both.
Proof.
  eapply rtc_l; [apply (step_accept _ _ _ _ _ _ 1); [done|by apply not_elem_of_nil]|].
  eapply rtc_l; [apply (step_accepted _ _ _ _ _ _ 10 (167772161, 4000) w_listening w_local); by vm_compute|].
  eapply rtc_l; [apply (step_accept _ _ _ _ _ _ 2 w_local); [done|by apply (bool_decide_unpack _)]|].
  eapply rtc_l; [apply (step_accepted _ _ _ _ _ _ 11 (167772162, 4001) w_again w_moving); by vm_compute|].
  eapply rtc_l; [apply (step_move _ _ _ _ _ _ [] two [] w_moving w_queued); [done|by apply not_elem_of_nil|by vm_compute]|].
  eapply rtc_l; [apply (step_shard_accept _ _ _ _ _ _ 1 3 w_queued w_both); [done|by apply (bool_decide_unpack _)|by vm_compute]|].
  apply rtc_refl.
Qed.

Lemma first_one l : l <> [] -> (first l < length l)%nat.
Proof. destruct l; [done|unfold first; simpl; lia]. Qed.
End Ex.

Lemma posix_connections_witness :
  rtc (step 2 0 Ex.ex_key connection_distribution 0 Ex.first) (world_init 2) Ex.w_both /\
  consistent 2 Ex.ex_key Ex.w_both.
Proof.
  split; [exact Ex.accept_run|].
  exact (proj1 (posix_connections 2 0 Ex.ex_key connection_distribution 0 Ex.first Ex.first_one Ex.w_both Ex.accept_run)).
Defined.

Lemma posix_connections_even_witness :
  length (live Ex.ex_key Ex.w_both) = length (accepted Ex.w_both) /\ (occ 0%nat (live Ex.ex_key Ex.w_both) <= occ 1%nat (live Ex.ex_key Ex.w_both) + 1)%nat.
Proof.
  split; [by vm_compute|].
  exact (posix_connections_even 2 0 Ex.ex_key connection_distribution 0 Ex.first Ex.first_one Ex.w_both eq_refl Ex.accept_run
           ltac:(vm_compute; reflexivity) ltac:(vm_compute; reflexivity) 0%nat 1%nat ltac:(lia) ltac:(lia)).
Defined.
