(* ===== verification/Virtio.v ===== *)
(** * The virtio driver: src/network/virtio.cc, virtio-interface.hh

    [vring]: the descriptors, the two rings shared with the host, the list of free
    descriptors, posting chains of buffers and completing them.  Above it the header that a
    packet is sent with, and the buffers that received packets arrive in.  The host is the
    environment: what it reads and writes are the shared fields of [vring].  Addresses are
    integers; that a chain of buffers is moved into [_buffer_chains] is [Some]. *)

From S2P Require Import Prelude ByteOrder Packet Net.
From stdpp Require Import base numbers option list.

#[local] Open Scope Z_scope.

(** ** [setup_features()], by the options that are not ["off"] *)

Definition virtio_net_f_csum : Z := 2 ^ 0.
Definition virtio_net_f_guest_csum : Z := 2 ^ 1.
Definition virtio_net_f_mac : Z := 2 ^ 5.
Definition virtio_net_f_guest_tso4 : Z := 2 ^ 7.
Definition virtio_net_f_guest_ufo : Z := 2 ^ 10.
Definition virtio_net_f_host_tso4 : Z := 2 ^ 11.
Definition virtio_net_f_host_ufo : Z := 2 ^ 14.
Definition virtio_net_f_mrg_rxbuf : Z := 2 ^ 15.
Definition virtio_ring_f_indirect_desc : Z := 2 ^ 28.
Definition virtio_ring_f_event_idx : Z := 2 ^ 29.

Record options := Options { opt_event_index : bool; opt_csum_offload : bool; opt_tso : bool; opt_lro : bool; opt_ufo : bool }.

Definition when (b : bool) (bits : Z) (n : Z) : Z := if b then Z.lor n bits else n.
Definition setup_features (o : options) (hw : hw_features) : Z * hw_features :=
  let n := Z.lor virtio_ring_f_indirect_desc virtio_net_f_mrg_rxbuf in
  let n := when (opt_event_index o) virtio_ring_f_event_idx n in
  let n := when (opt_csum_offload o) (Z.lor virtio_net_f_csum virtio_net_f_guest_csum) n in
  let n := when (opt_tso o) virtio_net_f_host_tso4 n in
  let n := when (opt_lro o) virtio_net_f_guest_tso4 n in
  let n := when (opt_ufo o) virtio_net_f_guest_ufo (when (opt_ufo o) virtio_net_f_host_ufo n) in
  (Z.lor n virtio_net_f_mac,
   HwFeatures (tx_csum_ip_offload hw) (opt_csum_offload o) (opt_csum_offload o) (opt_lro o) (opt_tso o) (opt_ufo o) (mtu hw) (max_packet_len hw)).

(** ** [vring] *)

Record buffer := Buffer { b_addr : Z; b_len : Z; b_writeable : bool }.
(** [class desc]; the flag [indirect] is never set. *)
Record desc := Desc { d_paddr : Z; d_len : Z; d_has_next : bool; d_writeable : bool; d_next : Z }.

Definition set_next (i : Z) (d : desc) : desc := Desc (d_paddr d) (d_len d) (d_has_next d) (d_writeable d) (u16 i).
(** [prev->_flags.has_next = true; prev->_next = i] *)
Definition link (i : Z) (d : desc) : desc := Desc (d_paddr d) (d_len d) true (d_writeable d) (u16 i).
(** The fields of a descriptor for a buffer; [_next] is left. *)
Definition fill (b : buffer) (d : desc) : desc := Desc (b_addr b) (b_len b) false (b_writeable b) (d_next d).

Section Ring.
Context {C : Type}.
Variable buffers : C -> list buffer.
Variable event_index : bool.

(** [avail_idx], [avail_ring], [used_idx], [used_elements] are shared with the host. *)
Record vring := VRing {
  descs : list desc; buffer_chains : list (option C);
  avail_idx : Z; avail_ring : list Z; avail_head : Z; added_since_kick : Z;
  used_idx : Z; used_elements : list (Z * Z); used_tail : Z;
  free_head : Z; free_last : Z }.

Definition set_descs (ds : list desc) (r : vring) : vring :=
  VRing ds (buffer_chains r) (avail_idx r) (avail_ring r) (avail_head r) (added_since_kick r) (used_idx r) (used_elements r) (used_tail r) (free_head r) (free_last r).
Definition set_free (h l : Z) (r : vring) : vring :=
  VRing (descs r) (buffer_chains r) (avail_idx r) (avail_ring r) (avail_head r) (added_since_kick r) (used_idx r) (used_elements r) (used_tail r) h l.

Definition ring_size (r : vring) : Z := zlen (descs r).
Definition masked (r : vring) (idx : Z) : nat := Z.to_nat (Z.land idx (ring_size r - 1)).

(** The constructor: [setup()] on memory that is all zeros. *)
Definition vring_init (size : nat) : vring :=
  VRing (map (fun i => Desc 0 0 false false (u16 (Z.of_nat i + 1))) (seq 0 size)) (replicate size None)
    0 (replicate size 0) 0 0 0 (replicate size (0, 0)) 0 0 (Z.of_nat size - 1).

(** [allocate_desc()] *)
Definition allocate_desc (r : vring) : option (Z * vring) :=
  if free_head r =? -1 then None
  else if free_head r =? free_last r then Some (free_head r, set_free (-1) (-1) r)
  else d ← descs r !! Z.to_nat (free_head r); Some (free_head r, set_free (d_next d) (free_last r) r).

(** The loop of [post] over the buffers of a chain: [prev] is the descriptor in front, or
    the one on the stack, whose [_next] is [head]. *)
Fixpoint post_buffers (prev : option Z) (head : Z) (bs : list buffer) (r : vring) : option (Z * vring) :=
  match bs with
  | [] => Some (head, r)
  | b :: bs =>
    '(i, r) ← allocate_desc r;
    '(head, ds) ← match prev with
                  | None => Some (u16 i, descs r)
                  | Some p => d ← descs r !! Z.to_nat p; Some (head, <[Z.to_nat p := link i d]> (descs r))
                  end;
    d ← ds !! Z.to_nat i;
    post_buffers (Some i) head bs (set_descs (<[Z.to_nat i := fill b d]> ds) r)
  end.
Definition post_chain (bc : C) (r : vring) : option vring :=
  '(head, r) ← post_buffers None 0 (buffers bc) r;
  if decide (Z.to_nat head < length (buffer_chains r))%nat then
    Some (VRing (descs r) (<[Z.to_nat head := Some bc]> (buffer_chains r)) (avail_idx r)
            (<[masked r (avail_head r) := head]> (avail_ring r)) (u16 (avail_head r + 1)) (u16 (added_since_kick r + 1))
            (used_idx r) (used_elements r) (used_tail r) (free_head r) (free_last r))
  else None.
Fixpoint post_chains (bcs : list C) (r : vring) : option vring :=
  match bcs with [] => Some r | bc :: bcs => r ← post_chain bc r; post_chains bcs r end.

(** [kick()]: whether the host is notified, by the event that it asks for or its flag. *)
Definition kick (avail_event : Z) (notifications_disabled : bool) (r : vring) : bool * vring :=
  let need_kick := if event_index then u16 (avail_idx r - avail_event - 1) <? added_since_kick r else true in
  if negb event_index && notifications_disabled then (false, r)
  else if need_kick || (32767 <=? added_since_kick r) then
    (true, VRing (descs r) (buffer_chains r) (avail_idx r) (avail_ring r) (avail_head r) 0 (used_idx r) (used_elements r) (used_tail r) (free_head r) (free_last r))
  else (false, r).
(** [post(begin, end)] *)
Definition post (bcs : list C) (avail_event : Z) (notifications_disabled : bool) (r : vring) : option (bool * vring) :=
  r ← post_chains bcs r;
  Some (kick avail_event notifications_disabled
          (VRing (descs r) (buffer_chains r) (avail_head r) (avail_ring r) (avail_head r) (added_since_kick r) (used_idx r) (used_elements r) (used_tail r) (free_head r) (free_last r))).

(** The last descriptor of a chain. *)
Fixpoint chain_last (fuel : nat) (ds : list desc) (i : Z) : option Z :=
  match fuel with
  | O => None
  | S fuel => d ← ds !! Z.to_nat i; if d_has_next d then chain_last fuel ds (d_next d) else Some i
  end.

(** One round of [do_complete()]: the chain that is completed and the length that the host
    gives. *)
Definition complete_one (r : vring) : option ((C * Z) * vring) :=
  '(id, len) ← used_elements r !! masked r (used_tail r);
  bc ← mjoin (buffer_chains r !! Z.to_nat id);
  ds ← (if free_last r =? -1 then Some (descs r)
        else d ← descs r !! Z.to_nat (free_last r); Some (<[Z.to_nat (free_last r) := set_next id d]> (descs r)));
  l ← chain_last (length ds) ds id;
  Some ((bc, len),
        VRing ds (<[Z.to_nat id := None]> (buffer_chains r)) (avail_idx r) (avail_ring r) (avail_head r) (added_since_kick r)
          (used_idx r) (used_elements r) (u16 (used_tail r + 1)) (if free_last r =? -1 then id else free_head r) l).
Fixpoint complete_loop (fuel : nat) (used_head : Z) (r : vring) : option (list (C * Z) * vring) :=
  match fuel with
  | O => if used_head =? used_tail r then Some ([], r) else None
  | S fuel =>
    if used_head =? used_tail r then Some ([], r)
    else '(c, r) ← complete_one r; '(cs, r) ← complete_loop fuel used_head r; Some (c :: cs, r)
  end.
(** [do_complete()], with a round for each element of the ring: [_complete.bunch] is given the
    difference, which is an [int], as a [uint64_t]. *)
Definition do_complete (r : vring) : option (Z * list (C * Z) * vring) :=
  let used_head := used_idx r in
  let count := used_tail r - used_head in
  '(cs, r) ← complete_loop (Z.to_nat (u16 (used_head - used_tail r))) used_head r; Some (u64 count, cs, r).
End Ring.
Arguments vring C : clear implicits.

(** ** Packets to send: [txq::post] *)

Record net_hdr := NetHdr { h_needs_csum : bool; h_gso_type : Z; h_hdr_len : Z; h_gso_size : Z; h_csum_start : Z; h_csum_offset : Z }.
Definition net_hdr_zero : net_hdr := NetHdr false 0 0 0 0 0.
Definition gso_tcpv4 : Z := 1.
Definition gso_udp : Z := 3.

(** The header of a packet with its length and its offload information. *)
Definition tx_csum (offset : Z) (oi : offload_info) (h : net_hdr) : net_hdr :=
  if needs_csum oi then NetHdr true (h_gso_type h) (h_hdr_len h) (h_gso_size h) (u16 (eth_hdr_len + ip_hdr_len oi)) offset else h.
Definition tx_header (hw : hw_features) (len : Z) (oi : offload_info) : net_hdr :=
  if negb (tx_csum_l4_offload hw) then net_hdr_zero
  else if protocol oi =? 6 then
    let h := tx_csum 16 oi net_hdr_zero in
    if tso_seg_size oi =? 0 then h
    else NetHdr (h_needs_csum h) gso_tcpv4 (u16 (eth_hdr_len + ip_hdr_len oi + tcp_hdr_len oi)) (tso_seg_size oi) (h_csum_start h) (h_csum_offset h)
  else if protocol oi =? 17 then
    let h := tx_csum 6 oi net_hdr_zero in
    if tx_ufo hw && (mtu hw + eth_hdr_len <? len) then
      NetHdr (h_needs_csum h) gso_udp (u16 (eth_hdr_len + ip_hdr_len oi + udp_hdr_len oi)) (u16 (mtu hw - ip_hdr_len oi - udp_hdr_len oi)) (h_csum_start h) (h_csum_offset h)
    else h
  else net_hdr_zero.

(** ** Buffers that were received: [rxq::complete_buffer]

    A buffer by its bytes; [num_buffers] is the last field of the header, in host order. *)

Record rxq := Rxq { remaining_buffers : Z; fragments : list (list Z) }.
Definition rxq_init : rxq := Rxq 0 [].

Section Receive.
Variable e : endian.
Variable header_len : Z.

(** [complete_buffer(bc, len)]: the packet that is received, and how many descriptors become
    available; [None] for the failed assertion and for a length below that of the header. *)
Definition complete_buffer (buf : list Z) (len : Z) (q : rxq) : option (option (list (list Z)) * Z * rxq) :=
  '(start, len, n, fs) ←
    (if remaining_buffers q =? 0 then
       let n := host_load e (take 2 (drop 10 buf)) in
       if (n <? 1) || (len <? header_len) then None else Some (header_len, len - header_len, n, [])
     else Some (0, len, remaining_buffers q, fragments q));
  let fs := fs ++ [take (Z.to_nat len) (drop (Z.to_nat start) buf)] in
  Some (if n - 1 =? 0 then (Some fs, zlen fs, Rxq 0 fs) else (None, 0, Rxq (n - 1) fs)).
End Receive.
