(* ===== verification/VirtioSpec.v ===== *)
(** * What the virtio rings promise

    Whatever order the host takes and gives back chains in, the driver's list of free
    descriptors and the chains in flight share out the descriptors, the host reads the
    buffers that were posted, and each chain is completed once, in the order and with the
    lengths that the host gave ([vring_completes]). *)

From S2P Require Import Prelude ByteOrder Packet Net Virtio.
From stdpp Require Import base numbers option list relations.

#[local] Open Scope Z_scope.

(** ** A window of a ring: what is between two free-running indices *)

Definition window {A} (ring : list A) (size start : Z) (w : list A) : Prop :=
  forall k x, w !! k = Some x -> ring !! Z.to_nat ((start + Z.of_nat k) mod size) = Some x.

Lemma window_push {A} (ring : list A) size start w x :
  0 < size -> zlen ring = size -> zlen w < size -> window ring size start w ->
  window (<[Z.to_nat ((start + zlen w) mod size) := x]> ring) size start (w ++ [x]).
Proof.
  intros Hs Hr Hw H k y Hk. pose proof (Z.mod_pos_bound (start + zlen w) size Hs) as Hb. unfold zlen in *.
  apply lookup_app_Some in Hk as [Hk|(Hl & Hk)].
  - pose proof (lookup_lt_Some _ _ _ Hk) as Hlt. rewrite list_lookup_insert_ne; [by apply H|].
    pose proof (Z.mod_pos_bound (start + Z.of_nat k) size Hs). intros E. apply Z2Nat.inj in E; [|lia..].
    assert ((Z.of_nat (length w) - Z.of_nat k) mod size = 0) as E0.
    { replace (Z.of_nat (length w) - Z.of_nat k) with ((start + Z.of_nat (length w)) - (start + Z.of_nat k)) by lia.
      rewrite Zminus_mod, E, Z.sub_diag. apply Z.mod_0_l. lia. }
    rewrite Z.mod_small in E0 by lia. lia.
  - apply list_lookup_singleton_Some in Hk as (Hk & <-). replace k with (length w) by lia. apply list_lookup_insert_eq. lia.
Qed.

Lemma window_pop {A} (ring : list A) size start x w :
  window ring size start (x :: w) -> ring !! Z.to_nat (start mod size) = Some x /\ window ring size (start + 1) w.
Proof.
  intros H. split; [rewrite <- (Z.add_0_r start); by apply (H 0%nat)|]. intros k y Hk. rewrite <- (H (S k) y Hk). do 3 f_equal. lia.
Qed.

Lemma ring_window_shift {A} (ring : list A) k start start' w : 0 <= k <= 16 -> u16 start = u16 start' ->
  window ring (2 ^ k) start w -> window ring (2 ^ k) start' w.
Proof.
  intros Hk E H j x Hj. rewrite <- (H j x Hj). do 2 f_equal.
  assert (2 ^ k | 2 ^ 16) as Hd by (exists (2 ^ (16 - k)); rewrite <- Z.pow_add_r by lia; f_equal; lia).
  assert (0 < 2 ^ k) by (apply Z.pow_pos_nonneg; lia). unfold u16, wrap in E. rewrite <- (Z.add_mod_idemp_l start), <- (Z.add_mod_idemp_l start') by lia.
  rewrite <- (Z.mod_mod_divide start (2 ^ 16)), <- (Z.mod_mod_divide start' (2 ^ 16)) by done. by rewrite E.
Qed.

(** ** Chains of descriptors *)

Definition shows (b : buffer) (d : desc) : Prop := d_paddr d = b_addr b /\ d_len d = b_len b /\ d_writeable d = b_writeable b.
Definition continues (d : desc) (l : list nat) : Prop :=
  match l with [] => d_has_next d = false | j :: _ => d_has_next d = true /\ d_next d = Z.of_nat j end.
Fixpoint chain_at (ds : list desc) (l : list nat) (bs : list buffer) : Prop :=
  match l, bs with
  | i :: l, b :: bs => (exists d, ds !! i = Some d /\ shows b d /\ continues d l) /\ match l with [] => bs = [] | _ => chain_at ds l bs end
  | _, _ => False
  end.
Fixpoint linked (ds : list desc) (l : list nat) : Prop :=
  match l with
  | i :: l => match l with [] => True | j :: _ => (exists d, ds !! i = Some d /\ d_next d = Z.of_nat j) /\ linked ds l end
  | [] => True
  end.
(** The list of free descriptors. *)
Definition free_list (ds : list desc) (head last : Z) (l : list nat) : Prop :=
  match l with
  | [] => head = -1 /\ last = -1
  | i :: _ => head = Z.of_nat i /\ last = Z.of_nat (List.last l 0%nat) /\ linked ds l
  end.

(** What the host reads from the head of a chain. *)
Fixpoint host_chain (fuel : nat) (ds : list desc) (i : Z) : option (list buffer) :=
  match fuel with
  | O => None
  | S fuel =>
    d ← ds !! Z.to_nat i;
    let b := Buffer (d_paddr d) (d_len d) (d_writeable d) in
    if d_has_next d then cons b <$> host_chain fuel ds (d_next d) else Some [b]
  end.

Lemma chain_reads ds l bs fuel i : chain_at ds (i :: l) bs -> (length l < fuel)%nat ->
  host_chain fuel ds (Z.of_nat i) = Some bs /\ chain_last fuel ds (Z.of_nat i) = Some (Z.of_nat (List.last (i :: l) 0%nat)).
Proof.
  revert i bs fuel. induction l as [|j l IH]; intros i [|b bs] fuel H Hf; try done; (destruct fuel as [|fuel]; [simpl in Hf; lia|]).
  - destruct H as ((d & Hd & (E1 & E2 & E3) & Hc) & ->). simpl in *. rewrite Nat2Z.id, Hd. simpl. rewrite Hc, E1, E2, E3. by destruct b.
  - destruct H as ((d & Hd & (E1 & E2 & E3) & Hn & Hj) & H). simpl in Hf. destruct (IH j bs fuel H ltac:(lia)) as (IH1 & IH2).
    cbn [host_chain chain_last]. rewrite Nat2Z.id, Hd. cbn [mbind option_bind]. rewrite Hn, Hj, IH1, IH2, E1, E2, E3. by destruct b.
Qed.

Lemma chain_linked ds l bs : chain_at ds l bs -> linked ds l.
Proof.
  revert bs. induction l as [|i l IH]; intros [|b bs] H; try done. destruct l as [|j l]; [done|].
  destruct H as ((d & Hd & _ & _ & Hj) & H). split; [by exists d|]. by apply (IH bs).
Qed.

Lemma chain_frame ds ds' l bs : (forall i, i ∈ l -> ds' !! i = ds !! i) -> chain_at ds l bs -> chain_at ds' l bs.
Proof.
  revert bs. induction l as [|i l IH]; intros [|b bs] Hf H; try done. destruct H as ((d & Hd & H1 & H2) & H3). simpl.
  split; [exists d; rewrite Hf by (by left); done|]. destruct l as [|j l]; [done|]. apply IH; [|done]. intros k Hk. apply Hf. by right.
Qed.

Lemma linked_frame ds ds' l : (forall i, i ∈ l -> ds' !! i = ds !! i) -> linked ds l -> linked ds' l.
Proof.
  induction l as [|i l IH]; intros Hf H; [done|]. destruct l as [|j l]; [done|]. destruct H as ((d & Hd & Hj) & H).
  split; [exists d; rewrite Hf by (by left); done|]. apply IH; [|done]. intros k Hk. apply Hf. by right.
Qed.

Lemma free_frame ds ds' h l f : (forall i, i ∈ f -> ds' !! i = ds !! i) -> free_list ds h l f -> free_list ds' h l f.
Proof. destruct f as [|i f]; [done|]. intros Hf (H1 & H2 & H3). split_and!; [done..|]. by eapply linked_frame. Qed.

Lemma linked_app ds l i l' : l <> [] -> linked ds l -> linked ds (i :: l') ->
  (exists d, ds !! List.last l 0%nat = Some d /\ d_next d = Z.of_nat i) -> linked ds (l ++ i :: l').
Proof.
  intros Hne. induction l as [|j l IH]; [done|]. intros H1 H2 Hd. destruct l as [|k l]; [done|].
  destruct H1 as (H & H1). split; [done|]. apply IH; [done..|exact Hd].
Qed.

(** ** Taking descriptors *)

Lemma last_in (i : nat) l : List.last (i :: l) 0%nat ∈ i :: l.
Proof. revert i. induction l as [|j l IH]; intros i; [by left|]. right. apply IH. Qed.

Section Ring.
Context {C : Type}.
Variable buffers : C -> list buffer.
Variable event_index : bool.

Lemma allocate_desc_spec (r : vring C) i f :
  NoDup (i :: f) -> free_list (descs r) (free_head r) (free_last r) (i :: f) -> exists h l,
  allocate_desc r = Some (Z.of_nat i, set_free h l r) /\ free_list (descs r) h l f.
Proof.
  intros Hd (Hh & Hl & Hk). unfold allocate_desc. rewrite Hh. destruct (Z.eqb_spec (Z.of_nat i) (-1)); [lia|].
  destruct f as [|j f].
  - rewrite Hl. simpl. rewrite Z.eqb_refl. exists (-1), (-1). split; [done|done].
  - destruct Hk as ((d & Hdi & Hj) & Hk). destruct (Z.eqb_spec (Z.of_nat i) (free_last r)) as [E|_].
    + exfalso. rewrite Hl in E. apply Nat2Z.inj in E. apply NoDup_cons in Hd as (Hd & _). apply Hd. rewrite E at 1. exact (last_in j f).
    + rewrite Nat2Z.id, Hdi. cbn [mbind option_bind]. rewrite Hj. exists (Z.of_nat j), (free_last r). split; [done|]. split_and!; [done|exact Hl|done].
Qed.

Lemma u16_index i n : (i < n)%nat -> Z.of_nat n <= 32768 -> u16 (Z.of_nat i) = Z.of_nat i.
Proof. intros. apply wrap_small. lia. Qed.

(** What [post_buffers] leaves: the descriptors [l] that it took hold the buffers, that in
    front leads to them, and the others are as they were. *)
Record posted_at (ds ds' : list desc) (prev : option nat) (l : list nat) (bs : list buffer) : Prop := {
  posted_length : length ds' = length ds;
  posted_chain : bs <> [] -> chain_at ds' l bs;
  posted_others : forall j, j ∉ l -> prev <> Some j -> ds' !! j = ds !! j;
  posted_prev : forall p d, prev = Some p -> ds !! p = Some d -> ds' !! p = Some (match l with [] => d | i :: _ => link (Z.of_nat i) d end)
}.

Lemma link_spec (ds : list desc) prev i : (i < length ds)%nat -> (forall p, prev = Some p -> p <> i /\ (p < length ds)%nat) -> exists ds1 d,
  (match prev with None => Some (u16 (Z.of_nat i), ds) | Some p => d ← ds !! p; Some (0, <[p := link (Z.of_nat i) d]> ds) end = Some (match prev with None => u16 (Z.of_nat i) | _ => 0 end, ds1)) /\
  ds1 !! i = Some d /\ length ds1 = length ds /\ (forall j, prev <> Some j -> ds1 !! j = ds !! j) /\
  (forall p dp, prev = Some p -> ds !! p = Some dp -> ds1 !! p = Some (link (Z.of_nat i) dp)).
Proof.
  intros Hi Hp. destruct (lookup_lt_is_Some_2 ds i Hi) as (d & Hd). destruct prev as [p|].
  - destruct (Hp p eq_refl) as (Hne & Hlt). destruct (lookup_lt_is_Some_2 ds p Hlt) as (dp & Hdp). rewrite Hdp. cbn [mbind option_bind].
    exists (<[p := link (Z.of_nat i) dp]> ds), d. split_and!; [done|by rewrite list_lookup_insert_ne|apply length_insert| |].
    + intros j Hj. rewrite list_lookup_insert_ne; congruence.
    + intros p' dp' [= <-] E. rewrite list_lookup_insert_eq by done. congruence.
  - exists ds, d. split_and!; done.
Qed.

Lemma post_buffers_spec bs : forall (r : vring C) free prev head,
  NoDup free -> (forall i, i ∈ free -> (i < length (descs r))%nat) -> Z.of_nat (length (descs r)) <= 32768 ->
  free_list (descs r) (free_head r) (free_last r) free -> (length bs <= length free)%nat ->
  (forall p, prev = Some p -> p ∉ free /\ (p < length (descs r))%nat) -> exists ds' h l,
  post_buffers (Z.of_nat <$> prev) head bs r =
    Some (match prev, take (length bs) free with None, i :: _ => Z.of_nat i | _, _ => head end, set_free h l (set_descs ds' r)) /\
  posted_at (descs r) ds' prev (take (length bs) free) bs /\ free_list ds' h l (drop (length bs) free).
Proof.
  induction bs as [|b bs IH]; intros r free prev head Hnd Hlt Hsz Hfree Hlen Hprev.
  - exists (descs r), (free_head r), (free_last r). rewrite take_0, drop_0. split; [simpl; destruct r; by destruct prev|]. split; [|done].
    split; done.
  - destruct free as [|i f]; [simpl in Hlen; lia|]. destruct (allocate_desc_spec r i f Hnd Hfree) as (h & l & Ha & Hf).
    pose proof (Hlt i ltac:(by left)) as Hi. apply NoDup_cons in Hnd as (Hif & Hnd).
    destruct (link_spec (descs r) prev i Hi) as (ds1 & d & Hlink & Hd1 & Hlen1 & Ho1 & Hp1).
    { intros p Ep. destruct (Hprev p Ep) as (Hn & Hl). apply not_elem_of_cons in Hn as (Hn & _). done. }
    set (r2 := set_descs (<[i := fill b d]> ds1) (set_free h l r)).
    assert (length (descs r2) = length (descs r)) as Hlen2 by (unfold r2; simpl; by rewrite length_insert).
    assert (Hframe : forall j, j ∈ f -> descs r2 !! j = descs r !! j).
    { intros j Hj. unfold r2. simpl. rewrite list_lookup_insert_ne by (intros ->; done). apply Ho1. intros Ep. destruct (Hprev j Ep) as (Hn & _). apply not_elem_of_cons in Hn as (_ & Hn). done. }
    destruct (IH r2 f (Some i) (match prev with None => Z.of_nat i | _ => head end) Hnd) as (ds' & h' & l' & Hp & [P1 P2 P3 P4] & Hfr).
    { intros j Hj. rewrite Hlen2. apply Hlt. by right. }
    { by rewrite Hlen2. }
    { apply (free_frame (descs r)); [exact Hframe|exact Hf]. }
    { simpl in Hlen. lia. }
    { intros p [= <-]. split; [done|]. by rewrite Hlen2. }
    exists ds', h', l'. split.
    + cbn [post_buffers]. rewrite Ha. cbn [mbind option_bind].
      assert (match Z.of_nat <$> prev with None => Some (u16 (Z.of_nat i), descs (set_free h l r))
                | Some p => d ← descs (set_free h l r) !! Z.to_nat p; Some (head, <[Z.to_nat p := link (Z.of_nat i) d]> (descs (set_free h l r))) end
              = Some (match prev with None => Z.of_nat i | _ => head end, ds1)) as ->.
      { destruct prev as [p|]; simpl in *; [rewrite Nat2Z.id; destruct (descs r !! p); [|done]; simpl in *; congruence|].
        rewrite (u16_index i (length (descs r))) by done. congruence. }
      cbn [mbind option_bind]. rewrite Nat2Z.id, Hd1. cbn [mbind option_bind]. change (Some (Z.of_nat i)) with (Z.of_nat <$> Some i).
      fold r2. rewrite Hp. cbn [take]. by destruct prev.
    + split; [|exact Hfr]. cbn [length take]. assert (ds' !! i = Some (match take (length bs) f with [] => fill b d | j :: _ => link (Z.of_nat j) (fill b d) end)) as Hi'.
      { apply (P4 i (fill b d) eq_refl). unfold r2. simpl. apply list_lookup_insert_eq. by rewrite Hlen1. }
      split.
      * by rewrite P1.
      * intros _. split.
        -- eexists. split; [exact Hi'|]. destruct bs as [|b2 bs]; [done|]. destruct f as [|j f]; [simpl in Hlen; lia|]. simpl.
           split; [done|]. split; [done|]. apply (u16_index j (length (descs r))); [|done]. apply Hlt. right. by left.
        -- destruct bs as [|b2 bs]; [done|]. destruct f as [|j f]; [simpl in Hlen; lia|]. by apply P2.
      * intros j Hj Hne. apply not_elem_of_cons in Hj as (Hji & Hj). rewrite P3 by (congruence || done). unfold r2. simpl.
        rewrite list_lookup_insert_ne by done. by apply Ho1.
      * intros p dp Ep Hdp. destruct (Hprev p Ep) as (Hn & _). apply not_elem_of_cons in Hn as (Hpi & Hpf).
        rewrite P3; [|intros Hin; apply Hpf; by eapply subseteq_take|congruence]. unfold r2. simpl. rewrite list_lookup_insert_ne by done. by apply Hp1.
Qed.

(** ** The ring and the host

    [aw] are the heads that wait for the host, [tk] those that it has, [uw] what it gave back
    and was not yet completed; [fl] the chains in flight, each with its descriptors. *)

Definition head_of (e : C * list nat) : nat := List.hd 0%nat (snd e).
Definition in_flight (r : vring C) (e : C * list nat) : Prop :=
  snd e <> [] /\ chain_at (descs r) (snd e) (buffers (fst e)) /\ buffer_chains r !! head_of e = Some (Some (fst e)).

Record ring_ok (r : vring C) (hidx : Z) (aw tk : list nat) (uw : list (nat * Z)) (free : list nat) (fl : list (C * list nat)) : Prop := {
  ok_pow : exists k, 0 <= k <= 15 /\ ring_size r = 2 ^ k;
  ok_chains : length (buffer_chains r) = length (descs r);
  ok_avail : length (avail_ring r) = length (descs r);
  ok_used : length (used_elements r) = length (descs r);
  ok_head : avail_head r = u16 (hidx + zlen aw);
  ok_used_idx : used_idx r = u16 (used_tail r + zlen uw);
  ok_perm : free ++ concat (snd <$> fl) ≡ₚ seq 0 (length (descs r));
  ok_free : free_list (descs r) (free_head r) (free_last r) free;
  ok_fl : Forall (in_flight r) fl;
  ok_heads : head_of <$> fl ≡ₚ aw ++ tk ++ (fst <$> uw);
  ok_aw : window (avail_ring r) (ring_size r) hidx (Z.of_nat <$> aw);
  ok_uw : window (used_elements r) (ring_size r) (used_tail r) (prod_map Z.of_nat id <$> uw)
}.

Lemma ring_nodup r hidx aw tk uw free fl : ring_ok r hidx aw tk uw free fl -> NoDup (free ++ concat (snd <$> fl)).
Proof. intros H. rewrite (ok_perm _ _ _ _ _ _ _ H). apply NoDup_seq. Qed.

Lemma ring_in r hidx aw tk uw free fl i : ring_ok r hidx aw tk uw free fl -> i ∈ free ++ concat (snd <$> fl) -> (i < length (descs r))%nat.
Proof. intros H Hi. rewrite (ok_perm _ _ _ _ _ _ _ H) in Hi. apply elem_of_seq in Hi. lia. Qed.

Lemma ring_small r hidx aw tk uw free fl : ring_ok r hidx aw tk uw free fl -> Z.of_nat (length (descs r)) <= 32768.
Proof.
  intros H. destruct (ok_pow _ _ _ _ _ _ _ H) as (k & Hk & E). unfold ring_size, zlen in E. rewrite E.
  change 32768 with (2 ^ 15). apply Z.pow_le_mono_r; lia.
Qed.

Lemma masked_mod r hidx aw tk uw free fl idx : ring_ok r hidx aw tk uw free fl -> masked r idx = Z.to_nat (idx mod ring_size r).
Proof.
  intros H. destruct (ok_pow _ _ _ _ _ _ _ H) as (k & Hk & E). unfold masked. rewrite E, Z.sub_1_r, <- Z.ones_equiv, Z.land_ones by lia. done.
Qed.

Lemma ring_pos r hidx aw tk uw free fl : ring_ok r hidx aw tk uw free fl -> 0 < ring_size r.
Proof. intros H. destruct (ok_pow _ _ _ _ _ _ _ H) as (k & Hk & ->). apply Z.pow_pos_nonneg; lia. Qed.

Lemma mod_u16 r hidx aw tk uw free fl idx : ring_ok r hidx aw tk uw free fl -> u16 idx mod ring_size r = idx mod ring_size r.
Proof.
  intros H. destruct (ok_pow _ _ _ _ _ _ _ H) as (k & Hk & ->). unfold u16, wrap. apply Z.mod_mod_divide.
  exists (2 ^ (16 - k)). rewrite <- Z.pow_add_r by lia. by replace (16 - k + k) with 16 by lia.
Qed.

Lemma heads_concat (fl : list (C * list nat)) : Forall (fun e => snd e <> []) fl ->
  exists t, concat (snd <$> fl) ≡ₚ (head_of <$> fl) ++ t.
Proof.
  induction 1 as [|[c l] fl Hl _ (t & IH)]; [by exists []|]. destruct l as [|h l]; [done|]. simpl. exists (l ++ t).
  rewrite IH. unfold head_of at 2. simpl. f_equiv. rewrite !app_assoc. apply Permutation_app_tail, Permutation_app_comm.
Qed.

Lemma in_flight_nonempty r fl : Forall (in_flight r) fl -> Forall (fun e => snd e <> []) fl.
Proof. intros H. eapply Forall_impl; [exact H|]. by intros e (He & _). Qed.

(** There are as many chains in flight as heads, and no more than descriptors. *)
Lemma ring_counts r hidx aw tk uw free fl : ring_ok r hidx aw tk uw free fl ->
  (length free + length (concat (snd <$> fl)) = length (descs r))%nat /\ (length aw + length tk + length uw <= length (concat (snd <$> fl)))%nat /\
  NoDup (head_of <$> fl) /\ (forall e, e ∈ fl -> head_of e ∈ concat (snd <$> fl)).
Proof.
  intros H. pose proof (Permutation_length (ok_perm _ _ _ _ _ _ _ H)) as E. rewrite length_app, length_seq in E.
  destruct (heads_concat fl (in_flight_nonempty r fl (ok_fl _ _ _ _ _ _ _ H))) as (t & Ht).
  pose proof (Permutation_length (ok_heads _ _ _ _ _ _ _ H)) as E2. rewrite !length_app, !length_fmap in E2.
  pose proof (Permutation_length Ht) as E3. rewrite length_app, length_fmap in E3.
  pose proof (ring_nodup _ _ _ _ _ _ _ H) as Hnd. apply NoDup_app in Hnd as (_ & _ & Hnd). rewrite Ht in Hnd. apply NoDup_app in Hnd as (Hnd & _ & _).
  split_and!; [done|lia|done|]. intros e He. rewrite Ht. apply elem_of_app. left. by apply list_elem_of_fmap_2.
Qed.

Lemma in_flight_frame r r' fl :
  (forall i, i ∈ concat (snd <$> fl) -> descs r' !! i = descs r !! i /\ buffer_chains r' !! i = buffer_chains r !! i) ->
  Forall (in_flight r) fl -> Forall (in_flight r') fl.
Proof.
  intros Hf H. apply Forall_forall. intros e He. rewrite Forall_forall in H. destruct (H e He) as (H1 & H2 & H3).
  assert (forall i, i ∈ snd e -> i ∈ concat (snd <$> fl)) as Hin.
  { intros i Hi. apply list_elem_of_In, in_concat. exists (snd e). split; apply list_elem_of_In; [by apply list_elem_of_fmap_2|done]. }
  split; [done|]. split.
  - apply (chain_frame (descs r)); [|done]. intros i Hi. by apply Hf, Hin.
  - destruct (Hf (head_of e)) as (_ & ->); [|done]. apply Hin. unfold head_of. destruct (snd e); [done|by left].
Qed.

Lemma u16_add a b : u16 (u16 a + b) = u16 (a + b).
Proof. unfold u16, wrap. apply Z.add_mod_idemp_l. lia. Qed.

Lemma u16_idem a : u16 (u16 a) = u16 a.
Proof. unfold u16, wrap. apply Z.mod_mod. lia. Qed.

Lemma zlen_fmap {A B} (f : A -> B) (l : list A) : zlen (f <$> l) = zlen l.
Proof. unfold zlen. by rewrite length_fmap. Qed.

Lemma concat_snoc (fl : list (C * list nat)) e : concat (snd <$> fl ++ [e]) = concat (snd <$> fl) ++ snd e.
Proof. rewrite fmap_app, concat_app. simpl. by rewrite app_nil_r. Qed.

(** The index that a ring's end has is the position behind its window. *)
Lemma masked_end r hidx aw tk uw free fl idx start n :
  ring_ok r hidx aw tk uw free fl -> idx = u16 (start + n) -> masked r idx = Z.to_nat ((start + n) mod ring_size r).
Proof. intros H ->. rewrite (masked_mod r _ _ _ _ _ _ _ H). f_equal. by eapply mod_u16. Qed.

Lemma post_chain_ok r hidx aw tk uw free fl bc :
  ring_ok r hidx aw tk uw free fl -> buffers bc <> [] -> (length (buffers bc) <= length free)%nat -> exists r' h,
  post_chain buffers bc r = Some r' /\ head_of (bc, take (length (buffers bc)) free) = h /\
  ring_ok r' hidx (aw ++ [h]) tk uw (drop (length (buffers bc)) free) (fl ++ [(bc, take (length (buffers bc)) free)]) /\
  avail_idx r' = avail_idx r /\ used_tail r' = used_tail r.
Proof.
  intros H Hne Hlen. pose proof (ring_nodup _ _ _ _ _ _ _ H) as Hnd. pose proof (ring_counts _ _ _ _ _ _ _ H) as (Hc1 & Hc2 & Hc3 & Hc4).
  pose proof Hnd as Hnd'. apply NoDup_app in Hnd' as (Hndf & Hdisj & _).
  destruct (post_buffers_spec (buffers bc) r free None 0 Hndf) as (ds' & h & l & Hp & [P1 P2 P3 _] & Hfr); try done.
  { intros i Hi. apply (ring_in _ _ _ _ _ _ _ i H). apply elem_of_app. by left. }
  { by eapply ring_small. }
  { by apply (ok_free _ _ _ _ _ _ _ H). }
  specialize (P2 Hne). set (n := length (buffers bc)) in *. assert (0 < n)%nat as Hn by (unfold n; destruct (buffers bc); [done|simpl; lia]).
  assert (forall i, i ∈ take n free -> i ∈ free) as Htake by (intros i Hi; by eapply subseteq_take).
  destruct free as [|i free]; [simpl in Hlen; lia|]. set (l0 := take n (i :: free)) in *.
  assert (exists l1, l0 = i :: l1) as (l1 & El0) by (unfold l0; destruct n; [lia|]; by eexists).
  assert (i < length (descs r))%nat as Hi by (apply (ring_in _ _ _ _ _ _ _ i H), elem_of_app; left; by left).
  unfold post_chain. change (Z.of_nat <$> None) with (@None Z) in Hp. rewrite Hp. cbn [mbind option_bind]. rewrite El0. cbn [hd]. rewrite Nat2Z.id.
  rewrite decide_True by (simpl; rewrite (ok_chains _ _ _ _ _ _ _ H); exact Hi).
  set (r' := VRing _ _ _ _ _ _ _ _ _ _ _). exists r', i. split; [done|]. split; [by unfold head_of; simpl|].
  assert (ring_size r' = ring_size r) as Hsz by (unfold ring_size, zlen; simpl; by rewrite P1).
  split; [|done]. split; rewrite ?Hsz; try (by simpl; rewrite ?length_insert, P1; apply H).
  - by apply H.
  - simpl. rewrite (ok_head _ _ _ _ _ _ _ H), u16_add, zlen_app. f_equal. unfold zlen. simpl. lia.
  - by apply H.
  - rewrite concat_snoc. simpl snd. rewrite <- El0. simpl descs. rewrite P1. etrans; [|exact (ok_perm _ _ _ _ _ _ _ H)].
    assert (l0 ++ drop n (i :: free) = i :: free) as Ef by apply take_drop. rewrite <- Ef at 2.
    rewrite (Permutation_app_comm (concat _) l0), !app_assoc. apply Permutation_app_tail, Permutation_app_comm.
  - exact Hfr.
  - apply Forall_app. split.
    + apply (in_flight_frame r); [|by apply H]. intros j Hj. assert (j ∉ i :: free) as Hjf by (intros Hin; by apply (Hdisj j)).
      split; [apply P3; [|done]; intros Hin; by apply Hjf, Htake|]. simpl. apply list_lookup_insert_ne. intros ->. apply Hjf. by left.
    + apply Forall_singleton. split; [done|]. cbn [fst snd]. rewrite <- El0. split; [exact P2|]. unfold head_of. simpl. rewrite El0. simpl.
      apply list_lookup_insert_eq. by rewrite (ok_chains _ _ _ _ _ _ _ H).
  - rewrite fmap_app. simpl. unfold head_of at 2. simpl. rewrite (ok_heads _ _ _ _ _ _ _ H), (Permutation_app_comm _ [i]), <- (app_assoc aw). apply (Permutation_middle aw (tk ++ (fst <$> uw)) i).
  - rewrite fmap_app. simpl. assert (masked (set_free h l (set_descs ds' r)) (avail_head r) = masked r (avail_head r)) as -> by (unfold masked; change (ring_size (set_free h l (set_descs ds' r))) with (ring_size r'); by rewrite Hsz).
    rewrite (masked_end r _ _ _ _ _ _ _ hidx (zlen aw) H (ok_head _ _ _ _ _ _ _ H)), <- (zlen_fmap Z.of_nat aw).
    apply window_push; [by eapply ring_pos| | |by apply H].
    + unfold ring_size, zlen. by rewrite (ok_avail _ _ _ _ _ _ _ H).
    + rewrite zlen_fmap. unfold ring_size, zlen. simpl in Hc1. lia.
  - by apply H.
Qed.

Lemma host_take_ok r hidx aw tk uw free fl :
  ring_ok r hidx aw tk uw free fl -> hidx = u16 hidx -> hidx <> avail_head r -> exists h aw',
  aw = h :: aw' /\ avail_ring r !! masked r hidx = Some (Z.of_nat h) /\ ring_ok r (u16 (hidx + 1)) aw' (tk ++ [h]) uw free fl.
Proof.
  intros H Hh Hne. rewrite (ok_head _ _ _ _ _ _ _ H) in Hne. destruct aw as [|h aw]; [by rewrite Z.add_0_r, <- Hh in Hne|].
  exists h, aw. pose proof (ok_aw _ _ _ _ _ _ _ H) as Hw. apply window_pop in Hw as (Hw1 & Hw2).
  split; [done|]. split; [by rewrite (masked_mod r _ _ _ _ _ _ _ H)|].
  split; try by apply H.
  - rewrite (ok_head _ _ _ _ _ _ _ H), u16_add. f_equal. unfold zlen. simpl. lia.
  - rewrite (ok_heads _ _ _ _ _ _ _ H). simpl. rewrite <- app_assoc. simpl. by rewrite <- Permutation_middle, <- Permutation_middle.
  - destruct (ok_pow _ _ _ _ _ _ _ H) as (k & Hk & E). rewrite E in *. apply (ring_window_shift _ k (hidx + 1)); [lia| |done]. by rewrite u16_idem.
Qed.

(** The host gives back the chain of a head with a length. *)
Definition host_use (h : nat) (len : Z) (r : vring C) : vring C :=
  VRing (descs r) (buffer_chains r) (avail_idx r) (avail_ring r) (avail_head r) (added_since_kick r) (u16 (used_idx r + 1))
    (<[masked r (used_idx r) := (Z.of_nat h, len)]> (used_elements r)) (used_tail r) (free_head r) (free_last r).

Lemma host_use_ok r hidx aw before h after uw free fl len :
  ring_ok r hidx aw (before ++ h :: after) uw free fl -> ring_ok (host_use h len r) hidx aw (before ++ after) (uw ++ [(h, len)]) free fl.
Proof.
  intros H. pose proof (ring_counts _ _ _ _ _ _ _ H) as (Hc1 & Hc2 & _). split; try by apply H.
  - simpl. rewrite length_insert. by apply H.
  - simpl. rewrite (ok_used_idx _ _ _ _ _ _ _ H), u16_add, zlen_app. f_equal. unfold zlen. simpl. lia.
  - rewrite (ok_heads _ _ _ _ _ _ _ H), fmap_app. simpl. f_equiv. rewrite <- !app_assoc. f_equiv.
    rewrite (Permutation_app_comm (fst <$> uw)). simpl. by rewrite <- Permutation_middle.
  - rewrite fmap_app. change (ring_size (host_use h len r)) with (ring_size r). simpl.
    rewrite (masked_end r _ _ _ _ _ _ _ (used_tail r) (zlen uw) H (ok_used_idx _ _ _ _ _ _ _ H)), <- (zlen_fmap (prod_map Z.of_nat id) uw).
    apply (window_push (used_elements r) (ring_size r) (used_tail r) (prod_map Z.of_nat id <$> uw) (Z.of_nat h, len)); [by eapply ring_pos| | |by apply H].
    + unfold ring_size, zlen. by rewrite (ok_used _ _ _ _ _ _ _ H).
    + rewrite zlen_fmap. unfold ring_size, zlen. rewrite length_app in Hc2. simpl in Hc2. lia.
Qed.

Lemma linked_set_last ds l x : NoDup l -> linked ds l -> linked (<[List.last l 0%nat := x]> ds) l.
Proof.
  induction l as [|i l IH]; [done|]. intros Hnd H. apply NoDup_cons in Hnd as (Hi & Hnd). destruct l as [|j l]; [done|].
  destruct H as ((d & Hd & Hj) & H). split; [|by apply IH]. exists d. split; [|done]. rewrite list_lookup_insert_ne; [done|].
  intros E. apply Hi. rewrite <- E. exact (last_in j l).
Qed.

Lemma last_app (l : list nat) i l' : List.last (l ++ i :: l') 0%nat = List.last (i :: l') 0%nat.
Proof. induction l as [|j l IH]; [done|]. cbn [app]. destruct (l ++ i :: l') eqn:E; [by destruct l|]. by rewrite <- IH. Qed.

(** A chain goes to the end of the list of free descriptors. *)
Lemma free_chain ds head last free h l bs :
  free_list ds head last free -> chain_at ds (h :: l) bs -> NoDup (free ++ h :: l) -> (forall i, i ∈ free -> (i < length ds)%nat) ->
  Z.of_nat (length ds) <= 32768 -> (h < length ds)%nat -> exists ds',
  (if last =? -1 then Some ds else d ← ds !! Z.to_nat last; Some (<[Z.to_nat last := set_next (Z.of_nat h) d]> ds)) = Some ds' /\
  length ds' = length ds /\ (forall i, i ∉ free -> ds' !! i = ds !! i) /\
  free_list ds' (if last =? -1 then Z.of_nat h else head) (Z.of_nat (List.last (h :: l) 0%nat)) (free ++ h :: l).
Proof.
  intros Hf Hc Hnd Hlt Hsz Hh. destruct free as [|i f].
  - destruct Hf as (-> & ->). simpl. exists ds. split; [done|]. split; [done|]. split; [done|]. split; [done|]. split; [done|]. exact (chain_linked _ _ _ Hc).
  - destruct Hf as (-> & -> & Hl). destruct (Z.eqb_spec (Z.of_nat (List.last (i :: f) 0%nat)) (-1)); [lia|]. rewrite Nat2Z.id.
    pose proof (Hlt _ (last_in i f)) as Hll. destruct (lookup_lt_is_Some_2 ds _ Hll) as (d & Hd). rewrite Hd. cbn [mbind option_bind].
    set (ds' := <[_ := _]> ds). exists ds'. apply NoDup_app in Hnd as (Hnf & Hdis & _). assert (forall j, j ∉ i :: f -> ds' !! j = ds !! j) as Hfr.
    { intros j Hj. apply list_lookup_insert_ne. intros <-. apply Hj, last_in. }
    split; [done|]. split; [apply length_insert|]. split; [exact Hfr|]. split; [done|]. split; [by rewrite last_app|].
    apply linked_app; [done|by apply linked_set_last| |].
    + apply (chain_linked _ _ bs). apply (chain_frame ds); [|done]. intros j Hj. apply Hfr. intros Hin. by apply (Hdis j).
    + exists (set_next (Z.of_nat h) d). split; [by apply list_lookup_insert_eq|]. by apply (u16_index h (length ds)).
Qed.

Lemma complete_one_ok r hidx aw tk h len uw free fl :
  ring_ok r hidx aw tk ((h, len) :: uw) free fl -> exists c l fl1 fl2 r',
  fl = fl1 ++ (c, l) :: fl2 /\ head_of (c, l) = h /\ complete_one r = Some ((c, len), r') /\
  ring_ok r' hidx aw tk uw (free ++ l) (fl1 ++ fl2) /\ used_idx r' = used_idx r /\ avail_idx r' = avail_idx r /\ avail_head r' = avail_head r /\
  used_tail r' = u16 (used_tail r + 1).
Proof.
  intros H. pose proof (ring_nodup _ _ _ _ _ _ _ H) as Hnd. pose proof (ring_counts _ _ _ _ _ _ _ H) as (Hc1 & _ & Hc3 & Hc4).
  assert (h ∈ head_of <$> fl) as Hin by (rewrite (ok_heads _ _ _ _ _ _ _ H), !elem_of_app; right; right; by left).
  apply list_elem_of_fmap in Hin as ([c l] & -> & Hin). pose proof (Hc4 _ Hin) as Hhc. pose proof (ok_fl _ _ _ _ _ _ _ H) as Hfl.
  rewrite Forall_forall in Hfl. destruct (Hfl _ Hin) as (Hne & Hch & Hbc). apply list_elem_of_split in Hin as (fl1 & fl2 & ->).
  destruct l as [|h l]; [done|]. unfold head_of in *. cbn [fst snd List.hd] in *.
  assert (concat (snd <$> fl1 ++ (c, h :: l) :: fl2) ≡ₚ (h :: l) ++ concat (snd <$> fl1 ++ fl2)) as Hcat.
  { rewrite !fmap_app, !concat_app. exact (Permutation_app_swap_app (concat (snd <$> fl1)) (h :: l) (concat (snd <$> fl2))). }
  pose proof Hnd as Hnd2. rewrite Hcat, app_assoc in Hnd2. apply NoDup_app in Hnd2 as (Hnd3 & Hdis & Hnd4).
  pose proof (fun i => ring_in _ _ _ _ _ _ _ i H) as Hlt. rewrite Hcat in Hc1, Hhc. rewrite length_app in Hc1.
  assert (forall i, i ∈ free ++ (h :: l) -> (i < length (descs r))%nat) as Hlt2.
  { intros i Hi. apply Hlt. rewrite Hcat, app_assoc. apply elem_of_app. by left. }
  destruct (free_chain (descs r) (free_head r) (free_last r) free h l (buffers c)) as (ds' & Hds & Hlen & Hfr & Hfree); try done.
  { by apply H. }
  { intros i Hi. apply Hlt2, elem_of_app. by left. }
  { by eapply ring_small. }
  { apply Hlt2, elem_of_app. right. by left. }
  pose proof (ok_uw _ _ _ _ _ _ _ H) as Hw. apply window_pop in Hw as (Hw1 & Hw2). cbn [prod_map fst snd id] in Hw1.
  assert (chain_last (length ds') ds' (Z.of_nat h) = Some (Z.of_nat (List.last (h :: l) 0%nat))) as Hlast.
  { eapply (chain_reads ds' l (buffers c)); [|rewrite Hlen; simpl in Hc1; lia]. apply (chain_frame (descs r)); [|done].
    intros i Hi. apply Hfr. intros Hif. apply NoDup_app in Hnd3 as (_ & Hd3 & _). by apply (Hd3 i). }
  exists c, (h :: l), fl1, fl2. unfold complete_one. rewrite (masked_mod r _ _ _ _ _ _ _ H), Hw1. cbn [mbind option_bind].
  rewrite Nat2Z.id, Hbc. cbn [mjoin option_join mbind option_bind]. rewrite Hds. cbn [mbind option_bind]. rewrite Hlast. cbn [mbind option_bind].
  eexists. split; [done|]. split; [done|]. split; [done|]. split; [|done].
  set (r' := VRing _ _ _ _ _ _ _ _ _ _ _). assert (ring_size r' = ring_size r) as Hsz by (unfold ring_size, zlen; simpl; by rewrite Hlen).
  split; rewrite ?Hsz; try (by simpl; rewrite ?length_insert, ?Hlen; apply H).
  - simpl. rewrite (ok_used_idx _ _ _ _ _ _ _ H), u16_add. f_equal. unfold zlen. simpl. lia.
  - simpl descs. rewrite Hlen. etrans; [|exact (ok_perm _ _ _ _ _ _ _ H)]. by rewrite Hcat, app_assoc.
  - exact Hfree.
  - apply (in_flight_frame r).
    + intros i Hi. assert (i ∉ free ++ h :: l) as Hni by (intros Hx; by apply (Hdis i)). rewrite not_elem_of_app in Hni. destruct Hni as (Hn1 & Hn2).
      split; [by apply Hfr|]. simpl. apply list_lookup_insert_ne. intros <-. apply Hn2. by left.
    + apply Forall_forall. intros e He. apply Hfl. apply elem_of_app in He as [He|He]; apply elem_of_app; [by left|right; by right].
  - pose proof (ok_heads _ _ _ _ _ _ _ H) as Hh. rewrite fmap_app in Hh |- *. simpl in Hh. unfold head_of at 2 in Hh. simpl in Hh.
    apply (Permutation_cons_inv (a := h)). rewrite (Permutation_middle (head_of <$> fl1)), Hh, !app_assoc. symmetry. apply Permutation_middle.
  - destruct (ok_pow _ _ _ _ _ _ _ H) as (k & Hk & E). rewrite E in *. apply (ring_window_shift _ k (used_tail r + 1)); [lia| |done]. symmetry. exact (u16_idem (used_tail r + 1)).
Qed.

(** ** Executions

    [available] and [owed] are the units of [available_descriptors] and those of completed
    chains that were not yet signalled.  [posted], [given_back] and [completed] tell what
    was posted, what the host gave back with which length, and what was completed. *)

Record world := World {
  ring : vring C; host_idx : Z; taken : list nat; available : Z; owed : Z;
  posted : list C; given_back : list (C * Z); completed : list (C * Z) }.

Definition units (bcs : list C) : Z := foldr (fun bc n => zlen (buffers bc) + n) 0 bcs.

(** The driver waits for as many units as it posts buffers; the host takes the next head,
    and gives back any that it has; completed chains are signalled in any portions. *)
Inductive step : world -> world -> Prop :=
  | step_post bcs ev nd n r w : Forall (fun bc => buffers bc <> []) bcs -> units bcs <= available w ->
      post buffers event_index bcs ev nd (ring w) = Some (n, r) ->
      step w (World r (host_idx w) (taken w) (available w - units bcs) (owed w) (posted w ++ bcs) (given_back w) (completed w))
  | step_take h w : host_idx w <> avail_idx (ring w) -> avail_ring (ring w) !! masked (ring w) (host_idx w) = Some (Z.of_nat h) ->
      step w (World (ring w) (u16 (host_idx w + 1)) (taken w ++ [h]) (available w) (owed w) (posted w) (given_back w) (completed w))
  | step_use before h after len c w : taken w = before ++ h :: after -> buffer_chains (ring w) !! h = Some (Some c) ->
      step w (World (host_use h len (ring w)) (host_idx w) (before ++ after) (available w) (owed w) (posted w) (given_back w ++ [(c, len)]) (completed w))
  | step_complete n cs r w : do_complete (ring w) = Some (n, cs, r) ->
      step w (World r (host_idx w) (taken w) (available w) (owed w + units (fst <$> cs)) (posted w) (given_back w) (completed w ++ cs))
  | step_signal k w : 0 <= k <= owed w ->
      step w (World (ring w) (host_idx w) (taken w) (available w + k) (owed w - k) (posted w) (given_back w) (completed w)).

Definition world_init (size : nat) : world := World (vring_init size) 0 [] (Z.of_nat size) 0 [] [] [].

(** What the host gave back and is not completed, as the driver has it. *)
Definition gives (fl : list (C * list nat)) (u : nat * Z) (g : C * Z) : Prop :=
  snd u = snd g /\ exists l, (fst g, l) ∈ fl /\ head_of (fst g, l) = fst u.

Record world_ok (w : world) (aw : list nat) (uw : list (nat * Z)) (free : list nat) (fl : list (C * list nat)) (lw : list (C * Z)) : Prop := {
  w_ring : ring_ok (ring w) (host_idx w) aw (taken w) uw free fl;
  w_host : host_idx w = u16 (host_idx w);
  w_idx : avail_idx (ring w) = avail_head (ring w);
  w_tail : used_tail (ring w) = u16 (used_tail (ring w));
  w_units : available w + owed w = zlen free /\ 0 <= available w /\ 0 <= owed w;
  w_posted : posted w ≡ₚ (fst <$> fl) ++ (fst <$> completed w);
  w_log : given_back w = completed w ++ lw;
  w_gives : Forall2 (gives fl) uw lw
}.

Lemma chain_length ds l bs : chain_at ds l bs -> length l = length bs.
Proof.
  revert bs. induction l as [|i l IH]; intros [|b bs] H; try done. destruct H as (_ & H). simpl. f_equal.
  destruct l as [|j l]; [by subst|by apply IH].
Qed.

Lemma gives_mono fl fl' uw lw : (forall e, e ∈ fl -> e ∈ fl') -> Forall2 (gives fl) uw lw -> Forall2 (gives fl') uw lw.
Proof. intros Hs H. eapply Forall2_impl; [exact H|]. intros u g (H1 & l & H2 & H3). split; [done|]. exists l. auto. Qed.

Lemma post_chains_ok bcs : forall r hidx aw tk uw free fl,
  ring_ok r hidx aw tk uw free fl -> Forall (fun bc => buffers bc <> []) bcs -> units bcs <= zlen free -> exists r' aw' free' fl',
  post_chains buffers bcs r = Some r' /\ ring_ok r' hidx aw' tk uw free' fl' /\ (forall e, e ∈ fl -> e ∈ fl') /\
  fst <$> fl' = (fst <$> fl) ++ bcs /\ zlen free' = zlen free - units bcs /\ used_tail r' = used_tail r.
Proof.
  induction bcs as [|bc bcs IH]; intros r hidx aw tk uw free fl H Hne Hu.
  - exists r, aw, free, fl. simpl in *. rewrite app_nil_r. split_and!; try done. lia.
  - apply Forall_cons in Hne as (Hne & Hnes). simpl in Hu. assert (0 <= units bcs) as Hpos by (clear; induction bcs; simpl; unfold zlen in *; lia).
    destruct (post_chain_ok r hidx aw tk uw free fl bc H Hne) as (r1 & h & Hp & _ & H1 & _ & Ht); [unfold zlen in *; lia|].
    destruct (IH _ _ _ _ _ _ _ H1 Hnes) as (r' & aw' & free' & fl' & Hp' & H' & Hs & Hf & Hz & Ht').
    { unfold zlen in *. rewrite length_drop. lia. }
    exists r', aw', free', fl'. cbn [post_chains]. rewrite Hp. cbn [mbind option_bind]. split; [done|]. split; [done|]. split.
    + intros e He. apply Hs, elem_of_app. by left.
    + split; [rewrite Hf, fmap_app; simpl; by rewrite <- app_assoc|]. split; [|congruence]. rewrite Hz. simpl. unfold zlen in *. rewrite length_drop. lia.
Qed.

Lemma kick_same ev nd (r : vring C) : exists n, snd (kick event_index ev nd r) =
  VRing (descs r) (buffer_chains r) (avail_idx r) (avail_ring r) (avail_head r) n (used_idx r) (used_elements r) (used_tail r) (free_head r) (free_last r).
Proof. unfold kick. destruct r. repeat case_match; simpl; by eexists. Qed.

(** Posting does not fail while there are units. *)
Lemma post_ok bcs ev nd r hidx aw tk uw free fl :
  ring_ok r hidx aw tk uw free fl -> Forall (fun bc => buffers bc <> []) bcs -> units bcs <= zlen free -> exists n r' aw' free' fl',
  post buffers event_index bcs ev nd r = Some (n, r') /\ ring_ok r' hidx aw' tk uw free' fl' /\ (forall e, e ∈ fl -> e ∈ fl') /\
  fst <$> fl' = (fst <$> fl) ++ bcs /\ zlen free' = zlen free - units bcs /\ used_tail r' = used_tail r /\ avail_idx r' = avail_head r'.
Proof.
  intros H Hne Hu. destruct (post_chains_ok bcs r hidx aw tk uw free fl H Hne Hu) as (r1 & aw' & free' & fl' & Hp & H1 & Hs & Hf & Hz & Ht).
  unfold post. rewrite Hp. cbn [mbind option_bind]. set (r2 := VRing _ _ _ _ _ _ _ _ _ _ _).
  destruct (kick event_index ev nd r2) as [n r3] eqn:Ek. destruct (kick_same ev nd r2) as (m & Em). rewrite Ek in Em. simpl in Em.
  exists n, r3, aw', free', fl'. split; [done|]. subst r3. split; [|done].
  destruct H1 as [O1 O2 O3 O4 O5 O6 O7 O8 O9 O10 O11 O12]. split; done.
Qed.

Lemma u16_differs a n : a = u16 a -> 0 < n <= 32768 -> u16 (a + n) <> a.
Proof.
  intros Ha Hn E. assert (u16 (a + n) - a = 0) as E0 by lia. unfold u16, wrap in *. rewrite Ha in E at 2.
  assert (((a + n) - a) mod 2 ^ 16 = 0) as Em by (rewrite Zminus_mod, E, Z.sub_diag; apply Z.mod_0_l; lia).
  rewrite Z.mod_small in Em; lia.
Qed.

Lemma u16_difference a n : a = u16 a -> 0 <= n <= 32768 -> u16 (u16 (a + n) - a) = n.
Proof.
  intros Ha Hn. unfold u16, wrap in *. rewrite Zminus_mod_idemp_l. replace (a + n - a) with n by lia. apply Z.mod_small. lia.
Qed.

Lemma complete_loop_ok uw : forall r hidx aw tk free fl lw,
  ring_ok r hidx aw tk uw free fl -> used_tail r = u16 (used_tail r) -> Forall2 (gives fl) uw lw -> exists r' free' fl',
  complete_loop (length uw) (used_idx r) r = Some (lw, r') /\ ring_ok r' hidx aw tk [] free' fl' /\
  (fst <$> fl) ≡ₚ (fst <$> lw) ++ (fst <$> fl') /\ zlen free' = zlen free + units (fst <$> lw) /\
  avail_idx r' = avail_idx r /\ avail_head r' = avail_head r /\ used_tail r' = u16 (used_tail r').
Proof.
  induction uw as [|[h len] uw IH]; intros r hidx aw tk free fl lw H Ht Hg.
  - apply Forall2_nil_inv_l in Hg as ->. exists r, free, fl. simpl. rewrite (ok_used_idx _ _ _ _ _ _ _ H), Z.add_0_r, <- Ht, Z.eqb_refl.
    split_and!; try done. simpl. lia.
  - apply Forall2_cons_inv_l in Hg as ([c n] & lw' & (E1 & l & Hin & Eh) & Hg & ->). simpl in E1, Hin, Eh. subst n.
    destruct (complete_one_ok r hidx aw tk h len uw free fl H) as (c' & l' & fl1 & fl2 & r1 & -> & Eh' & Hc & H1 & I1 & I2 & I3 & I4).
    pose proof (ring_counts _ _ _ _ _ _ _ H) as (Hc1 & Hc2 & Hnd & _). pose proof (ring_small _ _ _ _ _ _ _ H) as Hsm.
    assert (forall e, e ∈ fl1 ++ (c', l') :: fl2 -> head_of e = h -> e = (c', l')) as Huniq.
    { intros e He Ee. apply list_elem_of_lookup in He as (i & Hi).
      assert ((fl1 ++ (c', l') :: fl2) !! length fl1 = Some (c', l')) as Hm by (by rewrite list_lookup_middle).
      assert (i = length fl1) as ->; [|congruence]. apply (NoDup_lookup (head_of <$> fl1 ++ (c', l') :: fl2) i (length fl1) h Hnd); rewrite list_lookup_fmap, ?Hi, ?Hm; simpl; congruence. }
    assert ((c, l) = (c', l')) as [= -> ->] by (by apply Huniq).
    assert (Forall2 (gives (fl1 ++ fl2)) uw lw') as Hg'.
    { pose proof (ok_heads _ _ _ _ _ _ _ H) as Hh. assert (h ∉ fst <$> uw) as Hnot.
      { rewrite Hh in Hnd. apply NoDup_app in Hnd as (_ & _ & Hnd). apply NoDup_app in Hnd as (_ & _ & Hnd). simpl in Hnd. by apply NoDup_cons in Hnd as (Hnd & _). }
      clear -Hg Hnot Eh'. induction Hg as [|[h2 n2] g uw lw (G1 & lg & G2 & G3) Hg IH]; [done|]. simpl in Hnot. apply not_elem_of_cons in Hnot as (Hn1 & Hn2).
      constructor; [|by apply IH]. split; [done|]. exists lg. split; [|done]. apply elem_of_app in G2 as [G2|G2]; [apply elem_of_app; by left|].
      apply elem_of_cons in G2 as [G2|G2]; [|apply elem_of_app; by right]. simpl in G3. rewrite G2 in G3. congruence. }
    destruct (IH r1 hidx aw tk _ _ lw' H1 ltac:(rewrite I4; by rewrite u16_idem) Hg') as (r' & free' & fl' & Hl & H' & Hp & Hz & J1 & J2 & J3).
    exists r', free', fl'. cbn [length complete_loop]. rewrite (ok_used_idx _ _ _ _ _ _ _ H).
    destruct (Z.eqb_spec (u16 (used_tail r + zlen ((h, len) :: uw))) (used_tail r)) as [E|_].
    { exfalso. revert E. apply u16_differs; [done|]. unfold zlen. simpl in *. lia. }
    rewrite <- (ok_used_idx _ _ _ _ _ _ _ H), Hc. cbn [mbind option_bind]. rewrite <- I1, Hl. cbn [mbind option_bind].
    split; [done|]. split; [done|]. split; [|split].
    + rewrite fmap_app. simpl. rewrite <- Permutation_middle, <- fmap_app, Hp. done.
    + rewrite Hz, zlen_app, fmap_cons. pose proof (ok_fl _ _ _ _ _ _ _ H) as Hfl. apply Forall_app in Hfl as (_ & Hfl). apply Forall_cons in Hfl as ((_ & Hch & _) & _).
      assert (zlen l' = zlen (buffers c')) as El by (unfold zlen; f_equal; exact (chain_length _ _ _ Hch)). rewrite El. cbn [units foldr fst]. unfold units. lia.
    + split; [congruence|]. split; [congruence|done].
Qed.

Lemma do_complete_ok w aw uw free fl lw : world_ok w aw uw free fl lw -> exists n r' free' fl',
  do_complete (ring w) = Some (n, lw, r') /\ ring_ok r' (host_idx w) aw (taken w) [] free' fl' /\
  (fst <$> fl) ≡ₚ (fst <$> lw) ++ (fst <$> fl') /\ zlen free' = zlen free + units (fst <$> lw) /\
  avail_idx r' = avail_head r' /\ used_tail r' = u16 (used_tail r').
Proof.
  intros [H Hh Hi Ht Hu Hp Hl Hg]. destruct (complete_loop_ok uw (ring w) (host_idx w) aw (taken w) free fl lw H Ht Hg) as (r' & free' & fl' & Hc & H' & Hp' & Hz & J1 & J2 & J3).
  pose proof (ring_counts _ _ _ _ _ _ _ H) as (Hc1 & Hc2 & _). pose proof (ring_small _ _ _ _ _ _ _ H) as Hsm.
  assert (u16 (used_idx (ring w) - used_tail (ring w)) = zlen uw) as E by (rewrite (ok_used_idx _ _ _ _ _ _ _ H), u16_difference; [done|done|unfold zlen; lia]).
  unfold do_complete. cbv zeta. rewrite E. unfold zlen at 1. rewrite Nat2Z.id, Hc. cbn [mbind option_bind]. do 4 eexists. split; [done|]. split; [exact H'|]. split; [done|]. split; [done|]. split; [congruence|done].
Qed.

Lemma zlen_le0 {A} (l : list A) : 0 <= zlen l.
Proof. unfold zlen. lia. Qed.

Lemma chain_units_pos bcs : 0 <= units bcs.
Proof. induction bcs as [|bc bcs IH]; [done|]. simpl. pose proof (zlen_le0 (buffers bc)). lia. Qed.

Lemma world_step_ok w w' aw uw free fl lw : world_ok w aw uw free fl lw -> step w w' ->
  exists aw' uw' free' fl' lw', world_ok w' aw' uw' free' fl' lw'.
Proof.
  intros Hw Hs. pose proof Hw as [H Hh Hi Ht (Hu & Ha & Ho) Hp Hl Hg]. destruct Hs as [bcs ev nd n r w Hne Hle Hpost|h w Hd Hr|before h after len c w Htk Hb|n cs r w Hc|k w Hk].
  - destruct (post_ok bcs ev nd _ _ _ _ _ _ _ H Hne ltac:(lia)) as (n' & r' & aw' & free' & fl' & Hpost' & H' & Hsub & Hf & Hz & Ht' & Hi').
    rewrite Hpost in Hpost'. injection Hpost' as <- <-. exists aw', uw, free', fl', lw. split; simpl; try done.
    + congruence.
    + pose proof (chain_units_pos bcs). lia.
    + rewrite Hf, Hp, <- !app_assoc. f_equiv. apply Permutation_app_comm.
    + by eapply gives_mono.
  - destruct (host_take_ok _ _ _ _ _ _ _ H Hh ltac:(congruence)) as (h' & aw' & -> & Hr' & H'). rewrite Hr in Hr'. injection Hr' as E%Nat2Z.inj. subst h'.
    exists aw', uw, free, fl, lw. split; simpl; try done. by rewrite u16_idem.
  - rewrite Htk in H. pose proof (host_use_ok _ _ _ _ _ _ _ _ _ len H) as H'. exists aw, (uw ++ [(h, len)]), free, fl, (lw ++ [(c, len)]). split; simpl; try done.
    + by rewrite Hl, app_assoc.
    + apply Forall2_app; [done|]. constructor; [|constructor]. split; [done|]. pose proof (ok_heads _ _ _ _ _ _ _ H) as Hheads.
      assert (h ∈ head_of <$> fl) as Hin by (rewrite Hheads, !elem_of_app; right; left; right; by left).
      apply list_elem_of_fmap in Hin as ([c' l] & -> & Hin). pose proof (ok_fl _ _ _ _ _ _ _ H) as Hfl. rewrite Forall_forall in Hfl.
      destruct (Hfl _ Hin) as (_ & _ & Hb'). simpl in Hb'. rewrite Hb in Hb'. injection Hb' as ->. by exists l.
  - destruct (do_complete_ok w aw uw free fl lw Hw) as (n' & r' & free' & fl' & Hc' & H' & Hp' & Hz & Hi' & Ht').
    rewrite Hc in Hc'. injection Hc' as <- <- <-. exists aw, [], free', fl', []. split; simpl; try done.
    + pose proof (chain_units_pos (fst <$> cs)). lia.
    + rewrite Hp, Hp', fmap_app, (Permutation_app_comm (fst <$> completed w)), !app_assoc. apply Permutation_app_tail, Permutation_app_comm.
    + by rewrite Hl, app_nil_r.
  - exists aw, uw, free, fl, lw. split; simpl; try done. lia.
Qed.

Lemma init_linked n a : Z.of_nat (a + n) <= 32768 ->
  forall ds, (forall i, (a <= i < a + n)%nat -> ds !! i = Some (Desc 0 0 false false (u16 (Z.of_nat i + 1)))) -> linked ds (seq a n).
Proof.
  revert a. induction n as [|n IH]; intros a Hn ds Hd; [done|]. cbn [seq linked]. destruct n as [|n]; [done|]. cbn [seq]. split.
  - eexists. split; [apply Hd; lia|]. cbn [d_next]. replace (Z.of_nat a + 1) with (Z.of_nat (S a)) by lia; apply wrap_small; lia.
  - apply (IH (S a)); [lia|]. intros i Hi. apply Hd. lia.
Qed.

Lemma last_seq n : List.last (seq 0 (S n)) 0%nat = n.
Proof. rewrite seq_S. simpl. destruct n; [done|]. by rewrite last_last. Qed.

Lemma init_ok size k : Z.of_nat size = 2 ^ k -> 0 <= k <= 15 -> world_ok (world_init size) [] [] (seq 0 size) [] [].
Proof.
  intros Hs Hk. assert (0 < size)%nat as Hpos by (assert (0 < 2 ^ k) by (apply Z.pow_pos_nonneg; lia); lia).
  assert (Z.of_nat size <= 32768) as Hsm by (rewrite Hs; change 32768 with (2 ^ 15); apply Z.pow_le_mono_r; lia).
  split; try done.
  - split; simpl; rewrite ?length_map, ?length_replicate, ?length_seq; try done.
    + exists k. split; [done|]. unfold ring_size, zlen. simpl. by rewrite length_map, length_seq.
    + simpl. rewrite app_nil_r. done.
    + destruct size as [|size]; [lia|]. split; [done|]. split; [rewrite last_seq; lia|]. apply init_linked; [done|].
      intros i Hi. rewrite list_lookup_fmap, lookup_seq_lt by lia. done.
  - cbn [available owed world_init]. unfold zlen. rewrite length_seq. lia.
Qed.

Lemma execution_ok size k w : Z.of_nat size = 2 ^ k -> 0 <= k <= 15 -> rtc step (world_init size) w -> exists aw uw free fl lw, world_ok w aw uw free fl lw.
Proof.
  intros Hs Hk. pose proof (init_ok size k Hs Hk) as H0. intros Hr. revert H0. generalize (@nil nat) as aw, (@nil (nat * Z)) as uw, (seq 0 size) as free, (@nil (C * list nat)) as fl, (@nil (C * Z)) as lw.
  induction Hr as [w|w1 w2 w3 Hst _ IH]; intros aw uw free fl lw H0; [by do 5 eexists|].
  destruct (world_step_ok _ _ _ _ _ _ _ H0 Hst) as (aw' & uw' & free' & fl' & lw' & H'). by apply (IH aw' uw' free' fl' lw').
Qed.

(** C21. In every execution of the driver and a host that takes and gives back chains in any
    order: while there are units, posting does not fail; at every head that the host takes
    it reads, following the descriptors, the buffers of a chain that was posted; completing
    does not fail and gives exactly what the host gave back since, in its order and with
    its lengths; and what was posted is in flight or was completed once. *)
Theorem vring_completes (size : nat) (k : Z) (w : world) :
  Z.of_nat size = 2 ^ k -> 0 <= k <= 15 -> rtc step (world_init size) w ->
  (forall bcs ev nd, Forall (fun bc => buffers bc <> []) bcs -> units bcs <= available w -> is_Some (post buffers event_index bcs ev nd (ring w))) /\
  (host_idx w <> avail_idx (ring w) -> exists h, avail_ring (ring w) !! masked (ring w) (host_idx w) = Some (Z.of_nat h)) /\
  (forall h, h ∈ taken w -> exists c, c ∈ posted w /\ host_chain (length (descs (ring w))) (descs (ring w)) (Z.of_nat h) = Some (buffers c)) /\
  (exists n cs r, do_complete (ring w) = Some (n, cs, r) /\ given_back w = completed w ++ cs) /\
  (exists flying, posted w ≡ₚ flying ++ (fst <$> completed w)).
Proof.
  intros Hs Hk Hr. destruct (execution_ok size k w Hs Hk Hr) as (aw & uw & free & fl & lw & Hw). pose proof Hw as [H Hh Hi Ht (Hu & Ha & Ho) Hp Hl Hg].
  split; [|split; [|split; [|split]]].
  - intros bcs ev nd Hne Hle. destruct (post_ok bcs ev nd _ _ _ _ _ _ _ H Hne ltac:(lia)) as (n & r & aw' & free' & fl' & -> & _). by eexists.
  - intros Hd. destruct (host_take_ok _ _ _ _ _ _ _ H Hh ltac:(congruence)) as (h & aw' & _ & Hr' & _). by exists h.
  - intros h Hin. assert (h ∈ head_of <$> fl) as Hf by (rewrite (ok_heads _ _ _ _ _ _ _ H), !elem_of_app; tauto).
    apply list_elem_of_fmap in Hf as ([c l] & -> & Hf). exists c. split; [rewrite Hp; apply elem_of_app; left; by apply (list_elem_of_fmap_2 fst _ _ Hf)|].
    pose proof (ring_counts _ _ _ _ _ _ _ H) as (Hc1 & _). pose proof (ok_fl _ _ _ _ _ _ _ H) as Hfl. apply list_elem_of_split in Hf as (fl1 & fl2 & ->).
    apply Forall_app in Hfl as (_ & Hfl). apply Forall_cons in Hfl as ((Hne & Hch & _) & _). destruct l as [|h l]; [done|]. simpl in Hch.
    eapply (chain_reads (descs (ring w)) l (buffers c)); [done|]. rewrite fmap_app, concat_app, length_app in Hc1. simpl in Hc1. rewrite length_app in Hc1. lia.
  - destruct (do_complete_ok w aw uw free fl lw Hw) as (n & r' & free' & fl' & Hc & _). by exists n, lw, r'.
  - by exists (fst <$> fl).
Qed.
End Ring.

(** ** The number of completed chains

    The difference that [do_complete] hands to [bunch] is that of the tail and the head, not
    of the head and the tail: unless the index wraps, a number close to 2^64. *)
Lemma bunch_wraps {C : Type} (r : vring C) n cs r' : do_complete r = Some (n, cs, r') ->
  0 <= used_tail r < used_idx r -> used_idx r < 2 ^ 16 -> n = 2 ^ 64 - (used_idx r - used_tail r).
Proof.
  unfold do_complete. intros H Ht Hi. destruct (complete_loop _ _ r) as [[cs' r2]|]; [|done]. cbn [mbind option_bind] in H. injection H as <- _ _.
  unfold wrap. rewrite <- (Z.mod_add _ 1) by lia. rewrite Z.mod_small; lia.
Qed.

(** ** Packets that are received

    A packet that the device wrote into buffers, the first with the header before it: the
    calls of [complete_buffer] for them. *)
Section Receive.
Variable e : endian.
Variable header_len : Z.

Fixpoint receive_buffers (l : list (list Z * Z)) (q : rxq) : option (list (list (list Z)) * Z * rxq) :=
  match l with
  | [] => Some ([], 0, q)
  | (buf, len) :: l =>
    '(p, n, q) ← complete_buffer e header_len buf len q;
    '(ps, m, q) ← receive_buffers l q;
    Some (option_list p ++ ps, n + m, q)
  end.

(** What the device wrote into a buffer. *)
Definition written (b : list Z * Z) : list Z := take (Z.to_nat (snd b)) (fst b).

Lemma receive_rest l : forall n fs, n = zlen l -> 0 < n -> receive_buffers l (Rxq n fs) =
  Some ([fs ++ (written <$> l)], zlen (fs ++ (written <$> l)), Rxq 0 (fs ++ (written <$> l))).
Proof.
  induction l as [|[buf len] l IH]; intros n fs -> Hn; [by unfold zlen in Hn|]. cbn [receive_buffers]. unfold complete_buffer. cbn [remaining_buffers fragments].
  destruct (Z.eqb_spec (zlen ((buf, len) :: l)) 0); [lia|]. cbn [mbind option_bind]. rewrite drop_0.
  destruct l as [|b l].
  - simpl. by rewrite Z.add_0_r.
  - destruct (Z.eqb_spec (zlen ((buf, len) :: b :: l) - 1) 0) as [E|_]; [unfold zlen in E; simpl in E; lia|]. cbn [mbind option_bind].
    rewrite (IH _ (fs ++ [written (buf, len)])) by (unfold zlen; simpl; lia). cbn [mbind option_bind option_list app]. by rewrite <- app_assoc.
Qed.

(** The buffers of a packet give it once, when the last has come: its bytes are those that
    the device wrote behind the header, and as many descriptors become available. *)
Lemma received_whole first l fs :
  host_load e (take 2 (drop 10 (fst first))) = zlen (first :: l) -> 0 <= header_len <= snd first -> exists frags,
  receive_buffers (first :: l) (Rxq 0 fs) = Some ([frags], zlen (first :: l), Rxq 0 frags) /\
  concat frags = drop (Z.to_nat header_len) (written first) ++ concat (written <$> l).
Proof.
  destruct first as [buf len]. intros Hn Hh. simpl in Hn, Hh. cbn [receive_buffers]. unfold complete_buffer. cbn [remaining_buffers]. rewrite Z.eqb_refl, Hn.
  destruct (Z.ltb_spec (zlen ((buf, len) :: l)) 1) as [H|_]; [unfold zlen in H; simpl in H; lia|].
  destruct (Z.ltb_spec len header_len); [lia|]. cbn [orb mbind option_bind app].
  assert (take (Z.to_nat (len - header_len)) (drop (Z.to_nat header_len) buf) = drop (Z.to_nat header_len) (written (buf, len))) as Hw.
  { unfold written. cbn [fst snd]. rewrite skipn_firstn_comm. f_equal. lia. }
  rewrite Hw. set (d := drop _ _). destruct l as [|b l].
  - exists [d]. simpl. split; [done|]. by rewrite app_nil_r.
  - destruct (Z.eqb_spec (zlen ((buf, len) :: b :: l) - 1) 0) as [E|_]; [unfold zlen in E; simpl in E; lia|]. cbn [mbind option_bind].
    rewrite (receive_rest (b :: l)) by (unfold zlen; simpl; lia). cbn [mbind option_bind option_list app].
    exists (d :: (written <$> b :: l)). split; [|done]. do 3 f_equal. unfold zlen. simpl. rewrite length_fmap. lia.
Qed.
End Receive.

(** ** An execution: a chain of two buffers, posted, taken and given back. *)

Module Ex.
Definition chain : list buffer := [Buffer 4096 12 false; Buffer 8192 60 false].
Definition ring_posted : vring (list buffer) := default (vring_init 2) (snd <$> post id true [chain] 0 false (vring_init 2)).
Definition w_posted : world := World ring_posted 0 [] 0 0 [chain] [] [].
Definition w_taken : world := World ring_posted 1 [0%nat] 0 0 [chain] [] [].
Definition w_given : world := World (host_use 0 72 ring_posted) 1 [] 0 0 [chain] [(chain, 72)] [].

Lemma ring_run : rtc (step id true) (world_init 2) w_given.
Proof.
  eapply rtc_l; [apply (step_post id true [chain] 0 false true ring_posted (world_init 2)); [by repeat constructor|by vm_compute|by vm_compute]|].
  eapply rtc_l; [apply (step_take id true 0 w_posted); by vm_compute|].
  eapply rtc_l; [apply (step_use id true [] 0 [] 72 chain w_taken); by vm_compute|].
  apply rtc_refl.
Qed.
End Ex.

Lemma vring_completes_witness : exists n cs r, do_complete (ring Ex.w_given) = Some (n, cs, r) /\ given_back Ex.w_given = completed Ex.w_given ++ cs.
Proof.
  destruct (vring_completes id true 2 1 Ex.w_given eq_refl ltac:(lia) Ex.ring_run) as (_ & _ & _ & H & _). exact H.
Defined.

Example bunch_of_one : (fun x => fst (fst x)) <$> do_complete (ring Ex.w_given) = Some (2 ^ 64 - 1).
Proof. by vm_compute. Qed.
