(* ===== verification/Dns.v ===== *)
(** * The sockets of the DNS resolver: src/network/dns.cc, dns.hh

    c-ares does queries over sockets that the resolver gives it: functions that it calls back
    work on sockets of the network stack whose operations take their time, so what c-ares is
    told is that it would block, and the resolver asks it again when the operation is done.
    c-ares and the network are the environment: which function is called when, and whether
    an operation is done at once, later or fails, are arguments.  What a connection will
    give is an [InputStream]; an exception that leaves a callback is [None], as are an entry
    that is used after it was erased and a socket that is not connected. *)

From S2P Require Import Prelude Core.
From stdpp Require Import base numbers option list gmap.

#[local] Open Scope Z_scope.

Abbreviation fd := Z.
(** What an operation of the network does: it is done, fails, or is not available yet. *)
Inductive answer (A : Type) := Now (a : A) | Fails | Later.
Arguments Now {A} a.
Arguments Fails {A}.
Arguments Later {A}.

(** [errno] after a call that returns -1, where the code sets it. *)
Inductive ares_result := Ret (n : Z) | WouldBlock | Error.

Section Dns.
Context {I : Type} {IN : InputStream I}.

(** ** [sock_entry]: the union is a type of two constructors

    [avail] is its two bits; [e_no] tells the entries apart that have had one number. *)

Record tcp_entry := TcpEntry { t_socket : option I; t_in : option I; t_out : bool; indata : list Z }.
Definition address : Type := Z * Z.
Record udp_entry := UdpEntry { u_in : option (address * list Z); u_dst : option address }.
Inductive sock := Tcp (t : tcp_entry) | Udp (u : udp_entry).
Record sock_entry := SockEntry { e_sock : sock; pollin : bool; pollout : bool; e_pending : Z; e_closed : bool; e_no : nat }.

Definition new_tcp_entry : tcp_entry := TcpEntry None None false [].
Definition new_udp_entry : udp_entry := UdpEntry None None.
Definition entry_init (s : sock) (no : nat) : sock_entry := SockEntry s false false 0 false no.

Definition set_sock (s : sock) (e : sock_entry) : sock_entry := SockEntry s (pollin e) (pollout e) (e_pending e) (e_closed e) (e_no e).
Definition set_avail (i o : bool) (e : sock_entry) : sock_entry := SockEntry (e_sock e) i o (e_pending e) (e_closed e) (e_no e).
Definition set_pending (n : Z) (e : sock_entry) : sock_entry := SockEntry (e_sock e) (pollin e) (pollout e) n (e_closed e) (e_no e).
Definition set_closed (e : sock_entry) : sock_entry := SockEntry (e_sock e) (pollin e) (pollout e) (e_pending e) true (e_no e).

(** The continuations that wait: of an operation, with what it asked for, and of one that
    has only [release] left. *)
Inductive op := OpConnect | OpReadTcp (len : Z) | OpReadUdp | OpSend | OpRelease.

(** The members of [impl]; [made] is the number of entries that were made. *)
Record impl := Impl {
  sockets : gmap fd sock_entry; waiting : list (fd * nat * op); gate : Z; gate_closed : bool; i_closed : bool;
  calls : Z; timer_armed : bool; made : nat }.
Definition impl_init : impl := Impl ∅ [] 0 false false 0 false 0.

Definition set_sockets (m : gmap fd sock_entry) (i : impl) : impl :=
  Impl m (waiting i) (gate i) (gate_closed i) (i_closed i) (calls i) (timer_armed i) (made i).
Definition set_entry (s : fd) (e : sock_entry) (i : impl) : impl := set_sockets (<[s := e]> (sockets i)) i.
Definition set_waiting (w : list (fd * nat * op)) (i : impl) : impl :=
  Impl (sockets i) w (gate i) (gate_closed i) (i_closed i) (calls i) (timer_armed i) (made i).
Definition set_gate (n : Z) (i : impl) : impl :=
  Impl (sockets i) (waiting i) n (gate_closed i) (i_closed i) (calls i) (timer_armed i) (made i).

(** ** [use(fd)], [release(fd)], [next_fd()] *)

Definition gate_enter (i : impl) : option impl := if gate_closed i then None else Some (set_gate (gate i + 1) i).
Definition use_socket (s : fd) (i : impl) : option impl :=
  i ← gate_enter i; e ← sockets i !! s; Some (set_entry s (set_pending (e_pending e + 1) e) i).
Definition release_socket (s : fd) (i : impl) : option impl :=
  e ← sockets i !! s;
  let m := if e_pending e - 1 <? 0 then delete s (sockets i) else <[s := set_pending (e_pending e - 1) e]> (sockets i) in
  Some (set_gate (gate i - 1) (set_sockets m i)).

Definition socket_offset : Z := 1.
(** The loop of [next_fd()]: among as many numbers as there are sockets, and one more, one is
    free. *)
Fixpoint next_fd_loop (fuel : nat) (s : fd) (m : gmap fd sock_entry) : option fd :=
  match m !! s with
  | None => Some s
  | Some _ => match fuel with O => None | S fuel => next_fd_loop fuel (s + 1) m end
  end.
Definition next_fd (i : impl) : option fd := next_fd_loop (size (sockets i)) (Z.of_nat (size (sockets i)) + socket_offset) (sockets i).

(** An operation that is not available: [use(fd)] and the continuation.  The gate is only
    closed when the resolver is, and then nothing is begun. *)
Definition wait_for (s : fd) (o : op) (e : sock_entry) (i : impl) : option impl :=
  i ← use_socket s (set_entry s e i); Some (set_waiting (waiting i ++ [(s, e_no e, o)]) i).

(** [get_socket_entry(fd)]; the exception is caught by its callers. *)
Definition get_socket_entry (s : fd) (i : impl) : option sock_entry :=
  e ← sockets i !! s; if e_closed e then None else Some e.

(** ** The functions that c-ares calls *)

Inductive sock_type := SOCK_STREAM | SOCK_DGRAM | SOCK_OTHER.

Definition do_socket (type : sock_type) (i : impl) : option (ares_result * impl) :=
  if i_closed i then Some (Error, i)
  else
    s ← next_fd i;
    let add x := Impl (<[s := entry_init x (made i)]> (sockets i)) (waiting i) (gate i) (gate_closed i) (i_closed i) (calls i) (timer_armed i) (S (made i)) in
    match type with
    | SOCK_STREAM => Some (Ret s, add (Tcp new_tcp_entry))
    | SOCK_DGRAM => Some (Ret s, add (Udp new_udp_entry))
    | SOCK_OTHER => Some (Error, i)
    end.

(** [later]: whether closing the output of a connection, and with it [release], is done
    later. *)
Definition do_close (s : fd) (later : bool) (i : impl) : option (ares_result * impl) :=
  e ← sockets i !! s;
  if e_closed e then Some (Ret 0, i)
  else
    i ← gate_enter (set_entry s (set_closed e) i);
    match e_sock e with
    | Tcp t => if t_out t && later then Some (Ret 0, set_waiting (waiting i ++ [(s, e_no e, OpRelease)]) i)
               else i ← release_socket s i; Some (Ret 0, i)
    | Udp _ => i ← release_socket s i; Some (Ret 0, i)
    end.

(** [do_connect(fd, addr, len)], with the address if its family is AF_INET; [sock] is what
    [connect] gives. *)
Definition do_connect (s : fd) (addr : option address) (sock : answer I) (i : impl) : option (ares_result * impl) :=
  if i_closed i then Some (Error, i)
  else match get_socket_entry s i, addr with
  | Some e, Some sa =>
    if pollin e || pollout e then None
    else match e_sock e with
    | Tcp t =>
      match sock with
      | Now c => Some (Ret 0, set_entry s (set_avail true true (set_sock (Tcp (TcpEntry (Some c) (t_in t) (t_out t) (indata t))) e)) i)
      | Fails => Some (Error, set_entry s (set_avail true true e) i)
      | Later => i ← wait_for s OpConnect (set_avail false false e) i; Some (WouldBlock, i)
      end
    | Udp u => Some (Ret 0, set_entry s (set_avail true true (set_sock (Udp (UdpEntry (u_in u) (Some sa))) e)) i)
    end
  | _, _ => Some (Error, i)
  end.

(** The loop of [do_recvfrom] for a connection; [answers] says how the reads of its rounds
    turn out.  It has no end where there is nothing more to read. *)
Fixpoint recv_tcp (rounds : nat) (s : fd) (len : Z) (answers : nat -> answer unit) (e : sock_entry) (t : tcp_entry) (i : impl)
    : option (ares_result * list Z * impl) :=
  match rounds with
  | O => None
  | S rounds =>
    if negb (zlen (indata t) =? 0) then
      let n := Z.min len (zlen (indata t)) in
      let t' := TcpEntry (t_socket t) (t_in t) (t_out t) (drop (Z.to_nat n) (indata t)) in
      Some (Ret n, take (Z.to_nat n) (indata t), set_entry s (set_sock (Tcp t') e) i)
    else
      inp ← match t_in t with Some x => Some x | None => t_socket t end;
      let t := TcpEntry (t_socket t) (Some inp) (t_out t) (indata t) in
      match answers rounds with
      | Later => i ← wait_for s (OpReadTcp len) (set_avail false (pollout e) (set_sock (Tcp t) e)) i; Some (WouldBlock, [], i)
      | Now _ =>
        let '(buf, inp) := read_up_to len inp in
        recv_tcp rounds s len answers e (TcpEntry (t_socket t) (Some inp) (t_out t) buf) i
      | Fails => Some (Error, [], set_entry s (set_sock (Tcp t) e) i)
      end
  end.

(** For a datagram socket: [dgram] is what [receive] gives. *)
Definition recv_udp (s : fd) (len : Z) (dgram : answer (address * list Z)) (e : sock_entry) (u : udp_entry) (i : impl)
    : option (ares_result * list Z * impl) :=
  let read src p :=
    let n := Z.min len (zlen p) in
    Some (Ret n, take (Z.to_nat n) p,
          set_entry s (set_sock (Udp (UdpEntry (if zlen p =? n then None else Some (src, drop (Z.to_nat n) p)) (u_dst u))) e) i) in
  match u_in u with
  | Some (src, p) => read src p
  | None =>
    match dgram with
    | Now (src, p) => read src p
    | Fails => Some (Error, [], i)
    | Later => i ← wait_for s OpReadUdp (set_avail false (pollout e) e) i; Some (WouldBlock, [], i)
    end
  end.

(** [do_recvfrom(fd, dst, len, ...)], with the bytes that it copies to [dst]. *)
Definition do_recvfrom (rounds : nat) (s : fd) (len : Z) (answers : nat -> answer unit) (dgram : answer (address * list Z)) (i : impl)
    : option (ares_result * list Z * impl) :=
  if i_closed i then Some (Error, [], i)
  else match get_socket_entry s i with
  | None => Some (Error, [], i)
  | Some e =>
    if negb (pollin e) then Some (WouldBlock, [], i)
    else match e_sock e with Tcp t => recv_tcp rounds s len answers e t i | Udp u => recv_udp s len dgram e u i end
  end.

(** [do_sendv(fd, vec, len)]: what it writes, and what it returns, which is the number of
    the parts. *)
Definition do_sendv (s : fd) (vec : list (list Z)) (written : answer unit) (i : impl) : option (ares_result * list Z * impl) :=
  if i_closed i then Some (Error, [], i)
  else match sockets i !! s with
  | None => Some (Error, [], i)
  | Some e =>
    e' ← match e_sock e with
         | Tcp t => if negb (pollout e) then Some e
                    else if t_out t then Some e else _ ← t_socket t; Some (set_sock (Tcp (TcpEntry (t_socket t) (t_in t) true (indata t))) e)
         | Udp _ => Some e
         end;
    if match e_sock e with Tcp _ => negb (pollout e) | Udp _ => false end then Some (WouldBlock, [], i)
    else match written with
    | Now _ => Some (Ret (zlen vec), concat vec, set_entry s e' i)
    | Fails => Some (Error, [], set_entry s e' i)
    | Later => i ← wait_for s OpSend (set_avail (pollin e') false e') i; Some (Ret (zlen vec), concat vec, i)
    end
  end.

(** ** The continuations: what each does before [poll_sockets()] and [release(fd)]

    [entry_of] is the reference [e] that they captured. *)

Definition entry_of (s : fd) (no : nat) (i : impl) : option sock_entry :=
  e ← sockets i !! s; if decide (e_no e = no) then Some e else None.

Inductive completion := Connected (sock : option I) | Received (ok : bool) | Datagram (d : option (address * list Z)) | Sent.

(** The connection, or none when [f.get0()] throws; what was read; a datagram, whose
    failure leaves the socket not ready; the end of a write. *)
Definition connected (c : option I) (t : tcp_entry) (e : sock_entry) : sock_entry :=
  set_avail true true (set_sock (Tcp (match c with Some x => TcpEntry (Some x) (t_in t) (t_out t) (indata t) | None => t end)) e).
Definition received_tcp (len : Z) (ok : bool) (t : tcp_entry) (e : sock_entry) : option sock_entry :=
  t ← (if ok then inp ← t_in t; let '(buf, inp) := read_up_to len inp in Some (TcpEntry (t_socket t) (Some inp) (t_out t) buf) else Some t);
  Some (set_avail true (pollout e) (set_sock (Tcp t) e)).
Definition received_udp (d : option (address * list Z)) (u : udp_entry) (e : sock_entry) : sock_entry :=
  match d with Some d => set_avail true (pollout e) (set_sock (Udp (UdpEntry (Some d) (u_dst u))) e) | None => e end.
Definition write_done (e : sock_entry) : sock_entry := set_avail (pollin e) true e.

Definition complete (s : fd) (no : nat) (o : op) (c : completion) (i : impl) : option impl :=
  e ← entry_of s no i;
  e' ← match o, c, e_sock e with
       | OpConnect, Connected c, Tcp t => Some (connected c t e)
       | OpReadTcp len, Received ok, Tcp t => received_tcp len ok t e
       | OpReadUdp, Datagram d, Udp u => Some (received_udp d u e)
       | OpSend, Sent, _ => Some (write_done e)
       | _, _, _ => None
       end;
  Some (set_entry s e' i).

(** ** [poll_sockets()]: a round of its loop

    Of the sockets that c-ares waits for, those that are ready, and how many they are. *)
Definition poll_sets (readers writers : gset fd) (i : impl) : gset fd * gset fd * nat :=
  let readers := filter (fun s => match sockets i !! s with Some e => pollin e | None => true end = true) readers in
  let writers := filter (fun s => match sockets i !! s with Some e => pollout e | None => true end = true) writers in
  (readers, writers, size (filter (fun s => s ∈ readers \/ s ∈ writers) (dom (sockets i)))).

(** ** Calls and the timer *)

Definition set_calls (n : Z) (armed : bool) (i : impl) : impl :=
  Impl (sockets i) (waiting i) (gate i) (gate_closed i) (i_closed i) n armed (made i).
(** The constructor and the destructor of [dns_call], [end_call()]. *)
Definition dns_call_begin (i : impl) : Z * impl := (u64 (calls i + 1), set_calls (u64 (calls i + 1)) (timer_armed i) i).
Definition dns_call_end (c : Z) (i : impl) : impl := if (c =? 1) && negb (calls i =? 0) then set_calls (calls i) true i else i.
Definition end_call (i : impl) : impl :=
  let n := u64 (calls i - 1) in if n =? 0 then set_calls n false i else set_calls n (timer_armed i) i.

(** ** [close()]: the loop over the sockets; the table must not change under it *)

Fixpoint close_loop (fds : list fd) (later : bool) (i : impl) : option impl :=
  match fds with
  | [] => Some i
  | s :: fds =>
    '(_, i') ← do_close s later i;
    if decide (dom (sockets i') = dom (sockets i)) then close_loop fds later i' else None
  end.
Definition set_impl_closed (i : impl) : impl :=
  Impl (sockets i) (waiting i) (gate i) (gate_closed i) true (calls i) (timer_armed i) (made i).
Definition close_gate (i : impl) : impl :=
  Impl (sockets i) (waiting i) (gate i) true (i_closed i) (calls i) (timer_armed i) (made i).
(** [close()] behind [ares_cancel]. *)
Definition close_sockets (later : bool) (i : impl) : option impl :=
  i ← close_loop (map fst (map_to_list (sockets i))) later i; Some (close_gate i).
End Dns.
Arguments tcp_entry : clear implicits.
Arguments sock : clear implicits.
Arguments sock_entry : clear implicits.
Arguments impl : clear implicits.

(** ** Results: [make_hostent], [resolve_name] *)

Definition inet_address : Type := bool * list Z.
Record c_hostent := CHostent { h_name : list Z; h_aliases : list (list Z); h_addrtype : Z; h_length : Z; h_addr_list : list (list Z) }.
Record hostent := Hostent { names : list (list Z); addr_list : list inet_address }.
Definition AF_INET : Z := 2.
Definition AF_INET6 : Z := 10.

(** The addresses: an assertion on the length, and nothing for other families. *)
Fixpoint host_addresses (h : c_hostent) (l : list (list Z)) : option (list inet_address) :=
  match l with
  | [] => Some []
  | p :: l =>
    if h_addrtype h =? AF_INET then if h_length h <? 4 then None else r ← host_addresses h l; Some ((false, take 4 p) :: r)
    else if h_addrtype h =? AF_INET6 then if h_length h <? 16 then None else r ← host_addresses h l; Some ((true, take 16 p) :: r)
    else host_addresses h l
  end.
(** The message for the log takes the first address, so there has to be one. *)
Definition make_hostent (h : c_hostent) : option hostent :=
  l ← host_addresses h (h_addr_list h);
  match l with [] => None | _ => Some (Hostent (h_name h :: h_aliases h) l) end.
Definition resolve_name_result (h : hostent) : option inet_address := head (addr_list h).
Definition resolve_addr_result (h : hostent) : option (list Z) := head (names h).
