(* ===== verification/DnsSpec.v ===== *)
(** * What the resolver's sockets promise to c-ares

    c-ares, the network and the continuations take steps in any order.  In every execution
    an entry is there as long as a continuation holds it and is erased when it is closed and
    the last is done; what c-ares reads from a connection is what it gives, in order; and
    what c-ares does with its sockets is defined, but for connections that failed
    ([refused_connection]) and ended ([end_of_stream]). *)

From S2P Require Import Prelude Core Dns.
From stdpp Require Import base numbers option list gmap relations.

#[local] Open Scope Z_scope.

Section Dns.
Context {I : Type} {IN : InputStream I}.
Notation impl := (Dns.impl I).
Notation sock_entry := (Dns.sock_entry I).

(** ** The steps

    [owned] are the sockets that c-ares has and has not closed, with whether it has asked to
    connect them; [given] is what it has read from the entry of a number, [streams] all that
    a connection gives. *)
Record world := World { w_impl : impl; owned : gmap fd bool; given : fd -> nat -> list Z; streams : fd -> nat -> list Z }.
Definition world_init : world := World impl_init ∅ (fun _ _ => []) (fun _ _ => []).

Definition put_at (s : fd) (no : nat) (l : list Z) (f : fd -> nat -> list Z) : fd -> nat -> list Z :=
  fun s' no' => if decide (s' = s /\ no' = no) then l else f s' no'.
(** The number of a socket's entry. *)
Definition number_of (s : fd) (i : impl) : nat := match sockets i !! s with Some e => e_no e | None => 0%nat end.
(** What the connection of an entry will give, once it is there. *)
Definition stream_of (s : fd) (no : nat) (i : impl) (f : fd -> nat -> list Z) : fd -> nat -> list Z :=
  match sockets i !! s with
  | Some e => match e_sock e with Tcp (TcpEntry (Some c) _ _ _) => put_at s no (in_pending c) f | _ => f end
  | None => f
  end.

(** c-ares uses the sockets that it has, connects each once before it is used, and reads
    into buffers that have room. *)
Inductive step : world -> world -> Prop :=
  | step_socket type s i w : do_socket type (w_impl w) = Some (Ret s, i) ->
      step w (World i (<[s := false]> (owned w)) (given w) (streams w))
  | step_no_socket type i w : do_socket type (w_impl w) = Some (Error, i) -> step w (World i (owned w) (given w) (streams w))
  | step_close s later r i w : is_Some (owned w !! s) -> do_close s later (w_impl w) = Some (r, i) ->
      step w (World i (delete s (owned w)) (given w) (streams w))
  | step_connect s addr sock r i w : owned w !! s = Some false -> do_connect s addr sock (w_impl w) = Some (r, i) ->
      step w (World i (<[s := true]> (owned w)) (given w) (stream_of s (number_of s (w_impl w)) i (streams w)))
  | step_recv rounds s len answers dgram r bs i w : owned w !! s = Some true -> 0 < len ->
      do_recvfrom rounds s len answers dgram (w_impl w) = Some (r, bs, i) ->
      step w (World i (owned w) (put_at s (number_of s (w_impl w)) (given w s (number_of s (w_impl w)) ++ bs) (given w)) (streams w))
  | step_send s vec written r bs i w : owned w !! s = Some true -> do_sendv s vec written (w_impl w) = Some (r, bs, i) ->
      step w (World i (owned w) (given w) (streams w))
  | step_complete before s no o after c i w : waiting (w_impl w) = before ++ (s, no, o) :: after -> complete s no o c (w_impl w) = Some i ->
      step w (World (set_waiting (before ++ (s, no, OpRelease) :: after) i) (owned w) (given w)
                (match o with OpConnect => stream_of s no i (streams w) | _ => streams w end))
  | step_release before s no after i w : waiting (w_impl w) = before ++ (s, no, OpRelease) :: after ->
      release_socket s (set_waiting (before ++ after) (w_impl w)) = Some i -> step w (World i (owned w) (given w) (streams w))
  | step_query inline w : calls (w_impl w) + 1 < 2 ^ 64 ->
      step w (World (let '(c, i) := dns_call_begin (w_impl w) in dns_call_end c (if inline : bool then end_call i else i)) (owned w) (given w) (streams w))
  | step_end_call w : 0 < calls (w_impl w) -> step w (World (end_call (w_impl w)) (owned w) (given w) (streams w))
  | step_shut w : step w (World (set_impl_closed (w_impl w)) (owned w) (given w) (streams w))
  | step_shut_sockets later i w : i_closed (w_impl w) = true -> owned w = ∅ -> close_sockets later (w_impl w) = Some i ->
      step w (World i (owned w) (given w) (streams w)).

(** ** The invariant of a socket *)

Definition ops_of (s : fd) (l : list (fd * nat * op)) : list op := snd <$> filter (fun x => fst (fst x) = s) l.

Definition is_read (o : op) : Prop := match o with OpConnect | OpReadTcp _ | OpReadUdp => True | _ => False end.
#[global] Instance is_read_dec o : Decision (is_read o).
Proof. destruct o; apply _. Defined.

(** What an operation that waits says of its entry; [g] is what c-ares has read. *)
Definition op_fits (o : op) (e : sock_entry) : Prop :=
  match o, e_sock e with
  | OpConnect, Tcp t => t = new_tcp_entry
  | OpReadTcp len, Tcp t => 0 < len /\ indata t = [] /\ is_Some (t_in t)
  | OpReadUdp, Udp _ => True
  | OpConnect, Udp _ | OpReadTcp _, Udp _ | OpReadUdp, Tcp _ => False
  | OpSend, _ | OpRelease, _ => True
  end.
Definition reads_stream (g st : list Z) (e : sock_entry) : Prop :=
  match e_sock e with
  | Tcp t =>
    match t_socket t with
    | None => t = new_tcp_entry /\ g = []
    | Some c => g ++ indata t ++ in_pending (default c (t_in t)) = st
    end
  | Udp _ => True
  end.
Definition unconnected (e : sock_entry) : Prop :=
  pollin e = false /\ pollout e = false /\ match e_sock e with Tcp t => t = new_tcp_entry | Udp _ => True end.

Record entry_ok (ops : list op) (ow : option bool) (g st : list Z) (m : nat) (e : sock_entry) : Prop := {
  ok_pending : e_pending e = zlen ops - (if e_closed e then 1 else 0);
  ok_closed : e_closed e = true -> ops <> [];
  ok_owned : e_closed e = false <-> is_Some ow;
  ok_no : (e_no e < m)%nat;
  ok_fits : Forall (fun o => op_fits o e) ops;
  ok_reads : (length (filter is_read ops) <= 1)%nat;
  ok_pollin : filter is_read ops <> [] -> pollin e = false;
  ok_connecting : OpConnect ∈ ops -> pollout e = false /\ OpSend ∉ ops;
  ok_fresh : ow = Some false -> ops = [] /\ unconnected e;
  ok_stream : reads_stream g st e }.

Record world_ok (w : world) : Prop := {
  ok_entry : forall s e, sockets (w_impl w) !! s = Some e ->
    entry_ok (ops_of s (waiting (w_impl w))) (owned w !! s) (given w s (e_no e)) (streams w s (e_no e)) (made (w_impl w)) e;
  ok_waiting : forall s no o, (s, no, o) ∈ waiting (w_impl w) -> exists e, sockets (w_impl w) !! s = Some e /\ e_no e = no;
  ok_gate : gate (w_impl w) = zlen (waiting (w_impl w));
  ok_have : forall s, is_Some (owned w !! s) -> is_Some (sockets (w_impl w) !! s);
  ok_given : forall s n, (made (w_impl w) <= n)%nat -> given w s n = [];
  ok_gate_closed : gate_closed (w_impl w) = true -> i_closed (w_impl w) = true /\ owned w = ∅;
  ok_timer : is_uint 64 (calls (w_impl w)) /\ timer_armed (w_impl w) = negb (calls (w_impl w) =? 0) }.

Lemma dns_init_ok : world_ok world_init.
Proof. split; cbn; try done; [|by intros s [? ?]]. intros s no o H. by apply not_elem_of_nil in H. Qed.

Lemma ops_of_app s l k : ops_of s (l ++ k) = ops_of s l ++ ops_of s k.
Proof. unfold ops_of. by rewrite filter_app, fmap_app. Qed.

Lemma ops_of_cons s x l : ops_of s (x :: l) = (if decide (fst (fst x) = s) then [snd x] else []) ++ ops_of s l.
Proof. unfold ops_of. rewrite filter_cons. by case_decide. Qed.

Lemma ops_of_in s o l : o ∈ ops_of s l <-> exists no, (s, no, o) ∈ l.
Proof.
  unfold ops_of. rewrite list_elem_of_fmap. split.
  - intros ([[s' no] o'] & -> & H). apply list_elem_of_filter in H as [<- H]. by exists no.
  - intros [no H]. exists (s, no, o). split; [done|]. by apply list_elem_of_filter.
Qed.

(** A step of one socket, that leaves the others as they are. *)
Lemma socket_step w s e e' ow' wt g' st' (i' : impl) :
  world_ok w -> sockets (w_impl w) !! s = Some e -> e_no e' = e_no e ->
  sockets i' = <[s := e']> (sockets (w_impl w)) -> waiting i' = wt -> gate i' = zlen wt -> made i' = made (w_impl w) ->
  i_closed i' = i_closed (w_impl w) -> gate_closed i' = gate_closed (w_impl w) -> calls i' = calls (w_impl w) -> timer_armed i' = timer_armed (w_impl w) ->
  (forall s', s' <> s -> ops_of s' wt = ops_of s' (waiting (w_impl w))) ->
  (forall s' no o, (s', no, o) ∈ wt -> (s', no, o) ∈ waiting (w_impl w) \/ (s' = s /\ no = e_no e)) ->
  (forall s', s' <> s -> ow' !! s' = owned w !! s') -> (gate_closed (w_impl w) = true -> ow' = ∅) ->
  (forall s' n, s' <> s \/ n <> e_no e -> g' s' n = given w s' n) ->
  (forall s' n, s' <> s -> st' s' n = streams w s' n) ->
  entry_ok (ops_of s wt) (ow' !! s) (g' s (e_no e)) (st' s (e_no e)) (made (w_impl w)) e' ->
  world_ok (World i' ow' g' st').
Proof.
  intros [H1 H2 H3 H4 H5 H6 H7] He Hno Es Ew Eg Em Ec Egc Ecl Et Hops Hin How Hgc Hg Hst Hok. split; cbn [w_impl owned given streams]; rewrite ?Es, ?Ew, ?Em, ?Ec, ?Egc, ?Ecl, ?Et.
  - intros s' e2 Hl. destruct (decide (s' = s)) as [->|Hs].
    + rewrite lookup_insert_eq in Hl. injection Hl as <-. by rewrite Hno.
    + rewrite lookup_insert_ne in Hl by done. rewrite Hops, How, Hg, Hst by auto. by apply H1.
  - intros s' no o Hx. destruct (decide (s' = s)) as [->|Hs].
    + exists e'. rewrite lookup_insert_eq. split; [done|]. rewrite Hno. destruct (Hin s no o Hx) as [Hx'|[_ ->]]; [|done].
      destruct (H2 _ _ _ Hx') as (e2 & He2 & <-). rewrite He in He2. by injection He2 as ->.
    + rewrite lookup_insert_ne by done. destruct (Hin s' no o Hx) as [Hx'|[? _]]; [|done]. by apply (H2 _ _ _ Hx').
  - done.
  - intros s' Hs'. destruct (decide (s' = s)) as [->|Hs]; [by rewrite lookup_insert_eq|]. rewrite lookup_insert_ne by done. apply H4. by rewrite <- How.
  - intros s' n Hn. rewrite Hg; [by apply H5|]. destruct (decide (s' = s)); [|by left]. right. pose proof (ok_no _ _ _ _ _ _ (H1 s e He)). lia.
  - intros Hc. split; [by apply H6|by apply Hgc].
  - done.
Qed.

(** An entry that is erased has nothing that waits. *)
Lemma socket_gone w s e ow' wt (i' : impl) :
  world_ok w -> sockets (w_impl w) !! s = Some e ->
  sockets i' = delete s (sockets (w_impl w)) -> waiting i' = wt -> gate i' = zlen wt -> made i' = made (w_impl w) ->
  i_closed i' = i_closed (w_impl w) -> gate_closed i' = gate_closed (w_impl w) -> calls i' = calls (w_impl w) -> timer_armed i' = timer_armed (w_impl w) ->
  (forall s', s' <> s -> ops_of s' wt = ops_of s' (waiting (w_impl w))) -> ops_of s wt = [] ->
  (forall x, x ∈ wt -> x ∈ waiting (w_impl w)) ->
  (forall s', s' <> s -> ow' !! s' = owned w !! s') -> ow' !! s = None -> (gate_closed (w_impl w) = true -> ow' = ∅) ->
  world_ok (World i' ow' (given w) (streams w)).
Proof.
  intros [H1 H2 H3 H4 H5 H6 H7] He Es Ew Eg Em Ec Egc Ecl Et Hops Hnone Hin How Hows Hgc.
  split; cbn [w_impl owned given streams]; rewrite ?Es, ?Ew, ?Em, ?Ec, ?Egc, ?Ecl, ?Et; [| |done| |done| |done].
  - intros s' e2 Hl. apply lookup_delete_Some in Hl as [Hs Hl]. rewrite Hops, How by done. by apply H1.
  - intros s' no o Hx. destruct (H2 _ _ _ (Hin _ Hx)) as (e2 & He2 & Hno). exists e2. split; [|done]. rewrite lookup_delete_ne; [done|].
    intros <-. assert (o ∈ ops_of s wt) as Ho by (apply ops_of_in; by exists no). rewrite Hnone in Ho. by apply not_elem_of_nil in Ho.
  - intros s' Hs'. destruct (decide (s' = s)) as [->|Hs]; [rewrite Hows in Hs'; by destruct Hs'|]. rewrite lookup_delete_ne by done. apply H4. by rewrite <- How.
  - intros Hc. split; [by apply H6|by apply Hgc].
Qed.

(** A socket that c-ares has: its entry is there and open, and so is the gate. *)
Lemma owned_entry w s b : world_ok w -> owned w !! s = Some b ->
  exists e, sockets (w_impl w) !! s = Some e /\ e_closed e = false /\ gate_closed (w_impl w) = false /\
    entry_ok (ops_of s (waiting (w_impl w))) (Some b) (given w s (e_no e)) (streams w s (e_no e)) (made (w_impl w)) e.
Proof.
  intros Hw Ho. destruct (ok_have w Hw s) as [e He]; [by eexists|]. exists e. pose proof (ok_entry w Hw s e He) as Hok. rewrite Ho in Hok.
  split; [done|]. split; [apply (ok_owned _ _ _ _ _ _ Hok); by eexists|]. split; [|done].
  destruct (gate_closed (w_impl w)) eqn:Eg; [|done]. destruct (ok_gate_closed w Hw Eg) as [_ E]. rewrite E in Ho. by apply lookup_empty_Some in Ho.
Qed.

Lemma next_fd_loop_free fuel : forall s (m : gmap fd sock_entry) s', next_fd_loop fuel s m = Some s' -> m !! s' = None.
Proof.
  induction fuel as [|fuel IH]; intros s m s' H; cbn [next_fd_loop] in H; destruct (m !! s) eqn:E; try done; try (by injection H as <-). by apply (IH _ _ _ H).
Qed.

Lemma socket_added w type s i : world_ok w -> do_socket type (w_impl w) = Some (Ret s, i) ->
  world_ok (World i (<[s := false]> (owned w)) (given w) (streams w)).
Proof.
  intros Hw H. unfold do_socket in H. destruct (i_closed (w_impl w)) eqn:Ec; [done|]. destruct (next_fd (w_impl w)) as [s'|] eqn:En; [|done]. cbn [mbind option_bind] in H.
  pose proof (next_fd_loop_free _ _ _ _ En) as Hfree.
  assert (exists x, (x = Tcp new_tcp_entry \/ x = Udp new_udp_entry) /\ s' = s /\ i = Impl (<[s := entry_init x (made (w_impl w))]> (sockets (w_impl w))) (waiting (w_impl w))
     (gate (w_impl w)) (gate_closed (w_impl w)) (i_closed (w_impl w)) (calls (w_impl w)) (timer_armed (w_impl w)) (S (made (w_impl w)))) as (x & Hx & -> & ->).
  { destruct type; [exists (Tcp new_tcp_entry)|exists (Udp new_udp_entry)|done]; (split; [auto|]); injection H as E1 E2; subst; by rewrite Ec. }
  destruct Hw as [H1 H2 H3 H4 H5 H6 H7].
  assert (ops_of s (waiting (w_impl w)) = []) as Hnone.
  { apply elem_of_nil_inv. intros o Ho. apply ops_of_in in Ho as [no Ho]. destruct (H2 _ _ _ Ho) as (e & He & _). by rewrite Hfree in He. }
  split; cbn [w_impl owned given streams sockets waiting gate gate_closed i_closed calls timer_armed made].
  - intros s' e He. destruct (decide (s' = s)) as [->|Hs].
    + rewrite lookup_insert_eq in He. injection He as <-. rewrite lookup_insert_eq, Hnone, H5 by (cbn; lia). split; cbn; try done; try lia.
      * intros Ho. by apply not_elem_of_nil in Ho.
      * intros _. split; [done|]. by destruct Hx as [->| ->].
      * by destruct Hx as [->| ->].
    + rewrite lookup_insert_ne in He by done. rewrite lookup_insert_ne by done. destruct (H1 s' e He). split; try done. lia.
  - intros s' no o Ho. destruct (H2 _ _ _ Ho) as (e & He & Hno). exists e. split; [|done]. rewrite lookup_insert_ne; [done|]. intros <-. by rewrite Hfree in He.
  - done.
  - intros s' Hs'. destruct (decide (s' = s)) as [->|Hs]; [by rewrite lookup_insert_eq|]. rewrite lookup_insert_ne in Hs' by done. rewrite lookup_insert_ne by done. by apply H4.
  - intros s' n Hn. apply H5. lia.
  - intros Hg. destruct (H6 Hg) as [Hc _]. congruence.
  - done.
Qed.

Lemma filter_sublist (P : op -> Prop) `{!forall o, Decision (P o)} l k : sublist l k -> sublist (filter P l) (filter P k).
Proof. induction 1 as [|x l k _ IH|x l k _ IH]; rewrite ?filter_cons; [done|case_decide; by try constructor..]. Qed.

(** [release] where one continuation less waits. *)
Lemma released w s e e2 ops wt ow' (i : impl) i' :
  world_ok w -> sockets (w_impl w) !! s = Some e ->
  e_no e2 = e_no e -> e_sock e2 = e_sock e -> pollin e2 = pollin e -> pollout e2 = pollout e ->
  sockets i = <[s := e2]> (sockets (w_impl w)) -> waiting i = wt -> gate i = zlen wt + 1 -> made i = made (w_impl w) ->
  i_closed i = i_closed (w_impl w) -> gate_closed i = gate_closed (w_impl w) -> calls i = calls (w_impl w) -> timer_armed i = timer_armed (w_impl w) ->
  (forall s', s' <> s -> ops_of s' wt = ops_of s' (waiting (w_impl w))) -> (forall x, x ∈ wt -> x ∈ waiting (w_impl w)) ->
  ops_of s wt = ops -> e_pending e2 = zlen ops + 1 - (if e_closed e2 then 1 else 0) ->
  (forall s', s' <> s -> ow' !! s' = owned w !! s') -> (gate_closed (w_impl w) = true -> ow' = ∅) ->
  (e_closed e2 = false <-> is_Some (ow' !! s)) -> (ow' !! s = Some false -> owned w !! s = Some false) ->
  sublist ops (ops_of s (waiting (w_impl w))) ->
  release_socket s i = Some i' -> world_ok (World i' ow' (given w) (streams w)).
Proof.
  intros Hw He N1 N2 N3 N4 Es Ew Eg Em Ec Egc Ecl Et Hops Hin Hwt Hpend How Hgc Hoc Hfr Hsub H. unfold release_socket in H.
  rewrite Es, lookup_insert_eq in H. cbn [mbind option_bind] in H. pose proof (ok_entry w Hw s e He) as Hok.
  pose proof (zlen_nonneg ops). destruct (Z.ltb_spec (e_pending e2 - 1) 0) as [Hneg|Hpos]; injection H as <-.
  - assert (e_closed e2 = true /\ ops = []) as [Hc ->] by (destruct (e_closed e2); [split; [done|apply zlen_0_nil; lia]|lia]).
    apply (socket_gone w s e ow' wt); cbn; rewrite ?Es, ?delete_insert_eq; try done; [lia|].
    destruct (ow' !! s) eqn:E; [|done]. destruct Hoc as [_ Hoc]. rewrite Hoc in Hc; [done|by eexists].
  - apply (socket_step w s e (set_pending (e_pending e2 - 1) e2) ow' wt); cbn; rewrite ?Es, ?insert_insert_eq; try done; [lia|by intros s' no o Hx; left; apply Hin|].
    destruct Hok as [K1 K2 K3 K4 K5 K6 K7 Kc K8 K9]. rewrite Hwt. unfold op_fits, unconnected, reads_stream in *.
    split; cbn; unfold op_fits, unconnected, reads_stream; cbn; rewrite ?N1, ?N2, ?N3, ?N4; try done.
    + lia.
    + intros Hc ->. rewrite Hc in Hpend. change (zlen []) with 0 in *. lia.
    + apply Forall_forall. intros o Ho. apply (proj1 (Forall_forall _ _) K5 o). by apply (elem_of_sublist ops).
    + etransitivity; [|exact K6]. by apply sublist_length, filter_sublist.
    + intros Hne. apply K7. intros E. apply Hne. apply (sublist_nil_r (filter is_read ops)). rewrite <- E. by apply filter_sublist.
    + intros Ho. assert (OpConnect ∈ ops_of s (waiting (w_impl w))) as Ho' by (by apply (elem_of_sublist ops)). destruct (Kc Ho') as [Ep Hns].
      split; [done|]. intros Hs. apply Hns. by apply (elem_of_sublist ops).
    + intros Hf. destruct (K8 (Hfr Hf)) as [E1 E2]. split; [|done]. rewrite E1 in Hsub. by apply sublist_nil_r.
Qed.

Lemma ops_of_snoc s s' no o l : ops_of s' (l ++ [(s, no, o)]) = ops_of s' l ++ if decide (s = s') then [o] else [].
Proof. rewrite ops_of_app, ops_of_cons. cbn [fst snd]. change (ops_of s' []) with (@nil op). by rewrite app_nil_r. Qed.

Lemma ops_of_mid s s' no o before after :
  ops_of s' (before ++ (s, no, o) :: after) = ops_of s' before ++ (if decide (s = s') then [o] else []) ++ ops_of s' after.
Proof. by rewrite ops_of_app, ops_of_cons. Qed.

(** An operation that is not available. *)
Lemma waited w s e e2 o ow' g' st' i' :
  world_ok w -> sockets (w_impl w) !! s = Some e -> gate_closed (w_impl w) = false ->
  e_no e2 = e_no e -> wait_for s o e2 (w_impl w) = Some i' ->
  (forall s', s' <> s -> ow' !! s' = owned w !! s') ->
  (forall s' n, s' <> s \/ n <> e_no e -> g' s' n = given w s' n) -> (forall s' n, s' <> s -> st' s' n = streams w s' n) ->
  entry_ok (ops_of s (waiting (w_impl w)) ++ [o]) (ow' !! s) (g' s (e_no e)) (st' s (e_no e)) (made (w_impl w)) (set_pending (e_pending e2 + 1) e2) ->
  world_ok (World i' ow' g' st').
Proof.
  intros Hw He Hgc Hno H How Hg Hst Hok. unfold wait_for, use_socket, gate_enter in H. cbn [gate_closed set_entry set_sockets] in H. rewrite Hgc in H.
  cbn [mbind option_bind sockets set_gate set_entry set_sockets] in H. rewrite lookup_insert_eq in H. cbn [mbind option_bind] in H. injection H as <-.
  apply (socket_step w s e (set_pending (e_pending e2 + 1) e2) ow' (waiting (w_impl w) ++ [(s, e_no e2, o)])); cbn; rewrite ?insert_insert_eq; try done.
  - rewrite (ok_gate w Hw), zlen_app. done.
  - intros s' Hs. rewrite ops_of_snoc, decide_False by congruence. apply app_nil_r.
  - intros s' no' o' Hx. apply elem_of_app in Hx as [Hx|Hx]; [by left|]. apply list_elem_of_singleton in Hx. injection Hx as -> -> ->. by right.
  - congruence.
  - by rewrite ops_of_snoc, decide_True.
Qed.

(** A step that changes the entry of a socket and nothing else. *)
Lemma entry_step w s e e2 ow' g' st' :
  world_ok w -> sockets (w_impl w) !! s = Some e -> e_no e2 = e_no e ->
  (forall s', s' <> s -> ow' !! s' = owned w !! s') -> (gate_closed (w_impl w) = true -> ow' = ∅) ->
  (forall s' n, s' <> s \/ n <> e_no e -> g' s' n = given w s' n) -> (forall s' n, s' <> s -> st' s' n = streams w s' n) ->
  entry_ok (ops_of s (waiting (w_impl w))) (ow' !! s) (g' s (e_no e)) (st' s (e_no e)) (made (w_impl w)) e2 ->
  world_ok (World (set_entry s e2 (w_impl w)) ow' g' st').
Proof.
  intros Hw He Hno How Hgc Hg Hst Hok. apply (socket_step w s e e2 ow' (waiting (w_impl w))); try done; [by apply ok_gate|intros; by left].
Qed.

Lemma closed_ok w s later r i : world_ok w -> is_Some (owned w !! s) -> do_close s later (w_impl w) = Some (r, i) ->
  world_ok (World i (delete s (owned w)) (given w) (streams w)).
Proof.
  intros Hw [b Hb] H. destruct (owned_entry w s b Hw Hb) as (e & He & Hc & Hgc & Hok). unfold do_close in H. rewrite He in H. cbn [mbind option_bind] in H.
  rewrite Hc in H. unfold gate_enter in H. cbn [gate_closed set_entry set_sockets] in H. rewrite Hgc in H. cbn [mbind option_bind] in H.
  pose proof (ok_pending _ _ _ _ _ _ Hok) as Hp. rewrite Hc in Hp.
  assert (forall i', release_socket s (set_gate (gate (w_impl w) + 1) (set_entry s (set_closed e) (w_impl w))) = Some i' ->
            world_ok (World i' (delete s (owned w)) (given w) (streams w))) as Hrel.
  { intros i' Hi. apply (released w s e (set_closed e) (ops_of s (waiting (w_impl w))) (waiting (w_impl w)) (delete s (owned w)) _ i' Hw He) in Hi; cbn; try done.
    - rewrite (ok_gate w Hw). done.
    - lia.
    - intros s' Hs. by rewrite lookup_delete_ne.
    - congruence.
    - rewrite lookup_delete_eq. split; [done|by intros [? ?]].
    - by rewrite lookup_delete_eq. }
  destruct (e_sock e) as [t|u] eqn:Es; [destruct (t_out t && later)|].
  2,3: destruct (release_socket _ _) as [i'|] eqn:Er; [|done]; injection H as <- <-; by apply Hrel.
  injection H as <- <-.
  apply (socket_step w s e (set_closed e) (delete s (owned w)) (waiting (w_impl w) ++ [(s, e_no e, OpRelease)])); cbn; try done.
  - rewrite (ok_gate w Hw), zlen_app. done.
  - intros s' Hs. rewrite ops_of_snoc, decide_False by congruence. apply app_nil_r.
  - intros s' no' o' Hx. apply elem_of_app in Hx as [Hx|Hx]; [by left|]. apply list_elem_of_singleton in Hx. injection Hx as -> -> ->. by right.
  - intros s' Hs. by rewrite lookup_delete_ne.
  - congruence.
  - rewrite ops_of_snoc, decide_True, lookup_delete_eq by done. destruct Hok as [K1 K2 K3 K4 K5 K6 K7 Kc K8 K9].
    split; cbn; try done.
    + rewrite zlen_app. change (zlen [OpRelease]) with 1. lia.
    + intros _ E. by apply app_nil in E as [_ ?].
    + apply Forall_app. split; [done|]. by constructor.
    + rewrite filter_app. change (filter is_read [OpRelease]) with (@nil op). by rewrite app_nil_r.
    + rewrite filter_app. change (filter is_read [OpRelease]) with (@nil op). by rewrite app_nil_r.
    + intros Ho. apply elem_of_app in Ho as [Ho|Ho]; [|by apply list_elem_of_singleton in Ho]. destruct (Kc Ho) as [Ep Hns].
      split; [done|]. intros Hx. apply elem_of_app in Hx as [Hx|Hx]; [done|]. by apply list_elem_of_singleton in Hx.
Qed.

Lemma released_ok w before s no after i : world_ok w -> waiting (w_impl w) = before ++ (s, no, OpRelease) :: after ->
  release_socket s (set_waiting (before ++ after) (w_impl w)) = Some i -> world_ok (World i (owned w) (given w) (streams w)).
Proof.
  intros Hw Hwt Hi. destruct (ok_waiting w Hw s no OpRelease) as (e & He & Hno); [rewrite Hwt; apply elem_of_app; right; by left|].
  pose proof (ok_entry w Hw s e He) as Hok. rewrite Hwt, ops_of_mid, decide_True in Hok by done. pose proof (ok_pending _ _ _ _ _ _ Hok) as Hp.
  rewrite !zlen_app in Hp. change (zlen [OpRelease]) with 1 in Hp.
  apply (released w s e e (ops_of s before ++ ops_of s after) (before ++ after) (owned w) _ i Hw He) in Hi; cbn; try done.
  - by rewrite insert_id.
  - rewrite (ok_gate w Hw), Hwt, !zlen_app, zlen_cons. lia.
  - intros s' Hs. by rewrite Hwt, ops_of_mid, decide_False, ops_of_app by congruence.
  - intros x Hx. rewrite Hwt. apply elem_of_app in Hx as [Hx|Hx]; apply elem_of_app; [by left|right; by right].
  - apply ops_of_app.
  - rewrite zlen_app. lia.
  - intros Hg. by apply (ok_gate_closed w Hw).
  - apply (ok_owned _ _ _ _ _ _ Hok).
  - rewrite Hwt, ops_of_mid, decide_True by done. apply sublist_app; [done|]. by apply sublist_inserts_l.
Qed.

(** ** c-ares connects, reads and sends *)

Lemma put_at_eq s no l f : put_at s no l f s no = l.
Proof. unfold put_at. by rewrite decide_True. Qed.

Lemma put_at_ne s no l f s' no' : s' <> s \/ no' <> no -> put_at s no l f s' no' = f s' no'.
Proof. intros H. unfold put_at. rewrite decide_False; [done|]. intros [-> ->]. by destruct H. Qed.

Lemma stream_of_ne s no i f s' no' : s' <> s -> stream_of s no i f s' no' = f s' no'.
Proof.
  intros H. unfold stream_of. destruct (sockets i !! s) as [e|]; [|done]. destruct (e_sock e) as [[[c|] ? ? ?]|]; try done. apply put_at_ne. by left.
Qed.

Lemma set_entry_id s e (i : impl) : sockets i !! s = Some e -> set_entry s e i = i.
Proof. intros H. destruct i. unfold set_entry, set_sockets. cbn in *. by rewrite insert_id. Qed.

(** A connection that there is not leaves the streams as they are. *)
Lemma stream_of_none s no e i f :
  sockets i !! s = Some e -> match e_sock e with Tcp t => t_socket t = None | Udp _ => True end -> stream_of s no i f = f.
Proof. intros H Ht. unfold stream_of. rewrite H. destruct (e_sock e) as [[? ? ? ?]|]; [|done]. cbn in Ht. by rewrite Ht. Qed.

(** c-ares has asked to connect its socket. *)
Lemma connect_step w s e e2 st' :
  world_ok w -> sockets (w_impl w) !! s = Some e -> owned w !! s = Some false -> gate_closed (w_impl w) = false ->
  e_no e2 = e_no e -> e_pending e2 = e_pending e -> e_closed e2 = e_closed e ->
  (forall s' n, s' <> s -> st' s' n = streams w s' n) -> reads_stream (given w s (e_no e)) (st' s (e_no e)) e2 ->
  world_ok (World (set_entry s e2 (w_impl w)) (<[s := true]> (owned w)) (given w) st').
Proof.
  intros Hw He Ho Hgc E1 E2 E3 Hst Hr. apply (entry_step w s e); try done.
  - intros s' Hs. by rewrite lookup_insert_ne.
  - congruence.
  - destruct (ok_entry w Hw s e He) as [K1 K2 K3 K4 K5 K6 K7 Kc K8 K9]. destruct (K8 Ho) as [Hn _].
    rewrite lookup_insert_eq, Hn in *. rewrite Ho in K3. split; rewrite ?E1, ?E2, ?E3; try done.
    + rewrite K3. split; intros _; by eexists.
    + intros Hx. by apply not_elem_of_nil in Hx.
Qed.

Lemma connected_ok w s addr c r i : world_ok w -> owned w !! s = Some false -> do_connect s addr c (w_impl w) = Some (r, i) ->
  world_ok (World i (<[s := true]> (owned w)) (given w) (stream_of s (number_of s (w_impl w)) i (streams w))).
Proof.
  intros Hw Ho H. destruct (owned_entry w s false Hw Ho) as (e & He & Hc & Hgc & Hok).
  destruct (ok_fresh _ _ _ _ _ _ Hok eq_refl) as [Hn (Hi & Hp & Ht)]. pose proof (ok_stream _ _ _ _ _ _ Hok) as Hst.
  assert (world_ok (World (w_impl w) (<[s := true]> (owned w)) (given w) (stream_of s (number_of s (w_impl w)) (w_impl w) (streams w)))) as Hsame.
  { assert (match e_sock e with Tcp t => t_socket t = None | Udp _ => True end) by (destruct (e_sock e) as [t|]; [by subst t|done]).
    rewrite (stream_of_none s _ e) by done. rewrite <- (set_entry_id s e (w_impl w)) by done. by apply (connect_step w s e). }
  assert (number_of s (w_impl w) = e_no e) as En by (unfold number_of; by rewrite He).
  unfold do_connect in H. destruct (i_closed (w_impl w)); [by injection H as <- <-|]. unfold get_socket_entry in H. rewrite He in H. cbn [mbind option_bind] in H. rewrite Hc in H.
  destruct addr as [sa|]; [|by injection H as <- <-]. rewrite Hi, Hp in H. cbn [orb] in H.
  assert (forall e2, sockets (set_entry s e2 (w_impl w)) !! s = Some e2) as Hl by (intros; cbn; by rewrite lookup_insert_eq).
  destruct (e_sock e) as [t|u] eqn:Es.
  - subst t. unfold reads_stream in Hst. rewrite Es in Hst. destruct Hst as [_ Hg]. destruct c as [c| |].
    + injection H as <- <-. apply (connect_step w s e); try done; [intros; by apply stream_of_ne|].
      unfold stream_of. rewrite Hl. cbn. rewrite En, put_at_eq, Hg. done.
    + injection H as <- <-. rewrite (stream_of_none s _ _ _ _ (Hl _)) by (cbn; by rewrite Es). apply (connect_step w s e); try done.
      unfold reads_stream. cbn. by rewrite Es.
    + destruct (wait_for _ _ _ _) as [i'|] eqn:Ew; [|done]. injection H as <- <-.
      rewrite (stream_of_none s _ (set_pending (e_pending e + 1) (set_avail false false e))).
      2: { unfold wait_for, use_socket, gate_enter in Ew. cbn [gate_closed set_entry set_sockets] in Ew. rewrite Hgc in Ew.
           cbn [mbind option_bind sockets set_gate set_entry set_sockets] in Ew. rewrite lookup_insert_eq in Ew. injection Ew as <-. cbn. by rewrite lookup_insert_eq. }
      2: cbn; by rewrite Es.
      apply (waited w s e (set_avail false false e) OpConnect); try done.
      { intros s' Hs. by rewrite lookup_insert_ne. }
      rewrite Hn, lookup_insert_eq. destruct Hok as [K1 K2 K3 K4 K5 K6 K7 Kc K8 K9]. rewrite Hn, Hc in K1. split; cbn; try done.
      * rewrite Hc, K1. done.
      * constructor; [|done]. unfold op_fits. cbn. by rewrite Es.
      * intros _. split; [done|]. intros Hx. by apply list_elem_of_singleton in Hx.
  - injection H as <- <-. rewrite (stream_of_none s _ _ _ _ (Hl _)) by done. by apply (connect_step w s e).
Qed.

(** What waits while a socket may be read holds nothing of its entry. *)
Lemma no_reads ops (e : sock_entry) : filter is_read ops = [] -> Forall (fun o => op_fits o e) ops.
Proof.
  intros H. apply Forall_forall. intros o Ho. destruct (decide (is_read o)) as [Hr|Hr].
  - exfalso. apply (not_elem_of_nil o). rewrite <- H. by apply list_elem_of_filter.
  - destruct o; [by destruct Hr..| |]; done.
Qed.

Lemma pollin_no_reads ops ow g st m e : entry_ok ops ow g st m e -> pollin e = true -> filter is_read ops = [].
Proof. intros Hok Hp. destruct (filter is_read ops) eqn:E; [done|]. rewrite (ok_pollin _ _ _ _ _ _ Hok) in Hp; [done|]. by rewrite E. Qed.

(** An entry that may be read with what there is to read changed. *)
Lemma entry_reread ops ow g g' st m e e2 :
  entry_ok ops ow g st m e -> ow <> Some false -> pollin e = true ->
  e_no e2 = e_no e -> e_pending e2 = e_pending e -> e_closed e2 = e_closed e -> pollout e2 = pollout e -> reads_stream g' st e2 -> entry_ok ops ow g' st m e2.
Proof.
  intros Hok How Hp E1 E2 E3 E4 Hr. pose proof (pollin_no_reads _ _ _ _ _ _ Hok Hp) as Hn. destruct Hok as [K1 K2 K3 K4 K5 K6 K7 Kc K8 K9].
  split; rewrite ?E1, ?E2, ?E3, ?E4; try done; by apply no_reads.
Qed.

(** The same with a read that waits from now on. *)
Lemma entry_rewait ops ow g st m e e2 o :
  entry_ok ops ow g st m e -> ow <> Some false -> pollin e = true ->
  e_no e2 = e_no e -> e_pending e2 = e_pending e -> e_closed e2 = e_closed e -> pollin e2 = false -> o <> OpConnect -> op_fits o (set_pending (e_pending e2 + 1) e2) -> reads_stream g st e2 ->
  entry_ok (ops ++ [o]) ow g st m (set_pending (e_pending e2 + 1) e2).
Proof.
  intros Hok How Hp E1 E2 E3 Hi Hoc Hf Hr. pose proof (pollin_no_reads _ _ _ _ _ _ Hok Hp) as Hn. destruct Hok as [K1 K2 K3 K4 K5 K6 K7 Kc K8 K9].
  split; cbn; rewrite ?E1, ?E2, ?E3; try done.
  - rewrite zlen_app. change (zlen [o]) with 1. lia.
  - intros _ E. by apply app_nil in E as [_ ?].
  - apply Forall_app. split; [by apply no_reads|]. by constructor.
  - rewrite filter_app, Hn. cbn [app]. etransitivity; [apply length_filter|]. done.
  - intros Hx. apply elem_of_app in Hx as [Hx|Hx]; [|apply list_elem_of_singleton in Hx; by subst o].
    exfalso. apply (not_elem_of_nil OpConnect). rewrite <- Hn. by apply list_elem_of_filter.
Qed.

Definition read_at (s : fd) (bs : list Z) (w : world) : fd -> nat -> list Z :=
  put_at s (number_of s (w_impl w)) (given w s (number_of s (w_impl w)) ++ bs) (given w).

(** A call that reads [bs] from a socket and leaves it in [e2]. *)
Lemma read_step w s e e2 b bs : world_ok w -> sockets (w_impl w) !! s = Some e -> owned w !! s = Some b ->
  e_no e2 = e_no e ->
  entry_ok (ops_of s (waiting (w_impl w))) (owned w !! s) (given w s (e_no e) ++ bs) (streams w s (e_no e)) (made (w_impl w)) e2 ->
  world_ok (World (set_entry s e2 (w_impl w)) (owned w) (read_at s bs w) (streams w)).
Proof.
  intros Hw He Ho Hno Hok. assert (number_of s (w_impl w) = e_no e) as En by (unfold number_of; by rewrite He).
  unfold read_at. rewrite En. apply (entry_step w s e); try done; [by intros Hg; apply (ok_gate_closed w Hw)|by intros; apply put_at_ne|]. by rewrite put_at_eq.
Qed.

Lemma read_wait_step w s e e2 o i' : world_ok w -> sockets (w_impl w) !! s = Some e -> gate_closed (w_impl w) = false ->
  e_no e2 = e_no e -> wait_for s o e2 (w_impl w) = Some i' ->
  entry_ok (ops_of s (waiting (w_impl w)) ++ [o]) (owned w !! s) (given w s (e_no e)) (streams w s (e_no e)) (made (w_impl w)) (set_pending (e_pending e2 + 1) e2) ->
  world_ok (World i' (owned w) (read_at s [] w) (streams w)).
Proof.
  intros Hw He Hg Hno Hi Hok. assert (number_of s (w_impl w) = e_no e) as En by (unfold number_of; by rewrite He).
  unfold read_at. rewrite En, app_nil_r. apply (waited w s e e2 o); try done; [by intros; apply put_at_ne|by rewrite put_at_eq].
Qed.

Lemma recv_tcp_ok s e t0 len answers r bs i w rounds : world_ok w -> sockets (w_impl w) !! s = Some e -> owned w !! s = Some true ->
  gate_closed (w_impl w) = false -> pollin e = true -> e_sock e = Tcp t0 -> 0 < len -> forall t,
  reads_stream (given w s (e_no e)) (streams w s (e_no e)) (set_sock (Tcp t) e) ->
  recv_tcp rounds s len answers e t (w_impl w) = Some (r, bs, i) -> world_ok (World i (owned w) (read_at s bs w) (streams w)).
Proof.
  intros Hw He Ho Hg Hp Hs Hlen. pose proof (ok_entry w Hw s e He) as Hok. assert (owned w !! s <> Some false) as Hnf by (by rewrite Ho).
  induction rounds as [|rounds IH]; intros t Hr H; [done|]. cbn [recv_tcp] in H. destruct (Z.eqb_spec (zlen (indata t)) 0) as [Hz|Hz]; cbn [negb] in H.
  - apply zlen_0_nil in Hz. destruct (match t_in t with Some x => Some x | None => t_socket t end) as [inp|] eqn:Einp; [|done]. cbn [mbind option_bind] in H.
    assert (is_Some (t_socket t)) as [c Ec].
    { unfold reads_stream in Hr. cbn in Hr. destruct (t_socket t); [by eexists|]. destruct Hr as [-> _]. done. }
    assert (inp = default c (t_in t)) as -> by (rewrite Ec in Einp; by destruct (t_in t); injection Einp as <-).
    unfold reads_stream in Hr. cbn in Hr. rewrite Ec, Hz in Hr. cbn [app] in Hr.
    destruct (answers rounds) as [a| |] eqn:Ea.
    + destruct (read_up_to len (default c (t_in t))) as [buf inp] eqn:Eread. destruct (read_up_to_spec len (default c (t_in t)) Hlen) as [Hrd _]. rewrite Eread in Hrd. cbn [fst snd] in Hrd.
      apply (IH (TcpEntry (t_socket t) (Some inp) (t_out t) buf)); [|done]. unfold reads_stream. cbn. rewrite Ec. by rewrite Hrd.
    + injection H as <- <- <-. apply (read_step w s e _ true); try done. rewrite app_nil_r. eapply entry_reread; try done. unfold reads_stream. cbn. by rewrite Ec, Hz.
    + destruct (wait_for _ _ _ _) as [i'|] eqn:Ew; [|done]. injection H as <- <- <-. refine (read_wait_step w s e _ _ i' Hw He Hg _ Ew _); [done|].
      eapply entry_rewait; try done. unfold reads_stream. cbn. by rewrite Ec, Hz.
  - injection H as <- <- <-. apply (read_step w s e _ true); try done. eapply entry_reread; try done.
    unfold reads_stream in *. cbn in *. destruct (t_socket t) as [c|]; [|by destruct Hr as [-> _]]. rewrite <- Hr, <- app_assoc. f_equal. rewrite app_assoc. f_equal. apply take_drop.
Qed.

Lemma read_ok w rounds s len answers dgram r bs i : world_ok w -> owned w !! s = Some true -> 0 < len ->
  do_recvfrom rounds s len answers dgram (w_impl w) = Some (r, bs, i) -> world_ok (World i (owned w) (read_at s bs w) (streams w)).
Proof.
  intros Hw Ho Hlen H. destruct (owned_entry w s true Hw Ho) as (e & He & Hc & Hgc & Hok). rewrite <- Ho in Hok. assert (owned w !! s <> Some false) as Hnf by (by rewrite Ho).
  assert (world_ok (World (w_impl w) (owned w) (read_at s [] w) (streams w))) as Hsame.
  { rewrite <- (set_entry_id s e (w_impl w)) by done. apply (read_step w s e _ true); try done. by rewrite app_nil_r. }
  unfold do_recvfrom in H. destruct (i_closed (w_impl w)); [by injection H as <- <- <-|]. unfold get_socket_entry in H. rewrite He in H. cbn [mbind option_bind] in H. rewrite Hc in H.
  destruct (pollin e) eqn:Ep; cbn [negb] in H; [|by injection H as <- <- <-]. destruct (e_sock e) as [t|u] eqn:Es.
  - apply (recv_tcp_ok s e t len answers r bs i w rounds Hw He Ho Hgc Ep Es Hlen t); [|done]. pose proof (ok_stream _ _ _ _ _ _ Hok) as Hr. unfold reads_stream in *. cbn. by rewrite Es in Hr.
  - assert (forall d p e2, e2 = set_sock (Udp d) e -> world_ok (World (set_entry s e2 (w_impl w)) (owned w) (read_at s p w) (streams w))) as Hread.
    { intros d p e2 ->. apply (read_step w s e _ true); try done. by eapply entry_reread. }
    unfold recv_udp in H. destruct (u_in u) as [[src p]|]; [injection H as <- <- <-; by eapply Hread|].
    destruct dgram as [[src p]| |]; [injection H as <- <- <-; by eapply Hread|by injection H as <- <- <-|].
    destruct (wait_for _ _ _ _) as [i'|] eqn:Ew; [|done]. injection H as <- <- <-. refine (read_wait_step w s e _ _ i' Hw He Hgc _ Ew _); [done|].
    eapply entry_rewait; try done; unfold op_fits, reads_stream; cbn; by rewrite Es.
Qed.

(** The output of a connection that is there is opened. *)
Lemma entry_out ops ow g st m e t : entry_ok ops ow g st m e -> ow <> Some false -> e_sock e = Tcp t -> is_Some (t_socket t) -> pollout e = true ->
  entry_ok ops ow g st m (set_sock (Tcp (TcpEntry (t_socket t) (t_in t) true (indata t))) e).
Proof.
  intros [K1 K2 K3 K4 K5 K6 K7 Kc K8 K9] How Hs [c Hc] Hp. split; try done.
  - apply Forall_forall. intros o Ho. pose proof (proj1 (Forall_forall _ _) K5 o Ho) as Hf. unfold op_fits in *. cbn. rewrite Hs in Hf.
    destruct o; try done. destruct (Kc Ho) as [? _]. congruence.
  - unfold reads_stream in *. cbn. rewrite Hs in K9. by rewrite Hc in *.
Qed.

Lemma entry_sends ops ow g st m e : entry_ok ops ow g st m e -> ow <> Some false -> OpConnect ∉ ops ->
  entry_ok (ops ++ [OpSend]) ow g st m (set_pending (e_pending e + 1) (set_avail (pollin e) false e)).
Proof.
  intros [K1 K2 K3 K4 K5 K6 K7 Kc K8 K9] How Hn.
  assert (filter is_read (ops ++ [OpSend]) = filter is_read ops) as Ef by (rewrite filter_app; apply app_nil_r).
  split; cbn; rewrite ?Ef; try done.
  - rewrite zlen_app. change (zlen [OpSend]) with 1. lia.
  - intros _ E. by apply app_nil in E as [_ ?].
  - apply Forall_app. split; [done|]. by constructor.
  - intros Ho. apply elem_of_app in Ho as [Ho|Ho]; [done|]. by apply list_elem_of_singleton in Ho.
Qed.

Lemma sent_ok w s vec written r bs i : world_ok w -> owned w !! s = Some true ->
  do_sendv s vec written (w_impl w) = Some (r, bs, i) -> world_ok (World i (owned w) (given w) (streams w)).
Proof.
  intros Hw Ho H. destruct (owned_entry w s true Hw Ho) as (e & He & Hc & Hgc & Hok). rewrite <- Ho in Hok. assert (owned w !! s <> Some false) as Hnf by (by rewrite Ho).
  assert (world_ok (World (w_impl w) (owned w) (given w) (streams w))) as Hsame by (by destruct w).
  unfold do_sendv in H. destruct (i_closed (w_impl w)); [by injection H as <- <- <-|]. rewrite He in H.
  assert (forall e', e_no e' = e_no e -> OpConnect ∉ ops_of s (waiting (w_impl w)) ->
    entry_ok (ops_of s (waiting (w_impl w))) (owned w !! s) (given w s (e_no e)) (streams w s (e_no e)) (made (w_impl w)) e' ->
    match written with
    | Now _ => Some (Ret (zlen vec), concat vec, set_entry s e' (w_impl w))
    | Fails => Some (Error, [], set_entry s e' (w_impl w))
    | Later => i ← wait_for s OpSend (set_avail (pollin e') false e') (w_impl w); Some (Ret (zlen vec), concat vec, i)
    end = Some (r, bs, i) -> world_ok (World i (owned w) (given w) (streams w))) as Hsend.
  { clear H. intros e' En Hn Hok' H'. destruct written as [a| |].
    1,2: injection H' as <- <- <-; apply (entry_step w s e); try done; intros Hg; by apply (ok_gate_closed w Hw).
    destruct (wait_for _ _ _ _) as [i'|] eqn:Ew; [|done]. injection H' as <- <- <-.
    apply (waited w s e (set_avail (pollin e') false e') OpSend); try done. exact (entry_sends _ _ _ _ _ e' Hok' Hnf Hn). }
  destruct (e_sock e) as [t|u] eqn:Es.
  - destruct (pollout e) eqn:Ep; cbn [negb mbind option_bind] in H; [|by injection H as <- <- <-].
    assert (OpConnect ∉ ops_of s (waiting (w_impl w))) as Hn by (intros Hx; destruct (ok_connecting _ _ _ _ _ _ Hok Hx); congruence).
    destruct (t_out t); [by apply (Hsend e)|]. destruct (t_socket t) as [c|] eqn:Et; [|done].
    cbn [mbind option_bind] in H. rewrite <- Et in H. refine (Hsend _ _ Hn _ H); [done|]. by apply entry_out.
  - cbn [mbind option_bind] in H. apply (Hsend e); try done. intros Hx. pose proof (proj1 (Forall_forall _ _) (ok_fits _ _ _ _ _ _ Hok) _ Hx) as Hf.
    unfold op_fits in Hf. by rewrite Es in Hf.
Qed.

(** ** Continuations and calls *)

(** What waits for a socket when the operation [o] of [before ++ o :: after] is done. *)
Lemma completes w before s no o after : world_ok w -> waiting (w_impl w) = before ++ (s, no, o) :: after ->
  exists e, sockets (w_impl w) !! s = Some e /\ entry_of s no (w_impl w) = Some e /\ e_no e = no /\ number_of s (w_impl w) = no /\ owned w !! s <> Some false /\
    entry_ok (ops_of s before ++ o :: ops_of s after) (owned w !! s) (given w s (e_no e)) (streams w s (e_no e)) (made (w_impl w)) e.
Proof.
  intros Hw Hwt. destruct (ok_waiting w Hw s no o) as (e & He & Hno); [rewrite Hwt; apply elem_of_app; right; by left|].
  pose proof (ok_entry w Hw s e He) as Hok. rewrite Hwt, ops_of_mid, decide_True in Hok by done. cbn [app] in Hok. exists e.
  split; [done|]. split; [unfold entry_of; rewrite He; cbn; by rewrite decide_True|]. split; [done|]. split; [unfold number_of; by rewrite He|]. split; [|done].
  intros Hf. destruct (ok_fresh _ _ _ _ _ _ Hok Hf) as [E _]. by apply app_nil in E as [_ ?].
Qed.

(** The entry becomes [e2], and what is left of the operation is [release]. *)
Lemma complete_step w before s no o after e e2 st' : world_ok w -> waiting (w_impl w) = before ++ (s, no, o) :: after ->
  sockets (w_impl w) !! s = Some e -> e_no e2 = e_no e -> (forall s' n, s' <> s -> st' s' n = streams w s' n) ->
  entry_ok (ops_of s before ++ OpRelease :: ops_of s after) (owned w !! s) (given w s (e_no e)) (st' s (e_no e)) (made (w_impl w)) e2 ->
  world_ok (World (set_waiting (before ++ (s, no, OpRelease) :: after) (set_entry s e2 (w_impl w))) (owned w) (given w) st').
Proof.
  intros Hw Hwt He Hno Hst Hok. destruct (completes w before s no o after Hw Hwt) as (e' & He' & _ & Hn & _). rewrite He in He'. injection He' as <-.
  apply (socket_step w s e e2 (owned w) (before ++ (s, no, OpRelease) :: after)); cbn; try done.
  - rewrite (ok_gate w Hw), Hwt, !zlen_app, !zlen_cons. done.
  - intros s' Hs. by rewrite Hwt, !ops_of_mid, !decide_False by congruence.
  - intros s' no' o' Hx. rewrite Hwt. apply elem_of_app in Hx as [Hx|Hx]; [left; apply elem_of_app; by left|].
    apply elem_of_cons in Hx as [Hx|Hx]; [injection Hx as -> -> ->; by right|left; apply elem_of_app; right; by right].
  - intros Hg. by apply (ok_gate_closed w Hw).
  - by rewrite ops_of_mid, decide_True.
Qed.

(** An operation that is done, of what else waits: a read was the only one. *)
Lemma entry_completes ops1 ops2 ow g st st' m e e2 o : entry_ok (ops1 ++ o :: ops2) ow g st m e -> ow <> Some false ->
  e_no e2 = e_no e -> e_pending e2 = e_pending e -> e_closed e2 = e_closed e ->
  (is_read o \/ pollin e2 = pollin e /\ e_sock e2 = e_sock e) -> (o = OpSend \/ o = OpConnect \/ pollout e2 = pollout e) -> reads_stream g st' e2 ->
  entry_ok (ops1 ++ OpRelease :: ops2) ow g st' m e2.
Proof.
  intros [K1 K2 K3 K4 K5 K6 K7 Kc K8 K9] How E1 E2 E3 Hread Hout Hr. rewrite filter_app, filter_cons in K6, K7. apply Forall_app in K5 as [F1 F2]. apply Forall_cons in F2 as [F F2].
  assert (filter is_read (ops1 ++ OpRelease :: ops2) = filter is_read ops1 ++ filter is_read ops2) as Ef by (rewrite filter_app, filter_cons; done).
  assert (forall o', o' ∈ ops1 \/ o' ∈ ops2 -> o' ∈ ops1 ++ o :: ops2) as Hin by (intros o' [?|?]; apply elem_of_app; [by left|right; by right]).
  assert (is_read o -> filter is_read ops1 ++ filter is_read ops2 = []) as Honly.
  { intros Ho. rewrite decide_True in K6 by done. apply nil_length_inv. rewrite !length_app in *. cbn [length] in K6. lia. }
  split; rewrite ?E1, ?E2, ?E3, ?Ef; try done.
  - rewrite K1, !zlen_app, !zlen_cons. done.
  - intros _ E. by apply app_nil in E as [_ ?].
  - destruct (decide (is_read o)) as [Ho|Ho].
    + apply no_reads. rewrite Ef. by apply Honly.
    + destruct Hread as [?|[_ Es]]; [done|]. apply Forall_app. split; [|constructor; [done|]]; eapply Forall_impl; try done; intros o' Hf; unfold op_fits in *; by rewrite Es.
  - destruct (decide (is_read o)) as [Ho|Ho]; [rewrite Honly by done; cbn; lia|]. done.
  - destruct (decide (is_read o)) as [Ho|Ho]; [by rewrite Honly|]. destruct Hread as [?|[-> _]]; [done|]. done.
  - intros Hx. apply elem_of_app in Hx as [Hx|Hx]; [|apply elem_of_cons in Hx as [Hx|Hx]; [done|]].
    all: destruct Kc as [Kp Ks]; [apply Hin; auto|]; assert (o <> OpSend) by (intros ->; apply Ks, elem_of_app; right; by left).
    all: assert (o <> OpConnect) by (intros ->; apply (not_elem_of_nil OpConnect); rewrite <- Honly by done; apply elem_of_app; rewrite !list_elem_of_filter; first [by left|by right]).
    all: destruct Hout as [?|[?| ->]]; [done..|]; split; [done|]; intros Hs; apply elem_of_app in Hs as [Hs|Hs]; [|apply elem_of_cons in Hs as [Hs|Hs]; [done|]]; apply Ks, Hin; auto.
Qed.

Lemma completed_ok w before s no o after c i : world_ok w -> waiting (w_impl w) = before ++ (s, no, o) :: after -> complete s no o c (w_impl w) = Some i ->
  world_ok (World (set_waiting (before ++ (s, no, OpRelease) :: after) i) (owned w) (given w)
             (match o with OpConnect => stream_of s no i (streams w) | _ => streams w end)).
Proof.
  intros Hw Hwt H. destruct (completes w before s no o after Hw Hwt) as (e & He & Hof & Hno & _ & Hnf & Hok).
  unfold complete, connected, received_tcp, received_udp, write_done in H. rewrite Hof in H. cbn [mbind option_bind] in H.
  pose proof (proj1 (Forall_forall _ _) (ok_fits _ _ _ _ _ _ Hok) o ltac:(apply elem_of_app; right; by left)) as Hf. unfold op_fits in Hf.
  pose proof (ok_stream _ _ _ _ _ _ Hok) as Hr. unfold reads_stream in Hr.
  assert (forall e2, sockets (set_entry s e2 (w_impl w)) !! s = Some e2) as Hl by (intros; cbn; by rewrite lookup_insert_eq).
  destruct o as [|len| | |]; destruct c as [x|ok|d|]; try done; destruct (e_sock e) as [t|u] eqn:Es; try done.
  - injection H as <-. subst t. destruct Hr as [_ Hg]. eapply complete_step; try done; [intros; by apply stream_of_ne|].
    eapply entry_completes; try done; [by left|auto|]. destruct x as [x|].
    + unfold stream_of. rewrite Hl. cbn. by rewrite Hno, put_at_eq, <- Hno, Hg.
    + by rewrite (stream_of_none s _ _ _ _ (Hl _)).
  - destruct Hf as (Hlen & Hin & x & Hx). rewrite Hx in H, Hr. destruct (t_socket t) as [c0|] eqn:Ec; [|destruct Hr as [-> _]; done].
    rewrite Hin in Hr. cbn [app default] in Hr.
    assert (exists t', i = set_entry s (set_avail true (pollout e) (set_sock (Tcp t') e)) (w_impl w) /\
              reads_stream (given w s (e_no e)) (streams w s (e_no e)) (set_avail true (pollout e) (set_sock (Tcp t') e))) as (t' & -> & Hr').
    { destruct ok; cbn [mbind option_bind] in H.
      - destruct (read_up_to len x) as [buf inp] eqn:Erd. cbn [mbind option_bind] in H. injection H as <-. eexists. split; [done|].
        unfold reads_stream. cbn. destruct (read_up_to_spec len x Hlen) as [Hrd _]. rewrite Erd in Hrd. cbn in Hrd. by rewrite Hrd.
      - injection H as <-. eexists. split; [done|]. unfold reads_stream. cbn. by rewrite Ec, Hin, Hx. }
    eapply complete_step; try done. eapply entry_completes; try done; [by left|auto].
  - injection H as <-. eapply complete_step; [done..| |done|]; [by destruct d|].
    eapply entry_completes; try done; destruct d; try done; [by left..|auto| |]; try (unfold reads_stream; by rewrite Es). by auto.
  - injection H as <-. eapply complete_step; try done. eapply entry_completes; try done; [by right|auto|]. unfold reads_stream. cbn. by rewrite Es.
  - injection H as <-. eapply complete_step; try done. eapply entry_completes; try done; [by right|auto|]. unfold reads_stream. cbn. by rewrite Es.
Qed.

(** A step that leaves the sockets and what waits as they are. *)
Lemma members_step w (i : impl) : world_ok w ->
  sockets i = sockets (w_impl w) -> waiting i = waiting (w_impl w) -> gate i = gate (w_impl w) -> made i = made (w_impl w) ->
  (gate_closed i = true -> i_closed i = true /\ owned w = ∅) ->
  (is_uint 64 (calls i) /\ timer_armed i = negb (calls i =? 0)) -> world_ok (World i (owned w) (given w) (streams w)).
Proof. intros [H1 H2 H3 H4 H5 H6 H7] E1 E2 E3 E4 Hg Ht. split; cbn [w_impl owned given streams]; rewrite ?E1, ?E2, ?E3, ?E4; done. Qed.

Lemma ended_ok w : world_ok w -> 0 < calls (w_impl w) -> world_ok (World (end_call (w_impl w)) (owned w) (given w) (streams w)).
Proof.
  intros Hw Hc. destruct (ok_timer w Hw) as [Hu Ht]. unfold is_uint in Hu. assert (u64 (calls (w_impl w) - 1) = calls (w_impl w) - 1) as E by (apply wrap_small; unfold is_uint; lia).
  unfold end_call. rewrite E. destruct (Z.eqb_spec (calls (w_impl w) - 1) 0) as [E0|E0]; apply members_step; cbn; try done; try (apply (ok_gate_closed w Hw)).
  - rewrite E0. by split.
  - split; [unfold is_uint; lia|]. rewrite Ht. destruct (Z.eqb_spec (calls (w_impl w)) 0), (Z.eqb_spec (calls (w_impl w) - 1) 0); try done; lia.
Qed.

Lemma query_members (i : impl) (inline : bool) : 0 <= calls i -> calls i + 1 < 2 ^ 64 -> timer_armed i = negb (calls i =? 0) ->
  (let '(c, i) := dns_call_begin i in dns_call_end c (if inline then end_call i else i)) =
    (if inline then set_calls (calls i) (timer_armed i) i else set_calls (calls i + 1) true i).
Proof.
  intros H0 Hc Ht. unfold dns_call_begin, end_call, dns_call_end.
  assert (u64 (calls i + 1) = calls i + 1) as E by (apply wrap_small; lia).
  assert (u64 (calls i + 1 - 1) = calls i) as E' by (rewrite Z.add_simpl_r; apply wrap_small; lia).
  rewrite E. cbn [calls set_calls]. rewrite E', Ht. destruct (Z.eqb_spec (calls i) 0) as [E0|E0].
  - rewrite E0. by destruct inline.
  - destruct (Z.eqb_spec (calls i + 1) 1); [lia|]. by destruct inline.
Qed.

Lemma queried_ok w (inline : bool) : world_ok w -> calls (w_impl w) + 1 < 2 ^ 64 ->
  world_ok (World (let '(c, i) := dns_call_begin (w_impl w) in dns_call_end c (if inline then end_call i else i)) (owned w) (given w) (streams w)).
Proof.
  intros Hw Hc. destruct (ok_timer w Hw) as [Hu Ht]. unfold is_uint in Hu. rewrite query_members by (try done; lia).
  destruct inline; apply members_step; cbn; try done; try (by apply (ok_gate_closed w Hw)). split; [unfold is_uint; lia|].
  destruct (Z.eqb_spec (calls (w_impl w) + 1) 0); [lia|done].
Qed.

(** When c-ares has no socket left there is nothing for the loop of [close()] to close. *)
Lemma close_loop_nothing later (i : impl) fds : (forall s, s ∈ fds -> exists e, sockets i !! s = Some e /\ e_closed e = true) -> close_loop fds later i = Some i.
Proof.
  induction fds as [|s fds IH]; intros H; [done|]. cbn [close_loop]. destruct (H s) as (e & He & Hc); [by left|].
  unfold do_close. rewrite He. cbn [mbind option_bind]. rewrite Hc. cbn [mbind option_bind]. rewrite decide_True by done. apply IH. intros s' Hs. apply H. by right.
Qed.

Lemma shut_down w later : world_ok w -> owned w = ∅ -> close_sockets later (w_impl w) = Some (close_gate (w_impl w)).
Proof.
  intros Hw Ho. unfold close_sockets. rewrite close_loop_nothing; [done|]. intros s Hs. apply list_elem_of_fmap in Hs as ([s' e] & -> & Hs). apply elem_of_map_to_list in Hs.
  exists e. split; [done|]. pose proof (ok_owned _ _ _ _ _ _ (ok_entry w Hw s' e Hs)) as Hk. rewrite Ho, lookup_empty in Hk.
  destruct (e_closed e); [done|]. destruct Hk as [Hk _]. by destruct (Hk eq_refl).
Qed.

Lemma dns_step_ok w w' : step w w' -> world_ok w -> world_ok w'.
Proof.
  intros Hs Hw. destruct Hs as [type s i w H|type i w H|s later r i w Ho H|s addr c r i w Ho H|rounds s len answers dgram r bs i w Ho Hl H|s vec written r bs i w Ho H
    |before s no o after c i w Hwt H|before s no after i w Hwt H|inline w Hc|w Hc|w|later i w Hc Ho H].
  - by eapply socket_added.
  - assert (i = w_impl w) as ->; [|by destruct w]. unfold do_socket in H. destruct (i_closed (w_impl w)); [by injection H|].
    destruct (next_fd (w_impl w)); [|done]. destruct type; [done..|]. by injection H.
  - by eapply closed_ok.
  - by eapply connected_ok.
  - by eapply read_ok.
  - by eapply sent_ok.
  - by eapply completed_ok.
  - by eapply released_ok.
  - by apply queried_ok.
  - by apply ended_ok.
  - apply members_step; try done; [|by apply ok_timer]. intros Hg. split; [done|]. by apply (ok_gate_closed w Hw).
  - rewrite (shut_down w later Hw Ho) in H. injection H as <-. apply members_step; try done. by apply ok_timer.
Qed.

Lemma steps_ok w : rtc step world_init w -> world_ok w.
Proof. intros H. assert (forall w1 w2, rtc step w1 w2 -> world_ok w1 -> world_ok w2) as Hs by (induction 1; eauto using dns_step_ok). by apply (Hs _ _ H), dns_init_ok. Qed.

(** ** What is promised *)

Lemma next_fd_loop_taken fuel : forall s (m : gmap fd sock_entry), next_fd_loop fuel s m = None -> forall k, s <= k <= s + Z.of_nat fuel -> k ∈ dom m.
Proof.
  induction fuel as [|fuel IH]; intros s m H k Hk; cbn [next_fd_loop] in H; destruct (m !! s) as [e|] eqn:E; try done.
  - assert (k = s) as -> by lia. apply elem_of_dom. by eexists.
  - destruct (decide (k = s)) as [->|Hne]; [apply elem_of_dom; by eexists|]. apply (IH _ _ H). lia.
Qed.

(** As many numbers as there are sockets, and one more, cannot all be taken. *)
Lemma next_fd_total (i : impl) : exists s, next_fd i = Some s /\ sockets i !! s = None.
Proof.
  destruct (next_fd i) as [s|] eqn:E; unfold next_fd in E; [exists s; split; [done|by eapply next_fd_loop_free]|]. exfalso.
  set (n := size (sockets i)) in *. set (first := Z.of_nat n + socket_offset) in *.
  assert ((list_to_set (seqZ first (Z.of_nat (S n))) : gset Z) ⊆ dom (sockets i)) as Hsub.
  { intros k Hk. apply elem_of_list_to_set, elem_of_seqZ in Hk. apply (next_fd_loop_taken _ _ _ E). lia. }
  apply subseteq_size in Hsub. rewrite size_list_to_set, length_seqZ, size_dom in Hsub by apply NoDup_seqZ. lia.
Qed.

(** The outcomes of an operation. *)
Definition op_outcome (o : op) (c : @completion I) : bool :=
  match o, c with OpConnect, Connected _ | OpReadTcp _, Received _ | OpReadUdp, Datagram _ | OpSend, Sent => true | _, _ => false end.
(** A connection that was refused later than it was asked for: ready, and not there. *)
Definition refused (e : sock_entry) : bool :=
  match e_sock e with Tcp t => match t_socket t with None => pollin e || pollout e | Some _ => false end | Udp _ => false end.
Definition has_more (s : fd) (e : sock_entry) (w : world) : Prop :=
  match e_sock e with Tcp _ => given w s (e_no e) <> streams w s (e_no e) | Udp _ => True end.

(** What holds of an execution: what waits keeps its entry; an entry is closed as c-ares
    closes it, and erased as soon as nothing holds it; the gate counts what waits; reads
    are the stream in order; the timer runs while there are calls; and nothing that c-ares
    or a continuation may do is undefined. *)
Record promised (w : world) : Prop := {
  waiting_have_entries : forall s no o, (s, no, o) ∈ waiting (w_impl w) -> is_Some (entry_of s no (w_impl w));
  gate_counts : gate (w_impl w) = zlen (waiting (w_impl w));
  owned_are_open : forall s, is_Some (owned w !! s) <-> exists e, sockets (w_impl w) !! s = Some e /\ e_closed e = false;
  closed_are_held : forall s e, sockets (w_impl w) !! s = Some e -> e_closed e = true -> exists no o, (s, no, o) ∈ waiting (w_impl w);
  reads_in_order : forall s e t c, sockets (w_impl w) !! s = Some e -> e_sock e = Tcp t -> t_socket t = Some c ->
    given w s (e_no e) ++ indata t ++ in_pending (default c (t_in t)) = streams w s (e_no e);
  timer_runs : timer_armed (w_impl w) = negb (calls (w_impl w) =? 0);
  sockets_are_new : forall type, exists r i, do_socket type (w_impl w) = Some (r, i) /\ forall s, r = Ret s -> sockets (w_impl w) !! s = None;
  closes : forall s later, is_Some (owned w !! s) -> exists i, do_close s later (w_impl w) = Some (Ret 0, i);
  connects : forall s addr c, owned w !! s = Some false -> is_Some (do_connect s addr c (w_impl w));
  sends : forall s e vec written, owned w !! s = Some true -> sockets (w_impl w) !! s = Some e -> refused e = false -> is_Some (do_sendv s vec written (w_impl w));
  receives : forall s e len answers dgram, owned w !! s = Some true -> 0 < len -> sockets (w_impl w) !! s = Some e -> refused e = false -> has_more s e w ->
    is_Some (do_recvfrom 2 s len answers dgram (w_impl w));
  completions : forall s no o c, (s, no, o) ∈ waiting (w_impl w) -> op_outcome o c = true -> is_Some (complete s no o c (w_impl w));
  releases : forall before s no after, waiting (w_impl w) = before ++ (s, no, OpRelease) :: after -> is_Some (release_socket s (set_waiting (before ++ after) (w_impl w)));
  shuts_down : forall later, owned w = ∅ -> is_Some (close_sockets later (w_impl w)) }.

Lemma wait_for_defined w s e e2 o : sockets (w_impl w) !! s = Some e -> gate_closed (w_impl w) = false -> is_Some (wait_for s o e2 (w_impl w)).
Proof.
  intros He Hg. unfold wait_for, use_socket, gate_enter. cbn [gate_closed set_entry set_sockets]. rewrite Hg. cbn [mbind option_bind sockets set_gate set_entry set_sockets].
  rewrite lookup_insert_eq. by eexists.
Qed.

Lemma release_defined s e (i : impl) : sockets i !! s = Some e -> is_Some (release_socket s i).
Proof. intros He. unfold release_socket. rewrite He. by eexists. Qed.

Lemma close_defined w s later : world_ok w -> is_Some (owned w !! s) -> exists i, do_close s later (w_impl w) = Some (Ret 0, i).
Proof.
  intros Hw [b Hb]. destruct (owned_entry w s b Hw Hb) as (e & He & Hc & Hg & _). unfold do_close, gate_enter. rewrite He. cbn [mbind option_bind]. rewrite Hc.
  cbn [gate_closed set_entry set_sockets]. rewrite Hg. cbn [mbind option_bind].
  destruct (release_defined s (set_closed e) (set_gate (gate (set_entry s (set_closed e) (w_impl w)) + 1) (set_entry s (set_closed e) (w_impl w)))) as [i Hi]; [cbn; apply lookup_insert_eq|].
  destruct (e_sock e) as [t|]; [destruct (t_out t && later); [by eexists|]|]; rewrite Hi; by eexists.
Qed.

Lemma connect_defined w s addr c : world_ok w -> owned w !! s = Some false -> is_Some (do_connect s addr c (w_impl w)).
Proof.
  intros Hw Ho. destruct (owned_entry w s false Hw Ho) as (e & He & Hc & Hg & Hok). destruct (ok_fresh _ _ _ _ _ _ Hok eq_refl) as [_ (Hi & Hp & _)].
  unfold do_connect, get_socket_entry. destruct (i_closed (w_impl w)); [by eexists|]. rewrite He. cbn [mbind option_bind]. rewrite Hc. destruct addr as [sa|]; [|by eexists].
  rewrite Hi, Hp. cbn [orb]. destruct (e_sock e); [|by eexists]. destruct c; [by eexists..|].
  destruct (wait_for_defined w s e (set_avail false false e) OpConnect He Hg) as [i ->]. by eexists.
Qed.

Lemma send_defined w s e vec written : world_ok w -> owned w !! s = Some true -> sockets (w_impl w) !! s = Some e -> refused e = false ->
  is_Some (do_sendv s vec written (w_impl w)).
Proof.
  intros Hw Ho He Hr. destruct (owned_entry w s true Hw Ho) as (e' & He' & _ & Hg & _). rewrite He in He'. injection He' as <-.
  unfold do_sendv. destruct (i_closed (w_impl w)); [by eexists|]. rewrite He. unfold refused in Hr.
  assert (forall e', is_Some (match written with
    | Now _ => Some (Ret (zlen vec), concat vec, set_entry s e' (w_impl w))
    | Fails => Some (Error, [], set_entry s e' (w_impl w))
    | Later => i ← wait_for s OpSend (set_avail (pollin e') false e') (w_impl w); Some (Ret (zlen vec), concat vec, i)
    end)) as Hsend.
  { intros e'. destruct written; [by eexists..|]. destruct (wait_for_defined w s e (set_avail (pollin e') false e') OpSend He Hg) as [i ->]. by eexists. }
  destruct (e_sock e) as [t|u]; [|by apply Hsend]. destruct (pollout e); cbn [negb mbind option_bind]; [|by eexists].
  destruct (t_out t); [by apply Hsend|]. destruct (t_socket t); [by apply Hsend|]. by rewrite orb_true_r in Hr.
Qed.

Lemma recv_tcp_defined w s e t len answers : sockets (w_impl w) !! s = Some e -> gate_closed (w_impl w) = false -> 0 < len ->
  is_Some (t_socket t) -> (indata t = [] -> forall c, t_socket t = Some c -> in_pending (default c (t_in t)) <> []) ->
  is_Some (recv_tcp 2 s len answers e t (w_impl w)).
Proof.
  intros He Hg Hlen [c Hc] Hmore. cbn [recv_tcp]. destruct (Z.eqb_spec (zlen (indata t)) 0) as [Hz|]; cbn [negb]; [|by eexists].
  apply zlen_0_nil in Hz. specialize (Hmore Hz c Hc). rewrite Hc.
  replace (match t_in t with Some x => Some x | None => Some c end) with (Some (default c (t_in t))) by (by destruct (t_in t)). cbn [mbind option_bind t_in t_socket t_out indata].
  destruct (answers 1%nat); [|by eexists|].
  - destruct (read_up_to len (default c (t_in t))) as [buf inp] eqn:Erd. destruct (read_up_to_spec len (default c (t_in t)) Hlen) as (_ & _ & Hend). rewrite Erd in Hend. cbn in Hend.
    destruct (Z.eqb_spec (zlen buf) 0) as [Hb|]; cbn [negb indata]; [|by eexists]. apply zlen_0_nil in Hb. by destruct (Hmore (Hend Hb)).
  - destruct (wait_for_defined w s e (set_avail false (pollout e) (set_sock (Tcp (TcpEntry (Some c) (Some (default c (t_in t))) (t_out t) (indata t))) e)) (OpReadTcp len) He Hg) as [i ->]. by eexists.
Qed.

Lemma recv_defined w s e len answers dgram : world_ok w -> owned w !! s = Some true -> 0 < len -> sockets (w_impl w) !! s = Some e -> refused e = false -> has_more s e w ->
  is_Some (do_recvfrom 2 s len answers dgram (w_impl w)).
Proof.
  intros Hw Ho Hlen He Hr Hmore. destruct (owned_entry w s true Hw Ho) as (e' & He' & Hc & Hg & Hok). rewrite He in He'. injection He' as <-. pose proof (ok_stream _ _ _ _ _ _ Hok) as Hst.
  unfold do_recvfrom, get_socket_entry. destruct (i_closed (w_impl w)); [by eexists|]. rewrite He. cbn [mbind option_bind]. rewrite Hc.
  destruct (pollin e) eqn:Ep; cbn [negb]; [|by eexists]. unfold refused, has_more, reads_stream in *. rewrite Ep in Hr. destruct (e_sock e) as [t|u] eqn:Es.
  - destruct (t_socket t) as [c|] eqn:Et; [|done]. apply (recv_tcp_defined w); [done..|by eexists|]. intros Hin c' Hc' Hp. rewrite Et in Hc'. injection Hc' as <-.
    apply Hmore. by rewrite <- Hst, Hin, Hp, !app_nil_r.
  - unfold recv_udp. destruct (u_in u) as [[]|]; [by eexists|]. destruct dgram as [[]| |]; [by eexists..|].
    destruct (wait_for_defined w s e (set_avail false (pollout e) e) OpReadUdp He Hg) as [i ->]. by eexists.
Qed.

Lemma complete_defined w s no o c : world_ok w -> (s, no, o) ∈ waiting (w_impl w) -> op_outcome o c = true -> is_Some (complete s no o c (w_impl w)).
Proof.
  intros Hw Hx Hc. apply list_elem_of_split in Hx as (before & after & Hwt). destruct (completes w before s no o after Hw Hwt) as (e & He & Hof & _ & _ & _ & Hok).
  pose proof (proj1 (Forall_forall _ _) (ok_fits _ _ _ _ _ _ Hok) o ltac:(apply elem_of_app; right; by left)) as Hf. unfold op_fits in Hf.
  unfold complete, received_tcp. rewrite Hof. cbn [mbind option_bind]. destruct o as [|len| | |]; destruct c as [x|ok|d|]; try done; destruct (e_sock e) as [t|u]; try done; try by eexists.
  destruct Hf as (_ & _ & x & ->). destruct ok; cbn [mbind option_bind]; [|by eexists]. destruct (read_up_to len x). by eexists.
Qed.

(** C23. The sockets of the resolver: in every execution, in any order of what c-ares calls
    and of what the network finishes, an operation or a close that waits finds the entry
    that it began with, not another of the same number; an entry is open exactly while
    c-ares has its socket, and a closed one is there only as long as something holds it; the
    gate counts what waits; what c-ares has read from a connection, what is buffered and
    what is left are the stream in order; the timer runs exactly while there are calls; a
    new socket has a free number; and closing, connecting, completing, releasing and
    shutting down, and reading and sending on connections that were not refused and have
    not ended, never run into something undefined. *)
Theorem dns_sockets w : rtc step world_init w -> promised w.
Proof.
  intros Hs. pose proof (steps_ok w Hs) as Hw. split.
  - intros s no o H. apply list_elem_of_split in H as (before & after & Hwt). destruct (completes w before s no o after Hw Hwt) as (e & _ & Hof & _). by eexists.
  - by apply ok_gate.
  - intros s. split.
    + intros [b Hb]. destruct (owned_entry w s b Hw Hb) as (e & He & Hc & _). by exists e.
    + intros (e & He & Hc). by apply (ok_owned _ _ _ _ _ _ (ok_entry w Hw s e He)).
  - intros s e He Hc. pose proof (ok_closed _ _ _ _ _ _ (ok_entry w Hw s e He) Hc) as Hn. destruct (ops_of s (waiting (w_impl w))) as [|o l] eqn:E; [done|].
    assert (o ∈ ops_of s (waiting (w_impl w))) as Ho by (rewrite E; by left). apply ops_of_in in Ho as [no Ho]. by exists no, o.
  - intros s e t c He Et Ec. pose proof (ok_stream _ _ _ _ _ _ (ok_entry w Hw s e He)) as Hst. unfold reads_stream in Hst. by rewrite Et, Ec in Hst.
  - by apply ok_timer.
  - intros type. unfold do_socket. destruct (i_closed (w_impl w)); [by do 2 eexists|]. destruct (next_fd_total (w_impl w)) as (s & -> & Hfree). cbn [mbind option_bind].
    destruct type; do 2 eexists; (split; [done|]); intros s' E; [by injection E as <-..|done].
  - intros s later. by apply close_defined.
  - intros s addr c. by apply connect_defined.
  - intros s e vec written. by apply send_defined.
  - intros s e len answers dgram. by apply recv_defined.
  - intros s no o c. by apply complete_defined.
  - intros before s no after Hwt. destruct (completes w before s no OpRelease after Hw Hwt) as (e & He & _). by apply (release_defined s e).
  - intros later Ho. rewrite (shut_down w later Hw Ho). by eexists.
Qed.
End Dns.

(** ** Executions *)

Import Core.Impl.

(** A step, with what it leaves evaluated. *)
#[local] Ltac dns_step rule :=
  eapply rtc_l; [eapply rule; vm_compute; by try eexists|];
  match goal with |- rtc _ (World ?i ?o ?g ?st) _ =>
    let i' := eval vm_compute in i in let o' := eval vm_compute in o in
    replace i with i' by (by vm_compute); replace o with o' by (by vm_compute) end.

(** A connection that is made later and gives three bytes; c-ares reads two of them
    before what made the connection is released. *)
Definition connection : list (list Z) := [[7; 8]; [9]].
Definition after_read (w : world (I := list (list Z))) : Prop := given w 1 0%nat = [7; 8] /\ gate (w_impl w) = 1.

Lemma connection_read : exists w, rtc step world_init w /\ after_read w.
Proof.
  eexists. split.
  - dns_step (step_socket SOCK_STREAM). dns_step (step_connect 1 (Some (1, 53)) Later).
    dns_step (step_complete [] 1 0 OpConnect [] (Connected (Some connection))). dns_step (step_recv 2 1 2 (fun _ => Now tt) Later). apply rtc_refl.
  - by vm_compute.
Qed.

Lemma dns_sockets_witness : exists w, rtc step world_init w /\ after_read w /\ promised w.
Proof. destruct connection_read as (w & Hw & Hr). exists w. split; [done|]. split; [done|]. by apply dns_sockets. Defined.

(** A connection that is refused later than it was asked for is ready like any other, and
    what c-ares does next uses a socket that is not there. *)
Lemma refused_connection : exists w, rtc (step (I := list (list Z))) world_init w /\ owned w !! 1 = Some true /\
  (forall vec written, do_sendv 1 vec written (w_impl w) = None) /\ (forall rounds len answers dgram, do_recvfrom rounds 1 len answers dgram (w_impl w) = None).
Proof.
  eexists. split.
  { dns_step (step_socket SOCK_STREAM). dns_step (step_connect 1 (Some (1, 53)) Later).
    dns_step (step_complete [] 1 0 OpConnect [] (Connected None)). apply rtc_refl. }
  split; [done|]. split; [done|]. intros rounds len answers dgram. by destruct rounds.
Qed.

(** A read at the end of a connection that is done at once is begun again for ever. *)
Lemma end_of_stream : exists w, rtc (step (I := list (list Z))) world_init w /\ owned w !! 1 = Some true /\
  forall rounds len dgram, do_recvfrom rounds 1 len (fun _ => Now tt) dgram (w_impl w) = None.
Proof.
  eexists. split; [dns_step (step_socket SOCK_STREAM); dns_step (step_connect 1 (Some (1, 53)) (Now ([] : list (list Z)))); apply rtc_refl|].
  split; [done|]. intros rounds len dgram. unfold do_recvfrom. vm_compute (i_closed _).
  assert (forall e t i, indata t = [] -> default ([] : list (list Z)) (t_in t) = [] -> t_socket t = Some [] -> recv_tcp rounds 1 len (fun _ => Now tt) e t i = None) as Hloop.
  { induction rounds as [|rounds IH]; intros e t i E1 E2 E3; [done|]. cbn [recv_tcp]. rewrite E1, E3. cbn [zlen length Z.eqb negb].
    replace (match t_in t with Some x => Some x | None => Some [] end) with (Some ([] : list (list Z))) by (destruct (t_in t); cbn in E2; by subst). by apply IH. }
  by apply Hloop.
Qed.

(** What [do_sendv] returns for three bytes in two parts is two. *)
Example sends_parts (c : list (list Z)) : exists i,
  do_sendv 1 [[1; 2]; [3]] (Now tt) (set_entry 1 (set_avail true true (entry_init (Tcp (TcpEntry (Some c) None false [])) 0)) impl_init) = Some (Ret 2, [1; 2; 3], i).
Proof. by eexists. Qed.
